(* ===== verification/_CoqProject ===== *)
-Q . S2P
Prelude.v
Words.v
Buffers.v
CString.v
Sm3.v
Sm4.v
Sm4Stream.v
Base64.v
AstPackage.v
Ini.v
IniDoc.v
IniFile.v
IniSpec.v
AstConfig.v
AstConf.v
AstAgent.v
StdMap.v
Decimal.v
Double.v
DoubleArith.v
DoubleValid.v
JsonValue.v
JsonOrder.v
JsonOps.v
JsonWriter.v
JsonReader.v
JsonGrammar.v
JsonRead.v
JsonFormat.v
JsonText.v
JsonStyled.v
JsonRoundtrip.v
JsonTokens.v
JsonSafe.v
JsonIter.v
JsonPath.v
JsonBatch.v
Version.v
TaskHead.v
TaskList.v
TaskHistory.v
TaskExam.v
TaskFile.v
TaskStores.v
TaskLock.v
Socket.v
AstClient.v
ServerCtrl.v
Log.v
Ftp.v
FtpResume.v
CharEncode.v
