(* ===== verification/Prelude.v ===== *)
(** * A verification library for mastertest

    The program is an agent that registers with a server, keeps its identity
    and session key in a configuration file, exchanges encrypted packets whose
    bodies are JSON documents, and carries out the tasks it receives.  The
    library models its own logic; the sources are under src/public/.

    ** Parts and files

    - [Prelude]: the error monad [cpp] in which the models of C++ functions
      run, its loops [cfor] and [cwhile], tactics and lists.
      [Words]: 32-bit and 64-bit machine words and bytes.  [Buffers]: C
      buffers as lists of bytes with checked reads and writes, memcpy and
      strings.  [CString]: the string functions of the C library.
    - [Sm3] (sm/sm3.cpp): the SM3 hash, with the standard written
      independently.  [Sm4] (sm/sm4.cpp): the SM4 cipher, ECB, CBC and
      CBC-MAC.  [Sm4Stream]: its incremental interface.
    - [Base64] (encode and decode of astPackage/astpackage.cpp) and
      [AstPackage] (the other functions of that file): packets, keys,
      registration.
    - [Ini] (rwIni/ini_parser.cpp): the configuration file functions, which
      work on offsets into a buffer.  [IniDoc]: the document a file text
      stands for, and what the functions find and change in it, with their
      comparison of prefixes.  [IniFile]: the functions compute that, and read
      any text.  [IniSpec]: a document as a map from names to values, written
      without the code, and the functions against it.
      [AstConfig] (astconfig.cpp): the class around them.
    - [AstConf]: LoadConf and SaveConf of astpackage.cpp against the interface
      [Store] of a configuration store.  [AstAgent]: the store of [AstConfig]
      keeps the promise of the interface, and the life of an agent object.
    - [StdMap]: std::map as an ordered association list.  [Decimal],
      [Double]: decimal numerals, binary64 numbers and their conversions.
    - [JsonValue] (json/json_value.cpp): values as trees, references as paths.
      [JsonOrder]: the comparison operators.  [JsonOps]: the operations on
      arrays and objects, and the conversions.
    - [JsonWriter] (json/json_writer.cpp): the texts of numbers and strings,
      the compact writer and the two indenting ones, which share their code
      up to the class [Layout].
    - [JsonReader] (json/json_reader.cpp): the reader, in a state monad over
      the fields of the class.  [JsonGrammar]: the texts of a value.
      [JsonRead]: the reader reads them.  [JsonFormat]: the texts the writers
      produce for numbers and strings are texts of the grammar.  [JsonText]:
      the value a written document spells.  [JsonStyled]: the indenting
      writers under any layout.  [JsonRoundtrip]: writing and reading back.
      [DoubleValid]: rounding yields valid doubles.  [JsonTokens], [JsonSafe]:
      the reader on any text at all.
    - [JsonIter] (json/json_valueiterator.inl, include/value.h): the iterators
      over the members of a value.  [JsonPath] (json/json_value.cpp): the
      classes [PathArgument] and [Path].  [JsonBatch]
      (json/json_batchallocator.h): the batch allocator.
    - [Version], [TaskHead], [TaskList], [TaskHistory], [TaskExam],
      [TaskFile], [TaskStores], [TaskLock] (astTask/astTask.cpp and
      astTask.h): identifiers and version numbers; task heads that share
      reference-counted blocks in a store; the task list and its vector; its
      histories; health checks and their percentages ([DoubleArith]: products
      and quotients of small integers in double precision); saving and loading
      through streams; the stores of software and patches; the lock flag
      between threads, as a step relation.
    - [Socket] (zsocket.h): sockets over the interface [System] of the calls of
      the operating system; [Connection] is what a live connection promises.
      [AstClient] (astclient.cpp): connecting, one request and its reply.
    - [ServerCtrl] (astPackage/astserverctrl.cpp, define.h): the class that
      registers the agent, composed from the client, the packets, the JSON
      writer and reader and the device data, which [Machine] provides.
    - [Log] (log/logOut.cpp): the log file over the interface [LogHost] of
      files and clock, and the covering of credentials.
    - [Ftp] (ftp/ftpclient.cpp): the FTP client over the interface [FtpHost],
      in a state monad.  [FtpResume]: a server and its files as a reference
      machine, and downloads against it.
    - [CharEncode] (characterEncode/charEncodeTransfer.cpp): conversions of
      character sets over the interface [Iconv].

    ** How the code is modelled

    A function of the program becomes a function with the same name and the
    same order of tests.  Memory that a function writes is passed in and
    returned: a buffer is the list of its bytes, and an access outside it is
    [Undef], as are the overflow of a signed sum the models check and a null
    dereference.  [Throw] is an exception, [Abort] a failed assertion.  Values
    the program reads without having written them are an argument ([junk]).
    An [int] is a [Z] in its range, [u8], [u32], [s32] the conversions; the
    negation of the least int in the JSON sources is taken to wrap, [ROL] of
    sm3.cpp by a multiple of 32 to give the word, and a delete through a
    [void *] in astTask.h to run no destructor ([TaskHead.undestroyed] keeps the
    tasks that end like this).  The lists of [TaskStores] are taken to be
    shorter than 2^31.  A function that ends without the result it declares is
    [Undef]; for the log, [log_steps] is what its statements do before that.

    [NoFuel] marks a loop of a model that runs out of its bound and stands
    for no behaviour of the program, or a wait for a lock flag that no other
    thread clears.  The bounds are the length of the text a
    loop walks over, the height of the value a recursion descends, or, for a
    transfer, its bytes and the number of interruptions and waits the
    connection still makes ([patience]); the theorems state a returned
    result, so they show that the bound is enough.

    ** Theorems

    Hash and cipher: SM3 fed in pieces is the standard digest; the SM4 modes
    and the incremental interface compute the standard and are inverse; the
    status on every branch of the padding check; what the MAC of a partial
    block covers.  Packets: what one side puts the other gets, the text
    of a message that asks for a check is authentic, and of one that does not
    unchecked, registration, the Base64 round trip, the
    saved configuration loads again, the class invariant through any history.
    Configuration files: on names no shorter name of the file is a prefix of, the
    functions refine lookup and update of a map; they read any text inside their
    buffers.  JSON: the reader returns the value of every text of the grammar,
    and the document of each writer as [norm] of the value it was written for
    (gaps become null, integers and doubles what the reader makes of their
    digits), which is the value itself when it is [settled]; on any other text it ends inside the text with a
    well-formed value, and answers whether it recorded errors; the operations
    on objects and arrays; well-formedness of every value built, with
    the indices the calls create ([shape]); the conversions; the order, and the
    operator that does not follow it; iterators visit every element once, and
    which of their differences is defined; paths reach the node they name and
    leave the rest alone; objects of the allocator do not overlap in pages
    whose size fits an [unsigned int].  Tasks:
    the list refines a plain list of tasks through any history of calls; the
    reference counts are exact, so that no block is used after it was freed and
    every block is freed, though not what the task objects own; what is saved is loaded again; the percentages add up to 100; the
    patch store refines a map; when the lock excludes, when it does not, and
    that a call of it ends; the order of versions.  Sockets: transfers are
    complete and in order whatever their cuts and delays; a request and its
    reply, from PutData on the one side to GetData on the other; what a reply
    with a false length does.  Registration: the document of the device goes
    out in a packet, and the reply of a server with the same root key puts
    identifier and key into the codec; no success is ever reported.  Log: the credentials of a compact document are
    covered; covering ends; the statements that log append a line and move a full file
    away, and the call is then undefined.  FTP: a download completes a partial
    file, from a server whose first reply and whose data do not let a wait of
    one second pass, and what happens with other servers; the address of a
    passive connection.

    ** Not modelled

    The BitTorrent client (libtorrent), the database (SQLite) and the functions
    that read the state of the operating system (Qt, lscpu, /proc) are calls of
    other people's code, as is the plain C Base64 under base64/.  [ServerCtrl]
    takes what the functions about the system find as an interface.  The variant of the JSON containers behind
    JSON_VALUE_USE_INTERNAL_MAP and the code after [#if 0] are not
    compiled. *)
From stdpp Require Export base tactics option list numbers strings gmap.
From Stdlib Require Export ZArith Lia Ascii.

#[global] Open Scope Z_scope.

(** ** Outcomes of C++ code

    The modelled functions run in one error monad.  [Ret] is a normal return,
    [Throw] a C++ exception with its message, [Abort] a failed [assert],
    [Undef] an execution the language leaves undefined (an access outside a
    buffer, a null dereference, signed overflow) and [NoFuel] marks a loop of
    the model that was given too little fuel: it stands for no behaviour of
    the program, and the theorems show it is not reached. *)
Inductive cpp (A : Type) :=
| Ret (a : A)
| Throw (msg : string)
| Abort
| Undef
| NoFuel.
Arguments Ret {A} _.
Arguments Throw {A} _.
Arguments Abort {A}.
Arguments Undef {A}.
Arguments NoFuel {A}.

#[global] Instance cpp_ret : MRet cpp := @Ret.
#[global] Instance cpp_bind : MBind cpp := fun A B f m =>
  match m with
  | Ret a => f a
  | Throw e => Throw e
  | Abort => Abort
  | Undef => Undef
  | NoFuel => NoFuel
  end.
#[global] Instance cpp_fmap : FMap cpp := fun A B f m => m ≫= (fun a => Ret (f a)).

(** [defined b] is the proviso of an operation that is undefined unless [b]. *)
Definition defined (b : bool) : cpp unit := if b then Ret tt else Undef.

(** [assert] of <assert.h>. *)
Definition cassert (b : bool) : cpp unit := if b then Ret tt else Abort.

Definition is_ret {A} (m : cpp A) : bool := if m is Ret _ then true else false.

(** The result of a computation satisfies [Q] and is reached: total correctness. *)
Definition returns {A} (m : cpp A) (Q : A -> Prop) : Prop :=
  match m with Ret a => Q a | _ => False end.

Lemma bind_ret_l {A B} (a : A) (f : A -> cpp B) : (Ret a ≫= f) = f a.
Proof. reflexivity. Qed.

Lemma bind_ret_r {A} (m : cpp A) : (m ≫= Ret) = m.
Proof. by destruct m. Qed.

Lemma bind_assoc {A B C} (m : cpp A) (f : A -> cpp B) (g : B -> cpp C) :
  ((m ≫= f) ≫= g) = (m ≫= fun a => f a ≫= g).
Proof. by destruct m. Qed.

Lemma bind_Ret_inv {A B} (m : cpp A) (f : A -> cpp B) b :
  (m ≫= f) = Ret b -> exists a, m = Ret a /\ f a = Ret b.
Proof. destruct m; simpl; intros H; try discriminate. eauto. Qed.

Lemma bind_cong {A B} (m m' : cpp A) (f g : A -> cpp B) :
  m = m' -> (forall a, f a = g a) -> (m ≫= f) = (m' ≫= g).
Proof. intros -> H. destruct m'; simpl; auto. Qed.

Lemma defined_true b : b = true -> defined b = Ret tt.
Proof. by intros ->. Qed.

Lemma defined_Ret b u : defined b = Ret u -> b = true.
Proof. by destruct b. Qed.

Lemma returns_Ret {A} (m : cpp A) a (Q : A -> Prop) : m = Ret a -> Q a -> returns m Q.
Proof. by intros ->. Qed.

Lemma returns_inv {A} (m : cpp A) (Q : A -> Prop) : returns m Q -> exists a, m = Ret a /\ Q a.
Proof. destruct m; simpl; [eauto|done..]. Qed.

Lemma returns_bind {A B} (m : cpp A) (f : A -> cpp B) (P : A -> Prop) (Q : B -> Prop) :
  returns m P -> (forall a, P a -> returns (f a) Q) -> returns (m ≫= f) Q.
Proof. destruct m; simpl; auto. Qed.

Lemma returns_mono {A} (m : cpp A) (P Q : A -> Prop) :
  returns m P -> (forall a, P a -> Q a) -> returns m Q.
Proof. destruct m; simpl; auto. Qed.

(** ** Loops

    [cwhile fuel cond body] is [while (cond) body] on an explicit state. *)
Fixpoint cwhile {S : Type} (fuel : nat) (cond : S -> bool) (body : S -> cpp S) (s : S) : cpp S :=
  if cond s then
    match fuel with
    | O => NoFuel
    | Datatypes.S f => s' ← body s; cwhile f cond body s'
    end
  else Ret s.

(** [cfor body n i s] runs [body] with the counter at [i], ..., [i + n - 1]. *)
Fixpoint cfor {S : Type} (body : nat -> S -> cpp S) (n i : nat) (s : S) : cpp S :=
  match n with
  | O => Ret s
  | Datatypes.S n' => s' ← body i s; cfor body n' (Datatypes.S i) s'
  end.

Lemma cwhile_stop {S} fuel (cond : S -> bool) body s :
  cond s = false -> cwhile fuel cond body s = Ret s.
Proof. intros H. destruct fuel; simpl; by rewrite H. Qed.

Lemma cwhile_step {S} fuel (cond : S -> bool) body s s' :
  cond s = true -> body s = Ret s' ->
  cwhile (Datatypes.S fuel) cond body s = cwhile fuel cond body s'.
Proof. intros H1 H2. simpl. by rewrite H1, H2. Qed.

(** Total correctness of a loop from an invariant and a decreasing measure. *)
Lemma cwhile_total {S} (cond : S -> bool) (body : S -> cpp S) (I : S -> Prop) (m : S -> nat) :
  (forall s, I s -> cond s = true -> returns (body s) (fun s' => I s' /\ (m s' < m s)%nat)) ->
  forall fuel s, I s -> (m s <= fuel)%nat ->
  returns (cwhile fuel cond body s) (fun s' => I s' /\ cond s' = false).
Proof.
  intros Hb. induction fuel as [|f IH]; intros s HI Hm.
  - simpl. destruct (cond s) eqn:E; [|by simpl].
    pose proof (Hb s HI E) as H. apply returns_inv in H as (s' & _ & _ & H). lia.
  - simpl. destruct (cond s) eqn:E; [|by simpl].
    eapply returns_bind; [by apply Hb|]. intros s' [HI' Hlt]. apply IH; [done|lia].
Qed.

(** A counted loop keeps an invariant indexed by the counter. *)
Lemma cfor_inv {S} (body : nat -> S -> cpp S) (I : nat -> S -> Prop) n :
  forall i s, I i s ->
  (forall j s, (i <= j < i + n)%nat -> I j s -> returns (body j s) (I (Datatypes.S j))) ->
  returns (cfor body n i s) (I (i + n)%nat).
Proof.
  induction n as [|n IH]; intros i s HI Hb; simpl.
  - by rewrite Nat.add_0_r.
  - eapply returns_bind; [apply Hb; [lia|done]|].
    intros s' HI'. rewrite Nat.add_succ_r. rewrite <- Nat.add_succ_l.
    apply IH; [done|]. intros j t Hj. apply Hb. lia.
Qed.

(** ** Tactics

    [cpp_inv H] decomposes a hypothesis that a sequence of calls returned. *)
Ltac cpp_inv H :=
  repeat match type of H with
  | (_ ≫= _) = Ret _ => let a := fresh "a" in let Ha := fresh "Hr" in
      apply bind_Ret_inv in H as (a & Ha & H)
  end.

(** Opens the pairs a call returned, to the next test or end of the sequence. *)
Ltac cpp_pairs H :=
  repeat match type of H with (match ?x with (_, _) => _ end) = _ => is_var x; destruct x end.
Ltac cpp_open H := repeat (progress (cpp_inv H; cpp_pairs H; cbv zeta in H)).
(** The branches of the next test. *)
Ltac cpp_test H := match type of H with (if ?b then _ else _) = _ => destruct b eqn:? end.

(** Evaluates a closed decidable proposition. *)
Ltac eval_decide :=
  match goal with |- ?P => apply (bool_decide_eq_true_1 P); vm_compute; reflexivity end.

#[global] Create HintDb words.
#[global] Create HintDb cpp.
#[global] Create Rewrite HintDb words.
