(* ===== verification/Words.v ===== *)
(** * Machine words

    Unsigned 8- and 32-bit words are integers of [Z] in their range; every
    operation of the code that can leave the range has its wrap-around written
    out.  The file also holds the big-endian load and store of sm/sm4.cpp
    ([_GetBE32], [_PutBE32]), which the ciphers and the packet codec share. *)
From S2P Require Import Prelude.

Definition is_u8 (z : Z) : Prop := 0 <= z < 2 ^ 8.
Definition is_u32 (z : Z) : Prop := 0 <= z < 2 ^ 32.
(** The range of [int]. *)
Definition is_int (z : Z) : Prop := - 2 ^ 31 <= z < 2 ^ 31.

(** Conversions to [unsigned char], [unsigned int] and (modulo 2^32, as every
    compiler defines it) [int]. *)
Definition u8 (z : Z) : Z := z mod 2 ^ 8.
Definition u32 (z : Z) : Z := z mod 2 ^ 32.
Definition s32 (z : Z) : Z := (z + 2 ^ 31) mod 2 ^ 32 - 2 ^ 31.

(** Signed arithmetic: overflow is undefined. *)
Definition int_checked (z : Z) : cpp Z :=
  if decide (- 2 ^ 31 <= z < 2 ^ 31) then Ret z else Undef.

Definition shl32 (a n : Z) : Z := u32 (Z.shiftl a n).
Definition shr32 (a n : Z) : Z := Z.shiftr a n.
Definition add32 (a b : Z) : Z := u32 (a + b).
Definition not32 (a : Z) : Z := Z.lxor a (Z.ones 32).
(** [((a << n) | (a >> (32 - n)))]; a shift count outside 0..31 is undefined
    in C++, and the code's counts are in range except where noted. *)
Definition rol32 (a n : Z) : Z := Z.lor (shl32 a n) (shr32 a (32 - n)).

(** The value of four bytes, most significant first. *)
Definition be32 (b0 b1 b2 b3 : Z) : Z :=
  Z.lor (Z.lor (Z.lor (Z.shiftl b0 24) (Z.shiftl b1 16)) (Z.shiftl b2 8)) b3.

(** The four bytes of a word, most significant first. *)
Definition be_bytes (a : Z) : list Z :=
  [ Z.land (Z.shiftr a 24) 255; Z.land (Z.shiftr a 16) 255;
    Z.land (Z.shiftr a 8) 255; Z.land a 255 ].

#[global] Instance is_u8_dec z : Decision (is_u8 z).
Proof. unfold is_u8. apply _. Defined.
#[global] Instance is_u32_dec z : Decision (is_u32 z).
Proof. unfold is_u32. apply _. Defined.
#[global] Instance is_int_dec z : Decision (is_int z).
Proof. unfold is_int. apply _. Defined.

(** ** Ranges as statements about bits *)

Lemma testbit_high n p i : 0 <= p -> 0 <= n < 2 ^ p -> p <= i -> Z.testbit n i = false.
Proof.
  intros Hp Hn Hi. rewrite <- (Z.mod_small n (2 ^ p)) by done.
  apply Z.mod_pow2_bits_high. lia.
Qed.

Lemma range_of_bits n p :
  0 <= p -> 0 <= n -> (forall i, p <= i -> Z.testbit n i = false) -> 0 <= n < 2 ^ p.
Proof.
  intros Hp Hn Hb. enough (n = n mod 2 ^ p) as ->.
  { apply Z.mod_pos_bound. by apply Z.pow_pos_nonneg. }
  apply Z.bits_inj'. intros i Hi. destruct (decide (i < p)).
  - by rewrite Z.mod_pow2_bits_low.
  - rewrite Z.mod_pow2_bits_high by lia. apply Hb. lia.
Qed.

(** Bit-by-bit proof of an equation between words. *)
#[global] Create Rewrite HintDb bits.
#[global] Hint Rewrite Z.lor_spec Z.land_spec Z.lxor_spec : bits.

Ltac bits_ext i Hi := apply Z.bits_inj'; intros i Hi.

(** ** The ranges are closed under the operations *)

Section ranges.
Variable p : Z.
Hypothesis Hp : 0 <= p.

Lemma lor_range a b : 0 <= a < 2 ^ p -> 0 <= b < 2 ^ p -> 0 <= Z.lor a b < 2 ^ p.
Proof.
  intros Ha Hb. apply range_of_bits; [done|apply Z.lor_nonneg; lia|].
  intros i Hi. by rewrite Z.lor_spec, !(testbit_high _ p).
Qed.

Lemma lxor_range a b : 0 <= a < 2 ^ p -> 0 <= b < 2 ^ p -> 0 <= Z.lxor a b < 2 ^ p.
Proof.
  intros Ha Hb. apply range_of_bits; [done|apply Z.lxor_nonneg; lia|].
  intros i Hi. by rewrite Z.lxor_spec, !(testbit_high _ p).
Qed.

Lemma land_range_r a b : 0 <= b < 2 ^ p -> 0 <= Z.land a b < 2 ^ p.
Proof.
  intros Hb. apply range_of_bits; [done|apply Z.land_nonneg; lia|].
  intros i Hi. by rewrite Z.land_spec, (testbit_high b p), andb_false_r.
Qed.

Lemma land_range_l a b : 0 <= a < 2 ^ p -> 0 <= Z.land a b < 2 ^ p.
Proof. intros. rewrite Z.land_comm. by apply land_range_r. Qed.

Lemma shiftr_range a n : 0 <= n -> 0 <= a < 2 ^ p -> 0 <= Z.shiftr a n < 2 ^ p.
Proof.
  intros Hn Ha. rewrite Z.shiftr_div_pow2 by done.
  assert (0 < 2 ^ n) by (by apply Z.pow_pos_nonneg). split.
  - apply Z.div_pos; lia.
  - apply Z.div_lt_upper_bound; nia.
Qed.
End ranges.

Lemma is_u32_u32 z : is_u32 (u32 z).
Proof. apply Z.mod_pos_bound. lia. Qed.
Lemma is_u8_u8 z : is_u8 (u8 z).
Proof. apply Z.mod_pos_bound. lia. Qed.
Lemma u32_id z : is_u32 z -> u32 z = z.
Proof. intros. by apply Z.mod_small. Qed.
Lemma u8_id z : is_u8 z -> u8 z = z.
Proof. intros. by apply Z.mod_small. Qed.
Lemma u32_u32 z : u32 (u32 z) = u32 z.
Proof. apply u32_id, is_u32_u32. Qed.
Lemma s32_id z : is_int z -> s32 z = z.
Proof. unfold is_int, s32. intros. rewrite Z.mod_small; lia. Qed.
Lemma int_checked_id z : is_int z -> int_checked z = Ret z.
Proof. intros. unfold int_checked. by rewrite decide_True. Qed.

Lemma is_u32_lor a b : is_u32 a -> is_u32 b -> is_u32 (Z.lor a b).
Proof. apply lor_range. lia. Qed.
Lemma is_u32_lxor a b : is_u32 a -> is_u32 b -> is_u32 (Z.lxor a b).
Proof. apply lxor_range. lia. Qed.
Lemma is_u32_land_l a b : is_u32 a -> is_u32 (Z.land a b).
Proof. apply land_range_l. lia. Qed.
Lemma is_u8_lor a b : is_u8 a -> is_u8 b -> is_u8 (Z.lor a b).
Proof. apply lor_range. lia. Qed.
Lemma is_u8_land_r a b : is_u8 b -> is_u8 (Z.land a b).
Proof. apply land_range_r. lia. Qed.
Lemma is_u32_shl32 a n : is_u32 (shl32 a n).
Proof. apply is_u32_u32. Qed.
Lemma is_u32_add32 a b : is_u32 (add32 a b).
Proof. apply is_u32_u32. Qed.
Lemma is_u32_shr32 a n : 0 <= n -> is_u32 a -> is_u32 (shr32 a n).
Proof. intros. apply (shiftr_range 32); [lia|done|done]. Qed.
Lemma is_u32_rol32 a n : 0 <= n <= 32 -> is_u32 a -> is_u32 (rol32 a n).
Proof. intros. apply is_u32_lor; [apply is_u32_shl32|]. apply is_u32_shr32; [lia|done]. Qed.
Lemma is_u32_not32 a : is_u32 a -> is_u32 (not32 a).
Proof. intros. apply is_u32_lxor; [done|]. compute; split; congruence. Qed.
Lemma is_u32_be32 b0 b1 b2 b3 :
  is_u8 b0 -> is_u8 b1 -> is_u8 b2 -> is_u8 b3 -> is_u32 (be32 b0 b1 b2 b3).
Proof.
  unfold is_u8, be32. intros. repeat apply is_u32_lor;
    unfold is_u32; rewrite ?Z.shiftl_mul_pow2 by lia; lia.
Qed.

#[export] Hint Resolve is_u32_u32 is_u8_u8 is_u32_lor is_u32_lxor is_u32_shl32 is_u32_add32
  is_u32_not32 is_u32_be32 : words.
#[export] Hint Resolve is_u32_rol32 is_u32_shr32 : words.
#[export] Hint Extern 1 (0 <= _ <= 32) => lia : words.
#[export] Hint Extern 1 (0 <= _) => lia : words.

(** ** Rotation *)

Lemma rol32_0 a : is_u32 a -> rol32 a 0 = a.
Proof.
  intros Ha. unfold rol32, shl32, shr32. rewrite Z.shiftl_0_r, u32_id by done.
  rewrite Z.shiftr_div_pow2 by lia. rewrite Z.div_small by apply Ha. apply Z.lor_0_r.
Qed.

Lemma rol32_bit a n i :
  0 <= n <= 32 -> is_u32 a -> 0 <= i < 32 ->
  Z.testbit (rol32 a n) i = Z.testbit a ((i - n) mod 32).
Proof.
  intros Hn Ha Hi. unfold rol32, shl32, shr32, u32.
  rewrite Z.lor_spec, Z.mod_pow2_bits_low, Z.shiftl_spec, Z.shiftr_spec by lia.
  destruct (decide (i < n)).
  - rewrite (Z.testbit_neg_r a (i - n)) by lia. simpl. f_equal.
    rewrite <- (Z.mod_add _ 1) by lia. rewrite Z.mod_small; lia.
  - rewrite (testbit_high a 32 (i + (32 - n))) by (unfold is_u32 in Ha; lia).
    rewrite orb_false_r. f_equal. rewrite Z.mod_small; lia.
Qed.

(** ** Big-endian bytes *)

Lemma length_be_bytes a : length (be_bytes a) = 4%nat.
Proof. reflexivity. Qed.

Lemma be_bytes_u8 a : Forall is_u8 (be_bytes a).
Proof. repeat constructor; apply (land_range_r 8); lia. Qed.

Lemma land_255_bit a i : 0 <= i -> Z.testbit (Z.land a 255) i = (Z.testbit a i && (i <? 8)).
Proof.
  intros Hi. change 255 with (Z.ones 8). rewrite Z.land_spec. f_equal.
  destruct (Z.ltb_spec i 8); [by apply Z.ones_spec_low; lia|by apply Z.ones_spec_high; lia].
Qed.

Lemma be32_be_bytes a : is_u32 a ->
  be32 (Z.land (Z.shiftr a 24) 255) (Z.land (Z.shiftr a 16) 255)
       (Z.land (Z.shiftr a 8) 255) (Z.land a 255) = a.
Proof.
  intros Ha. unfold be32. bits_ext i Hi. rewrite !Z.lor_spec.
  rewrite !Z.shiftl_spec by done.
  destruct (decide (32 <= i)).
  { rewrite (testbit_high a 32 i) by (unfold is_u32 in Ha; lia).
    rewrite !land_255_bit by lia.
    repeat match goal with |- context [?x <? 8] => replace (x <? 8) with false by lia end.
    by rewrite !andb_false_r. }
  assert (forall k, 0 <= k -> Z.testbit (Z.land (Z.shiftr a k) 255) (i - k)
     = (Z.testbit a i && (k <=? i) && (i <? k + 8))) as Hk.
  { intros k Hk. destruct (decide (i < k)).
    - rewrite Z.testbit_neg_r by lia. replace (k <=? i) with false by lia.
      by rewrite andb_false_r.
    - rewrite land_255_bit, Z.shiftr_spec by lia. replace (i - k + k) with i by lia.
      replace (k <=? i) with true by lia. rewrite andb_true_r. f_equal.
      destruct (Z.ltb_spec (i - k) 8), (Z.ltb_spec i (k + 8)); lia || done. }
  rewrite !Hk, land_255_bit by lia.
  destruct (Z.testbit a i); [|done]. simpl.
  destruct (Z.leb_spec 24 i), (Z.leb_spec 16 i), (Z.leb_spec 8 i),
    (Z.ltb_spec i 32), (Z.ltb_spec i 24), (Z.ltb_spec i 16), (Z.ltb_spec i 8);
    simpl; try lia; reflexivity.
Qed.

(** Byte [k] of the value of four bytes. *)
Lemma be_bytes_be32 b0 b1 b2 b3 :
  is_u8 b0 -> is_u8 b1 -> is_u8 b2 -> is_u8 b3 ->
  be_bytes (be32 b0 b1 b2 b3) = [b0; b1; b2; b3].
Proof.
  intros H0 H1 H2 H3. unfold be_bytes, be32.
  assert (forall b j, is_u8 b -> 8 <= j -> Z.testbit b j = false) as Hh.
  { intros b j Hb Hj. apply (testbit_high b 8); [lia|apply Hb|lia]. }
  repeat apply (f_equal2 cons); try reflexivity;
    bits_ext i Hi; rewrite land_255_bit by done; rewrite ?Z.shiftr_spec by done;
    rewrite !Z.lor_spec; rewrite !Z.shiftl_spec by lia;
    (destruct (Z.ltb_spec i 8); [rewrite andb_true_r|rewrite andb_false_r; symmetry; by apply Hh]);
    repeat match goal with
    | |- context [Z.testbit ?b ?j] =>
        first [ rewrite (Z.testbit_neg_r b j) by lia
              | rewrite (Hh b j) by (first [done|lia]) ]
    end; rewrite ?orb_false_l, ?orb_false_r; f_equal; lia.
Qed.

(** Exclusive or with the same word twice. *)
Lemma lxor_cancel_r a b : Z.lxor (Z.lxor a b) b = a.
Proof. by rewrite Z.lxor_assoc, Z.lxor_nilpotent, Z.lxor_0_r. Qed.
Lemma lxor_cancel_l a b : Z.lxor a (Z.lxor a b) = b.
Proof. by rewrite <- Z.lxor_assoc, Z.lxor_nilpotent, Z.lxor_0_l. Qed.
#[export] Hint Rewrite lxor_cancel_l lxor_cancel_r : words.

(** Disjoint bits: the bitwise or is the sum. *)
Lemma lor_shiftl_add a b n : 0 <= n -> 0 <= b < 2 ^ n -> Z.lor (Z.shiftl a n) b = a * 2 ^ n + b.
Proof.
  intros Hn Hb. rewrite <- Z.shiftl_mul_pow2 by done.
  assert (Z.land (Z.shiftl a n) b = 0) as H.
  { bits_ext i Hi. rewrite Z.land_spec, Z.shiftl_spec, Z.bits_0 by done.
    destruct (decide (i < n)).
    - by rewrite Z.testbit_neg_r by lia.
    - rewrite (testbit_high b n) by lia. apply andb_false_r. }
  rewrite Z.add_nocarry_lxor by done. symmetry. by apply Z.lxor_lor.
Qed.

Lemma be32_sum b0 b1 b2 b3 : is_u8 b1 -> is_u8 b2 -> is_u8 b3 ->
  be32 b0 b1 b2 b3 = b0 * 2 ^ 24 + b1 * 2 ^ 16 + b2 * 2 ^ 8 + b3.
Proof.
  unfold is_u8, be32. intros H1 H2 H3. rewrite <- !Z.lor_assoc.
  rewrite (lor_shiftl_add b2 b3 8), (lor_shiftl_add b1 _ 16), (lor_shiftl_add b0 _ 24) by lia. lia.
Qed.
