(* ===== verification/Buffers.v ===== *)
(** * Buffers

    A C array or allocation is the list of its elements; a pointer into it is
    the buffer with an offset.  Every access outside the buffer is [Undef], so
    a theorem that a function returns is also a memory-safety theorem for it.
    [memset], [memcpy] and the stores of a block of bytes are [buf_write]. *)
From S2P Require Import Prelude Words.

Section buffers.
Context {A : Type}.
Implicit Types l b x y : list A.

(** Total slicing and overwriting, used in specifications. *)
Definition slice (off n : nat) l : list A := take n (drop off l).
Definition splice l (off : nat) x : list A := take off l ++ x ++ drop (off + length x) l.

(** Checked reads and writes, used in the modelled code. *)
Definition buf_get b (i : Z) : cpp A :=
  if decide (0 <= i) then
    match b !! Z.to_nat i with Some v => Ret v | None => Undef end
  else Undef.

Definition buf_read b (off n : Z) : cpp (list A) :=
  if decide (0 <= off /\ 0 <= n /\ off + n <= Z.of_nat (length b))
  then Ret (slice (Z.to_nat off) (Z.to_nat n) b)
  else Undef.

Definition buf_write b (off : Z) x : cpp (list A) :=
  if decide (0 <= off /\ off + Z.of_nat (length x) <= Z.of_nat (length b))
  then Ret (splice b (Z.to_nat off) x)
  else Undef.

(** [memcpy(dst + doff, src + soff, n)]. *)
Definition memcpy (dst : list A) (doff : Z) (src : list A) (soff n : Z) : cpp (list A) :=
  x ← buf_read src soff n; buf_write dst doff x.

(** [memset(dst + off, v, n)]. *)
Definition memset (dst : list A) (off : Z) (v : A) (n : Z) : cpp (list A) :=
  if decide (0 <= n) then buf_write dst off (replicate (Z.to_nat n) v) else Undef.

(** ** Slices *)

Lemma length_slice off n l : (off + n <= length l)%nat -> length (slice off n l) = n.
Proof. unfold slice. rewrite length_take, length_drop. lia. Qed.

Lemma length_splice l off x : (off + length x <= length l)%nat -> length (splice l off x) = length l.
Proof. unfold splice. rewrite !length_app, length_take, length_drop. lia. Qed.

Lemma lookup_slice off n l i :
  slice off n l !! i = if decide (i < n)%nat then l !! (off + i)%nat else None.
Proof.
  unfold slice. case_decide.
  - by rewrite lookup_take_lt, lookup_drop by lia.
  - by rewrite lookup_take_ge by lia.
Qed.

Lemma lookup_splice l off x i :
  (off + length x <= length l)%nat ->
  splice l off x !! i =
    if decide (off <= i < off + length x)%nat then x !! (i - off)%nat else l !! i.
Proof.
  intros Hl. unfold splice. assert (length (take off l) = off) as Ht by (rewrite length_take; lia).
  destruct (decide (i < off)%nat).
  { rewrite lookup_app_l by lia. rewrite lookup_take_lt by lia. by rewrite decide_False by lia. }
  rewrite lookup_app_r by lia. rewrite Ht.
  destruct (decide (i < off + length x)%nat).
  - rewrite lookup_app_l by lia. by rewrite decide_True by lia.
  - rewrite lookup_app_r by lia. rewrite lookup_drop, decide_False by lia. f_equal. lia.
Qed.

Lemma slice_all l : slice 0 (length l) l = l.
Proof. unfold slice. rewrite drop_0. by apply take_ge. Qed.

Lemma slice_0 off l : slice off 0 l = [].
Proof. reflexivity. Qed.

Lemma slice_app_l off n l l' : (off + n <= length l)%nat -> slice off n (l ++ l') = slice off n l.
Proof.
  intros H. apply list_eq. intros i. rewrite !lookup_slice. case_decide; [|done].
  by rewrite lookup_app_l by lia.
Qed.

Lemma slice_app_r off n l l' : slice (length l + off) n (l ++ l') = slice off n l'.
Proof.
  apply list_eq. intros i. rewrite !lookup_slice. case_decide; [|done].
  rewrite lookup_app_r by lia. f_equal. lia.
Qed.

Lemma slice_middle l x l' : slice (length l) (length x) (l ++ x ++ l') = x.
Proof.
  replace (length l) with (length l + 0)%nat by lia. rewrite slice_app_r, slice_app_l by lia.
  apply slice_all.
Qed.

Lemma slice_slice off n off' n' l :
  (off' + n' <= n)%nat -> slice off' n' (slice off n l) = slice (off + off') n' l.
Proof.
  intros H. apply list_eq. intros i. rewrite !lookup_slice. case_decide; [|done].
  rewrite decide_True by lia. f_equal. lia.
Qed.

Lemma slice_plus off n m l :
  slice off (n + m) l = slice off n l ++ slice (off + n) m l.
Proof.
  unfold slice. rewrite <- take_take_drop, drop_drop. done.
Qed.

Lemma slice_splice_same l off x :
  (off + length x <= length l)%nat -> slice off (length x) (splice l off x) = x.
Proof.
  intros H. apply list_eq. intros i. rewrite lookup_slice. case_decide.
  - rewrite lookup_splice, decide_True by lia. f_equal. lia.
  - symmetry. apply lookup_ge_None. lia.
Qed.

(** A slice that the overwrite does not touch. *)
Lemma slice_splice_disjoint l off x off' n :
  (off + length x <= length l)%nat ->
  (off' + n <= off \/ off + length x <= off')%nat ->
  slice off' n (splice l off x) = slice off' n l.
Proof.
  intros H Hd. apply list_eq. intros i. rewrite !lookup_slice. case_decide; [|done].
  rewrite lookup_splice by lia. by rewrite decide_False by lia.
Qed.

(** ** Overwrites *)

Lemma splice_nil l off : (off <= length l)%nat -> splice l off [] = l.
Proof.
  intros H. apply list_eq. intros i. rewrite lookup_splice by (simpl; lia).
  by rewrite decide_False by (simpl; lia).
Qed.

(** Two adjacent overwrites are one. *)
Lemma splice_splice l off x y :
  (off + length x + length y <= length l)%nat ->
  splice (splice l off x) (off + length x) y = splice l off (x ++ y).
Proof.
  intros H. apply list_eq. intros i.
  rewrite !lookup_splice by (rewrite ?length_splice, ?length_app; lia).
  rewrite length_app. repeat case_decide; try lia; try done.
  - rewrite lookup_app_r by lia. f_equal. lia.
  - by rewrite lookup_app_l by lia.
Qed.

Lemma splice_append l off off' x y :
  off' = (off + length x)%nat -> (off + length x + length y <= length l)%nat ->
  splice (splice l off x) off' y = splice l off (x ++ y).
Proof. intros ->. apply splice_splice. Qed.

(** Overwrites of disjoint parts commute; one of the same part is lost. *)
Lemma splice_comm l o1 x o2 y :
  (o1 + length x <= o2)%nat -> (o2 + length y <= length l)%nat ->
  splice (splice l o2 y) o1 x = splice (splice l o1 x) o2 y.
Proof.
  intros H1 H2. apply list_eq. intros i.
  rewrite !lookup_splice by (rewrite ?length_splice; lia). repeat case_decide; lia || done.
Qed.

Lemma splice_over l o x y : length x = length y -> (o + length y <= length l)%nat ->
  splice (splice l o x) o y = splice l o y.
Proof.
  intros H1 H2. apply list_eq. intros i.
  rewrite !lookup_splice by (rewrite ?length_splice; lia). repeat case_decide; lia || done.
Qed.

Lemma splice_all l x : length x = length l -> splice l 0 x = x.
Proof.
  intros H. unfold splice. rewrite take_0, drop_ge by lia. by rewrite app_nil_r.
Qed.

Lemma take_splice l off x :
  (off + length x <= length l)%nat -> take (off + length x) (splice l off x) = take off l ++ x.
Proof.
  intros H. unfold splice. rewrite app_assoc, take_app_le.
  - apply take_ge. rewrite length_app, length_take. lia.
  - rewrite length_app, length_take. lia.
Qed.

Lemma Forall_slice (P : A -> Prop) off n l : Forall P l -> Forall P (slice off n l).
Proof. intros. by apply Forall_take, Forall_drop. Qed.

Lemma Forall_splice (P : A -> Prop) l off x : Forall P l -> Forall P x -> Forall P (splice l off x).
Proof. intros. repeat apply Forall_app_2; auto using Forall_take, Forall_drop. Qed.

(** ** When the checked accesses return *)

Lemma buf_get_ok b i v : 0 <= i -> b !! Z.to_nat i = Some v -> buf_get b i = Ret v.
Proof. intros H H'. unfold buf_get. by rewrite decide_True, H'. Qed.

Lemma buf_read_ok b off n :
  0 <= off -> 0 <= n -> off + n <= Z.of_nat (length b) ->
  buf_read b off n = Ret (slice (Z.to_nat off) (Z.to_nat n) b).
Proof. intros. unfold buf_read. by rewrite decide_True. Qed.

Lemma buf_write_ok b off x :
  0 <= off -> off + Z.of_nat (length x) <= Z.of_nat (length b) ->
  buf_write b off x = Ret (splice b (Z.to_nat off) x).
Proof. intros. unfold buf_write. by rewrite decide_True. Qed.

Lemma buf_read_Ret b off n x :
  buf_read b off n = Ret x ->
  x = slice (Z.to_nat off) (Z.to_nat n) b /\ Z.of_nat (length x) = n.
Proof.
  unfold buf_read. case_decide; [|done]. intros [= <-]. split; [done|].
  rewrite length_slice; lia.
Qed.

Lemma buf_write_length b off x b' : buf_write b off x = Ret b' -> length b' = length b.
Proof.
  unfold buf_write. case_decide; [|done]. intros [= <-]. apply length_splice. lia.
Qed.

Lemma memcpy_ok dst doff src soff n :
  0 <= doff -> 0 <= soff -> 0 <= n ->
  doff + n <= Z.of_nat (length dst) -> soff + n <= Z.of_nat (length src) ->
  memcpy dst doff src soff n =
    Ret (splice dst (Z.to_nat doff) (slice (Z.to_nat soff) (Z.to_nat n) src)).
Proof.
  intros. unfold memcpy. rewrite buf_read_ok by done. cbn [mbind cpp_bind].
  apply buf_write_ok; [done|]. rewrite length_slice by lia. lia.
Qed.
End buffers.

(** Bounds of buffers after any number of overwrites. *)
Ltac splen :=
  repeat (rewrite length_splice by splen); rewrite ?length_app, ?length_replicate; cbn [length]; lia.

(** ** Words in byte buffers (sm/sm4.cpp) *)

(** [_GetBE32(d + off)] *)
Definition _GetBE32 (d : list Z) (off : Z) : cpp Z :=
  b0 ← buf_get d off; b1 ← buf_get d (off + 1);
  b2 ← buf_get d (off + 2); b3 ← buf_get d (off + 3);
  Ret (be32 b0 b1 b2 b3).

(** [_PutBE32(a, d + off)] *)
Definition _PutBE32 (a : Z) (d : list Z) (off : Z) : cpp (list Z) :=
  buf_write d off (be_bytes a).

(** The exported names. *)
Definition zs_GetBE32 (d : list Z) : cpp Z := _GetBE32 d 0.
Definition zs_PutBE32 (a : Z) (d : list Z) : cpp (list Z) := _PutBE32 a d 0.

(** The word at byte offset [off] of a buffer, in specifications. *)
Definition be_at (off : nat) (b : list Z) : Z :=
  match slice off 4 b with
  | [b0; b1; b2; b3] => be32 b0 b1 b2 b3
  | _ => 0
  end.

Lemma slice_4 {A} (b : list A) off :
  (off + 4 <= length b)%nat -> exists b0 b1 b2 b3,
    slice off 4 b = [b0; b1; b2; b3] /\
    b !! off = Some b0 /\ b !! (off + 1)%nat = Some b1 /\
    b !! (off + 2)%nat = Some b2 /\ b !! (off + 3)%nat = Some b3.
Proof.
  intros H. pose proof (length_slice off 4 b H) as Hl.
  destruct (slice off 4 b) as [|b0 [|b1 [|b2 [|b3 [|]]]]] eqn:E; try discriminate.
  exists b0, b1, b2, b3. split; [done|].
  assert (forall i, (i < 4)%nat -> b !! (off + i)%nat = slice off 4 b !! i) as Hi.
  { intros i Hi. rewrite lookup_slice. by rewrite decide_True by lia. }
  rewrite E in Hi. pose proof (Hi 0%nat ltac:(lia)) as H0. rewrite Nat.add_0_r in H0.
  repeat split; [exact H0|by apply Hi; lia..].
Qed.

Lemma GetBE32_ok d off :
  0 <= off -> off + 4 <= Z.of_nat (length d) -> _GetBE32 d off = Ret (be_at (Z.to_nat off) d).
Proof.
  intros H1 H2. destruct (slice_4 d (Z.to_nat off)) as (b0&b1&b2&b3&E&E0&E1&E2&E3); [lia|].
  unfold _GetBE32, be_at. rewrite E.
  rewrite (buf_get_ok d off b0), (buf_get_ok d (off + 1) b1), (buf_get_ok d (off + 2) b2),
    (buf_get_ok d (off + 3) b3); [done|lia| |lia| |lia| |lia|done];
  rewrite Z2Nat.inj_add by lia; assumption.
Qed.

Lemma be_at_u32 off b : Forall is_u8 b -> is_u32 (be_at off b).
Proof.
  intros H. unfold be_at. pose proof (Forall_slice is_u8 off 4 b H) as Hs.
  assert (is_u32 0) as H0 by (unfold is_u32; lia).
  destruct (slice off 4 b) as [|b0 [|b1 [|b2 [|b3 [|]]]]]; try exact H0.
  rewrite !Forall_cons in Hs. destruct Hs as (?&?&?&?&_). auto with words.
Qed.

Lemma be_at_bytes off b w : is_u32 w -> slice off 4 b = be_bytes w -> be_at off b = w.
Proof. intros Hw E. unfold be_at. rewrite E. by apply be32_be_bytes. Qed.

Lemma be_bytes_be_at off b :
  Forall is_u8 b -> (off + 4 <= length b)%nat -> be_bytes (be_at off b) = slice off 4 b.
Proof.
  intros Hb Hl. pose proof (Forall_slice is_u8 off 4 b Hb) as Hs. unfold be_at.
  destruct (slice_4 b off Hl) as (b0&b1&b2&b3&E&_). rewrite E in Hs |- *.
  rewrite !Forall_cons in Hs. destruct Hs as (?&?&?&?&_). by apply be_bytes_be32.
Qed.

Lemma PutBE32_ok a d off :
  0 <= off -> off + 4 <= Z.of_nat (length d) ->
  _PutBE32 a d off = Ret (splice d (Z.to_nat off) (be_bytes a)).
Proof. intros. apply buf_write_ok; [done|]. simpl length. lia. Qed.

(** Storing a word and loading it back. *)
Lemma GetBE32_PutBE32 a d off d' :
  is_u32 a -> _PutBE32 a d off = Ret d' -> _GetBE32 d' off = Ret a.
Proof.
  intros Ha H. unfold _PutBE32, buf_write in H. simpl length in H. case_decide; [|done].
  injection H as <-. rewrite GetBE32_ok by (rewrite ?length_splice; simpl length; lia).
  f_equal. apply be_at_bytes; [done|]. apply (slice_splice_same _ _ (be_bytes a)). simpl length. lia.
Qed.

#[export] Hint Resolve be_bytes_u8 be_at_u32 Forall_slice Forall_splice : words.

(** ** Reading a successful access back *)

Lemma buf_write_Ret (b : list Z) off x b' : buf_write b off x = Ret b' ->
  0 <= off /\ off + Z.of_nat (length x) <= Z.of_nat (length b) /\ b' = splice b (Z.to_nat off) x.
Proof. unfold buf_write. case_decide; [|done]. intros [= <-]. split_and!; [lia..|done]. Qed.

Lemma buf_read_bounds (b : list Z) off n x : buf_read b off n = Ret x ->
  0 <= off /\ 0 <= n /\ off + n <= Z.of_nat (length b) /\ x = slice (Z.to_nat off) (Z.to_nat n) b.
Proof. unfold buf_read. case_decide; [|done]. intros [= <-]. split_and!; [lia..|done]. Qed.

Lemma memcpy_Ret (d : list Z) doff s soff n d' : memcpy d doff s soff n = Ret d' ->
  0 <= soff /\ 0 <= n /\ soff + n <= Z.of_nat (length s) /\ 0 <= doff /\ doff + n <= Z.of_nat (length d) /\
  d' = splice d (Z.to_nat doff) (slice (Z.to_nat soff) (Z.to_nat n) s).
Proof.
  unfold memcpy. intros H. cpp_inv H. apply buf_read_bounds in Hr as (? & ? & ? & ->).
  apply buf_write_Ret in H as (? & Hl & ->). rewrite length_slice in Hl by lia. split_and!; lia || done.
Qed.

(** A buffer longer than what is written at its start goes on after it. *)
Lemma splice_start {A} (l x : list A) : (length x < length l)%nat -> exists b r, splice l 0 x = x ++ b :: r.
Proof.
  intros Hl. unfold splice. change (take 0 l) with (@nil A). cbn [app]. rewrite Nat.add_0_l.
  destruct (drop (length x) l) as [|b r] eqn:E; [|eauto]. apply (f_equal length) in E.
  rewrite length_drop in E. cbn [length] in E. lia.
Qed.

Lemma take_splice_ge {A} (l : list A) n off x : (n <= off <= length l)%nat -> take n (splice l off x) = take n l.
Proof.
  intros H. unfold splice. rewrite take_app_le by (rewrite length_take; lia). rewrite take_take. f_equal. lia.
Qed.

Lemma GetBE32_Ret d off w : _GetBE32 d off = Ret w -> w = be_at (Z.to_nat off) d.
Proof.
  intros H. assert (0 <= off /\ off + 4 <= Z.of_nat (length d)) as [H0 H4].
  { unfold _GetBE32 in H. cpp_inv H. unfold buf_get in *. repeat case_decide; try done.
    destruct (d !! Z.to_nat (off + 3)) eqn:E; [|done]. apply lookup_lt_Some in E. lia. }
  rewrite GetBE32_ok in H by done. by injection H as <-.
Qed.
