(* ===== verification/CString.v ===== *)
(** * C strings

    A [char *] argument is a buffer that holds the bytes of the string and a
    zero; a string whose end does not matter is the list of its bytes.  The
    functions of <string.h>, <ctype.h> and <stdlib.h> the sources call. *)
From S2P Require Import Prelude Words Buffers.

(** The codes of the characters of a string. *)
Definition codes (s : string) : list Z := (fun a => Z.of_nat (nat_of_ascii a)) <$> String.list_ascii_of_string s.

(** [strlen]: the offset of the first zero; undefined without one. *)
Fixpoint strlen (b : list Z) : cpp Z :=
  match b with
  | [] => Undef
  | c :: r => if c =? 0 then Ret 0 else n ← strlen r; Ret (n + 1)
  end.

(** The contents a C string. *)
Definition cstring (s : list Z) : Prop := Forall (fun c => 0 < c < 256) s.

(** A byte sequence seen as a C string ends at its first zero. *)
Fixpoint upto_nul (s : list Z) : list Z :=
  match s with
  | c :: r => if c =? 0 then [] else c :: upto_nul r
  | [] => []
  end.

Lemma strlen_ok s r : Forall (fun c => c <> 0) s -> strlen (s ++ 0 :: r) = Ret (Z.of_nat (length s)).
Proof.
  induction s as [|c s IH]; intros Hs; [done|]. apply Forall_cons in Hs as [Hc Hs].
  cbn [app strlen]. replace (c =? 0) with false by lia. rewrite IH by done.
  rewrite bind_ret_l. f_equal. simpl length. lia.
Qed.

Lemma upto_nul_at s r : Forall (fun c => c <> 0) s -> upto_nul (s ++ 0 :: r) = s.
Proof.
  intros Hs. induction Hs as [|c s Hc Hs IH]; cbn [app upto_nul]; [done|].
  by replace (c =? 0) with false by lia; rewrite IH.
Qed.

Lemma upto_nul_all s : Forall (fun c => c <> 0) s -> upto_nul s = s.
Proof.
  intros Hs. induction Hs as [|c s Hc Hs IH]; cbn [upto_nul]; [done|].
  by replace (c =? 0) with false by lia; rewrite IH.
Qed.

(** The contents of an array that is used as a string. *)
Definition c_str (buf : list Z) : cpp (list Z) := n ← strlen buf; Ret (take (Z.to_nat n) buf).

Lemma c_str_ok v r : Forall (fun c => c <> 0) v -> c_str (v ++ 0 :: r) = Ret v.
Proof. intros Hv. unfold c_str. rewrite strlen_ok by done. by rewrite bind_ret_l, Nat2Z.id, take_app_length. Qed.

(** [strncmp(p + off, s, n) == 0] for a string [s] without its terminator. *)
Fixpoint strncmp_eq (p : list Z) (off : Z) (s : list Z) (n : nat) : cpp bool :=
  match n with
  | O => Ret true
  | S n' =>
      c ← buf_get p off;
      let d := match s with [] => 0 | d :: _ => d end in
      if negb (c =? d) then Ret false
      else if c =? 0 then Ret true
      else strncmp_eq p (off + 1) (tail s) n'
  end.

(** [strncpy(dst, s, n)] pads with zeros. *)
Definition strncpy (dst s : list Z) (n : Z) : cpp (list Z) :=
  buf_write dst 0 (take (Z.to_nat n) (s ++ replicate (Z.to_nat n) 0)).

(** [isspace] of the "C" locale. *)
Definition isspace (c : Z) : bool := ((9 <=? c) && (c <=? 13)) || (c =? 32).
Definition isdigit (c : Z) : bool := (48 <=? c) && (c <=? 57).

(** [atoi]: white space, a sign, digits; a value outside [int] is undefined. *)
Fixpoint atoi_digits (s : list Z) (acc : Z) : Z :=
  match s with
  | c :: r => if isdigit c then atoi_digits r (acc * 10 + (c - 48)) else acc
  | [] => acc
  end.
Fixpoint skip_spaces (s : list Z) : list Z :=
  match s with c :: r => if isspace c then skip_spaces r else s | [] => [] end.
Definition text_number (s : list Z) : Z :=
  match skip_spaces s with
  | c :: r => if c =? 45 then - atoi_digits r 0 else if c =? 43 then atoi_digits r 0 else atoi_digits (c :: r) 0
  | [] => 0
  end.
Definition atoi (s : list Z) : cpp Z := int_checked (text_number s).

(** [atol] with a [long] of 64 bits, and [strtoll], which stays in its range. *)
Definition long_checked (z : Z) : cpp Z := if decide (- 2 ^ 63 <= z < 2 ^ 63) then Ret z else Undef.
Definition atol (s : list Z) : cpp Z := long_checked (text_number s).
Definition strtoll (s : list Z) : Z := Z.max (- 2 ^ 63) (Z.min (2 ^ 63 - 1) (text_number s)).

(** [sprintf(dst + off, "...", ...)] of a text that is already put together. *)
Definition sprintf_text (dst : list Z) (off : Z) (text : list Z) : cpp (list Z) :=
  buf_write dst off (text ++ [0]).

(** A string used as a format: ["%%"] prints a percent sign, and any other
    directive takes an argument, which is not modelled. *)
Fixpoint format_text (s : list Z) : cpp (list Z) :=
  match s with
  | c :: r =>
      if c =? 37 then
        match r with
        | d :: r' => if d =? 37 then t ← format_text r'; Ret (37 :: t) else Undef
        | [] => Undef
        end
      else t ← format_text r; Ret (c :: t)
  | [] => Ret []
  end.

Lemma format_text_ok s : Forall (fun c => c <> 37) s -> format_text s = Ret s.
Proof.
  induction 1 as [|c s Hc Hs IH]; [done|]. cbn [format_text]. replace (c =? 37) with false by lia. by rewrite IH.
Qed.
