(* ===== verification/Sm3.v ===== *)
(** * SM3 (sm/sm3.h, sm/sm3.cpp)

    The incremental hash of the program, as its C code computes it: the
    message words are an array of machine words whose bytes are stored through
    an [unsigned char] pointer on a little-endian machine ([p[i ^ 3]]), the
    message length is counted in two 32-bit halves, and the expanded words are
    written in place.  The specification is the padded, block-wise hash of
    GB/T 32905; the last section proves that any sequence of updates computes it. *)
From S2P Require Import Prelude Words Buffers.

(** ** Constants and functions of a round *)

Definition IV : list Z :=
  [0x7380166f; 0x4914b2b9; 0x172442d7; 0xda8a0600; 0xa96f30bc; 0x163138aa; 0xe38dee4d; 0xb0fb0e4e].
Definition T : list Z := replicate 16 0x79cc4519 ++ replicate 48 0x7a879d8a.
Definition SM3_DIGEST_LENGTH : nat := 32.

(** [ROL]: for [k = 0] the right shift is by 32, which C++ leaves undefined;
    both outcomes seen on compilers, 0 and [a], give [a]. *)
Definition ROL (a k : Z) : Z := rol32 a k.
Definition P0 (X : Z) : Z := Z.lxor (Z.lxor X (ROL X 9)) (ROL X 17).
Definition P1 (X : Z) : Z := Z.lxor (Z.lxor X (ROL X 15)) (ROL X 23).
Definition FF (j : nat) (x y z : Z) : Z :=
  if (j <? 16)%nat then Z.lxor (Z.lxor x y) z
  else Z.lor (Z.lor (Z.land x y) (Z.land x z)) (Z.land y z).
Definition GG (j : nat) (x y z : Z) : Z :=
  if (j <? 16)%nat then Z.lxor (Z.lxor x y) z
  else Z.lor (Z.land x y) (Z.land (not32 x) z).

(** ** The context *)

Record SM3_CTX := mk_SM3_CTX {
  Regs : list Z;
  BitLen0 : Z;
  BitLen1 : Z;
  W : list Z;
  WDot : list Z
}.

(** What [SM3_Init] leaves in a context: the loop clears the 134 words from
    [BitLen] on, which are [BitLen], [W] and [WDot]. *)
Definition sm3_initial : SM3_CTX :=
  {| Regs := IV; BitLen0 := 0; BitLen1 := 0; W := replicate 68 0; WDot := replicate 64 0 |}.

Definition SM3_Init (s : option SM3_CTX) : Z * option SM3_CTX :=
  match s with
  | None => (0, None)
  | Some _ => (1, Some sm3_initial)
  end.

(** Byte [idx] of the array of words, in the byte order of a little-endian machine. *)
Definition set_byte (w : list Z) (idx v : Z) : list Z :=
  let k := Z.to_nat (idx / 4) in
  let sh := 8 * (idx mod 4) in
  <[k := Z.lor (Z.ldiff (w !!! k) (Z.shiftl 255 sh)) (Z.shiftl v sh)]> w.

Definition get_byte (w : list Z) (idx : Z) : Z :=
  Z.land (Z.shiftr (w !!! Z.to_nat (idx / 4)) (8 * (idx mod 4))) 255.

(** ** [SM3_Transform] *)

(** [s->W[j] = P1(W[j-16] ^ W[j-9] ^ ROL(W[j-3], 15)) ^ ROL(W[j-13], 7) ^ W[j-6]] *)
Definition expand_word (w : list Z) (j : nat) : Z :=
  Z.lxor (Z.lxor
    (P1 (Z.lxor (Z.lxor (w !!! (j - 16)%nat) (w !!! (j - 9)%nat)) (ROL (w !!! (j - 3)%nat) 15)))
    (ROL (w !!! (j - 13)%nat) 7)) (w !!! (j - 6)%nat).

Definition expand (w : list Z) : list Z :=
  foldl (fun w j => <[j := expand_word w j]> w) w (seq 16 52).

Definition fill_dot (w d : list Z) : list Z :=
  foldl (fun d j => <[j := Z.lxor (w !!! j) (w !!! (j + 4)%nat)]> d) d (seq 0 64).

(** One iteration of the 64 rounds: the assignments to [Regs] in their order. *)
Definition sm3_round (w d : list Z) (R : list Z) (j : nat) : list Z :=
  let SS1 := ROL (add32 (add32 (ROL (R !!! 0%nat) 12) (R !!! 4%nat))
                        (ROL (T !!! j) (Z.of_nat j mod 32))) 7 in
  let SS2 := Z.lxor SS1 (ROL (R !!! 0%nat) 12) in
  let TT1 := add32 (add32 (add32 (FF j (R !!! 0%nat) (R !!! 1%nat) (R !!! 2%nat)) (R !!! 3%nat)) SS2)
                   (d !!! j) in
  let TT2 := add32 (add32 (add32 (GG j (R !!! 4%nat) (R !!! 5%nat) (R !!! 6%nat)) (R !!! 7%nat)) SS1)
                   (w !!! j) in
  let R := <[3%nat := R !!! 2%nat]> R in
  let R := <[2%nat := ROL (R !!! 1%nat) 9]> R in
  let R := <[1%nat := R !!! 0%nat]> R in
  let R := <[0%nat := TT1]> R in
  let R := <[7%nat := R !!! 6%nat]> R in
  let R := <[6%nat := ROL (R !!! 5%nat) 19]> R in
  let R := <[5%nat := R !!! 4%nat]> R in
  <[4%nat := P0 TT2]> R.

Definition SM3_Transform (s : SM3_CTX) : SM3_CTX :=
  let w := expand (W s) in
  let d := fill_dot w (WDot s) in
  let R := foldl (sm3_round w d) (Regs s) (seq 0 64) in
  {| Regs := foldl (fun acc j => <[j := Z.lxor (acc !!! j) (R !!! j)]> acc) (Regs s) (seq 0 8);
     BitLen0 := BitLen0 s; BitLen1 := BitLen1 s; W := w; WDot := d |}.

(** ** [SM3_Update] *)

(** The body of the loop, for one byte of the data. *)
Definition sm3_update_byte (s : SM3_CTX) (b : Z) : SM3_CTX :=
  let idx := Z.lxor (Z.land (shr32 (BitLen0 s) 3) 0x3F) 0x03 in
  let w := set_byte (W s) idx b in
  let l0 := add32 (BitLen0 s) 8 in
  let l1 := if l0 =? 0 then add32 (BitLen1 s) 1 else BitLen1 s in
  let s := {| Regs := Regs s; BitLen0 := l0; BitLen1 := l1; W := w; WDot := WDot s |} in
  if Z.land l0 0x01FF =? 0 then SM3_Transform s else s.

(** [data] is the buffer the pointer refers to, [None] the null pointer. *)
Definition SM3_Update (s : option SM3_CTX) (data : option (list Z)) (len : Z)
    : cpp (Z * option SM3_CTX) :=
  match s, data with
  | None, _ => Ret (0, None)
  | Some c, None => Ret (if len =? 0 then (1, Some c) else (0, Some c))
  | Some c, Some d => bs ← buf_read d 0 len; Ret (1, Some (foldl sm3_update_byte c bs))
  end.

(** ** [SM3_Final] and [SM3] *)

Definition PAD : Z := 0x80.
Definition ZERO : Z := 0x00.

(** The padding loop; 64 turns are enough, since each adds a byte. *)
Definition sm3_pad_loop : SM3_CTX -> cpp SM3_CTX :=
  cwhile 64 (fun s => negb (Z.land (BitLen0 s) 0x01FF =? 448))
            (fun s => Ret (sm3_update_byte s ZERO)).

Definition SM3_Final (s : option SM3_CTX) (hash : option (list Z))
    : cpp (Z * option SM3_CTX * option (list Z)) :=
  match s, hash with
  | Some c, Some out =>
      let len0 := BitLen0 c in
      let len1 := BitLen1 c in
      c ← sm3_pad_loop (sm3_update_byte c PAD);
      let c := SM3_Transform
        {| Regs := Regs c; BitLen0 := BitLen0 c; BitLen1 := BitLen1 c;
           W := <[15%nat := len0]> (<[14%nat := len1]> (W c)); WDot := WDot c |} in
      out ← buf_write out 0
        ((fun i => get_byte (Regs c) (Z.lxor (Z.of_nat i) 3)) <$> seq 0 SM3_DIGEST_LENGTH);
      Ret (1, Some c, Some out)
  | _, _ => Ret (0, s, hash)
  end.

(** [SM3(d, n, md)]: the context is a local variable. *)
Definition SM3 (d : list Z) (n : Z) (md : list Z) : cpp (list Z) :=
  '(_, s) ← SM3_Update (Some sm3_initial) (Some d) n;
  '(_, _, md') ← SM3_Final s (Some md);
  Ret (default md md').

(** ** Specification: the hash function of GB/T 32905-2016 *)

Definition words_of (block : list Z) : list Z := (fun i => be_at (4 * i) block) <$> seq 0 16.

(** The permutations and boolean functions of the standard. *)
Definition spec_P0 (x : Z) : Z := Z.lxor (Z.lxor x (rol32 x 9)) (rol32 x 17).
Definition spec_P1 (x : Z) : Z := Z.lxor (Z.lxor x (rol32 x 15)) (rol32 x 23).
Definition spec_FF (j : nat) (x y z : Z) : Z :=
  if (j <? 16)%nat then Z.lxor (Z.lxor x y) z
  else Z.lor (Z.lor (Z.land x y) (Z.land x z)) (Z.land y z).
Definition spec_GG (j : nat) (x y z : Z) : Z :=
  if (j <? 16)%nat then Z.lxor (Z.lxor x y) z
  else Z.lor (Z.land x y) (Z.land (not32 x) z).

(** Message expansion by appending. *)
Definition spec_word (w : list Z) (j : nat) : Z :=
  let at_ i := w !!! (j - i)%nat in
  Z.lxor (Z.lxor (spec_P1 (Z.lxor (Z.lxor (at_ 16%nat) (at_ 9%nat)) (rol32 (at_ 3%nat) 15)))
    (rol32 (at_ 13%nat) 7)) (at_ 6%nat).
Fixpoint spec_expand (n : nat) (w : list Z) : list Z :=
  match n with
  | O => w
  | S n' => spec_expand n' (w ++ [spec_word w (length w)])
  end.

Definition spec_T (j : nat) : Z := if (j <? 16)%nat then 0x79cc4519 else 0x7a879d8a.

(** One round on the eight registers A to H. *)
Definition spec_round (w : list Z) (j : nat) (r : Z * Z * Z * Z * Z * Z * Z * Z) :=
  let '(a, b, c, d, e, f, g, h) := r in
  let ss1 := rol32 (u32 (rol32 a 12 + e + rol32 (spec_T j) (Z.of_nat j mod 32))) 7 in
  let ss2 := Z.lxor ss1 (rol32 a 12) in
  let tt1 := u32 (spec_FF j a b c + d + ss2 + Z.lxor (w !!! j) (w !!! (j + 4)%nat)) in
  let tt2 := u32 (spec_GG j e f g + h + ss1 + (w !!! j)) in
  (tt1, a, rol32 b 9, c, spec_P0 tt2, e, rol32 f 19, g).

(** The compression function: [V] holds eight words, the block 64 bytes. *)
Definition spec_compress (V block : list Z) : list Z :=
  match V with
  | [a; b; c; d; e; f; g; h] =>
      let w := spec_expand 52 (words_of block) in
      let '(a', b', c', d', e', f', g', h') :=
        foldl (fun r j => spec_round w j r) (a, b, c, d, e, f, g, h) (seq 0 64) in
      [Z.lxor a a'; Z.lxor b b'; Z.lxor c c'; Z.lxor d d';
       Z.lxor e e'; Z.lxor f f'; Z.lxor g g'; Z.lxor h h']
  | _ => V
  end.

(** Chaining over the first [n] blocks of a byte string. *)
Definition spec_blocks (m : list Z) (n : nat) : list Z :=
  foldl (fun V i => spec_compress V (slice (64 * i) 64 m)) IV (seq 0 n).

Definition spec_zeros (len : nat) : nat := Z.to_nat ((55 - Z.of_nat len) mod 64).

(** A one bit, zeros up to 56 modulo 64, and the length in bits in eight bytes. *)
Definition spec_pad (m : list Z) : list Z :=
  let bits := 8 * Z.of_nat (length m) in
  m ++ [0x80] ++ replicate (spec_zeros (length m)) 0 ++
  be_bytes (u32 (bits / 2 ^ 32)) ++ be_bytes (u32 bits).

Definition sm3_spec (m : list Z) : list Z :=
  let p := spec_pad m in
  mjoin (be_bytes <$> spec_blocks p (length p / 64)).

(** ** The transformation computes the compression function *)

Lemma expand_word_take w i j :
  (16 <= j)%nat -> (j <= i)%nat -> expand_word (take i w) j = expand_word w j.
Proof.
  intros Hj Hi. unfold expand_word.
  by rewrite !(list_lookup_total_alt (take i w)), !lookup_take_lt, <- !list_lookup_total_alt by lia.
Qed.

Lemma expand_word_spec w j : expand_word w j = spec_word w j.
Proof. reflexivity. Qed.

Lemma expand_from n : forall j (w : list Z),
  (16 <= j)%nat -> (j + n = 68)%nat -> length w = 68%nat ->
  foldl (fun w j => <[j := expand_word w j]> w) w (seq j n) = spec_expand n (take j w).
Proof.
  induction n as [|n IH]; intros j w Hj Hn Hw; simpl.
  - symmetry. apply take_ge. lia.
  - rewrite IH by (rewrite ?length_insert; lia). f_equal.
    rewrite length_take, Nat.min_l by lia. rewrite <- (expand_word_spec (take j w)), expand_word_take by lia.
    rewrite (take_S_r _ _ (expand_word w j)); [|by apply list_lookup_insert_eq; lia].
    f_equal. by rewrite take_insert, decide_False by lia.
Qed.

Lemma expand_spec w : length w = 68%nat -> expand w = spec_expand 52 (take 16 w).
Proof. intros. apply expand_from; lia. Qed.

Lemma spec_expand_prefix n : forall w, take (length w) (spec_expand n w) = w.
Proof.
  induction n as [|n IH]; intros w; simpl; [by apply take_ge|].
  specialize (IH (w ++ [spec_word w (length w)])). rewrite length_app in IH. simpl in IH.
  apply (f_equal (take (length w))) in IH. rewrite take_take, Nat.min_l in IH by lia.
  by rewrite IH, take_app_length.
Qed.

Lemma length_spec_expand n : forall w, length (spec_expand n w) = (length w + n)%nat.
Proof. induction n as [|n IH]; intros w; simpl; [lia|]. rewrite IH, length_app. simpl. lia. Qed.

Lemma foldl_insert_lookup (f : nat -> Z) n : forall i (d : list Z) k,
  (i <= k < i + n)%nat -> (k < length d)%nat ->
  foldl (fun d j => <[j := f j]> d) d (seq i n) !! k = Some (f k).
Proof.
  assert (forall n i (d : list Z) k, (k < i)%nat ->
    foldl (fun d j => <[j := f j]> d) d (seq i n) !! k = d !! k) as Hlow.
  { clear n. induction n as [|n IH]; intros i d k Hk; simpl; [done|].
    rewrite IH by lia. by rewrite list_lookup_insert_ne by lia. }
  induction n as [|n IH]; intros i d k Hk Hd; simpl; [lia|].
  destruct (decide (k = i)) as [->|].
  - rewrite Hlow by lia. by apply list_lookup_insert_eq.
  - apply IH; [lia|]. by rewrite length_insert.
Qed.

Lemma fill_dot_lookup w d j : length d = 64%nat -> (j < 64)%nat ->
  fill_dot w d !!! j = Z.lxor (w !!! j) (w !!! (j + 4)%nat).
Proof.
  intros Hd Hj. apply list_lookup_total_correct.
  by apply (foldl_insert_lookup (fun j => Z.lxor (w !!! j) (w !!! (j + 4)%nat))); [lia|rewrite Hd].
Qed.

Lemma length_foldl_insert (F : list Z -> nat -> Z) js : forall d,
  length (foldl (fun d j => <[j := F d j]> d) d js) = length d.
Proof. induction js as [|j js IH]; intros d; simpl; [done|]. by rewrite IH, length_insert. Qed.

Lemma T_lookup j : (j < 64)%nat -> T !!! j = spec_T j.
Proof.
  intros Hj. apply list_lookup_total_correct. unfold T, spec_T. destruct (Nat.ltb_spec j 16).
  - rewrite lookup_app_l by (rewrite length_replicate; lia). by apply lookup_replicate_2.
  - rewrite lookup_app_r, length_replicate by (rewrite length_replicate; lia).
    apply lookup_replicate_2. lia.
Qed.

Lemma add32_3 a b c : add32 (add32 a b) c = u32 (a + b + c).
Proof. unfold add32, u32. apply Zplus_mod_idemp_l. Qed.

Lemma add32_4 a b c d : add32 (add32 (add32 a b) c) d = u32 (a + b + c + d).
Proof.
  rewrite add32_3. unfold add32, u32. rewrite <- (Z.add_assoc _ c d), Zplus_mod_idemp_l.
  f_equal. lia.
Qed.

(** The registers of the specification as the array of the code. *)
Definition regs_list (r : Z * Z * Z * Z * Z * Z * Z * Z) : list Z :=
  let '(a, b, c, d, e, f, g, h) := r in [a; b; c; d; e; f; g; h].

Lemma sm3_round_spec w d r j : length d = 64%nat -> (j < 64)%nat ->
  sm3_round w (fill_dot w d) (regs_list r) j = regs_list (spec_round w j r).
Proof.
  intros Hd Hj. destruct r as [[[[[[[a b] c] e] f] g] h] k].
  unfold sm3_round. rewrite fill_dot_lookup, T_lookup by done. unfold ROL.
  cbv [regs_list spec_round insert list_insert]. cbn [lookup_total list_lookup_total]. 
  by rewrite !add32_4, !add32_3.
Qed.

Lemma sm3_rounds_spec w d js : forall r, length d = 64%nat -> Forall (fun j => j < 64)%nat js ->
  foldl (sm3_round w (fill_dot w d)) (regs_list r) js =
    regs_list (foldl (fun r j => spec_round w j r) r js).
Proof.
  induction js as [|j js IH]; intros r Hd Hj; [done|].
  apply Forall_cons in Hj as [Hj Hjs]. simpl. rewrite sm3_round_spec by done. by apply IH.
Qed.

Lemma Forall_seq_lt n m : (n <= m)%nat -> Forall (fun j => j < m)%nat (seq 0 n).
Proof. intros H. apply Forall_forall. intros x Hx%elem_of_seq. lia. Qed.

(** What the code needs of a context: the sizes of its arrays. *)
Definition ctx_sizes (s : SM3_CTX) : Prop :=
  length (Regs s) = 8%nat /\ length (W s) = 68%nat /\ length (WDot s) = 64%nat.

Lemma transform_regs s block :
  ctx_sizes s -> take 16 (W s) = words_of block ->
  Regs (SM3_Transform s) = spec_compress (Regs s) block.
Proof.
  intros (HR & HW & HD) Hb. unfold SM3_Transform. cbn [Regs].
  rewrite expand_spec, Hb by done.
  destruct (Regs s) as [|a [|b [|c [|e [|f [|g [|h [|k [|]]]]]]]]]; try discriminate.
  change [a; b; c; e; f; g; h; k] with (regs_list (a, b, c, e, f, g, h, k)).
  rewrite sm3_rounds_spec by (done || by apply Forall_seq_lt).
  unfold spec_compress. cbn [regs_list].
  by destruct (foldl _ _ (seq 0 64)) as [[[[[[[? ?] ?] ?] ?] ?] ?] ?].
Qed.

Lemma transform_sizes s : ctx_sizes s -> ctx_sizes (SM3_Transform s).
Proof.
  intros (HR & HW & HD). unfold SM3_Transform, ctx_sizes, expand, fill_dot. cbn [Regs W WDot].
  split_and!; (etrans; [apply length_foldl_insert|done]).
Qed.

Lemma transform_W s : length (W s) = 68%nat -> take 16 (W (SM3_Transform s)) = take 16 (W s).
Proof.
  intros HW. unfold SM3_Transform. cbn [W]. rewrite expand_spec by done.
  pose proof (spec_expand_prefix 52 (take 16 (W s))) as H.
  by rewrite length_take, Nat.min_l in H by lia.
Qed.

(** ** Bytes of the message words *)

Definition wbytes (w : list Z) : list Z := mjoin (be_bytes <$> take 16 w).

Lemma mjoin_be_cons x l : mjoin (be_bytes <$> x :: l) = be_bytes x ++ mjoin (be_bytes <$> l).
Proof. reflexivity. Qed.

Lemma length_mjoin_be l : length (mjoin (be_bytes <$> l)) = (4 * length l)%nat.
Proof.
  induction l as [|x l IH]; [done|]. rewrite mjoin_be_cons, length_app, IH, length_be_bytes.
  simpl length. lia.
Qed.

Lemma lookup_mjoin_be l : forall i j, (j < 4)%nat ->
  mjoin (be_bytes <$> l) !! (4 * i + j)%nat = l !! i ≫= fun x => be_bytes x !! j.
Proof.
  induction l as [|y l IH]; intros i j Hj; [by rewrite !lookup_nil|].
  rewrite mjoin_be_cons. destruct i as [|i].
  - rewrite lookup_app_l by (rewrite length_be_bytes; lia). reflexivity.
  - rewrite lookup_app_r by (rewrite length_be_bytes; lia). rewrite length_be_bytes.
    replace (4 * S i + j - 4)%nat with (4 * i + j)%nat by lia. by apply IH.
Qed.

Lemma slice_mjoin_be l i x :
  l !! i = Some x -> slice (4 * i) 4 (mjoin (be_bytes <$> l)) = be_bytes x.
Proof.
  intros Hx. apply list_eq. intros j. rewrite lookup_slice. case_decide.
  - by rewrite lookup_mjoin_be, Hx by lia.
  - symmetry. apply lookup_ge_None. rewrite length_be_bytes. lia.
Qed.

Lemma words_of_wbytes w :
  length w = 68%nat -> Forall is_u32 (take 16 w) -> words_of (wbytes w) = take 16 w.
Proof.
  intros Hw Hu. apply list_eq. intros i. unfold words_of. rewrite list_lookup_fmap.
  destruct (decide (i < 16)%nat).
  - rewrite lookup_seq_lt by lia. simpl fmap.
    destruct (lookup_lt_is_Some_2 (take 16 w) i) as [x Hx]; [rewrite length_take; lia|].
    rewrite Hx. f_equal. apply be_at_bytes; [by eapply Forall_lookup_1|]. by apply slice_mjoin_be.
  - rewrite lookup_seq_ge by lia. symmetry. apply lookup_take_ge. lia.
Qed.

(** Storing a byte in a word changes that byte only. *)
Lemma land_255_set_byte x v k b :
  is_u8 v -> 0 <= k -> 0 <= b -> (k = b \/ k + 8 <= b \/ b + 8 <= k) ->
  Z.land (Z.shiftr (Z.lor (Z.ldiff x (Z.shiftl 255 b)) (Z.shiftl v b)) k) 255 =
    if decide (k = b) then v else Z.land (Z.shiftr x k) 255.
Proof.
  intros Hv Hk Hb Hkb.
  assert (forall u i, is_u8 u -> i < 0 \/ 8 <= i -> Z.testbit u i = false) as Hout.
  { intros u i Hu [|]; [by apply Z.testbit_neg_r|]. apply (testbit_high u 8); [lia|apply Hu|lia]. }
  assert (is_u8 255) as H255 by (unfold is_u8; lia).
  bits_ext i Hi. rewrite land_255_bit, Z.shiftr_spec, Z.lor_spec, Z.ldiff_spec, !Z.shiftl_spec by lia.
  case_decide as Hd.
  - subst b. replace (i + k - k) with i by lia. destruct (Z.ltb_spec i 8).
    + change 255 with (Z.ones 8). rewrite Z.ones_spec_low by lia. simpl.
      by rewrite andb_false_r, andb_true_r.
    + rewrite andb_false_r. symmetry. apply Hout; [done|lia].
  - rewrite land_255_bit, Z.shiftr_spec by lia. destruct (Z.ltb_spec i 8).
    + rewrite (Hout 255), (Hout v) by (done || lia). simpl. by rewrite orb_false_r, !andb_true_r.
    + by rewrite !andb_false_r.
Qed.

Lemma be_bytes_set_byte x v j :
  is_u8 v -> (j < 4)%nat ->
  be_bytes (Z.lor (Z.ldiff x (Z.shiftl 255 (8 * (3 - Z.of_nat j)))) (Z.shiftl v (8 * (3 - Z.of_nat j))))
    = <[j := v]> (be_bytes x).
Proof.
  intros Hv Hj. unfold be_bytes.
  pose proof (land_255_set_byte x v 0 (8 * (3 - Z.of_nat j)) Hv) as H0.
  rewrite !Z.shiftr_0_r in H0. rewrite H0, !(land_255_set_byte x v) by (done || lia).
  destruct j as [|[|[|[|]]]]; [..|lia]; reflexivity.
Qed.

Lemma insert_mjoin_be l i j x x' v : l !! i = Some x -> (j < 4)%nat ->
  be_bytes x' = <[j := v]> (be_bytes x) ->
  mjoin (be_bytes <$> <[i := x']> l) = <[(4 * i + j)%nat := v]> (mjoin (be_bytes <$> l)).
Proof.
  intros Hx Hj E. apply list_eq. intros n.
  pose proof (lookup_lt_Some _ _ _ Hx) as Hi.
  pose proof (Nat.div_mod_eq n 4) as Hn. pose proof (Nat.mod_upper_bound n 4 ltac:(lia)) as Hm.
  set (i' := (n / 4)%nat) in *. set (j' := (n mod 4)%nat) in *. clearbody i' j'. subst n.
  rewrite lookup_mjoin_be by lia. destruct (decide (i' = i)) as [->|].
  - rewrite list_lookup_insert_eq by lia. simpl mbind. rewrite E.
    destruct (decide (j' = j)) as [->|].
    + rewrite !list_lookup_insert_eq; rewrite ?length_mjoin_be, ?length_be_bytes; lia || done.
    + rewrite !list_lookup_insert_ne by lia. rewrite lookup_mjoin_be by lia. by rewrite Hx.
  - rewrite !list_lookup_insert_ne by lia. by rewrite lookup_mjoin_be by lia.
Qed.

(** The index computed by [(BitLen[0] >> 3) & 0x3F ^ 0x03]. *)
Lemma lxor_3 k : (k < 64)%nat ->
  Z.lxor (Z.of_nat k) 3 / 4 = Z.of_nat (k / 4) /\
  Z.lxor (Z.of_nat k) 3 mod 4 = 3 - Z.of_nat (k mod 4).
Proof.
  intros Hk.
  assert (Forall (fun k => Z.lxor (Z.of_nat k) 3 / 4 = Z.of_nat (k / 4) /\
    Z.lxor (Z.of_nat k) 3 mod 4 = 3 - Z.of_nat (k mod 4)) (seq 0 64)) as H.
  { repeat constructor. }
  rewrite Forall_forall in H. apply H, elem_of_seq. lia.
Qed.

Lemma wbytes_set_byte w k v :
  is_u8 v -> length w = 68%nat -> (k < 64)%nat ->
  wbytes (set_byte w (Z.lxor (Z.of_nat k) 3) v) = <[k := v]> (wbytes w).
Proof.
  intros Hv Hw Hk. destruct (lxor_3 k Hk) as [E1 E2]. unfold set_byte. rewrite E1, E2, Nat2Z.id.
  pose proof (Nat.div_mod_eq k 4) as Hn. pose proof (Nat.mod_upper_bound k 4 ltac:(lia)) as Hm.
  set (i := (k / 4)%nat) in *. set (j := (k mod 4)%nat) in *. clearbody i j. subst k.
  unfold wbytes. rewrite take_insert, decide_True by lia.
  destruct (lookup_lt_is_Some_2 w i) as [x Hx]; [lia|].
  apply insert_mjoin_be with x; [by rewrite lookup_take_lt by lia|done|].
  rewrite (list_lookup_total_correct _ _ _ Hx). by apply be_bytes_set_byte.
Qed.

Lemma set_byte_u32 w idx v n :
  is_u8 v -> 0 <= idx -> Forall is_u32 (take n w) -> Forall is_u32 (take n (set_byte w idx v)).
Proof.
  intros Hv Hi Hw. unfold set_byte. rewrite take_insert. case_decide; [|done].
  destruct (decide (Z.to_nat (idx / 4) < length w)%nat).
  2:{ rewrite list_insert_ge; [done|]. rewrite length_take. lia. }
  destruct (lookup_lt_is_Some_2 w (Z.to_nat (idx / 4))) as [x Hx]; [lia|].
  rewrite (list_lookup_total_correct _ _ _ Hx). apply Forall_insert; [done|].
  assert (is_u32 x) as Hux.
  { apply (Forall_lookup_1 _ _ (Z.to_nat (idx / 4)) _ Hw). by rewrite lookup_take_lt by lia. }
  pose proof (Z.mod_pos_bound idx 4 ltac:(lia)) as Hm.
  apply is_u32_lor.
  - apply range_of_bits; [lia|apply Z.ldiff_nonneg; unfold is_u32 in Hux; lia|].
    intros i Hb. rewrite Z.ldiff_spec, (testbit_high x 32) by (lia || apply Hux). done.
  - apply range_of_bits; [lia|apply Z.shiftl_nonneg; apply Hv|].
    intros i Hb. rewrite Z.shiftl_spec by lia. apply (testbit_high v 8); [lia|apply Hv|lia].
Qed.

(** ** The invariant of the incremental interface *)

Lemma length_words_of b : length (words_of b) = 16%nat.
Proof. unfold words_of. by rewrite length_fmap, length_seq. Qed.

Lemma length_spec_compress V b : length (spec_compress V b) = length V.
Proof.
  destruct V as [|v0 [|v1 [|v2 [|v3 [|v4 [|v5 [|v6 [|v7 [|]]]]]]]]]; done.
Qed.

Lemma spec_blocks_S m n :
  spec_blocks m (S n) = spec_compress (spec_blocks m n) (slice (64 * n) 64 m).
Proof. unfold spec_blocks. rewrite seq_S, foldl_app. reflexivity. Qed.

Lemma length_spec_blocks m n : length (spec_blocks m n) = 8%nat.
Proof. induction n as [|n IH]; [done|]. by rewrite spec_blocks_S, length_spec_compress. Qed.

Lemma spec_blocks_app m m' n : (64 * n <= length m)%nat -> spec_blocks (m ++ m') n = spec_blocks m n.
Proof.
  induction n as [|n IH]; intros Hn; [done|].
  rewrite !spec_blocks_S, IH by lia. by rewrite slice_app_l by lia.
Qed.

(** The context after the bytes [m]. *)
Record sm3_inv (s : SM3_CTX) (m : list Z) : Prop := {
  inv_sizes : ctx_sizes s;
  inv_regs : Regs s = spec_blocks m (length m / 64);
  inv_len0 : BitLen0 s = u32 (8 * Z.of_nat (length m));
  inv_len1 : BitLen1 s = u32 (8 * Z.of_nat (length m) / 2 ^ 32);
  inv_u32 : Forall is_u32 (take 16 (W s));
  inv_buf : take (length m mod 64) (wbytes (W s)) = drop (64 * (length m / 64)) m
}.

Lemma sm3_inv_initial : sm3_inv sm3_initial [].
Proof. split; [by split_and!|reflexivity..|repeat constructor; done|reflexivity]. Qed.

(** The bit counter in two halves. *)
Lemma bitlen_next n :
  add32 (u32 (8 * Z.of_nat n)) 8 = u32 (8 * Z.of_nat (S n)) /\
  (if u32 (8 * Z.of_nat (S n)) =? 0 then add32 (u32 (8 * Z.of_nat n / 2 ^ 32)) 1
   else u32 (8 * Z.of_nat n / 2 ^ 32)) = u32 (8 * Z.of_nat (S n) / 2 ^ 32).
Proof.
  unfold add32, u32. rewrite !Zplus_mod_idemp_l. split; [f_equal; lia|].
  change (2 ^ 32) with 4294967296.
  destruct (Z.eqb_spec ((8 * Z.of_nat (S n)) mod 4294967296) 0) as [E|E];
    rewrite ?Zplus_mod_idemp_l; f_equal; Z.div_mod_to_equations; lia.
Qed.

Lemma bitlen_index n :
  Z.lxor (Z.land (shr32 (u32 (8 * Z.of_nat n)) 3) 0x3F) 0x03 = Z.lxor (Z.of_nat (n mod 64)) 3.
Proof.
  f_equal. unfold shr32, u32. change 0x3F with (Z.ones 6).
  rewrite Z.land_ones, Z.shiftr_div_pow2, Nat2Z.inj_mod by lia.
  change (2 ^ 32) with 4294967296. change (2 ^ 3) with 8. change (2 ^ 6) with 64.
  change (Z.of_nat 64) with 64. Z.div_mod_to_equations. lia.
Qed.

(** The low nine bits of the counter are the fill of the block in bits. *)
Lemma bitlen_low n : Z.land (u32 (8 * Z.of_nat n)) 0x01FF = 8 * Z.of_nat (n mod 64).
Proof.
  unfold u32. change 0x1FF with (Z.ones 9). rewrite Z.land_ones, Nat2Z.inj_mod by lia.
  change (2 ^ 32) with 4294967296. change (2 ^ 9) with 512. change (Z.of_nat 64) with 64.
  Z.div_mod_to_equations. lia.
Qed.

Lemma length_wbytes w : length w = 68%nat -> length (wbytes w) = 64%nat.
Proof. intros Hw. unfold wbytes. rewrite length_mjoin_be, length_take, Hw. reflexivity. Qed.

Lemma length_set_byte w i v : length (set_byte w i v) = length w.
Proof. apply length_insert. Qed.

(** Storing one more byte of the message in the block buffer. *)
Lemma wbytes_store w m b :
  is_u8 b -> length w = 68%nat ->
  take (length m mod 64) (wbytes w) = drop (64 * (length m / 64)) m ->
  take (S (length m mod 64)) (wbytes (set_byte w (Z.lxor (Z.of_nat (length m mod 64)) 3) b)) =
    drop (64 * (length m / 64)) (m ++ [b]).
Proof.
  intros Hb Hw E. pose proof (Nat.mod_upper_bound (length m) 64 ltac:(lia)) as Hr.
  pose proof (Nat.div_mod_eq (length m) 64) as Hq.
  rewrite wbytes_set_byte by done.
  rewrite (take_S_r _ _ b) by (apply list_lookup_insert_eq; by rewrite length_wbytes).
  rewrite take_insert, decide_False by lia. rewrite E, drop_app_le by lia. done.
Qed.

Lemma div_mod_S n :
  (n mod 64 < 63 /\ S n / 64 = n / 64 /\ S n mod 64 = S (n mod 64))%nat \/
  (n mod 64 = 63 /\ S n / 64 = S (n / 64) /\ S n mod 64 = 0)%nat.
Proof.
  pose proof (Nat.mod_upper_bound n 64 ltac:(lia)). pose proof (Nat.div_mod_eq n 64).
  pose proof (Nat.mod_upper_bound (S n) 64 ltac:(lia)). pose proof (Nat.div_mod_eq (S n) 64).
  lia.
Qed.

Lemma sm3_step s m b : sm3_inv s m -> is_u8 b -> sm3_inv (sm3_update_byte s b) (m ++ [b]).
Proof.
  intros [HS HR H0 H1 HU HB] Hb. pose proof HS as (HS1 & HS2 & HS3).
  destruct (bitlen_next (length m)) as [E0 E1].
  unfold sm3_update_byte. rewrite H0, H1, bitlen_index, E0, E1.
  rewrite bitlen_low. set (i := Z.lxor _ 3).
  assert (length (m ++ [b]) = S (length m)) as Hl by (rewrite length_app; simpl; lia).
  assert (Forall is_u32 (take 16 (set_byte (W s) i b))) as HU'.
  { apply set_byte_u32; [done| |done]. apply Z.lxor_nonneg. lia. }
  pose proof (wbytes_store (W s) m b Hb HS2 HB) as Hst. fold i in Hst.
  destruct (div_mod_S (length m)) as [(Hr & Eq & Er)|(Hr & Eq & Er)].
  - replace (8 * Z.of_nat (S (length m) mod 64) =? 0) with false by lia.
    split; cbn [Regs BitLen0 BitLen1 W WDot]; rewrite ?Hl, ?Eq, ?Er;
      [| |reflexivity|reflexivity|exact HU'|exact Hst].
    + split_and!; [exact HS1|exact (eq_trans (length_set_byte _ _ _) HS2)|exact HS3].
    + rewrite HR, spec_blocks_app; [reflexivity|].
      pose proof (Nat.div_mod_eq (length m) 64). lia.
  - replace (8 * Z.of_nat (S (length m) mod 64) =? 0) with true by lia.
    set (s' := {| Regs := _ |}).
    assert (ctx_sizes s') as HS'
      by (split_and!; [exact HS1|exact (eq_trans (length_set_byte _ _ _) HS2)|exact HS3]).
    assert (wbytes (W s') = slice (64 * (length m / 64)) 64 (m ++ [b])) as Hblk.
    { unfold slice. rewrite <- Hst, Hr. rewrite take_take. symmetry. apply take_ge.
      by rewrite length_wbytes by apply HS'. }
    split; rewrite ?Hl, ?Eq, ?Er; [by apply transform_sizes| |reflexivity|reflexivity| |].
    + rewrite (transform_regs s' (slice (64 * (length m / 64)) 64 (m ++ [b]))); [|done|].
      * change (Regs s') with (Regs s). rewrite HR, spec_blocks_S, spec_blocks_app; [reflexivity|].
        pose proof (Nat.div_mod_eq (length m) 64). lia.
      * rewrite <- Hblk. symmetry. apply words_of_wbytes; [apply HS'|exact HU'].
    + rewrite transform_W by apply HS'. exact HU'.
    + rewrite take_0. symmetry. apply drop_ge.
      pose proof (Nat.div_mod_eq (length m) 64). lia.
Qed.

Lemma sm3_steps bs : forall s m, sm3_inv s m -> Forall is_u8 bs ->
  sm3_inv (foldl sm3_update_byte s bs) (m ++ bs).
Proof.
  induction bs as [|b bs IH]; intros s m Hs Hb; simpl; [by rewrite app_nil_r|].
  apply Forall_cons in Hb as [Hb Hbs]. rewrite cons_middle, app_assoc.
  apply IH; [by apply sm3_step|done].
Qed.

(** ** Padding *)

Lemma replicate_zero_u8 n : Forall is_u8 (replicate n 0).
Proof. apply Forall_replicate. unfold is_u8. lia. Qed.

(** The padding loop adds the number of zeros the specification asks for. *)
Lemma sm3_pad_run n : forall fuel s m,
  sm3_inv s m -> (length m mod 64 + n = 56 \/ length m mod 64 + n = 120)%nat ->
  (length m mod 64 + n = 120 -> 56 < length m mod 64)%nat -> (n <= fuel)%nat ->
  exists s', cwhile fuel (fun s => negb (Z.land (BitLen0 s) 0x01FF =? 448))
      (fun s => Ret (sm3_update_byte s ZERO)) s = Ret s' /\ sm3_inv s' (m ++ replicate n 0).
Proof.
  induction n as [|n IH]; intros fuel s m Hs Hn Hn' Hf;
    pose proof (Nat.mod_upper_bound (length m) 64 ltac:(lia)) as Hm.
  - exists s. rewrite app_nil_r. split; [|done]. apply cwhile_stop.
    rewrite (inv_len0 _ _ Hs), bitlen_low. replace (length m mod 64)%nat with 56%nat by lia. done.
  - destruct fuel as [|fuel]; [lia|].
    erewrite cwhile_step; [|by rewrite (inv_len0 _ _ Hs), bitlen_low; lia|reflexivity].
    destruct (IH fuel (sm3_update_byte s ZERO) (m ++ [0])) as (s' & Hw & Hi).
    + apply sm3_step; [done|]. unfold is_u8. lia.
    + rewrite length_app, Nat.add_1_r. destruct (div_mod_S (length m)); lia.
    + rewrite length_app, Nat.add_1_r. destruct (div_mod_S (length m)); lia.
    + lia.
    + exists s'. split; [exact Hw|]. by rewrite <- app_assoc in Hi.
Qed.

Lemma spec_zeros_fill len :
  ((S len mod 64 + spec_zeros len = 56 \/ S len mod 64 + spec_zeros len = 120) /\
   (S len mod 64 + spec_zeros len = 120 -> 56 < S len mod 64) /\ spec_zeros len <= 64)%nat.
Proof.
  unfold spec_zeros. pose proof (Z.mod_pos_bound (55 - Z.of_nat len) 64 ltac:(lia)).
  pose proof (Z.div_mod (55 - Z.of_nat len) 64 ltac:(lia)).
  pose proof (Nat.mod_upper_bound (S len) 64 ltac:(lia)). pose proof (Nat.div_mod_eq (S len) 64).
  lia.
Qed.

(** ** The final block and the digest *)

Lemma wbytes_lengths w l0 l1 : length w = 68%nat ->
  wbytes (<[15%nat := l0]> (<[14%nat := l1]> w)) = take 56 (wbytes w) ++ be_bytes l1 ++ be_bytes l0.
Proof.
  intros Hw. unfold wbytes.
  assert (forall x : list Z, take 16 x = take 14 x ++ take 2 (drop 14 x)) as H16
    by (intros x; symmetry; apply take_take_drop).
  rewrite !H16, !fmap_app, !join_app, !take_insert, !decide_False by lia.
  rewrite take_app_length' by (rewrite length_mjoin_be, length_take, Hw; reflexivity).
  f_equal. rewrite <- (take_drop 14 w) at 1.
  assert (length (take 14 w) = 14%nat) as H14 by (rewrite length_take; lia).
  rewrite !insert_app_r_alt by lia. rewrite H14, drop_app_length' by lia.
  pose proof (length_drop w 14) as Hd.
  destruct (drop 14 w) as [|a [|b d]]; [simpl in Hd; lia..|]. reflexivity.
Qed.

Lemma digest_bytes r : length r = 8%nat ->
  (fun i => get_byte r (Z.lxor (Z.of_nat i) 3)) <$> seq 0 SM3_DIGEST_LENGTH = mjoin (be_bytes <$> r).
Proof.
  intros Hr. destruct r as [|a [|b [|c [|d [|e [|f [|g [|h [|]]]]]]]]]; try discriminate.
  reflexivity.
Qed.

Lemma length_sm3_spec m : length (sm3_spec m) = SM3_DIGEST_LENGTH.
Proof. unfold sm3_spec. by rewrite length_mjoin_be, length_spec_blocks. Qed.

Lemma spec_pad_blocks m : let m1 := m ++ [0x80] ++ replicate (spec_zeros (length m)) 0 in
  (length m1 mod 64 = 56)%nat /\ (length (spec_pad m) / 64 = S (length m1 / 64))%nat.
Proof.
  cbv zeta. unfold spec_pad. rewrite !length_app, !length_be_bytes, length_replicate.
  simpl length. destruct (spec_zeros_fill (length m)) as ([H|H] & _ & _);
  set (n := spec_zeros (length m)) in *; clearbody n;
  pose proof (Nat.div_mod_eq (S (length m)) 64);
  pose proof (Nat.div_mod_eq (length m + (1 + n)) 64);
  pose proof (Nat.mod_upper_bound (length m + (1 + n)) 64 ltac:(lia));
  pose proof (Nat.div_mod_eq (length m + (1 + (n + (4 + 4)))) 64);
  pose proof (Nat.mod_upper_bound (length m + (1 + (n + (4 + 4)))) 64 ltac:(lia)); lia.
Qed.

Lemma sm3_final_ok s m out : sm3_inv s m -> (32 <= length out)%nat ->
  exists c, SM3_Final (Some s) (Some out) = Ret (1, Some c, Some (splice out 0 (sm3_spec m))).
Proof.
  intros Hs Hout. pose proof (spec_zeros_fill (length m)) as (Hz1 & Hz2 & Hz3).
  assert (sm3_inv (sm3_update_byte s PAD) (m ++ [0x80])) as H1.
  { apply sm3_step; [done|]. unfold is_u8, PAD. lia. }
  edestruct (sm3_pad_run (spec_zeros (length m)) 64) as (s1 & Hrun & Hi);
    [exact H1|rewrite length_app, Nat.add_1_r; assumption..|assumption|].
  destruct (spec_pad_blocks m) as [Hr Hq]. rewrite <- app_assoc in Hi.
  set (m1 := m ++ [0x80] ++ replicate _ 0) in *. destruct Hi as [HS HR _ _ HU HB].
  unfold SM3_Final, sm3_pad_loop. rewrite Hrun. cbn [mbind cpp_bind].
  rewrite (inv_len0 _ _ Hs), (inv_len1 _ _ Hs).
  set (l0 := u32 (8 * Z.of_nat (length m))) in *.
  set (l1 := u32 (8 * Z.of_nat (length m) / 2 ^ 32)) in *.
  set (s2 := {| Regs := _; W := _ |}). pose proof HS as (HS1 & HS2 & HS3).
  assert (ctx_sizes s2) as HS'.
  { split_and!; [exact HS1| |exact HS3]. unfold s2. cbn [W]. by rewrite !length_insert. }
  assert (spec_pad m = m1 ++ be_bytes l1 ++ be_bytes l0) as Hpad.
  { unfold spec_pad, m1, l0, l1. rewrite <- !app_assoc. reflexivity. }
  pose proof (Nat.div_mod_eq (length m1) 64) as Hdm.
  assert (Regs (SM3_Transform s2) = spec_blocks (spec_pad m) (length (spec_pad m) / 64)) as HE.
  { rewrite Hq, spec_blocks_S.
    assert (Forall is_u32 (take 16 (W s2))) as HU2.
    { unfold s2. cbn [W]. rewrite !take_insert, !decide_True by lia.
      apply Forall_insert; [apply Forall_insert; [exact HU|]|]; apply is_u32_u32. }
    rewrite (transform_regs s2 (wbytes (W s2)));
      [|exact HS'|symmetry; apply words_of_wbytes; [apply HS'|exact HU2]].
    unfold s2 at 2. cbn [W]. rewrite wbytes_lengths by done. change (Regs s2) with (Regs s1).
    rewrite HR, Hpad, spec_blocks_app by lia. rewrite Hr in HB. f_equal.
    rewrite HB. unfold slice. rewrite drop_app_le by lia. symmetry. apply take_ge.
    rewrite !length_app, length_drop, !length_be_bytes. lia. }
  exists (SM3_Transform s2). rewrite digest_bytes by apply (transform_sizes s2 HS').
  rewrite HE. change (mjoin (be_bytes <$> _)) with (sm3_spec m).
  rewrite buf_write_ok by (rewrite ?length_sm3_spec; unfold SM3_DIGEST_LENGTH; lia). reflexivity.
Qed.

(** ** Properties *)

(** A sequence of calls of [SM3_Update]. *)
Fixpoint sm3_updates (s : option SM3_CTX) (chunks : list (list Z)) : cpp (option SM3_CTX) :=
  match chunks with
  | [] => Ret s
  | d :: ds => '(_, s) ← SM3_Update s (Some d) (Z.of_nat (length d)); sm3_updates s ds
  end.

Lemma SM3_Update_all c d n : 0 <= n <= Z.of_nat (length d) ->
  SM3_Update (Some c) (Some d) n = Ret (1, Some (foldl sm3_update_byte c (take (Z.to_nat n) d))).
Proof. intros Hn. unfold SM3_Update. by rewrite buf_read_ok by lia. Qed.

Lemma sm3_updates_inv chunks : forall c m, sm3_inv c m -> Forall (Forall is_u8) chunks ->
  exists c', sm3_updates (Some c) chunks = Ret (Some c') /\ sm3_inv c' (m ++ mjoin chunks).
Proof.
  induction chunks as [|d ds IH]; intros c m Hc Hd.
  - exists c. by rewrite app_nil_r.
  - apply Forall_cons in Hd as [Hd Hds]. cbn [sm3_updates].
    rewrite SM3_Update_all, take_ge by lia. cbn [mbind cpp_bind].
    destruct (IH _ (m ++ d) (sm3_steps d c m Hc Hd) Hds) as (c' & E & Hi).
    exists c'. split; [exact E|]. by rewrite <- app_assoc in Hi.
Qed.

(** C1: however the message is split into calls of [SM3_Update], the context
    that [SM3_Init] sets up and [SM3_Final] closes yields the SM3 hash of the
    whole message (GB/T 32905: padding, message expansion, 64 rounds, chaining),
    stored in the first 32 bytes of the caller's buffer; the padding loop ends,
    and no access leaves a buffer. *)
Theorem sm3_stream_correct (c : SM3_CTX) (chunks : list (list Z)) (out : list Z) :
  Forall (Forall is_u8) chunks -> (32 <= length out)%nat ->
  exists c', (s ← sm3_updates (SM3_Init (Some c)).2 chunks; SM3_Final s (Some out)) =
    Ret (1, Some c', Some (splice out 0 (sm3_spec (mjoin chunks)))).
Proof.
  intros Hc Ho. destruct (sm3_updates_inv chunks sm3_initial [] sm3_inv_initial Hc) as (c' & E & Hi).
  change (SM3_Init (Some c)).2 with (Some sm3_initial). rewrite E. by apply (sm3_final_ok c').
Qed.

Lemma sm3_stream_correct_witness :
  exists c', (s ← sm3_updates (SM3_Init (Some sm3_initial)).2 [[0x61]; []; [0x62; 0x63]];
    SM3_Final s (Some (replicate 33 7))) =
    Ret (1, Some c', Some (be_bytes 0x66c7f0f4 ++ be_bytes 0x62eeedd9 ++ be_bytes 0xd1f2d46b ++
      be_bytes 0xdc10e4e2 ++ be_bytes 0x4167c487 ++ be_bytes 0x5cf2f7a2 ++ be_bytes 0x297da02b ++
      be_bytes 0x8f4ba8e0 ++ [7])).
Proof.
  destruct (sm3_stream_correct sm3_initial [[0x61]; []; [0x62; 0x63]] (replicate 33 7)) as [c' E].
  - eval_decide.
  - eval_decide.
  - exists c'. rewrite E. vm_compute. reflexivity.
Defined.

(** The one-call interface. *)
Lemma SM3_ok (d md : list Z) (n : Z) :
  Forall is_u8 d -> 0 <= n <= Z.of_nat (length d) -> (32 <= length md)%nat ->
  SM3 d n md = Ret (splice md 0 (sm3_spec (take (Z.to_nat n) d))).
Proof.
  intros Hd Hn Hm. unfold SM3. rewrite SM3_Update_all by done. cbn [mbind cpp_bind].
  pose proof (sm3_steps (take (Z.to_nat n) d) _ _ sm3_inv_initial (Forall_take _ _ _ Hd)) as Hi.
  destruct (sm3_final_ok _ _ md Hi Hm) as [c E]. by rewrite E.
Qed.

(** The one-call interface [SM3(d, n, md)] returns, reads only the [n]
    bytes of [d], and leaves their hash at [md]. *)
Theorem SM3_correct (d md : list Z) (n : Z) :
  Forall is_u8 d -> 0 <= n <= Z.of_nat (length d) -> (32 <= length md)%nat ->
  SM3 d n md = Ret (splice md 0 (sm3_spec (take (Z.to_nat n) d))).
Proof. exact (SM3_ok d md n). Qed.

Lemma SM3_correct_witness :
  SM3 [0x61; 0x62; 0x63; 0x64] 3 (replicate 32 0) =
    Ret (be_bytes 0x66c7f0f4 ++ be_bytes 0x62eeedd9 ++ be_bytes 0xd1f2d46b ++
      be_bytes 0xdc10e4e2 ++ be_bytes 0x4167c487 ++ be_bytes 0x5cf2f7a2 ++ be_bytes 0x297da02b ++
      be_bytes 0x8f4ba8e0).
Proof.
  rewrite (SM3_correct [0x61; 0x62; 0x63; 0x64] (replicate 32 0) 3).
  - vm_compute. reflexivity.
  - eval_decide.
  - eval_decide.
  - eval_decide.
Defined.
