(* ===== verification/Sm4.v ===== *)
(** * SM4 (sm/sm4.h, sm/sm4.cpp): the block cipher and its one-call modes

    Key expansion, the block functions on arrays of 32-bit words, ECB with
    zero or PKCS5 padding ([enin_sm4], [dein_sm4]), CBC ([sm4_CBC],
    [dein_sm4_CBC]) and CBC-MAC.  A pointer that advances over a buffer is the
    buffer with a running offset.  The specification is the cipher of
    GB/T 32907 and the modes as recursions over 16-byte blocks.  The
    incremental interface of the same file is in Sm4Stream. *)
From S2P Require Import Prelude Words Buffers.

(** ** Tables *)

Definition FK : list Z := [0xa3b1bac6; 0x56aa3350; 0x677d9197; 0xb27022dc].

Definition CK : list Z :=
  [0x00070e15; 0x1c232a31; 0x383f464d; 0x545b6269; 0x70777e85; 0x8c939aa1; 0xa8afb6bd; 0xc4cbd2d9;
   0xe0e7eef5; 0xfc030a11; 0x181f262d; 0x343b4249; 0x50575e65; 0x6c737a81; 0x888f969d; 0xa4abb2b9;
   0xc0c7ced5; 0xdce3eaf1; 0xf8ff060d; 0x141b2229; 0x30373e45; 0x4c535a61; 0x686f767d; 0x848b9299;
   0xa0a7aeb5; 0xbcc3cad1; 0xd8dfe6ed; 0xf4fb0209; 0x10171e25; 0x2c333a41; 0x484f565d; 0x646b7279].

Definition SBOX_TABLE : list Z :=
  [0xd6; 0x90; 0xe9; 0xfe; 0xcc; 0xe1; 0x3d; 0xb7; 0x16; 0xb6; 0x14; 0xc2; 0x28; 0xfb; 0x2c; 0x05;
   0x2b; 0x67; 0x9a; 0x76; 0x2a; 0xbe; 0x04; 0xc3; 0xaa; 0x44; 0x13; 0x26; 0x49; 0x86; 0x06; 0x99;
   0x9c; 0x42; 0x50; 0xf4; 0x91; 0xef; 0x98; 0x7a; 0x33; 0x54; 0x0b; 0x43; 0xed; 0xcf; 0xac; 0x62;
   0xe4; 0xb3; 0x1c; 0xa9; 0xc9; 0x08; 0xe8; 0x95; 0x80; 0xdf; 0x94; 0xfa; 0x75; 0x8f; 0x3f; 0xa6;
   0x47; 0x07; 0xa7; 0xfc; 0xf3; 0x73; 0x17; 0xba; 0x83; 0x59; 0x3c; 0x19; 0xe6; 0x85; 0x4f; 0xa8;
   0x68; 0x6b; 0x81; 0xb2; 0x71; 0x64; 0xda; 0x8b; 0xf8; 0xeb; 0x0f; 0x4b; 0x70; 0x56; 0x9d; 0x35;
   0x1e; 0x24; 0x0e; 0x5e; 0x63; 0x58; 0xd1; 0xa2; 0x25; 0x22; 0x7c; 0x3b; 0x01; 0x21; 0x78; 0x87;
   0xd4; 0x00; 0x46; 0x57; 0x9f; 0xd3; 0x27; 0x52; 0x4c; 0x36; 0x02; 0xe7; 0xa0; 0xc4; 0xc8; 0x9e;
   0xea; 0xbf; 0x8a; 0xd2; 0x40; 0xc7; 0x38; 0xb5; 0xa3; 0xf7; 0xf2; 0xce; 0xf9; 0x61; 0x15; 0xa1;
   0xe0; 0xae; 0x5d; 0xa4; 0x9b; 0x34; 0x1a; 0x55; 0xad; 0x93; 0x32; 0x30; 0xf5; 0x8c; 0xb1; 0xe3;
   0x1d; 0xf6; 0xe2; 0x2e; 0x82; 0x66; 0xca; 0x60; 0xc0; 0x29; 0x23; 0xab; 0x0d; 0x53; 0x4e; 0x6f;
   0xd5; 0xdb; 0x37; 0x45; 0xde; 0xfd; 0x8e; 0x2f; 0x03; 0xff; 0x6a; 0x72; 0x6d; 0x6c; 0x5b; 0x51;
   0x8d; 0x1b; 0xaf; 0x92; 0xbb; 0xdd; 0xbc; 0x7f; 0x11; 0xd9; 0x5c; 0x41; 0x1f; 0x10; 0x5a; 0xd8;
   0x0a; 0xc1; 0x31; 0x88; 0xa5; 0xcd; 0x7b; 0xbd; 0x2d; 0x74; 0xd0; 0x12; 0xb8; 0xe5; 0xb4; 0xb0;
   0x89; 0x69; 0x97; 0x4a; 0x0c; 0x96; 0x77; 0x7e; 0x65; 0xb9; 0xf1; 0x09; 0xc5; 0x6e; 0xc6; 0x84;
   0x18; 0xf0; 0x7d; 0xec; 0x3a; 0xdc; 0x4d; 0x20; 0x79; 0xee; 0x5f; 0x3e; 0xd7; 0xcb; 0x39; 0x48].

(** ** Words *)

Definition SM4_MASK0 : Z := 0x000000FF.
Definition SM4_MASK1 : Z := 0x0000FF00.
Definition SM4_MASK2 : Z := 0x00FF0000.
Definition SM4_MASK3 : Z := 0xFF000000.

Definition SM4ROLEFT (uval bits : Z) : Z := rol32 uval bits.

(** The substitution of the four bytes of a word, shared by [SMS4CalciRK] and
    [SMS4Lt].  [b3 << 24] is computed in [int]; its conversion to [ULONG] is
    the 32-bit pattern. *)
Definition sm4_sub (a : Z) : Z :=
  let a0 := Z.land a SM4_MASK0 in
  let a1 := Z.shiftr (Z.land a SM4_MASK1) 8 in
  let a2 := Z.shiftr (Z.land a SM4_MASK2) 16 in
  let a3 := Z.shiftr (Z.land a SM4_MASK3) 24 in
  let b0 := SBOX_TABLE !!! Z.to_nat a0 in
  let b1 := SBOX_TABLE !!! Z.to_nat a1 in
  let b2 := SBOX_TABLE !!! Z.to_nat a2 in
  let b3 := SBOX_TABLE !!! Z.to_nat a3 in
  u32 (Z.lor (Z.lor (Z.lor b0 (Z.shiftl b1 8)) (Z.shiftl b2 16)) (Z.shiftl b3 24)).

Definition SMS4CalciRK (a : Z) : Z :=
  let b := sm4_sub a in
  Z.lxor (Z.lxor b (SM4ROLEFT b 13)) (SM4ROLEFT b 23).

Definition SMS4Lt (a : Z) : Z :=
  let b := sm4_sub a in
  Z.lxor (Z.lxor (Z.lxor (Z.lxor b (SM4ROLEFT b 2)) (SM4ROLEFT b 10)) (SM4ROLEFT b 18))
    (SM4ROLEFT b 24).

Definition SMS4F (x0 x1 x2 x3 rk : Z) : Z :=
  Z.lxor x0 (SMS4Lt (Z.lxor (Z.lxor (Z.lxor x1 x2) x3) rk)).

(** ** Keys *)

Record SM4_KEY := mk_SM4_KEY {
  ERK : list Z;
  DRK : list Z;
  MK : list Z
}.

(** [k[0..3]], then [k[i+4] = k[i] ^ SMS4CalciRK(...)]; [ERK[i] = k[i+4]]. *)
Definition rk_step (k : list Z) (i : nat) : list Z :=
  <[(i + 4)%nat := Z.lxor (k !!! i) (SMS4CalciRK (Z.lxor (Z.lxor (Z.lxor (k !!! (i + 1)%nat)
     (k !!! (i + 2)%nat)) (k !!! (i + 3)%nat)) (CK !!! i)))]> k.

(** [k0] is what the uninitialised local array holds. *)
Definition SM4_InitRK (k0 : list Z) (keyObj : SM4_KEY) (flag : Z) : SM4_KEY :=
  let k := foldl (fun k i => <[i := Z.lxor (MK keyObj !!! i) (FK !!! i)]> k) k0 (seq 0 4) in
  let '(k, erk) := foldl (fun '(k, erk) i =>
      let k := rk_step k i in (k, <[i := k !!! (i + 4)%nat]> erk))
    (k, ERK keyObj) (seq 0 32) in
  let drk := if flag =? 0 then DRK keyObj
    else foldl (fun d i => <[i := erk !!! (31 - i)%nat]> d) (DRK keyObj) (seq 0 32) in
  {| ERK := erk; DRK := drk; MK := MK keyObj |}.

(** One word of the key: three shifts by 8 and additions. *)
Definition key_word (key : list Z) (i : nat) : cpp Z :=
  let at_ j := buf_get key (Z.of_nat (i * 4 + j)) in
  b0 ← at_ 0%nat; let m := shl32 b0 8 in
  b1 ← at_ 1%nat; let m := shl32 (add32 m b1) 8 in
  b2 ← at_ 2%nat; let m := shl32 (add32 m b2) 8 in
  b3 ← at_ 3%nat; Ret (add32 m b3).

Definition sm4_SetKey (k0 : list Z) (keyObj : option SM4_KEY) (key : option (list Z)) (flag : Z)
    : cpp (Z * option SM4_KEY) :=
  match key, keyObj with
  | Some key, Some o =>
      mk ← cfor (fun i mk => w ← key_word key i; Ret (<[i := w]> mk)) 4 0 (MK o);
      Ret (0, Some (SM4_InitRK k0 {| ERK := ERK o; DRK := DRK o; MK := mk |} flag))
  | _, _ => Ret (1, keyObj)
  end.

(** ** Blocks of words *)

(** [ulbuf] after the 32 rounds on the four words [x]. *)
Definition sm4_rounds (rk x : list Z) : list Z :=
  foldl (fun u i => <[(i + 4)%nat := SMS4F (u !!! i) (u !!! (i + 1)%nat) (u !!! (i + 2)%nat)
      (u !!! (i + 3)%nat) (rk !!! i)]> u) (x ++ replicate 32 0) (seq 0 32).

(** The words stored back: [ulbuf[35]] down to [ulbuf[32]]. *)
Definition sm4_out (u : list Z) : list Z := [u !!! 35%nat; u !!! 34%nat; u !!! 33%nat; u !!! 32%nat].

(** The four entry points: [psrc] and [pdst] are arrays of words, [srclen] is
    in bytes; each turn of the loop reads and writes one block of four words. *)
Definition sm4_Encrypt_S (keyObj : SM4_KEY) (psrc : option (list Z)) (srclen : Z)
    : cpp (option (list Z)) :=
  let ulTotal := shr32 srclen 4 in
  match psrc with
  | None => Ret None
  | Some p =>
      p ← cfor (fun c p => x ← buf_read p (4 * Z.of_nat c) 4;
                           buf_write p (4 * Z.of_nat c) (sm4_out (sm4_rounds (ERK keyObj) x)))
            (Z.to_nat ulTotal) 0 p;
      Ret (Some p)
  end.

Definition sm4_Decrypt_S (keyObj : SM4_KEY) (psrc : option (list Z)) (srclen : Z)
    : cpp (option (list Z)) :=
  let ulTotal := shr32 srclen 4 in
  match psrc with
  | None => Ret None
  | Some p =>
      p ← cfor (fun c p => x ← buf_read p (4 * Z.of_nat c) 4;
                           buf_write p (4 * Z.of_nat c) (sm4_out (sm4_rounds (DRK keyObj) x)))
            (Z.to_nat ulTotal) 0 p;
      Ret (Some p)
  end.

Definition sm4_Encrypt (keyObj : SM4_KEY) (psrc : option (list Z)) (srclen : Z)
    (pdst : option (list Z)) : cpp (option (list Z)) :=
  let ulTotal := shr32 srclen 4 in
  match psrc, pdst with
  | Some p, Some q =>
      q ← cfor (fun c q => x ← buf_read p (4 * Z.of_nat c) 4;
                           buf_write q (4 * Z.of_nat c) (sm4_out (sm4_rounds (ERK keyObj) x)))
            (Z.to_nat ulTotal) 0 q;
      Ret (Some q)
  | _, _ => Ret None
  end.

Definition sm4_Decrypt (keyObj : SM4_KEY) (psrc : option (list Z)) (srclen : Z)
    (pdst : option (list Z)) : cpp (option (list Z)) :=
  let ulTotal := shr32 srclen 4 in
  match psrc, pdst with
  | Some p, Some q =>
      q ← cfor (fun c q => x ← buf_read p (4 * Z.of_nat c) 4;
                           buf_write q (4 * Z.of_nat c) (sm4_out (sm4_rounds (DRK keyObj) x)))
            (Z.to_nat ulTotal) 0 q;
      Ret (Some q)
  | _, _ => Ret None
  end.

(** ** Blocks of bytes *)

(** [tmp[0] = _GetBE32(pData); pData += 4; ...] *)
Definition get4 (b : list Z) (off : Z) : cpp (list Z) :=
  w0 ← _GetBE32 b off; w1 ← _GetBE32 b (off + 4);
  w2 ← _GetBE32 b (off + 8); w3 ← _GetBE32 b (off + 12);
  Ret [w0; w1; w2; w3].

(** [for (j = 0; j < 4; j++, pE += 4) _PutBE32(tmp[j], pE)] *)
Definition put4 (tmp b : list Z) (off : Z) : cpp (list Z) :=
  b ← _PutBE32 (tmp !!! 0%nat) b off; b ← _PutBE32 (tmp !!! 1%nat) b (off + 4);
  b ← _PutBE32 (tmp !!! 2%nat) b (off + 8); _PutBE32 (tmp !!! 3%nat) b (off + 12).

(** [tmp[i] ^ pIV[i]] for the four words. *)
Definition xor4 (a b : list Z) : list Z :=
  [Z.lxor (a !!! 0%nat) (b !!! 0%nat); Z.lxor (a !!! 1%nat) (b !!! 1%nat);
   Z.lxor (a !!! 2%nat) (b !!! 2%nat); Z.lxor (a !!! 3%nat) (b !!! 3%nat)].

(** The local [tmp] encrypted or decrypted in place. *)
Definition enc_tmp (keyObj : SM4_KEY) (tmp : list Z) : cpp (list Z) :=
  p ← sm4_Encrypt_S keyObj (Some tmp) 16; Ret (default tmp p).
Definition dec_tmp (keyObj : SM4_KEY) (tmp : list Z) : cpp (list Z) :=
  p ← sm4_Decrypt_S keyObj (Some tmp) 16; Ret (default tmp p).

(** The check of the last [nPad] bytes, for [i = 1 .. nPad]: false where the
    code returns 5. *)
Fixpoint pad_check (d : list Z) (ed_len nPad : Z) (n : nat) (i : Z) : cpp bool :=
  match n with
  | O => Ret true
  | S n' => v ← buf_get d (ed_len - i);
            if nPad =? v then pad_check d ed_len nPad n' (i + 1) else Ret false
  end.

(** The end of both decryptions: what [nPad] is, its range, the bytes. *)
Definition unpad (d : list Z) (ed_len padding d_len : Z) : cpp (Z * Z) :=
  last ← buf_get d (ed_len - 1);
  let nPad := if padding =? 0 then 0 else last in
  if (padding =? 1) && ((nPad <=? 0) || (16 <? nPad)) then Ret (3, d_len)
  else
    ok ← (if padding =? 1 then pad_check d ed_len nPad (Z.to_nat nPad) 1 else Ret true);
    Ret (match ok with true => (0, ed_len - nPad) | false => (5, d_len) end).

(** ** ECB: [enin_sm4], [dein_sm4]

    Both return the status, the output buffer and the length written through
    the pointer argument; [junk] is the uninitialised [last]. *)

(** The loop over whole blocks: remaining bytes, offsets of [pData] and [pE], output. *)
Definition ecb_loop (crypt : list Z -> cpp (list Z)) (d : list Z) (nData : Z) (ed : list Z)
    : cpp (Z * Z * Z * list Z) :=
  cwhile (Z.to_nat nData) (fun '(nData, pData, pE, ed) => 16 <=? nData)
    (fun '(nData, pData, pE, ed) =>
       tmp ← get4 d pData; tmp ← crypt tmp; ed ← put4 tmp ed pE;
       Ret (nData - 16, pData + 16, pE + 16, ed))
    (nData, 0, 0, ed).

Definition enin_sm4 (junk d : list Z) (dlen : Z) (ed : list Z) (ed_len : Z) (keyObj : SM4_KEY)
    (padding : Z) : cpp (Z * list Z * Z) :=
  let nTotal := ed_len in
  let nPad := 16 - Z.rem dlen 16 in
  let '(nPad, cPad) := if padding =? 0 then (Z.rem nPad 16, 0) else (nPad, u8 nPad) in
  nEn ← int_checked (dlen + nPad);
  if nTotal <? nEn then Ret (1, ed, ed_len)
  else
    '(nData, pData, pE, ed) ← ecb_loop (enc_tmp keyObj) d dlen ed;
    ed ← (if (0 <? cPad) || (0 <? nData) then
            last ← memcpy junk 0 d pData nData;
            last ← memset last nData cPad nPad;
            tmp ← get4 last 0; tmp ← enc_tmp keyObj tmp; put4 tmp ed pE
          else Ret ed);
    Ret (0, ed, nEn).

Definition dein_sm4 (ed : list Z) (ed_len : Z) (d : list Z) (d_len : Z) (keyObj : SM4_KEY)
    (padding : Z) : cpp (Z * list Z * Z) :=
  if (1 <? padding) || (padding <? 0) then Ret (4, d, d_len)
  else if (d_len <? ed_len) || negb (Z.rem ed_len 16 =? 0) then Ret (1, d, d_len)
  else
    '(_, _, _, d) ← ecb_loop (dec_tmp keyObj) ed ed_len d;
    '(r, n) ← unpad d ed_len padding d_len;
    Ret (r, d, n).

(** ** CBC *)

(** The loop of [sm4_CBC_MAC]: remaining bytes, offset of [in], [pIV]. *)
Definition sm4_CBC_MAC (junk : list Z) (inp : option (list Z)) (inlen : Z) (iv : option (list Z))
    (ivlen : Z) (keyObj : option SM4_KEY) (out : option (list Z)) : cpp (Z * option (list Z)) :=
  match inp, iv, keyObj, out with
  | Some inp, Some iv, Some keyObj, Some out =>
      tmpiv ← get4 iv 0;
      '(len, p, pIV) ← cwhile (Z.to_nat inlen) (fun '(len, p, pIV) => 16 <=? len)
        (fun '(len, p, pIV) =>
           tmp ← get4 inp p; pIV ← enc_tmp keyObj (xor4 tmp pIV); Ret (len - 16, p + 16, pIV))
        (inlen, 0, tmpiv);
      pIV ← (if 0 <? len then
               last ← memcpy junk 0 inp p len;
               tmp ← get4 last 0; enc_tmp keyObj (xor4 tmp pIV)
             else Ret pIV);
      out ← put4 pIV out 0;
      Ret (0, Some out)
  | _, _, _, _ => Ret (1, out)
  end.

Definition cbc_loop (keyObj : SM4_KEY) (inp : list Z) (len : Z) (pIV out : list Z)
    : cpp (Z * Z * list Z * Z * list Z) :=
  cwhile (Z.to_nat len) (fun '(len, p, pIV, pE, out) => 16 <=? len)
    (fun '(len, p, pIV, pE, out) =>
       tmp ← get4 inp p; pIV ← enc_tmp keyObj (xor4 tmp pIV); out ← put4 pIV out pE;
       Ret (len - 16, p + 16, pIV, pE + 16, out))
    (len, 0, pIV, 0, out).

Definition sm4_CBC (inp : option (list Z)) (inlen : Z) (iv : option (list Z)) (ivlen : Z)
    (keyObj : option SM4_KEY) (out : option (list Z)) (outlen : Z)
    : cpp (Z * option (list Z) * Z) :=
  match inp, iv, keyObj, out with
  | Some inp, Some iv, Some keyObj, Some out =>
      tmpiv ← get4 iv 0;
      '(len, p, pIV, pE, out) ← cbc_loop keyObj inp inlen tmpiv out;
      '(pE, out) ←
        (if 0 <=? len then
           last ← memset (replicate 16 0) 0 (u8 (16 - len)) 16;
           last ← memcpy last 0 inp p len;
           tmp ← get4 last 0; pIV ← enc_tmp keyObj (xor4 tmp pIV);
           out ← put4 pIV out pE; Ret (pE + 16, out)
         else Ret (pE, out));
      Ret (0, Some out, pE)
  | _, _, _, _ => Ret (1, out, outlen)
  end.

(** The loop of [dein_sm4_CBC]; the two arrays change roles after each block. *)
Definition decbc_loop (keyObj : SM4_KEY) (ed : list Z) (ed_len : Z) (tmpiv tmpivpre d : list Z)
    : cpp (Z * Z * list Z * list Z * Z * list Z) :=
  cwhile (Z.to_nat ed_len) (fun '(nData, pData, pIV, pIVp, pE, d) => 16 <=? nData)
    (fun '(nData, pData, pIV, pIVp, pE, d) =>
       tmp ← get4 ed pData; let pIVp := tmp in
       tmp ← dec_tmp keyObj tmp;
       d ← put4 (xor4 tmp pIV) d pE;
       Ret (nData - 16, pData + 16, pIVp, pIV, pE + 16, d))
    (ed_len, 0, tmpiv, tmpivpre, 0, d).

Definition dein_sm4_CBC (junk ed : list Z) (ed_len : Z) (d : list Z) (d_len : Z) (iv : list Z)
    (ivlen : Z) (keyObj : SM4_KEY) (padding : Z) : cpp (Z * list Z * Z) :=
  if (1 <? padding) || (padding <? 0) then Ret (4, d, d_len)
  else if (d_len <? ed_len) || negb (Z.rem ed_len 16 =? 0) then Ret (1, d, d_len)
  else
    tmpiv ← get4 iv 0;
    '(_, _, _, _, _, d) ← decbc_loop keyObj ed ed_len tmpiv junk d;
    '(r, n) ← unpad d ed_len padding d_len;
    Ret (r, d, n).

(** ** Specification: GB/T 32907-2016 *)

(** Arithmetic of GF(2^8) modulo x^8 + x^7 + x^6 + x^5 + x^4 + x^2 + 1. *)
Definition gf_double (a : Z) : Z := if Z.testbit a 7 then Z.lxor (Z.shiftl a 1) 0x1f5 else Z.shiftl a 1.
Definition gf_mul (a b : Z) : Z :=
  (foldl (fun '(acc, a) i => (if Z.testbit b (Z.of_nat i) then Z.lxor acc a else acc, gf_double a))
     (0, a) (seq 0 8)).1.
(** [a ^ 254], the inverse for [a <> 0]. *)
Definition gf_inv (a : Z) : Z :=
  (foldl (fun '(acc, a) (_ : nat) => let a := gf_mul a a in (gf_mul acc a, a)) (1, a) (seq 0 7)).1.
Definition parity (a : Z) : bool := foldl (fun p i => xorb p (Z.testbit a (Z.of_nat i))) false (seq 0 8).
(** The affine map of the S-box: a circulant matrix of first row 0xA7, constant 0xD3. *)
Definition sbox_affine (x : Z) : Z :=
  Z.lxor 0xd3 (foldl (fun y i =>
    let row := Z.land (Z.lor (Z.shiftl 0xa7 (Z.of_nat i)) (Z.shiftr 0xa7 (8 - Z.of_nat i))) 255 in
    if parity (Z.land row x) then Z.setbit y (Z.of_nat i) else y) 0 (seq 0 8)).
Definition spec_sbox (x : Z) : Z := sbox_affine (gf_inv (sbox_affine x)).

(** Byte [j] of [CK i] is [(4 i + j) * 7 mod 256]. *)
Definition spec_CK (i : nat) : Z :=
  let byte j := ((4 * Z.of_nat i + j) * 7) mod 256 in be32 (byte 0) (byte 1) (byte 2) (byte 3).

Definition spec_tau (a : Z) : Z :=
  match be_bytes a with
  | [b3; b2; b1; b0] => be32 (spec_sbox b3) (spec_sbox b2) (spec_sbox b1) (spec_sbox b0)
  | _ => 0
  end.
Definition spec_L (b : Z) : Z :=
  Z.lxor (Z.lxor (Z.lxor (Z.lxor b (rol32 b 2)) (rol32 b 10)) (rol32 b 18)) (rol32 b 24).
Definition spec_L' (b : Z) : Z := Z.lxor (Z.lxor b (rol32 b 13)) (rol32 b 23).

Definition quad : Type := (Z * Z * Z * Z)%type.
(** A round of the cipher ([L := spec_L]) or of the key expansion ([L := spec_L']). *)
Definition spec_round (L : Z -> Z) (x : quad) (rk : Z) : quad :=
  let '(x0, x1, x2, x3) := x in
  (x1, x2, x3, Z.lxor x0 (L (spec_tau (Z.lxor (Z.lxor (Z.lxor x1 x2) x3) rk)))).
Definition quad_rev (x : quad) : quad := let '(a, b, c, d) := x in (d, c, b, a).
Definition quad_list (x : quad) : list Z := let '(a, b, c, d) := x in [a; b; c; d].
Definition quad_of (l : list Z) : quad := (l !!! 0, l !!! 1, l !!! 2, l !!! 3)%nat.

(** Encryption or decryption of four words with the round keys in their order. *)
Definition spec_crypt (rk : list Z) (x : list Z) : list Z :=
  quad_list (quad_rev (foldl (spec_round spec_L) (quad_of x) rk)).

(** The round keys: the last word of each state of the key expansion. *)
Definition spec_keystate (mk : quad) (n : nat) : quad :=
  let '(m0, m1, m2, m3) := mk in
  foldl (spec_round spec_L')
    (Z.lxor m0 0xa3b1bac6, Z.lxor m1 0x56aa3350, Z.lxor m2 0x677d9197, Z.lxor m3 0xb27022dc)
    (spec_CK <$> seq 0 n).
Definition spec_rk (mk : quad) : list Z := (fun i => (spec_keystate mk (S i)).2) <$> seq 0 32.

(** Blocks of bytes as four words. *)
Definition words4 (b : list Z) : list Z := [be_at 0 b; be_at 4 b; be_at 8 b; be_at 12 b].
Definition bytes4 (w : list Z) : list Z :=
  be_bytes (w !!! 0%nat) ++ be_bytes (w !!! 1%nat) ++ be_bytes (w !!! 2%nat) ++ be_bytes (w !!! 3%nat).

(** The modes over [n] blocks of the message [d]; [f] is the block function. *)
Section modes.
Variable f : list Z -> list Z.

Fixpoint ecb (n : nat) (d : list Z) : list Z :=
  match n with
  | O => []
  | S n' => bytes4 (f (words4 (take 16 d))) ++ ecb n' (drop 16 d)
  end.

Fixpoint cbc (iv : list Z) (n : nat) (d : list Z) : list Z :=
  match n with
  | O => []
  | S n' => let c := f (xor4 (words4 (take 16 d)) iv) in bytes4 c ++ cbc c n' (drop 16 d)
  end.

(** The chaining value after [n] blocks; also the value of the CBC-MAC. *)
Fixpoint cbc_iv (iv : list Z) (n : nat) (d : list Z) : list Z :=
  match n with
  | O => iv
  | S n' => cbc_iv (f (xor4 (words4 (take 16 d)) iv)) n' (drop 16 d)
  end.

(** CBC decryption, [f] being the inverse block function. *)
Fixpoint decbc (iv : list Z) (n : nat) (d : list Z) : list Z :=
  match n with
  | O => []
  | S n' => let c := words4 (take 16 d) in bytes4 (xor4 (f c) iv) ++ decbc c n' (drop 16 d)
  end.
End modes.

(** PKCS5 padding always adds 1 to 16 bytes, zero padding fills the last block. *)
Definition pad_len (padding : Z) (n : nat) : nat :=
  if padding =? 0 then ((16 - n mod 16) mod 16)%nat else (16 - n mod 16)%nat.
Definition pad_msg (padding : Z) (m : list Z) : list Z :=
  m ++ replicate (pad_len padding (length m)) (if padding =? 0 then 0 else Z.of_nat (pad_len padding (length m))).
Definition nblocks (m : list Z) : nat := (length m / 16)%nat.

(** ** The tables and the rounds meet the specification *)

Lemma SBOX_TABLE_spec : SBOX_TABLE = (fun i => spec_sbox (Z.of_nat i)) <$> seq 0 256.
Proof. vm_compute. reflexivity. Qed.

Lemma CK_spec : CK = spec_CK <$> seq 0 32.
Proof. vm_compute. reflexivity. Qed.

Lemma sbox_lookup v : is_u8 v -> SBOX_TABLE !!! Z.to_nat v = spec_sbox v.
Proof.
  intros Hv. unfold is_u8 in Hv. rewrite SBOX_TABLE_spec. apply list_lookup_total_correct.
  rewrite list_lookup_fmap, lookup_seq_lt by lia. simpl. f_equal. f_equal. lia.
Qed.

Lemma spec_sbox_u8 v : is_u8 v -> is_u8 (spec_sbox v).
Proof.
  intros Hv. rewrite <- sbox_lookup by done.
  assert (Forall is_u8 SBOX_TABLE) as H by eval_decide.
  destruct (lookup_lt_is_Some_2 SBOX_TABLE (Z.to_nat v)) as [x Hx].
  { unfold is_u8 in Hv. change (length SBOX_TABLE) with 256%nat. lia. }
  rewrite (list_lookup_total_correct _ _ _ Hx). by eapply Forall_lookup_1.
Qed.

Lemma land_255_u8 a : is_u8 (Z.land a 255).
Proof. apply (land_range_r 8); lia. Qed.

Lemma sm4_sub_spec a : sm4_sub a = spec_tau a.
Proof.
  unfold sm4_sub, spec_tau, be_bytes.
  unfold SM4_MASK0, SM4_MASK1, SM4_MASK2, SM4_MASK3. rewrite !Z.shiftr_land.
  change (Z.shiftr 0xFF00 8) with 255. change (Z.shiftr 0xFF0000 16) with 255.
  change (Z.shiftr 0xFF000000 24) with 255. rewrite !sbox_lookup by apply land_255_u8.
  set (b0 := spec_sbox (Z.land a 255)). set (b1 := spec_sbox (Z.land (Z.shiftr a 8) 255)).
  set (b2 := spec_sbox (Z.land (Z.shiftr a 16) 255)). set (b3 := spec_sbox (Z.land (Z.shiftr a 24) 255)).
  transitivity (u32 (be32 b3 b2 b1 b0)).
  - unfold be32. f_equal. bits_ext i Hi. rewrite !Z.lor_spec.
    destruct (Z.testbit b0 i), (Z.testbit (Z.shiftl b1 8) i), (Z.testbit (Z.shiftl b2 16) i),
      (Z.testbit (Z.shiftl b3 24) i); reflexivity.
  - apply u32_id, is_u32_be32; apply spec_sbox_u8, land_255_u8.
Qed.

Lemma SMS4Lt_spec a : SMS4Lt a = spec_L (spec_tau a).
Proof. unfold SMS4Lt, spec_L, SM4ROLEFT. rewrite sm4_sub_spec. cbv zeta. reflexivity. Qed.

Lemma SMS4CalciRK_spec a : SMS4CalciRK a = spec_L' (spec_tau a).
Proof. unfold SMS4CalciRK, spec_L', SM4ROLEFT. rewrite sm4_sub_spec. cbv zeta. reflexivity. Qed.

#[global] Opaque spec_tau.

(** The window of four words that round [n] reads. *)
Definition window (u : list Z) (n : nat) : quad := (u !!! n, u !!! (n + 1), u !!! (n + 2), u !!! (n + 3))%nat.

(** An array filled by a recurrence holds the states of the round function. *)
Lemma rounds_window (step : list Z -> nat -> list Z) (L : Z -> Z) (rk : nat -> Z) :
  (forall u i, (i + 4 < length u)%nat -> step u i =
     <[(i + 4)%nat := (spec_round L (window u i) (rk i)).2]> u) ->
  forall n u i, (i + n + 4 <= length u)%nat ->
  length (foldl step u (seq i n)) = length u /\
  (forall j, (j < i + 4)%nat -> foldl step u (seq i n) !!! j = u !!! j) /\
  window (foldl step u (seq i n)) (i + n) = foldl (spec_round L) (window u i) (rk <$> seq i n).
Proof.
  intros Hstep. induction n as [|n IH]; intros u i Hu; simpl.
  - by rewrite Nat.add_0_r.
  - rewrite Hstep by lia. set (u' := <[(i + 4)%nat := _]> u).
    assert (length u' = length u) as Hl by apply length_insert.
    destruct (IH u' (S i) ltac:(lia)) as (H1 & H2 & H3).
    split_and!; [congruence| |].
    + intros j Hj. rewrite H2 by lia. unfold u'. by rewrite list_lookup_total_insert_ne by lia.
    + replace (i + S n)%nat with (S i + n)%nat by lia. rewrite H3. f_equal.
      unfold window, u'. replace (S i + 3)%nat with (i + 4)%nat by lia.
      rewrite list_lookup_total_insert_eq by lia.
      rewrite !list_lookup_total_insert_ne by lia. unfold window, spec_round. simpl.
      rewrite !Nat.add_1_r, <- !plus_n_Sm, Nat.add_0_r. reflexivity.
Qed.

Lemma fmap_lookup_seq (l : list Z) : (fun i => l !!! i) <$> seq 0 (length l) = l.
Proof.
  apply list_eq. intros i. rewrite list_lookup_fmap. destruct (decide (i < length l)%nat).
  - rewrite lookup_seq_lt by lia. simpl. symmetry. apply list_lookup_lookup_total_lt. lia.
  - rewrite lookup_seq_ge by lia. symmetry. apply lookup_ge_None. lia.
Qed.

(** The block function of the code; [K] is a well-formed key. *)
Lemma sm4_rounds_spec rk x : length rk = 32%nat -> length x = 4%nat ->
  sm4_out (sm4_rounds rk x) = spec_crypt rk x.
Proof.
  intros Hr Hx. unfold sm4_rounds, spec_crypt.
  destruct (rounds_window (fun u i => <[(i + 4)%nat := SMS4F (u !!! i) (u !!! (i + 1)%nat)
      (u !!! (i + 2)%nat) (u !!! (i + 3)%nat) (rk !!! i)]> u) spec_L (fun i => rk !!! i))
    with (n := 32%nat) (u := x ++ replicate 32 0) (i := 0%nat) as (_ & _ & H).
  - intros u i _. unfold SMS4F. by rewrite SMS4Lt_spec.
  - rewrite length_app, length_replicate, Hx. lia.
  - pose proof (fmap_lookup_seq rk) as E. rewrite Hr in E. rewrite E in H.
    destruct x as [|x0 [|x1 [|x2 [|x3 [|]]]]]; try discriminate.
    change (window _ 0) with (x0, x1, x2, x3) in H. change (quad_of _) with (x0, x1, x2, x3).
    rewrite <- H. reflexivity.
Qed.

Lemma length_spec_crypt rk x : length (spec_crypt rk x) = 4%nat.
Proof.
  unfold spec_crypt. by destruct (quad_rev (foldl _ _ rk)) as [[[a b] c] d].
Qed.

(** Decryption is encryption with the round keys reversed. *)
Lemma spec_round_rev L q rk : spec_round L (quad_rev (spec_round L q rk)) rk = quad_rev q.
Proof.
  destruct q as [[[a b] c] d]. simpl. do 2 f_equal.
  replace (Z.lxor (Z.lxor d c) b) with (Z.lxor (Z.lxor b c) d)
    by (rewrite (Z.lxor_comm b c), Z.lxor_comm; by rewrite Z.lxor_assoc).
  by rewrite lxor_cancel_r.
Qed.

Lemma spec_rounds_rev L rks : forall q,
  foldl (spec_round L) (quad_rev (foldl (spec_round L) q rks)) (reverse rks) = quad_rev q.
Proof.
  induction rks as [|rk rks IH] using rev_ind; intros q; [done|].
  rewrite reverse_snoc, foldl_snoc. simpl. by rewrite spec_round_rev.
Qed.

Lemma quad_of_list q : quad_of (quad_list q) = q.
Proof. by destruct q as [[[a b] c] d]. Qed.
Lemma quad_list_of l : length l = 4%nat -> quad_list (quad_of l) = l.
Proof. intros Hl. destruct l as [|a [|b [|c [|d [|]]]]]; done. Qed.
Lemma quad_rev_rev q : quad_rev (quad_rev q) = q.
Proof. by destruct q as [[[a b] c] d]. Qed.

Lemma spec_crypt_rev rk x : length x = 4%nat -> spec_crypt (reverse rk) (spec_crypt rk x) = x.
Proof.
  intros Hx. unfold spec_crypt. rewrite quad_of_list, spec_rounds_rev, quad_rev_rev.
  by apply quad_list_of.
Qed.

(** ** Keys *)

(** The arrays of the structure have their declared sizes. *)
Definition key_sizes (k : SM4_KEY) : Prop :=
  length (ERK k) = 32%nat /\ length (DRK k) = 32%nat /\ length (MK k) = 4%nat.

(** A key that [sm4_SetKey] has filled for decryption. *)
Definition key_ok (k : SM4_KEY) : Prop :=
  length (ERK k) = 32%nat /\ DRK k = reverse (ERK k).

Lemma rk_step_spec k i : rk_step k i =
  <[(i + 4)%nat := (spec_round spec_L' (window k i) (CK !!! i)).2]> k.
Proof. unfold rk_step. by rewrite SMS4CalciRK_spec. Qed.

Lemma erk_loop n : forall i k e,
  (i + n + 4 <= length k)%nat -> (i + n <= length e)%nat ->
  let '(k', e') := foldl (fun '(k, erk) i =>
      let k := rk_step k i in (k, <[i := k !!! (i + 4)%nat]> erk)) (k, e) (seq i n) in
  length e' = length e /\
  (forall j, (j < i)%nat -> e' !! j = e !! j) /\
  (forall j, (i <= j < i + n)%nat ->
     e' !! j = Some (foldl (spec_round spec_L') (window k i) ((fun i => CK !!! i) <$> seq i (S j - i))).2).
Proof.
  induction n as [|n IH]; intros i k e Hk He.
  - simpl. split_and!; [done..|]. intros; lia.
  - cbn [seq foldl]. rewrite rk_step_spec.
    set (v := (spec_round spec_L' (window k i) (CK !!! i)).2).
    set (k1 := <[(i + 4)%nat := v]> k).
    assert (k1 !!! (i + 4)%nat = v) as Hv by (apply list_lookup_total_insert_eq; lia).
    assert (window k1 (S i) = spec_round spec_L' (window k i) (CK !!! i)) as Hw.
    { unfold k1, window. rewrite !list_lookup_total_insert_ne by lia.
      replace (S i + 3)%nat with (i + 4)%nat by lia. rewrite list_lookup_total_insert_eq by lia.
      unfold v, window, spec_round. simpl.
      rewrite !Nat.add_1_r, <- !plus_n_Sm, Nat.add_0_r. reflexivity. }
    rewrite Hv. specialize (IH (S i) k1 (<[i := v]> e)).
    destruct (foldl _ (k1, <[i:=v]> e) (seq (S i) n)) as [k' e'].
    rewrite length_insert in IH.
    destruct IH as (H1 & H2 & H3); [unfold k1; rewrite length_insert; lia|lia|].
    split_and!; [done| |].
    + intros j Hj. rewrite H2 by lia. by rewrite list_lookup_insert_ne by lia.
    + intros j Hj. destruct (decide (j = i)) as [->|].
      * rewrite H2 by lia. rewrite list_lookup_insert_eq by lia.
        replace (S i - i)%nat with 1%nat by lia. reflexivity.
      * rewrite H3 by lia. rewrite Hw. replace (S j - i)%nat with (S (S j - S i)) by lia. done.
Qed.

Lemma key_word_ok key i : Forall is_u8 key -> (i * 4 + 4 <= length key)%nat ->
  key_word key i = Ret (be_at (i * 4) key).
Proof.
  intros Hu Hl. destruct (slice_4 key (i * 4)) as (b0&b1&b2&b3&E&E0&E1&E2&E3); [lia|].
  pose proof (Forall_slice is_u8 (i * 4) 4 key Hu) as Hs. rewrite E in Hs.
  rewrite !Forall_cons in Hs. destruct Hs as (H0&H1&H2&H3&_).
  unfold key_word, be_at. rewrite E, Nat.add_0_r.
  rewrite (buf_get_ok key (Z.of_nat (i * 4)) b0), (buf_get_ok key (Z.of_nat (i * 4 + 1)) b1),
    (buf_get_ok key (Z.of_nat (i * 4 + 2)) b2), (buf_get_ok key (Z.of_nat (i * 4 + 3)) b3)
    by (rewrite ?Nat2Z.id; done || lia).
  cbn [mbind cpp_bind]. f_equal. rewrite be32_sum by done. unfold is_u8 in *.
  unfold add32, shl32, u32. rewrite !Z.shiftl_mul_pow2 by lia.
  change (2 ^ 32) with 4294967296. change (2 ^ 8) with 256 in *.
  rewrite (Z.mod_small (b0 * 256)), (Z.mod_small (b0 * 256 + b1)) by lia.
  rewrite (Z.mod_small ((b0 * 256 + b1) * 256)), (Z.mod_small ((b0 * 256 + b1) * 256 + b2)) by lia.
  rewrite (Z.mod_small (_ * 256)), Z.mod_small by lia. lia.
Qed.

Lemma foldl_rev_insert (e d : list Z) : length d = 32%nat -> length e = 32%nat ->
  foldl (fun d i => <[i := e !!! (31 - i)%nat]> d) d (seq 0 32) = reverse e.
Proof.
  intros Hd He.
  do 32 (destruct d as [|? d]; [discriminate|]). destruct d; [|discriminate].
  do 32 (destruct e as [|? e]; [discriminate|]). destruct e; [|discriminate]. reflexivity.
Qed.

Lemma InitRK_ok k0 o flag : key_sizes o -> length k0 = 36%nat ->
  SM4_InitRK k0 o flag =
    {| ERK := spec_rk (quad_of (MK o));
       DRK := if flag =? 0 then DRK o else reverse (spec_rk (quad_of (MK o))); MK := MK o |}.
Proof.
  intros (HE & HD & HM) Hk. unfold SM4_InitRK.
  set (k1 := foldl _ k0 (seq 0 4)).
  assert (length k1 = 36%nat /\ window k1 0 = quad_of (zip_with Z.lxor (MK o) FK)) as [Hl Hw].
  { destruct (MK o) as [|m0 [|m1 [|m2 [|m3 [|]]]]]; try discriminate. unfold k1.
    do 4 (destruct k0 as [|? k0]; [discriminate|]). split; [|reflexivity].
    simpl. simpl in Hk. lia. }
  pose proof (erk_loop 32 0 k1 (ERK o) ltac:(lia) ltac:(lia)) as H.
  destruct (foldl _ (k1, ERK o) (seq 0 32)) as [k' e'].
  destruct H as (H1 & _ & H3). rewrite HE in H1.
  assert (e' = spec_rk (quad_of (MK o))) as ->.
  { apply list_eq. intros j. unfold spec_rk. rewrite list_lookup_fmap.
    destruct (decide (j < 32)%nat).
    - rewrite H3, lookup_seq_lt, Nat.sub_0_r by lia.
      transitivity (Some (spec_keystate (quad_of (MK o)) (S j)).2); [|reflexivity].
      rewrite Hw. f_equal. f_equal. unfold spec_keystate.
      destruct (MK o) as [|m0 [|m1 [|m2 [|m3 [|]]]]]; try discriminate.
      change (quad_of (zip_with _ _ _)) with
        (Z.lxor m0 0xa3b1bac6, Z.lxor m1 0x56aa3350, Z.lxor m2 0x677d9197, Z.lxor m3 0xb27022dc).
      change (quad_of [m0; m1; m2; m3]) with (m0, m1, m2, m3). cbv beta iota. f_equal.
      apply list_fmap_ext. intros i x Hx%lookup_seq. rewrite CK_spec.
      apply list_lookup_total_correct. rewrite list_lookup_fmap, lookup_seq_lt by lia.
      by destruct Hx as [-> _].
    - rewrite lookup_ge_None_2, lookup_seq_ge by lia. done. }
  f_equal. destruct (flag =? 0); [done|]. apply foldl_rev_insert; [done|].
  unfold spec_rk. by rewrite length_fmap, length_seq.
Qed.

Lemma SetKey_ok k0 o key flag :
  key_sizes o -> length k0 = 36%nat -> Forall is_u8 key -> (16 <= length key)%nat ->
  let rk := spec_rk (quad_of (words4 key)) in
  sm4_SetKey k0 (Some o) (Some key) flag =
    Ret (0, Some {| ERK := rk; DRK := if flag =? 0 then DRK o else reverse rk; MK := words4 key |}).
Proof.
  intros (HE & HD & HM) Hk Hu Hl. cbv zeta. unfold sm4_SetKey. cbn [cfor].
  rewrite !key_word_ok by (done || lia). cbn [mbind cpp_bind].
  destruct (MK o) as [|m0 [|m1 [|m2 [|m3 [|]]]]]; try discriminate. cbn [insert list_insert].
  rewrite InitRK_ok; [reflexivity|by repeat split|done].
Qed.

(** ** The loops over blocks *)

(** [n] blocks of four words mapped by [f]. *)
Fixpoint map_blocks (f : list Z -> list Z) (n : nat) (p : list Z) : list Z :=
  match n with
  | O => []
  | S n' => f (take 4 p) ++ map_blocks f n' (drop 4 p)
  end.

Section loops.
Variable f : list Z -> list Z.
Hypothesis Hf : forall x, length (f x) = 4%nat.

Lemma length_map_blocks n : forall p, length (map_blocks f n p) = (4 * n)%nat.
Proof. induction n as [|n IH]; intros p; simpl; [done|]. rewrite length_app, Hf, IH. lia. Qed.

Lemma inplace_loop (g : list Z -> list Z) n : (forall x, length x = 4%nat -> g x = f x) ->
  forall c p, (4 * (c + n) <= length p)%nat ->
  cfor (fun c p => x ← buf_read p (4 * Z.of_nat c) 4; buf_write p (4 * Z.of_nat c) (g x)) n c p =
    Ret (splice p (4 * c) (map_blocks f n (drop (4 * c) p))).
Proof.
  intros Hg. induction n as [|n IH]; intros c p Hp; cbn [cfor map_blocks].
  - by rewrite splice_nil by lia.
  - rewrite buf_read_ok by lia. cbn [mbind cpp_bind].
    replace (Z.to_nat (4 * Z.of_nat c)) with (4 * c)%nat by lia. change (Z.to_nat 4) with 4%nat.
    assert (length (slice (4 * c) 4 p) = 4%nat) as Hs by (apply length_slice; lia).
    rewrite Hg, buf_write_ok by (rewrite ?Hf; lia || done). cbn [mbind cpp_bind].
    replace (Z.to_nat (4 * Z.of_nat c)) with (4 * c)%nat by lia.
    rewrite IH by (rewrite length_splice; rewrite ?Hf; lia). f_equal.
    replace (4 * S c)%nat with (4 * c + length (f (slice (4 * c) 4 p)))%nat by (rewrite Hf; lia).
    rewrite splice_splice; [|rewrite Hf, length_map_blocks; lia].
    f_equal. unfold slice at 1. f_equal. f_equal. rewrite drop_drop, Hf.
    unfold splice. rewrite Hf, app_assoc. apply drop_app_length'.
    rewrite length_app, length_take, Hf. lia.
Qed.

Lemma copy_loop (g : list Z -> list Z) n p : (forall x, length x = 4%nat -> g x = f x) ->
  forall c q, (4 * (c + n) <= length p)%nat -> (4 * (c + n) <= length q)%nat ->
  cfor (fun c q => x ← buf_read p (4 * Z.of_nat c) 4; buf_write q (4 * Z.of_nat c) (g x)) n c q =
    Ret (splice q (4 * c) (map_blocks f n (drop (4 * c) p))).
Proof.
  intros Hg. induction n as [|n IH]; intros c q Hp Hq; cbn [cfor map_blocks].
  - by rewrite splice_nil by lia.
  - rewrite buf_read_ok by lia. cbn [mbind cpp_bind].
    replace (Z.to_nat (4 * Z.of_nat c)) with (4 * c)%nat by lia. change (Z.to_nat 4) with 4%nat.
    assert (length (slice (4 * c) 4 p) = 4%nat) as Hs by (apply length_slice; lia).
    rewrite Hg, buf_write_ok by (rewrite ?Hf; lia || done). cbn [mbind cpp_bind].
    replace (Z.to_nat (4 * Z.of_nat c)) with (4 * c)%nat by lia.
    rewrite IH by (rewrite ?length_splice; rewrite ?Hf; lia). f_equal.
    replace (4 * S c)%nat with (4 * c + length (f (slice (4 * c) 4 p)))%nat at 1 by (rewrite Hf; lia).
    rewrite splice_splice; [|rewrite Hf, length_map_blocks; lia].
    f_equal. unfold slice at 1. f_equal. f_equal. rewrite drop_drop. f_equal. lia.
Qed.
End loops.

Lemma map_blocks_inverse f g n : (forall x, length (f x) = 4%nat) ->
  (forall x, length x = 4%nat -> g (f x) = x) ->
  forall p r, (4 * n <= length p)%nat -> map_blocks g n (map_blocks f n p ++ r) = take (4 * n) p.
Proof.
  intros Hf Hgf. induction n as [|n IH]; intros p r Hp; [done|]. cbn [map_blocks].
  rewrite <- app_assoc, take_app_length', drop_app_length' by (by rewrite Hf).
  rewrite Hgf by (rewrite length_take; lia).
  rewrite IH by (rewrite length_drop; lia).
  replace (4 * S n)%nat with (4 + 4 * n)%nat by lia. by rewrite take_take_drop.
Qed.

Lemma Encrypt_S_ok k p len : length (ERK k) = 32%nat -> 0 <= len ->
  (4 * Z.to_nat (len / 16) <= length p)%nat ->
  sm4_Encrypt_S k (Some p) len =
    Ret (Some (splice p 0 (map_blocks (spec_crypt (ERK k)) (Z.to_nat (len / 16)) p))).
Proof.
  intros HK Hl Hp. unfold sm4_Encrypt_S, shr32. rewrite Z.shiftr_div_pow2 by lia.
  rewrite (inplace_loop (spec_crypt (ERK k)) (length_spec_crypt _)
    (fun x => sm4_out (sm4_rounds (ERK k) x))); [by rewrite drop_0| |].
  - intros x Hx. by apply sm4_rounds_spec.
  - change (2 ^ 4) with 16. lia.
Qed.

Lemma Decrypt_S_ok k p len : length (DRK k) = 32%nat -> 0 <= len ->
  (4 * Z.to_nat (len / 16) <= length p)%nat ->
  sm4_Decrypt_S k (Some p) len =
    Ret (Some (splice p 0 (map_blocks (spec_crypt (DRK k)) (Z.to_nat (len / 16)) p))).
Proof.
  intros HK Hl Hp. unfold sm4_Decrypt_S, shr32. rewrite Z.shiftr_div_pow2 by lia.
  rewrite (inplace_loop (spec_crypt (DRK k)) (length_spec_crypt _)
    (fun x => sm4_out (sm4_rounds (DRK k) x))); [by rewrite drop_0| |].
  - intros x Hx. by apply sm4_rounds_spec.
  - change (2 ^ 4) with 16. lia.
Qed.

Lemma Encrypt_ok k p len q : length (ERK k) = 32%nat -> 0 <= len ->
  (4 * Z.to_nat (len / 16) <= length p)%nat -> (4 * Z.to_nat (len / 16) <= length q)%nat ->
  sm4_Encrypt k (Some p) len (Some q) =
    Ret (Some (splice q 0 (map_blocks (spec_crypt (ERK k)) (Z.to_nat (len / 16)) p))).
Proof.
  intros HK Hl Hp Hq. unfold sm4_Encrypt, shr32. rewrite Z.shiftr_div_pow2 by lia.
  rewrite (copy_loop (spec_crypt (ERK k)) (length_spec_crypt _)
    (fun x => sm4_out (sm4_rounds (ERK k) x))); [by rewrite drop_0| |change (2 ^ 4) with 16; lia..].
  intros x Hx. by apply sm4_rounds_spec.
Qed.

Lemma Decrypt_ok k p len q : length (DRK k) = 32%nat -> 0 <= len ->
  (4 * Z.to_nat (len / 16) <= length p)%nat -> (4 * Z.to_nat (len / 16) <= length q)%nat ->
  sm4_Decrypt k (Some p) len (Some q) =
    Ret (Some (splice q 0 (map_blocks (spec_crypt (DRK k)) (Z.to_nat (len / 16)) p))).
Proof.
  intros HK Hl Hp Hq. unfold sm4_Decrypt, shr32. rewrite Z.shiftr_div_pow2 by lia.
  rewrite (copy_loop (spec_crypt (DRK k)) (length_spec_crypt _)
    (fun x => sm4_out (sm4_rounds (DRK k) x))); [by rewrite drop_0| |change (2 ^ 4) with 16; lia..].
  intros x Hx. by apply sm4_rounds_spec.
Qed.

Lemma enc_tmp_ok k t : length (ERK k) = 32%nat -> length t = 4%nat ->
  enc_tmp k t = Ret (spec_crypt (ERK k) t).
Proof.
  intros HK Ht. unfold enc_tmp. rewrite Encrypt_S_ok by (rewrite ?Ht; done || lia || reflexivity).
  cbn [mbind cpp_bind default]. f_equal. change (Z.to_nat (16 / 16)) with 1%nat.
  cbn [map_blocks]. rewrite app_nil_r, take_ge by lia.
  apply splice_all. by rewrite length_spec_crypt.
Qed.

Lemma dec_tmp_ok k t : length (DRK k) = 32%nat -> length t = 4%nat ->
  dec_tmp k t = Ret (spec_crypt (DRK k) t).
Proof.
  intros HK Ht. unfold dec_tmp. rewrite Decrypt_S_ok by (rewrite ?Ht; done || lia || reflexivity).
  cbn [mbind cpp_bind default]. f_equal. change (Z.to_nat (16 / 16)) with 1%nat.
  cbn [map_blocks]. rewrite app_nil_r, take_ge by lia.
  apply splice_all. by rewrite length_spec_crypt.
Qed.

(** ** Blocks of bytes *)

Lemma length_words4 b : length (words4 b) = 4%nat.
Proof. done. Qed.
Lemma length_bytes4 w : length (bytes4 w) = 16%nat.
Proof. done. Qed.
Lemma length_xor4 a b : length (xor4 a b) = 4%nat.
Proof. done. Qed.

Lemma bytes4_u8 w : Forall is_u8 (bytes4 w).
Proof. unfold bytes4. rewrite !Forall_app. auto using be_bytes_u8. Qed.

Lemma words4_u32 b : Forall is_u8 b -> Forall is_u32 (words4 b).
Proof. intros. repeat constructor; by apply be_at_u32. Qed.

Lemma be_at_slice i off n b : (i + 4 <= n)%nat -> be_at i (slice off n b) = be_at (off + i) b.
Proof. intros H. unfold be_at. by rewrite slice_slice. Qed.

Lemma get4_ok b off : 0 <= off -> off + 16 <= Z.of_nat (length b) ->
  get4 b off = Ret (words4 (slice (Z.to_nat off) 16 b)).
Proof.
  intros H1 H2. unfold get4. rewrite !GetBE32_ok by lia. cbn [mbind cpp_bind].
  unfold words4. rewrite !be_at_slice by lia. rewrite Nat.add_0_r.
  rewrite !Z2Nat.inj_add by lia. reflexivity.
Qed.

Lemma put4_ok w b off : 0 <= off -> off + 16 <= Z.of_nat (length b) ->
  put4 w b off = Ret (splice b (Z.to_nat off) (bytes4 w)).
Proof.
  intros H1 H2. unfold put4.
  assert (forall b' k x, length b' = length b -> 0 <= k <= 12 ->
    _PutBE32 x b' (off + k) = Ret (splice b' (Z.to_nat off + Z.to_nat k) (be_bytes x))) as Hput.
  { intros b' k x Hb Hk. rewrite PutBE32_ok by lia. by rewrite Z2Nat.inj_add by lia. }
  assert (forall b' k x, length b' = length b -> 0 <= k <= 12 ->
    length (splice b' (Z.to_nat off + Z.to_nat k) (be_bytes x)) = length b) as Hl.
  { intros b' k x Hb Hk. rewrite length_splice by (simpl length; lia). done. }
  rewrite <- (Z.add_0_r off) at 1.
  rewrite (Hput b 0) by lia. cbn [mbind cpp_bind].
  rewrite (Hput _ 4) by (rewrite ?Hl; lia). cbn [mbind cpp_bind].
  rewrite (Hput _ 8) by (rewrite ?Hl; rewrite ?Hl; lia). cbn [mbind cpp_bind].
  rewrite (Hput _ 12) by (rewrite ?Hl; rewrite ?Hl; rewrite ?Hl; lia). f_equal.
  change (Z.to_nat 0) with 0%nat. rewrite Nat.add_0_r.
  set (o := Z.to_nat off). unfold bytes4.
  change (Z.to_nat 4) with (length (be_bytes (w !!! 0%nat))).
  rewrite splice_splice by (simpl length; lia).
  change (Z.to_nat 8) with (length (be_bytes (w !!! 0%nat) ++ be_bytes (w !!! 1%nat))).
  rewrite splice_splice by (simpl length; lia).
  change (Z.to_nat 12) with
    (length ((be_bytes (w !!! 0%nat) ++ be_bytes (w !!! 1%nat)) ++ be_bytes (w !!! 2%nat))).
  rewrite splice_splice by (simpl length; lia). by rewrite <- !app_assoc.
Qed.

Lemma words4_bytes4 w : length w = 4%nat -> Forall is_u32 w -> words4 (bytes4 w) = w.
Proof.
  intros Hl Hw. destruct w as [|a [|b [|c [|d [|]]]]]; try discriminate.
  rewrite !Forall_cons in Hw. destruct Hw as (Ha & Hb & Hc & Hd & _). unfold words4.
  by rewrite (be_at_bytes _ _ a), (be_at_bytes _ _ b), (be_at_bytes _ _ c), (be_at_bytes _ _ d).
Qed.

Lemma bytes4_words4 b : length b = 16%nat -> Forall is_u8 b -> bytes4 (words4 b) = b.
Proof.
  intros Hl Hb. unfold bytes4, words4. cbn [lookup_total list_lookup_total].
  rewrite !be_bytes_be_at by (done || lia).
  do 16 (destruct b as [|? b]; [discriminate|]). destruct b; [|discriminate]. reflexivity.
Qed.

(** The words of a ciphertext are in range. *)
Lemma spec_tau_u32 a : is_u32 (spec_tau a).
Proof. rewrite <- sm4_sub_spec. apply is_u32_u32. Qed.

Lemma spec_L_u32 a : is_u32 a -> is_u32 (spec_L a).
Proof. intros. unfold spec_L. auto 10 with words. Qed.

Definition quad_u32 (q : quad) : Prop := Forall is_u32 (quad_list q).

Lemma spec_rounds_u32 rk : forall q, quad_u32 q -> quad_u32 (foldl (spec_round spec_L) q rk).
Proof.
  induction rk as [|k rk IH]; intros q Hq; [done|]. apply IH.
  destruct q as [[[a b] c] d]. unfold quad_u32 in *. simpl quad_list in *.
  rewrite !Forall_cons in Hq |- *. destruct Hq as (Ha & Hb & Hc & Hd & _).
  split_and!; auto using spec_L_u32, spec_tau_u32 with words.
Qed.

Lemma spec_crypt_u32 rk x : length x = 4%nat -> Forall is_u32 x -> Forall is_u32 (spec_crypt rk x).
Proof.
  intros Hl Hx. unfold spec_crypt.
  assert (quad_u32 (foldl (spec_round spec_L) (quad_of x) rk)) as H.
  { apply spec_rounds_u32. unfold quad_u32. by rewrite quad_list_of. }
  destruct (foldl _ _ rk) as [[[a b] c] d]. unfold quad_u32 in H. simpl quad_list in *.
  rewrite !Forall_cons in H |- *. destruct H as (? & ? & ? & ? & _). by split_and!.
Qed.

Lemma xor4_u32 a b : length a = 4%nat -> length b = 4%nat -> Forall is_u32 a -> Forall is_u32 b ->
  Forall is_u32 (xor4 a b).
Proof.
  intros Ha Hb Hua Hub.
  destruct a as [|a0 [|a1 [|a2 [|a3 [|]]]]], b as [|b0 [|b1 [|b2 [|b3 [|]]]]]; try discriminate.
  rewrite !Forall_cons in Hua, Hub. unfold xor4. cbn [lookup_total list_lookup_total].
  destruct Hua as (? & ? & ? & ? & _), Hub as (? & ? & ? & ? & _).
  rewrite !Forall_cons. split_and!; auto with words.
Qed.

Lemma xor4_cancel a b : length a = 4%nat -> xor4 (xor4 a b) b = a.
Proof.
  intros Ha. destruct a as [|a0 [|a1 [|a2 [|a3 [|]]]]]; try discriminate.
  unfold xor4. cbn [lookup_total list_lookup_total]. by rewrite !lxor_cancel_r.
Qed.

(** ** The modes: lengths, prefixes, inverses *)

Section mode_lemmas.
Variable f : list Z -> list Z.

Lemma length_ecb n : forall d, length (ecb f n d) = (16 * n)%nat.
Proof. induction n as [|n IH]; intros d; simpl; [done|]. rewrite IH. lia. Qed.
Lemma length_cbc n : forall iv d, length (cbc f iv n d) = (16 * n)%nat.
Proof. induction n as [|n IH]; intros iv d; simpl; [done|]. rewrite IH. lia. Qed.
Lemma length_decbc n : forall iv d, length (decbc f iv n d) = (16 * n)%nat.
Proof. induction n as [|n IH]; intros iv d; simpl; [done|]. rewrite IH. lia. Qed.

(** [n + m] blocks are [n] blocks and then [m]. *)
Lemma ecb_plus n m : forall d, ecb f (n + m) d = ecb f n d ++ ecb f m (drop (16 * n) d).
Proof.
  induction n as [|n IH]; intros d; [done|]. cbn [ecb Nat.add]. rewrite IH, <- app_assoc, drop_drop.
  do 4 f_equal. lia.
Qed.
Lemma cbc_plus n m : forall iv d,
  cbc f iv (n + m) d = cbc f iv n d ++ cbc f (cbc_iv f iv n d) m (drop (16 * n) d).
Proof.
  induction n as [|n IH]; intros iv d; [done|]. cbn [cbc cbc_iv Nat.add].
  rewrite IH, <- app_assoc, drop_drop. do 4 f_equal. lia.
Qed.
Lemma cbc_iv_plus n m : forall iv d,
  cbc_iv f iv (n + m) d = cbc_iv f (cbc_iv f iv n d) m (drop (16 * n) d).
Proof.
  induction n as [|n IH]; intros iv d; [done|]. cbn [cbc_iv Nat.add].
  rewrite IH, drop_drop. do 2 f_equal. lia.
Qed.

(** One more block at the end. *)
Lemma ecb_snoc n d : ecb f (S n) d = ecb f n d ++ bytes4 (f (words4 (slice (16 * n) 16 d))).
Proof. rewrite <- Nat.add_1_r, ecb_plus. cbn [ecb]. by rewrite app_nil_r. Qed.
Lemma cbc_snoc iv n d : cbc f iv (S n) d =
  cbc f iv n d ++ bytes4 (f (xor4 (words4 (slice (16 * n) 16 d)) (cbc_iv f iv n d))).
Proof. rewrite <- Nat.add_1_r, cbc_plus. cbn [cbc]. by rewrite app_nil_r. Qed.
Lemma cbc_iv_snoc iv n d : cbc_iv f iv (S n) d =
  f (xor4 (words4 (slice (16 * n) 16 d)) (cbc_iv f iv n d)).
Proof. by rewrite <- Nat.add_1_r, cbc_iv_plus. Qed.

(** Only the first [n] blocks matter. *)
Lemma take16_app n (d r : list Z) : (16 * S n <= length d)%nat ->
  take 16 (d ++ r) = take 16 d /\ drop 16 (d ++ r) = drop 16 d ++ r.
Proof. intros H. split; [by rewrite take_app_le by lia|by rewrite drop_app_le by lia]. Qed.

Lemma ecb_app n : forall d r, (16 * n <= length d)%nat -> ecb f n (d ++ r) = ecb f n d.
Proof.
  induction n as [|n IH]; intros d r H; [done|]. cbn [ecb].
  destruct (take16_app n d r H) as [-> ->]. rewrite IH; [done|]. rewrite length_drop. lia.
Qed.
Lemma cbc_app n : forall iv d r, (16 * n <= length d)%nat -> cbc f iv n (d ++ r) = cbc f iv n d.
Proof.
  induction n as [|n IH]; intros iv d r H; [done|]. cbn [cbc].
  destruct (take16_app n d r H) as [-> ->]. rewrite IH; [done|]. rewrite length_drop. lia.
Qed.
Lemma cbc_iv_app n : forall iv d r, (16 * n <= length d)%nat ->
  cbc_iv f iv n (d ++ r) = cbc_iv f iv n d.
Proof.
  induction n as [|n IH]; intros iv d r H; [done|]. cbn [cbc_iv].
  destruct (take16_app n d r H) as [-> ->]. rewrite IH; [done|]. rewrite length_drop. lia.
Qed.
Lemma decbc_app n : forall iv d r, (16 * n <= length d)%nat -> decbc f iv n (d ++ r) = decbc f iv n d.
Proof.
  induction n as [|n IH]; intros iv d r H; [done|]. cbn [decbc].
  destruct (take16_app n d r H) as [-> ->]. rewrite IH; [done|]. rewrite length_drop. lia.
Qed.
End mode_lemmas.

Section inverse_modes.
Variables f g : list Z -> list Z.
Hypothesis Hlen : forall x, length (f x) = 4%nat.
Hypothesis Hu32 : forall x, length x = 4%nat -> Forall is_u32 x -> Forall is_u32 (f x).
Hypothesis Hgf : forall x, length x = 4%nat -> g (f x) = x.

Lemma take_drop_block n (d : list Z) : (16 * S n <= length d)%nat -> Forall is_u8 d ->
  bytes4 (words4 (take 16 d)) = take 16 d /\ Forall is_u8 (drop 16 d) /\
  (16 * n <= length (drop 16 d))%nat /\ take 16 d ++ take (16 * n) (drop 16 d) = take (16 * S n) d.
Proof.
  intros Hl Hu. split_and!.
  - apply bytes4_words4; [rewrite length_take; lia|by apply Forall_take].
  - by apply Forall_drop.
  - rewrite length_drop. lia.
  - rewrite take_take_drop. f_equal. lia.
Qed.

Lemma ecb_inverse n : forall d, (16 * n <= length d)%nat -> Forall is_u8 d ->
  ecb g n (ecb f n d) = take (16 * n) d.
Proof.
  induction n as [|n IH]; intros d Hl Hu; [done|]. cbn [ecb].
  destruct (take_drop_block n d Hl Hu) as (E1 & E2 & E3 & E4).
  rewrite take_app_length', drop_app_length' by done.
  rewrite words4_bytes4; [|apply Hlen|apply Hu32; [done|by apply words4_u32, Forall_take]].
  by rewrite Hgf, E1, IH, E4.
Qed.

Lemma decbc_cbc n : forall iv d, length iv = 4%nat -> Forall is_u32 iv ->
  (16 * n <= length d)%nat -> Forall is_u8 d ->
  decbc g iv n (cbc f iv n d) = take (16 * n) d.
Proof.
  induction n as [|n IH]; intros iv d Hi Hiu Hl Hu; [done|]. cbn [cbc decbc].
  destruct (take_drop_block n d Hl Hu) as (E1 & E2 & E3 & E4).
  rewrite take_app_length', drop_app_length' by done.
  set (x := xor4 (words4 (take 16 d)) iv).
  assert (Forall is_u32 (f x)) as Hfx.
  { apply Hu32; [done|]. apply xor4_u32; [done..| |done]. by apply words4_u32, Forall_take. }
  rewrite words4_bytes4, Hgf by (apply Hlen || done). unfold x at 1.
  by rewrite xor4_cancel, E1, IH, E4 by (apply Hlen || done).
Qed.
End inverse_modes.

(** ** The loops of the code run the modes *)

Section loop_lemmas.
Variable f : list Z -> list Z.
Hypothesis Hlen : forall x, length (f x) = 4%nat.

Lemma ecb_loop_from crypt d n : (forall x, length x = 4%nat -> crypt x = Ret (f x)) ->
  forall fuel off r ed, (n <= fuel)%nat -> 0 <= r < 16 ->
  (off + 16 * n <= length d)%nat -> (off + 16 * n <= length ed)%nat ->
  cwhile fuel (fun '(nData, pData, pE, ed) => 16 <=? nData)
    (fun '(nData, pData, pE, ed) =>
       tmp ← get4 d pData; tmp ← crypt tmp; ed ← put4 tmp ed pE;
       Ret (nData - 16, pData + 16, pE + 16, ed))
    (16 * Z.of_nat n + r, Z.of_nat off, Z.of_nat off, ed) =
  Ret (r, Z.of_nat (off + 16 * n), Z.of_nat (off + 16 * n), splice ed off (ecb f n (drop off d))).
Proof.
  intros Hc. induction n as [|n IH]; intros fuel off r ed Hf Hr Hd He.
  - rewrite cwhile_stop by (apply Z.leb_gt; lia). rewrite Nat.mul_0_r, Nat.add_0_r. simpl ecb.
    rewrite splice_nil by lia. by replace (16 * Z.of_nat 0 + r) with r by lia.
  - destruct fuel as [|fuel]; [lia|].
    erewrite cwhile_step; [|apply Z.leb_le; lia|].
    2:{ cbn beta iota. rewrite get4_ok by lia. cbn [mbind cpp_bind]. rewrite Hc by done.
        cbn [mbind cpp_bind]. rewrite put4_ok by lia. reflexivity. }
    rewrite Nat2Z.id. set (c := bytes4 _).
    replace (16 * Z.of_nat (S n) + r - 16) with (16 * Z.of_nat n + r) by lia.
    replace (Z.of_nat off + 16) with (Z.of_nat (off + 16)) by lia.
    rewrite IH by (rewrite ?length_splice; simpl length; lia).
    replace (off + 16 + 16 * n)%nat with (off + 16 * S n)%nat by lia. f_equal. f_equal.
    replace (off + 16)%nat with (off + length c)%nat by done.
    rewrite splice_splice; [|rewrite length_ecb; change (length c) with 16%nat; lia].
    cbn [ecb]. rewrite drop_drop. reflexivity.
Qed.

Lemma ecb_loop_ok crypt d n r ed : (forall x, length x = 4%nat -> crypt x = Ret (f x)) ->
  0 <= r < 16 -> (16 * n <= length d)%nat -> (16 * n <= length ed)%nat ->
  ecb_loop crypt d (16 * Z.of_nat n + r) ed =
    Ret (r, Z.of_nat (16 * n), Z.of_nat (16 * n), splice ed 0 (ecb f n d)).
Proof.
  intros Hc Hr Hd He. unfold ecb_loop.
  by rewrite (ecb_loop_from crypt d n Hc _ 0) by lia.
Qed.
End loop_lemmas.

(** Padding. *)
Lemma length_pad_msg padding m : (length (pad_msg padding m) = 16 * nblocks (pad_msg padding m))%nat.
Proof.
  unfold pad_msg, nblocks, pad_len. rewrite length_app, length_replicate.
  destruct (padding =? 0).
  - pose proof (Nat.div_mod_eq (length m) 16). pose proof (Nat.mod_upper_bound (length m) 16 ltac:(lia)).
    pose proof (Nat.div_mod_eq (16 - length m mod 16) 16).
    pose proof (Nat.mod_upper_bound (16 - length m mod 16) 16 ltac:(lia)).
    pose proof (Nat.div_mod_eq (length m + (16 - length m mod 16) mod 16) 16).
    pose proof (Nat.mod_upper_bound (length m + (16 - length m mod 16) mod 16) 16 ltac:(lia)). lia.
  - pose proof (Nat.div_mod_eq (length m) 16). pose proof (Nat.mod_upper_bound (length m) 16 ltac:(lia)).
    pose proof (Nat.div_mod_eq (length m + (16 - length m mod 16)) 16).
    pose proof (Nat.mod_upper_bound (length m + (16 - length m mod 16)) 16 ltac:(lia)). lia.
Qed.

Lemma pad_msg_u8 padding m : Forall is_u8 m -> Forall is_u8 (pad_msg padding m).
Proof.
  intros Hm. apply Forall_app_2; [done|]. apply Forall_replicate. unfold is_u8, pad_len.
  destruct (padding =? 0); [lia|]. pose proof (Nat.mod_upper_bound (length m) 16 ltac:(lia)). lia.
Qed.

(** What the code computes for the padding. *)
Lemma pad_code padding N :
  (if padding =? 0 then (Z.rem (16 - Z.rem (Z.of_nat N) 16) 16, 0)
   else (16 - Z.rem (Z.of_nat N) 16, u8 (16 - Z.rem (Z.of_nat N) 16))) =
  (Z.of_nat (pad_len padding N), if padding =? 0 then 0 else Z.of_nat (pad_len padding N)).
Proof.
  rewrite (Z.rem_mod_nonneg (Z.of_nat N) 16) by lia.
  pose proof (Z.mod_pos_bound (Z.of_nat N) 16 ltac:(lia)).
  rewrite Z.rem_mod_nonneg by lia.
  unfold pad_len, u8. destruct (padding =? 0).
  - f_equal. rewrite Nat2Z.inj_mod, Nat2Z.inj_sub, Nat2Z.inj_mod by (pose proof (Nat.mod_upper_bound N 16); lia).
    done.
  - rewrite Nat2Z.inj_sub, Nat2Z.inj_mod by (pose proof (Nat.mod_upper_bound N 16); lia).
    change (Z.of_nat 16) with 16. f_equal. apply Z.mod_small. lia.
Qed.

(** Either the padding completes a block, or there is none and none is needed. *)
Lemma pad_cases padding m :
  (length m = 16 * (length m / 16) + length m mod 16)%nat /\ (length m mod 16 < 16)%nat /\
  ((length m mod 16 + pad_len padding (length m) = 16)%nat /\
     nblocks (pad_msg padding m) = S (length m / 16) /\
     (padding = 0 -> (0 < length m mod 16)%nat) /\ (padding <> 0 -> (0 < pad_len padding (length m))%nat)
   \/ padding = 0 /\ (length m mod 16 = 0)%nat /\ pad_msg padding m = m).
Proof.
  pose proof (Nat.div_mod_eq (length m) 16) as Hd.
  pose proof (Nat.mod_upper_bound (length m) 16 ltac:(lia)) as Hm.
  split_and!; [done|done|]. pose proof (length_pad_msg padding m) as Hp.
  unfold pad_msg at 1 in Hp. rewrite length_app, length_replicate in Hp.
  unfold pad_len in *. destruct (Z.eqb_spec padding 0) as [->|Hne].
  - destruct (decide (length m mod 16 = 0)%nat) as [E|E].
    + right. split_and!; [done|done|]. unfold pad_msg, pad_len. rewrite E. apply app_nil_r.
    + left. rewrite (Nat.mod_small (16 - length m mod 16)) in * by lia. split_and!; lia.
  - left. split_and!; lia.
Qed.

(** The last block as the code assembles it. *)
Lemma last_block junk d N r k v n :
  length junk = 16%nat -> (N <= length d)%nat -> (N = 16 * n + r)%nat -> (r + k = 16)%nat ->
  (last ← memcpy junk 0 d (Z.of_nat (16 * n)) (Z.of_nat r);
   memset (A:=Z) last (Z.of_nat r) v (Z.of_nat k)) =
  Ret (drop (16 * n) (take N d ++ replicate k v)).
Proof.
  intros Hj Hd HN Hk. rewrite memcpy_ok by lia. cbn [mbind cpp_bind].
  unfold memset. rewrite decide_True, !Nat2Z.id by lia. change (Z.to_nat 0) with 0%nat.
  assert (length (slice (16 * n) r d) = r) as Hs by (apply length_slice; lia).
  rewrite buf_write_ok by (rewrite ?length_replicate, ?length_splice; lia).
  f_equal. rewrite Nat2Z.id.
  replace r with (0 + length (slice (16 * n) r d))%nat at 2 by lia.
  rewrite splice_splice by (rewrite length_replicate; lia).
  rewrite splice_all by (rewrite length_app, length_replicate; lia).
  rewrite drop_app_le by (rewrite length_take; lia). f_equal.
  unfold slice. rewrite skipn_firstn_comm. f_equal. lia.
Qed.

Lemma ecb_message f n d N r : (16 * n <= N)%nat -> (N <= length d)%nat ->
  ecb f n d = ecb f n (take N d ++ r).
Proof.
  intros Hn Hd. rewrite ecb_app by (rewrite length_take; lia).
  rewrite <- (take_drop N d) at 1. apply ecb_app. rewrite length_take. lia.
Qed.

Lemma enin_sm4_ok junk d dlen ed ed_len k padding :
  let m := take (Z.to_nat dlen) d in let p := pad_msg padding m in
  length (ERK k) = 32%nat -> length junk = 16%nat ->
  0 <= dlen <= Z.of_nat (length d) -> dlen + 16 < 2 ^ 31 ->
  Z.of_nat (length p) <= ed_len -> (length p <= length ed)%nat ->
  enin_sm4 junk d dlen ed ed_len k padding =
    Ret (0, splice ed 0 (ecb (spec_crypt (ERK k)) (nblocks p) p), Z.of_nat (length p)).
Proof.
  intros m p HK Hj Hd Hov Hl Hle. unfold enin_sm4.
  assert (length m = Z.to_nat dlen) as Hm by (unfold m; rewrite length_take; lia).
  replace dlen with (Z.of_nat (length m)) by lia. rewrite pad_code.
  assert (length p = (length m + pad_len padding (length m))%nat) as Hp
    by (unfold p, pad_msg; by rewrite length_app, length_replicate).
  destruct (pad_cases padding m) as (HN & Hr & Hcase). fold p in Hcase.
  pose proof (length_pad_msg padding m) as Hpl. fold p in Hpl.
  assert (pad_len padding (length m) <= 16)%nat as Hk16
    by (unfold pad_len; destruct (padding =? 0); [pose proof (Nat.mod_upper_bound (16 - length m mod 16) 16 ltac:(lia))|]; lia).
  cbv iota zeta beta. rewrite int_checked_id by (unfold is_int; lia). cbn [mbind cpp_bind].
  replace (ed_len <? Z.of_nat (length m) + Z.of_nat (pad_len padding (length m))) with false by lia.
  set (n := (length m / 16)%nat) in *. set (r := (length m mod 16)%nat) in *.
  replace (Z.of_nat (length m)) with (16 * Z.of_nat n + Z.of_nat r) at 1 by lia.
  rewrite (ecb_loop_ok (spec_crypt (ERK k)) (enc_tmp k))
    by (intros; rewrite ?enc_tmp_ok; done || lia).
  cbn [mbind cpp_bind].
  replace (Z.of_nat (length m) + Z.of_nat (pad_len padding (length m))) with (Z.of_nat (length p)) by lia.
  destruct Hcase as [(Hk & Hn & H0 & H1)|(-> & Hr0 & Hpm)].
  - replace (_ || _) with true; [|symmetry; apply orb_true_iff; rewrite !Z.ltb_lt;
      destruct (Z.eqb_spec padding 0); lia].
    pose proof (last_block junk d (length m) r (pad_len padding (length m))
      (if padding =? 0 then 0 else Z.of_nat (pad_len padding (length m))) n) as Hlast.
    replace (take (length m) d) with m in Hlast by (by rewrite Hm).
    fold (pad_msg padding m) in Hlast. fold p in Hlast.
    rewrite <- bind_assoc. rewrite Hlast by (lia || done). cbn [mbind cpp_bind].
    assert (length (drop (16 * n) p) = 16%nat) as Hdl by (rewrite length_drop; lia).
    rewrite get4_ok by lia. rewrite bind_ret_l, enc_tmp_ok by done. rewrite bind_ret_l.
    rewrite put4_ok by (rewrite ?length_splice; rewrite ?length_ecb; lia). cbn [mbind cpp_bind].
    do 3 f_equal. rewrite Hn, Nat2Z.id.
    rewrite splice_append by (rewrite length_ecb, ?length_bytes4; lia). f_equal.
    rewrite ecb_snoc. unfold slice at 1. rewrite drop_0, take_ge by lia.
    unfold slice. rewrite (take_ge (drop (16 * n) p)) by lia.
    f_equal. unfold p, pad_msg, m. apply ecb_message; lia.
  - replace (_ || _) with false by (symmetry; apply orb_false_iff; rewrite !Z.ltb_ge; simpl; lia).
    cbn [mbind cpp_bind]. do 3 f_equal. rewrite Hpm. unfold nblocks. fold n. f_equal.
    rewrite (ecb_message _ n d (length m) []) by lia. rewrite app_nil_r. by rewrite Hm.
Qed.

(** ** Removing the padding *)

(** The status and length both decryptions report for the decrypted bytes [x]. *)
Definition spec_unpad (padding : Z) (x : list Z) (d_len : Z) : Z * Z :=
  let L := Z.of_nat (length x) in
  let k := List.last x 0 in
  if padding =? 1 then
    if (k <=? 0) || (16 <? k) then (3, d_len)
    else if forallb (Z.eqb k) (drop (Z.to_nat (L - k)) x) then (0, L - k) else (5, d_len)
  else (0, L).

Lemma pad_check_ok d L k n : forall i,
  (L <= length d)%nat -> (1 <= i)%nat -> (i + n <= S L)%nat ->
  pad_check d (Z.of_nat L) k n (Z.of_nat i) =
    Ret (forallb (Z.eqb k) (slice (S L - i - n) n d)).
Proof.
  induction n as [|n IH]; intros i Hd Hi Hn; [done|]. cbn [pad_check].
  destruct (lookup_lt_is_Some_2 d (L - i)) as [v Hv]; [lia|].
  rewrite (buf_get_ok d _ v) by (replace (Z.to_nat (Z.of_nat L - Z.of_nat i)) with (L - i)%nat by lia; lia || done).
  rewrite bind_ret_l. replace (Z.of_nat i + 1) with (Z.of_nat (S i)) by lia. rewrite IH by lia.
  replace (S L - i - S n)%nat with (S L - S i - n)%nat by lia.
  replace (slice (S L - S i - n) (S n) d) with (slice (S L - S i - n) n d ++ [v]).
  - rewrite forallb_app. simpl. destruct (k =? v); [by rewrite andb_true_r|by rewrite andb_false_r].
  - rewrite <- (Nat.add_1_r n), slice_plus. f_equal. apply list_eq. intros j. rewrite lookup_slice.
    destruct j as [|j]; simpl; [|done]. rewrite <- Hv. f_equal. lia.
Qed.

Lemma last_lookup (x : list Z) : (0 < length x)%nat -> x !! (length x - 1)%nat = Some (List.last x 0).
Proof.
  induction x as [|a x IH] using rev_ind; intros H; [simpl in H; lia|].
  rewrite length_app, List.last_last. simpl. replace (length x + 1 - 1)%nat with (length x) by lia.
  by rewrite list_lookup_middle.
Qed.

Lemma unpad_ok d x padding d_len :
  padding = 0 \/ padding = 1 -> (16 <= length x <= length d)%nat -> take (length x) d = x ->
  unpad d (Z.of_nat (length x)) padding d_len = Ret (spec_unpad padding x d_len).
Proof.
  intros Hp Hl Hx. unfold unpad.
  rewrite (buf_get_ok d _ (List.last x 0)); [|lia|].
  2:{ rewrite <- last_lookup, <- (lookup_take_lt d (length x)), Hx by lia. f_equal. lia. }
  rewrite bind_ret_l. unfold spec_unpad. destruct Hp as [->| ->]; simpl Z.eqb; cbv iota.
  - simpl andb. cbv iota. rewrite bind_ret_l. by rewrite Z.sub_0_r.
  - simpl andb. set (k := List.last x 0). destruct ((k <=? 0) || (16 <? k)) eqn:Ek; [done|].
    apply orb_false_iff in Ek as [Ek1%Z.leb_gt Ek2%Z.ltb_ge].
    change 1 with (Z.of_nat 1). rewrite (pad_check_ok d (length x) k (Z.to_nat k) 1) by lia.
    rewrite bind_ret_l.
    replace (slice _ _ d) with (drop (Z.to_nat (Z.of_nat (length x) - k)) x).
    { by destruct (forallb _ _). }
    transitivity (drop (Z.to_nat (Z.of_nat (length x) - k)) (take (length x) d)); [by rewrite Hx|].
    unfold slice. rewrite skipn_firstn_comm. f_equal; [|f_equal]; lia.
Qed.

Lemma dein_sm4_ok ed ed_len d d_len k padding :
  length (DRK k) = 32%nat -> padding = 0 \/ padding = 1 ->
  let n := Z.to_nat (ed_len / 16) in let x := ecb (spec_crypt (DRK k)) n ed in
  0 < ed_len -> ed_len mod 16 = 0 -> ed_len <= d_len ->
  ed_len <= Z.of_nat (length ed) -> ed_len <= Z.of_nat (length d) ->
  dein_sm4 ed ed_len d d_len k padding =
    Ret ((spec_unpad padding x d_len).1, splice d 0 x, (spec_unpad padding x d_len).2).
Proof.
  intros HK Hp n x H0 Hm Hl He Hd. unfold dein_sm4.
  assert (ed_len = 16 * Z.of_nat n) as En by (unfold n; Z.div_mod_to_equations; lia).
  replace ((1 <? padding) || (padding <? 0)) with false by (destruct Hp; subst padding; reflexivity).
  rewrite Z.rem_mod_nonneg, Hm by lia.
  replace (d_len <? ed_len) with false by (symmetry; apply Z.ltb_ge; lia). simpl orb. cbv iota.
  replace ed_len with (16 * Z.of_nat n + 0) at 1 by lia.
  rewrite (ecb_loop_ok (spec_crypt (DRK k)) (dec_tmp k))
    by (intros; rewrite ?dec_tmp_ok; done || lia).
  rewrite bind_ret_l. cbv beta iota. fold x.
  assert (length x = (16 * n)%nat) as Hxl by apply length_ecb.
  replace ed_len with (Z.of_nat (length x)) by lia.
  rewrite unpad_ok; [|done|rewrite length_splice; lia|].
  - rewrite bind_ret_l. by destruct (spec_unpad padding x d_len).
  - replace (length x) with (0 + length x)%nat by lia. by rewrite take_splice by lia.
Qed.

(** What was padded is recovered; zero padding keeps its zeros. *)
Lemma spec_unpad_pkcs5 m d_len :
  spec_unpad 1 (pad_msg 1 m) d_len = (0, Z.of_nat (length m)).
Proof.
  unfold spec_unpad, pad_msg. set (k := pad_len 1 (length m)).
  assert (1 <= k <= 16)%nat as Hk
    by (unfold k, pad_len; simpl; pose proof (Nat.mod_upper_bound (length m) 16 ltac:(lia)); lia).
  simpl Z.eqb. cbv iota.
  assert (List.last (m ++ replicate k (Z.of_nat k)) 0 = Z.of_nat k) as ->.
  { destruct k as [|k']; [lia|]. by rewrite replicate_S_end, app_assoc, List.last_last. }
  rewrite length_app, length_replicate.
  replace ((Z.of_nat k <=? 0) || (16 <? Z.of_nat k)) with false by lia.
  rewrite drop_app_length' by lia.
  replace (forallb _ _) with true; [f_equal; lia|].
  symmetry. apply forallb_forall. intros v Hv%list_elem_of_In%elem_of_replicate. lia.
Qed.

Lemma spec_unpad_zero x d_len : spec_unpad 0 x d_len = (0, Z.of_nat (length x)).
Proof. reflexivity. Qed.

(** ** CBC *)

Section cbc_loops.
Variable k : SM4_KEY.
Hypothesis HE : length (ERK k) = 32%nat.
Let f := spec_crypt (ERK k).

Lemma length_cbc_iv n : forall iv d, length iv = 4%nat -> length (cbc_iv f iv n d) = 4%nat.
Proof.
  induction n as [|n IH]; intros iv d Hi; [done|]. apply IH. apply length_spec_crypt.
Qed.

Lemma cbc_loop_from d n : forall fuel off r iv out, (n <= fuel)%nat -> 0 <= r < 16 ->
  length iv = 4%nat -> (off + 16 * n <= length d)%nat -> (off + 16 * n <= length out)%nat ->
  cwhile fuel (fun '(len, p, pIV, pE, out) => 16 <=? len)
    (fun '(len, p, pIV, pE, out) =>
       tmp ← get4 d p; pIV ← enc_tmp k (xor4 tmp pIV); out ← put4 pIV out pE;
       Ret (len - 16, p + 16, pIV, pE + 16, out))
    (16 * Z.of_nat n + r, Z.of_nat off, iv, Z.of_nat off, out) =
  Ret (r, Z.of_nat (off + 16 * n), cbc_iv f iv n (drop off d), Z.of_nat (off + 16 * n),
       splice out off (cbc f iv n (drop off d))).
Proof.
  induction n as [|n IH]; intros fuel off r iv out Hf Hr Hi Hd Ho.
  - rewrite cwhile_stop by (apply Z.leb_gt; lia). rewrite Nat.mul_0_r, Nat.add_0_r. simpl cbc.
    rewrite splice_nil by lia. by replace (16 * Z.of_nat 0 + r) with r by lia.
  - destruct fuel as [|fuel]; [lia|].
    erewrite cwhile_step; [|apply Z.leb_le; lia|].
    2:{ cbn beta iota. rewrite get4_ok by lia. rewrite bind_ret_l, enc_tmp_ok by done.
        rewrite bind_ret_l, put4_ok by lia. rewrite bind_ret_l. reflexivity. }
    rewrite Nat2Z.id. fold f. set (c := f _).
    replace (16 * Z.of_nat (S n) + r - 16) with (16 * Z.of_nat n + r) by lia.
    replace (Z.of_nat off + 16) with (Z.of_nat (off + 16)) by lia.
    rewrite IH by (rewrite ?length_splice; rewrite ?length_bytes4; lia || apply length_spec_crypt).
    replace (off + 16 + 16 * n)%nat with (off + 16 * S n)%nat by lia.
    rewrite splice_append by (rewrite ?length_cbc, ?length_bytes4; lia).
    cbn [cbc cbc_iv]. rewrite drop_drop. reflexivity.
Qed.

Lemma mac_loop_from d n : forall fuel off r iv, (n <= fuel)%nat -> 0 <= r < 16 ->
  length iv = 4%nat -> (off + 16 * n <= length d)%nat ->
  cwhile fuel (fun '(len, p, pIV) => 16 <=? len)
    (fun '(len, p, pIV) =>
       tmp ← get4 d p; pIV ← enc_tmp k (xor4 tmp pIV); Ret (len - 16, p + 16, pIV))
    (16 * Z.of_nat n + r, Z.of_nat off, iv) =
  Ret (r, Z.of_nat (off + 16 * n), cbc_iv f iv n (drop off d)).
Proof.
  induction n as [|n IH]; intros fuel off r iv Hf Hr Hi Hd.
  - rewrite cwhile_stop by (apply Z.leb_gt; lia). rewrite Nat.mul_0_r, Nat.add_0_r.
    by replace (16 * Z.of_nat 0 + r) with r by lia.
  - destruct fuel as [|fuel]; [lia|].
    erewrite cwhile_step; [|apply Z.leb_le; lia|].
    2:{ cbn beta iota. rewrite get4_ok by lia. rewrite bind_ret_l, enc_tmp_ok by done.
        rewrite bind_ret_l. reflexivity. }
    rewrite Nat2Z.id. fold f.
    replace (16 * Z.of_nat (S n) + r - 16) with (16 * Z.of_nat n + r) by lia.
    replace (Z.of_nat off + 16) with (Z.of_nat (off + 16)) by lia.
    rewrite IH by (lia || apply length_spec_crypt).
    replace (off + 16 + 16 * n)%nat with (off + 16 * S n)%nat by lia.
    cbn [cbc_iv]. rewrite drop_drop. reflexivity.
Qed.

Hypothesis HD : length (DRK k) = 32%nat.

Lemma decbc_loop_from ed n : forall fuel off r iv junk d, (n <= fuel)%nat -> 0 <= r < 16 ->
  (off + 16 * n <= length ed)%nat -> (off + 16 * n <= length d)%nat ->
  exists a b, cwhile fuel (fun '(nData, pData, pIV, pIVp, pE, d) => 16 <=? nData)
    (fun '(nData, pData, pIV, pIVp, pE, d) =>
       tmp ← get4 ed pData; let pIVp := tmp in
       tmp ← dec_tmp k tmp;
       d ← put4 (xor4 tmp pIV) d pE;
       Ret (nData - 16, pData + 16, pIVp, pIV, pE + 16, d))
    (16 * Z.of_nat n + r, Z.of_nat off, iv, junk, Z.of_nat off, d) =
  Ret (r, Z.of_nat (off + 16 * n), a, b, Z.of_nat (off + 16 * n),
       splice d off (decbc (spec_crypt (DRK k)) iv n (drop off ed))).
Proof.
  clear HE f. induction n as [|n IH]; intros fuel off r iv junk d Hf Hr Hed Hd.
  - exists iv, junk. rewrite cwhile_stop by (apply Z.leb_gt; lia).
    rewrite Nat.mul_0_r, Nat.add_0_r. simpl decbc.
    rewrite splice_nil by lia. by replace (16 * Z.of_nat 0 + r) with r by lia.
  - destruct fuel as [|fuel]; [lia|].
    pose proof (IH fuel (off + 16)%nat r (words4 (slice off 16 ed)) iv
      (splice d off (bytes4 (xor4 (spec_crypt (DRK k) (words4 (slice off 16 ed))) iv)))
      ltac:(lia) Hr ltac:(lia)) as (a & b & E).
    { rewrite length_splice; rewrite ?length_bytes4; lia. }
    exists a, b. erewrite cwhile_step; [|apply Z.leb_le; lia|].
    2:{ cbn beta iota. rewrite get4_ok by lia. rewrite bind_ret_l. cbv zeta.
        rewrite dec_tmp_ok by done. rewrite bind_ret_l, put4_ok by lia. rewrite bind_ret_l.
        reflexivity. }
    rewrite Nat2Z.id.
    replace (16 * Z.of_nat (S n) + r - 16) with (16 * Z.of_nat n + r) by lia.
    replace (Z.of_nat off + 16) with (Z.of_nat (off + 16)) by lia. rewrite E.
    replace (off + 16 + 16 * n)%nat with (off + 16 * S n)%nat by lia.
    rewrite splice_append by (rewrite ?length_decbc, ?length_bytes4; lia).
    cbn [decbc]. rewrite drop_drop. reflexivity.
Qed.
End cbc_loops.

Lemma cbc_message f iv n d N r : (16 * n <= N)%nat -> (N <= length d)%nat ->
  cbc f iv n d = cbc f iv n (take N d ++ r) /\ cbc_iv f iv n d = cbc_iv f iv n (take N d ++ r).
Proof.
  intros Hn Hd. rewrite cbc_app, cbc_iv_app by (rewrite length_take; lia). split.
  - rewrite <- (take_drop N d) at 1. apply cbc_app. rewrite length_take. lia.
  - rewrite <- (take_drop N d) at 1. apply cbc_iv_app. rewrite length_take. lia.
Qed.

(** [sm4_CBC] always appends the PKCS5 padding. *)
Lemma sm4_CBC_ok d dlen iv ivlen k out outlen :
  let p := pad_msg 1 (take (Z.to_nat dlen) d) in
  length (ERK k) = 32%nat -> (16 <= length iv)%nat ->
  0 <= dlen <= Z.of_nat (length d) -> (length p <= length out)%nat ->
  sm4_CBC (Some d) dlen (Some iv) ivlen (Some k) (Some out) outlen =
    Ret (0, Some (splice out 0 (cbc (spec_crypt (ERK k)) (words4 (take 16 iv)) (nblocks p) p)),
         Z.of_nat (length p)).
Proof.
  intros p HK Hi Hd Ho. unfold sm4_CBC, cbc_loop. set (m := take (Z.to_nat dlen) d) in *.
  assert (length m = Z.to_nat dlen) as Hm by (unfold m; rewrite length_take; lia).
  destruct (pad_cases 1 m) as (HN & Hr & [(Hk & Hn & _ & _)|[? _]]); [|lia]. fold p in Hn.
  pose proof (length_pad_msg 1 m) as Hpl. fold p in Hpl.
  set (n := (length m / 16)%nat) in *. set (r := (length m mod 16)%nat) in *.
  rewrite get4_ok by lia. rewrite bind_ret_l. unfold slice. rewrite drop_0.
  set (iv0 := words4 (take 16 iv)).
  replace dlen with (16 * Z.of_nat n + Z.of_nat r) by lia.
  rewrite (cbc_loop_from k HK d n _ 0) by (lia || done). rewrite bind_ret_l. cbv beta iota.
  replace (0 <=? Z.of_nat r) with true by lia. rewrite drop_0, Nat.add_0_l.
  assert (u8 (16 - Z.of_nat r) = Z.of_nat (pad_len 1 (length m))) as -> by (unfold u8; rewrite Z.mod_small; lia).
  unfold memset. rewrite decide_True by lia. change (Z.to_nat 16) with 16%nat.
  rewrite buf_write_ok by (rewrite ?length_replicate; lia). rewrite bind_ret_l.
  change (Z.to_nat 0) with 0%nat. rewrite (splice_all (replicate 16 0)) by done.
  rewrite memcpy_ok by (rewrite ?length_replicate; lia). rewrite bind_ret_l.
  rewrite !Nat2Z.id. change (Z.to_nat 0) with 0%nat.
  set (last := splice (replicate 16 _) 0 _).
  assert (last = drop (16 * n) p) as Hlast.
  { assert (length (slice (16 * n) r d) = r) as Hs by (apply length_slice; lia).
    unfold last, splice. rewrite take_0, Nat.add_0_l, Hs, app_nil_l.
    unfold p, pad_msg. rewrite drop_app_le, drop_replicate by lia. simpl Z.eqb. cbv iota. 
    replace (16 - r)%nat with (pad_len 1 (length m)) by lia. f_equal.
    unfold m, slice. rewrite skipn_firstn_comm. f_equal. lia. }
  clearbody last. subst last.
  assert (length (drop (16 * n) p) = 16%nat) as Hl16 by (rewrite length_drop; lia).
  rewrite get4_ok by lia. rewrite bind_ret_l. change (Z.to_nat 0) with 0%nat.
  rewrite enc_tmp_ok by done. rewrite bind_ret_l, put4_ok; [|lia|].
  2:{ rewrite length_splice; rewrite ?length_cbc; lia. }
  rewrite !bind_ret_l. cbv beta iota. rewrite Nat2Z.id.
  rewrite splice_append by (rewrite ?length_cbc, ?length_bytes4; lia).
  rewrite Hn, cbc_snoc. unfold slice. rewrite drop_0.
  destruct (cbc_message (spec_crypt (ERK k)) iv0 n d (length m)
     (replicate (pad_len 1 (length m)) (Z.of_nat (pad_len 1 (length m))))) as [E1 E2]; [lia..|].
  rewrite Hm in E1, E2. fold m in E1, E2. rewrite <- Hm in E1, E2.
  change (m ++ _) with p in E1, E2. rewrite E1, E2.
  do 2 f_equal. lia.
Qed.

Lemma dein_sm4_CBC_ok junk ed ed_len d d_len iv ivlen k padding :
  length (DRK k) = 32%nat -> padding = 0 \/ padding = 1 -> (16 <= length iv)%nat ->
  let n := Z.to_nat (ed_len / 16) in
  let x := decbc (spec_crypt (DRK k)) (words4 (take 16 iv)) n ed in
  0 < ed_len -> ed_len mod 16 = 0 -> ed_len <= d_len ->
  ed_len <= Z.of_nat (length ed) -> ed_len <= Z.of_nat (length d) ->
  dein_sm4_CBC junk ed ed_len d d_len iv ivlen k padding =
    Ret ((spec_unpad padding x d_len).1, splice d 0 x, (spec_unpad padding x d_len).2).
Proof.
  intros HK Hp Hi n x H0 Hm Hl He Hd. unfold dein_sm4_CBC, decbc_loop.
  assert (ed_len = 16 * Z.of_nat n) as En by (unfold n; Z.div_mod_to_equations; lia).
  replace ((1 <? padding) || (padding <? 0)) with false by (destruct Hp; subst padding; reflexivity).
  rewrite Z.rem_mod_nonneg, Hm by lia.
  replace (d_len <? ed_len) with false by (symmetry; apply Z.ltb_ge; lia). simpl orb. cbv iota.
  rewrite get4_ok by lia. rewrite bind_ret_l. unfold slice at 1. rewrite drop_0.
  destruct (decbc_loop_from k HK ed n (Z.to_nat ed_len) 0 0 (words4 (take 16 iv)) junk d)
    as (a & b & E); [lia..|].
  change (Z.of_nat 0) with 0 in E. replace (16 * Z.of_nat n + 0) with ed_len in E by lia.
  cbv zeta in E. rewrite E. rewrite bind_ret_l. cbv beta iota. rewrite drop_0. fold x.
  assert (length x = (16 * n)%nat) as Hxl by apply length_decbc.
  replace ed_len with (Z.of_nat (length x)) by lia.
  rewrite unpad_ok; [|done|rewrite length_splice; lia|].
  - rewrite bind_ret_l. by destruct (spec_unpad padding x d_len).
  - replace (length x) with (0 + length x)%nat by lia. by rewrite take_splice by lia.
Qed.

Lemma sm4_CBC_MAC_ok junk d dlen iv ivlen k out :
  let m := take (Z.to_nat dlen) d in
  let r := (length m mod 16)%nat in let n := (length m / 16)%nat in
  length (ERK k) = 32%nat -> (16 <= length iv)%nat -> length junk = 16%nat ->
  0 <= dlen <= Z.of_nat (length d) -> (16 <= length out)%nat ->
  sm4_CBC_MAC junk (Some d) dlen (Some iv) ivlen (Some k) (Some out) =
    Ret (0, Some (splice out 0 (bytes4 (cbc_iv (spec_crypt (ERK k)) (words4 (take 16 iv))
      (if decide (r = 0%nat) then n else S n) (m ++ drop r junk))))).
Proof.
  intros m r n HK Hi Hj Hd Ho. unfold sm4_CBC_MAC.
  assert (length m = Z.to_nat dlen) as Hm by (unfold m; rewrite length_take; lia).
  pose proof (Nat.div_mod_eq (length m) 16) as HN. fold n r in HN.
  pose proof (Nat.mod_upper_bound (length m) 16 ltac:(lia)) as Hr. fold r in Hr.
  rewrite get4_ok by lia. rewrite bind_ret_l. unfold slice at 1. rewrite drop_0.
  set (iv0 := words4 (take 16 iv)).
  replace dlen with (16 * Z.of_nat n + Z.of_nat r) by lia.
  rewrite (mac_loop_from k HK d n _ 0) by (lia || done). rewrite bind_ret_l. cbv beta iota.
  rewrite drop_0, Nat.add_0_l. set (f := spec_crypt (ERK k)).
  destruct (cbc_message f iv0 n d (length m) (drop r junk)) as [_ E]; [lia..|].
  assert (take (length m) d = m) as Etm by (by rewrite Hm). rewrite Etm in E.
  destruct (decide (r = 0)%nat) as [H0|H0].
  - replace (0 <? Z.of_nat r) with false by lia. rewrite bind_ret_l, put4_ok by lia.
    rewrite bind_ret_l. by rewrite E.
  - replace (0 <? Z.of_nat r) with true by lia.
    rewrite memcpy_ok by lia. rewrite bind_ret_l, !Nat2Z.id. change (Z.to_nat 0) with 0%nat.
    set (last := splice junk 0 _).
    assert (last = drop (16 * n) (m ++ drop r junk)) as Hlast.
    { assert (length (slice (16 * n) r d) = r) as Hs by (apply length_slice; lia).
      unfold last, splice. rewrite take_0, Nat.add_0_l, Hs, app_nil_l, drop_app_le by lia. f_equal.
      unfold m, slice. rewrite skipn_firstn_comm. f_equal. lia. }
    clearbody last. subst last.
    assert (length (drop (16 * n) (m ++ drop r junk)) = 16%nat) as Hl16
      by (rewrite length_drop, length_app, length_drop; lia).
    rewrite get4_ok by lia. rewrite bind_ret_l, enc_tmp_ok by done.
    rewrite bind_ret_l, put4_ok by lia. rewrite bind_ret_l.
    change (Z.to_nat 0) with 0%nat. rewrite cbc_iv_snoc, E. unfold slice. by rewrite drop_0.
Qed.

(** ** Keys with both schedules *)

Lemma key_ok_DRK k : key_ok k -> length (DRK k) = 32%nat.
Proof. intros [HE ->]. by rewrite length_reverse. Qed.

Lemma key_crypt_inverse k x : key_ok k -> length x = 4%nat ->
  spec_crypt (DRK k) (spec_crypt (ERK k) x) = x.
Proof. intros [_ ->]. apply spec_crypt_rev. Qed.

Lemma length_spec_rk mk : length (spec_rk mk) = 32%nat.
Proof. unfold spec_rk. by rewrite length_fmap, length_seq. Qed.

Lemma ecb_roundtrip k p : key_ok k -> Forall is_u8 p -> length p = (16 * nblocks p)%nat ->
  ecb (spec_crypt (DRK k)) (nblocks p) (ecb (spec_crypt (ERK k)) (nblocks p) p) = p.
Proof.
  intros HK Hu Hl. rewrite ecb_inverse; [by apply take_ge; lia|..|lia|done].
  - apply length_spec_crypt.
  - apply spec_crypt_u32.
  - intros x Hx. by apply key_crypt_inverse.
Qed.

Lemma cbc_roundtrip k iv p : key_ok k -> Forall is_u8 p -> length p = (16 * nblocks p)%nat ->
  Forall is_u8 iv ->
  decbc (spec_crypt (DRK k)) (words4 iv) (nblocks p) (cbc (spec_crypt (ERK k)) (words4 iv) (nblocks p) p) = p.
Proof.
  intros HK Hu Hl Hi. rewrite decbc_cbc; [by apply take_ge; lia|..|done|by apply words4_u32|lia|done].
  - apply length_spec_crypt.
  - apply spec_crypt_u32.
  - intros x Hx. by apply key_crypt_inverse.
Qed.

(** ** Properties *)

(** C2: the cipher is SM4 of GB/T 32907: the 256-entry table is the
    inversion in GF(2^8) between two affine maps, [CK] is its arithmetic
    progression, and a key set for decryption encrypts every whole block of an
    array to the standard's ciphertext and decrypts it back to the array, in
    place and from one array to another, where the rest of the destination is
    kept. *)
Theorem sm4_block_cipher (k0 key p q : list Z) (o : SM4_KEY) (flag len : Z) :
  key_sizes o -> length k0 = 36%nat -> Forall is_u8 key -> (16 <= length key)%nat -> flag <> 0 ->
  0 <= len -> (4 * Z.to_nat (len / 16) <= length p)%nat -> (4 * Z.to_nat (len / 16) <= length q)%nat ->
  SBOX_TABLE = (fun i => spec_sbox (Z.of_nat i)) <$> seq 0 256 /\ CK = spec_CK <$> seq 0 32 /\
  exists k c, sm4_SetKey k0 (Some o) (Some key) flag = Ret (0, Some k) /\
    sm4_Encrypt_S k (Some p) len = Ret (Some c) /\
    c = splice p 0 (map_blocks (spec_crypt (spec_rk (quad_of (words4 key)))) (Z.to_nat (len / 16)) p) /\
    sm4_Decrypt_S k (Some c) len = Ret (Some p) /\
    sm4_Encrypt k (Some p) len (Some q) =
      Ret (Some (splice q 0 (map_blocks (spec_crypt (spec_rk (quad_of (words4 key)))) (Z.to_nat (len / 16)) p))) /\
    sm4_Decrypt k (Some c) len (Some q) = Ret (Some (splice q 0 (take (4 * Z.to_nat (len / 16)) p))).
Proof.
  intros Ho Hk Hu Hl Hf Hlen Hp Hq. split; [apply SBOX_TABLE_spec|split; [apply CK_spec|]].
  pose proof (SetKey_ok k0 o key flag Ho Hk Hu Hl) as E. cbv zeta in E.
  replace (flag =? 0) with false in E by lia. set (rk := spec_rk _) in *.
  set (n := Z.to_nat (len / 16)) in *.
  set (k := {| ERK := rk; DRK := reverse rk; MK := words4 key |}) in *.
  assert (length (ERK k) = 32%nat) as HE by apply length_spec_rk.
  assert (length (map_blocks (spec_crypt rk) n p) = (4 * n)%nat) as Hm
    by apply length_map_blocks, length_spec_crypt.
  eexists k, _. split; [exact E|]. split; [by apply Encrypt_S_ok|]. split; [reflexivity|].
  change (ERK k) with rk in *. fold n. set (c := splice p 0 _).
  assert (c = map_blocks (spec_crypt rk) n p ++ drop (4 * n) p) as Hc
    by (unfold c, splice; by rewrite take_0, Hm).
  assert (map_blocks (spec_crypt (reverse rk)) n c = take (4 * n) p) as Hinv.
  { rewrite Hc. apply map_blocks_inverse; [apply length_spec_crypt|apply spec_crypt_rev|lia]. }
  assert (4 * n <= length c)%nat as Hlc by (rewrite Hc, length_app, length_drop; lia).
  assert (length (DRK k) = 32%nat) as HD by by apply key_ok_DRK.
  split; [|split; [by apply Encrypt_ok|]].
  - rewrite Decrypt_S_ok by done. do 2 f_equal. fold n. change (DRK k) with (reverse rk). rewrite Hinv, Hc.
    unfold splice. rewrite take_0, app_nil_l, length_take, Nat.min_l, Nat.add_0_l by lia.
    rewrite drop_app_length' by lia. apply take_drop.
  - rewrite Decrypt_ok by done. fold n. change (DRK k) with (reverse rk). by rewrite Hinv.
Qed.

Definition sample_key : list Z :=
  [0x01; 0x23; 0x45; 0x67; 0x89; 0xab; 0xcd; 0xef; 0xfe; 0xdc; 0xba; 0x98; 0x76; 0x54; 0x32; 0x10].
Definition blank_key : SM4_KEY :=
  {| ERK := replicate 32 0; DRK := replicate 32 0; MK := replicate 4 0 |}.
(** [sample_key] set for encryption and decryption. *)
Definition sample_SM4_KEY : SM4_KEY := SM4_InitRK (replicate 36 0)
  {| ERK := replicate 32 0; DRK := replicate 32 0; MK := words4 sample_key |} 1.

Lemma sm4_block_cipher_witness :
  exists k c, sm4_SetKey (replicate 36 7) (Some blank_key) (Some sample_key) 1 = Ret (0, Some k) /\
    sm4_Encrypt_S k (Some [0x01234567; 0x89abcdef; 0xfedcba98; 0x76543210]) 16 = Ret (Some c) /\
    c = [0x681edf34; 0xd206965e; 0x86b3e94f; 0x536e4246] /\
    sm4_Decrypt_S k (Some c) 16 = Ret (Some [0x01234567; 0x89abcdef; 0xfedcba98; 0x76543210]) /\
    sm4_Encrypt k (Some [0x01234567; 0x89abcdef; 0xfedcba98; 0x76543210]) 16 (Some [1; 2; 3; 4; 5]) =
      Ret (Some [0x681edf34; 0xd206965e; 0x86b3e94f; 0x536e4246; 5]) /\
    sm4_Decrypt k (Some c) 16 (Some [1; 2; 3; 4; 5]) =
      Ret (Some [0x01234567; 0x89abcdef; 0xfedcba98; 0x76543210; 5]).
Proof.
  destruct (sm4_block_cipher (replicate 36 7) sample_key
    [0x01234567; 0x89abcdef; 0xfedcba98; 0x76543210] [1; 2; 3; 4; 5] blank_key 1 16)
    as (_ & _ & k & c & H1 & H2 & H3 & H4 & H5 & H6).
  1: repeat split.
  1: reflexivity.
  1: eval_decide.
  1: eval_decide.
  1: lia.
  1: lia.
  1: eval_decide.
  1: eval_decide.
  exists k, c. split; [exact H1|split; [exact H2|split; [|split; [exact H4|split; [|]]]]].
  - rewrite H3. vm_compute. reflexivity.
  - rewrite H5. vm_compute. reflexivity.
  - rewrite H6. vm_compute. reflexivity.
Defined.

(** C3: [enin_sm4] returns 0 with the ECB encryption of the padded data
    (PKCS5 for [padding] 1, zeros for 0) and its length, and [dein_sm4] gives back
    the data: exactly with PKCS5, with the zeros that filled the last block
    otherwise; bytes of the buffers beyond the text are kept. *)
Theorem sm4_ecb_roundtrip (junk d ed dd : list Z) (dlen ed_len d_len : Z) (k : SM4_KEY) (padding : Z) :
  let m := take (Z.to_nat dlen) d in let p := pad_msg padding m in
  key_ok k -> padding = 0 \/ padding = 1 -> length junk = 16%nat -> Forall is_u8 d ->
  0 < dlen <= Z.of_nat (length d) -> dlen + 16 < 2 ^ 31 ->
  Z.of_nat (length p) <= ed_len <= Z.of_nat (length ed) ->
  Z.of_nat (length p) <= d_len <= Z.of_nat (length dd) ->
  exists c, enin_sm4 junk d dlen ed ed_len k padding = Ret (0, splice ed 0 c, Z.of_nat (length p)) /\
    length c = length p /\ c = ecb (spec_crypt (ERK k)) (nblocks p) p /\
    dein_sm4 (splice ed 0 c) (Z.of_nat (length p)) dd d_len k padding =
      Ret (0, splice dd 0 p, if padding =? 0 then Z.of_nat (length p) else dlen).
Proof.
  intros m p HK Hp Hj Hu Hd Hov He Hdd. pose proof (length_pad_msg padding m) as Hpl. fold p in Hpl.
  assert (length m = Z.to_nat dlen) as Hm by (unfold m; rewrite length_take; lia).
  assert (length m <= length p)%nat by (unfold p, pad_msg; rewrite length_app; lia).
  set (c := ecb (spec_crypt (ERK k)) (nblocks p) p).
  assert (length c = length p) as Hc by (unfold c; rewrite length_ecb; lia).
  exists c. split_and!; [apply enin_sm4_ok; fold m p; apply HK || lia || done|done|done|].
  assert (Z.to_nat (Z.of_nat (length p) / 16) = nblocks p) as En.
  { unfold nblocks. by rewrite <- (Nat2Z.inj_div _ 16), Nat2Z.id. }
  assert (ecb (spec_crypt (DRK k)) (nblocks p) (splice ed 0 c) = p) as Edec.
  { unfold splice. rewrite take_0, app_nil_l, ecb_app by lia.
    apply ecb_roundtrip; [done| |done]. by apply pad_msg_u8, Forall_take. }
  pose proof (dein_sm4_ok (splice ed 0 c) (Z.of_nat (length p)) dd d_len k padding) as Hde.
  cbv zeta in Hde. rewrite En, Edec in Hde. rewrite Hde; clear Hde; [|by apply key_ok_DRK|done|lia| |lia| |lia].
  - destruct Hp as [->| ->]; [by rewrite spec_unpad_zero|]. unfold p. rewrite spec_unpad_pkcs5.
    simpl. do 2 f_equal. lia.
  - rewrite Hpl, Nat2Z.inj_mul, Z.mul_comm. apply Z.mod_mul. lia.
  - rewrite length_splice; lia.
Qed.

Lemma sm4_ecb_roundtrip_witness :
  exists c, enin_sm4 (replicate 16 9) [1; 2; 3] 3 (replicate 20 7) 16 sample_SM4_KEY 1 =
      Ret (0, splice (replicate 20 7) 0 c, 16) /\
    length c = 16%nat /\
    dein_sm4 (splice (replicate 20 7) 0 c) 16 (replicate 20 7) 20 sample_SM4_KEY 1 =
      Ret (0, [1; 2; 3] ++ replicate 13 13 ++ replicate 4 7, 3).
Proof.
  destruct (sm4_ecb_roundtrip (replicate 16 9) [1; 2; 3] (replicate 20 7) (replicate 20 7) 3 16 20
    sample_SM4_KEY 1) as (c & H1 & H2 & _ & H4).
  1: split; vm_compute; reflexivity.
  1: right; reflexivity.
  1: reflexivity.
  1: eval_decide.
  1: eval_decide.
  1: lia.
  1: eval_decide.
  1: eval_decide.
  exists c. split; [exact H1|]. split; [exact H2|]. exact H4.
Defined.

(** [sm4_CBC] always adds PKCS5 padding and chains the blocks from [iv];
    [dein_sm4_CBC] with the same key and [iv] gives back the data and its length. *)
Theorem sm4_cbc_roundtrip (junk d iv out dd : list Z) (dlen ivlen outlen d_len : Z) (k : SM4_KEY) :
  let m := take (Z.to_nat dlen) d in let p := pad_msg 1 m in
  key_ok k -> Forall is_u8 d -> (16 <= length iv)%nat -> Forall is_u8 iv ->
  0 <= dlen <= Z.of_nat (length d) -> (length p <= length out)%nat ->
  Z.of_nat (length p) <= d_len <= Z.of_nat (length dd) ->
  exists c, sm4_CBC (Some d) dlen (Some iv) ivlen (Some k) (Some out) outlen =
      Ret (0, Some (splice out 0 c), Z.of_nat (length p)) /\
    c = cbc (spec_crypt (ERK k)) (words4 (take 16 iv)) (nblocks p) p /\
    dein_sm4_CBC junk (splice out 0 c) (Z.of_nat (length p)) dd d_len iv ivlen k 1 =
      Ret (0, splice dd 0 p, dlen).
Proof.
  intros m p HK Hu Hi Hiu Hd Ho Hdd. pose proof (length_pad_msg 1 m) as Hpl. fold p in Hpl.
  assert (length m = Z.to_nat dlen) as Hm by (unfold m; rewrite length_take; lia).
  assert (length m < length p)%nat as Hmp.
  { unfold p, pad_msg. rewrite length_app, length_replicate. unfold pad_len. simpl.
    pose proof (Nat.mod_upper_bound (length m) 16 ltac:(lia)). lia. }
  set (c := cbc (spec_crypt (ERK k)) (words4 (take 16 iv)) (nblocks p) p).
  assert (length c = length p) as Hc by (unfold c; rewrite length_cbc; lia).
  exists c. split_and!; [apply sm4_CBC_ok; fold m p; apply HK || lia || done|done|].
  assert (Z.to_nat (Z.of_nat (length p) / 16) = nblocks p) as En.
  { unfold nblocks. by rewrite <- (Nat2Z.inj_div _ 16), Nat2Z.id. }
  assert (decbc (spec_crypt (DRK k)) (words4 (take 16 iv)) (nblocks p) (splice out 0 c) = p) as Edec.
  { unfold splice. rewrite take_0, app_nil_l, decbc_app by lia.
    apply cbc_roundtrip; [done| |done|by apply Forall_take]. by apply pad_msg_u8, Forall_take. }
  pose proof (dein_sm4_CBC_ok junk (splice out 0 c) (Z.of_nat (length p)) dd d_len iv ivlen k 1) as Hde.
  cbv zeta in Hde. rewrite En, Edec in Hde.
  rewrite Hde; clear Hde; [|by apply key_ok_DRK|by right|done|lia| |lia| |lia].
  - unfold p. rewrite spec_unpad_pkcs5. simpl. do 2 f_equal. lia.
  - rewrite Hpl, Nat2Z.inj_mul, Z.mul_comm. apply Z.mod_mul. lia.
  - rewrite length_splice; lia.
Qed.

Lemma sm4_cbc_roundtrip_witness :
  exists c, sm4_CBC (Some (replicate 17 5)) 17 (Some sample_key) 16 (Some sample_SM4_KEY)
      (Some (replicate 40 7)) 0 = Ret (0, Some (splice (replicate 40 7) 0 c), 32) /\
    dein_sm4_CBC [] (splice (replicate 40 7) 0 c) 32 (replicate 32 7) 32 sample_key 16 sample_SM4_KEY 1 =
      Ret (0, replicate 17 5 ++ replicate 15 15, 17).
Proof.
  destruct (sm4_cbc_roundtrip [] (replicate 17 5) sample_key (replicate 40 7) (replicate 32 7) 17 16 0 32
    sample_SM4_KEY) as (c & H1 & _ & H3).
  1: split; vm_compute; reflexivity.
  1: eval_decide.
  1: eval_decide.
  1: eval_decide.
  1: eval_decide.
  1: eval_decide.
  1: eval_decide.
  exists c. split; [exact H1|]. exact H3.
Defined.

(** C4: what decryption reports, on every branch: 4 for an unknown padding,
    1 for a buffer that is too small or a length that is not a multiple of 16,
    and otherwise the decrypted blocks with the verdict on their padding (3 for a
    last byte outside 1..16, 5 for unequal padding bytes, 0 with the length of
    the text); the caller's length is only changed on success. *)
Theorem dein_sm4_status (ed d : list Z) (ed_len d_len : Z) (k : SM4_KEY) (padding : Z) :
  length (DRK k) = 32%nat -> 0 < ed_len -> ed_len <= Z.of_nat (length ed) ->
  d_len <= Z.of_nat (length d) ->
  dein_sm4 ed ed_len d d_len k padding =
    if decide (padding <> 0 /\ padding <> 1) then Ret (4, d, d_len)
    else if decide (d_len < ed_len \/ ed_len mod 16 <> 0) then Ret (1, d, d_len)
    else let x := ecb (spec_crypt (DRK k)) (Z.to_nat (ed_len / 16)) ed in
      Ret ((spec_unpad padding x d_len).1, splice d 0 x, (spec_unpad padding x d_len).2).
Proof.
  intros HK H0 He Hd. case_decide as Hp; [|case_decide as Hl].
  - unfold dein_sm4. by replace ((1 <? padding) || (padding <? 0)) with true by lia.
  - unfold dein_sm4. replace ((1 <? padding) || (padding <? 0)) with false by lia.
    rewrite Z.rem_mod_nonneg by lia.
    by replace ((d_len <? ed_len) || negb (ed_len mod 16 =? 0)) with true by lia.
  - apply dein_sm4_ok; done || lia.
Qed.

(** A ciphertext whose padding is broken is refused. *)
Lemma dein_sm4_status_witness :
  dein_sm4 (ecb (spec_crypt (ERK sample_SM4_KEY)) 1 (replicate 14 1 ++ [3; 2])) 16 (replicate 16 7) 16
    sample_SM4_KEY 1 = Ret (5, replicate 14 1 ++ [3; 2], 16).
Proof.
  rewrite (dein_sm4_status (ecb (spec_crypt (ERK sample_SM4_KEY)) 1 (replicate 14 1 ++ [3; 2]))
    (replicate 16 7) 16 16 sample_SM4_KEY 1).
  - vm_compute. reflexivity.
  - vm_compute. reflexivity.
  - lia.
  - eval_decide.
  - eval_decide.
Defined.

(** [sm4_CBC_MAC] is the last CBC block of the message; when the length is
    not a multiple of 16 the last block is filled with whatever the
    uninitialised local array holds, so the result depends on it. *)
Theorem sm4_cbc_mac_blocks (junk d iv out : list Z) (dlen ivlen : Z) (k : SM4_KEY) :
  let m := take (Z.to_nat dlen) d in let r := (length m mod 16)%nat in
  length (ERK k) = 32%nat -> (16 <= length iv)%nat -> length junk = 16%nat ->
  0 <= dlen <= Z.of_nat (length d) -> (16 <= length out)%nat ->
  sm4_CBC_MAC junk (Some d) dlen (Some iv) ivlen (Some k) (Some out) =
    Ret (0, Some (splice out 0 (bytes4 (cbc_iv (spec_crypt (ERK k)) (words4 (take 16 iv))
      (if decide (r = 0%nat) then length m / 16 else S (length m / 16)) (m ++ drop r junk))))).
Proof. intros m r HK Hi Hj Hd Ho. by apply sm4_CBC_MAC_ok. Qed.

Lemma sm4_cbc_mac_blocks_witness :
  sm4_CBC_MAC (replicate 16 0) (Some [1; 2; 3]) 3 (Some (replicate 16 0)) 16 (Some sample_SM4_KEY)
      (Some (replicate 16 0)) <>
  sm4_CBC_MAC (replicate 16 9) (Some [1; 2; 3]) 3 (Some (replicate 16 0)) 16 (Some sample_SM4_KEY)
      (Some (replicate 16 0)).
Proof.
  rewrite (sm4_cbc_mac_blocks (replicate 16 0) [1; 2; 3] (replicate 16 0) (replicate 16 0) 3 16 sample_SM4_KEY),
    (sm4_cbc_mac_blocks (replicate 16 9) [1; 2; 3] (replicate 16 0) (replicate 16 0) 3 16 sample_SM4_KEY).
  1: vm_compute; discriminate.
  all: eval_decide.
Defined.
