(* ===== verification/Sm4Stream.v ===== *)
(** * The incremental SM4 interface (sm/sm4.cpp: [sm4_InitBlock],
      [sm4_UpdateBlock], [sm4_FinalBlock])

    The object keeps up to 15 bytes between calls and the chaining words; a
    call with a full block encrypts or decrypts it.  The specification is a run
    over whole blocks with a chaining value, and the theorems show that the calls
    compute it however the data is cut into pieces. *)
From S2P Require Import Prelude Words Buffers Sm4.

Record SM4_KEY_OBJ := mk_SM4_KEY_OBJ {
  key : SM4_KEY;
  iv : list Z;
  ivtmp : list Z;
  left : list Z;
  flag : Z;
  mode : Z;
  leftsize : Z;
  padtype : Z
}.

Definition set_iv (o : SM4_KEY_OBJ) (v t : list Z) : SM4_KEY_OBJ :=
  mk_SM4_KEY_OBJ (key o) v t (left o) (flag o) (mode o) (leftsize o) (padtype o).
Definition set_left (o : SM4_KEY_OBJ) (l : list Z) (n : Z) : SM4_KEY_OBJ :=
  mk_SM4_KEY_OBJ (key o) (iv o) (ivtmp o) l (flag o) (mode o) n (padtype o).

(** [junk] is the uninitialised array of [SM4_InitRK]. *)
Definition sm4_InitBlock (junk : list Z) (sm4obj : option SM4_KEY_OBJ) (k : option (list Z))
    (flag mode padding : Z) (iv : option (list Z)) : cpp (Z * option SM4_KEY_OBJ) :=
  match sm4obj, k with
  | Some o, Some kb =>
      if (flag <? 0) || (2 <? flag) || (mode <? 0) || (2 <? mode) then Ret (1, sm4obj)
      else
        '(nError, k') ← sm4_SetKey junk (Some (key o)) (Some kb) flag;
        if negb (nError =? 0) then Ret (2, sm4obj)
        else
          let o := mk_SM4_KEY_OBJ (default (key o) k') (Sm4Stream.iv o) (ivtmp o) (left o) (u8 flag)
                     (u8 mode) (leftsize o) (if padding =? 0 then 0 else 1) in
          if 0 <? mode then
            match iv with
            | None => Ret (2, Some o)
            | Some v =>
                v16 ← memcpy (Sm4Stream.iv o) 0 v 0 16;
                t ← get4 v 0;
                l ← memset (left o) 0 0 16;
                Ret (0, Some (set_left (set_iv o v16 t) l 0))
            end
          else
            l ← memset (left o) 0 0 16; Ret (0, Some (set_left o l 0))
  | _, _ => Ret (1, sm4obj)
  end.

(** The variables of the loop of [sm4_UpdateBlock]; [pre] is [tmpivpre] and
    [err] is set where the code returns 2. *)
Record upd := mk_upd {
  u_obj : SM4_KEY_OBJ;
  u_len : Z;
  u_in : Z;
  u_pE : Z;
  u_nOut : Z;
  u_out : option (list Z);
  u_pre : list Z;
  u_err : bool
}.

(** [_PutBE32] of four words through the pointer [out]. *)
Definition put_out (w : list Z) (out : option (list Z)) (pE : Z) : cpp (option (list Z)) :=
  match out with
  | Some b => b ← put4 w b pE; Ret (Some b)
  | None => Undef
  end.

(** The work on a full block; [cap] is [*outlen]. *)
Definition upd_block (fl cap : Z) (s : upd) : cpp upd :=
  let o := u_obj s in
  tmp ← get4 (left o) 0;
  let pre := if (fl =? 1) && (mode o =? 1) then tmp else u_pre s in
  if fl =? 1 then
    dec ← dec_tmp (key o) tmp;
    n16 ← int_checked (u_nOut s + 16);
    if n16 <=? cap then
      out ← put_out (if mode o =? 0 then dec else xor4 dec (ivtmp o)) (u_out s) (u_pE s);
      let o := set_iv o (iv o) (if mode o =? 0 then ivtmp o else pre) in
      Ret (mk_upd (set_left o (left o) 0) (u_len s) (u_in s) (u_pE s + 16) n16 out pre false)
    else Ret (mk_upd o (u_len s) (u_in s) (u_pE s) (u_nOut s) (u_out s) pre true)
  else
    c ← enc_tmp (key o) (if mode o =? 0 then tmp else xor4 tmp (ivtmp o));
    let o := set_iv o (iv o) c in
    if fl =? 0 then
      n16 ← int_checked (u_nOut s + 16);
      if n16 <=? cap then
        out ← put_out c (u_out s) (u_pE s);
        Ret (mk_upd (set_left o (left o) 0) (u_len s) (u_in s) (u_pE s + 16) n16 out pre false)
      else Ret (mk_upd o (u_len s) (u_in s) (u_pE s) (u_nOut s) (u_out s) pre true)
    else Ret (mk_upd (set_left o (left o) 0) (u_len s) (u_in s) (u_pE s) (u_nOut s) (u_out s) pre false).

(** One turn of [while (len > 0)]. *)
Definition upd_step (inp : list Z) (fl cap : Z) (s : upd) : cpp upd :=
  let o := u_obj s in
  let nUsed := if 0 <? leftsize o then 16 - leftsize o else 16 in
  let nUsed := if u_len s <? nUsed then u_len s else nUsed in
  l ← memcpy (left o) (leftsize o) inp (u_in s) nUsed;
  let o := set_left o l (u8 (leftsize o + u8 nUsed)) in
  let s := mk_upd o (u_len s - nUsed) (u_in s + nUsed) (u_pE s) (u_nOut s) (u_out s) (u_pre s) false in
  if leftsize o =? 16 then upd_block fl cap s else Ret s.

Definition sm4_UpdateBlock (junk : list Z) (sm4obj : option SM4_KEY_OBJ) (inp : option (list Z))
    (inlen : Z) (out : option (list Z)) (outlen : option Z) (fl : Z)
    : cpp (Z * option SM4_KEY_OBJ * option (list Z) * option Z) :=
  match sm4obj, inp with
  | Some o, Some inp =>
      if negb (fl =? 2) && (bool_decide (out = None) || bool_decide (outlen = None))
      then Ret (1, sm4obj, out, outlen)
      else
        s ← cwhile (Z.to_nat inlen) (fun s => negb (u_err s) && (0 <? u_len s))
              (upd_step inp fl (default 0 outlen)) (mk_upd o inlen 0 0 0 out junk false);
        if u_err s then Ret (2, Some (u_obj s), u_out s, outlen)
        else Ret (0, Some (u_obj s), u_out s, if outlen is Some _ then Some (u_nOut s) else None)
  | _, _ => Ret (1, sm4obj, out, outlen)
  end.

(** The end of a decryption: the padding of the block [tmpOut]. *)
Definition final_unpad (o : SM4_KEY_OBJ) (tmpOut out : list Z) (outlen : Z)
    : cpp (Z * option SM4_KEY_OBJ * option (list Z) * option Z) :=
  last ← buf_get tmpOut 15;
  let nPad := if padtype o =? 1 then last else 0 in
  if (padtype o =? 1) && ((nPad <=? 0) || (16 <? nPad)) then Ret (3, Some o, Some out, Some outlen)
  else
    ok ← pad_check tmpOut 16 nPad (Z.to_nat nPad) 1;
    match ok with
    | false => Ret (5, Some o, Some out, Some outlen)
    | true =>
        if 16 - nPad <=? outlen then
          out ← memcpy out 0 tmpOut 0 (16 - nPad);
          Ret (0, Some o, Some out, Some (16 - nPad))
        else Ret (2, Some o, Some out, Some outlen)
    end.

(** The rest of [sm4_FinalBlock] once [left] holds its block of 16 bytes;
    [tmpOut] is an uninitialised array of 16 bytes. *)
Definition final_crypt (tmpOut : list Z) (o : SM4_KEY_OBJ) (out : list Z) (outlen fl : Z)
    : cpp (Z * option SM4_KEY_OBJ * option (list Z) * option Z) :=
  tmp ← get4 (left o) 0;
  if fl =? 1 then
    dec ← dec_tmp (key o) tmp;
    tmpOut ← put4 (if mode o =? 0 then dec else xor4 dec (ivtmp o)) tmpOut 0;
    final_unpad o tmpOut out outlen
  else
    c ← enc_tmp (key o) (if mode o =? 0 then tmp else xor4 tmp (ivtmp o));
    let o := set_iv o (iv o) c in
    if 16 <=? outlen then
      out ← put4 c out 0; Ret (0, Some o, Some out, Some 16)
    else Ret (2, Some o, Some out, Some outlen).

Definition sm4_FinalBlock (tmpOut : list Z) (sm4obj : option SM4_KEY_OBJ) (inp : option (list Z))
    (inlen : Z) (out : option (list Z)) (outlen : option Z) (fl : Z)
    : cpp (Z * option SM4_KEY_OBJ * option (list Z) * option Z) :=
  match sm4obj, out, outlen with
  | Some o, Some ob, Some ol =>
      nUsed ← int_checked (inlen + leftsize o);
      if 16 <? nUsed then Ret (1, sm4obj, out, outlen)
      else if (nUsed =? 0) && (fl =? 2) then
        if ol <? 16 then Ret (2, sm4obj, out, outlen)
        else ob ← put4 (ivtmp o) ob 0; Ret (0, sm4obj, Some ob, Some 16)
      else if (nUsed =? 0) && (padtype o =? 0) then Ret (0, sm4obj, out, Some 0)
      else if (fl =? 1) && (bool_decide (inp = None) || negb (nUsed =? 16)) then
        Ret (1, sm4obj, out, outlen)
      else
        l ← (match inp with
             | Some b => memcpy (left o) (leftsize o) b 0 inlen
             | None => _ ← defined (inlen =? 0); Ret (left o)
             end);
        l ← (if nUsed <? 16 then
               let nPad := if negb (padtype o =? 0) && (fl =? 0) then 16 - nUsed else 0 in
               memset l nUsed nPad (16 - nUsed)
             else Ret l);
        final_crypt tmpOut (set_left o l (leftsize o)) ob ol fl
  | _, _, _ => Ret (1, sm4obj, out, outlen)
  end.

(** ** Specification: a run over whole blocks *)

(** [fl] is 0 to encrypt, 1 to decrypt, 2 for the MAC; [md] 0 for ECB, 1 for CBC. *)
Definition blk_iv (k : SM4_KEY) (fl md : Z) (v x : list Z) : list Z :=
  if fl =? 1 then (if md =? 0 then v else x)
  else spec_crypt (ERK k) (if md =? 0 then x else xor4 x v).
Definition blk_out (k : SM4_KEY) (fl md : Z) (v x : list Z) : list Z :=
  if fl =? 1 then
    let y := spec_crypt (DRK k) x in bytes4 (if md =? 0 then y else xor4 y v)
  else if fl =? 0 then bytes4 (blk_iv k fl md v x) else [].

Fixpoint run_iv (k : SM4_KEY) (fl md : Z) (v : list Z) (n : nat) (d : list Z) : list Z :=
  match n with
  | O => v
  | S n' => run_iv k fl md (blk_iv k fl md v (words4 (take 16 d))) n' (drop 16 d)
  end.
Fixpoint run_out (k : SM4_KEY) (fl md : Z) (v : list Z) (n : nat) (d : list Z) : list Z :=
  match n with
  | O => []
  | S n' => blk_out k fl md v (words4 (take 16 d)) ++
            run_out k fl md (blk_iv k fl md v (words4 (take 16 d))) n' (drop 16 d)
  end.

(** The object holds the bytes [d] of an unfinished block and the chaining words [v]. *)
Record holds (k : SM4_KEY) (md pt : Z) (o : SM4_KEY_OBJ) (v d : list Z) : Prop := {
  h_key : key o = k;
  h_mode : mode o = md;
  h_pad : padtype o = pt;
  h_left : length (left o) = 16%nat;
  h_size : leftsize o = Z.of_nat (length d);
  h_lt : (length d < 16)%nat;
  h_data : take (length d) (left o) = d;
  h_iv : ivtmp o = v;
  h_ivlen : length v = 4%nat
}.

(** How a call may be made: keys of the right size, a known mode and operation. *)
Record usable (k : SM4_KEY) (fl md : Z) : Prop := {
  us_erk : length (ERK k) = 32%nat;
  us_drk : length (DRK k) = 32%nat;
  us_fl : fl = 0 \/ fl = 1 \/ fl = 2;
  us_md : md = 0 \/ md = 1
}.

Section runs.
Variables (k : SM4_KEY) (fl md : Z).

Lemma run_plus n m : forall v d,
  run_iv k fl md v (n + m) d = run_iv k fl md (run_iv k fl md v n d) m (drop (16 * n) d) /\
  run_out k fl md v (n + m) d =
    run_out k fl md v n d ++ run_out k fl md (run_iv k fl md v n d) m (drop (16 * n) d).
Proof.
  induction n as [|n IH]; intros v d; [done|]. cbn [run_iv run_out Nat.add].
  destruct (IH (blk_iv k fl md v (words4 (take 16 d))) (drop 16 d)) as [-> ->].
  rewrite drop_drop, <- app_assoc. by replace (16 + 16 * n)%nat with (16 * S n)%nat by lia.
Qed.

Lemma run_app n : forall v d r, (16 * n <= length d)%nat ->
  run_iv k fl md v n (d ++ r) = run_iv k fl md v n d /\
  run_out k fl md v n (d ++ r) = run_out k fl md v n d.
Proof.
  induction n as [|n IH]; intros v d r H; [done|]. cbn [run_iv run_out].
  destruct (take16_app n d r H) as [-> ->].
  destruct (IH (blk_iv k fl md v (words4 (take 16 d))) (drop 16 d) r) as [-> ->];
    [rewrite length_drop; lia|done].
Qed.

Lemma length_blk_iv v x : length v = 4%nat -> length x = 4%nat -> length (blk_iv k fl md v x) = 4%nat.
Proof.
  intros Hv Hx. unfold blk_iv. destruct (fl =? 1); [by destruct (md =? 0)|apply length_spec_crypt].
Qed.

Lemma length_run_iv n : forall v d, length v = 4%nat -> length (run_iv k fl md v n d) = 4%nat.
Proof. induction n as [|n IH]; intros v d Hv; [done|]. by apply IH, length_blk_iv. Qed.

Lemma length_run_out n : forall v d, fl = 0 \/ fl = 1 \/ fl = 2 ->
  length (run_out k fl md v n d) = if fl =? 2 then 0%nat else (16 * n)%nat.
Proof.
  induction n as [|n IH]; intros v d Hf; cbn [run_out]; [by destruct (fl =? 2)|].
  rewrite length_app, IH by done. unfold blk_out. destruct Hf as [->|[->| ->]]; simpl; lia.
Qed.
End runs.

(** The runs are the modes of Sm4. *)
Lemma run_ecb k n : forall v d, run_out k 0 0 v n d = ecb (spec_crypt (ERK k)) n d.
Proof. induction n as [|n IH]; intros v d; [done|]. cbn [run_out ecb]. by rewrite IH. Qed.
Lemma run_cbc k n : forall v d, run_out k 0 1 v n d = cbc (spec_crypt (ERK k)) v n d.
Proof. induction n as [|n IH]; intros v d; [done|]. cbn [run_out cbc]. by rewrite IH. Qed.
Lemma run_unecb k n : forall v d, run_out k 1 0 v n d = ecb (spec_crypt (DRK k)) n d.
Proof. induction n as [|n IH]; intros v d; [done|]. cbn [run_out ecb]. by rewrite IH. Qed.
Lemma run_uncbc k n : forall v d, run_out k 1 1 v n d = decbc (spec_crypt (DRK k)) v n d.
Proof. induction n as [|n IH]; intros v d; [done|]. cbn [run_out decbc]. by rewrite IH. Qed.
Lemma run_mac k n : forall v d, run_iv k 2 1 v n d = cbc_iv (spec_crypt (ERK k)) v n d.
Proof. induction n as [|n IH]; intros v d; [done|]. cbn [run_iv cbc_iv]. by rewrite IH. Qed.

(** ** The update loop *)

(** The output buffer after [x] was stored at [q]. *)
Definition out_after (out : option (list Z)) (q : nat) (x : list Z) : option (list Z) :=
  (fun b => splice b q x) <$> out.

(** Room for what the call produces; nothing is needed for a MAC. *)
Definition room (fl : Z) (out : option (list Z)) (cap need : Z) : Prop :=
  need < 2 ^ 31 /\ match out with
  | Some b => need <= cap /\ cap <= Z.of_nat (length b)
  | None => fl = 2
  end.

(** The loop variables, [q] bytes having been produced. *)
Record at_pos (k : SM4_KEY) (md pt : Z) (s : upd) (v d : list Z) (q : nat) (out : option (list Z)) : Prop := {
  p_err : u_err s = false;
  p_holds : holds k md pt (u_obj s) v d;
  p_nOut : u_nOut s = Z.of_nat q;
  p_pE : u_pE s = Z.of_nat q;
  p_out : u_out s = out
}.

Lemma out_after_nil out q cap need fl : room fl out cap need -> Z.of_nat q <= need -> out_after out q [] = out.
Proof.
  intros [_ H] Hq. destruct out as [b|]; [|done]. simpl. f_equal. apply splice_nil. lia.
Qed.

Lemma out_after_app fl out q x y cap need :
  room fl out cap need -> Z.of_nat (q + length x + length y) <= need ->
  out_after (out_after out q x) (q + length x) y = out_after out q (x ++ y).
Proof.
  intros [_ H] Hq. destruct out as [b|]; [|done]. simpl. f_equal. apply splice_splice. lia.
Qed.

Lemma upd_block_ok k fl md pt s d v q cap :
  usable k fl md -> key (u_obj s) = k -> mode (u_obj s) = md -> padtype (u_obj s) = pt ->
  left (u_obj s) = d -> length d = 16%nat -> ivtmp (u_obj s) = v -> length v = 4%nat ->
  u_nOut s = Z.of_nat q -> u_pE s = Z.of_nat q ->
  let x := blk_out k fl md v (words4 d) in
  room fl (u_out s) cap (Z.of_nat q + Z.of_nat (length x)) ->
  exists s', upd_block fl cap s = Ret s' /\ u_len s' = u_len s /\ u_in s' = u_in s /\
    at_pos k md pt s' (blk_iv k fl md v (words4 d)) [] (q + length x) (out_after (u_out s) q x).
Proof.
  intros [HE HD Hf Hm] Hk Hmd Hpt Hd Hl Hv Hlv Hn Hp x Hr. destruct s as [o len i pE nOut out pre err].
  cbn [u_obj u_len u_in u_pE u_nOut u_out u_pre] in *. unfold upd_block.
  cbn [u_obj u_len u_in u_pE u_nOut u_out u_pre]. rewrite Hd, get4_ok by lia.
  rewrite bind_ret_l. change (Z.to_nat 0) with 0%nat.
  replace (slice 0 16 d) with d by (by rewrite <- Hl, slice_all). rewrite Hk, Hmd, Hv.
  assert (forall t, holds k md pt (set_left (set_iv o (iv o) t) (left o) 0) t [] <-> length t = 4%nat) as Hh.
  { intros t. split; [apply h_ivlen|]. intros Ht. split; simpl; rewrite ?Hd; done || lia. }
  unfold x in *. clear x. unfold blk_out, blk_iv in *. destruct Hr as [Hr1 Hr].
  destruct Hf as [->|[->| ->]]; cbn [Z.eqb Pos.eqb] in *; cbv iota in *.
  - rewrite enc_tmp_ok by (done || by destruct (md =? 0)). rewrite bind_ret_l.
    destruct out as [b|]; [|done]. rewrite length_bytes4 in *.
    rewrite Hn, int_checked_id by (unfold is_int; lia). rewrite bind_ret_l.
    replace (Z.of_nat q + 16 <=? cap) with true by lia. unfold put_out.
    rewrite Hp, put4_ok by lia. rewrite !bind_ret_l. eexists. split; [reflexivity|].
    split; [done|split; [done|]]. split; simpl; [done|apply Hh, length_spec_crypt|lia|lia|].
    by rewrite Nat2Z.id.
  - rewrite dec_tmp_ok by done. rewrite bind_ret_l.
    destruct out as [b|]; [|done]. rewrite length_bytes4 in *.
    rewrite Hn, int_checked_id by (unfold is_int; lia). rewrite bind_ret_l.
    replace (Z.of_nat q + 16 <=? cap) with true by lia. unfold put_out.
    rewrite Hp, put4_ok by lia. rewrite !bind_ret_l. eexists. split; [reflexivity|].
    split; [done|split; [done|]].
    destruct Hm as [->| ->]; split; simpl; rewrite ?Nat2Z.id; try done; try lia; by apply Hh.
  - rewrite enc_tmp_ok by (done || by destruct (md =? 0)). rewrite bind_ret_l.
    eexists. split; [reflexivity|]. split; [done|split; [done|]].
    split; simpl; [done|apply Hh, length_spec_crypt|lia|lia|].
    symmetry. eapply out_after_nil; [split; [exact Hr1|exact Hr]|simpl; lia].
Qed.

Lemma room_mono fl out cap need need' : room fl out cap need -> need' <= need -> room fl out cap need'.
Proof. intros [H1 H2] H. split; [lia|]. destruct out; [lia|done]. Qed.

Lemma room_after fl out cap need q x : room fl out cap need -> Z.of_nat (q + length x) <= need ->
  room fl (out_after out q x) cap need.
Proof.
  intros [H1 H2] H. split; [done|]. destruct out as [b|]; [|done]. simpl.
  rewrite length_splice; lia.
Qed.

(** The number of bytes taken by a turn, and the contents of [left] after it. *)
Lemma upd_step_copy k md pt s v d q out inp fl cap :
  at_pos k md pt s v d q out -> 0 < u_len s -> 0 <= u_in s ->
  u_in s + u_len s <= Z.of_nat (length inp) ->
  let n := Nat.min (16 - length d) (Z.to_nat (u_len s)) in
  let x := slice (Z.to_nat (u_in s)) n inp in
  let o := set_left (u_obj s) (splice (left (u_obj s)) (length d) x) (Z.of_nat (length d + n)) in
  let s1 := mk_upd o (u_len s - Z.of_nat n) (u_in s + Z.of_nat n) (u_pE s) (u_nOut s) (u_out s)
              (u_pre s) false in
  length x = n /\ upd_step inp fl cap s = (if (length d + n =? 16)%nat then upd_block fl cap s1 else Ret s1).
Proof.
  intros [He [Hk Hm Hp Hl Hs Hlt Hd Hv Hvl] _ _ _] H0 Hi Hlen n x o s1.
  assert (length x = n) as Hx by (apply length_slice; lia).
  split; [done|]. unfold upd_step. rewrite Hs.
  replace (if 0 <? Z.of_nat (length d) then 16 - Z.of_nat (length d) else 16)
    with (16 - Z.of_nat (length d)) by (destruct (Z.ltb_spec 0 (Z.of_nat (length d))); lia).
  replace (if u_len s <? 16 - Z.of_nat (length d) then u_len s else 16 - Z.of_nat (length d))
    with (Z.of_nat n) by (destruct (Z.ltb_spec (u_len s) (16 - Z.of_nat (length d))); lia).
  rewrite memcpy_ok by lia. rewrite bind_ret_l, !Nat2Z.id. fold x.
  assert (u8 (Z.of_nat (length d) + u8 (Z.of_nat n)) = Z.of_nat (length d + n)) as ->.
  { unfold u8. rewrite (Z.mod_small (Z.of_nat n)), Z.mod_small by lia. lia. }
  cbn [set_left leftsize]. fold o. fold s1.
  destruct (Nat.eqb_spec (length d + n) 16), (Z.eqb_spec (Z.of_nat (length d + n)) 16); lia || done.
Qed.

Definition upd_more (s : upd) : bool := negb (u_err s) && (0 <? u_len s).

Lemma upd_loop_ok k fl md pt inp cap : usable k fl md -> forall fuel s v d q out,
  at_pos k md pt s v d q out -> 0 <= u_len s <= Z.of_nat fuel -> 0 <= u_in s ->
  u_in s + u_len s <= Z.of_nat (length inp) ->
  let x := d ++ slice (Z.to_nat (u_in s)) (Z.to_nat (u_len s)) inp in
  let n := (length x / 16)%nat in let y := run_out k fl md v n x in
  room fl out cap (Z.of_nat (q + length y)) ->
  exists s', cwhile fuel upd_more (upd_step inp fl cap) s = Ret s' /\
    at_pos k md pt s' (run_iv k fl md v n x) (drop (16 * n) x) (q + length y) (out_after out q y).
Proof.
  intros Hu. induction fuel as [|fuel IH]; intros s v d q out Hs Hlen Hi Hin x n y Hr;
    pose proof (h_lt _ _ _ _ _ _ (p_holds _ _ _ _ _ _ _ _ Hs)) as Hlt;
    (destruct (Z.eq_dec (u_len s) 0) as [H0|H0]; [|]).
  1, 3: assert (x = d) as Ex by (unfold x; rewrite H0; apply app_nil_r);
    assert (n = 0%nat) as En by (unfold n; rewrite Ex; by apply Nat.div_small);
    exists s; split; [apply cwhile_stop; unfold upd_more; rewrite H0; apply andb_false_r|];
    unfold y in *; rewrite En, Ex in *; simpl in *; rewrite Nat.add_0_r in *;
    erewrite out_after_nil by (exact Hr || lia); exact Hs.
  1: lia.
  destruct (upd_step_copy k md pt s v d q out inp fl cap Hs ltac:(lia) Hi Hin) as [Hxl Hstep].
  set (nU := Nat.min (16 - length d) (Z.to_nat (u_len s))) in *.
  set (x1 := slice (Z.to_nat (u_in s)) nU inp) in *.
  set (s1 := mk_upd _ _ _ _ _ _ _ _) in *.
  assert (x = (d ++ x1) ++ slice (Z.to_nat (u_in s) + nU) (Z.to_nat (u_len s) - nU) inp) as Ex.
  { unfold x, x1. rewrite <- app_assoc. f_equal. rewrite <- slice_plus. f_equal. lia. }
  destruct Hs as [He [Hk Hm Hp Hl Hsz _ Hd Hv Hvl] Hn HpE Ho].
  assert (take (length d + nU) (left (u_obj s1)) = d ++ x1) as Hleft.
  { simpl. rewrite <- Hxl, take_splice by lia. by rewrite Hd. }
  assert (length (left (u_obj s1)) = 16%nat) as Hl1 by (simpl; rewrite length_splice; lia).
  assert (upd_more s = true) as Hmore by (unfold upd_more; rewrite He; simpl; lia).
  destruct (Nat.eqb_spec (length d + nU) 16) as [E16|E16].
  - assert (left (u_obj s1) = d ++ x1) as Hleft' by (rewrite <- Hleft; symmetry; apply take_ge; lia).
    assert (length (d ++ x1) = 16%nat) as Hb by (rewrite length_app; lia).
    set (rest := slice _ _ inp) in Ex.
    assert (n = S (length rest / 16)) as En.
    { unfold n. rewrite Ex, length_app, Hb. replace (16 + length rest)%nat with (length rest + 1 * 16)%nat by lia.
      rewrite Nat.div_add by lia. lia. }
    assert (take 16 x = d ++ x1 /\ drop 16 x = rest) as [Et Edr]
      by (rewrite Ex; split; [by apply take_app_length'|by apply drop_app_length']).
    set (z := blk_out k fl md v (words4 (d ++ x1))).
    set (v1 := blk_iv k fl md v (words4 (d ++ x1))).
    assert (y = z ++ run_out k fl md v1 (length rest / 16) rest) as Ey
      by (unfold y; rewrite En; cbn [run_out]; by rewrite Et, Edr).
    destruct (upd_block_ok k fl md pt s1 (d ++ x1) v q cap) as (s2 & Hb2 & Hlen2 & Hin2 & Hs2);
      [done|done|done|done|done|done|done|done|done|done| |].
    { fold z. simpl u_out. rewrite Ho. eapply room_mono; [exact Hr|]. rewrite Ey, length_app. lia. }
    fold z v1 in Hs2. simpl u_out in Hs2. rewrite Ho in Hs2. simpl in Hlen2, Hin2.
    edestruct (IH s2) as (s' & Hrun & Hs'); [exact Hs2|rewrite Hlen2; lia|rewrite Hin2; lia| | |].
    { rewrite Hlen2, Hin2. lia. }
    { rewrite Hlen2, Hin2, app_nil_l. rewrite Z2Nat.inj_add, Z2Nat.inj_sub, Nat2Z.id by lia. fold rest.
      apply room_after; [|lia].
      eapply room_mono; [exact Hr|]. rewrite Ey, length_app. lia. }
    rewrite Hlen2, Hin2, app_nil_l in Hs'. rewrite Z2Nat.inj_add, Z2Nat.inj_sub, Nat2Z.id in Hs' by lia.
    fold rest in Hs'. exists s'. split.
    { erewrite cwhile_step; [exact Hrun|done|]. rewrite Hstep. exact Hb2. }
    erewrite out_after_app in Hs'; [|exact Hr|rewrite Ey, length_app; lia].
    rewrite <- Ey in Hs'. replace (q + length z + _)%nat with (q + length y)%nat in Hs'
      by (rewrite Ey, length_app; lia).
    rewrite En. cbn [run_iv]. rewrite Et, Edr. fold v1.
    replace (drop (16 * S _) x) with (drop (16 * (length rest / 16)) rest); [exact Hs'|].
    rewrite <- Edr, drop_drop. f_equal. lia.
  - assert (nU = Z.to_nat (u_len s)) as EnU by lia.
    assert (x = d ++ x1) as Ex' by (rewrite Ex, EnU, Nat.sub_diag, slice_0; apply app_nil_r).
    assert (n = 0%nat) as En by (unfold n; rewrite Ex', length_app; apply Nat.div_small; lia).
    exists s1. split.
    { erewrite cwhile_step; [|done|exact Hstep]. apply cwhile_stop. unfold upd_more. simpl.
      apply Z.ltb_ge. lia. }
    unfold y in *. rewrite En in *. simpl in *. rewrite Nat.add_0_r in *.
    erewrite out_after_nil by (exact Hr || lia). rewrite drop_0, Ex'.
    split; simpl; [done| |done|done|done].
    split; simpl; try done; rewrite ?length_app; try lia. by rewrite Hxl.
Qed.

(** ** The three calls *)

Lemma UpdateBlock_ok k fl md pt junk o v d inp inlen out outlen :
  usable k fl md -> holds k md pt o v d -> 0 <= inlen <= Z.of_nat (length inp) ->
  fl = 2 \/ (out <> None /\ outlen <> None) ->
  let x := d ++ take (Z.to_nat inlen) inp in
  let n := (length x / 16)%nat in let y := run_out k fl md v n x in
  room fl out (default 0 outlen) (Z.of_nat (length y)) ->
  exists o', sm4_UpdateBlock junk (Some o) (Some inp) inlen out outlen fl =
      Ret (0, Some o', out_after out 0 y,
           if outlen is Some _ then Some (Z.of_nat (length y)) else None) /\
    holds k md pt o' (run_iv k fl md v n x) (drop (16 * n) x).
Proof.
  intros Hu Ho Hl Hn x n y Hr. unfold sm4_UpdateBlock.
  replace (negb (fl =? 2) && _) with false.
  2:{ symmetry. apply andb_false_iff. destruct (Z.eqb_spec fl 2); [by left|right].
      destruct Hn as [|[H1 H2]]; [done|]. by rewrite !bool_decide_eq_false_2. }
  destruct (upd_loop_ok k fl md pt inp (default 0 outlen) Hu (Z.to_nat inlen)
    (mk_upd o inlen 0 0 0 out junk false) v d 0 out) as (s' & Hrun & [He Hh HnO _ Hout]);
    [by split|simpl; lia|simpl; lia|simpl; lia|exact Hr|].
  change (slice (Z.to_nat 0) (Z.to_nat inlen) inp) with (take (Z.to_nat inlen) inp) in *.
  change (fun s => negb (u_err s) && (0 <? u_len s)) with upd_more.
  exists (u_obj s'). cbn [u_in u_len] in Hrun, Hh, HnO, Hout. rewrite Hrun, bind_ret_l, He.
  split; [|exact Hh]. rewrite HnO, Hout. reflexivity.
Qed.

(** A key that [sm4_InitBlock] sets. *)
Definition init_key (o : SM4_KEY_OBJ) (kb : list Z) (fl : Z) : SM4_KEY :=
  let rk := spec_rk (quad_of (words4 kb)) in
  {| ERK := rk; DRK := if fl =? 0 then DRK (key o) else reverse rk; MK := words4 kb |}.

(** The declared sizes of the object's arrays. *)
Definition obj_sizes (o : SM4_KEY_OBJ) : Prop :=
  key_sizes (key o) /\ length (iv o) = 16%nat /\ length (ivtmp o) = 4%nat /\ length (left o) = 16%nat.

Lemma InitBlock_ok junk o kb fl md padding ivb :
  obj_sizes o -> length junk = 36%nat -> Forall is_u8 kb -> (16 <= length kb)%nat ->
  0 <= fl <= 2 -> md = 0 \/ md = 1 -> (md = 1 -> exists b, ivb = Some b /\ (16 <= length b)%nat) ->
  exists o', sm4_InitBlock junk (Some o) (Some kb) fl md padding ivb = Ret (0, Some o') /\
    holds (init_key o kb fl) md (if padding =? 0 then 0 else 1) o'
      (if md =? 0 then ivtmp o else words4 (take 16 (default [] ivb))) [].
Proof.
  intros (Hk & Hi & Ht & Hl) Hj Hu Hkl Hf Hm Hiv. unfold sm4_InitBlock.
  replace ((fl <? 0) || (2 <? fl) || (md <? 0) || (2 <? md)) with false
    by (symmetry; rewrite !orb_false_iff; repeat split; apply Z.ltb_ge; destruct Hm; lia).
  rewrite SetKey_ok by done. rewrite bind_ret_l. cbv beta iota. simpl negb. cbv iota.
  change {| ERK := _ |} with (init_key o kb fl). unfold memset. rewrite decide_True by lia.
  assert (u8 md = md) as Em by (destruct Hm; subst; reflexivity).
  destruct Hm as [->| ->]; simpl Z.ltb; cbv iota; cbn [left].
  - rewrite buf_write_ok by (rewrite ?length_replicate; lia). rewrite bind_ret_l.
    eexists. split; [reflexivity|]. split; try reflexivity; try done; try (simpl; lia).
    cbn [left set_left set_iv]. rewrite length_splice; rewrite ?length_replicate; lia.
  - destruct (Hiv eq_refl) as (b & -> & Hb). rewrite memcpy_ok by (simpl; lia). rewrite bind_ret_l.
    rewrite get4_ok by lia. rewrite bind_ret_l. cbn [left].
    rewrite buf_write_ok by (rewrite ?length_replicate; lia). rewrite bind_ret_l.
    eexists. split; [reflexivity|]. split; try reflexivity; try done; try (simpl; lia).
    cbn [left set_left set_iv]. rewrite length_splice; rewrite ?length_replicate; lia.
Qed.

(** The last block as [sm4_FinalBlock] completes it. *)
Lemma final_left o d pt fl k md v :
  holds k md pt o v d -> (0 < length d)%nat \/ pt = 1 -> pt = 0 \/ pt = 1 -> fl = 0 \/ fl = 2 ->
  memset (left o) (Z.of_nat (length d))
    (if negb (pt =? 0) && (fl =? 0) then 16 - Z.of_nat (length d) else 0) (16 - Z.of_nat (length d)) =
  Ret (pad_msg (if fl =? 0 then pt else 0) d) \/ (fl = 2 /\ d = []).
Proof.
  intros [_ _ _ Hl _ Hlt Hd _ _] H0 Hp Hf. destruct (decide (fl = 2 /\ d = [])) as [|Hne]; [by right|left].
  unfold memset. rewrite decide_True, buf_write_ok by (rewrite ?length_replicate; lia). f_equal.
  unfold splice. rewrite Nat2Z.id, Hd, length_replicate. rewrite (drop_ge (left o)), app_nil_r by lia.
  unfold pad_msg, pad_len. rewrite (Nat.mod_small (length d) 16) by lia. f_equal.
  destruct Hf as [->| ->]; cbn [Z.eqb Pos.eqb andb negb].
  - destruct Hp as [->| ->]; cbn [Z.eqb Pos.eqb andb negb].
    + rewrite Nat.mod_small by lia. f_equal. lia.
    + rewrite Nat2Z.inj_sub by lia. f_equal. lia.
  - rewrite andb_false_r.
    assert (length d <> 0)%nat by (intros E; apply Hne; split; [done|by apply length_zero_iff_nil]).
    rewrite Nat.mod_small by lia. f_equal. lia.
Qed.

Lemma pad_block pt d : pt = 0 \/ pt = 1 -> (length d < 16)%nat -> (0 < length d)%nat \/ pt = 1 ->
  length (pad_msg pt d) = 16%nat /\ nblocks (pad_msg pt d) = 1%nat.
Proof.
  intros Hp Hd H. pose proof (pad_cases pt d) as (_ & _ & [(H1 & H2 & _)|(-> & H1 & _)]).
  - rewrite (Nat.mod_small (length d) 16), (Nat.div_small (length d) 16) in * by lia. split; [|done].
    unfold pad_msg. rewrite length_app, length_replicate. lia.
  - rewrite Nat.mod_small in H1 by lia. lia.
Qed.

(** The encryption or MAC of the completed block. *)
Lemma final_crypt_ok tmpOut k fl md pt o v b ob ol :
  usable k fl md -> fl <> 1 -> key o = k -> mode o = md -> ivtmp o = v -> left o = b ->
  length b = 16%nat -> length v = 4%nat -> 16 <= ol <= Z.of_nat (length ob) ->
  padtype o = pt ->
  exists o', final_crypt tmpOut o ob ol fl =
    Ret (0, Some o', Some (splice ob 0 (bytes4 (blk_iv k fl md v (words4 b)))), Some 16).
Proof.
  intros [HE _ _ _] Hf Hk Hm Hv Hb Hl Hvl Ho _. unfold final_crypt. rewrite Hb, get4_ok by lia.
  rewrite bind_ret_l. change (slice (Z.to_nat 0) 16 b) with (take 16 b). rewrite take_ge by lia.
  replace (fl =? 1) with false by lia. rewrite Hk, Hm, Hv.
  rewrite enc_tmp_ok by (done || by destruct (md =? 0)). rewrite bind_ret_l.
  replace (16 <=? ol) with true by lia. rewrite put4_ok by lia. rewrite bind_ret_l.
  eexists. unfold blk_iv. by replace (fl =? 1) with false by lia.
Qed.

Lemma FinalBlock_enc_ok tmpOut k md pt o v d ob ol :
  usable k 0 md -> holds k md pt o v d -> pt = 0 \/ pt = 1 ->
  16 <= ol <= Z.of_nat (length ob) ->
  let p := pad_msg pt d in let y := run_out k 0 md v (nblocks p) p in
  exists o', sm4_FinalBlock tmpOut (Some o) None 0 (Some ob) (Some ol) 0 =
    Ret (0, Some o', Some (splice ob 0 y), Some (Z.of_nat (length y))).
Proof.
  intros Hu Hh Hp Ho p y. pose proof Hh as [Hk Hm Hpt Hl Hs Hlt Hd Hv Hvl]. unfold sm4_FinalBlock.
  rewrite Hs, Z.add_0_l, int_checked_id by (unfold is_int; lia). rewrite bind_ret_l.
  replace (16 <? Z.of_nat (length d)) with false by lia. rewrite andb_false_r, Hpt.
  destruct (decide ((0 < length d)%nat \/ pt = 1)) as [Hne|Hne].
  - replace ((Z.of_nat (length d) =? 0) && (pt =? 0)) with false
      by (symmetry; apply andb_false_iff; destruct Hne; [left|right]; lia).
    cbn [Z.eqb andb defined]. rewrite !bind_ret_l.
    replace (Z.of_nat (length d) <? 16) with true by lia.
    destruct (final_left o d pt 0 k md v Hh Hne Hp ltac:(by left)) as [E|[? _]]; [|done].
    cbn [Z.eqb] in E. rewrite E, bind_ret_l. fold p.
    destruct (pad_block pt d Hp Hlt Hne) as [Hp16 Hn1]. fold p in Hp16, Hn1.
    destruct (final_crypt_ok tmpOut k 0 md pt (set_left o p (Z.of_nat (length d))) v p ob ol Hu)
      as [o' Ho']; try done.
    exists o'. rewrite Ho'. unfold y. rewrite Hn1. cbn [run_out]. rewrite app_nil_r.
    rewrite (take_ge p) by lia. reflexivity.
  - assert (pt = 0) as -> by lia. assert (d = []) as -> by (apply length_zero_iff_nil; lia).
    exists o. cbn. rewrite splice_nil by lia. reflexivity.
Qed.

Lemma FinalBlock_mac_ok tmpOut k md pt o v d ob ol :
  usable k 2 md -> holds k md pt o v d -> pt = 0 \/ pt = 1 ->
  16 <= ol <= Z.of_nat (length ob) ->
  let p := pad_msg 0 d in
  exists o', sm4_FinalBlock tmpOut (Some o) None 0 (Some ob) (Some ol) 2 =
    Ret (0, Some o', Some (splice ob 0 (bytes4 (run_iv k 2 md v (nblocks p) p))), Some 16).
Proof.
  intros Hu Hh Hp Ho p. pose proof Hh as [Hk Hm Hpt Hl Hs Hlt Hd Hv Hvl]. unfold sm4_FinalBlock.
  rewrite Hs, Z.add_0_l, int_checked_id by (unfold is_int; lia). rewrite bind_ret_l.
  replace (16 <? Z.of_nat (length d)) with false by lia. simpl (2 =? 2). rewrite andb_true_r.
  destruct (decide (d = [])) as [->|Hne].
  - cbn [length Z.of_nat Z.eqb]. replace (ol <? 16) with false by lia.
    rewrite put4_ok by lia. rewrite bind_ret_l, Hv. exists o. reflexivity.
  - assert (0 < length d)%nat as H0 by (destruct d; simpl; [done|lia]).
    replace (Z.of_nat (length d) =? 0) with false by lia.
    cbn [Z.eqb Pos.eqb andb defined]. rewrite !bind_ret_l.
    replace (Z.of_nat (length d) <? 16) with true by lia.
    destruct (final_left o d pt 2 k md v Hh ltac:(by left) Hp ltac:(by right)) as [E|[_ ?]]; [|done].
    rewrite <- Hpt in E. cbn [Z.eqb Pos.eqb] in E. rewrite E, bind_ret_l. fold p.
    destruct (pad_block 0 d ltac:(by left) Hlt ltac:(by left)) as [Hp16 Hn1]. fold p in Hp16, Hn1.
    destruct (final_crypt_ok tmpOut k 2 md pt (set_left o p (Z.of_nat (length d))) v p ob ol Hu)
      as [o' Ho']; try done.
    exists o'. rewrite Ho'. rewrite Hn1. cbn [run_iv]. rewrite (take_ge p) by lia. reflexivity.
Qed.

(** The last ciphertext block: its text and the verdict on its padding. *)
Lemma FinalBlock_dec_ok tmpOut k md pt o v d inp inlen ob ol :
  usable k 1 md -> holds k md pt o v d -> pt = 0 \/ pt = 1 -> length tmpOut = 16%nat ->
  0 <= inlen <= Z.of_nat (length inp) -> let b := take (Z.to_nat inlen) inp in
  (length d + length b = 16)%nat -> 16 <= ol <= Z.of_nat (length ob) ->
  let t := blk_out k 1 md v (words4 (d ++ b)) in let '(r, n) := spec_unpad pt t ol in
  exists o', sm4_FinalBlock tmpOut (Some o) (Some inp) inlen (Some ob) (Some ol) 1 =
    Ret (r, Some o', Some (if r =? 0 then splice ob 0 (take (Z.to_nat n) t) else ob), Some n).
Proof.
  intros Hu Hh Hp Ht Hin b Hb Ho t. pose proof Hh as [Hk Hm Hpt Hl Hs Hlt Hd Hv Hvl].
  assert (Z.of_nat (length b) = inlen) as Hbl by (unfold b; rewrite length_take; lia).
  assert (sm4_FinalBlock tmpOut (Some o) (Some inp) inlen (Some ob) (Some ol) 1 =
    final_unpad (set_left o (d ++ b) (Z.of_nat (length d))) t ob ol) as ->.
  { unfold sm4_FinalBlock. rewrite Hs, int_checked_id by (unfold is_int; lia). rewrite bind_ret_l.
    replace (inlen + Z.of_nat (length d)) with 16 by lia.
    cbn [Z.eqb Z.ltb Z.compare Pos.compare Pos.compare_cont Pos.eqb andb orb negb].
    rewrite bool_decide_eq_false_2 by done. cbn [andb orb].
    rewrite memcpy_ok by lia. rewrite !bind_ret_l. rewrite !Nat2Z.id.
    change (slice (Z.to_nat 0) (Z.to_nat inlen) inp) with b.
    replace (splice (left o) (length d) b) with (d ++ b)
      by (unfold splice; rewrite Hd, drop_ge, app_nil_r by lia; done).
    unfold final_crypt. assert (length (d ++ b) = 16%nat) as Hl16 by (rewrite length_app; lia).
    cbn [left set_left mode key ivtmp]. rewrite get4_ok by lia. rewrite bind_ret_l.
    change (slice (Z.to_nat 0) 16 (d ++ b)) with (take 16 (d ++ b)). rewrite take_ge by lia.
    cbn [Z.eqb Pos.eqb]. destruct Hu as [_ HD _ _]. rewrite Hk, dec_tmp_ok by done.
    rewrite bind_ret_l, put4_ok by lia. rewrite bind_ret_l. change (Z.to_nat 0) with 0%nat.
    rewrite splice_all by (by rewrite length_bytes4). unfold t, blk_out. cbn [Z.eqb Pos.eqb].
    by rewrite Hm, Hv. }
  assert (length t = 16%nat) as Htl by done.
  pose proof (unpad_ok t t pt ol Hp ltac:(lia) ltac:(by rewrite take_ge by lia)) as Hun.
  rewrite Htl in Hun. change (Z.of_nat 16) with 16 in Hun. unfold unpad in Hun.
  change (16 - 1) with 15 in Hun. unfold final_unpad.
  destruct (spec_unpad pt t ol) as [r n] eqn:Er. cbn [padtype set_left]. rewrite Hpt.
  destruct (buf_get t 15) as [last| | | |]; try discriminate. 
  cbn [mbind cpp_bind] in Hun |- *.
  destruct Hp as [->| ->]; cbn [Z.eqb Pos.eqb andb] in Hun |- *.
  - injection Hun as <- <-. cbn [pad_check Z.to_nat]. cbn [mbind cpp_bind].
    replace (16 - 0 <=? ol) with true by lia. rewrite memcpy_ok by lia. rewrite bind_ret_l.
    eexists. reflexivity.
  - destruct ((last <=? 0) || (16 <? last)) eqn:El.
    { injection Hun as <- <-. eexists. reflexivity. }
    apply orb_false_iff in El as [El1%Z.leb_gt El2%Z.ltb_ge].
    destruct (pad_check t 16 last (Z.to_nat last) 1) as [ok| | | |]; try discriminate.
    cbn [mbind cpp_bind] in Hun |- *. destruct ok; injection Hun as <- <-; [|eexists; reflexivity].
    replace (16 - last <=? ol) with true by lia. rewrite memcpy_ok by lia. rewrite bind_ret_l.
    eexists. reflexivity.
Qed.

(** ** Sequences of calls *)

(** One [sm4_UpdateBlock] per piece, each with a fresh buffer that is large
    enough (none for a MAC); the outputs are concatenated. *)
Fixpoint sm4_updates (junk : list Z) (o : option SM4_KEY_OBJ) (chunks : list (list Z)) (fl : Z)
    : cpp (option SM4_KEY_OBJ * list Z) :=
  match chunks with
  | [] => Ret (o, [])
  | d :: ds =>
      let len := Z.of_nat (length d) in
      '(_, o, out, n) ← sm4_UpdateBlock junk o (Some d) len
         (if fl =? 2 then None else Some (replicate (length d + 16) 0))
         (if fl =? 2 then None else Some (len + 16)) fl;
      '(o, rest) ← sm4_updates junk o ds fl;
      Ret (o, take (Z.to_nat (default 0 n)) (default [] out) ++ rest)
  end.

Lemma blocks_split (x rest : list Z) :
  (length (x ++ rest) / 16 =
   length x / 16 + length (drop (16 * (length x / 16)) x ++ rest) / 16)%nat.
Proof.
  rewrite !length_app, length_drop. pose proof (Nat.div_mod_eq (length x) 16) as H.
  pose proof (Nat.mod_upper_bound (length x) 16 ltac:(lia)).
  set (n := (length x / 16)%nat) in *.
  replace (length x + length rest)%nat with ((length x - 16 * n + length rest) + n * 16)%nat by lia.
  rewrite Nat.div_add by lia. lia.
Qed.

Lemma run_split k fl md v x rest :
  let n := (length x / 16)%nat in let z := drop (16 * n) x ++ rest in
  let N := (length (x ++ rest) / 16)%nat in
  run_iv k fl md v N (x ++ rest) = run_iv k fl md (run_iv k fl md v n x) (length z / 16) z /\
  run_out k fl md v N (x ++ rest) =
    run_out k fl md v n x ++ run_out k fl md (run_iv k fl md v n x) (length z / 16) z /\
  drop (16 * N) (x ++ rest) = drop (16 * (length z / 16)) z.
Proof.
  intros n z N. pose proof (blocks_split x rest) as E. fold n z N in E.
  pose proof (Nat.div_mod_eq (length x) 16) as Hx. fold n in Hx.
  assert (drop (16 * n) (x ++ rest) = z) as Ed by (unfold z; by rewrite drop_app_le by lia).
  destruct (run_plus k fl md n (length z / 16) v (x ++ rest)) as [E1 E2].
  rewrite <- E in E1, E2. rewrite E1, E2, Ed. destruct (run_app k fl md n v x rest ltac:(lia)) as [-> ->].
  split_and!; [done|done|]. rewrite E, Nat.mul_add_distr_l, <- drop_drop. by rewrite Ed.
Qed.

Lemma updates_ok k fl md pt junk chunks : usable k fl md -> forall o v d, holds k md pt o v d ->
  let x := d ++ mjoin chunks in let n := (length x / 16)%nat in
  Z.of_nat (length x) + 16 < 2 ^ 31 ->
  exists o', sm4_updates junk (Some o) chunks fl = Ret (Some o', run_out k fl md v n x) /\
    holds k md pt o' (run_iv k fl md v n x) (drop (16 * n) x).
Proof.
  intros Hu. pose proof (us_fl _ _ _ Hu) as Hf. induction chunks as [|c cs IH]; intros o v d Ho x n Hb.
  - exists o. cbn [sm4_updates]. unfold n, x. simpl mjoin. rewrite app_nil_r.
    rewrite Nat.div_small by apply (h_lt _ _ _ _ _ _ Ho). split; [done|exact Ho].
  - pose proof (h_lt _ _ _ _ _ _ Ho) as Hlt.
    assert (x = (d ++ c) ++ mjoin cs) as Ex by (unfold x; simpl mjoin; by rewrite app_assoc).
    pose proof (run_split k fl md v (d ++ c) (mjoin cs)) as Hs. cbv zeta in Hs. rewrite <- Ex in Hs.
    fold n in Hs. destruct Hs as (E1 & E2 & E3). cbn [sm4_updates].
    assert (length x = length d + length c + length (mjoin cs))%nat as Hx
      by (rewrite Ex, !length_app; lia).
    set (m := (length (d ++ c) / 16)%nat) in *. set (y := run_out k fl md v m (d ++ c)) in *.
    assert (length y <= length c + 16)%nat as Hy.
    { unfold y. rewrite length_run_out by done. pose proof (Nat.div_mod_eq (length (d ++ c)) 16) as Hdm.
      fold m in Hdm. rewrite length_app in Hdm. destruct (fl =? 2); lia. }
    destruct (UpdateBlock_ok k fl md pt junk o v d c (Z.of_nat (length c))
      (if fl =? 2 then None else Some (replicate (length c + 16) 0))
      (if fl =? 2 then None else Some (Z.of_nat (length c) + 16)) Hu Ho) as (o1 & Hup & Ho1); [lia| | |].
    { destruct (Z.eqb_spec fl 2); [by left|by right]. }
    { rewrite Nat2Z.id, take_ge by lia. fold m y. split; [lia|].
      destruct (Z.eqb_spec fl 2); simpl; [done|]. rewrite length_replicate. lia. }
    rewrite Nat2Z.id, (take_ge c) in Hup, Ho1 by lia. fold m y in Hup. fold m in Ho1.
    rewrite Hup, bind_ret_l. cbv beta iota.
    destruct (IH o1 _ _ Ho1) as (o2 & Hr & Ho2).
    { rewrite length_app, length_drop, length_app. lia. }
    rewrite Hr, bind_ret_l. cbv beta iota. exists o2. rewrite <- E1, <- E3 in Ho2. split; [|exact Ho2].
    rewrite E2. do 2 f_equal. f_equal. destruct (Z.eqb_spec fl 2) as [->|Hne].
    + unfold y. symmetry. apply length_zero_iff_nil. by rewrite length_run_out by auto.
    + simpl default. rewrite Nat2Z.id. unfold splice. rewrite take_0. simpl app. by rewrite take_app_length.
Qed.

Lemma pad_msg_split pt m : let n := (length m / 16)%nat in
  pad_msg pt m = take (16 * n) m ++ pad_msg pt (drop (16 * n) m) /\
  nblocks (pad_msg pt m) = (n + nblocks (pad_msg pt (drop (16 * n) m)))%nat.
Proof.
  intros n. pose proof (Nat.div_mod_eq (length m) 16) as Hd. fold n in Hd.
  pose proof (Nat.mod_upper_bound (length m) 16 ltac:(lia)) as Hm.
  assert (pad_len pt (length (drop (16 * n) m)) = pad_len pt (length m)) as E.
  { unfold pad_len. rewrite length_drop. replace (length m - 16 * n)%nat with (length m mod 16)%nat by lia.
    by rewrite Nat.Div0.mod_mod. }
  split.
  - unfold pad_msg. rewrite E, app_assoc. by rewrite take_drop.
  - unfold nblocks, pad_msg. rewrite !length_app, !length_replicate, E, length_drop.
    replace (length m + pad_len pt (length m))%nat with
      ((length m - 16 * n + pad_len pt (length m)) + n * 16)%nat by lia.
    rewrite Nat.div_add by lia. lia.
Qed.

(** A run over the whole blocks of [m] and then over its padded end. *)
Lemma run_pad k fl md v pt m : let n := (length m / 16)%nat in let e := pad_msg pt (drop (16 * n) m) in
  let p := pad_msg pt m in
  run_out k fl md v (nblocks p) p =
    run_out k fl md v n m ++ run_out k fl md (run_iv k fl md v n m) (nblocks e) e /\
  run_iv k fl md v (nblocks p) p = run_iv k fl md (run_iv k fl md v n m) (nblocks e) e.
Proof.
  intros n e p. destruct (pad_msg_split pt m) as [Ep En]. fold n e p in Ep, En. rewrite En.
  pose proof (Nat.div_mod_eq (length m) 16) as Hd. fold n in Hd.
  assert (length (take (16 * n) m) = 16 * n)%nat as Hl by (rewrite length_take; lia).
  destruct (run_plus k fl md n (nblocks e) v p) as [-> ->].
  assert (run_iv k fl md v n p = run_iv k fl md v n m /\ run_out k fl md v n p = run_out k fl md v n m)
    as [-> ->].
  { rewrite Ep. destruct (run_app k fl md n v (take (16 * n) m) e ltac:(lia)) as [-> ->].
    destruct (run_app k fl md n v (take (16 * n) m) (drop (16 * n) m) ltac:(lia)) as [<- <-].
    by rewrite take_drop. }
  replace (drop (16 * n) p) with e by (rewrite Ep; by rewrite drop_app_length' by lia). done.
Qed.

(** A decryption run over the ciphertext of a padded message, cut before its
    last block ends: the text of the first blocks and of the last one. *)
Lemma decrypt_pieces k md v m d lastb : let p := pad_msg 1 m in
  length (d ++ lastb) = (16 * nblocks p)%nat -> (1 <= length lastb <= 16)%nat ->
  run_out k 1 md v (nblocks p) (d ++ lastb) = p ->
  let n := (length d / 16)%nat in let e := drop (16 * n) d in
  (length e + length lastb = 16)%nat /\
  run_out k 1 md v n d = take (16 * n) m /\
  blk_out k 1 md (run_iv k 1 md v n d) (words4 (e ++ lastb)) = pad_msg 1 (drop (16 * n) m).
Proof.
  intros p Hcl Hlb Hrun n e. rewrite length_app in Hcl.
  pose proof (Nat.div_mod_eq (length d) 16) as Hd. fold n in Hd.
  pose proof (Nat.mod_upper_bound (length d) 16 ltac:(lia)) as Hdm.
  assert (nblocks p = S n) as En by lia.
  assert (length e + length lastb = 16)%nat as He by (unfold e; rewrite length_drop; lia).
  pose proof (run_split k 1 md v d lastb) as (_ & Es & _). fold n e in Es.
  rewrite length_app in Es. replace ((length d + length lastb) / 16)%nat with (nblocks p) in Es
    by (rewrite Hcl, Nat.mul_comm, Nat.div_mul; lia).
  rewrite Hrun, length_app, He in Es. change (16 / 16)%nat with 1%nat in Es. cbn [run_out] in Es.
  rewrite app_nil_r, (take_ge (e ++ lastb)) in Es by (rewrite length_app; lia).
  destruct (pad_msg_split 1 m) as [Ep Enb]. fold p in Ep, Enb.
  pose proof (Nat.div_mod_eq (length m) 16). pose proof (Nat.mod_upper_bound (length m) 16 ltac:(lia)).
  assert (nblocks (pad_msg 1 (drop (16 * (length m / 16)) m)) = 1)%nat as E1.
  { apply (pad_block 1); [by right| |by right]. rewrite length_drop. lia. }
  assert (length m / 16 = n)%nat as Emn by lia. rewrite Emn in Ep. rewrite Ep in Es.
  symmetry in Es. apply app_inj_1 in Es as [Ex Et]; [by split_and!|].
  rewrite length_run_out by (by right; left). rewrite length_take. simpl. lia.
Qed.

(** ** Properties *)

Lemma init_key_usable o kb fl op md : obj_sizes o -> 0 <= fl <= 2 -> op = 0 \/ op = 1 \/ op = 2 ->
  md = 0 \/ md = 1 -> usable (init_key o kb fl) op md.
Proof.
  intros ((_ & HD & _) & _) Hf Hop Hm. split; [apply length_spec_rk| |done|done].
  unfold init_key. simpl. destruct (fl =? 0); [done|]. by rewrite length_reverse, length_spec_rk.
Qed.

Lemma ERK_init_key o kb fl : ERK (init_key o kb fl) = spec_rk (quad_of (words4 kb)).
Proof. unfold init_key. cbv zeta. cbn [ERK]. reflexivity. Qed.

Lemma init_key_ok o kb fl : fl <> 0 -> key_ok (init_key o kb fl).
Proof.
  intros Hf. split; [apply length_spec_rk|]. unfold init_key. simpl. by replace (fl =? 0) with false by lia.
Qed.

(** The chaining words after [sm4_InitBlock]. *)
Definition start_iv (o : SM4_KEY_OBJ) (md : Z) (ivb : option (list Z)) : list Z :=
  if md =? 0 then ivtmp o else words4 (take 16 (default [] ivb)).

(** C5: encrypting in pieces is encrypting at once: [sm4_InitBlock], any
    sequence of [sm4_UpdateBlock] and [sm4_FinalBlock] output, together, exactly
    the ECB or CBC ciphertext of the padded concatenation, with the key schedule
    of the standard; every call returns 0. *)
Theorem sm4_stream_encrypt (junk junk' tmpOut kb ob : list Z) (o : SM4_KEY_OBJ)
    (fl md padding ol : Z) (ivb : option (list Z)) (chunks : list (list Z)) :
  obj_sizes o -> length junk = 36%nat -> Forall is_u8 kb -> (16 <= length kb)%nat ->
  0 <= fl <= 2 -> md = 0 \/ md = 1 -> (md = 1 -> exists b, ivb = Some b /\ (16 <= length b)%nat) ->
  Z.of_nat (length (mjoin chunks)) + 16 < 2 ^ 31 -> 16 <= ol <= Z.of_nat (length ob) ->
  let E := spec_crypt (spec_rk (quad_of (words4 kb))) in
  let p := pad_msg (if padding =? 0 then 0 else 1) (mjoin chunks) in
  exists o1 o2 o3 c1 c2,
    sm4_InitBlock junk (Some o) (Some kb) fl md padding ivb = Ret (0, Some o1) /\
    sm4_updates junk' (Some o1) chunks 0 = Ret (Some o2, c1) /\
    sm4_FinalBlock tmpOut (Some o2) None 0 (Some ob) (Some ol) 0 =
      Ret (0, Some o3, Some (splice ob 0 c2), Some (Z.of_nat (length c2))) /\
    c1 ++ c2 = if md =? 0 then ecb E (nblocks p) p
               else cbc E (words4 (take 16 (default [] ivb))) (nblocks p) p.
Proof.
  intros Ho Hj Hu Hkl Hf Hm Hiv Hb Hol E p.
  destruct (InitBlock_ok junk o kb fl md padding ivb Ho Hj Hu Hkl Hf Hm Hiv) as (o1 & H1 & Hh1).
  fold (start_iv o md ivb) in Hh1. set (k := init_key o kb fl) in *.
  set (pt := if padding =? 0 then 0 else 1) in *. assert (pt = 0 \/ pt = 1) as Hpt
    by (unfold pt; destruct (padding =? 0); [by left|by right]).
  pose proof (init_key_usable o kb fl 0 md Ho Hf ltac:(by left) Hm) as Hus. fold k in Hus.
  destruct (updates_ok k 0 md pt junk' chunks Hus o1 _ _ Hh1 Hb) as (o2 & H2 & Hh2).
  rewrite app_nil_l in *. set (m := mjoin chunks) in *. set (v := start_iv o md ivb) in *.
  destruct (FinalBlock_enc_ok tmpOut k md pt o2 _ _ ob ol Hus Hh2 Hpt Hol) as (o3 & H3).
  exists o1, o2, o3. do 2 eexists. split; [exact H1|split; [exact H2|split; [exact H3|]]].
  destruct (run_pad k 0 md v pt m) as [Er _]. rewrite <- Er. fold p. clear Er.
  destruct Hm as [->| ->]; [apply run_ecb|apply run_cbc].
Qed.

(** An object as declared, before [sm4_InitBlock]. *)
Definition blank_obj : SM4_KEY_OBJ :=
  mk_SM4_KEY_OBJ blank_key (replicate 16 3) (replicate 4 3) (replicate 16 3) 0 0 0 0.

Lemma sm4_stream_encrypt_witness : exists o1 o2 o3 c1 c2,
  sm4_InitBlock (replicate 36 7) (Some blank_obj) (Some sample_key) 0 1 1 (Some (replicate 16 0)) =
    Ret (0, Some o1) /\
  sm4_updates [] (Some o1) [[1; 2; 3]; replicate 20 4] 0 = Ret (Some o2, c1) /\
  sm4_FinalBlock [] (Some o2) None 0 (Some (replicate 16 9)) (Some 16) 0 =
    Ret (0, Some o3, Some (splice (replicate 16 9) 0 c2), Some (Z.of_nat (length c2))) /\
  c1 ++ c2 = cbc (spec_crypt (ERK sample_SM4_KEY)) (replicate 4 0) 2 ([1; 2; 3] ++ replicate 20 4 ++ replicate 9 9).
Proof.
  destruct (sm4_stream_encrypt (replicate 36 7) [] [] sample_key (replicate 16 9) blank_obj 0 1 1 16
    (Some (replicate 16 0)) [[1; 2; 3]; replicate 20 4]) as (o1 & o2 & o3 & c1 & c2 & H1 & H2 & H3 & H4).
  1: repeat split.
  1: reflexivity.
  1: eval_decide.
  1: eval_decide.
  1: lia.
  1: right; reflexivity.
  1: intros _; eexists; split; [reflexivity|eval_decide].
  1: eval_decide.
  1: eval_decide.
  exists o1, o2, o3, c1, c2. split; [exact H1|split; [exact H2|split; [exact H3|]]].
  rewrite H4. vm_compute. reflexivity.
Defined.

(** C6: decrypting in pieces gives back the message: when the ciphertext of a
    PKCS5-padded message is cut anywhere into updates and a last piece that ends
    its last block, the calls of a decryption return 0 and output the message. *)
Theorem sm4_stream_decrypt (junk junk' tmpOut kb ob m lastb : list Z) (o : SM4_KEY_OBJ)
    (fl md ol : Z) (ivb : list Z) (chunks : list (list Z)) :
  obj_sizes o -> length junk = 36%nat -> length tmpOut = 16%nat ->
  Forall is_u8 kb -> (16 <= length kb)%nat -> Forall is_u8 m -> Forall is_u8 ivb -> (16 <= length ivb)%nat ->
  1 <= fl <= 2 -> md = 0 \/ md = 1 ->
  Z.of_nat (length m) + 48 < 2 ^ 31 -> 16 <= ol <= Z.of_nat (length ob) ->
  let E := spec_crypt (spec_rk (quad_of (words4 kb))) in
  let p := pad_msg 1 m in
  mjoin chunks ++ lastb =
    (if md =? 0 then ecb E (nblocks p) p else cbc E (words4 (take 16 ivb)) (nblocks p) p) ->
  (1 <= length lastb <= 16)%nat ->
  exists o1 o2 o3 c1 c2 n,
    sm4_InitBlock junk (Some o) (Some kb) fl md 1 (Some ivb) = Ret (0, Some o1) /\
    sm4_updates junk' (Some o1) chunks 1 = Ret (Some o2, c1) /\
    sm4_FinalBlock tmpOut (Some o2) (Some lastb) (Z.of_nat (length lastb)) (Some ob) (Some ol) 1 =
      Ret (0, Some o3, Some (splice ob 0 c2), Some n) /\
    n = Z.of_nat (length c2) /\ c1 ++ c2 = m.
Proof.
  intros Ho Hj Ht Hu Hkl Hmu Hiu Hil Hf Hm Hb Hol E p Hc Hlb.
  destruct (InitBlock_ok junk o kb fl md 1 (Some ivb) Ho Hj Hu Hkl ltac:(lia) Hm) as (o1 & H1 & Hh1).
  { intros _. by exists ivb. }
  change (if 1 =? 0 then 0 else 1) with 1 in Hh1.
  fold (start_iv o md (Some ivb)) in Hh1. set (k := init_key o kb fl) in *.
  pose proof (init_key_usable o kb fl 1 md Ho ltac:(lia) ltac:(by right; left) Hm) as Hus. fold k in Hus.
  pose proof (init_key_ok o kb fl ltac:(lia)) as Hkok. fold k in Hkok.
  set (v := start_iv o md (Some ivb)) in *. pose proof (length_pad_msg 1 m) as Hp. fold p in Hp.
  set (d := mjoin chunks) in *.
  assert (length (d ++ lastb) = 16 * nblocks p)%nat as Hcl
    by (rewrite Hc; destruct (md =? 0); [apply length_ecb|apply length_cbc]).
  assert (length p <= length m + 16)%nat as Hpm.
  { unfold p, pad_msg, pad_len. rewrite length_app, length_replicate. simpl.
    pose proof (Nat.mod_upper_bound (length m) 16). lia. }
  assert (run_out k 1 md v (nblocks p) (d ++ lastb) = p) as Erun.
  { rewrite Hc. destruct Hm as [->| ->]; cbn [Z.eqb]; change E with (spec_crypt (ERK k)).
    - rewrite run_unecb. apply ecb_roundtrip; [done| |done]. by apply pad_msg_u8.
    - rewrite run_uncbc. apply cbc_roundtrip; [done| |done|by apply Forall_take]. by apply pad_msg_u8. }
  pose proof (decrypt_pieces k md v m d lastb Hcl Hlb Erun) as (He & Ex & Et).
  rewrite length_app in Hcl. fold p in Hcl.
  destruct (updates_ok k 1 md 1 junk' chunks Hus o1 _ _ Hh1) as (o2 & H2 & Hh2);
    [rewrite app_nil_l; fold d; lia|].
  rewrite app_nil_l in *. fold d in H2, Hh2. set (n := (length d / 16)%nat) in *.
  pose proof (FinalBlock_dec_ok tmpOut k md 1 o2 _ _ lastb (Z.of_nat (length lastb)) ob ol Hus Hh2
    ltac:(by right) Ht ltac:(lia)) as Hfin.
  cbv zeta in Hfin. rewrite Nat2Z.id, (take_ge lastb) in Hfin by lia. specialize (Hfin He Hol). rewrite Et, spec_unpad_pkcs5 in Hfin. destruct Hfin as [o3 H3].
  cbn [Z.eqb] in H3. rewrite Nat2Z.id in H3. unfold pad_msg in H3. rewrite take_app_length in H3.
  exists o1, o2, o3, (take (16 * n) m), (drop (16 * n) m), (Z.of_nat (length (drop (16 * n) m))).
  split; [exact H1|split; [by rewrite H2, Ex|split; [exact H3|split; [done|apply take_drop]]]].
Qed.

Lemma sm4_stream_decrypt_witness : exists o1 o2 o3 c1 c2 n,
  sm4_InitBlock (replicate 36 7) (Some blank_obj) (Some sample_key) 1 0 1 (Some (replicate 16 0)) =
    Ret (0, Some o1) /\
  sm4_updates [] (Some o1) [take 5 (ecb (spec_crypt (ERK sample_SM4_KEY)) 2 (pad_msg 1 (replicate 20 4)));
     slice 5 13 (ecb (spec_crypt (ERK sample_SM4_KEY)) 2 (pad_msg 1 (replicate 20 4)))] 1 = Ret (Some o2, c1) /\
  sm4_FinalBlock (replicate 16 0) (Some o2)
     (Some (drop 18 (ecb (spec_crypt (ERK sample_SM4_KEY)) 2 (pad_msg 1 (replicate 20 4))))) 14
     (Some (replicate 16 9)) (Some 16) 1 = Ret (0, Some o3, Some (splice (replicate 16 9) 0 c2), Some n) /\
  n = Z.of_nat (length c2) /\ c1 ++ c2 = replicate 20 4.
Proof.
  apply (sm4_stream_decrypt (replicate 36 7) [] (replicate 16 0) sample_key (replicate 16 9) (replicate 20 4)
    (drop 18 (ecb (spec_crypt (ERK sample_SM4_KEY)) 2 (pad_msg 1 (replicate 20 4)))) blank_obj 1 0 16
    (replicate 16 0) [take 5 (ecb (spec_crypt (ERK sample_SM4_KEY)) 2 (pad_msg 1 (replicate 20 4)));
     slice 5 13 (ecb (spec_crypt (ERK sample_SM4_KEY)) 2 (pad_msg 1 (replicate 20 4)))]).
  1: repeat split.
  1: reflexivity.
  1: reflexivity.
  1: eval_decide.
  1: eval_decide.
  1: eval_decide.
  1: eval_decide.
  1: eval_decide.
  1: lia.
  1: left; reflexivity.
  1: eval_decide.
  1: eval_decide.
  1: vm_compute; reflexivity.
  1: eval_decide.
Defined.

(** The MAC in pieces is the CBC-MAC of the message filled with zeros to
    a whole block, and for whole blocks it is the result of [sm4_CBC_MAC]. *)
Theorem sm4_stream_mac (junk junk' tmpOut kb ob : list Z) (o : SM4_KEY_OBJ)
    (fl padding ol : Z) (ivb : list Z) (chunks : list (list Z)) :
  obj_sizes o -> length junk = 36%nat -> Forall is_u8 kb -> (16 <= length kb)%nat ->
  0 <= fl <= 2 -> (16 <= length ivb)%nat ->
  Z.of_nat (length (mjoin chunks)) + 16 < 2 ^ 31 -> 16 <= ol <= Z.of_nat (length ob) ->
  let E := spec_crypt (spec_rk (quad_of (words4 kb))) in
  let m : list Z := mjoin chunks in let p := pad_msg 0 m in
  let mac := bytes4 (cbc_iv E (words4 (take 16 ivb)) (nblocks p) p) in
  exists o1 o2 o3,
    sm4_InitBlock junk (Some o) (Some kb) fl 1 padding (Some ivb) = Ret (0, Some o1) /\
    sm4_updates junk' (Some o1) chunks 2 = Ret (Some o2, []) /\
    sm4_FinalBlock tmpOut (Some o2) None 0 (Some ob) (Some ol) 2 =
      Ret (0, Some o3, Some (splice ob 0 mac), Some 16) /\
    ((length m mod 16 = 0)%nat -> forall junk16 ivlen, length junk16 = 16%nat ->
      sm4_CBC_MAC junk16 (Some m) (Z.of_nat (length m)) (Some ivb) ivlen (Some (key o2)) (Some ob) =
        Ret (0, Some (splice ob 0 mac))).
Proof.
  intros Ho Hj Hu Hkl Hf Hil Hb Hol E m p mac.
  destruct (InitBlock_ok junk o kb fl 1 padding (Some ivb) Ho Hj Hu Hkl Hf ltac:(by right)) as (o1 & H1 & Hh1).
  { intros _. by exists ivb. }
  change (if 1 =? 0 then _ else _) with (words4 (take 16 ivb)) in Hh1. set (k := init_key o kb fl) in *.
  set (pt := if padding =? 0 then 0 else 1) in *. assert (pt = 0 \/ pt = 1) as Hpt
    by (unfold pt; destruct (padding =? 0); [by left|by right]).
  pose proof (init_key_usable o kb fl 2 1 Ho Hf ltac:(by right; right) ltac:(by right)) as Hus. fold k in Hus.
  destruct (updates_ok k 2 1 pt junk' chunks Hus o1 _ _ Hh1 Hb) as (o2 & H2 & Hh2).
  rewrite app_nil_l in *. fold m in H2, Hh2. set (v := words4 (take 16 ivb)) in *.
  destruct (FinalBlock_mac_ok tmpOut k 1 pt o2 _ _ ob ol Hus Hh2 Hpt Hol) as (o3 & H3).
  destruct (run_pad k 2 1 v 0 m) as [_ Er]. rewrite <- Er in H3. fold p in H3.
  rewrite run_mac in H3. change (spec_crypt (ERK k)) with E in H3. fold mac in H3.
  exists o1, o2, o3. split; [exact H1|split; [|split; [exact H3|]]].
  - rewrite H2. do 2 f_equal. apply length_zero_iff_nil. by rewrite length_run_out by (by right; right).
  - intros Hm junk16 ivlen Hj16. rewrite (h_key _ _ _ _ _ _ Hh2).
    rewrite sm4_CBC_MAC_ok by (apply Hus || lia). rewrite Nat2Z.id, (take_ge m) by lia.
    rewrite decide_True by done. unfold mac.
    destruct (pad_cases 0 m) as (_ & _ & [(_ & _ & H0 & _)|(_ & _ & Hpm)]); [specialize (H0 eq_refl); lia|].
    fold p in Hpm. unfold nblocks. rewrite Hpm, cbc_iv_app; [done|].
    pose proof (Nat.div_mod_eq (length m) 16). lia.
Qed.

Lemma sm4_stream_mac_witness : exists o1 o2 o3,
  sm4_InitBlock (replicate 36 7) (Some blank_obj) (Some sample_key) 2 1 0 (Some (replicate 16 0)) =
    Ret (0, Some o1) /\
  sm4_updates [] (Some o1) [replicate 7 1; replicate 9 1] 2 = Ret (Some o2, []) /\
  sm4_FinalBlock [] (Some o2) None 0 (Some (replicate 16 9)) (Some 16) 2 =
    Ret (0, Some o3, Some (bytes4 (spec_crypt (ERK sample_SM4_KEY) (replicate 4 0x01010101))), Some 16).
Proof.
  destruct (sm4_stream_mac (replicate 36 7) [] [] sample_key (replicate 16 9) blank_obj 2 0 16
    (replicate 16 0) [replicate 7 1; replicate 9 1]) as (o1 & o2 & o3 & H1 & H2 & H3 & _).
  1: repeat split.
  1: reflexivity.
  1: eval_decide.
  1: eval_decide.
  1: lia.
  1: eval_decide.
  1: eval_decide.
  1: eval_decide.
  exists o1, o2, o3. split; [exact H1|split; [exact H2|]]. rewrite H3. vm_compute. reflexivity.
Defined.
