(* ===== verification/Base64.v ===== *)
(** * Base64 of the packet codec (astPackage/astpackage.cpp: [encode], [decode],
      [AToByte])

    Text is a list of bytes.  [encode] writes its text and a terminating zero
    through a pointer; [decode] stops at a character outside the alphabet and
    at the end of the output buffer. *)
From S2P Require Import Prelude Words Buffers CString.

Definition base64digits : list Z :=
  codes "ABCDEFGHIJKLMNOPQRSTUVWXYZabcdefghijklmnopqrstuvwxyz0123456789+/".

Definition BASE64DECODE : list Z :=
  replicate 43 0xff ++ [0x3e; 0xff; 0xff; 0xff; 0x3f] ++
  [0x34; 0x35; 0x36; 0x37; 0x38; 0x39; 0x3a; 0x3b; 0x3c; 0x3d; 0xff; 0xff; 0xff; 0x40; 0xff; 0xff; 0xff] ++
  seqZ 0 26 ++ replicate 6 0xff ++ seqZ 26 26 ++ replicate 133 0xff.

Definition digit (v : Z) : cpp Z := buf_get base64digits v.

(** ** [astPackage::encode] *)

(** The loop over groups of three: remaining length, offsets of [in] and [out]. *)
Definition encode_groups (inp : list Z) (inlen : Z) (out : list Z) : cpp (Z * Z * Z * list Z) :=
  cwhile (Z.to_nat inlen) (fun '(n, i, o, out) => 3 <=? n)
    (fun '(n, i, o, out) =>
       a ← buf_get inp i; b ← buf_get inp (i + 1); c ← buf_get inp (i + 2);
       d0 ← digit (Z.shiftr a 2);
       d1 ← digit (Z.lor (Z.land (Z.shiftl a 4) 0x30) (Z.shiftr b 4));
       d2 ← digit (Z.lor (Z.land (Z.shiftl b 2) 0x3c) (Z.shiftr c 6));
       d3 ← digit (Z.land c 0x3f);
       out ← buf_write out o [d0; d1; d2; d3];
       Ret (n - 3, i + 3, o + 4, out))
    (inlen, 0, 0, out).

Definition encode (inp : list Z) (inlen : Z) (out : list Z) : cpp (list Z) :=
  '(n, i, o, out) ← encode_groups inp inlen out;
  '(o, out) ←
    (if 0 <? n then
       a ← buf_get inp i;
       d0 ← digit (Z.shiftr a 2);
       let fragment := Z.land (Z.shiftl a 4) 0x30 in
       fragment ← (if 1 <? n then b ← buf_get inp (i + 1); Ret (Z.lor fragment (Z.shiftr b 4))
                   else Ret fragment);
       d1 ← digit fragment;
       d2 ← (if n <? 2 then Ret 61 else b ← buf_get inp (i + 1); digit (Z.land (Z.shiftl b 2) 0x3c));
       out ← buf_write out o [d0; d1; d2; 61];
       Ret (o + 4, out)
     else Ret (o, out));
  buf_write out o [0].

(** ** [astPackage::decode] *)

(** One turn of the loop: index, offset of [out], buffer, whether it broke off. *)
Definition decode_step (code : list Z) (pEnd : Z) : Z * Z * list Z * bool -> cpp (Z * Z * list Z * bool) :=
  fun '(i, o, out, _) =>
    ch ← buf_get code i;
    uCode ← buf_get BASE64DECODE ch;
    if 64 <=? uCode then Ret (i, o, out, true)
    else
      let r := Z.rem i 4 in
      if r =? 0 then
        out ← buf_write out o [u8 (Z.shiftl uCode 2)]; Ret (i + 1, o, out, false)
      else if r =? 1 then
        v ← buf_get out o; out ← buf_write out o [Z.lor v (Z.shiftr uCode 4)];
        out ← (if pEnd <=? o + 1 then Ret out else buf_write out (o + 1) [u8 (Z.shiftl uCode 4)]);
        Ret (i + 1, o + 1, out, false)
      else if r =? 2 then
        v ← buf_get out o; out ← buf_write out o [Z.lor v (Z.shiftr uCode 2)];
        out ← (if pEnd <=? o + 1 then Ret out else buf_write out (o + 1) [u8 (Z.shiftl uCode 6)]);
        Ret (i + 1, o + 1, out, false)
      else
        v ← buf_get out o; out ← buf_write out o [Z.lor v uCode]; Ret (i + 1, o + 1, out, false).

Definition decode (code : list Z) (len : Z) (out : list Z) (outlen : Z) : cpp (list Z * Z) :=
  '(_, o, out, _) ← cwhile (Z.to_nat len)
    (fun '(i, o, _, stop) => negb stop && (i <? len) && (o <? outlen))
    (decode_step code outlen) (0, 0, out, false);
  Ret (out, o).

(** ** [astPackage::AToByte]: hexadecimal text to bytes *)

Definition hex_val (c : Z) : Z :=
  if (48 <=? c) && (c <=? 57) then c - 48
  else if (65 <=? c) && (c <=? 70) then c - 65 + 10
  else if (97 <=? c) && (c <=? 102) then c - 97 + 10
  else 0.

(** The bytes written; the caller's [m_nAidLen] becomes [outlen].  The second
    [if] of the code adds nothing for other characters, like the first one. *)
Definition AToByte (asc out : list Z) (outlen : Z) : cpp (list Z) :=
  '(_, out) ← cfor (fun n '(p, out) =>
      h ← buf_get asc p; l ← buf_get asc (p + 1);
      out ← buf_write out (Z.of_nat n) [u8 (u8 (Z.shiftl (hex_val h) 4) + hex_val l)];
      Ret (p + 2, out)) (Z.to_nat outlen) 0 (0, out);
  Ret out.

(** ** Specification *)

Definition dg (v : Z) : Z := base64digits !!! Z.to_nat v.

(** RFC 4648 by groups of three bytes. *)
Fixpoint b64 (x : list Z) : list Z :=
  match x with
  | a :: b :: c :: r =>
      [dg (a / 4); dg (a mod 4 * 16 + b / 16); dg (b mod 16 * 4 + c / 64); dg (c mod 64)] ++ b64 r
  | [a; b] => [dg (a / 4); dg (a mod 4 * 16 + b / 16); dg (b mod 16 * 4); 61]
  | [a] => [dg (a / 4); dg (a mod 4 * 16); 61; 61]
  | [] => []
  end.

(** ** Sextets *)

Definition all_bytes : list Z := seqZ 0 256.

Lemma forall_bytes (P : Z -> bool) : forallb P all_bytes = true -> forall a, is_u8 a -> P a = true.
Proof.
  intros H a Ha. rewrite forallb_forall in H. apply H. apply list_elem_of_In. unfold all_bytes.
  rewrite elem_of_seqZ. unfold is_u8 in Ha. lia.
Qed.

(** The shifts and masks of the code are these quotients and remainders. *)
Definition sextet_check (a : Z) : bool :=
  (Z.shiftr a 2 =? a / 4) && (Z.land (Z.shiftl a 4) 0x30 =? a mod 4 * 16) && (Z.shiftr a 4 =? a / 16) &&
  (Z.land (Z.shiftl a 2) 0x3c =? a mod 16 * 4) && (Z.shiftr a 6 =? a / 64) && (Z.land a 0x3f =? a mod 64).

Lemma sextets a : is_u8 a ->
  Z.shiftr a 2 = a / 4 /\ Z.land (Z.shiftl a 4) 0x30 = a mod 4 * 16 /\ Z.shiftr a 4 = a / 16 /\
  Z.land (Z.shiftl a 2) 0x3c = a mod 16 * 4 /\ Z.shiftr a 6 = a / 64 /\ Z.land a 0x3f = a mod 64.
Proof.
  intros Ha. assert (sextet_check a = true) as H by (apply forall_bytes; [vm_compute; reflexivity|done]).
  unfold sextet_check in H. rewrite !andb_true_iff, !Z.eqb_eq in H. tauto.
Qed.

Lemma lor_add16 h l : 0 <= l < 16 -> Z.lor (h * 16) l = h * 16 + l.
Proof. intros Hl. pose proof (lor_shiftl_add h l 4) as H. rewrite Z.shiftl_mul_pow2 in H by lia. apply H; lia. Qed.
Lemma lor_add4 h l : 0 <= l < 4 -> Z.lor (h * 4) l = h * 4 + l.
Proof. intros Hl. pose proof (lor_shiftl_add h l 2) as H. rewrite Z.shiftl_mul_pow2 in H by lia. apply H; lia. Qed.
Lemma lor_add64 h l : 0 <= l < 64 -> Z.lor (h * 64) l = h * 64 + l.
Proof. intros Hl. pose proof (lor_shiftl_add h l 6) as H. rewrite Z.shiftl_mul_pow2 in H by lia. apply H; lia. Qed.

Lemma digit_ok v : 0 <= v < 64 -> digit v = Ret (dg v).
Proof.
  intros Hv. unfold digit. apply buf_get_ok; [lia|]. apply list_lookup_lookup_total_lt.
  change (length base64digits) with 64%nat. lia.
Qed.

(** Decoding a digit. *)
Lemma decode_dg v : 0 <= v < 64 -> buf_get BASE64DECODE (dg v) = Ret v.
Proof.
  intros Hv.
  assert (forallb (fun v => match buf_get BASE64DECODE (dg v) with Ret w => w =? v | _ => false end)
    (seqZ 0 64) = true) as H by (vm_compute; reflexivity).
  rewrite forallb_forall in H. specialize (H v ltac:(apply list_elem_of_In, elem_of_seqZ; lia)).
  destruct (buf_get BASE64DECODE (dg v)) as [w| | | |]; try discriminate. f_equal. lia.
Qed.

(** ** Encoding *)

Lemma length_b64 x : (length (b64 x) = 4 * ((length x + 2) / 3))%nat.
Proof.
  induction x as [x IH] using (induction_ltof1 _ (@length Z)); unfold ltof in IH.
  destruct x as [|a [|b [|c r]]]; try reflexivity. cbn [b64]. rewrite length_app, IH by (simpl; lia).
  simpl length. replace (S (S (S (length r))) + 2)%nat with (length r + 2 + 1 * 3)%nat by lia.
  rewrite Nat.div_add by lia. lia.
Qed.

Lemma encode_groups_from inp x : Forall is_u8 x -> forall fuel i o out rest,
  drop i inp = x ++ rest -> (length x <= fuel)%nat -> (o + length (b64 x) <= length out)%nat ->
  let g := (length x / 3)%nat in
  cwhile fuel (fun '(n, i, o, out) => 3 <=? n)
    (fun '(n, i, o, out) =>
       a ← buf_get inp i; b ← buf_get inp (i + 1); c ← buf_get inp (i + 2);
       d0 ← digit (Z.shiftr a 2);
       d1 ← digit (Z.lor (Z.land (Z.shiftl a 4) 0x30) (Z.shiftr b 4));
       d2 ← digit (Z.lor (Z.land (Z.shiftl b 2) 0x3c) (Z.shiftr c 6));
       d3 ← digit (Z.land c 0x3f);
       out ← buf_write out o [d0; d1; d2; d3];
       Ret (n - 3, i + 3, o + 4, out))
    (Z.of_nat (length x), Z.of_nat i, Z.of_nat o, out) =
  Ret (Z.of_nat (length x mod 3), Z.of_nat (i + 3 * g), Z.of_nat (o + 4 * g),
       splice out o (b64 (take (3 * g) x))).
Proof.
  induction x as [x IH] using (induction_ltof1 _ (@length Z)); unfold ltof in IH.
  intros Hu fuel i o out rest Hd Hf Ho g.
  destruct x as [|a [|b [|c r]]].
  1-3: rewrite cwhile_stop by (apply Z.leb_gt; simpl; lia); change g with 0%nat;
    rewrite !Nat.mul_0_r, !Nat.add_0_r; simpl b64; rewrite splice_nil by lia; reflexivity.
  destruct fuel as [|fuel]; [simpl in Hf; lia|].
  rewrite !Forall_cons in Hu. destruct Hu as (Ha & Hb & Hc & Hr).
  assert (forall j v, (a :: b :: c :: r) !! j = Some v -> inp !! (i + j)%nat = Some v) as Hget.
  { intros j v Hv. rewrite <- lookup_drop, Hd. by apply lookup_app_l_Some. }
  destruct (sextets a Ha) as (A0 & A1 & A2 & A3 & A4 & A5).
  destruct (sextets b Hb) as (B0 & B1 & B2 & B3 & B4 & B5).
  destruct (sextets c Hc) as (C0 & C1 & C2 & C3 & C4 & C5). unfold is_u8 in *.
  assert (g = S (length r / 3)) as Eg.
  { unfold g. simpl length. replace (S (S (S (length r)))) with (length r + 1 * 3)%nat by lia.
    rewrite Nat.div_add by lia. lia. }
  cbn [b64 app] in Ho. simpl length in Ho.
  erewrite cwhile_step; [|apply Z.leb_le; simpl; lia|].
  2:{ cbn beta iota.
      rewrite (buf_get_ok inp (Z.of_nat i) a) by (rewrite ?Nat2Z.id; lia || (rewrite <- (Nat.add_0_r i); by apply Hget)).
      rewrite bind_ret_l.
      rewrite (buf_get_ok inp (Z.of_nat i + 1) b); [|lia|replace (Z.to_nat (Z.of_nat i + 1)) with (i + 1)%nat by lia; by apply Hget].
      rewrite bind_ret_l.
      rewrite (buf_get_ok inp (Z.of_nat i + 2) c); [|lia|replace (Z.to_nat (Z.of_nat i + 2)) with (i + 2)%nat by lia; by apply Hget].
      rewrite bind_ret_l, A0, A1, B2, B3, C4, C5.
      rewrite lor_add16, lor_add4 by (Z.div_mod_to_equations; lia).
      rewrite !digit_ok by (Z.div_mod_to_equations; lia).
    rewrite ?bind_ret_l. cbv zeta. rewrite ?bind_ret_l.
      rewrite buf_write_ok by (simpl length; lia). rewrite bind_ret_l. reflexivity. }
  replace (Z.of_nat (length (a :: b :: c :: r)) - 3) with (Z.of_nat (length r)) by (simpl; lia).
  replace (Z.of_nat i + 3) with (Z.of_nat (i + 3)) by lia.
  replace (Z.of_nat o + 4) with (Z.of_nat (o + 4)) by lia. rewrite Nat2Z.id.
  pose proof (IH r ltac:(simpl; lia) Hr fuel (i + 3)%nat (o + 4)%nat) as IH'. cbv zeta in IH'.
  erewrite IH'; [|rewrite <- drop_drop, Hd; reflexivity|simpl in Hf; lia|rewrite length_splice; simpl length; lia].
  rewrite Eg. f_equal. f_equal; [f_equal; [f_equal|]|].
  - f_equal. simpl length. replace (S (S (S (length r)))) with (length r + 1 * 3)%nat by lia.
    by rewrite Nat.Div0.mod_add.
  - f_equal. lia.
  - f_equal. lia.
  - rewrite splice_append; [|done|].
    + f_equal. replace (3 * S (length r / 3))%nat with (S (S (S (3 * (length r / 3))))) by lia.
      reflexivity.
    + assert (length (b64 (take (3 * (length r / 3)) r)) <= length (b64 r))%nat; [|cbn [length]; lia].
      rewrite !length_b64, length_take. apply Nat.mul_le_mono_l, Nat.Div0.div_le_mono. lia.
Qed.

Lemma b64_split g : forall x, (3 * g <= length x)%nat -> b64 x = b64 (take (3 * g) x) ++ b64 (drop (3 * g) x).
Proof.
  induction g as [|g IH]; intros x Hx; [done|].
  replace (3 * S g)%nat with (S (S (S (3 * g)))) by lia.
  destruct x as [|a [|b [|c r]]]; [simpl in Hx; lia..|]. cbn [take drop b64].
  rewrite (IH r) at 1 by (cbn [length] in Hx; lia). by rewrite app_assoc.
Qed.

(** The last characters and the terminating zero. *)
Lemma store_tail out h c : length c = 4%nat -> (length h + 4 < length out)%nat ->
  ('(o, out) ← (out ← buf_write (splice out 0 h) (Z.of_nat (length h)) c;
                Ret (Z.of_nat (length h) + 4, out));
   buf_write out o [0]) = Ret (splice out 0 ((h ++ c) ++ [0])).
Proof.
  intros Hc Hl. rewrite buf_write_ok by (rewrite ?length_splice; lia). rewrite !bind_ret_l.
  rewrite Nat2Z.id, splice_append by lia.
  rewrite buf_write_ok by (rewrite ?length_splice; rewrite ?length_app; simpl length; lia).
  rewrite splice_append; [done|rewrite length_app; lia|rewrite !length_app; simpl length; lia].
Qed.

Lemma encode_ok inp inlen out :
  let x := take (Z.to_nat inlen) inp in
  Forall is_u8 inp -> 0 <= inlen <= Z.of_nat (length inp) -> (length (b64 x) < length out)%nat ->
  encode inp inlen out = Ret (splice out 0 (b64 x ++ [0])).
Proof.
  intros x Hu Hl Ho. assert (length x = Z.to_nat inlen) as Hx by (unfold x; rewrite length_take; lia).
  assert (Forall is_u8 x) as Hxu by by apply Forall_take.
  unfold encode, encode_groups. rewrite <- Hx. replace inlen with (Z.of_nat (length x)) by lia.
  pose proof (encode_groups_from inp x Hxu (length x) 0 0 out (drop (Z.to_nat inlen) inp)) as E.
  cbv zeta in E. rewrite drop_0, !Nat.add_0_l in E. change (Z.of_nat 0) with 0 in E.
  rewrite E by (lia || (unfold x; by rewrite take_drop)). clear E. rewrite bind_ret_l. cbv beta iota.
  set (g := (length x / 3)%nat). pose proof (Nat.div_mod_eq (length x) 3) as Hdm. fold g in Hdm.
  pose proof (Nat.mod_upper_bound (length x) 3 ltac:(lia)) as Hm.
  rewrite (b64_split g x) in Ho |- * by lia. rewrite length_app in Ho.
  set (h := take (3 * g) x) in *. assert (length (drop (3 * g) x) = length x mod 3)%nat as Ht
    by (rewrite length_drop; lia).
  assert (length (b64 h) = 4 * g)%nat as Hh.
  { rewrite length_b64. unfold h. rewrite length_take, Nat.min_l by lia.
    replace (3 * g + 2)%nat with (2 + g * 3)%nat by lia. by rewrite Nat.div_add by lia. }
  assert (forall j v, drop (3 * g) x !! j = Some v ->
    buf_get inp (Z.of_nat (3 * g) + Z.of_nat j) = Ret v) as Hget.
  { intros j v Hv. apply buf_get_ok; [lia|]. replace (Z.to_nat _) with (3 * g + j)%nat by lia.
    rewrite lookup_drop in Hv. unfold x in Hv. by apply lookup_take_Some in Hv as [? _]. }
  assert (Forall is_u8 (drop (3 * g) x)) as Htu by by apply Forall_drop.
  destruct (drop (3 * g) x) as [|a [|b [|c r]]] eqn:Et.
  - rewrite <- Ht. change (0 <? Z.of_nat (length (A:=Z) [])) with false. cbv iota.
    rewrite bind_ret_l. cbv beta iota.
    rewrite buf_write_ok by (rewrite ?length_splice; simpl length; lia).
    rewrite Nat2Z.id, splice_append by (simpl length; lia). simpl b64. by rewrite app_nil_r.
  - rewrite <- Ht. change (Z.of_nat (length [a])) with 1.
    pose proof (Hget 0%nat a eq_refl) as Ga. rewrite Z.add_0_r in Ga.
    apply Forall_cons in Htu as [Ha _]. destruct (sextets a Ha) as (A0 & A1 & _). unfold is_u8 in Ha.
    change (0 <? 1) with true. change (1 <? 1) with false. change (1 <? 2) with true. cbv iota.
    rewrite Ga, bind_ret_l, A0, A1, digit_ok by (Z.div_mod_to_equations; lia).
    rewrite ?bind_ret_l. cbv zeta. rewrite ?bind_ret_l.
    rewrite digit_ok by (Z.div_mod_to_equations; lia).
    rewrite ?bind_ret_l. cbv zeta. rewrite ?bind_ret_l.
    cbn [b64 length] in Ho |- *. rewrite <- Hh. apply store_tail; [done|lia].
  - rewrite <- Ht. change (Z.of_nat (length [a; b])) with 2.
    pose proof (Hget 0%nat a eq_refl) as Ga. rewrite Z.add_0_r in Ga.
    pose proof (Hget 1%nat b eq_refl) as Gb. change (Z.of_nat 1) with 1 in Gb.
    apply Forall_cons in Htu as [Ha Htu]. apply Forall_cons in Htu as [Hb _].
    destruct (sextets a Ha) as (A0 & A1 & _). destruct (sextets b Hb) as (_ & _ & B2 & B3 & _).
    unfold is_u8 in Ha, Hb.
    change (0 <? 2) with true. change (1 <? 2) with true. change (2 <? 2) with false. cbv iota.
    rewrite Ga, !bind_ret_l, A0, A1, digit_ok by (Z.div_mod_to_equations; lia).
    rewrite ?bind_ret_l. cbv zeta. rewrite ?bind_ret_l.
    rewrite Gb, !bind_ret_l, B2, B3, lor_add16, digit_ok by (Z.div_mod_to_equations; lia).
    rewrite ?bind_ret_l. cbv zeta. rewrite ?bind_ret_l.
    rewrite digit_ok by (Z.div_mod_to_equations; lia).
    rewrite ?bind_ret_l. cbv zeta. rewrite ?bind_ret_l.
    cbn [b64 length] in Ho |- *. rewrite <- Hh. apply store_tail; [done|lia].
  - simpl length in Ht. lia.
Qed.

(** ** Decoding *)

Lemma splice_1 (l : list Z) o v : (o < length l)%nat -> splice l o [v] = <[o := v]> l.
Proof.
  intros H. apply list_eq. intros i. rewrite lookup_splice by (simpl; lia).
  destruct (decide (i = o)) as [->|].
  - rewrite list_lookup_insert_eq, decide_True by (simpl; lia). by rewrite Nat.sub_diag.
  - by rewrite list_lookup_insert_ne, decide_False by (simpl; lia).
Qed.

Definition dec_more (len outlen : Z) : Z * Z * list Z * bool -> bool :=
  fun '(i, o, _, stop) => negb stop && (i <? len) && (o <? outlen).

Section decode_steps.
Variables (code : list Z) (cap : nat).

(** The buffer has the finished bytes [done] before [o], and, when [o] is still
    inside the capacity, the high bits [w] at [o]. *)
Definition dec_state (o : nat) (out : list Z) (n : nat) (fin : list Z) (w : Z) : Prop :=
  length out = n /\ take o out = fin /\ ((o < cap)%nat -> out !! o = Some w).

Lemma dec_step0 i o out n fin w v :
  Z.of_nat i mod 4 = 0 -> code !! i = Some (dg v) -> 0 <= v < 64 -> (o < cap <= n)%nat ->
  dec_state o out n fin w ->
  exists out', decode_step code (Z.of_nat cap) (Z.of_nat i, Z.of_nat o, out, false) =
      Ret (Z.of_nat (S i), Z.of_nat o, out', false) /\ dec_state o out' n fin (v * 4).
Proof.
  intros Hi Hc Hv Ho (Hn & Hf & _). unfold decode_step.
  rewrite (buf_get_ok code _ (dg v)) by (rewrite ?Nat2Z.id; lia || done).
  rewrite bind_ret_l, decode_dg, bind_ret_l by done. replace (64 <=? v) with false by lia.
  rewrite Z.rem_mod_nonneg, Hi by lia. cbn [Z.eqb].
  rewrite buf_write_ok by (simpl length; lia). rewrite bind_ret_l, Nat2Z.id, splice_1 by lia.
  eexists. split; [do 4 f_equal; lia|]. split_and!.
  - by rewrite length_insert.
  - by rewrite take_insert, decide_False by lia.
  - intros _. rewrite list_lookup_insert_eq by lia. f_equal. unfold u8.
    rewrite Z.shiftl_mul_pow2, Z.mod_small by lia. done.
Qed.

Lemma dec_step12 i o out n fin w v r : r = 1 \/ r = 2 ->
  Z.of_nat i mod 4 = r -> code !! i = Some (dg v) -> 0 <= v < 64 -> (o < cap <= n)%nat ->
  dec_state o out n fin w ->
  exists out', decode_step code (Z.of_nat cap) (Z.of_nat i, Z.of_nat o, out, false) =
      Ret (Z.of_nat (S i), Z.of_nat (S o), out', false) /\
    dec_state (S o) out' n (fin ++ [Z.lor w (Z.shiftr v (6 - 2 * r))]) (u8 (Z.shiftl v (2 + 2 * r))).
Proof.
  intros Hr Hi Hc Hv Ho (Hn & Hf & Hw). unfold decode_step.
  rewrite (buf_get_ok code _ (dg v)) by (rewrite ?Nat2Z.id; lia || done).
  rewrite bind_ret_l, decode_dg, bind_ret_l by done. replace (64 <=? v) with false by lia.
  rewrite Z.rem_mod_nonneg, Hi by lia.
  assert (exists out', (v0 ← buf_get out (Z.of_nat o);
     out ← buf_write out (Z.of_nat o) [Z.lor v0 (Z.shiftr v (6 - 2 * r))];
     out ← (if Z.of_nat cap <=? Z.of_nat o + 1 then Ret out
            else buf_write out (Z.of_nat o + 1) [u8 (Z.shiftl v (2 + 2 * r))]);
     Ret (Z.of_nat i + 1, Z.of_nat o + 1, out, false)) =
     Ret (Z.of_nat (S i), Z.of_nat (S o), out', false) /\
     dec_state (S o) out' n (fin ++ [Z.lor w (Z.shiftr v (6 - 2 * r))]) (u8 (Z.shiftl v (2 + 2 * r)))) as H.
  { rewrite (buf_get_ok out _ w) by (rewrite ?Nat2Z.id; lia || (apply Hw; lia)).
    rewrite bind_ret_l, buf_write_ok by (simpl length; lia). rewrite bind_ret_l, Nat2Z.id, splice_1 by lia.
    set (out1 := <[o := _]> out). assert (length out1 = n) as Hl1 by (unfold out1; by rewrite length_insert).
    assert (take (S o) out1 = fin ++ [Z.lor w (Z.shiftr v (6 - 2 * r))]) as Ht1.
    { unfold out1. erewrite take_S_r by (apply list_lookup_insert_eq; lia).
      by rewrite take_insert, decide_False, Hf by lia. }
    destruct (Z.leb_spec (Z.of_nat cap) (Z.of_nat o + 1)).
    - rewrite bind_ret_l. exists out1. split; [do 4 f_equal; lia|]. split_and!; [done|done|lia].
    - rewrite buf_write_ok by (simpl length; lia). rewrite bind_ret_l.
      replace (Z.to_nat (Z.of_nat o + 1)) with (S o) by lia. rewrite splice_1 by lia.
      eexists. split; [do 4 f_equal; lia|]. split_and!.
      + by rewrite length_insert.
      + by rewrite take_insert, decide_False by lia.
      + intros _. by rewrite list_lookup_insert_eq by lia. }
  destruct Hr as [->| ->]; exact H.
Qed.

Lemma dec_step3 i o out n fin w v :
  Z.of_nat i mod 4 = 3 -> code !! i = Some (dg v) -> 0 <= v < 64 -> (o < cap <= n)%nat ->
  dec_state o out n fin w ->
  exists out' w', decode_step code (Z.of_nat cap) (Z.of_nat i, Z.of_nat o, out, false) =
      Ret (Z.of_nat (S i), Z.of_nat (S o), out', false) /\ dec_state (S o) out' n (fin ++ [Z.lor w v]) w'.
Proof.
  intros Hi Hc Hv Ho (Hn & Hf & Hw). unfold decode_step.
  rewrite (buf_get_ok code _ (dg v)) by (rewrite ?Nat2Z.id; lia || done).
  rewrite bind_ret_l, decode_dg, bind_ret_l by done. replace (64 <=? v) with false by lia.
  rewrite Z.rem_mod_nonneg, Hi by lia. cbn [Z.eqb Pos.eqb].
  rewrite (buf_get_ok out _ w) by (rewrite ?Nat2Z.id; lia || (apply Hw; lia)).
  rewrite bind_ret_l, buf_write_ok by (simpl length; lia). rewrite bind_ret_l, Nat2Z.id, splice_1 by lia.
  exists (<[o := Z.lor w v]> out), (default 0 (<[o := Z.lor w v]> out !! S o)).
  split; [do 4 f_equal; lia|]. split_and!.
  - by rewrite length_insert.
  - erewrite take_S_r by (apply list_lookup_insert_eq; lia).
    by rewrite take_insert, decide_False, Hf by lia.
  - intros Hlt. rewrite list_lookup_insert_ne by lia.
    by destruct (lookup_lt_is_Some_2 out (S o)) as [? ->]; [lia|].
Qed.

(** A padding character ends the loop. *)
Lemma dec_step_pad i o out : code !! i = Some 61 ->
  decode_step code (Z.of_nat cap) (Z.of_nat i, Z.of_nat o, out, false) =
    Ret (Z.of_nat i, Z.of_nat o, out, true).
Proof.
  intros Hc. unfold decode_step. rewrite (buf_get_ok code _ 61) by (rewrite ?Nat2Z.id; lia || done).
  rewrite bind_ret_l. reflexivity.
Qed.
End decode_steps.

(** The bytes put together from the sextets. *)
Lemma join01 a b : is_u8 a -> is_u8 b -> Z.lor (a / 4 * 4) (Z.shiftr (a mod 4 * 16 + b / 16) 4) = a.
Proof.
  unfold is_u8. intros Ha Hb. rewrite Z.shiftr_div_pow2 by lia. change (2 ^ 4) with 16.
  rewrite lor_add4 by (Z.div_mod_to_equations; lia). Z.div_mod_to_equations. lia.
Qed.

Lemma join12 s b c : 0 <= s < 4 -> is_u8 b -> is_u8 c ->
  Z.lor (u8 (Z.shiftl (s * 16 + b / 16) 4)) (Z.shiftr (b mod 16 * 4 + c / 64) 2) = b.
Proof.
  unfold is_u8, u8. intros Hs Hb Hc. rewrite Z.shiftr_div_pow2, Z.shiftl_mul_pow2 by lia.
  change (2 ^ 4) with 16. change (2 ^ 2) with 4. change (2 ^ 8) with 256 in *.
  replace (((s * 16 + b / 16) * 16) mod 256) with (b / 16 * 16) by (Z.div_mod_to_equations; lia).
  rewrite lor_add16 by (Z.div_mod_to_equations; lia). Z.div_mod_to_equations. lia.
Qed.

Lemma join23 s c : 0 <= s < 16 -> is_u8 c ->
  Z.lor (u8 (Z.shiftl (s * 4 + c / 64) 6)) (c mod 64) = c.
Proof.
  unfold is_u8, u8. intros Hs Hc. rewrite Z.shiftl_mul_pow2 by lia.
  change (2 ^ 6) with 64. change (2 ^ 8) with 256 in *.
  replace (((s * 4 + c / 64) * 64) mod 256) with (c / 64 * 64) by (Z.div_mod_to_equations; lia).
  rewrite lor_add64 by (Z.div_mod_to_equations; lia). Z.div_mod_to_equations. lia.
Qed.

Lemma b64_bounds a b : is_u8 a -> is_u8 b ->
  0 <= a mod 4 < 4 /\ 0 <= a mod 16 < 16 /\ 0 <= a mod 64 < 64 /\
  0 <= a mod 4 * 16 + b / 16 < 64 /\ 0 <= a mod 16 * 4 + b / 64 < 64.
Proof. unfold is_u8. intros. split_and!; Z.div_mod_to_equations; lia. Qed.

Section decode_loop.
Variables (code : list Z) (cap n : nat).
Hypothesis Hcap : (cap <= n)%nat.
Let len : Z := Z.of_nat (length code).

Lemma more_ok i o out : (i < length code)%nat -> (o < cap)%nat ->
  dec_more len (Z.of_nat cap) (Z.of_nat i, Z.of_nat o, out, false) = true.
Proof. intros. unfold dec_more, len. simpl. rewrite andb_true_iff, !Z.ltb_lt. lia. Qed.

(** What remains to be shown of the loop from a state: it ends with the
    bytes [y] decoded. *)
Definition ends (fuel i o : nat) (out y : list Z) (fin : list Z) : Prop :=
  exists i' out' st, cwhile fuel (dec_more len (Z.of_nat cap)) (decode_step code (Z.of_nat cap))
      (Z.of_nat i, Z.of_nat o, out, false) = Ret (i', Z.of_nat (Nat.min cap (o + length y)), out', st) /\
    length out' = n /\
    take (Nat.min cap (o + length y)) out' = fin ++ take (cap - o) y.

Lemma ends_now fuel i o out fin w y : (o = cap)%nat \/ (y = [] /\ (length code <= i)%nat) -> (o <= cap)%nat ->
  dec_state cap o out n fin w -> ends fuel i o out y fin.
Proof.
  intros H Ho (Hn & Hf & _). exists (Z.of_nat i), out, false.
  assert (Nat.min cap (o + length y) = o) as -> by (destruct H as [->|[-> _]]; simpl; lia).
  split; [|split; [done|]].
  - apply cwhile_stop. unfold dec_more, len. simpl. apply andb_false_iff. rewrite !Z.ltb_ge.
    destruct H as [|[_ ?]]; [right|left]; lia.
  - rewrite Hf. destruct H as [->|[-> _]]; [rewrite Nat.sub_diag, take_0|rewrite take_nil]; by rewrite app_nil_r.
Qed.

Lemma ends_pad fuel i o out fin w : (o <= cap)%nat -> code !! i = Some 61 -> (0 < fuel)%nat ->
  dec_state cap o out n fin w -> ends fuel i o out [] fin.
Proof.
  intros Ho Hc Hfu (Hn & Hf & _). destruct (decide (o = cap)) as [->|Hne].
  { apply ends_now with (w := w); [by left|done|]. split_and!; [done|done|lia]. }
  pose proof (lookup_lt_Some _ _ _ Hc). destruct fuel as [|fuel]; [lia|].
  exists (Z.of_nat i), out, true. simpl length. rewrite Nat.add_0_r, Nat.min_r by lia.
  split; [|split; [done|by rewrite take_nil, app_nil_r]].
  erewrite cwhile_step; [|apply more_ok; lia|by apply dec_step_pad]. by apply cwhile_stop.
Qed.

Lemma ends_step fuel i o o' out out' y x fin :
  (i < length code)%nat -> (o < cap)%nat -> (o' <= cap)%nat -> o' = (o + length x)%nat ->
  decode_step code (Z.of_nat cap) (Z.of_nat i, Z.of_nat o, out, false) =
    Ret (Z.of_nat (S i), Z.of_nat o', out', false) ->
  ends fuel (S i) o' out' y (fin ++ x) -> ends (S fuel) i o out (x ++ y) fin.
Proof.
  intros Hi Ho Ho' Ex Hs (i1 & out1 & st & Hrun & Hl & Ht). exists i1, out1, st.
  rewrite length_app, Nat.add_assoc, <- Ex. split; [|split; [done|]].
  - erewrite cwhile_step; [exact Hrun|by apply more_ok|exact Hs].
  - rewrite Ht, <- app_assoc. f_equal. rewrite take_app, (take_ge x) by lia. f_equal. f_equal. lia.
Qed.

(** The first byte takes two characters, the others one each. *)
Lemma decode_byte1 fuel i o out fin w a s1 y :
  Z.of_nat i mod 4 = 0 -> code !! i = Some (dg (a / 4)) -> code !! (i + 1)%nat = Some (dg s1) ->
  is_u8 a -> 0 <= s1 < 64 -> Z.lor (a / 4 * 4) (Z.shiftr s1 4) = a -> (o < cap)%nat ->
  dec_state cap o out n fin w ->
  (forall out', dec_state cap (S o) out' n (fin ++ [a]) (u8 (Z.shiftl s1 4)) ->
     ends fuel (i + 2) (S o) out' y (fin ++ [a])) ->
  ends (S (S fuel)) i o out (a :: y) fin.
Proof.
  intros Hi C0 C1 Ha Hs1 Ja Ho Hst Hk. unfold is_u8 in Ha.
  pose proof (lookup_lt_Some _ _ _ C0). pose proof (lookup_lt_Some _ _ _ C1).
  destruct (dec_step0 code cap i o out n fin w (a / 4) Hi C0) as (out1 & E1 & S1);
    [Z.div_mod_to_equations; lia|lia|exact Hst|].
  destruct (dec_step12 code cap (i + 1) o out1 n fin (a / 4 * 4) s1 1) as (out2 & E2 & S2);
    [by left|Z.div_mod_to_equations; lia|exact C1|exact Hs1|lia|exact S1|].
  change (6 - 2 * 1) with 4 in S2. change (2 + 2 * 1) with 4 in S2. rewrite Ja in S2.
  apply (ends_step (S fuel) i o o out out1 (a :: y) [] fin); [lia|lia|lia|simpl; lia|exact E1|].
  rewrite app_nil_r. replace (S i) with (i + 1)%nat by lia.
  apply (ends_step fuel (i + 1) o (S o) out1 out2 y [a] fin); [lia|lia|lia|simpl; lia|exact E2|].
  replace (S (i + 1)) with (i + 2)%nat by lia. by apply Hk.
Qed.

Lemma decode_byte2 fuel i o out fin w b s2 y :
  Z.of_nat i mod 4 = 2 -> code !! i = Some (dg s2) -> 0 <= s2 < 64 ->
  Z.lor w (Z.shiftr s2 2) = b -> (o < cap)%nat -> dec_state cap o out n fin w ->
  (forall out', dec_state cap (S o) out' n (fin ++ [b]) (u8 (Z.shiftl s2 6)) ->
     ends fuel (i + 1) (S o) out' y (fin ++ [b])) ->
  ends (S fuel) i o out (b :: y) fin.
Proof.
  intros Hi C2 Hs2 Jb Ho Hst Hk. pose proof (lookup_lt_Some _ _ _ C2).
  destruct (dec_step12 code cap i o out n fin w s2 2) as (out3 & E3 & S3);
    [by right|done|exact C2|exact Hs2|lia|exact Hst|].
  change (6 - 2 * 2) with 2 in S3. change (2 + 2 * 2) with 6 in S3. rewrite Jb in S3.
  apply (ends_step fuel i o (S o) out out3 y [b] fin); [lia|lia|lia|simpl; lia|exact E3|].
  replace (S i) with (i + 1)%nat by lia. by apply Hk.
Qed.

Lemma decode_byte3 fuel i o out fin w c s3 y :
  Z.of_nat i mod 4 = 3 -> code !! i = Some (dg s3) -> 0 <= s3 < 64 ->
  Z.lor w s3 = c -> (o < cap)%nat -> dec_state cap o out n fin w ->
  (forall out' w', dec_state cap (S o) out' n (fin ++ [c]) w' ->
     ends fuel (i + 1) (S o) out' y (fin ++ [c])) ->
  ends (S fuel) i o out (c :: y) fin.
Proof.
  intros Hi C3 Hs3 Jc Ho Hst Hk. pose proof (lookup_lt_Some _ _ _ C3).
  destruct (dec_step3 code cap i o out n fin w s3 Hi C3 Hs3) as (out4 & w4 & E4 & S4); [lia|exact Hst|].
  rewrite Jc in S4.
  apply (ends_step fuel i o (S o) out out4 y [c] fin); [lia|lia|lia|simpl; lia|exact E4|].
  replace (S i) with (i + 1)%nat by lia. by eapply Hk.
Qed.

Lemma decode_from x : Forall is_u8 x -> forall fuel i o out fin w,
  Z.of_nat i mod 4 = 0 -> drop i code = b64 x -> (o <= cap)%nat -> (length (b64 x) <= fuel)%nat ->
  dec_state cap o out n fin w -> ends fuel i o out x fin.
Proof.
  induction x as [x IH] using (induction_ltof1 _ (@length Z)); unfold ltof in IH.
  intros Hu fuel i o out fin w Hi Hd Ho Hf Hst.
  destruct (decide (o = cap)) as [->|Hne]; [eapply ends_now; [by left|done|exact Hst]|].
  assert (forall j v, b64 x !! j = Some v -> code !! (i + j)%nat = Some v) as Hget
    by (intros j v Hv; by rewrite <- Hd, lookup_drop in Hv).
  assert (Z.of_nat (i + 2) mod 4 = 2 /\ Z.of_nat (i + 3) mod 4 = 3 /\ Z.of_nat (i + 4) mod 4 = 0)
    as (Hi2 & Hi3 & Hi4) by (split_and!; Z.div_mod_to_equations; lia).
  assert (is_u8 0) as H0 by (unfold is_u8; lia).
  destruct x as [|a x].
  { eapply ends_now; [right; split; [done|]|done|exact Hst]. apply (f_equal length) in Hd.
    rewrite length_drop in Hd. simpl in Hd. lia. }
  assert (4 <= length (b64 (a :: x)))%nat as H4
    by (destruct x as [|b [|c x]]; cbn [b64 app length]; lia).
  do 4 (destruct fuel as [|fuel]; [lia|]).
  apply Forall_cons in Hu as [Ha Hu].
  pose proof (Hget 0%nat (dg (a / 4)) ltac:(by destruct x as [|b [|c x]])) as C0. rewrite Nat.add_0_r in C0.
  destruct x as [|b x].
  { destruct (b64_bounds a 0 Ha H0) as (_ & _ & _ & Hs1 & _). rewrite Z.add_0_r in Hs1.
    eapply decode_byte1; [done|done|by apply Hget|done|done| |lia|exact Hst|].
    { pose proof (join01 a 0 Ha H0) as J. by rewrite Z.add_0_r in J. }
    intros out' Hs. eapply ends_pad; [lia|by apply Hget|lia|exact Hs]. }
  apply Forall_cons in Hu as [Hb Hu]. destruct (b64_bounds a b Ha Hb) as (Ha4 & _ & _ & Hs1 & _).
  eapply decode_byte1; [done|done|apply Hget; by destruct x|done|done|by apply join01|lia|exact Hst|].
  intros out2 S2. clear out Hst.
  destruct (decide (S o = cap)) as [Eq|Hne2]; [eapply ends_now; [by left|lia|exact S2]|].
  destruct x as [|c x].
  { destruct (b64_bounds b 0 Hb H0) as (_ & _ & _ & _ & Hs2). rewrite Z.add_0_r in Hs2.
    eapply decode_byte2; [done|by apply Hget|done| |lia|exact S2|].
    { pose proof (join12 (a mod 4) b 0 Ha4 Hb H0) as J. by rewrite Z.add_0_r in J. }
    intros out' Hs. replace (i + 2 + 1)%nat with (i + 3)%nat by lia.
    eapply ends_pad; [lia|by apply Hget|lia|exact Hs]. }
  apply Forall_cons in Hu as [Hc Hu]. destruct (b64_bounds b c Hb Hc) as (_ & Hb16 & _ & _ & Hs2).
  eapply decode_byte2; [done|by apply Hget|done|by apply join12|lia|exact S2|].
  intros out3 S3. clear out2 S2. replace (i + 2 + 1)%nat with (i + 3)%nat by lia.
  destruct (decide (S (S o) = cap)) as [Eq|Hne3]; [eapply ends_now; [by left|lia|exact S3]|].
  destruct (b64_bounds c 0 Hc H0) as (_ & _ & Hs3 & _).
  eapply decode_byte3; [done|by apply Hget|done|by apply join23|lia|exact S3|].
  intros out4 w4 S4. replace (i + 3 + 1)%nat with (i + 4)%nat by lia.
  apply (IH x) with (w := w4); [simpl; lia|done|done| |lia| |exact S4].
  - rewrite <- drop_drop, Hd. done.
  - cbn [b64 app length] in Hf. lia.
Qed.
End decode_loop.

Lemma decode_ok x out cap : Forall is_u8 x -> (cap <= length out)%nat ->
  exists out', decode (b64 x) (Z.of_nat (length (b64 x))) out (Z.of_nat cap) =
      Ret (out', Z.of_nat (Nat.min cap (length x))) /\
    length out' = length out /\ take (Nat.min cap (length x)) out' = take cap x.
Proof.
  intros Hu Hc.
  destruct (decode_from (b64 x) cap (length out) Hc x Hu (length (b64 x)) 0 0 out [] (default 0 (out !! 0%nat)))
    as (i' & out' & st & Hrun & Hl & Ht); [done|by rewrite drop_0|lia|lia| |].
  { split_and!; [done|done|]. intros H0. by destruct (lookup_lt_is_Some_2 out 0) as [v ->]; [lia|]. }
  exists out'. unfold decode. rewrite Nat2Z.id. fold (dec_more (Z.of_nat (length (b64 x))) (Z.of_nat cap)).
  rewrite Nat.add_0_l in Hrun, Ht. change (Z.of_nat 0) with 0 in Hrun. rewrite Hrun.
  rewrite bind_ret_l. cbv beta iota. rewrite Nat.sub_0_r in Ht. done.
Qed.

(** The value of one hexadecimal digit of a byte, in either case. *)
Definition is_hex (v c : Z) : Prop :=
  (0 <= v < 10 /\ c = 48 + v) \/ (10 <= v < 16 /\ (c = 55 + v \/ c = 87 + v)).

Lemma hex_val_ok v c : is_hex v c -> hex_val c = v.
Proof.
  intros [[H ->]|[H [->| ->]]]; unfold hex_val.
  - replace ((48 <=? 48 + v) && (48 + v <=? 57)) with true by lia. lia.
  - replace ((48 <=? 55 + v) && (55 + v <=? 57)) with false by lia.
    replace ((65 <=? 55 + v) && (55 + v <=? 70)) with true by lia. lia.
  - replace ((48 <=? 87 + v) && (87 + v <=? 57)) with false by lia.
    replace ((65 <=? 87 + v) && (87 + v <=? 70)) with false by lia.
    replace ((97 <=? 87 + v) && (87 + v <=? 102)) with true by lia. lia.
Qed.

(** [asc] spells the bytes [x]. *)
Fixpoint spells (asc x : list Z) : Prop :=
  match x, asc with
  | [], _ => True
  | b :: x', h :: l :: asc' => is_u8 b /\ is_hex (b / 16) h /\ is_hex (b mod 16) l /\ spells asc' x'
  | _, _ => False
  end.

Lemma AToByte_from asc x : forall n p out, spells (drop p asc) x -> (n + length x <= length out)%nat ->
  exists p', cfor (fun n '(p, out) =>
      h ← buf_get asc p; l ← buf_get asc (p + 1);
      out ← buf_write out (Z.of_nat n) [u8 (u8 (Z.shiftl (hex_val h) 4) + hex_val l)];
      Ret (p + 2, out)) (length x) n (Z.of_nat p, out) = Ret (p', splice out n x).
Proof.
  induction x as [|b x IH]; intros n p out Hs Hl.
  - exists (Z.of_nat p). simpl. by rewrite splice_nil by (simpl in Hl; lia).
  - cbn [length cfor]. destruct (drop p asc) as [|h [|l r]] eqn:Ed; try done.
    destruct Hs as (Hb & Hh & Hlo & Hs).
    assert (asc !! p = Some h /\ asc !! (p + 1)%nat = Some l) as [G0 G1].
    { rewrite <- (Nat.add_0_r p) at 1. by rewrite <- !lookup_drop, Ed. }
    rewrite (buf_get_ok asc (Z.of_nat p) h) by (rewrite ?Nat2Z.id; lia || done).
    rewrite bind_ret_l, (buf_get_ok asc _ l); [|lia|by replace (Z.to_nat (Z.of_nat p + 1)) with (p + 1)%nat by lia].
    rewrite bind_ret_l, (hex_val_ok _ _ Hh), (hex_val_ok _ _ Hlo).
    assert (u8 (u8 (Z.shiftl (b / 16) 4) + b mod 16) = b) as ->.
    { unfold is_u8, u8 in *. change (2 ^ 8) with 256 in *. rewrite Z.shiftl_mul_pow2 by lia.
      change (2 ^ 4) with 16. rewrite (Z.mod_small (b / 16 * 16)) by (Z.div_mod_to_equations; lia).
      rewrite Z.mod_small; Z.div_mod_to_equations; lia. }
    cbn [length] in Hl. rewrite buf_write_ok by (cbn [length]; lia). rewrite !bind_ret_l, Nat2Z.id.
    replace (Z.of_nat p + 2) with (Z.of_nat (p + 2)) by lia.
    destruct (IH (S n) (p + 2)%nat (splice out n [b])) as [p' E].
    { rewrite <- drop_drop, Ed. done. }
    { rewrite length_splice; cbn [length]; lia. }
    exists p'. rewrite E. rewrite splice_append by (cbn [length]; lia). done.
Qed.

(** Hexadecimal text, upper or lower case, gives its bytes. *)
Lemma AToByte_ok asc x out : spells asc x -> (length x <= length out)%nat ->
  AToByte asc out (Z.of_nat (length x)) = Ret (splice out 0 x).
Proof.
  intros Hs Hl. unfold AToByte. rewrite Nat2Z.id.
  destruct (AToByte_from asc x 0 0 out) as [p' E]; [by rewrite drop_0|lia|].
  change (Z.of_nat 0) with 0 in E. by rewrite E.
Qed.

(** What follows the text in its buffer does not matter. *)
Lemma decode_step_app code t pEnd i o out st : 0 <= i < Z.of_nat (length code) ->
  decode_step (code ++ t) pEnd (i, o, out, st) = decode_step code pEnd (i, o, out, st).
Proof.
  intros Hi. unfold decode_step. assert (buf_get (code ++ t) i = buf_get code i) as ->; [|done].
  unfold buf_get. rewrite lookup_app_l by lia. done.
Qed.

Lemma decode_step_index code pEnd i o out st i' o' out' st' :
  decode_step code pEnd (i, o, out, st) = Ret (i', o', out', st') -> i' = i \/ i' = i + 1.
Proof.
  unfold decode_step. intros H. cpp_inv H. destruct (64 <=? a0).
  { injection H as <-. by left. }
  cbv zeta in H. repeat case_match; cpp_inv H; injection H as <-; by right.
Qed.

Lemma decode_loop_app code t pEnd (cond := fun '(i, o, _, stop) => negb stop && (i <? Z.of_nat (length code)) && (o <? pEnd)) :
  forall fuel i o out st, 0 <= i ->
  cwhile fuel cond (decode_step (code ++ t) pEnd) (i, o, out, st) =
  cwhile fuel cond (decode_step code pEnd) (i, o, out, st).
Proof.
  induction fuel as [|f IH]; intros i o out st H0; cbn [cwhile]; destruct (cond (i, o, out, st)) eqn:Ec; try done.
  unfold cond in Ec. apply andb_true_iff in Ec as [Ec _]. apply andb_true_iff in Ec as [_ Ec].
  apply Z.ltb_lt in Ec. rewrite decode_step_app by lia.
  destruct (decode_step code pEnd (i, o, out, st)) as [[[[i' o'] out'] st']| | | |] eqn:E; try done.
  rewrite !bind_ret_l. apply decode_step_index in E. apply IH. lia.
Qed.

Lemma decode_app code t out outlen :
  decode (code ++ t) (Z.of_nat (length code)) out outlen = decode code (Z.of_nat (length code)) out outlen.
Proof. unfold decode. apply bind_cong; [|done]. by apply decode_loop_app. Qed.

(** A property of the digits and of the equals sign holds of every character. *)
Lemma b64_digits (P : Z -> Prop) x : (forall v, 0 <= v < 64 -> P (dg v)) -> P 61 -> Forall is_u8 x -> Forall P (b64 x).
Proof.
  intros Hdg Heq Hx.
  induction x as [x IH] using (induction_ltof1 _ (@length Z)); unfold ltof in IH.
  assert (is_u8 0) as H0 by (unfold is_u8; lia).
  assert (forall a, is_u8 a -> 0 <= a / 4 < 64) as H4 by (unfold is_u8; intros; Z.div_mod_to_equations; lia).
  destruct x as [|a [|b [|c r]]]; [constructor|..].
  - apply Forall_cons in Hx as [Ha _]. destruct (b64_bounds a 0 Ha H0) as (_ & _ & _ & H1 & _).
    rewrite Z.add_0_r in H1. specialize (H4 a Ha). cbn [b64]. repeat constructor; auto.
  - apply Forall_cons in Hx as [Ha Hx]. apply Forall_cons in Hx as [Hb _].
    destruct (b64_bounds a b Ha Hb) as (_ & _ & _ & H1 & _).
    destruct (b64_bounds b 0 Hb H0) as (_ & _ & _ & _ & H2). rewrite Z.add_0_r in H2.
    specialize (H4 a Ha). cbn [b64]. repeat constructor; auto.
  - apply Forall_cons in Hx as [Ha Hx]. apply Forall_cons in Hx as [Hb Hx]. apply Forall_cons in Hx as [Hc Hr].
    destruct (b64_bounds a b Ha Hb) as (_ & _ & _ & H1 & _).
    destruct (b64_bounds b c Hb Hc) as (_ & _ & _ & _ & H2).
    destruct (b64_bounds c 0 Hc H0) as (_ & _ & H3 & _).
    specialize (H4 a Ha). cbn [b64 app]. repeat constructor; auto. apply IH; [simpl; lia|done].
Qed.

(** The text is printable and has no percent sign. *)
Lemma dg_range v : 0 <= v < 64 -> 42 < dg v < 123.
Proof.
  intros Hv. assert (forallb (fun v => (42 <? dg v) && (dg v <? 123)) (seqZ 0 64) = true) as H by (vm_compute; reflexivity).
  rewrite forallb_forall in H. specialize (H v ltac:(apply list_elem_of_In, elem_of_seqZ; lia)). lia.
Qed.

Lemma b64_range x : Forall is_u8 x -> Forall (fun c => 42 < c < 123) (b64 x).
Proof. intros Hx. apply b64_digits; [apply dg_range|lia|done]. Qed.

Lemma b64_nonzero x : Forall is_u8 x -> Forall (fun c => c <> 0) (b64 x).
Proof. intros Hx. eapply Forall_impl; [by apply b64_range|]. simpl. lia. Qed.

(** ** Properties *)

(** C10: [encode] writes the RFC 4648 text of its input, padded to a multiple
    of four characters and terminated by a zero; [decode] of that text returns
    the input, cut to the capacity of the output buffer, and reports how many
    bytes it produced; neither leaves its buffers. *)
Theorem base64_roundtrip (x enc out : list Z) (cap : nat) :
  Forall is_u8 x -> (length (b64 x) < length enc)%nat -> (cap <= length out)%nat ->
  encode x (Z.of_nat (length x)) enc = Ret (splice enc 0 (b64 x ++ [0])) /\
  (length (b64 x) = 4 * ((length x + 2) / 3))%nat /\
  exists out', decode (b64 x) (Z.of_nat (length (b64 x))) out (Z.of_nat cap) =
      Ret (out', Z.of_nat (Nat.min cap (length x))) /\
    length out' = length out /\ take (Nat.min cap (length x)) out' = take cap x.
Proof.
  intros Hu He Ho. split; [|split; [apply length_b64|by apply decode_ok]].
  pose proof (encode_ok x (Z.of_nat (length x)) enc) as E. cbv zeta in E.
  rewrite Nat2Z.id, take_ge in E by lia. apply E; [done|lia|done].
Qed.

Lemma base64_roundtrip_witness :
  encode [77; 97; 110; 33] 4 (replicate 9 1) = Ret (codes "TWFuIQ==" ++ [0]) /\
  exists out', decode (codes "TWFuIQ==") 8 (replicate 5 1) 5 = Ret (out', 4) /\
    take 4 out' = [77; 97; 110; 33].
Proof.
  destruct (base64_roundtrip [77; 97; 110; 33] (replicate 9 1) (replicate 5 1) 5)
    as (H1 & _ & out' & H2 & _ & H3).
  1: eval_decide.
  1: eval_decide.
  1: eval_decide.
  split; [exact H1|]. exists out'. split; [exact H2|exact H3].
Defined.

