(* ===== verification/AstPackage.v ===== *)
(** * The packet codec (astPackage/astpackage.h, astpackage.cpp)

    Packets are a 32-byte header and a body; the body may be encrypted and
    carries a MAC keyed by a session.  The class derives its keys with SM3, uses
    the incremental SM4 interface in ECB mode with PKCS5 padding and the Base64
    of the same file.  A [char *] string is its bytes up to the terminator, which
    is part of the buffer where the code looks for it ([strlen]). *)
From S2P Require Import Prelude Words Buffers CString Sm3 Sm4 Sm4Stream Base64.

Definition LENGTH_KI : Z := 32.
Definition LENGTH_KA : Z := 32.
Definition LENGTH_AID : Z := 16.

(** ** The class *)

Record astPackage := mk_astPackage {
  m_KI : list Z;
  m_KA : list Z;
  m_bInit : bool;
  m_AgentID : list Z;
  m_nAidLen : Z;
  m_UUID : list Z
}.

(** The constructor; [KI] is the hash of a constant, [uuid] is not initialised. *)
Definition new_astPackage (junkKI uuid : list Z) : cpp astPackage :=
  ki ← SM3 (codes "20181009") 8 junkKI;
  Ret (mk_astPackage ki (replicate 32 0) true (replicate 64 0) 0 uuid).

Definition InitKA (p : astPackage) (ka : list Z) : cpp astPackage :=
  k ← memcpy (m_KA p) 0 ka 0 LENGTH_KA;
  Ret (mk_astPackage (m_KI p) k (m_bInit p) (m_AgentID p) (m_nAidLen p) (m_UUID p)).

(** [SM3_Init], one [SM3_Update] per part, [SM3_Final]. *)
Definition hash_parts (parts : list (list Z)) : cpp (list Z) :=
  s ← sm3_updates (SM3_Init (Some sm3_initial)).2 parts;
  '(_, _, h) ← SM3_Final s (Some (replicate 32 0));
  Ret (default [] h).

(** The key choice of the packet functions and of the [ByID] functions. *)
Definition root_key (p : astPackage) (index : Z) : list Z := if index =? 1 then m_KA p else m_KI p.

(** What the uninitialised locals of a cipher call hold. *)
Record junk := mk_junk {
  j_obj : SM4_KEY_OBJ;
  j_k : list Z;
  j_pre : list Z;
  j_last : list Z
}.

(** [sm4_InitBlock(&cSM4, pKey, flag, 0, 1, NULL)] on a local object. *)
Definition init_ecb (j : junk) (pKey : list Z) (flag : Z) : cpp (option SM4_KEY_OBJ) :=
  '(_, o) ← sm4_InitBlock (j_k j) (Some (j_obj j)) (Some pKey) flag 0 1 None; Ret o.

(** A call that writes through [out + off], with the status and length it reports. *)
Definition call_at (out : list Z) (off : Z)
    (call : list Z -> cpp (Z * option SM4_KEY_OBJ * option (list Z) * option Z))
    : cpp (Z * option SM4_KEY_OBJ * list Z * Z) :=
  _ ← defined ((0 <=? off) && (off <=? Z.of_nat (length out)));
  '(r, o, sub, n) ← call (drop (Z.to_nat off) out);
  Ret (r, o, take (Z.to_nat off) out ++ default [] sub, default 0 n).

(** ** [PutData] *)

Definition sizeof_header : Z := 32.
(** Conversion of an [int] to [size_t]. *)
Definition size_t (z : Z) : Z := z mod 2 ^ 64.

(** The session key and the MAC of the body. *)
Definition session_key (p : astPackage) (macindex : Z) (sid : list Z) : cpp (list Z) :=
  hash_parts [root_key p macindex; sid].
Definition body_mac (cKey data : list Z) : cpp (list Z) := hash_parts [data; slice 16 16 cKey].

(** The encryption of the body into [out] at [off]: status, buffer, length. *)
Definition encrypt_body (j : junk) (cKey data : list Z) (datalen : Z) (out : list Z) (off cap : Z)
    : cpp (Z * list Z * Z) :=
  o ← init_ecb j cKey 0;
  '(r, o, out, nOutLen) ←
    call_at out off (fun sub => sm4_UpdateBlock (j_pre j) o (Some data) datalen (Some sub) (Some cap) 0);
  if negb (r =? 0) then Ret (1, out, 0)
  else
    '(r, _, out, nLast) ← call_at out (off + nOutLen)
       (fun sub => sm4_FinalBlock (j_last j) o None 0 (Some sub) (Some (cap - nOutLen)) 0);
    if negb (r =? 0) then Ret (2, out, 0) else Ret (0, out, nOutLen + nLast).

Definition PutData (j : junk) (p : astPackage) (data : list Z) (ver type flag : Z) (sid aid : list Z)
    (macindex : Z) (out : list Z) (outlen : Z) : cpp (Z * list Z * Z) :=
  if m_bInit p && negb (macindex =? 0) then Ret (-1, out, outlen)
  else
    nDataLen ← strlen data;
    let nPadLen := if negb (Z.land flag 0x1 =? 0) then 16 - Z.rem nDataLen 16 else 0 in
    nMsgLen ← int_checked (nDataLen + nPadLen);
    if size_t outlen <? size_t (nMsgLen + sizeof_header) then Ret (1, out, outlen)
    else if (macindex =? 0) && (0 <? nPadLen) then Ret (2, out, outlen)
    else
      out ← memset out 28 0 4;
      '(r, out) ←
        (if negb (Z.land flag 0x2 =? 0) then
           sid4 ← buf_read sid 0 4;
           cKey ← session_key p macindex sid4;
           d ← buf_read data 0 nDataLen;
           cMac ← body_mac cKey d;
           out ← memcpy out 28 cMac 0 4;
           if negb (Z.land flag 0x1 =? 0) then
             '(r, out, n) ← encrypt_body j cKey d nDataLen out sizeof_header (outlen - sizeof_header);
             Ret (if r =? 0 then (if nMsgLen =? n then 0 else 5) else r + 2, out)
           else out ← memcpy out sizeof_header data 0 nDataLen; Ret (0, out)
         else out ← memcpy out sizeof_header data 0 nDataLen; Ret (0, out));
      if negb (r =? 0) then Ret (r, out, outlen)
      else
        out ← buf_write out 0 [ver; type; flag; 0];
        out ← memcpy out 24 sid 0 4;
        out ← memcpy out 8 aid 0 16;
        out ← _PutBE32 (nMsgLen + sizeof_header) out 4;
        Ret (0, out, nMsgLen + sizeof_header).

(** ** [GetData] *)

(** The results through reference and pointer arguments. *)
Record getdata_out := mk_getdata_out {
  g_ver : Z;
  g_type : Z;
  g_sid : list Z;
  g_aid : list Z;
  g_data : list Z;
  g_datalen : Z
}.

Definition set_data (g : getdata_out) (d : list Z) (n : Z) : getdata_out :=
  mk_getdata_out (g_ver g) (g_type g) (g_sid g) (g_aid g) d n.

(** The decryption of [edata] into [data]: status, buffer, length of the text. *)
Definition decrypt_body (j : junk) (cKey edata : list Z) (edatalen : Z) (data : list Z) (cap : Z)
    : cpp (Z * list Z * Z) :=
  o ← init_ecb j cKey 1;
  '(r, o, data, nOutLen) ←
    call_at data 0 (fun sub => sm4_UpdateBlock (j_pre j) o (Some edata) (edatalen - 16) (Some sub) (Some cap) 1);
  if negb (r =? 0) then Ret (1, data, 0)
  else
    '(r, _, data, nLast) ← call_at data nOutLen
       (fun sub => sm4_FinalBlock (j_last j) o (Some (drop (Z.to_nat nOutLen) edata)) (edatalen - nOutLen)
                     (Some sub) (Some (cap - nOutLen)) 1);
    if negb (r =? 0) then Ret (2, data, 0) else Ret (0, data, nOutLen + nLast).

(** What follows the MAC check: the copy of a plain body and the header fields. *)
Definition get_fields (msg : list Z) (g : getdata_out) (nDataLen : Z) (plain : bool)
    : cpp (Z * list Z * getdata_out) :=
  if plain && (g_datalen g <=? nDataLen) then Ret (7, msg, g)
  else
    d ← (if plain then memcpy (g_data g) 0 msg sizeof_header nDataLen else Ret (g_data g));
    d ← buf_write d nDataLen [0];
    ver ← buf_get msg 0;
    type ← buf_get msg 1;
    sid ← memcpy (g_sid g) 0 msg 24 4;
    aid ← memcpy (g_aid g) 0 msg 8 16;
    Ret (0, msg, mk_getdata_out ver type sid aid d nDataLen).

Definition GetData (j : junk) (p : astPackage) (msg : list Z) (msglen macindex : Z) (g : getdata_out)
    : cpp (Z * list Z * getdata_out) :=
  if m_bInit p && negb (macindex =? 0) then Ret (-1, msg, g)
  else
    msg ← buf_write msg msglen [0];
    w ← _GetBE32 msg 4;
    let nMsgLen := s32 w in
    if negb (nMsgLen =? msglen) then Ret (1, msg, g)
    else
      let nDataLen := nMsgLen - sizeof_header in
      flag ← buf_get msg 2;
      if negb (Z.land flag 0x2 =? 0) then
        sid ← buf_read msg 24 4;
        cKey ← session_key p macindex sid;
        hmac ← buf_read msg 28 4;
        if negb (Z.land flag 0x1 =? 0) then
          if (nDataLen <? 16) || negb (Z.rem nDataLen 16 =? 0) then Ret (2, msg, g)
          else
            '(r, d, n) ← decrypt_body j cKey (drop 32 msg) nDataLen (g_data g) (g_datalen g);
            let g := set_data g d (g_datalen g) in
            if negb (r =? 0) then Ret (r + 2, msg, g)
            else if g_datalen g <=? n then Ret (5, msg, g)
            else
              text ← buf_read d 0 n;
              cMac ← body_mac cKey text;
              if negb (bool_decide (take 4 cMac = hmac)) then Ret (6, msg, g)
              else get_fields msg g n false
        else
          body ← buf_read msg sizeof_header nDataLen;
          cMac ← body_mac cKey body;
          if negb (bool_decide (take 4 cMac = hmac)) then Ret (6, msg, g)
          else get_fields msg g nDataLen true
      else get_fields msg g nDataLen true.

(** ** The functions keyed by an identifier *)

Definition id_key (p : astPackage) (keyindex : Z) (id : list Z) (idlen : Z) : cpp (list Z) :=
  i ← buf_read id 0 idlen; hash_parts [root_key p keyindex; i].

Definition MacByID (p : astPackage) (data : list Z) (datalen : Z) (id : list Z) (idlen keyindex : Z)
    (mac : list Z) : cpp (Z * list Z) :=
  if (keyindex =? 1) && m_bInit p then Ret (-1, mac)
  else
    cKey ← id_key p keyindex id idlen;
    d ← buf_read data 0 datalen;
    h ← body_mac cKey d;
    mac ← buf_write mac 0 h;
    Ret (0, mac).

Definition EncryptByID (j : junk) (p : astPackage) (data : list Z) (datalen : Z) (id : list Z)
    (idlen keyindex : Z) (out : list Z) (outlen : Z) (mac : list Z) : cpp (Z * list Z * Z * list Z) :=
  if (keyindex =? 1) && m_bInit p then Ret (-1, out, outlen, mac)
  else
    cKey ← id_key p keyindex id idlen;
    '(r, out, n) ← encrypt_body j cKey data datalen out 0 outlen;
    if negb (r =? 0) then Ret (r, out, outlen, mac)
    else
      d ← buf_read data 0 datalen;
      h ← body_mac cKey d;
      mac ← buf_write mac 0 h;
      Ret (0, out, n, mac).

Definition DecryptByID (j : junk) (p : astPackage) (edata : list Z) (edatalen : Z) (id : list Z)
    (idlen keyindex : Z) (out : list Z) (outlen : Z) : cpp (Z * list Z * Z) :=
  if edatalen <? 16 then Ret (1, out, outlen)
  else if (keyindex =? 1) && m_bInit p then Ret (-1, out, outlen)
  else
    cKey ← id_key p keyindex id idlen;
    '(r, out, n) ← decrypt_body j cKey edata edatalen out outlen;
    if negb (r =? 0) then Ret (2, out, outlen) else Ret (0, out, n).

Definition GetAidLen (p : astPackage) : Z := m_nAidLen p.

Definition ToAgentID (p : astPackage) (out : list Z) : cpp (list Z) :=
  n ← strlen (m_AgentID p);
  if n <? 16 then memcpy out 0 (m_AgentID p) 0 (m_nAidLen p) else memcpy out 0 (m_AgentID p) 0 16.

Definition GetMsgLen (msg : list Z) (msglen : Z) : cpp Z :=
  w ← _GetBE32 msg 4;
  let nMsgLen := s32 w in
  if negb (msglen =? nMsgLen) then Ret (-1)
  else if size_t nMsgLen <? sizeof_header then Ret (-2) else Ret nMsgLen.

(** ** Registration: the agent's identifier and key arrive in Base64 *)

(** [decode] of a terminated string. *)
Definition decode_str (s out : list Z) (outlen : Z) : cpp (list Z * Z) :=
  n ← strlen s; decode s n out outlen.

(** [memcmp(mac, cTmp, n) != 0]; it may read all of the [n] bytes. *)
Definition memcmp_ne (a b : list Z) (n : Z) : cpp bool :=
  x ← buf_read a 0 n; y ← buf_read b 0 n; Ret (negb (bool_decide (x = y))).

(** The locals [cTmp], [out] and [mac] start with the bytes [t], [o] and [m]. *)
Definition InitReg (j : junk) (t o m : list Z) (p : astPackage) (aid ka mka id : list Z) (idlen : Z)
    : cpp (Z * astPackage) :=
  '(cTmp, nTmp) ← decode_str ka t 128;
  '(r, out, nOut) ← DecryptByID j p cTmp nTmp id idlen 0 o 128;
  if negb (r =? 0) then Ret (1, p)
  else
    '(cTmp, nTmp) ← decode_str mka cTmp 128;
    '(r, mac) ← MacByID p out nOut id idlen 0 m;
    if negb (r =? 0) then Ret (2, p)
    else
      ne ← memcmp_ne mac cTmp nTmp;
      if (ne : bool) then Ret (3, p)
      else
        ag ← memset (m_AgentID p) 0 0 16;
        n ← strlen aid;
        ag ← AToByte aid ag (n / 2);
        k ← memcpy (m_KA p) 0 out 0 LENGTH_KA;
        Ret (0, mk_astPackage (m_KI p) k false ag (n / 2) (m_UUID p)).

(** ** What the calls compute *)

Lemma hash_parts_ok parts : Forall (Forall is_u8) parts ->
  hash_parts parts = Ret (sm3_spec (mjoin parts)).
Proof.
  intros Hp. unfold hash_parts. change (SM3_Init (Some sm3_initial)).2 with (Some sm3_initial).
  destruct (sm3_updates_inv parts sm3_initial [] sm3_inv_initial Hp) as (c & E & Hi).
  rewrite E, bind_ret_l. destruct (sm3_final_ok c _ (replicate 32 0) Hi ltac:(by rewrite length_replicate)) as [c' E'].
  rewrite E', bind_ret_l. cbv beta iota. simpl default. f_equal. apply splice_all.
  by rewrite length_sm3_spec.
Qed.

Lemma sm3_spec_u8 m : Forall is_u8 (sm3_spec m).
Proof.
  unfold sm3_spec. induction (spec_blocks _ _) as [|x l IH]; [constructor|].
  rewrite mjoin_be_cons. apply Forall_app_2; [apply be_bytes_u8|done].
Qed.

(** The arrays of the class have their declared sizes. *)
Record pkg_ok (p : astPackage) : Prop := {
  pk_KI : length (m_KI p) = 32%nat /\ Forall is_u8 (m_KI p);
  pk_KA : length (m_KA p) = 32%nat /\ Forall is_u8 (m_KA p);
  pk_aid : length (m_AgentID p) = 64%nat;
  pk_uuid : length (m_UUID p) = 64%nat
}.

Record junk_ok (j : junk) : Prop := {
  jo_obj : obj_sizes (j_obj j);
  jo_k : length (j_k j) = 36%nat;
  jo_last : length (j_last j) = 16%nat
}.

Lemma root_key_ok p i : pkg_ok p -> length (root_key p i) = 32%nat /\ Forall is_u8 (root_key p i).
Proof. intros H. unfold root_key. destruct (i =? 1); apply H. Qed.

(** The key and the MAC in closed form. *)
Definition derive (root id : list Z) : list Z := sm3_spec (root ++ id).
Definition mac_of (cKey data : list Z) : list Z := sm3_spec (data ++ slice 16 16 cKey).

Lemma derive_u8 root id : Forall is_u8 (derive root id).
Proof. apply sm3_spec_u8. Qed.
Lemma length_derive root id : length (derive root id) = 32%nat.
Proof. apply length_sm3_spec. Qed.
Lemma length_mac_of k d : length (mac_of k d) = 32%nat.
Proof. apply length_sm3_spec. Qed.

Lemma session_key_ok p i sid : pkg_ok p -> Forall is_u8 sid ->
  session_key p i sid = Ret (derive (root_key p i) sid).
Proof.
  intros Hp Hs. unfold session_key. rewrite hash_parts_ok.
  - unfold derive. simpl mjoin. by rewrite app_nil_r.
  - destruct (root_key_ok p i Hp). repeat constructor; done.
Qed.

Lemma body_mac_ok k d : Forall is_u8 k -> Forall is_u8 d -> body_mac k d = Ret (mac_of k d).
Proof.
  intros Hk Hd. unfold body_mac. rewrite hash_parts_ok.
  - unfold mac_of. simpl mjoin. by rewrite app_nil_r.
  - repeat constructor; [done|]. by apply Forall_slice.
Qed.

Lemma id_key_ok p i id idlen : pkg_ok p -> Forall is_u8 (take (Z.to_nat idlen) id) -> 0 <= idlen <= Z.of_nat (length id) ->
  id_key p i id idlen = Ret (derive (root_key p i) (take (Z.to_nat idlen) id)).
Proof.
  intros Hp Hs Hl. unfold id_key. rewrite buf_read_ok by lia. rewrite bind_ret_l.
  change (slice (Z.to_nat 0) (Z.to_nat idlen) id) with (take (Z.to_nat idlen) id).
  by apply session_key_ok.
Qed.

(** ** Bodies *)

(** The cipher of a body under a session key. *)
Definition body_cipher (cKey : list Z) : list Z -> list Z := spec_crypt (spec_rk (quad_of (words4 cKey))).
Definition encrypted (cKey m : list Z) : list Z :=
  ecb (body_cipher cKey) (nblocks (pad_msg 1 m)) (pad_msg 1 m).

Lemma length_encrypted k m : length (encrypted k m) = length (pad_msg 1 m).
Proof. unfold encrypted. rewrite length_ecb. symmetry. apply length_pad_msg. Qed.

Lemma length_pad1 m : (length m < length (pad_msg 1 m) <= length m + 16)%nat.
Proof.
  unfold pad_msg, pad_len. rewrite length_app, length_replicate. simpl.
  pose proof (Nat.mod_upper_bound (length m) 16 ltac:(lia)). lia.
Qed.

Lemma call_at_ok out off call r o sub n :
  (off <= length out)%nat -> call (drop off out) = Ret (r, o, Some sub, Some n) ->
  call_at out (Z.of_nat off) call = Ret (r, o, take off out ++ sub, n).
Proof.
  intros Ho Hc. unfold call_at. rewrite defined_true by lia. rewrite bind_ret_l, Nat2Z.id, Hc. done.
Qed.

Lemma splice_at (out : list Z) off y : (off + length y <= length out)%nat ->
  take off out ++ splice (drop off out) 0 y = splice out off y.
Proof. intros H. unfold splice. rewrite take_0, app_nil_l, drop_drop. done. Qed.

Lemma init_ecb_ok j cKey fl : junk_ok j -> Forall is_u8 cKey -> (16 <= length cKey)%nat -> 0 <= fl <= 2 ->
  exists o v, init_ecb j cKey fl = Ret (Some o) /\ holds (init_key (j_obj j) cKey fl) 0 1 o v [].
Proof.
  intros Hj Hu Hl Hf. unfold init_ecb.
  destruct (InitBlock_ok (j_k j) (j_obj j) cKey fl 0 1 None (jo_obj j Hj) (jo_k j Hj) Hu Hl Hf
    ltac:(by left)) as (o & E & Hh); [done|].
  exists o. eexists. rewrite E. split; [done|exact Hh].
Qed.

Lemma encrypt_body_ok j cKey data datalen out off cap :
  let m := take (Z.to_nat datalen) data in
  junk_ok j -> Forall is_u8 cKey -> (16 <= length cKey)%nat -> 0 <= datalen <= Z.of_nat (length data) ->
  datalen + 16 < 2 ^ 31 -> Z.of_nat (length (pad_msg 1 m)) <= cap ->
  Z.of_nat off + cap <= Z.of_nat (length out) ->
  encrypt_body j cKey data datalen out (Z.of_nat off) cap =
    Ret (0, splice out off (encrypted cKey m), Z.of_nat (length (pad_msg 1 m))).
Proof.
  intros m Hj Hu Hl Hd Hov Hc Ho. set (p := pad_msg 1 m) in *.
  assert (length m = Z.to_nat datalen) as Hm by (unfold m; rewrite length_take; lia).
  pose proof (length_pad1 m) as Hpm. fold p in Hpm.
  pose proof (length_pad_msg 1 m) as Hp. fold p in Hp.
  destruct (init_ecb_ok j cKey 0 Hj Hu Hl ltac:(lia)) as (o & v & E & Hh).
  set (k := init_key (j_obj j) cKey 0) in *.
  pose proof (init_key_usable (j_obj j) cKey 0 0 0 (jo_obj j Hj) ltac:(lia) ltac:(by left) ltac:(by left)) as Hus.
  fold k in Hus.
  unfold encrypt_body. rewrite E, bind_ret_l.
  set (n := (length m / 16)%nat). set (y := run_out k 0 0 v n m).
  set (ey := pad_msg 1 (drop (16 * n) m)).
  destruct (run_pad k 0 0 v 1 m) as [Er _]. fold n y ey p in Er. rewrite run_ecb in Er.
  assert (spec_crypt (ERK k) = body_cipher cKey) as Ek
    by (unfold k, body_cipher; rewrite ERK_init_key; reflexivity).
  rewrite Ek in Er.
  set (z := run_out k 0 0 _ (nblocks ey) ey) in Er.
  assert (encrypted cKey m = y ++ z) as Een by exact Er.
  pose proof (length_encrypted cKey m) as Hyz. fold p in Hyz. rewrite Een, length_app in Hyz.
  assert (length z = 16)%nat as Hz.
  { pose proof (Nat.div_mod_eq (length m) 16). pose proof (Nat.mod_upper_bound (length m) 16 ltac:(lia)).
    destruct (pad_block 1 (drop (16 * n) m)) as [_ Hn]; [by right|rewrite length_drop; lia|by right|].
    fold ey in Hn. unfold z. rewrite length_run_out by (by left). rewrite Hn. done. }
  destruct (UpdateBlock_ok k 0 0 1 (j_pre j) o v [] data datalen (Some (drop off out)) (Some cap) Hus Hh)
    as (o1 & E1 & Hh1); [lia|by right| |].
  { rewrite app_nil_l. fold m n y. split; [lia|]. simpl default. rewrite length_drop. lia. }
  rewrite app_nil_l in E1, Hh1. fold m in E1, Hh1. fold n in E1, Hh1. fold y in E1.
  simpl out_after in E1. erewrite call_at_ok; [|lia|exact E1]. rewrite bind_ret_l. cbv beta iota.
  rewrite splice_at by lia. cbn [negb Z.eqb].
  destruct (FinalBlock_enc_ok (j_last j) k 0 1 o1 _ _ (drop (off + length y) (splice out off y))
    (cap - Z.of_nat (length y)) Hus Hh1 ltac:(by right)) as (o2 & E2).
  { rewrite length_drop, length_splice; lia. }
  fold ey z in E2. replace (Z.of_nat off + Z.of_nat (length y)) with (Z.of_nat (off + length y)) by lia.
  erewrite call_at_ok; [|rewrite length_splice; lia|exact E2]. rewrite bind_ret_l. cbv beta iota.
  rewrite splice_at by (rewrite length_splice; lia). rewrite splice_splice by lia.
  cbn [negb Z.eqb]. rewrite <- Een. do 2 f_equal. lia.
Qed.


Lemma decrypt_body_ok j cKey m edata data cap :
  let p := pad_msg 1 m in let e := encrypted cKey m in
  junk_ok j -> Forall is_u8 cKey -> (16 <= length cKey)%nat -> Forall is_u8 m ->
  Z.of_nat (length m) + 48 < 2 ^ 31 -> take (length p) edata = e ->
  Z.of_nat (length p) <= cap <= Z.of_nat (length data) ->
  decrypt_body j cKey edata (Z.of_nat (length p)) data cap =
    Ret (0, splice data 0 m, Z.of_nat (length m)).
Proof.
  intros p e Hj Hu Hl Hm Hov Hed Hc.
  pose proof (length_pad1 m) as Hpm. fold p in Hpm.
  pose proof (length_pad_msg 1 m) as Hp. fold p in Hp.
  assert (length e = length p) as He by apply length_encrypted.
  assert (length p <= length edata)%nat as Hedl
    by (rewrite <- He, <- Hed; rewrite length_take; lia).
  destruct (init_ecb_ok j cKey 1 Hj Hu Hl ltac:(lia)) as (o & v & E & Hh).
  pose proof (init_key_usable (j_obj j) cKey 1 1 0 (jo_obj j Hj) ltac:(lia) ltac:(by right; left) ltac:(by left)) as Hus.
  pose proof (init_key_ok (j_obj j) cKey 1 ltac:(lia)) as Hko.
  pose proof (ERK_init_key (j_obj j) cKey 1) as Ek.
  set (k := init_key (j_obj j) cKey 1) in *. clearbody k.
  unfold decrypt_body. rewrite E, bind_ret_l.
  set (d := take (length p - 16) edata). set (lastb := drop (length p - 16) e).
  assert (length d = length p - 16)%nat as Hdl by (unfold d; rewrite length_take; lia).
  assert (d ++ lastb = e) as Hde.
  { unfold d, lastb. rewrite <- Hed, skipn_firstn_comm.
    replace (length p - (length p - 16))%nat with 16%nat by lia.
    rewrite take_take_drop. f_equal. lia. }
  assert (run_out k 1 0 v (nblocks p) (d ++ lastb) = p) as Hrun.
  { rewrite run_unecb, Hde. unfold e, encrypted, body_cipher. rewrite <- Ek.
    apply ecb_roundtrip; [done|by apply pad_msg_u8|done]. }
  assert (length lastb = 16)%nat as Hlb by (unfold lastb; rewrite length_drop; lia).
  pose proof (decrypt_pieces k 0 v m d lastb ltac:(rewrite Hde; exact (eq_trans He Hp)) ltac:(lia) Hrun) as (Hlen & Ex & Et).
  set (n := (length d / 16)%nat) in *.
  assert (drop (16 * n) d = []) as Hdrop by (apply length_zero_iff_nil; lia).
  rewrite Hdrop in Et. rewrite app_nil_l in Et. assert (16 * n = length d)%nat as Hn.
  { apply (f_equal length) in Hdrop. rewrite length_drop in Hdrop. simpl in Hdrop.
    pose proof (Nat.div_mod_eq (length d) 16). fold n in H. lia. }
  destruct (UpdateBlock_ok k 1 0 1 (j_pre j) o v [] edata (Z.of_nat (length p) - 16)
    (Some (drop 0 data)) (Some cap) Hus Hh) as (o1 & E1 & Hh1); [lia|by right| |].
  { rewrite app_nil_l. replace (Z.to_nat (Z.of_nat (length p) - 16)) with (length p - 16)%nat by lia.
    fold d n. rewrite Ex, length_take. split; [lia|]. simpl default. rewrite length_drop. lia. }
  rewrite app_nil_l in E1, Hh1.
  replace (Z.to_nat (Z.of_nat (length p) - 16)) with (length p - 16)%nat in E1, Hh1 by lia.
  fold d in E1, Hh1. fold n in E1, Hh1. rewrite Ex in E1. rewrite Hdrop in Hh1.
  set (x := take (16 * n) m) in *. assert (length x = 16 * n)%nat as Hx.
  { apply (f_equal length) in Ex. rewrite length_run_out in Ex by (by right; left). exact (eq_sym Ex). }
  change (out_after (Some (drop 0 data)) 0 x) with (Some (splice (drop 0 data) 0 x)) in E1.
  pose proof (call_at_ok data 0 (fun sub => sm4_UpdateBlock (j_pre j) (Some o) (Some edata)
    (Z.of_nat (length p) - 16) (Some sub) (Some cap) 1) _ _ _ _ ltac:(lia) E1) as Hcall.
  change (Z.of_nat 0) with 0 in Hcall. rewrite Hcall. clear Hcall. rewrite bind_ret_l. cbv beta iota.
  rewrite splice_at by lia. cbn [negb Z.eqb]. rewrite Nat2Z.id.
  pose proof (FinalBlock_dec_ok (j_last j) k 0 1 o1 _ _ (drop (length x) edata)
    (Z.of_nat (length p) - Z.of_nat (length x)) (drop (length x) (splice data 0 x))
    (cap - Z.of_nat (length x)) Hus Hh1 ltac:(by right) (jo_last j Hj)) as Hfin.
  cbv zeta in Hfin. rewrite length_drop in Hfin. specialize (Hfin ltac:(lia)).
  replace (Z.to_nat (Z.of_nat (length p) - Z.of_nat (length x))) with 16%nat in Hfin by lia.
  assert (take 16 (drop (length x) edata) = lastb) as Htl.
  { unfold lastb. rewrite <- Hed, skipn_firstn_comm, Hx, Hn, Hdl.
    by replace (length p - (length p - 16))%nat with 16%nat by lia. }
  rewrite Htl, app_nil_l, Et, spec_unpad_pkcs5 in Hfin.
  specialize (Hfin ltac:(simpl; lia)). rewrite length_drop, length_splice in Hfin by lia.
  destruct (Hfin ltac:(lia)) as [o2 E2]. cbn [Z.eqb] in E2. rewrite Nat2Z.id in E2.
  unfold pad_msg in E2. rewrite take_app_length in E2.
  erewrite call_at_ok; [|rewrite length_splice; lia|exact E2]. rewrite bind_ret_l. cbv beta iota.
  assert (x ++ drop (16 * n) m = m) as Hxm by apply take_drop.
  assert (length (drop (16 * n) m) = length m - 16 * n)%nat as Hdm by apply length_drop.
  assert (length x + length (drop (16 * n) m) = length m)%nat as Hsum
    by (rewrite <- length_app; by rewrite Hxm).
  rewrite splice_at by (rewrite length_splice; lia).
  rewrite (splice_append data 0 (length x)) by lia. rewrite Hxm. cbn [negb Z.eqb]. do 2 f_equal. lia.
Qed.

(** ** Packets *)

Definition header (ver type flag len : Z) (aid sid mac : list Z) : list Z :=
  [ver; type; flag; 0] ++ be_bytes len ++ aid ++ sid ++ mac.

(** The packet that carries the text [m]. *)
Definition packet (root : list Z) (m : list Z) (ver type flag : Z) (sid aid : list Z) : list Z :=
  let cKey := derive root sid in
  let body := if flag =? 3 then encrypted cKey m else m in
  let mac := if flag =? 0 then [0; 0; 0; 0] else take 4 (mac_of cKey m) in
  header ver type flag (Z.of_nat (32 + length body)) aid sid mac ++ body.

Lemma length_header ver type flag len aid sid mac :
  length (header ver type flag len aid sid mac) = (8 + length aid + length sid + length mac)%nat.
Proof. unfold header. rewrite !length_app, length_be_bytes. simpl length. lia. Qed.

Lemma header_fields ver type flag len aid sid mac tail :
  length aid = 16%nat -> length sid = 4%nat -> length mac = 4%nat ->
  let msg := header ver type flag len aid sid mac ++ tail in
  slice 4 4 msg = be_bytes len /\ slice 8 16 msg = aid /\ slice 24 4 msg = sid /\ slice 28 4 msg = mac /\
  drop 32 msg = tail /\ msg !! 0%nat = Some ver /\ msg !! 1%nat = Some type /\ msg !! 2%nat = Some flag.
Proof.
  intros Ha Hs Hm msg. unfold msg, header.
  do 16 (destruct aid as [|? aid]; [discriminate|]). destruct aid; [|discriminate].
  do 4 (destruct sid as [|? sid]; [discriminate|]). destruct sid; [|discriminate].
  do 4 (destruct mac as [|? mac]; [discriminate|]). destruct mac; [|discriminate].
  split_and!; reflexivity.
Qed.

(** The header and the body as [PutData] stores them, field after field. *)
Lemma put_fields (out : list Z) ver type flag len aid sid mac body :
  length aid = 16%nat -> length sid = 4%nat -> length mac = 4%nat ->
  (32 + length body <= length out)%nat ->
  splice (splice (splice (splice (splice (splice out 28 mac) 32 body) 0 [ver; type; flag; 0]) 24 sid) 8 aid)
    4 (be_bytes len) =
  splice out 0 (header ver type flag len aid sid mac ++ body).
Proof.
  intros Ha Hs Hm Ho. pose proof (length_be_bytes len) as Hb.
  assert (length [ver; type; flag; 0] = 4%nat) as H4 by reflexivity.
  set (h := [ver; type; flag; 0]) in *.
  rewrite (splice_append out 28 32 mac body) by (rewrite ?Hm; lia).
  set (x := mac ++ body). assert (length x = 4 + length body)%nat as Hx by (unfold x; rewrite length_app; lia).
  rewrite (splice_comm out 0 h 28 x) by lia.
  rewrite (splice_comm (splice out 0 h) 24 sid 28 x) by splen.
  rewrite (splice_comm (splice (splice out 0 h) 24 sid) 8 aid 28 x) by splen.
  rewrite (splice_comm (splice out 0 h) 8 aid 24 sid) by splen.
  rewrite (splice_comm (splice (splice (splice out 0 h) 8 aid) 24 sid) 4 (be_bytes len) 28 x)
    by splen.
  rewrite (splice_comm (splice (splice out 0 h) 8 aid) 4 (be_bytes len) 24 sid)
    by splen.
  rewrite (splice_comm (splice out 0 h) 4 (be_bytes len) 8 aid) by splen.
  rewrite (splice_append out 0 4 h) by lia.
  rewrite (splice_append out 0 8) by splen.
  rewrite (splice_append out 0 24) by splen.
  rewrite (splice_append out 0 28) by splen.
  unfold header, x. f_equal. rewrite <- !app_assoc. done.
Qed.

Lemma size_t_small z : 0 <= z < 2 ^ 64 -> size_t z = z.
Proof. intros. by apply Z.mod_small. Qed.

Lemma length_packet root m ver type flag sid aid : length sid = 4%nat -> length aid = 16%nat ->
  length (packet root m ver type flag sid aid) =
    (32 + (if (flag =? 3)%Z then length (pad_msg 1 m) else length m))%nat.
Proof.
  intros Hs Ha. unfold packet. rewrite length_app, length_header, Hs, Ha.
  assert (length (if flag =? 0 then [0; 0; 0; 0] else take 4 (mac_of (derive root sid) m)) = 4%nat) as ->.
  { destruct (flag =? 0); [done|]. rewrite length_take, length_mac_of. done. }
  destruct (flag =? 3); [by rewrite length_encrypted|done].
Qed.

(** The packet kinds whose body [PutData] defines: plain, with a MAC, encrypted with a MAC. *)
Definition flag_ok (flag : Z) : Prop := flag = 0 \/ flag = 2 \/ flag = 3.

Lemma PutData_ok j p m r ver type flag sid aid macindex out outlen :
  let pk := packet (root_key p macindex) m ver type flag sid aid in
  junk_ok j -> pkg_ok p -> flag_ok flag -> cstring m ->
  length sid = 4%nat -> length aid = 16%nat -> Forall is_u8 sid ->
  (macindex = 0 -> flag <> 3) -> (m_bInit p = true -> macindex = 0) ->
  Z.of_nat (length m) + 64 < 2 ^ 31 ->
  Z.of_nat (length pk) <= outlen <= Z.of_nat (length out) -> outlen < 2 ^ 31 ->
  PutData j p (m ++ 0 :: r) ver type flag sid aid macindex out outlen =
    Ret (0, splice out 0 pk, Z.of_nat (length pk)).
Proof.
  intros pk Hj Hp Hf Hm Hs Ha Hsu Hmi Hini Hml Ho Hol.
  assert (Forall is_u8 m) as Hmu by (eapply Forall_impl; [exact Hm|]; unfold is_u8; simpl; lia).
  assert (strlen (m ++ 0 :: r) = Ret (Z.of_nat (length m))) as Hsl.
  { apply strlen_ok. eapply Forall_impl; [exact Hm|]. simpl. lia. }
  pose proof (length_packet (root_key p macindex) m ver type flag sid aid Hs Ha) as Hpk. fold pk in Hpk.
  pose proof (length_pad1 m) as Hpm.
  unfold PutData. replace (m_bInit p && negb (macindex =? 0)) with false
    by (destruct (m_bInit p); [rewrite Hini by done|]; reflexivity).
  rewrite Hsl, bind_ret_l. rewrite Z.rem_mod_nonneg by lia.
  set (nPad := if negb (Z.land flag 1 =? 0) then 16 - Z.of_nat (length m) mod 16 else 0).
  assert (Z.of_nat (length m) + nPad + 32 = Z.of_nat (length pk)) as Hn.
  { rewrite Hpk. unfold nPad. destruct Hf as [->|[->| ->]];
      [change (Z.land 0 1) with 0|change (Z.land 2 1) with 0|change (Z.land 3 1) with 1];
      cbn [Z.eqb Pos.eqb negb]; [lia|lia|].
    unfold pad_msg, pad_len. rewrite length_app, length_replicate.
    pose proof (Nat.mod_upper_bound (length m) 16 ltac:(lia)). change (1 =? 0) with false. cbv iota.
    rewrite !Nat2Z.inj_add, Nat2Z.inj_sub, Nat2Z.inj_mod by lia. change (Z.of_nat 16) with 16. lia. }
  cbv zeta. rewrite int_checked_id by (unfold is_int; lia). rewrite bind_ret_l.
  unfold sizeof_header at 1. rewrite !size_t_small by lia.
  replace (outlen <? Z.of_nat (length m) + nPad + 32) with false by lia.
  replace ((macindex =? 0) && (0 <? nPad)) with false.
  2:{ symmetry. apply andb_false_iff. destruct (Z.eqb_spec macindex 0) as [E|]; [right|by left].
      specialize (Hmi E). unfold nPad. destruct Hf as [->|[->| ->]]; cbn; done. }
  unfold memset. rewrite decide_True, buf_write_ok by (rewrite ?length_replicate; lia).
  rewrite bind_ret_l. change (Z.to_nat 28) with 28%nat. change (replicate (Z.to_nat 4) 0) with [0; 0; 0; 0].
  set (cKey := derive (root_key p macindex) sid).
  set (mac := if flag =? 0 then [0; 0; 0; 0] else take 4 (mac_of cKey m)).
  set (body := if flag =? 3 then encrypted cKey m else m).
  assert (length mac = 4%nat) as Hmacl
    by (unfold mac; destruct (flag =? 0); [done|rewrite length_take, length_mac_of; done]).
  assert (length pk = 32 + length body)%nat as Hbody
    by (rewrite Hpk; unfold body; destruct (flag =? 3); [by rewrite length_encrypted|done]).
  assert (32 + length m <= length out)%nat as Hroom
    by (rewrite Hpk in Ho; destruct (flag =? 3); lia).
  assert (forall b o, (32 + length m <= length b)%nat ->
    o = Ret (splice b 32 m) -> memcpy b sizeof_header (m ++ 0 :: r) 0 (Z.of_nat (length m)) = o) as Hcopy.
  { intros b o Hb ->. unfold sizeof_header. rewrite memcpy_ok by (rewrite ?length_app; cbn [length]; lia).
    rewrite Nat2Z.id. change (slice (Z.to_nat 0)) with (slice (A:=Z) 0).
    rewrite slice_app_l, slice_all by lia. done. }
  match goal with |- (_ ≫= ?f) = _ => transitivity (Ret (0, splice (splice out 28 mac) 32 body) ≫= f) end.
  - apply (bind_cong _ _ _ _); [|done].
    destruct Hf as [->|[->| ->]]; cbn [Z.land Z.eqb Pos.land Pos.eqb negb]; cbv iota.
    + unfold mac, body. cbn [Z.eqb]. erewrite Hcopy; [|splen|reflexivity]. rewrite bind_ret_l. done.
    + rewrite (buf_read_ok sid) by lia. rewrite bind_ret_l.
      change (slice (Z.to_nat 0) (Z.to_nat 4) sid) with (take 4 sid). rewrite take_ge by lia.
      rewrite session_key_ok by done. rewrite bind_ret_l. fold cKey.
      rewrite (buf_read_ok (m ++ 0 :: r)) by (rewrite ?length_app; cbn [length]; lia). rewrite bind_ret_l, Nat2Z.id.
      change (slice (Z.to_nat 0)) with (slice (A:=Z) 0). rewrite slice_app_l, slice_all by lia.
      rewrite body_mac_ok by (apply derive_u8 || done). rewrite bind_ret_l.
      rewrite memcpy_ok by (rewrite ?length_mac_of; splen || lia). rewrite bind_ret_l.
      change (slice (Z.to_nat 0) (Z.to_nat 4) (mac_of cKey m)) with mac.
      rewrite splice_over by (rewrite ?Hmacl; done || (cbn [length]; lia)).
      erewrite Hcopy; [|splen|reflexivity]. rewrite bind_ret_l. done.
    + rewrite (buf_read_ok sid) by lia. rewrite bind_ret_l.
      change (slice (Z.to_nat 0) (Z.to_nat 4) sid) with (take 4 sid). rewrite take_ge by lia.
      rewrite session_key_ok by done. rewrite bind_ret_l. fold cKey.
      rewrite (buf_read_ok (m ++ 0 :: r)) by (rewrite ?length_app; cbn [length]; lia). rewrite bind_ret_l, Nat2Z.id.
      change (slice (Z.to_nat 0)) with (slice (A:=Z) 0). rewrite slice_app_l, slice_all by lia.
      rewrite body_mac_ok by (apply derive_u8 || done). rewrite bind_ret_l.
      rewrite memcpy_ok by (rewrite ?length_mac_of; splen || lia). rewrite bind_ret_l.
      change (slice (Z.to_nat 0) (Z.to_nat 4) (mac_of cKey m)) with mac.
      rewrite splice_over by (rewrite ?Hmacl; done || (cbn [length]; lia)).
      unfold sizeof_header. change 32 with (Z.of_nat 32) at 1.
      rewrite encrypt_body_ok; [|done|apply derive_u8|unfold cKey; rewrite length_derive; lia|lia|lia| |].
      * rewrite Nat2Z.id, take_ge by lia. rewrite bind_ret_l. cbv beta iota. cbn [Z.eqb].
        replace (Z.of_nat (length m) + nPad =? Z.of_nat (length (pad_msg 1 m))) with true; [done|].
        symmetry. apply Z.eqb_eq. cbn [Z.eqb Pos.eqb] in Hpk. lia.
      * rewrite Nat2Z.id, take_ge by lia. cbn [Z.eqb Pos.eqb] in Hpk. lia.
      * splen.
  - rewrite bind_ret_l. cbv beta iota. cbn [negb Z.eqb].
    rewrite buf_write_ok by splen. rewrite bind_ret_l.
    rewrite memcpy_ok by splen. rewrite bind_ret_l.
    change (slice (Z.to_nat 0) (Z.to_nat 4) sid) with (take 4 sid). rewrite (take_ge sid) by lia.
    rewrite memcpy_ok by splen. rewrite bind_ret_l. unfold sizeof_header.
    change (slice (Z.to_nat 0) (Z.to_nat 16) aid) with (take 16 aid). rewrite (take_ge aid) by lia.
    change (Z.to_nat 8) with 8%nat. change (Z.to_nat 24) with 24%nat. change (Z.to_nat 0) with 0%nat.
    rewrite PutBE32_ok by splen. rewrite bind_ret_l, Hn. change (Z.to_nat 4) with 4%nat. rewrite put_fields by (done || lia).
    unfold pk, packet. fold cKey. fold mac. fold body. rewrite <- Hbody. done.
Qed.

Lemma get_fields_ok root m ver type flag sid aid tail g plain :
  let pk := packet root m ver type flag sid aid in
  length sid = 4%nat -> length aid = 16%nat ->
  (4 <= length (g_sid g))%nat -> (16 <= length (g_aid g))%nat ->
  Z.of_nat (length m) < g_datalen g <= Z.of_nat (length (g_data g)) ->
  (plain = true -> flag <> 3) -> (plain = false -> take (length m) (g_data g) = m) ->
  get_fields (pk ++ tail) g (Z.of_nat (length m)) plain =
    Ret (0, pk ++ tail, mk_getdata_out ver type (splice (g_sid g) 0 sid) (splice (g_aid g) 0 aid)
           (splice (if plain then splice (g_data g) 0 m else g_data g) (length m) [0]) (Z.of_nat (length m))).
Proof.
  intros pk Hs Ha Hgs Hga Hd Hpf Hpt. unfold pk, packet.
  set (mac := if flag =? 0 then _ else _). set (body := if flag =? 3 then _ else _).
  assert (length mac = 4%nat) as Hmac
    by (unfold mac; destruct (flag =? 0); [done|rewrite length_take, length_mac_of; done]).
  rewrite <- app_assoc.
  destruct (header_fields ver type flag (Z.of_nat (32 + length body)) aid sid mac (body ++ tail) Ha Hs Hmac)
    as (_ & Eaid & Esid & _ & Edrop & Ever & Etype & _).
  set (msg := header _ _ _ _ _ _ _ ++ _) in *.
  assert (length msg = 32 + length body + length tail)%nat as Hl
    by (unfold msg; rewrite !length_app, length_header; lia).
  unfold get_fields.
  replace (plain && (g_datalen g <=? Z.of_nat (length m))) with false
    by (symmetry; apply andb_false_iff; right; lia).
  assert ((if plain then memcpy (g_data g) 0 msg sizeof_header (Z.of_nat (length m)) else Ret (g_data g)) =
    Ret (if plain then splice (g_data g) 0 m else g_data g)) as ->.
  { destruct plain; [|done]. assert (body = m) as Eb by (unfold body; by replace (flag =? 3) with false by lia).
    unfold sizeof_header. rewrite memcpy_ok by (rewrite ?Hl, ?Eb; lia). rewrite Nat2Z.id.
    change (Z.to_nat 32) with 32%nat. unfold slice. rewrite Edrop, Eb, take_app_length. done. }
  rewrite bind_ret_l. set (d := if plain then _ else _).
  assert (length d = length (g_data g)) as Hdl by (unfold d; destruct plain; [splen|done]).
  rewrite buf_write_ok by (cbn [length]; lia). rewrite bind_ret_l, Nat2Z.id.
  rewrite (buf_get_ok msg 0 ver), bind_ret_l by done.
  rewrite (buf_get_ok msg 1 type), bind_ret_l by done.
  rewrite (memcpy_ok (g_sid g)) by lia. rewrite bind_ret_l.
  rewrite (memcpy_ok (g_aid g)) by lia. rewrite bind_ret_l.
  change (Z.to_nat 24) with 24%nat. change (Z.to_nat 4) with 4%nat. change (Z.to_nat 8) with 8%nat.
  change (Z.to_nat 16) with 16%nat. change (Z.to_nat 0) with 0%nat. by rewrite Esid, Eaid.
Qed.

Lemma GetData_ok j p m ver type flag sid aid macindex c rest g :
  let pk := packet (root_key p macindex) m ver type flag sid aid in
  junk_ok j -> pkg_ok p -> flag_ok flag -> Forall is_u8 m ->
  length sid = 4%nat -> length aid = 16%nat -> Forall is_u8 sid ->
  (m_bInit p = true -> macindex = 0) -> Z.of_nat (length m) + 64 < 2 ^ 31 ->
  (4 <= length (g_sid g))%nat -> (16 <= length (g_aid g))%nat ->
  Z.of_nat (length m) < g_datalen g <= Z.of_nat (length (g_data g)) ->
  (flag = 3 -> Z.of_nat (length (pad_msg 1 m)) <= g_datalen g) ->
  GetData j p (pk ++ c :: rest) (Z.of_nat (length pk)) macindex g =
    Ret (0, pk ++ 0 :: rest, mk_getdata_out ver type (splice (g_sid g) 0 sid) (splice (g_aid g) 0 aid)
           (splice (g_data g) 0 (m ++ [0])) (Z.of_nat (length m))).
Proof.
  intros pk Hj Hp Hf Hmu Hs Ha Hsu Hini Hml Hgs Hga Hd H3.
  pose proof (length_packet (root_key p macindex) m ver type flag sid aid Hs Ha) as Hpk. fold pk in Hpk.
  pose proof (length_pad1 m) as Hpm.
  unfold GetData. replace (m_bInit p && negb (macindex =? 0)) with false
    by (destruct (m_bInit p); [rewrite Hini by done|]; reflexivity).
  rewrite buf_write_ok by (rewrite ?length_app; cbn [length]; lia). rewrite bind_ret_l, Nat2Z.id.
  assert (splice (pk ++ c :: rest) (length pk) [0] = pk ++ 0 :: rest) as ->.
  { unfold splice. rewrite take_app_length, drop_app_ge by (cbn [length]; lia).
    cbn [length]. replace (length pk + 1 - length pk)%nat with 1%nat by lia. done. }
  pose proof (get_fields_ok (root_key p macindex) m ver type flag sid aid (0 :: rest)) as Hfields.
  cbv zeta in Hfields. fold pk in Hfields.
  set (cKey := derive (root_key p macindex) sid).
  set (mac := if flag =? 0 then [0; 0; 0; 0] else take 4 (mac_of cKey m)).
  set (body := if flag =? 3 then encrypted cKey m else m).
  assert (length mac = 4%nat) as Hmacl
    by (unfold mac; destruct (flag =? 0); [done|rewrite length_take, length_mac_of; done]).
  assert (length pk = 32 + length body)%nat as Hbody
    by (rewrite Hpk; unfold body; destruct (flag =? 3); [by rewrite length_encrypted|done]).
  set (msg := pk ++ 0 :: rest) in *.
  assert (msg = header ver type flag (Z.of_nat (32 + length body)) aid sid mac ++ body ++ 0 :: rest) as Emsg
    by (unfold msg, pk, packet; by rewrite <- app_assoc).
  destruct (header_fields ver type flag (Z.of_nat (32 + length body)) aid sid mac (body ++ 0 :: rest) Ha Hs Hmacl)
    as (Elen & _ & Esid & Emac & Edrop & _ & _ & Eflag).
  rewrite <- Emsg in Elen, Esid, Emac, Edrop, Eflag.
  assert (length msg = length pk + 1 + length rest)%nat as Hl by (unfold msg; rewrite length_app; cbn [length]; lia).
  rewrite GetBE32_ok by lia. rewrite bind_ret_l. change (Z.to_nat 4) with 4%nat.
  rewrite (be_at_bytes 4 msg (Z.of_nat (32 + length body)));
    [|unfold is_u32; destruct (flag =? 3) eqn:E3; lia|done].
  rewrite s32_id by (unfold is_int; destruct (flag =? 3) eqn:E3; lia).
  rewrite Hbody, Z.eqb_refl. cbn [negb]. cbv zeta.
  rewrite (buf_get_ok msg 2 flag), bind_ret_l by done.
  rewrite (buf_read_ok msg 24) by lia. rewrite (buf_read_ok msg 28) by lia.
  change (Z.to_nat 24) with 24%nat. change (Z.to_nat 28) with 28%nat. change (Z.to_nat 4) with 4%nat.
  rewrite !bind_ret_l, Esid, Emac. rewrite session_key_ok by done. rewrite !bind_ret_l. fold cKey.
  unfold sizeof_header. replace (Z.of_nat (32 + length body) - 32) with (Z.of_nat (length body)) by lia.
  assert (body_mac cKey m = Ret (mac_of cKey m)) as Hbm by (apply body_mac_ok; [apply derive_u8|done]).
  destruct Hf as [->|[->| ->]].
  - change (Z.land 0 2) with 0. cbn [Z.eqb negb]. cbv iota. change body with m.
    rewrite Hfields by done. by rewrite splice_append by (cbn [length]; lia).
  - change (Z.land 2 2) with 2. change (Z.land 2 1) with 0. cbn [Z.eqb negb]. cbv iota.
    change body with m in *. rewrite buf_read_ok by lia. change (Z.to_nat 32) with 32%nat.
    rewrite bind_ret_l, Nat2Z.id. unfold slice. rewrite Edrop, take_app_length, Hbm, bind_ret_l.
    change mac with (take 4 (mac_of cKey m)). rewrite bool_decide_eq_true_2 by done. cbn [negb].
    rewrite Hfields by done. by rewrite splice_append by (cbn [length]; lia).
  - change (Z.land 3 2) with 2. change (Z.land 3 1) with 1. cbn [Z.eqb negb]. cbv iota.
    specialize (H3 eq_refl). change body with (encrypted cKey m) in *. rewrite length_encrypted in *.
    pose proof (length_pad_msg 1 m) as Hp16.
    replace (Z.of_nat (length (pad_msg 1 m)) <? 16) with false by (symmetry; apply Z.ltb_ge; lia).
    rewrite Z.rem_mod_nonneg by lia.
    assert (Z.of_nat (length (pad_msg 1 m)) mod 16 = 0) as ->.
    { rewrite Hp16, Nat2Z.inj_mul, Z.mul_comm. by apply Z.mod_mul. }
    cbn [Z.eqb negb orb]. rewrite Edrop.
    rewrite (decrypt_body_ok j cKey m); [|done|apply derive_u8|unfold cKey; rewrite length_derive; lia|done|lia| |lia].
    2:{ rewrite <- (length_encrypted cKey m). apply take_app_length. }
    rewrite bind_ret_l. cbv beta iota. cbn [Z.eqb negb set_data g_datalen].
    replace (g_datalen g <=? Z.of_nat (length m)) with false by (symmetry; apply Z.leb_gt; lia).
    rewrite buf_read_ok by splen. rewrite bind_ret_l, Nat2Z.id. change (Z.to_nat 0) with 0%nat.
    rewrite slice_splice_same by lia. rewrite Hbm, bind_ret_l.
    change mac with (take 4 (mac_of cKey m)). rewrite bool_decide_eq_true_2 by done. cbn [negb].
    rewrite Hfields; cbn [set_data g_sid g_aid g_data g_datalen]; [|done|done|done|done|rewrite length_splice; lia|done|].
    + by rewrite splice_append by (cbn [length]; lia).
    + intros _. replace (length m) with (0 + length m)%nat at 1 by lia. by rewrite take_splice by lia.
Qed.

(** ** The [ByID] functions and registration *)

Lemma MacByID_ok p data datalen id idlen keyindex mac :
  pkg_ok p -> (keyindex = 1 -> m_bInit p = false) -> Forall is_u8 data -> Forall is_u8 (take (Z.to_nat idlen) id) ->
  0 <= datalen <= Z.of_nat (length data) -> 0 <= idlen <= Z.of_nat (length id) -> (32 <= length mac)%nat ->
  MacByID p data datalen id idlen keyindex mac =
    Ret (0, splice mac 0 (mac_of (derive (root_key p keyindex) (take (Z.to_nat idlen) id))
                                 (take (Z.to_nat datalen) data))).
Proof.
  intros Hp Hk Hd Hi Hdl Hil Hm. unfold MacByID.
  replace ((keyindex =? 1) && m_bInit p) with false
    by (destruct (Z.eqb_spec keyindex 1) as [E|]; [by rewrite Hk|done]).
  rewrite id_key_ok by done. rewrite bind_ret_l, buf_read_ok by lia. rewrite bind_ret_l.
  change (slice (Z.to_nat 0) (Z.to_nat datalen) data) with (take (Z.to_nat datalen) data).
  rewrite body_mac_ok by (apply derive_u8 || by apply Forall_take). rewrite bind_ret_l.
  rewrite buf_write_ok by (rewrite ?length_mac_of; lia). done.
Qed.

Lemma EncryptByID_ok j p data datalen id idlen keyindex out outlen mac :
  let m := take (Z.to_nat datalen) data in
  let cKey := derive (root_key p keyindex) (take (Z.to_nat idlen) id) in
  junk_ok j -> pkg_ok p -> (keyindex = 1 -> m_bInit p = false) -> Forall is_u8 data -> Forall is_u8 (take (Z.to_nat idlen) id) ->
  0 <= datalen <= Z.of_nat (length data) -> datalen + 16 < 2 ^ 31 ->
  0 <= idlen <= Z.of_nat (length id) -> (32 <= length mac)%nat ->
  Z.of_nat (length (pad_msg 1 m)) <= outlen <= Z.of_nat (length out) ->
  EncryptByID j p data datalen id idlen keyindex out outlen mac =
    Ret (0, splice out 0 (encrypted cKey m), Z.of_nat (length (pad_msg 1 m)), splice mac 0 (mac_of cKey m)).
Proof.
  intros m cKey Hj Hp Hk Hd Hi Hdl Hov Hil Hm Ho. unfold EncryptByID.
  replace ((keyindex =? 1) && m_bInit p) with false
    by (destruct (Z.eqb_spec keyindex 1) as [E|]; [by rewrite Hk|done]).
  rewrite id_key_ok by done. rewrite bind_ret_l. fold cKey.
  pose proof (encrypt_body_ok j cKey data datalen out 0 outlen Hj (derive_u8 _ _)) as E. cbv zeta in E. fold m in E.
  change (Z.of_nat 0) with 0 in E. rewrite E; [|unfold cKey; rewrite length_derive; lia|lia|lia|lia|simpl; lia].
  rewrite bind_ret_l. cbv beta iota. cbn [Z.eqb negb]. rewrite buf_read_ok by lia. rewrite bind_ret_l.
  change (slice (Z.to_nat 0) (Z.to_nat datalen) data) with m.
  rewrite body_mac_ok by (apply derive_u8 || by apply Forall_take). rewrite bind_ret_l.
  rewrite buf_write_ok by (rewrite ?length_mac_of; lia). done.
Qed.

Lemma DecryptByID_ok j p m edata id idlen keyindex out outlen :
  let cKey := derive (root_key p keyindex) (take (Z.to_nat idlen) id) in
  junk_ok j -> pkg_ok p -> (keyindex = 1 -> m_bInit p = false) -> Forall is_u8 m -> Forall is_u8 (take (Z.to_nat idlen) id) ->
  Z.of_nat (length m) + 48 < 2 ^ 31 -> 0 <= idlen <= Z.of_nat (length id) ->
  take (length (pad_msg 1 m)) edata = encrypted cKey m ->
  Z.of_nat (length (pad_msg 1 m)) <= outlen <= Z.of_nat (length out) ->
  DecryptByID j p edata (Z.of_nat (length (pad_msg 1 m))) id idlen keyindex out outlen =
    Ret (0, splice out 0 m, Z.of_nat (length m)).
Proof.
  intros cKey Hj Hp Hk Hm Hi Hml Hil He Ho. unfold DecryptByID.
  pose proof (length_pad_msg 1 m). pose proof (length_pad1 m).
  replace (Z.of_nat (length (pad_msg 1 m)) <? 16) with false by (symmetry; apply Z.ltb_ge; lia).
  replace ((keyindex =? 1) && m_bInit p) with false
    by (destruct (Z.eqb_spec keyindex 1) as [E|]; [by rewrite Hk|done]).
  rewrite id_key_ok by done. rewrite bind_ret_l. fold cKey.
  rewrite (decrypt_body_ok j cKey m); [|done|apply derive_u8|unfold cKey; rewrite length_derive; lia|done|lia|done|lia].
  done.
Qed.

(** ** Registration *)

Lemma decode_str_ok x r out cap : Forall is_u8 x -> (cap <= length out)%nat ->
  exists out', decode_str (b64 x ++ 0 :: r) out (Z.of_nat cap) = Ret (out', Z.of_nat (Nat.min cap (length x))) /\
    length out' = length out /\ take (Nat.min cap (length x)) out' = take cap x.
Proof.
  intros Hx Hc. unfold decode_str. rewrite strlen_ok by by apply b64_nonzero.
  rewrite bind_ret_l, decode_app. by apply decode_ok.
Qed.

Lemma hex_nonzero v c : is_hex v c -> c <> 0.
Proof. unfold is_hex. lia. Qed.

Lemma spells_nonzero x : forall asc, spells asc x -> length asc = (2 * length x)%nat -> Forall (fun c => c <> 0) asc.
Proof.
  induction x as [|b x IH]; intros [|h [|l asc]] Hs Hl; simpl in Hl; try (lia || done).
  destruct Hs as (_ & Hh & Hlo & Hs).
  constructor; [by eapply hex_nonzero|]. constructor; [by eapply hex_nonzero|]. apply IH; [done|lia].
Qed.

Lemma spells_app x : forall asc t, spells asc x -> spells (asc ++ t) x.
Proof.
  induction x as [|b x IH]; intros asc t Hs.
  - destruct (asc ++ t) as [|? [|? ?]]; done.
  - destruct asc as [|h [|l asc]]; [done|done|]. destruct Hs as (? & ? & ? & ?).
    cbn [app spells]. split_and!; auto.
Qed.

(** The state a successful registration leaves. *)
Definition registered (p : astPackage) (aid key : list Z) : astPackage :=
  mk_astPackage (m_KI p) (splice (m_KA p) 0 key) false
    (splice (splice (m_AgentID p) 0 (replicate 16 0)) 0 aid) (Z.of_nat (length aid)) (m_UUID p).

(** What the server sends: the agent's identifier in hexadecimal, the key
    under the root key and a MAC, both in Base64. *)
Record reg_reply (p : astPackage) (id : list Z) (idlen : Z) (aid key mac asc ka mka : list Z) : Prop := {
  rr_key : length key = 32%nat /\ Forall is_u8 key;
  rr_mac : (length mac <= 32)%nat /\ Forall is_u8 mac;
  rr_aid : (length aid <= 64)%nat;
  rr_asc : exists s r, asc = s ++ 0 :: r /\ spells s aid /\ length s = (2 * length aid)%nat;
  rr_ka : exists r, ka = b64 (encrypted (derive (root_key p 0) (take (Z.to_nat idlen) id)) key) ++ 0 :: r;
  rr_mka : exists r, mka = b64 mac ++ 0 :: r
}.

Lemma encrypted_u8 cKey m : Forall is_u8 (encrypted cKey m).
Proof.
  unfold encrypted. generalize (nblocks (pad_msg 1 m)). generalize (pad_msg 1 m). intros d n. revert d.
  induction n as [|n IH]; intros d; cbn [ecb]; [constructor|].
  apply Forall_app_2; [apply bytes4_u8|apply IH].
Qed.

(** The check of [InitReg] compares as many bytes as the MAC text decodes to. *)
Lemma InitReg_ok j t o m p id idlen aid key mac asc ka mka :
  let cKey := derive (root_key p 0) (take (Z.to_nat idlen) id) in
  junk_ok j -> pkg_ok p -> reg_reply p id idlen aid key mac asc ka mka ->
  Forall is_u8 id -> 0 <= idlen <= Z.of_nat (length id) ->
  (128 <= length t)%nat -> (128 <= length o)%nat -> Forall is_u8 o -> length m = 32%nat ->
  InitReg j t o m p asc ka mka id idlen =
    Ret (if bool_decide (mac = take (length mac) (mac_of cKey key)) then (0, registered p aid key) else (3, p)).
Proof.
  intros cKey Hj Hp [[Hk Hku] [Hml Hmu] Haid (s & r & -> & Hs & Hsl) (r1 & ->) (r2 & ->)] Hid Hil Ht Ho Hou Hm.
  apply (Forall_take _ (Z.to_nat idlen)) in Hid.
  unfold InitReg. fold cKey. set (e := encrypted cKey key).
  assert (length e = 48%nat) as He by (unfold e; rewrite length_encrypted; by do 33 (destruct key; try done)).
  assert (length (pad_msg 1 key) = 48%nat) as Hpad by (by rewrite <- length_encrypted with (k := cKey)).
  destruct (decode_str_ok e r1 t 128 (encrypted_u8 _ _) Ht) as (t1 & E1 & Ht1 & Htk).
  rewrite He in E1, Htk. change (Nat.min 128 48) with 48%nat in E1, Htk. rewrite (take_ge e) in Htk by lia.
  change (Z.of_nat 128) with 128 in E1. rewrite E1, bind_ret_l. cbv beta iota.
  pose proof (DecryptByID_ok j p key t1 id idlen 0 o 128) as Hd. cbv zeta in Hd. fold cKey e in Hd.
  rewrite Hpad in Hd. rewrite Hd; [|done|done|done|done|done|lia|done|done|lia].
  rewrite bind_ret_l. cbv beta iota. cbn [Z.eqb negb].
  destruct (decode_str_ok mac r2 t1 128 Hmu ltac:(lia)) as (t2 & E2 & Ht2 & Htm).
  rewrite Nat.min_r in E2, Htm by lia. rewrite (take_ge mac) in Htm by lia.
  change (Z.of_nat 128) with 128 in E2. rewrite E2, bind_ret_l. cbv beta iota.
  rewrite MacByID_ok; [|done|done|by apply Forall_splice|done|rewrite length_splice; lia|done|lia].
  rewrite bind_ret_l. cbv beta iota. cbn [Z.eqb negb]. fold cKey. rewrite Nat2Z.id.
  assert (take (length key) (splice o 0 key) = key) as ->.
  { replace (length key) with (0 + length key)%nat at 1 by lia. by rewrite take_splice by lia. }
  rewrite (splice_all m) by (by rewrite length_mac_of).
  assert (memcmp_ne (mac_of cKey key) t2 (Z.of_nat (length mac)) =
    Ret (negb (bool_decide (mac = take (length mac) (mac_of cKey key))))) as ->.
  { unfold memcmp_ne. rewrite (buf_read_ok (mac_of _ _)) by (rewrite ?length_mac_of; lia).
    rewrite bind_ret_l, buf_read_ok by lia. rewrite bind_ret_l, Nat2Z.id. unfold slice. rewrite !drop_0, Htm.
    do 2 f_equal. apply bool_decide_ext. split; congruence. }
  rewrite bind_ret_l. destruct (bool_decide _); [|done]. cbv beta iota. cbn [negb].
  unfold memset. pose proof (pk_aid p Hp) as Hal. destruct (pk_KA p Hp) as [Hkl _].
  rewrite decide_True, buf_write_ok by (rewrite ?length_replicate; lia). rewrite bind_ret_l.
  rewrite strlen_ok by by eapply spells_nonzero. rewrite bind_ret_l, Hsl.
  replace (Z.of_nat (2 * length aid) / 2) with (Z.of_nat (length aid))
    by (symmetry; rewrite Nat2Z.inj_mul, Z.mul_comm; by apply Z.div_mul).
  rewrite AToByte_ok; [|by apply spells_app|rewrite length_splice; rewrite ?length_replicate; lia].
  rewrite bind_ret_l. unfold LENGTH_KA. rewrite memcpy_ok by (rewrite ?length_splice; lia). rewrite bind_ret_l.
  change (slice (Z.to_nat 0) (Z.to_nat 32) (splice o 0 key)) with (take (0 + 32) (splice o 0 key)).
  rewrite <- Hk. by rewrite take_splice by lia.
Qed.

(** ** What [GetData] delivers *)

Lemma get_fields_Ret msg g n plain msg' g' :
  get_fields msg g n plain = Ret (0, msg', g') ->
  msg' = msg /\ g_datalen g' = n /\ 0 <= n /\
  take (Z.to_nat n) (g_data g') = (if plain then slice 32 (Z.to_nat n) msg else take (Z.to_nat n) (g_data g)).
Proof.
  unfold get_fields. destruct (plain && _); [by intros [=]|]. intros H. cpp_inv H.
  injection H as <- <-. cbn [g_datalen g_data]. apply buf_write_Ret in Hr0 as (Hn & Hl & ->).
  cbn [length] in Hl. split_and!; [done|done|done|]. rewrite take_splice_ge by lia.
  destruct plain; [|by injection Hr as <-].
  apply memcpy_Ret in Hr as (_ & _ & Hm & _ & Hd & ->). unfold sizeof_header in *.
  change (Z.to_nat 32) with 32%nat. change (Z.to_nat 0) with 0%nat. set (x := slice 32 _ msg).
  assert (length x = Z.to_nat n) as Hx by (unfold x; rewrite length_slice; lia).
  rewrite <- Hx. apply (take_splice _ 0). lia.
Qed.

Lemma bool_decide_neg_false (P : Prop) `{Decision P} : negb (bool_decide P) = false -> P.
Proof. by destruct (bool_decide_reflect P). Qed.

Lemma decrypt_body_status j cKey e n d cap r d' n' :
  decrypt_body j cKey e n d cap = Ret (r, d', n') -> 0 <= r <= 2.
Proof.
  unfold decrypt_body. intros H. cpp_inv H. destruct a0 as [[[r1 o] d1] n1].
  destruct (negb (r1 =? 0)); [injection H as <- _ _; lia|].
  cpp_inv H. destruct a0 as [[[r2 o2] d2] n2]. destruct (negb (r2 =? 0)); injection H as <- _ _; lia.
Qed.

(** A delivered body and the checks it passed. *)
Definition delivered (p : astPackage) (macindex : Z) (msg : list Z) (g : getdata_out) : Prop :=
  exists cKey cMac, session_key p macindex (slice 24 4 msg) = Ret cKey /\
    body_mac cKey (take (Z.to_nat (g_datalen g)) (g_data g)) = Ret cMac /\
    take 4 cMac = slice 28 4 msg /\ 0 <= g_datalen g.

(** A message that is accepted comes back with its terminator. *)
Lemma GetData_msg j p msg msglen macindex g msg' g' :
  GetData j p msg msglen macindex g = Ret (0, msg', g') -> buf_write msg msglen [0] = Ret msg'.
Proof.
  intros H. unfold GetData in H. destruct (_ && _); [done|]. cpp_inv H. rewrite Hr. f_equal.
  cbv zeta in H. destruct (negb _); [done|]. cpp_inv H. destruct (negb (Z.land a1 2 =? 0)).
  2:{ by apply get_fields_Ret in H as (-> & _). }
  cpp_inv H. destruct (negb (Z.land a1 1 =? 0)).
  - destruct (_ || _); [done|]. cpp_inv H.
    match goal with D : decrypt_body _ _ _ _ _ _ = Ret ?x |- _ => destruct x as [[r d] n] end. cbv zeta in H.
    destruct (negb (r =? 0)) eqn:Er.
    { match goal with D : decrypt_body _ _ _ _ _ _ = _ |- _ => apply decrypt_body_status in D end. injection H as Hr' _ _. lia. }
    destruct (_ <=? n); [done|]. cpp_inv H. destruct (negb (bool_decide _)); [done|].
    by apply get_fields_Ret in H as (-> & _).
  - cpp_inv H. destruct (negb (bool_decide _)); [done|]. by apply get_fields_Ret in H as (-> & _).
Qed.

Lemma GetData_mac j p msg msglen macindex g msg' g' flag :
  GetData j p msg msglen macindex g = Ret (0, msg', g') -> msg' !! 2%nat = Some flag -> Z.land flag 2 <> 0 ->
  delivered p macindex msg' g' /\ msglen = s32 (be_at 4 msg').
Proof.
  intros H Hf Hm. pose proof (GetData_msg _ _ _ _ _ _ _ _ H) as Hw.
  unfold GetData in H. destruct (_ && _); [done|]. rewrite Hw in H. cbn [mbind cpp_bind] in H. cpp_inv H.
  apply GetBE32_Ret in Hr as ->. change (Z.to_nat 4) with 4%nat in *. cbv zeta in H.
  destruct (negb (s32 (be_at 4 msg') =? msglen)) eqn:El; [done|]. apply negb_false_iff, Z.eqb_eq in El.
  rewrite (buf_get_ok msg' 2 flag) in H by done. cbn [mbind cpp_bind] in H.
  destruct (negb (Z.land flag 2 =? 0)) eqn:E2; [|lia].
  cpp_inv H. repeat match goal with R : buf_read _ _ 4 = _ |- _ => apply buf_read_Ret in R as [-> _] end.
  destruct (negb (Z.land flag 1 =? 0)).
  - destruct (_ || _); [done|]. cpp_inv H.
    match goal with D : decrypt_body _ _ _ _ _ _ = Ret ?x |- _ => destruct x as [[r d] n] end. cbv zeta in H.
    destruct (negb (r =? 0)) eqn:Er.
    { match goal with D : decrypt_body _ _ _ _ _ _ = _ |- _ => apply decrypt_body_status in D end. injection H as Hr' _. lia. }
    destruct (_ <=? n); [done|]. cpp_inv H. destruct (negb (bool_decide _)) eqn:Eb; [done|].
    apply bool_decide_neg_false in Eb. apply get_fields_Ret in H as (_ & En & Hn & Ht).
    match goal with R : buf_read _ 0 _ = _ |- _ => apply buf_read_Ret in R as [-> _] end.
    split; [|done]. eexists _, _. rewrite En, Ht. done.
  - cpp_inv H. destruct (negb (bool_decide _)) eqn:Eb; [done|]. apply bool_decide_neg_false in Eb.
    apply get_fields_Ret in H as (_ & En & Hn & Ht). 
    match goal with R : buf_read _ sizeof_header _ = _ |- _ => apply buf_read_Ret in R as [-> _] end.
    split; [|done]. eexists _, _. rewrite En, Ht. done.
Qed.

(** Without the bit for the check the body is delivered as it came. *)
Lemma GetData_unchecked j p msg msglen macindex g msg' g' flag :
  GetData j p msg msglen macindex g = Ret (0, msg', g') -> msg' !! 2%nat = Some flag -> Z.land flag 2 = 0 ->
  msglen = s32 (be_at 4 msg') /\ 0 <= g_datalen g' /\ g_datalen g' = msglen - 32 /\
  take (Z.to_nat (g_datalen g')) (g_data g') = slice 32 (Z.to_nat (msglen - 32)) msg'.
Proof.
  intros H Hf Hm. pose proof (GetData_msg _ _ _ _ _ _ _ _ H) as Hw.
  unfold GetData in H. destruct (_ && _); [done|]. rewrite Hw in H. cbn [mbind cpp_bind] in H. cpp_inv H.
  apply GetBE32_Ret in Hr as ->. change (Z.to_nat 4) with 4%nat in *. cbv zeta in H.
  destruct (negb (s32 (be_at 4 msg') =? msglen)) eqn:El; [done|]. apply negb_false_iff, Z.eqb_eq in El.
  rewrite (buf_get_ok msg' 2 flag) in H by done. cbn [mbind cpp_bind] in H. rewrite Hm in H. cbn [negb Z.eqb] in H.
  apply get_fields_Ret in H as (_ & En & Hn & Ht). rewrite En, Ht, El in *. done.
Qed.

(** ** Properties *)

(** C7: for every packet kind the code supports (plain, MAC only, encrypted
    with MAC), [PutData] writes the 32-byte header with the total length in
    big-endian order, the identifiers and the MAC, then the body; and
    [GetData], run by another party that holds the same root key, accepts
    exactly these bytes, recovers version, type, session and agent identifier
    and the text, terminates the text and reports its length. *)
Theorem packet_roundtrip j j' p q m r ver type flag sid aid macindex out outlen c rest g :
  let pk := packet (root_key p macindex) m ver type flag sid aid in
  junk_ok j -> junk_ok j' -> pkg_ok p -> pkg_ok q -> root_key q macindex = root_key p macindex ->
  flag_ok flag -> cstring m -> length sid = 4%nat -> length aid = 16%nat -> Forall is_u8 sid ->
  (macindex = 0 -> flag <> 3) -> (m_bInit p || m_bInit q = true -> macindex = 0) ->
  Z.of_nat (length m) + 64 < 2 ^ 31 ->
  Z.of_nat (length pk) <= outlen <= Z.of_nat (length out) -> outlen < 2 ^ 31 ->
  (4 <= length (g_sid g))%nat -> (16 <= length (g_aid g))%nat ->
  Z.of_nat (length m) + 16 < g_datalen g <= Z.of_nat (length (g_data g)) ->
  PutData j p (m ++ 0 :: r) ver type flag sid aid macindex out outlen =
    Ret (0, splice out 0 pk, Z.of_nat (length pk)) /\
  GetData j' q (pk ++ c :: rest) (Z.of_nat (length pk)) macindex g =
    Ret (0, pk ++ 0 :: rest, mk_getdata_out ver type (splice (g_sid g) 0 sid) (splice (g_aid g) 0 aid)
           (splice (g_data g) 0 (m ++ [0])) (Z.of_nat (length m))).
Proof.
  intros pk Hj Hj' Hp Hq Hr Hf Hm Hs Ha Hsu Hmi Hini Hml Ho Ho' Hgs Hga Hd.
  split.
  - apply PutData_ok; auto. intros E. apply Hini. by rewrite E.
  - unfold pk. rewrite <- Hr. pose proof (length_pad1 m). apply GetData_ok; auto; try lia.
    + eapply Forall_impl; [exact Hm|]. unfold is_u8. simpl. lia.
    + intros E. apply Hini. rewrite E. by rewrite orb_true_r.
Qed.

Definition sample_pkg : astPackage :=
  mk_astPackage (replicate 32 5) (replicate 32 6) false (replicate 64 0) 0 (replicate 64 0).
Definition sample_junk : junk := mk_junk blank_obj (replicate 36 7) [] (replicate 16 9).
Definition sample_out : getdata_out := mk_getdata_out 9 9 [9; 9; 9; 9] (replicate 16 9) (replicate 24 9) 24.

Lemma sample_pkg_ok : pkg_ok sample_pkg.
Proof. split; try split; eval_decide. Qed.
Lemma sample_junk_ok : junk_ok sample_junk.
Proof. split; [repeat split|reflexivity..]. Qed.

Lemma packet_roundtrip_witness :
  let pk := packet (replicate 32 6) (codes "hello") 1 2 3 [1; 2; 3; 4] (replicate 16 8) in
  length pk = 48%nat /\
  PutData sample_junk sample_pkg (codes "hello" ++ [0]) 1 2 3 [1; 2; 3; 4] (replicate 16 8) 1 (replicate 50 9) 50 =
    Ret (0, pk ++ [9; 9], 48) /\
  GetData sample_junk sample_pkg (pk ++ [9]) 48 1 sample_out =
    Ret (0, pk ++ [0], mk_getdata_out 1 2 [1; 2; 3; 4] (replicate 16 8) (codes "hello" ++ replicate 1 0 ++ replicate 18 9) 5).
Proof.
  intros pk. assert (length pk = 48%nat) as Hl by (unfold pk; rewrite length_packet by reflexivity; reflexivity).
  split; [exact Hl|].
  destruct (packet_roundtrip sample_junk sample_junk sample_pkg sample_pkg (codes "hello") [] 1 2 3 [1; 2; 3; 4]
    (replicate 16 8) 1 (replicate 50 9) 50 9 [] sample_out sample_junk_ok sample_junk_ok sample_pkg_ok
    sample_pkg_ok) as [H1 H2].
  1: reflexivity.
  1: right; right; reflexivity.
  1: eval_decide.
  1: reflexivity.
  1: reflexivity.
  1: eval_decide.
  1: discriminate.
  1: discriminate.
  1: reflexivity.
  1: change (Z.of_nat (length pk) <= 50 <= Z.of_nat 50); rewrite Hl; split; discriminate.
  1: reflexivity.
  1: eval_decide.
  1: eval_decide.
  1: eval_decide.
  change (packet (root_key sample_pkg 1) (codes "hello") 1 2 3 [1; 2; 3; 4] (replicate 16 8)) with pk in *.
  rewrite Hl in H1, H2. change (Z.of_nat 48) with 48 in *. clearbody pk. split; [|rewrite H2; reflexivity].
  rewrite H1. unfold splice. rewrite Hl. reflexivity.
Defined.

(** C8: what [GetData] checks before it accepts a message, whatever bytes
    were received: the length field of the header is the length received; when
    the header's flag asks for a check (bit 0x2), its MAC field is the first four
    bytes of the MAC of the text that is delivered, under the key derived from
    the receiver's root key and the session identifier of the header.  A message
    without that bit is delivered as it came, with nothing authenticated: the
    sender of the message decides whether it is checked. *)
Theorem getdata_authentic j p msg msglen macindex g msg' g' flag :
  pkg_ok p -> Forall is_u8 msg' -> Forall is_u8 (g_data g') ->
  GetData j p msg msglen macindex g = Ret (0, msg', g') -> msg' !! 2%nat = Some flag ->
  msglen = s32 (be_at 4 msg') /\ 0 <= g_datalen g' /\
  (Z.land flag 2 <> 0 ->
   slice 28 4 msg' = take 4 (mac_of (derive (root_key p macindex) (slice 24 4 msg'))
                                    (take (Z.to_nat (g_datalen g')) (g_data g')))) /\
  (Z.land flag 2 = 0 ->
   g_datalen g' = msglen - 32 /\
   take (Z.to_nat (g_datalen g')) (g_data g') = slice 32 (Z.to_nat (msglen - 32)) msg').
Proof.
  intros Hp Hm Hd H Hf. destruct (decide (Z.land flag 2 = 0)) as [H2 | H2].
  - destruct (GetData_unchecked j p msg msglen macindex g msg' g' flag H Hf H2) as (El & En & Hn & Et). done.
  - destruct (GetData_mac j p msg msglen macindex g msg' g' flag H Hf H2) as ((k & c & Ek & Ec & Et & Hn) & El).
    rewrite session_key_ok in Ek by (done || by apply Forall_slice). injection Ek as <-.
    rewrite body_mac_ok in Ec by (apply derive_u8 || by apply Forall_take). injection Ec as <-. done.
Qed.

Lemma packet_u8 root m ver type flag sid aid : is_u8 ver -> is_u8 type -> is_u8 flag ->
  Forall is_u8 m -> Forall is_u8 sid -> Forall is_u8 aid -> Forall is_u8 (packet root m ver type flag sid aid).
Proof.
  intros. assert (is_u8 0) by (unfold is_u8; lia). unfold packet, header. rewrite !Forall_app. split_and!; auto.
  - by apply be_bytes_u8.
  - destruct (flag =? 0); [by repeat constructor|]. apply Forall_take, sm3_spec_u8.
  - destruct (flag =? 3); [apply encrypted_u8|done].
Qed.

Lemma getdata_authentic_witness :
  let pk := packet (replicate 32 6) (codes "hello") 1 2 2 [1; 2; 3; 4] (replicate 16 8) in
  slice 28 4 (pk ++ [0]) = take 4 (mac_of (derive (replicate 32 6) (slice 24 4 (pk ++ [0]))) (codes "hello")).
Proof.
  intros pk.
  destruct (getdata_authentic sample_junk sample_pkg (pk ++ [9]) 37 1 sample_out (pk ++ [0])
    (mk_getdata_out 1 2 [1; 2; 3; 4] (replicate 16 8) (codes "hello" ++ replicate 1 0 ++ replicate 18 9) 5) 2)
    as (_ & _ & H & _).
  1: exact sample_pkg_ok.
  1: apply Forall_app_2; [|eval_decide]; apply packet_u8; eval_decide.
  1: eval_decide.
  1: { assert (length pk = 37%nat) as Hl by (unfold pk; rewrite length_packet by reflexivity; reflexivity).
       pose proof (GetData_ok sample_junk sample_pkg (codes "hello") 1 2 2 [1; 2; 3; 4] (replicate 16 8) 1 9 [] sample_out
         sample_junk_ok sample_pkg_ok (or_intror (or_introl eq_refl)) ltac:(eval_decide) eq_refl eq_refl ltac:(eval_decide)
         ltac:(discriminate) eq_refl ltac:(eval_decide) ltac:(eval_decide) ltac:(eval_decide) ltac:(discriminate)) as E.
       change (packet (root_key sample_pkg 1) (codes "hello") 1 2 2 [1; 2; 3; 4] (replicate 16 8)) with pk in E.
       rewrite Hl in E. clearbody pk. exact E. }
  1: reflexivity.
  clearbody pk. exact (H ltac:(discriminate)).
Defined.

(** [EncryptByID] pads and encrypts under the key derived from the
    identifier and reports the ciphertext's length and the MAC of the text;
    [DecryptByID] by a holder of the same root key returns the text and its
    length, and [MacByID] of that text is the MAC that was reported. *)
Theorem byid_roundtrip j j' p q data datalen id idlen keyindex out outlen mac out' outlen' mac' tail :
  let m := take (Z.to_nat datalen) data in
  let cKey := derive (root_key p keyindex) (take (Z.to_nat idlen) id) in
  let e := encrypted cKey m in
  junk_ok j -> junk_ok j' -> pkg_ok p -> pkg_ok q -> root_key q keyindex = root_key p keyindex ->
  (keyindex = 1 -> m_bInit p = false /\ m_bInit q = false) -> Forall is_u8 data -> Forall is_u8 id ->
  0 <= datalen <= Z.of_nat (length data) -> datalen + 48 < 2 ^ 31 ->
  0 <= idlen <= Z.of_nat (length id) -> (32 <= length mac)%nat -> (32 <= length mac')%nat ->
  datalen + 16 <= outlen <= Z.of_nat (length out) -> datalen + 16 <= outlen' <= Z.of_nat (length out') ->
  EncryptByID j p data datalen id idlen keyindex out outlen mac =
    Ret (0, splice out 0 e, Z.of_nat (length e), splice mac 0 (mac_of cKey m)) /\
  (datalen < Z.of_nat (length e) <= datalen + 16 /\ Z.of_nat (length e) mod 16 = 0) /\
  DecryptByID j' q (e ++ tail) (Z.of_nat (length e)) id idlen keyindex out' outlen' =
    Ret (0, splice out' 0 m, datalen) /\
  MacByID q m datalen id idlen keyindex mac' = Ret (0, splice mac' 0 (mac_of cKey m)).
Proof.
  intros m cKey e Hj Hj' Hp Hq Hr Hk Hd Hi Hdl Hov Hil Hm Hm' Ho Ho'.
  apply (Forall_take _ (Z.to_nat idlen)) in Hi.
  assert (length m = Z.to_nat datalen) as Hml by (unfold m; rewrite length_take; lia).
  assert (Forall is_u8 m) as Hmu by by apply Forall_take.
  pose proof (length_pad1 m). pose proof (length_pad_msg 1 m) as Hp16.
  assert (length e = length (pad_msg 1 m)) as He by apply length_encrypted. rewrite He. split_and!.
  - pose proof (EncryptByID_ok j p data datalen id idlen keyindex out outlen mac) as E.
    cbv zeta in E. fold m cKey e in E. apply E; try done; try lia. intros E1. by apply Hk.
  - lia.
  - lia.
  - rewrite Hp16, Nat2Z.inj_mul, Z.mul_comm. by apply Z.mod_mul.
  - assert (datalen = Z.of_nat (length m)) as Ed by lia.
    pose proof (DecryptByID_ok j' q m (e ++ tail) id idlen keyindex out' outlen') as D.
    cbv zeta in D. rewrite Hr in D. fold cKey e in D. rewrite <- Ed in D. apply D; try done; try lia.
    + intros E1. by apply Hk.
    + rewrite <- He. apply take_app_length.
  - rewrite (MacByID_ok q m datalen id idlen keyindex mac' Hq); [|intros E1; by apply Hk|assumption..|lia|lia|lia].
    rewrite Hr. fold cKey. rewrite take_ge by lia. reflexivity.
Qed.

Lemma byid_roundtrip_witness : exists e,
  EncryptByID sample_junk sample_pkg (codes "secret") 6 (codes "id-1") 4 1 (replicate 22 9) 22 (replicate 32 9) =
    Ret (0, e ++ replicate 6 9, 16, mac_of (derive (replicate 32 6) (codes "id-1")) (codes "secret")) /\
  DecryptByID sample_junk sample_pkg (e ++ [1; 2]) 16 (codes "id-1") 4 1 (replicate 22 9) 22 =
    Ret (0, codes "secret" ++ replicate 16 9, 6).
Proof.
  destruct (byid_roundtrip sample_junk sample_junk sample_pkg sample_pkg (codes "secret") 6 (codes "id-1") 4 1
    (replicate 22 9) 22 (replicate 32 9) (replicate 22 9) 22 (replicate 32 9) [1; 2]
    sample_junk_ok sample_junk_ok sample_pkg_ok sample_pkg_ok) as (H1 & _ & H3 & _).
  1: reflexivity.
  1: split; reflexivity.
  1: eval_decide.
  1: eval_decide.
  1: eval_decide.
  1: reflexivity.
  1: eval_decide.
  1: eval_decide.
  1: eval_decide.
  1: eval_decide.
  1: eval_decide.
  set (e := encrypted _ _) in *. exists e.
  assert (length e = 16%nat) as Hl by (unfold e; rewrite length_encrypted; reflexivity). rewrite Hl in H1, H3.
  change (take (Z.to_nat 6) (codes "secret")) with (codes "secret") in *.
  change (take (Z.to_nat 4) (codes "id-1")) with (codes "id-1") in *.
  change (root_key sample_pkg 1) with (replicate 32 6) in *.
  change (Z.of_nat 16) with 16 in *. clearbody e. split.
  - rewrite H1. rewrite (splice_all (replicate 32 9)) by (rewrite length_mac_of; reflexivity). unfold splice. rewrite Hl. reflexivity.
  - rewrite H3. reflexivity.
Defined.

(** C9: registration. [InitReg] decrypts the key the server sent, and
    accepts it when the decoded MAC equals as many leading bytes of the MAC of
    the key as were sent; it then stores key and identifier and leaves the
    initial state, and otherwise reports 3 and changes nothing.  An empty MAC
    text is therefore always accepted. *)
Theorem initreg_checks j t o m p id idlen aid key mac asc ka mka :
  let cKey := derive (root_key p 0) (take (Z.to_nat idlen) id) in
  junk_ok j -> pkg_ok p -> reg_reply p id idlen aid key mac asc ka mka ->
  Forall is_u8 id -> 0 <= idlen <= Z.of_nat (length id) ->
  (128 <= length t)%nat -> (128 <= length o)%nat -> Forall is_u8 o -> length m = 32%nat ->
  (mac = take (length mac) (mac_of cKey key) ->
     InitReg j t o m p asc ka mka id idlen = Ret (0, registered p aid key)) /\
  (mac <> take (length mac) (mac_of cKey key) -> InitReg j t o m p asc ka mka id idlen = Ret (3, p)) /\
  (mac = [] -> InitReg j t o m p asc ka mka id idlen = Ret (0, registered p aid key)) /\
  m_KA (registered p aid key) = key /\ m_bInit (registered p aid key) = false.
Proof.
  intros cKey Hj Hp Hrr Hid Hil Ht Ho Hou Hm.
  pose proof (InitReg_ok j t o m p id idlen aid key mac asc ka mka Hj Hp Hrr Hid Hil Ht Ho Hou Hm) as E.
  cbv zeta in E. fold cKey in E. rewrite E. split_and!.
  - intros Hc. by rewrite bool_decide_eq_true_2.
  - intros Hc. by rewrite bool_decide_eq_false_2.
  - intros ->. by rewrite bool_decide_eq_true_2.
  - cbn [registered m_KA]. apply splice_all. destruct (rr_key _ _ _ _ _ _ _ _ _ Hrr), (pk_KA p Hp). lia.
  - done.
Qed.

Definition sample_reply (mac : list Z) : list Z * list Z :=
  (b64 (encrypted (derive (replicate 32 5) (codes "id-1")) (replicate 32 8)) ++ [0], b64 mac ++ [0]).

Lemma initreg_checks_witness :
  let run mac := InitReg sample_junk (replicate 128 9) (replicate 128 9) (replicate 32 9) sample_pkg
    (codes "0aFf" ++ [0]) (sample_reply mac).1 (sample_reply mac).2 (codes "id-1") 4 in
  let p' := mk_astPackage (replicate 32 5) (replicate 32 8) false ([10; 255] ++ replicate 62 0) 2 (replicate 64 0) in
  run [] = Ret (0, p') /\ run [1] = Ret (3, sample_pkg).
Proof.
  intros run p'.
  assert (forall mac, (length mac <= 32)%nat -> Forall is_u8 mac -> reg_reply sample_pkg (codes "id-1") 4 [10; 255]
    (replicate 32 8) mac (codes "0aFf" ++ [0]) (sample_reply mac).1 (sample_reply mac).2) as Hr.
  { intros mac Hl Hu. split.
    - split; eval_decide.
    - split; [exact Hl|exact Hu].
    - eval_decide.
    - exists (codes "0aFf"), []. split; [reflexivity|]. split; [|reflexivity].
      unfold spells, is_hex, is_u8. vm_compute. intuition (discriminate || auto).
    - exists []. reflexivity.
    - exists []. reflexivity. }
  split.
  - destruct (initreg_checks sample_junk (replicate 128 9) (replicate 128 9) (replicate 32 9) sample_pkg (codes "id-1")
      4 [10; 255] (replicate 32 8) [] (codes "0aFf" ++ [0]) (sample_reply []).1 (sample_reply []).2)
      as (_ & _ & H & _).
    1: exact sample_junk_ok.
    1: exact sample_pkg_ok.
    1: apply Hr; [eval_decide|constructor].
    1: eval_decide.
    1: eval_decide.
    1: eval_decide.
    1: eval_decide.
    1: eval_decide.
    1: reflexivity.
    unfold run. rewrite (H eq_refl). reflexivity.
  - destruct (initreg_checks sample_junk (replicate 128 9) (replicate 128 9) (replicate 32 9) sample_pkg (codes "id-1")
      4 [10; 255] (replicate 32 8) [1] (codes "0aFf" ++ [0]) (sample_reply [1]).1 (sample_reply [1]).2)
      as (_ & H & _).
    1: exact sample_junk_ok.
    1: exact sample_pkg_ok.
    1: apply Hr; [eval_decide|eval_decide].
    1: eval_decide.
    1: eval_decide.
    1: eval_decide.
    1: eval_decide.
    1: eval_decide.
    1: reflexivity.
    unfold run. apply H. vm_compute. discriminate.
Defined.
