(* ===== verification/Ini.v ===== *)
(** * Configuration files (rwIni/ini_parser.cpp, astconfig.cpp)

    The two sources hold the same reader and writer of INI files; astconfig.cpp
    wraps it in the class [astConfig] with the path as state.  A file system is
    a finite map from paths to contents.  The parser works on a buffer of
    [MAX_FILE_SIZE] bytes by index; the loops are recursive functions with the
    size of the buffer as fuel.  The theorems relate parser and writer to
    documents: a preamble and a list of sections of lines. *)
From S2P Require Import Prelude Words Buffers CString.

Definition MAX_FILE_SIZE : Z := 1024 * 16.

(** Files by path. *)
Definition files := gmap (list Z) (list Z).

(** What a write can meet: [fopen] fails, [fputs] fails after some bytes, success. *)
Inductive disk := DiskOk | OpenFails | PutsFails (kept : nat).

(** The loop over [fgetc]; the end of the file reads as [(char)EOF]. *)
Fixpoint load_chars (bytes buf : list Z) (i : Z) : cpp (list Z * Z) :=
  match bytes with
  | [] => buf ← buf_write buf i [255]; Ret (buf, i)
  | c :: r =>
      buf ← buf_write buf i [c];
      if c =? 255 then Ret (buf, i)
      else _ ← cassert (i + 1 <? MAX_FILE_SIZE); load_chars r buf (i + 1)
  end.

(** Result, buffer and file size. *)
Definition load_ini_file (fs : files) (file buf : list Z) : cpp (Z * list Z * Z) :=
  match fs !! file with
  | None => Ret (0, buf, 0)
  | Some bytes =>
      '(buf, i) ← load_chars bytes buf 0;
      buf ← buf_write buf i [0];
      Ret (1, buf, i)
  end.

Definition newline (c : Z) : bool := (c =? 10) || (c =? 13).
Definition end_of_string (c : Z) : bool := c =? 0.
Definition left_barce (c : Z) : bool := c =? 91.
Definition isright_brace (c : Z) : bool := c =? 93.

Record ini_pos := mk_pos { sec_s : Z; sec_e : Z; key_s : Z; key_e : Z; value_s : Z; value_e : Z }.
Definition no_pos : ini_pos := mk_pos (-1) (-1) (-1) (-1) (-1) (-1).

(** [while (f(p[i])) i++;] *)
Fixpoint skip_while (f : Z -> bool) (fuel : nat) (buf : list Z) (i : Z) : cpp Z :=
  c ← buf_get buf i;
  if f c then match fuel with O => NoFuel | S n => skip_while f n buf (i + 1) end else Ret i.

(** The loop over a line that looks for ['='] and compares the key before it. *)
Fixpoint find_key (fuel : nat) (buf key : list Z) (newline_start i j : Z) : cpp (option Z) :=
  if j <? i then
    c ← buf_get buf j;
    if c =? 61 then Ret None
    else match fuel with
    | O => NoFuel
    | S n =>
        c ← buf_get buf (j + 1);
        if c =? 61 then
          e ← strncmp_eq buf newline_start key (Z.to_nat (j + 1 - newline_start));
          if (e : bool) then Ret (Some (j + 1)) else find_key n buf key newline_start i (j + 1)
        else find_key n buf key newline_start i (j + 1)
    end
  else Ret None.

(** The lines of a section: the index reached, and the positions of a matching entry. *)
Fixpoint scan_lines (fuel : nat) (buf key : list Z) (i : Z) : cpp (Z * option (Z * Z)) :=
  prev ← buf_get buf (i - 1);
  c ← buf_get buf i;
  if (newline prev && left_barce c) || end_of_string c then Ret (i, None)
  else match fuel with
  | O => NoFuel
  | S n =>
      let newline_start := i in
      i ← skip_while (fun c => negb (newline c) && negb (end_of_string c)) (length buf) buf i;
      r ← (if c =? 59 then Ret None else find_key (length buf) buf key newline_start i newline_start);
      match r with
      | Some j => Ret (i, Some (newline_start, j))
      | None => scan_lines n buf key (i + 1)
      end
  end.

Fixpoint scan_file (fuel : nat) (buf section key : list Z) (i : Z) (pos : ini_pos) : cpp (Z * ini_pos) :=
  c ← buf_get buf i;
  if end_of_string c then Ret (0, pos)
  else match fuel with
  | O => NoFuel
  | S n =>
      first ← (if i =? 0 then Ret true else prev ← buf_get buf (i - 1); Ret (newline prev));
      if first && left_barce c then
        let section_start := i + 1 in
        i ← skip_while (fun c => negb (isright_brace c) && negb (end_of_string c)) (length buf) buf (i + 1);
        e ← strncmp_eq buf section_start section (Z.to_nat (i - section_start));
        if (e : bool) then
          i ← skip_while isspace (length buf) buf (i + 1);
          let pos := mk_pos section_start i (key_s pos) (key_e pos) (value_s pos) (value_e pos) in
          '(i', r) ← scan_lines (length buf) buf key i;
          match r with
          | Some (ns, j) => Ret (1, mk_pos section_start i ns (j - 1) (j + 1) i')
          | None => scan_file n buf section key i' pos
          end
        else scan_file n buf section key i pos
      else scan_file n buf section key (i + 1) pos
  end.

Definition nonempty (s : list Z) : bool := match s with [] => false | _ => true end.

Definition parse_file (section key buf : list Z) : cpp (Z * ini_pos) :=
  _ ← cassert (nonempty section); _ ← cassert (nonempty key);
  scan_file (length buf) buf section key 0 no_pos.

(** ** Reading and writing *)

Definition blank : list Z := replicate (Z.to_nat MAX_FILE_SIZE) 0.

(** The default goes to [value] when there is one. *)
Definition put_default (value : list Z) (size : Z) (default_value : option (list Z)) : cpp (list Z) :=
  match default_value with Some d => strncpy value d size | None => Ret value end.

Definition read_profile_string (fs : files) (section key value : list Z) (size : Z)
    (default_value : option (list Z)) (file : list Z) : cpp (Z * list Z) :=
  _ ← cassert (nonempty section); _ ← cassert (nonempty key); _ ← cassert (0 <? size);
  '(ok, buf, file_size) ← load_ini_file fs file blank;
  if ok =? 0 then value ← put_default value size default_value; Ret (0, value)
  else
    '(found, pos) ← parse_file section key buf;
    if found =? 0 then value ← put_default value size default_value; Ret (0, value)
    else
      let cpcount := value_e pos - value_s pos in
      let cpcount := if size - 1 <? cpcount then size - 1 else cpcount in
      value ← memset value 0 0 size;
      value ← memcpy value 0 buf (value_s pos) cpcount;
      value ← buf_write value cpcount [0];
      Ret (1, value).

Definition read_profile_int (fs : files) (section key : list Z) (default_value : Z) (file : list Z) : cpp Z :=
  '(ok, value) ← read_profile_string fs section key (replicate 32 0) 32 None file;
  if ok =? 0 then Ret default_value else atoi value.

(** [fopen(file, "w")], [fputs(w_buf, out)], [fclose]. *)
Definition save_text (d : disk) (fs : files) (file w_buf : list Z) : cpp (Z * files) :=
  n ← strlen w_buf;
  match d with
  | OpenFails => Ret (0, fs)
  | PutsFails kept => Ret (0, <[file := take (Nat.min kept (Z.to_nat n)) w_buf]> fs)
  | DiskOk => Ret (1, <[file := take (Z.to_nat n) w_buf]> fs)
  end.

Definition write_profile_string (d : disk) (fs : files) (section key value file : list Z) : cpp (Z * files) :=
  let value_len := Z.of_nat (length value) in
  _ ← cassert (nonempty section); _ ← cassert (nonempty key);
  '(ok, buf, file_size) ← load_ini_file fs file blank;
  pos ← (if ok =? 0 then Ret no_pos else '(_, pos) ← parse_file section key buf; Ret pos);
  w_buf ←
    (if sec_s pos =? -1 then
       if file_size =? 0 then
         sprintf_text blank file_size (codes "[" ++ section ++ codes "]" ++ [10] ++ key ++ codes "=" ++ value ++ [10])
       else
         w ← memcpy blank 0 buf 0 file_size;
         sprintf_text w file_size ([10] ++ codes "[" ++ section ++ codes "]" ++ [10] ++ key ++ codes "=" ++ value ++ [10])
     else if key_s pos =? -1 then
       w ← memcpy blank 0 buf 0 (sec_e pos);
       w ← sprintf_text w (sec_e pos) (key ++ codes "=" ++ value ++ [10]);
       n ← strlen (drop (Z.to_nat (sec_e pos)) buf);
       rest ← format_text (slice (Z.to_nat (sec_e pos)) (Z.to_nat n) buf);
       sprintf_text w (sec_e pos + Z.of_nat (length key) + value_len + 2) rest
     else
       w ← memcpy blank 0 buf 0 (value_s pos);
       w ← memcpy w (value_s pos) value 0 value_len;
       memcpy w (value_s pos + value_len) buf (value_e pos) (file_size - value_e pos));
  save_text d fs file w_buf.
