(* ===== verification/IniDoc.v ===== *)
(** * Configuration files as documents

    The text a document stands for, and the search of the parser on documents:
    a document is a list of lines before the first section and a list of
    sections.  [doc_get] and [doc_set] describe what the code does to documents,
    with its comparison: a section matches when its name is a prefix of the
    wanted one, an entry when its key is.  They are an intermediate step; the
    specification, with exact names, is in [IniSpec].  The lemmas show the
    parser's positions to be those of the document. *)
From S2P Require Import Prelude Words Buffers CString Ini.

Record ini_section := mk_section { sname : list Z; slines : list (list Z) }.
Record ini_doc := mk_doc { preamble : list (list Z); sections : list ini_section }.

Definition print_line (l : list Z) : list Z := l ++ [10].
Definition print_lines (ls : list (list Z)) : list Z := mjoin (print_line <$> ls).
Definition print_section (s : ini_section) : list Z := [91] ++ sname s ++ [93; 10] ++ print_lines (slines s).
Definition print_doc (d : ini_doc) : list Z := print_lines (preamble d) ++ mjoin (print_section <$> sections d).

(** The first ['='], not in the first column, splits a line that is not a comment. *)
Fixpoint split_eq (l : list Z) : option (list Z * list Z) :=
  match l with
  | [] => None
  | c :: r => if c =? 61 then Some ([], r) else '(k, v) ← split_eq r; Some (c :: k, v)
  end.
Definition line_entry (l : list Z) : option (list Z * list Z) :=
  match l with
  | [] => None
  | c :: r => if (c =? 59) || (c =? 61) then None else split_eq l
  end.

(** [x] is a prefix of [y]. *)
Fixpoint prefixb (x y : list Z) : bool :=
  match x, y with
  | [], _ => true
  | a :: x, b :: y => (a =? b) && prefixb x y
  | _, _ => false
  end.

Definition line_value (key l : list Z) : option (list Z) :=
  match line_entry l with
  | Some (k, v) => if prefixb k key then Some v else None
  | None => None
  end.
Definition line_put (v l : list Z) : list Z :=
  match line_entry l with Some (k, _) => k ++ [61] ++ v | None => l end.

Fixpoint lines_get (key : list Z) (ls : list (list Z)) : option (list Z) :=
  match ls with
  | [] => None
  | l :: r => match line_value key l with Some v => Some v | None => lines_get key r end
  end.
Fixpoint lines_put (key v : list Z) (ls : list (list Z)) : option (list (list Z)) :=
  match ls with
  | [] => None
  | l :: r => match line_value key l with
              | Some _ => Some (line_put v l :: r)
              | None => (fun r => l :: r) <$> lines_put key v r
              end
  end.
(** A new entry goes below the header and the empty lines that follow it. *)
Fixpoint lines_insert (key v : list Z) (ls : list (list Z)) : list (list Z) :=
  match ls with
  | [] :: r => [] :: lines_insert key v r
  | _ => (key ++ [61] ++ v) :: ls
  end.

Definition smatch (sec : list Z) (s : ini_section) : bool := prefixb (sname s) sec.

Fixpoint secs_get (sec key : list Z) (ss : list ini_section) : option (list Z) :=
  match ss with
  | [] => None
  | s :: r => match (if smatch sec s then lines_get key (slines s) else None) with
              | Some v => Some v
              | None => secs_get sec key r
              end
  end.
Fixpoint secs_put (sec key v : list Z) (ss : list ini_section) : option (list ini_section) :=
  match ss with
  | [] => None
  | s :: r => match (if smatch sec s then lines_put key v (slines s) else None) with
              | Some ls => Some (mk_section (sname s) ls :: r)
              | None => (fun r => s :: r) <$> secs_put sec key v r
              end
  end.
(** Into the last section that matches. *)
Fixpoint secs_insert (sec key v : list Z) (ss : list ini_section) : option (list ini_section) :=
  match ss with
  | [] => None
  | s :: r => match secs_insert sec key v r with
              | Some r' => Some (s :: r')
              | None => if smatch sec s then Some (mk_section (sname s) (lines_insert key v (slines s)) :: r)
                        else None
              end
  end.

(** A blank line before a new section belongs to what precedes it. *)
Fixpoint add_blank (ss : list ini_section) : list ini_section :=
  match ss with
  | [] => []
  | [s] => [mk_section (sname s) (slines s ++ [[]])]
  | s :: r => s :: add_blank r
  end.
Definition doc_append (d : ini_doc) (s : ini_section) : ini_doc :=
  match sections d, preamble d with
  | [], [] => mk_doc [] [s]
  | [], p => mk_doc (p ++ [[]]) [s]
  | ss, p => mk_doc p (add_blank ss ++ [s])
  end.

Definition doc_get (d : ini_doc) (sec key : list Z) : option (list Z) := secs_get sec key (sections d).
Definition doc_set (d : ini_doc) (sec key v : list Z) : ini_doc :=
  match secs_put sec key v (sections d) with
  | Some ss => mk_doc (preamble d) ss
  | None =>
      match secs_insert sec key v (sections d) with
      | Some ss => mk_doc (preamble d) ss
      | None => doc_append d (mk_section sec [key ++ [61] ++ v])
      end
  end.

(** ** Well-formed documents *)

(** Bytes of a line: no terminator, no line break, not the byte [(char)EOF]. *)
Definition text_char (c : Z) : Prop := 0 < c < 255 /\ c <> 10 /\ c <> 13.
Definition head_ok (l : list Z) : Prop :=
  match l with [] => True | c :: _ => isspace c = false /\ c <> 91 end.
Definition line_ok (l : list Z) : Prop := Forall text_char l /\ head_ok l.
Definition name_ok (n : list Z) : Prop := Forall (fun c => text_char c /\ c <> 93) n.
Record doc_ok (d : ini_doc) : Prop := {
  dk_pre : Forall line_ok (preamble d);
  dk_secs : Forall (fun s => name_ok (sname s) /\ Forall line_ok (slines s)) (sections d)
}.
(** A key that a file can hold. *)
Definition key_ok (k : list Z) : Prop := line_ok k /\ k <> [] /\ Forall (fun c => c <> 61) k /\ head k <> Some 59.

(** ** The string functions on the buffer *)

Lemma buf_get_mid (pre : list Z) c r : buf_get (pre ++ c :: r) (Z.of_nat (length pre)) = Ret c.
Proof. apply buf_get_ok; [lia|]. by rewrite Nat2Z.id, list_lookup_middle. Qed.

Lemma buf_get_end (pre : list Z) c r i : i = Z.of_nat (length pre) -> buf_get (pre ++ c :: r) i = Ret c.
Proof. intros ->. apply buf_get_mid. Qed.

(** Moves the first byte behind the index in front of it. *)
Lemma step_right {A} (pre : list A) c r : pre ++ c :: r = (pre ++ [c]) ++ r.
Proof. by rewrite <- app_assoc. Qed.

Lemma skip_while_ok f w c r : Forall (fun x => f x = true) w -> f c = false -> forall pre fuel,
  (length w <= fuel)%nat ->
  skip_while f fuel (pre ++ w ++ c :: r) (Z.of_nat (length pre)) = Ret (Z.of_nat (length pre + length w)).
Proof.
  intros Hw Hc. induction Hw as [|x w Hx Hw IH]; intros pre fuel Hf.
  - cbn [app length]. rewrite Nat.add_0_r. destruct fuel; cbn [skip_while]; rewrite buf_get_mid, bind_ret_l, Hc; done.
  - destruct fuel as [|fuel]; [simpl in Hf; lia|]. cbn [app skip_while]. rewrite buf_get_mid, bind_ret_l, Hx.
    rewrite step_right. replace (Z.of_nat (length pre) + 1) with (Z.of_nat (length (pre ++ [x])))
      by (rewrite length_app; simpl; lia).
    rewrite IH by (simpl in Hf; lia). rewrite length_app. simpl length. do 2 f_equal. lia.
Qed.

Lemma strncmp_eq_ok x s r : Forall (fun c => c <> 0) x -> forall pre,
  strncmp_eq (pre ++ x ++ r) (Z.of_nat (length pre)) s (length x) = Ret (prefixb x s).
Proof.
  intros Hx. revert s. induction Hx as [|c x Hc Hx IH]; intros s pre; [done|].
  cbn [app length strncmp_eq]. rewrite buf_get_mid, bind_ret_l. destruct s as [|d s].
  - cbn [prefixb]. by replace (c =? 0) with false by lia.
  - cbn [prefixb]. cbv zeta. destruct (Z.eqb_spec c d) as [->|]; [|done]. cbn [negb andb].
    replace (d =? 0) with false by lia. rewrite step_right.
    replace (Z.of_nat (length pre) + 1) with (Z.of_nat (length (pre ++ [d]))) by (rewrite length_app; simpl; lia).
    apply IH.
Qed.

(** ** One line *)

Lemma split_eq_Some l k v : split_eq l = Some (k, v) -> l = k ++ 61 :: v /\ Forall (fun c => c <> 61) k.
Proof.
  revert k v. induction l as [|c l IH]; intros k v; cbn [split_eq]; [done|].
  destruct (Z.eqb_spec c 61) as [->|]; [intros [= <- <-]; by split|].
  destruct (split_eq l) as [[k' v']|] eqn:E; [|done]. intros [= <- <-].
  destruct (IH _ _ eq_refl) as [-> ?]. split; [done|by constructor].
Qed.

Lemma split_eq_app k v : Forall (fun c => c <> 61) k -> split_eq (k ++ 61 :: v) = Some (k, v).
Proof.
  induction 1 as [|c k Hc Hk IH]; [done|]. cbn [app split_eq]. replace (c =? 61) with false by lia. by rewrite IH.
Qed.

Lemma line_entry_Some l k v : line_entry l = Some (k, v) ->
  l = k ++ 61 :: v /\ k <> [] /\ Forall (fun c => c <> 61) k /\ head k <> Some 59.
Proof.
  destruct l as [|c l]; cbn [line_entry]; [done|]. destruct ((c =? 59) || (c =? 61)) eqn:E; [done|].
  intros H. destruct (split_eq_Some _ _ _ H) as [El Hk]. destruct k as [|c' k].
  - injection El as -> _. done.
  - injection El as -> _. split_and!; [by rewrite <- (proj1 (split_eq_Some _ _ _ H))|done|done|simpl; intros [= ->]; done].
Qed.

Lemma line_entry_app k v : k <> [] -> Forall (fun c => c <> 61) k -> head k <> Some 59 ->
  line_entry (k ++ 61 :: v) = Some (k, v).
Proof.
  intros Hk He Hh. destruct k as [|c k]; [done|]. cbn [app line_entry].
  assert (c <> 61) by (by inversion He). assert (c <> 59) by (intros ->; by apply Hh).
  replace ((c =? 59) || (c =? 61)) with false by lia. by apply (split_eq_app (c :: k)).
Qed.

(** What the loop over a line finds. *)
Definition hit (key w u : list Z) : option nat :=
  match u with
  | [] => None
  | c :: _ => if c =? 61 then None
              else match split_eq u with
                   | Some (k, _) => if prefixb (w ++ k) key then Some (length (w ++ k)) else None
                   | None => None
                   end
  end.

Lemma find_key_ok pre key e r : e <> 61 -> forall u w fuel,
  Forall (fun c => c <> 0) (w ++ u) -> (length u <= fuel)%nat ->
  find_key fuel (pre ++ w ++ u ++ e :: r) key (Z.of_nat (length pre))
    (Z.of_nat (length pre + length w + length u)) (Z.of_nat (length pre + length w)) =
  Ret ((fun n => Z.of_nat (length pre + n)) <$> hit key w u).
Proof.
  intros He. induction u as [|c u IH]; intros w fuel Hz Hf.
  { replace (Z.of_nat (length pre + length w + length (@nil Z))) with (Z.of_nat (length pre + length w)) by (simpl; lia).
    destruct fuel; cbn [find_key]; by rewrite Z.ltb_irrefl. }
  assert ((Z.of_nat (length pre + length w) <? Z.of_nat (length pre + length w + length (c :: u))) = true) as Hlt
    by (apply Z.ltb_lt; cbn [length]; lia).
  destruct fuel as [|fuel]; [simpl in Hf; lia|]. cbn [find_key]. rewrite Hlt.
  rewrite (app_assoc pre w). cbn [app]. rewrite (buf_get_end (pre ++ w) c _ (Z.of_nat (length pre + length w))) by (rewrite length_app; lia). rewrite bind_ret_l.
  cbn [hit]. destruct (Z.eqb_spec c 61) as [->|Hc]; [done|].
  assert (Forall (fun c => c <> 0) (w ++ [c]) /\ Forall (fun c => c <> 0) u) as [Hwc Hu].
  { rewrite !Forall_app in *. destruct Hz as [? Hz]. inversion Hz; subst. split_and!; auto. }
  replace (Z.of_nat (length pre + length w) + 1) with (Z.of_nat (length pre + length (w ++ [c])))
    by (rewrite length_app; simpl; lia).
  replace (Z.of_nat (length pre + length w + length (c :: u))) with
    (Z.of_nat (length pre + length (w ++ [c]) + length u)) by (rewrite length_app; simpl; lia).
  assert ((pre ++ w) ++ c :: u ++ e :: r = pre ++ (w ++ [c]) ++ u ++ e :: r) as -> by (by rewrite <- !app_assoc).
  specialize (IH (w ++ [c]) fuel). assert (Forall (fun c => c <> 0) ((w ++ [c]) ++ u)) as Hz' by by apply Forall_app_2.
  specialize (IH Hz' ltac:(simpl in Hf; lia)).
  destruct u as [|c' u].
  { rewrite (app_assoc pre). cbn [app]. rewrite (buf_get_end (pre ++ w ++ [c]) e _ (Z.of_nat (length pre + length (w ++ [c])))) by (rewrite !length_app; lia).
    rewrite bind_ret_l. replace (e =? 61) with false by lia. cbn [app] in IH.
    rewrite <- (app_assoc pre). rewrite IH. cbn [split_eq]. by replace (c =? 61) with false by lia. }
  rewrite (app_assoc pre). cbn [app]. rewrite (buf_get_end (pre ++ w ++ [c]) c' _ (Z.of_nat (length pre + length (w ++ [c])))) by (rewrite !length_app; lia).
  rewrite <- (app_assoc pre). rewrite bind_ret_l. cbn [split_eq]. replace (c =? 61) with false by lia.
  destruct (Z.eqb_spec c' 61) as [->|Hc'].
  - replace (Z.to_nat (Z.of_nat (length pre + length (w ++ [c])) - Z.of_nat (length pre))) with (length (w ++ [c])) by lia.
    rewrite strncmp_eq_ok by done. rewrite bind_ret_l. change (split_eq (61 :: u)) with (Some (@nil Z, u)).
    cbn [mbind option_bind]. destruct (prefixb (w ++ [c]) key) eqn:Ep; [done|].
    cbn [app] in IH. rewrite IH. done.
  - cbn [app] in IH. rewrite IH. cbn [hit]. replace (c' =? 61) with false by lia.
    cbn [split_eq]. replace (c' =? 61) with false by lia.
    destruct (split_eq u) as [[k v]|]; cbn [mbind option_bind].
    2: done.
    by rewrite <- !(app_assoc w [c]).
Qed.

Lemma hit_line key l : head l <> Some 59 ->
  hit key [] l = match line_entry l with Some (k, _) => if prefixb k key then Some (length k) else None | None => None end.
Proof.
  intros Hh. destruct l as [|c l]; [done|]. unfold hit, line_entry. assert (c <> 59) by (intros ->; by apply Hh).
  replace (c =? 59) with false by lia. cbn [orb]. destruct (c =? 61); [done|].
  by destruct (split_eq (c :: l)) as [[k v]|].
Qed.

(** The key at which a line is found. *)
Definition line_hit (key l : list Z) : option (list Z * list Z) :=
  match line_entry l with Some (k, v) => if prefixb k key then Some (k, v) else None | None => None end.

Lemma line_hit_Some key l k v : line_hit key l = Some (k, v) ->
  l = k ++ 61 :: v /\ k <> [] /\ Forall (fun c => c <> 61) k /\ prefixb k key = true /\
  line_value key l = Some v /\ forall v', line_put v' l = k ++ [61] ++ v'.
Proof.
  unfold line_hit, line_value, line_put. destruct (line_entry l) as [[k' v']|] eqn:E; [|done].
  destruct (prefixb k' key) eqn:Ep; [|done]. intros [= -> ->].
  destruct (line_entry_Some _ _ _ E) as (-> & ? & ? & ?). done.
Qed.

Lemma line_hit_None key l : line_hit key l = None -> line_value key l = None.
Proof. unfold line_hit, line_value. destruct (line_entry l) as [[k v]|]; [|done]. by destruct (prefixb k key). Qed.

Lemma print_lines_cons l ls : print_lines (l :: ls) = l ++ 10 :: print_lines ls.
Proof. unfold print_lines. cbn [fmap list_fmap mjoin list_join]. unfold print_line at 1. by rewrite <- app_assoc. Qed.
Lemma print_lines_app ls ls' : print_lines (ls ++ ls') = print_lines ls ++ print_lines ls'.
Proof. unfold print_lines. by rewrite fmap_app, join_app. Qed.

Lemma text_nonzero l : Forall text_char l -> Forall (fun c => c <> 0) l.
Proof. intros H. eapply Forall_impl; [exact H|]. unfold text_char. simpl. lia. Qed.

Lemma line_scan l : Forall text_char l ->
  Forall (fun x => negb (newline x) && negb (end_of_string x) = true) l.
Proof.
  intros H. eapply Forall_impl; [exact H|]. unfold text_char, newline, end_of_string. simpl.
  intros c Hc. rewrite andb_true_iff, !negb_true_iff, orb_false_iff, !Z.eqb_neq. lia.
Qed.

(** What a scan of the lines [ls] from offset [off] reports. *)
Inductive lines_found (key : list Z) (off : nat) (ls : list (list Z)) : Z * option (Z * Z) -> Prop :=
| lines_hit l1 k v l2 :
    ls = l1 ++ (k ++ 61 :: v) :: l2 -> lines_get key ls = Some v ->
    (forall v', lines_put key v' ls = Some (l1 ++ (k ++ 61 :: v') :: l2)) ->
    lines_found key off ls
      (Z.of_nat (off + length (print_lines l1) + length k + 1 + length v),
       Some (Z.of_nat (off + length (print_lines l1)), Z.of_nat (off + length (print_lines l1) + length k)))
| lines_miss :
    lines_get key ls = None -> (forall v', lines_put key v' ls = None) ->
    lines_found key off ls (Z.of_nat (off + length (print_lines ls)), None).

(** Where a section ends: at the terminator, or at a bracket after a line break. *)
Definition section_end (p : Z) (z : list Z) : Prop :=
  (exists z', z = 0 :: z') \/ (newline p = true /\ exists z', z = 91 :: z').

Lemma lines_found_cons key off l ls r : line_value key l = None ->
  lines_found key (off + length l + 1) ls r -> lines_found key off (l :: ls) r.
Proof.
  intros Hv [l1 k v l2 El Hg Hp|Hg Hp].
  - assert (off + length l + 1 + length (print_lines l1) = off + length (print_lines (l :: l1)))%nat as ->
      by (rewrite print_lines_cons, length_app; simpl; lia).
    apply (lines_hit key off (l :: ls) (l :: l1) k v l2); cbn [lines_get lines_put app]; rewrite ?Hv; [by rewrite El|done|].
    intros v'. by rewrite Hp.
  - assert (off + length l + 1 + length (print_lines ls) = off + length (print_lines (l :: ls)))%nat as ->
      by (rewrite print_lines_cons, length_app; simpl; lia).
    apply lines_miss; cbn [lines_get lines_put]; rewrite Hv; [done|]. intros v'. by rewrite Hp.
Qed.

Lemma scan_lines_ok key z ls : Forall line_ok ls -> forall pre p fuel,
  (ls = [] -> section_end p z) -> section_end 10 z -> (length ls <= fuel)%nat -> exists r,
  scan_lines fuel (pre ++ p :: print_lines ls ++ z) key (Z.of_nat (length pre + 1)) = Ret r /\
  lines_found key (length pre + 1) ls r.
Proof.
  induction 1 as [|l ls [Hl Hh] Hls IH]; intros pre p fuel Hend Hend' Hf.
  { eexists. split; [|by apply lines_miss]. cbn [print_lines fmap list_fmap mjoin list_join app].
    assert (scan_lines fuel (pre ++ p :: z) key (Z.of_nat (length pre + 1)) = Ret (Z.of_nat (length pre + 1), None)) as ->.
    { replace (Z.of_nat (length pre + 1)) with (Z.of_nat (length (pre ++ [p]))) by (rewrite length_app; done).
      destruct fuel; cbn [scan_lines];
      (rewrite (buf_get_end pre p _ (Z.of_nat (length (pre ++ [p])) - 1)) by (rewrite length_app; cbn [length]; lia);
      rewrite bind_ret_l;
      destruct (Hend eq_refl) as [[z' ->]|[Hn [z' ->]]]; rewrite (step_right pre p (_ :: z')), buf_get_mid, bind_ret_l;
      [by rewrite orb_true_r|by rewrite Hn]). }
    do 2 f_equal. simpl. lia. }
  destruct fuel as [|fuel]; [simpl in Hf; lia|]. rewrite print_lines_cons, <- app_assoc.
  set (buf := pre ++ p :: l ++ (10 :: print_lines ls) ++ z).
  assert (buf = (pre ++ [p]) ++ l ++ 10 :: print_lines ls ++ z) as Ebuf by (unfold buf; by rewrite <- app_assoc).
  assert (buf = (pre ++ p :: l) ++ 10 :: print_lines ls ++ z) as Ebuf' by (unfold buf; by rewrite <- app_assoc).
  assert (length buf = length pre + 1 + length l + 1 + length (print_lines ls ++ z))%nat as Hlb
    by (rewrite Ebuf, !length_app; cbn [length]; rewrite !length_app; lia).
  assert (buf_get buf (Z.of_nat (length pre + 1) - 1) = Ret p) as Eprev by (apply buf_get_end; lia).
  clearbody buf. cbn [scan_lines]. rewrite Eprev, bind_ret_l.
  assert (exists c, buf_get buf (Z.of_nat (length pre + 1)) = Ret c /\
    (newline p && left_barce c) || end_of_string c = false /\ (c =? 59) = bool_decide (head l = Some 59)) as (c & Ec & Hc & H59).
  { rewrite Ebuf. destruct l as [|c l]; [exists 10|exists c].
    - split; [apply buf_get_end; rewrite length_app; done|]. by rewrite andb_false_r.
    - split; [apply buf_get_end; rewrite length_app; done|]. destruct Hh as [_ Hh]. inversion Hl as [|? ? Hc _]; subst.
      unfold text_char in Hc. unfold left_barce, end_of_string. split.
      + replace (c =? 91) with false by lia. rewrite andb_false_r. simpl. lia.
      + cbn [head]. destruct (Z.eqb_spec c 59) as [->|]; [done|]. by rewrite bool_decide_eq_false_2 by congruence. }
  rewrite Ec, bind_ret_l, Hc. cbv zeta.
  assert (skip_while (fun c => negb (newline c) && negb (end_of_string c)) (length buf) buf (Z.of_nat (length pre + 1)) =
    Ret (Z.of_nat (length pre + 1 + length l))) as ->.
  { rewrite Ebuf at 2. replace (length pre + 1)%nat with (length (pre ++ [p])) by (rewrite length_app; done).
    apply skip_while_ok; [by apply line_scan|done|lia]. }
  rewrite bind_ret_l.
  assert ((if c =? 59 then Ret None else find_key (length buf) buf key (Z.of_nat (length pre + 1))
      (Z.of_nat (length pre + 1 + length l)) (Z.of_nat (length pre + 1))) =
    Ret ((fun '(k, _) => Z.of_nat (length pre + 1 + length k)) <$> line_hit key l)) as ->.
  { rewrite H59. case_bool_decide as H5.
    { destruct l as [|d l]; [done|]. injection H5 as ->. done. }
    rewrite Ebuf at 2. pose proof (find_key_ok (pre ++ [p]) key 10 (print_lines ls ++ z) ltac:(done) l [] (length buf)
      (text_nonzero l Hl) ltac:(lia)) as Hk. rewrite length_app in Hk. change (length [p]) with 1%nat in Hk.
    change (length (@nil Z)) with 0%nat in Hk. rewrite Nat.add_0_r in Hk. cbn [app] in Hk. rewrite Hk. f_equal.
    rewrite hit_line by done. unfold line_hit. destruct (line_entry l) as [[k v]|]; [|done]. by destruct (prefixb k key). }
  rewrite bind_ret_l. destruct (line_hit key l) as [[k v]|] eqn:El; cbn [fmap option_fmap option_map].
  - destruct (line_hit_Some _ _ _ _ El) as (El' & Hk & Hk61 & Hpre & Hv & Hput). eexists. split; [reflexivity|].
    replace (length pre + 1 + length l)%nat with (length pre + 1 + length (print_lines []) + length k + 1 + length v)%nat
      by (rewrite El', length_app; simpl; lia).
    replace (length pre + 1 + length k)%nat with (length pre + 1 + length (print_lines []) + length k)%nat by (simpl; lia).
    replace (Z.of_nat (length pre + 1)) with (Z.of_nat (length pre + 1 + length (print_lines []))) by (simpl; lia).
    apply (lines_hit key _ _ [] k v ls); cbn [lines_get lines_put app]; rewrite ?Hv, ?El'; [done|done|].
    intros v'. rewrite <- El', Hput. done.
  - apply line_hit_None in El.
    destruct (IH (pre ++ p :: l) 10 fuel ltac:(done) Hend' ltac:(simpl in Hf; lia)) as (r & Er & Hr).
    replace (Z.of_nat (length pre + 1 + length l) + 1) with (Z.of_nat (length (pre ++ p :: l) + 1))
      by (rewrite length_app; simpl; lia).
    rewrite Ebuf', Er. exists r. split; [done|]. apply lines_found_cons; [done|].
    rewrite length_app in Hr. simpl in Hr. by replace (length pre + 1 + length l + 1)%nat with (length pre + S (length l) + 1)%nat by lia.
Qed.

(** ** The walk over the file *)

Ltac norm_app := repeat (progress cbn [app] || rewrite <- app_assoc).

Definition print_secs (ss : list ini_section) : list Z := mjoin (print_section <$> ss).
Lemma print_secs_cons s ss : print_secs (s :: ss) = print_section s ++ print_secs ss.
Proof. done. Qed.

Definition line_start (pre : list Z) : bool := match last pre with Some p => newline p | None => true end.
Definition sec_ok (s : ini_section) : Prop := name_ok (sname s) /\ Forall line_ok (slines s).

Lemma line_start_10 pre : line_start (pre ++ [10]) = true.
Proof. unfold line_start. by rewrite last_snoc. Qed.

(** The test for the first column reads what is in front of the index. *)
Lemma first_column pre r :
  (if Z.of_nat (length pre) =? 0 then Ret true
   else prev ← buf_get (pre ++ r) (Z.of_nat (length pre) - 1); Ret (newline prev)) = Ret (line_start pre).
Proof.
  unfold line_start. destruct pre as [|x pre _] using rev_ind; [done|].
  rewrite length_app. cbn [length]. replace (Z.of_nat (length pre + 1) =? 0) with false by (symmetry; apply Z.eqb_neq; lia).
  rewrite last_snoc, <- app_assoc. cbn [app].
  rewrite (buf_get_end pre x _ (Z.of_nat (length pre + 1) - 1)) by lia. done.
Qed.

Section walk.
Variables section key : list Z.

(** A byte that opens no header is passed. *)
Lemma scan_char pre c r fuel pos : c <> 0 -> line_start pre && left_barce c = false ->
  scan_file (S fuel) (pre ++ c :: r) section key (Z.of_nat (length pre)) pos =
  scan_file fuel (pre ++ c :: r) section key (Z.of_nat (length (pre ++ [c]))) pos.
Proof.
  intros Hc H. cbn [scan_file]. rewrite buf_get_mid, bind_ret_l. unfold end_of_string at 1.
  replace (c =? 0) with false by lia. rewrite first_column, bind_ret_l, H.
  replace (Z.of_nat (length pre) + 1) with (Z.of_nat (length (pre ++ [c]))) by (rewrite length_app; simpl; lia). done.
Qed.

Lemma scan_line l r fuel pos : Forall text_char l -> forall pre,
  line_start pre = false \/ head l <> Some 91 ->
  scan_file (length l + 1 + fuel) (pre ++ l ++ 10 :: r) section key (Z.of_nat (length pre)) pos =
  scan_file fuel (pre ++ l ++ 10 :: r) section key (Z.of_nat (length (pre ++ l ++ [10]))) pos.
Proof.
  induction 1 as [|c l Hc Hl IH]; intros pre Hh.
  - cbn [length Nat.add app]. rewrite scan_char; [done|done|by rewrite andb_false_r].
  - cbn [length Nat.add app]. unfold text_char in Hc. rewrite scan_char; [|lia|].
    + rewrite (step_right pre). replace (length (pre ++ c :: l ++ [10])) with (length ((pre ++ [c]) ++ l ++ [10]))
        by (rewrite <- app_assoc; done).
      apply IH. left. unfold line_start. rewrite last_snoc. unfold newline. apply orb_false_iff. lia.
    + destruct Hh as [->|Hh]; [done|]. unfold left_barce. destruct (Z.eqb_spec c 91) as [->|]; [done|by rewrite andb_false_r].
Qed.

Lemma head_no_bracket l : head_ok l -> head l <> Some 91.
Proof. destruct l as [|c l]; [done|]. intros [_ H] [= ->]. done. Qed.

Lemma scan_plain ls r fuel pos : Forall line_ok ls -> forall pre,
  scan_file (length (print_lines ls) + fuel) (pre ++ print_lines ls ++ r) section key (Z.of_nat (length pre)) pos =
  scan_file fuel (pre ++ print_lines ls ++ r) section key (Z.of_nat (length (pre ++ print_lines ls))) pos.
Proof.
  induction 1 as [|l ls [Hl Hh] Hls IH]; intros pre; [by rewrite app_nil_r|].
  rewrite print_lines_cons. replace (length (l ++ 10%Z :: print_lines ls) + fuel)%nat with
    (length l + 1 + (length (print_lines ls) + fuel))%nat by (rewrite length_app; simpl; lia).
  replace (pre ++ (l ++ 10 :: print_lines ls) ++ r) with (pre ++ l ++ 10 :: print_lines ls ++ r) by by rewrite <- !app_assoc.
  rewrite scan_line by (done || right; by apply head_no_bracket).
  replace (pre ++ l ++ 10 :: print_lines ls ++ r) with ((pre ++ l ++ [10]) ++ print_lines ls ++ r) by by rewrite <- !app_assoc.
  rewrite IH. do 3 f_equal. by rewrite <- !app_assoc.
Qed.

(** A header is read up to its bracket. *)
Lemma skip_name pre nm r fuel : name_ok nm -> (length nm <= fuel)%nat ->
  skip_while (fun c => negb (isright_brace c) && negb (end_of_string c)) fuel
    (pre ++ 91 :: nm ++ 93 :: r) (Z.of_nat (length pre) + 1) = Ret (Z.of_nat (length pre + 1 + length nm)).
Proof.
  intros Hn Hf. rewrite step_right.
  replace (Z.of_nat (length pre) + 1) with (Z.of_nat (length (pre ++ [91]))) by (rewrite length_app; simpl; lia).
  rewrite skip_while_ok; [by rewrite length_app| |done|done].
  eapply Forall_impl; [exact Hn|]. unfold text_char, isright_brace, end_of_string. simpl.
  intros c Hc. rewrite andb_true_iff, !negb_true_iff, !Z.eqb_neq. lia.
Qed.

Lemma name_cmp pre nm r : name_ok nm ->
  strncmp_eq (pre ++ 91 :: nm ++ 93 :: r) (Z.of_nat (length pre) + 1) section
    (Z.to_nat (Z.of_nat (length pre + 1 + length nm) - (Z.of_nat (length pre) + 1))) = Ret (prefixb nm section).
Proof.
  intros Hn. rewrite step_right.
  replace (Z.of_nat (length pre) + 1) with (Z.of_nat (length (pre ++ [91]))) by (rewrite length_app; simpl; lia).
  replace (Z.to_nat (Z.of_nat (length pre + 1 + length nm) - Z.of_nat (length (pre ++ [91])))) with (length nm)
    by (rewrite length_app; simpl; lia).
  apply strncmp_eq_ok. eapply Forall_impl; [exact Hn|]. unfold text_char. simpl. lia.
Qed.

(** A section with another name is walked through. *)
Lemma scan_other pre s r fuel pos : line_start pre = true -> sec_ok s -> smatch section s = false ->
  (length (print_section s) <= fuel)%nat -> exists fuel', (fuel <= fuel' + length (print_section s))%nat /\
  scan_file fuel (pre ++ print_section s ++ r) section key (Z.of_nat (length pre)) pos =
  scan_file fuel' (pre ++ print_section s ++ r) section key (Z.of_nat (length (pre ++ print_section s))) pos.
Proof.
  intros Hst [Hn Hls] Hm Hf. destruct s as [nm ls]. cbn [sname slines] in *. unfold print_section in *. cbn [sname slines app] in *.
  assert (length (91 :: nm ++ 93 :: 10 :: print_lines ls)%Z = length nm + 3 + length (print_lines ls))%nat as Hl
    by (cbn [length]; rewrite length_app; cbn [length]; lia). rewrite Hl in *.
  set (buf := pre ++ _).
  exists (fuel - (3 + length (print_lines ls)))%nat. split; [lia|].
  assert (buf = pre ++ 91 :: nm ++ 93 :: (10 :: print_lines ls) ++ r) as E1 by (unfold buf; cbn [app]; by rewrite <- app_assoc).
  assert (buf = (pre ++ 91 :: nm) ++ [93] ++ 10 :: print_lines ls ++ r) as E2 by (rewrite E1, <- !app_assoc; done).
  assert (buf = (pre ++ 91 :: nm ++ [93; 10]) ++ print_lines ls ++ r) as E3 by (rewrite E1, <- !app_assoc; cbn [app]; by rewrite <- app_assoc).
  assert (length nm <= length buf)%nat as Hb by (rewrite E2, !length_app; simpl; lia). clearbody buf.
  transitivity (scan_file (length [93] + 1 + (length (print_lines ls) + (fuel - (3 + length (print_lines ls)))))
    buf section key (Z.of_nat (length (pre ++ 91 :: nm))) pos).
  - destruct fuel as [|fuel]; [lia|].
    replace (length [93%Z] + 1 + (length (print_lines ls) + (S fuel - (3 + length (print_lines ls)))))%nat with fuel by (cbn [length]; lia).
    cbn [scan_file]. rewrite E1 at 1. rewrite buf_get_mid, bind_ret_l. cbn [end_of_string Z.eqb].
    rewrite E1 at 1. rewrite first_column, Hst, bind_ret_l. cbn [andb left_barce Z.eqb Pos.eqb]. cbv zeta.
    rewrite E1 at 2. rewrite skip_name by done. rewrite bind_ret_l. rewrite E1 at 1. rewrite name_cmp by done.
    rewrite bind_ret_l. unfold smatch in Hm. cbn [sname] in Hm. rewrite Hm.
    replace (length (pre ++ 91%Z :: nm)) with (length pre + 1 + length nm)%nat by (rewrite length_app; simpl; lia). done.
  - rewrite E2, scan_line; [|by repeat constructor|by right]. rewrite <- E2.
    replace (length ((pre ++ 91%Z :: nm) ++ [93%Z] ++ [10%Z])) with (length (pre ++ 91 :: nm ++ [93; 10]))
      by (rewrite <- app_assoc; done).
    rewrite E3, scan_plain by done. rewrite <- E3. do 3 f_equal. rewrite <- app_assoc. cbn [app]. by rewrite <- app_assoc.
Qed.

Lemma split_blank ls : exists n ls', ls = replicate n [] ++ ls' /\ head ls' <> Some [] /\
  forall v, lines_insert key v ls = replicate n [] ++ (key ++ 61 :: v) :: ls'.
Proof.
  induction ls as [|[|c l] ls IH].
  - exists 0%nat, []. done.
  - destruct IH as (n & ls' & -> & Hh & Hi). exists (S n), ls'. split_and!; [done|done|]. intros v. cbn [lines_insert replicate app].
    by rewrite Hi.
  - exists 0%nat, ((c :: l) :: ls). done.
Qed.

Lemma print_blank n : print_lines (replicate n []) = replicate n 10.
Proof. induction n as [|n IH]; [done|]. cbn [replicate]. rewrite print_lines_cons, IH. done. Qed.

Lemma replicate_end {A} n (x : A) r : replicate n x ++ x :: r = x :: replicate n x ++ r.
Proof. induction n as [|n IH]; [done|]. cbn [replicate app]. by rewrite IH. Qed.

Lemma lines_found_blank n ls r : forall off,
  lines_found key (off + n) ls r -> lines_found key off (replicate n [] ++ ls) r.
Proof.
  induction n as [|n IH]; intros off H; [by rewrite Nat.add_0_r in H|].
  cbn [replicate app]. apply lines_found_cons; [done|]. apply IH. simpl. by replace (off + 0 + 1 + n)%nat with (off + S n)%nat by lia.
Qed.

(** A matching section: the place for a new entry, then its lines. *)
Lemma scan_match pre s z fuel pos : line_start pre = true -> sec_ok s -> smatch section s = true -> section_end 10 z ->
  let e := (length pre + length (sname s) + 3)%nat in
  exists n r, (n <= length (slines s))%nat /\ print_lines (slines s) = replicate n 10 ++ drop n (print_lines (slines s)) /\
  (forall v, print_lines (lines_insert key v (slines s)) =
     replicate n 10 ++ key ++ 61 :: v ++ 10 :: drop n (print_lines (slines s))) /\
  lines_found key e (slines s) r /\
  let pos' := mk_pos (Z.of_nat (length pre) + 1) (Z.of_nat (e + n)) (key_s pos) (key_e pos) (value_s pos) (value_e pos) in
  scan_file (S fuel) (pre ++ print_section s ++ z) section key (Z.of_nat (length pre)) pos =
  match r.2 with
  | Some (ns, j) => Ret (1, mk_pos (Z.of_nat (length pre) + 1) (Z.of_nat (e + n)) ns (j - 1) (j + 1) r.1)
  | None => scan_file fuel (pre ++ print_section s ++ z) section key r.1 pos'
  end.
Proof.
  intros Hst [Hn Hls] Hm Hz. destruct s as [nm ls]. cbn [sname slines] in *. unfold print_section. cbn [sname slines app].
  destruct (split_blank ls) as (n & ls' & -> & Hh & Hi).
  apply Forall_app in Hls as [_ Hls].
  set (buf := pre ++ _).
  assert (buf = pre ++ 91 :: nm ++ 93 :: 10 :: replicate n 10 ++ print_lines ls' ++ z) as E1.
  { unfold buf. rewrite print_lines_app, print_blank. cbn [app]. rewrite <- !app_assoc. cbn [app]. by rewrite <- !app_assoc. }
  assert (buf = (pre ++ 91 :: nm ++ [93]) ++ (10 :: replicate n 10) ++ print_lines ls' ++ z) as E2
    by (rewrite E1, <- app_assoc; cbn [app]; by rewrite <- app_assoc).
  assert (buf = (pre ++ 91 :: nm ++ 93 :: replicate n 10) ++ 10 :: print_lines ls' ++ z) as E3.
  { rewrite E1, <- app_assoc. cbn [app]. rewrite <- app_assoc. cbn [app]. by rewrite replicate_end. }
  assert (length buf = length pre + length nm + 3 + n + length (print_lines ls') + length z)%nat as Hlb.
  { rewrite E1, length_app. cbn [length]. rewrite length_app. cbn [length]. rewrite !length_app, length_replicate. lia. }
  clearbody buf.
  destruct (scan_lines_ok key z ls' Hls (pre ++ 91 :: nm ++ 93 :: replicate n 10) 10 (length buf)) as (r & Er & Hr);
    [done|done| |].
  { assert (length ls' <= length (print_lines ls'))%nat; [|lia]. clear. induction ls' as [|l ls IH]; [done|].
    rewrite print_lines_cons, length_app. simpl. lia. }
  exists n, r. rewrite print_lines_app, print_blank, drop_app_length' by by rewrite length_replicate.
  split_and!; [rewrite length_app, length_replicate; lia|done| | |].
  - intros v. rewrite Hi, print_lines_app, print_blank, print_lines_cons, <- app_assoc. done.
  - apply lines_found_blank. rewrite length_app in Hr. cbn [length] in Hr. rewrite length_app in Hr. cbn [length] in Hr.
    rewrite length_replicate in Hr. by replace (length pre + length nm + 3 + n)%nat with
      (length pre + S (length nm + S n) + 1)%nat by lia.
  - cbn [scan_file]. rewrite E1 at 1. rewrite buf_get_mid, bind_ret_l. cbn [end_of_string Z.eqb].
    rewrite E1 at 1. rewrite first_column, Hst, bind_ret_l. cbn [andb left_barce Z.eqb Pos.eqb]. cbv zeta.
    rewrite E1 at 2. rewrite skip_name by (done || lia). rewrite bind_ret_l. rewrite E1 at 1. rewrite name_cmp by done.
    rewrite bind_ret_l. unfold smatch in Hm. cbn [sname] in Hm. rewrite Hm.
    assert (skip_while isspace (length buf) buf (Z.of_nat (length pre + 1 + length nm) + 1) =
      Ret (Z.of_nat (length pre + length nm + 3 + n))) as ->.
    { replace (Z.of_nat (length pre + 1 + length nm) + 1) with (Z.of_nat (length (pre ++ 91 :: nm ++ [93])))
        by (rewrite length_app; cbn [length]; rewrite length_app; simpl; lia).
      assert (exists c z', print_lines ls' ++ z = c :: z' /\ isspace c = false) as (c & z' & Ez & Hc).
      { destruct ls' as [|[|c l] ls'].
        - destruct Hz as [[z' ->]|[_ [z' ->]]]; eexists _, _; done.
        - done.
        - rewrite print_lines_cons. cbn [app]. eexists _, _. split; [done|]. apply Forall_cons in Hls as [[_ [H _]] _]. done. }
      rewrite E2 at 2. rewrite Ez, skip_while_ok; [| |done|cbn [length]; rewrite length_replicate; lia].
      - rewrite length_app. cbn [length]. rewrite length_app. cbn [length]. rewrite length_replicate. do 2 f_equal. lia.
      - constructor; [done|]. by apply Forall_replicate. }
    rewrite bind_ret_l. rewrite E3 at 2.
    replace (Z.of_nat (length pre + length nm + 3 + n)) with (Z.of_nat (length (pre ++ 91 :: nm ++ 93 :: replicate n 10) + 1)) at 1
      by (rewrite length_app; cbn [length]; rewrite length_app; cbn [length]; rewrite length_replicate; lia).
    rewrite Er, bind_ret_l. destruct r as [i' [[ns j]|]]; done.
Qed.
End walk.

(** What a walk over the sections [ss] from offset [off] reports: the value's
    position, a place for a new entry, or no section. *)
Inductive secs_found (section key : list Z) (off : nat) (ss : list ini_section) (pos : ini_pos) : Z * ini_pos -> Prop :=
| secs_hit A v B s e ks ke :
    0 <= s -> 0 <= ks -> print_secs ss = A ++ v ++ 10 :: B -> secs_get section key ss = Some v ->
    (forall v', exists ss', secs_put section key v' ss = Some ss' /\ print_secs ss' = A ++ v' ++ 10 :: B) ->
    secs_found section key off ss pos
      (1, mk_pos s e ks ke (Z.of_nat (off + length A)) (Z.of_nat (off + length A + length v)))
| secs_room A B s :
    0 <= s -> print_secs ss = A ++ B -> secs_get section key ss = None ->
    (forall v', secs_put section key v' ss = None /\
       exists ss', secs_insert section key v' ss = Some ss' /\ print_secs ss' = A ++ key ++ 61 :: v' ++ 10 :: B) ->
    secs_found section key off ss pos
      (0, mk_pos s (Z.of_nat (off + length A)) (key_s pos) (key_e pos) (value_s pos) (value_e pos))
| secs_miss :
    secs_get section key ss = None ->
    (forall v', secs_put section key v' ss = None /\ secs_insert section key v' ss = None) ->
    secs_found section key off ss pos (0, pos).

(** The positions of the entry fields do not influence a walk that fails. *)
Lemma secs_found_cons section key off s ss pos pos' r :
  lines_get key (slines s) = None \/ smatch section s = false ->
  (forall v', lines_put key v' (slines s) = None \/ smatch section s = false) ->
  key_s pos' = key_s pos -> key_e pos' = key_e pos -> value_s pos' = value_s pos -> value_e pos' = value_e pos ->
  (smatch section s = false -> pos' = pos) ->
  (smatch section s = true -> exists n, 0 <= sec_s pos' /\ sec_e pos' = Z.of_nat (off + (length (sname s) + 3) + n) /\
     print_lines (slines s) = replicate n 10 ++ drop n (print_lines (slines s)) /\
     (forall v, print_lines (lines_insert key v (slines s)) =
        replicate n 10 ++ key ++ 61 :: v ++ 10 :: drop n (print_lines (slines s)))) ->
  secs_found section key (off + length (print_section s)) ss pos' r ->
  secs_found section key off (s :: ss) pos r.
Proof.
  intros Hg Hp E1 E2 E3 E4 Hno Hyes H.
  assert ((if smatch section s then lines_get key (slines s) else None) = None) as Hg'
    by (destruct Hg as [->| ->]; by destruct (smatch section s)).
  assert (forall v', (if smatch section s then lines_put key v' (slines s) else None) = None) as Hp'
    by (intros v'; destruct (Hp v') as [->| ->]; by destruct (smatch section s)).
  destruct H as [A v B st e ks ke H0 H1 Hpr Hget Hput|A B st H0 Hpr Hget Hput|Hget Hput].
  - replace (off + length (print_section s) + length A)%nat with (off + length (print_section s ++ A))%nat
      by (rewrite length_app; lia).
    apply (secs_hit section key off (s :: ss) pos (print_section s ++ A) v B); try done.
    + by rewrite print_secs_cons, Hpr, <- app_assoc.
    + cbn [secs_get]. by rewrite Hg'.
    + intros v'. destruct (Hput v') as (ss' & Es & Ep). exists (s :: ss'). cbn [secs_put]. rewrite Hp', Es.
      split; [done|]. by rewrite print_secs_cons, Ep, <- app_assoc.
  - rewrite E1, E2, E3, E4.
    replace (off + length (print_section s) + length A)%nat with (off + length (print_section s ++ A))%nat
      by (rewrite length_app; lia).
    apply (secs_room section key off (s :: ss) pos (print_section s ++ A) B); try done.
    + by rewrite print_secs_cons, Hpr, <- app_assoc.
    + cbn [secs_get]. by rewrite Hg'.
    + intros v'. destruct (Hput v') as [En (ss' & Es & Ep)]. cbn [secs_put secs_insert]. rewrite Hp', En, Es.
      split; [done|]. exists (s :: ss'). split; [done|]. by rewrite print_secs_cons, Ep, <- app_assoc.
  - destruct (smatch section s) eqn:Em.
    + destruct (Hyes eq_refl) as (n & H0 & He & Hpl & Hins).
      set (hd := [91] ++ sname s ++ [93; 10] ++ replicate n 10).
      assert (length hd = length (sname s) + 3 + n)%nat as Hl
        by (unfold hd; rewrite !length_app, length_replicate; simpl; lia).
      replace pos' with (mk_pos (sec_s pos') (Z.of_nat (off + length hd)) (key_s pos) (key_e pos) (value_s pos) (value_e pos))
        by (destruct pos'; cbn in *; f_equal; try done; lia).
      apply (secs_room section key off (s :: ss) pos hd (drop n (print_lines (slines s)) ++ print_secs ss)); [done| | |].
      * rewrite print_secs_cons. unfold print_section. rewrite Hpl at 1. unfold hd. rewrite <- !app_assoc. done.
      * cbn [secs_get]. by rewrite Em, Hg'.
      * intros v'. destruct (Hput v') as [En Ei]. cbn [secs_put secs_insert]. rewrite Em, Hp', En, Ei. split; [done|].
        eexists. split; [done|]. rewrite print_secs_cons. unfold print_section, hd. cbn [sname slines].
        rewrite Hins. norm_app. done.
    + rewrite (Hno eq_refl). apply secs_miss.
      * cbn [secs_get]. by rewrite Em.
      * intros v'. destruct (Hput v') as [En Ei]. cbn [secs_put secs_insert]. by rewrite Em, En, Ei.
Qed.

Lemma secs_end z ss : section_end 10 z -> section_end 10 (print_secs ss ++ z).
Proof. destruct ss as [|s ss]; [done|]. intros _. right. split; [done|]. eexists. rewrite print_secs_cons. done. Qed.

Lemma line_start_section pre s : line_start (pre ++ print_section s) = true.
Proof.
  unfold print_section. destruct (slines s) as [|l ls _] using rev_ind.
  - replace (pre ++ [91] ++ sname s ++ [93; 10] ++ print_lines []) with ((pre ++ [91] ++ sname s ++ [93]) ++ [10])
      by (rewrite <- !app_assoc; done). apply line_start_10.
  - rewrite print_lines_app, print_lines_cons.
    replace (pre ++ _) with ((pre ++ [91] ++ sname s ++ [93; 10] ++ print_lines ls ++ l) ++ [10])
      by (rewrite <- !app_assoc; done). apply line_start_10.
Qed.

Lemma scan_secs_ok section key z ss : Forall sec_ok ss -> section_end 10 (0 :: z) -> forall pre fuel pos,
  line_start pre = true -> (length (print_secs ss) <= fuel)%nat -> exists r,
  scan_file fuel (pre ++ print_secs ss ++ 0 :: z) section key (Z.of_nat (length pre)) pos = Ret r /\
  secs_found section key (length pre) ss pos r.
Proof.
  intros Hss Hz. induction Hss as [|s ss Hs Hss IH]; intros pre fuel pos Hst Hf.
  { exists (0, pos). split; [|by apply secs_miss]. cbn [print_secs fmap list_fmap mjoin list_join app].
    destruct fuel; cbn [scan_file]; by rewrite buf_get_mid, bind_ret_l. }
  rewrite print_secs_cons in *. rewrite length_app in Hf. rewrite <- app_assoc.
  assert (1 <= length (print_section s))%nat as H1 by (unfold print_section; simpl; lia).
  pose proof (line_start_section pre s) as Hst'.
  destruct (smatch section s) eqn:Em.
  - destruct fuel as [|fuel]; [lia|].
    destruct (scan_match section key pre s (print_secs ss ++ 0 :: z) fuel pos Hst Hs Em ltac:(by apply secs_end))
      as (n & r & Hn & Hpl & Hins & Hr & ->). destruct Hr as [l1 k v l2 El Hg Hp|Hg Hp]; cbn [fst snd].
    + eexists. split; [reflexivity|].
      set (A := [91] ++ sname s ++ [93; 10] ++ print_lines l1 ++ k ++ [61]).
      set (B := print_lines l2 ++ print_secs ss).
      assert (length A = length (sname s) + 3 + length (print_lines l1) + length k + 1)%nat as HA
        by (unfold A; rewrite !length_app; simpl; lia).
      replace (Z.of_nat (length pre + length (sname s) + 3 + length (print_lines l1) + length k) + 1)
        with (Z.of_nat (length pre + length A)) by lia.
      replace (Z.of_nat (length pre + length (sname s) + 3 + length (print_lines l1) + length k + 1 + length v))
        with (Z.of_nat (length pre + length A + length v)) by lia.
      apply (secs_hit section key _ (s :: ss) pos A v B); [lia|lia| | |].
      * rewrite print_secs_cons. unfold print_section. rewrite El, print_lines_app, print_lines_cons. unfold A, B.
        norm_app. done.
      * cbn [secs_get]. by rewrite Em, Hg.
      * intros v'. cbn [secs_put]. rewrite Em, Hp. eexists. split; [done|]. rewrite print_secs_cons. unfold print_section.
        cbn [sname slines]. rewrite print_lines_app, print_lines_cons. unfold A, B.
        norm_app. done.
    + set (pos' := mk_pos _ _ _ _ _ _).
      destruct (IH (pre ++ print_section s) fuel pos' Hst' ltac:(lia)) as (r & Er & Hr).
      assert (length pre + length (sname s) + 3 + length (print_lines (slines s)) = length (pre ++ print_section s))%nat as ->
        by (unfold print_section; rewrite !length_app; simpl; lia).
      exists r. rewrite (app_assoc pre (print_section s)). split; [exact Er|].
      rewrite length_app in Hr. apply (secs_found_cons section key (length pre) s ss pos pos' r); try done; try by left.
      * by rewrite Em.
      * intros _. exists n. cbn [pos' sec_s sec_e]. split_and!; [lia|lia|done|done].
  - destruct (scan_other section key pre s (print_secs ss ++ 0 :: z) fuel pos Hst Hs Em ltac:(lia)) as (fuel' & Hf' & ->).
    destruct (IH (pre ++ print_section s) fuel' pos Hst' ltac:(lia)) as (r & Er & Hr).
    exists r. rewrite (app_assoc pre (print_section s)). split; [exact Er|]. rewrite length_app in Hr.
    apply (secs_found_cons section key (length pre) s ss pos pos r); try done; try by right.
    + by rewrite Em.
Qed.

Lemma line_start_lines ls : line_start (print_lines ls) = true.
Proof.
  destruct ls as [|l ls _] using rev_ind; [done|]. rewrite print_lines_app, print_lines_cons.
  replace (print_lines ls ++ l ++ 10 :: print_lines []) with ((print_lines ls ++ l) ++ [10]) by by rewrite <- app_assoc.
  apply line_start_10.
Qed.

Lemma parse_doc_ok section key d z : doc_ok d -> section <> [] -> key <> [] -> exists r,
  parse_file section key (print_doc d ++ 0 :: z) = Ret r /\
  secs_found section key (length (print_lines (preamble d))) (sections d) no_pos r.
Proof.
  intros [Hp Hs] Hsec Hkey. unfold parse_file.
  replace (nonempty section) with true by by destruct section. replace (nonempty key) with true by by destruct key.
  cbn [cassert]. rewrite !bind_ret_l. unfold print_doc. fold (print_secs (sections d)). rewrite <- app_assoc.
  set (buf := print_lines (preamble d) ++ _).
  assert (length buf = length (print_lines (preamble d)) + (length (print_secs (sections d)) + 1 + length z))%nat as ->
    by (unfold buf; rewrite !length_app; simpl; lia).
  pose proof (scan_plain section key (preamble d) (print_secs (sections d) ++ 0 :: z)
    (length (print_secs (sections d)) + 1 + length z) no_pos Hp []) as E. cbn [app length] in E.
  change (Z.of_nat 0) with 0 in E. fold buf in E. rewrite E.
  apply scan_secs_ok; [done| |apply line_start_lines|lia]. left. by eexists.
Qed.

(** ** Laws of documents *)

Lemma prefixb_refl x : prefixb x x = true.
Proof. induction x as [|c x IH]; [done|]. cbn [prefixb]. by rewrite Z.eqb_refl, IH. Qed.

(** No file key matches both. *)
Definition keys_apart (k k' : list Z) : Prop := forall x, x <> [] -> prefixb x k = true -> prefixb x k' = false.

Lemma heads_apart k k' : head k <> head k' -> keys_apart k k'.
Proof.
  intros H x Hx Hk. destruct x as [|c x]; [done|]. destruct k as [|a k]; [done|]. cbn [prefixb] in Hk.
  apply andb_true_iff in Hk as [E _]. apply Z.eqb_eq in E as ->. destruct k' as [|b k']; [done|].
  cbn [prefixb]. replace (a =? b) with false; [done|]. symmetry. apply Z.eqb_neq. intros ->. by apply H.
Qed.

Lemma line_value_entry key' k v : k <> [] -> Forall (fun c => c <> 61) k -> head k <> Some 59 ->
  line_value key' (k ++ 61 :: v) = if prefixb k key' then Some v else None.
Proof. intros. unfold line_value. by rewrite line_entry_app. Qed.

Lemma line_put_value key v l v0 : line_value key l = Some v0 -> line_value key (line_put v l) = Some v.
Proof.
  unfold line_value at 1, line_put. destruct (line_entry l) as [[k v1]|] eqn:E; [|done].
  destruct (prefixb k key) eqn:Ep; [|done]. intros _. destruct (line_entry_Some _ _ _ E) as (_ & ? & ? & ?).
  change ([61] ++ v) with (61 :: v). rewrite line_value_entry by done. by rewrite Ep.
Qed.

Lemma line_put_other key key' v l v0 : keys_apart key key' -> line_value key l = Some v0 ->
  line_value key' (line_put v l) = None /\ line_value key' l = None.
Proof.
  intros Ha. unfold line_value at 1, line_put. destruct (line_entry l) as [[k v1]|] eqn:E; [|done].
  destruct (prefixb k key) eqn:Ep; [|done]. intros _. destruct (line_entry_Some _ _ _ E) as (El & ? & ? & ?).
  change ([61] ++ v) with (61 :: v). rewrite line_value_entry by done.
  unfold line_value. by rewrite E, (Ha k).
Qed.

Section laws.
Variables (key v : list Z).
Hypothesis Hkey : key_ok key.

Lemma new_value key' : line_value key' (key ++ 61 :: v) = if prefixb key key' then Some v else None.
Proof. destruct Hkey as (_ & ? & ? & ?). by apply line_value_entry. Qed.

Lemma lines_put_get ls : match lines_put key v ls with
  | Some ls' => lines_get key ls' = Some v
  | None => lines_get key ls = None
  end.
Proof.
  induction ls as [|l ls IH]; [done|]. cbn [lines_put lines_get]. destruct (line_value key l) as [v0|] eqn:E.
  - cbn [lines_get]. by rewrite (line_put_value key v l v0).
  - destruct (lines_put key v ls); cbn [fmap option_fmap option_map lines_get]; by rewrite ?E.
Qed.

Lemma lines_put_other key' ls ls' : keys_apart key key' -> lines_put key v ls = Some ls' ->
  lines_get key' ls' = lines_get key' ls.
Proof.
  intros Ha. revert ls'. induction ls as [|l ls IH]; intros ls'; [done|]. cbn [lines_put].
  destruct (line_value key l) as [v0|] eqn:E.
  - intros [= <-]. cbn [lines_get]. destruct (line_put_other key key' v l v0 Ha E) as [-> ->]. done.
  - destruct (lines_put key v ls) as [r|]; [|done]. intros [= <-]. cbn [lines_get]. by rewrite (IH _ eq_refl).
Qed.

Lemma lines_insert_get ls : lines_get key (lines_insert key v ls) = Some v.
Proof.
  assert (line_value key (key ++ [61] ++ v) = Some v) as E
    by (change ([61] ++ v) with (61 :: v); rewrite new_value; by rewrite prefixb_refl).
  induction ls as [|[|c l] ls IH]; cbn [lines_insert lines_get]; rewrite ?E; done.
Qed.

Lemma lines_insert_other key' ls : keys_apart key key' -> lines_get key' (lines_insert key v ls) = lines_get key' ls.
Proof.
  intros Ha. assert (line_value key' (key ++ [61] ++ v) = None) as E.
  { change ([61] ++ v) with (61 :: v). rewrite new_value. destruct Hkey as (_ & ? & _).
    by rewrite (Ha key) by (done || apply prefixb_refl). }
  induction ls as [|[|c l] ls IH]; cbn [lines_insert lines_get]; rewrite ?E; done.
Qed.

Lemma smatch_lines sec s ls : smatch sec (mk_section (sname s) ls) = smatch sec s.
Proof. done. Qed.

Lemma add_blank_get sec key' ss s : secs_get sec key' (add_blank ss ++ [s]) =
  match secs_get sec key' ss with Some v => Some v | None => secs_get sec key' [s] end.
Proof.
  induction ss as [|s0 ss IH]; [done|].
  assert (forall ls, lines_get key' (ls ++ [[]]) = lines_get key' ls) as Hb.
  { intros ls. induction ls as [|l ls IHl]; [done|]. cbn [app lines_get]. by rewrite IHl. }
  destruct ss as [|s1 ss].
  - cbn [add_blank app secs_get slines]. rewrite Hb, smatch_lines.
    by destruct (if smatch sec s0 then lines_get key' (slines s0) else None).
  - change (add_blank (s0 :: s1 :: ss)) with (s0 :: add_blank (s1 :: ss)).
    change ((s0 :: add_blank (s1 :: ss)) ++ [s]) with (s0 :: (add_blank (s1 :: ss) ++ [s])).
    cbn [secs_get] in *. rewrite IH. by destruct (if smatch sec s0 then lines_get key' (slines s0) else None).
Qed.

Lemma append_get sec key' d s : doc_get (doc_append d s) sec key' =
  match doc_get d sec key' with Some v => Some v | None => secs_get sec key' [s] end.
Proof.
  unfold doc_get, doc_append. destruct (sections d) as [|s0 ss]; [by destruct (preamble d)|].
  cbn [sections]. apply add_blank_get.
Qed.

Lemma secs_put_get sec ss ss' : secs_put sec key v ss = Some ss' -> secs_get sec key ss' = Some v.
Proof.
  revert ss'. induction ss as [|s ss IH]; intros ss'; [done|]. cbn [secs_put]. pose proof (lines_put_get (slines s)) as Hl.
  destruct (smatch sec s) eqn:Em.
  - destruct (lines_put key v (slines s)) as [ls|] eqn:E.
    + intros [= <-]. cbn [secs_get slines]. by rewrite smatch_lines, Em, Hl.
    + destruct (secs_put sec key v ss) as [r|]; [|done]. intros [= <-]. cbn [secs_get]. by rewrite Em, Hl, (IH _ eq_refl).
  - destruct (secs_put sec key v ss) as [r|]; [|done]. intros [= <-]. cbn [secs_get]. by rewrite Em, (IH _ eq_refl).
Qed.

Lemma secs_insert_get sec ss ss' : secs_put sec key v ss = None -> secs_insert sec key v ss = Some ss' ->
  secs_get sec key ss' = Some v.
Proof.
  revert ss'. induction ss as [|s ss IH]; intros ss'; [done|]. cbn [secs_put secs_insert].
  pose proof (lines_put_get (slines s)) as Hl.
  destruct (smatch sec s) eqn:Em.
  - destruct (lines_put key v (slines s)) as [ls|] eqn:E; [done|].
    destruct (secs_put sec key v ss) as [r|]; [done|]. intros _.
    destruct (secs_insert sec key v ss) as [r|]; intros [= <-]; cbn [secs_get slines].
    + by rewrite Em, Hl, (IH _ eq_refl eq_refl).
    + by rewrite smatch_lines, Em, lines_insert_get.
  - destruct (secs_put sec key v ss) as [r|]; [done|]. intros _.
    destruct (secs_insert sec key v ss) as [r|]; intros [= <-]. cbn [secs_get]. by rewrite Em, (IH _ eq_refl eq_refl).
Qed.

Lemma secs_none sec ss : secs_put sec key v ss = None -> secs_get sec key ss = None.
Proof.
  induction ss as [|s ss IH]; [done|]. cbn [secs_put secs_get]. pose proof (lines_put_get (slines s)) as Hl.
  destruct (smatch sec s).
  - destruct (lines_put key v (slines s)); [done|]. rewrite Hl. by destruct (secs_put sec key v ss); [|auto].
  - by destruct (secs_put sec key v ss); [|auto].
Qed.

Lemma doc_get_set d sec : doc_get (doc_set d sec key v) sec key = Some v.
Proof.
  unfold doc_set. destruct (secs_put sec key v (sections d)) as [ss|] eqn:Ep; [by eapply secs_put_get|].
  destruct (secs_insert sec key v (sections d)) as [ss|] eqn:Ei; [by eapply secs_insert_get|].
  rewrite append_get. unfold doc_get. rewrite (secs_none _ _ Ep). cbn [secs_get smatch sname slines lines_get].
  unfold smatch. cbn [sname]. rewrite prefixb_refl. change ([61] ++ v) with (61 :: v).
  rewrite new_value, prefixb_refl. done.
Qed.

Lemma secs_put_other sec sec' key' ss ss' : keys_apart key key' -> secs_put sec key v ss = Some ss' ->
  secs_get sec' key' ss' = secs_get sec' key' ss.
Proof.
  intros Ha. revert ss'. induction ss as [|s ss IH]; intros ss'; [done|]. cbn [secs_put].
  destruct (if smatch sec s then lines_put key v (slines s) else None) as [ls|] eqn:E.
  - destruct (smatch sec s); [|done]. intros [= <-]. cbn [secs_get slines].
    by rewrite smatch_lines, (lines_put_other key' (slines s) ls Ha E).
  - destruct (secs_put sec key v ss) as [r|]; [|done]. intros [= <-]. cbn [secs_get]. by rewrite (IH _ eq_refl).
Qed.

Lemma secs_insert_other sec sec' key' ss ss' : keys_apart key key' -> secs_insert sec key v ss = Some ss' ->
  secs_get sec' key' ss' = secs_get sec' key' ss.
Proof.
  intros Ha. revert ss'. induction ss as [|s ss IH]; intros ss'; [done|]. cbn [secs_insert].
  destruct (secs_insert sec key v ss) as [r|].
  - intros [= <-]. cbn [secs_get]. by rewrite (IH _ eq_refl).
  - destruct (smatch sec s); [|done]. intros [= <-]. cbn [secs_get slines].
    by rewrite smatch_lines, lines_insert_other.
Qed.

Lemma doc_get_set_other d sec sec' key' : keys_apart key key' ->
  doc_get (doc_set d sec key v) sec' key' = doc_get d sec' key'.
Proof.
  intros Ha. unfold doc_set. destruct (secs_put sec key v (sections d)) as [ss|] eqn:Ep; [by eapply secs_put_other|].
  destruct (secs_insert sec key v (sections d)) as [ss|] eqn:Ei; [by eapply secs_insert_other|].
  rewrite append_get. destruct (doc_get d sec' key'); [done|]. cbn [secs_get slines lines_get].
  change ([61] ++ v) with (61 :: v). rewrite new_value. destruct Hkey as (_ & ? & _).
  rewrite (Ha key) by (done || apply prefixb_refl). by destruct (smatch sec' _).
Qed.
End laws.
