(* ===== verification/IniFile.v ===== *)
(** * Reading and writing configuration files

    The file operations of [Ini] against documents: on a file that holds a
    well-formed document, [read_profile_string] is [doc_get] and
    [write_profile_string] is [doc_set]; on any other file reading ends inside
    its buffers. *)
From S2P Require Import Prelude Words Buffers CString Ini IniDoc.

(** ** Documents stay well formed *)

Lemma doc_set_lines (P : list Z -> Prop) key v : P [] -> P (key ++ 61 :: v) ->
  (forall l v0, P l -> line_value key l = Some v0 -> P (line_put v l)) ->
  forall ls, Forall P ls ->
  (forall ls', lines_put key v ls = Some ls' -> Forall P ls') /\ Forall P (lines_insert key v ls).
Proof.
  intros P0 Pn Pp ls. induction 1 as [|l ls Hl Hls [IH1 IH2]]; [split; [done|by repeat constructor]|]. split.
  - intros ls'. cbn [lines_put]. destruct (line_value key l) as [v0|] eqn:E.
    + intros [= <-]. constructor; [by eapply Pp|done].
    + destruct (lines_put key v ls) as [r|]; [|done]. intros [= <-]. constructor; [done|by apply IH1].
  - destruct l as [|c l]; cbn [lines_insert]; [by constructor|]. repeat constructor; done.
Qed.

Lemma line_ok_entry k v : line_ok k -> k <> [] -> Forall text_char v -> line_ok (k ++ 61 :: v).
Proof.
  intros [Hk Hh] Hne Hv. split.
  - apply Forall_app_2; [done|]. constructor; [unfold text_char; lia|done].
  - by destruct k.
Qed.

Lemma line_put_ok key v l v0 : Forall text_char v -> line_ok l -> line_value key l = Some v0 -> line_ok (line_put v l).
Proof.
  intros Hv [Hl Hh]. unfold line_value, line_put. destruct (line_entry l) as [[k v1]|] eqn:E; [|done]. intros _.
  destruct (line_entry_Some _ _ _ E) as (-> & Hk & _). apply Forall_app in Hl as [Hl _].
  apply line_ok_entry; [|done|done]. split; [done|]. by destruct k.
Qed.

Section set_ok.
Variables section key v : list Z.
Hypothesis Hsec : name_ok section.
Hypothesis Hkey : key_ok key.
Hypothesis Hv : Forall text_char v.

Lemma new_line_ok : line_ok (key ++ 61 :: v).
Proof. destruct Hkey as (? & ? & _). by apply line_ok_entry. Qed.

Lemma lines_set_ok ls : Forall line_ok ls ->
  (forall ls', lines_put key v ls = Some ls' -> Forall line_ok ls') /\ Forall line_ok (lines_insert key v ls).
Proof.
  apply doc_set_lines; [by repeat constructor|apply new_line_ok|]. intros l v0 Hl E. by eapply line_put_ok.
Qed.

Lemma secs_set_ok ss : Forall sec_ok ss ->
  (forall ss', secs_put section key v ss = Some ss' -> Forall sec_ok ss') /\
  (forall ss', secs_insert section key v ss = Some ss' -> Forall sec_ok ss').
Proof.
  induction 1 as [|s ss [Hn Hl] Hss [IH1 IH2]]; [done|]. destruct (lines_set_ok (slines s) Hl) as [L1 L2]. split; intros ss'.
  - cbn [secs_put]. destruct (if smatch section s then _ else _) as [ls|] eqn:E.
    + intros [= <-]. constructor; [|done]. split; [done|]. destruct (smatch section s); [|done]. by apply L1.
    + destruct (secs_put section key v ss) as [r|]; [|done]. intros [= <-]. constructor; [by split|by apply IH1].
  - cbn [secs_insert]. destruct (secs_insert section key v ss) as [r|].
    + intros [= <-]. constructor; [by split|by apply IH2].
    + destruct (smatch section s); [|done]. intros [= <-]. constructor; [by split|done].
Qed.

Lemma add_blank_ok ss : Forall sec_ok ss -> Forall sec_ok (add_blank ss).
Proof.
  induction 1 as [|s ss [Hn Hl] Hss IH]; [done|]. destruct ss as [|s1 ss].
  - repeat constructor; [done|]. apply Forall_app_2; [done|]. by repeat constructor.
  - change (add_blank (s :: s1 :: ss)) with (s :: add_blank (s1 :: ss)). constructor; [by split|done].
Qed.

Lemma doc_set_ok d : doc_ok d -> doc_ok (doc_set d section key v).
Proof.
  intros [Hp Hs]. destruct (secs_set_ok (sections d) Hs) as [S1 S2]. unfold doc_set.
  destruct (secs_put section key v (sections d)) as [ss|]; [split; [done|by apply S1]|].
  destruct (secs_insert section key v (sections d)) as [ss|]; [split; [done|by apply S2]|].
  assert (sec_ok (mk_section section [key ++ [61] ++ v])) as Hnew.
  { split; [done|]. constructor; [|done]. apply new_line_ok. }
  unfold doc_append. destruct (sections d) as [|s0 ss]; [destruct (preamble d) as [|l p] eqn:E|].
  - split; [constructor|by constructor].
  - split; [|by constructor]. apply Forall_app_2; [done|]. by repeat constructor.
  - split; [done|]. apply Forall_app_2; [by apply add_blank_ok|by constructor].
Qed.
End set_ok.

(** ** Zero-padded buffers *)

#[local] Opaque MAX_FILE_SIZE.

Definition zpad (x : list Z) : list Z := x ++ replicate (Z.to_nat MAX_FILE_SIZE - length x) 0.

Lemma blank_zpad : blank = zpad [].
Proof. unfold blank, zpad. by rewrite Nat.sub_0_r. Qed.

Lemma length_zpad x : (length x <= Z.to_nat MAX_FILE_SIZE)%nat -> length (zpad x) = Z.to_nat MAX_FILE_SIZE.
Proof. intros. unfold zpad. rewrite length_app, length_replicate. lia. Qed.

Lemma zpad_splice x y : (length x + length y <= Z.to_nat MAX_FILE_SIZE)%nat ->
  splice (zpad x) (length x) y = zpad (x ++ y).
Proof.
  intros H. unfold zpad, splice. rewrite take_app_length, <- app_assoc, drop_app_ge by lia. do 2 f_equal.
  rewrite drop_replicate, length_app. f_equal. lia.
Qed.

Lemma zpad_snoc0 x : (length x < Z.to_nat MAX_FILE_SIZE)%nat -> zpad (x ++ [0]) = zpad x.
Proof.
  intros H. unfold zpad. rewrite length_app, <- app_assoc. f_equal. cbn [app length].
  replace (Z.to_nat MAX_FILE_SIZE - length x)%nat with (S (Z.to_nat MAX_FILE_SIZE - (length x + 1))) by lia. done.
Qed.

Lemma zpad_end x : (length x < Z.to_nat MAX_FILE_SIZE)%nat -> exists z, zpad x = x ++ 0 :: z.
Proof.
  intros H. exists (replicate (Z.to_nat MAX_FILE_SIZE - length x - 1) 0). unfold zpad. f_equal.
  change (0 :: replicate ?n 0) with (replicate (S n) 0). f_equal. lia.
Qed.

Lemma zpad_write x y : (length x + length y <= Z.to_nat MAX_FILE_SIZE)%nat ->
  buf_write (zpad x) (Z.of_nat (length x)) y = Ret (zpad (x ++ y)).
Proof.
  intros H. rewrite buf_write_ok by (rewrite ?length_zpad; lia). by rewrite Nat2Z.id, zpad_splice.
Qed.

Lemma zpad_sprintf x y : (length x + length y < Z.to_nat MAX_FILE_SIZE)%nat ->
  sprintf_text (zpad x) (Z.of_nat (length x)) y = Ret (zpad (x ++ y)).
Proof.
  intros H. unfold sprintf_text. rewrite zpad_write by (rewrite length_app; simpl; lia).
  by rewrite app_assoc, zpad_snoc0 by (rewrite length_app; lia).
Qed.

Lemma zpad_memcpy x (s : list Z) off n :
  0 <= off -> 0 <= n -> off + n <= Z.of_nat (length s) -> (length x + Z.to_nat n <= Z.to_nat MAX_FILE_SIZE)%nat ->
  memcpy (zpad x) (Z.of_nat (length x)) s off n = Ret (zpad (x ++ slice (Z.to_nat off) (Z.to_nat n) s)).
Proof.
  intros H1 H2 H3 H4. rewrite memcpy_ok by (rewrite ?length_zpad; lia).
  rewrite Nat2Z.id, zpad_splice; [done|]. rewrite length_slice; lia.
Qed.

(** ** Loading *)

Lemma load_chars_ok bytes : Forall (fun c => c <> 255) bytes -> forall pre,
  (length pre + length bytes < Z.to_nat MAX_FILE_SIZE)%nat ->
  load_chars bytes (zpad pre) (Z.of_nat (length pre)) =
    Ret (zpad ((pre ++ bytes) ++ [255]), Z.of_nat (length (pre ++ bytes))).
Proof.
  induction 1 as [|c bytes Hc Hb IH]; intros pre Hl; cbn [load_chars]; cbn [length] in Hl;
    rewrite zpad_write by (cbn [length]; lia); rewrite bind_ret_l.
  - by rewrite app_nil_r.
  - replace (c =? 255) with false by lia.
    replace (Z.of_nat (length pre) + 1) with (Z.of_nat (length (pre ++ [c]))) by (rewrite length_app; simpl; lia).
    replace (Z.of_nat (length (pre ++ [c])) <? MAX_FILE_SIZE) with true
      by (symmetry; apply Z.ltb_lt; rewrite length_app; cbn [length]; lia).
    cbn [cassert]. rewrite bind_ret_l, IH by (rewrite length_app; cbn [length]; lia).
    replace (pre ++ c :: bytes) with ((pre ++ [c]) ++ bytes) by by rewrite <- app_assoc. done.
Qed.

Lemma clear_last text N : (length text < N)%nat ->
  splice ((text ++ [255]) ++ replicate (N - length (text ++ [255])) 0) (length text) [0] =
  text ++ replicate (N - length text) 0.
Proof.
  intros H. unfold splice. rewrite <- !app_assoc, take_app_length. f_equal.
  rewrite drop_app_ge by (cbn [length]; lia). cbn [length app].
  replace (length text + 1 - length text)%nat with 1%nat by lia. cbn [drop]. rewrite length_app. cbn [length].
  replace (N - length text)%nat with (S (N - (length text + 1))) by lia. done.
Qed.

(** The part of a text that is loaded: up to a byte 255, which the code takes
    for the end of the file. *)
Fixpoint upto_eof (text : list Z) : list Z :=
  match text with
  | [] => []
  | c :: r => if c =? 255 then [] else c :: upto_eof r
  end.

Lemma upto_eof_chars text : Forall (fun c => c <> 255) (upto_eof text).
Proof.
  induction text as [|c text IH]; cbn [upto_eof]; [constructor|].
  destruct (Z.eqb_spec c 255); by constructor.
Qed.

Lemma upto_eof_all text : Forall (fun c => c <> 255) text -> upto_eof text = text.
Proof.
  induction 1 as [|c text Hc Ht IH]; [done|]. cbn [upto_eof]. by replace (c =? 255) with false by lia; rewrite IH.
Qed.

Lemma upto_eof_prefix text : exists rest, text = upto_eof text ++ rest.
Proof.
  induction text as [|c text [rest IH]]; [by exists []|]. cbn [upto_eof]. destruct (Z.eqb_spec c 255).
  - by exists (c :: text).
  - exists rest. cbn [app]. by rewrite <- IH.
Qed.

Lemma load_chars_upto text : forall buf i, load_chars text buf i = load_chars (upto_eof text) buf i.
Proof.
  induction text as [|c text IH]; intros buf i; [done|]. cbn [load_chars upto_eof].
  destruct (Z.eqb_spec c 255) as [->|]; cbn [load_chars]; [done|].
  replace (c =? 255) with false by lia. destruct (buf_write buf i [c]); cbn [mbind cpp_bind]; try done.
  destruct (cassert _); cbn [mbind cpp_bind]; [apply IH|done..].
Qed.

Lemma load_upto (fs : files) file text : fs !! file = Some text ->
  Z.of_nat (length (upto_eof text)) < MAX_FILE_SIZE ->
  load_ini_file fs file blank = Ret (1, zpad (upto_eof text), Z.of_nat (length (upto_eof text))).
Proof.
  intros Hf Hl. unfold load_ini_file. rewrite Hf, blank_zpad, load_chars_upto. pose proof (upto_eof_chars text) as Ht.
  revert Hl Ht. generalize (upto_eof text) as text'. clear Hf text. intros text Hl Ht.
  pose proof (load_chars_ok text Ht [] ltac:(cbn [length]; lia)) as E. cbn [length app] in E.
  change (Z.of_nat 0) with 0 in E. rewrite E, bind_ret_l. cbv beta iota.
  rewrite buf_write_ok by (rewrite ?length_zpad; rewrite ?length_app; cbn [length]; lia).
  rewrite bind_ret_l, Nat2Z.id. unfold zpad. rewrite clear_last by lia. reflexivity.
Qed.

Lemma load_ok (fs : files) file text : fs !! file = Some text -> Forall (fun c => c <> 255) text ->
  Z.of_nat (length text) < MAX_FILE_SIZE ->
  load_ini_file fs file blank = Ret (1, zpad text, Z.of_nat (length text)).
Proof.
  intros Hf Ht Hl. pose proof (load_upto fs file text Hf) as E. rewrite (upto_eof_all text Ht) in E. by apply E.
Qed.

(** ** Reading *)

(** The text of a document has neither a terminator nor the byte of [EOF]. *)
Definition file_char (c : Z) : Prop := c <> 0 /\ c <> 255.

Lemma text_file l : Forall text_char l -> Forall file_char l.
Proof. intros H. eapply Forall_impl; [exact H|]. unfold text_char, file_char. simpl. lia. Qed.

Lemma lines_file ls : Forall line_ok ls -> Forall file_char (print_lines ls).
Proof.
  induction 1 as [|l ls [Hl _] Hls IH]; [constructor|]. rewrite print_lines_cons. apply Forall_app_2; [by apply text_file|].
  constructor; [unfold file_char; lia|done].
Qed.

Lemma doc_file d : doc_ok d -> Forall file_char (print_doc d).
Proof.
  intros [Hp Hs]. unfold print_doc. apply Forall_app_2; [by apply lines_file|]. induction Hs as [|s ss [Hn Hl] Hss IH]; [constructor|].
  cbn [fmap list_fmap mjoin list_join]. apply Forall_app_2; [|done]. unfold print_section.
  assert (forall c, 0 < c < 255 -> file_char c) as Hc by (unfold file_char; lia).
  apply Forall_cons_2; [apply Hc; lia|]. apply Forall_app_2.
  - eapply Forall_impl; [exact Hn|]. unfold text_char, file_char. simpl. lia.
  - apply Forall_cons_2; [apply Hc; lia|]. apply Forall_cons_2; [apply Hc; lia|]. by apply lines_file.
Qed.

Lemma load_doc (fs : files) file d : fs !! file = Some (print_doc d) -> doc_ok d ->
  Z.of_nat (length (print_doc d)) < MAX_FILE_SIZE ->
  load_ini_file fs file blank = Ret (1, zpad (print_doc d), Z.of_nat (length (print_doc d))).
Proof.
  intros Hf Hd Hl. apply load_ok; [done| |done]. eapply Forall_impl; [by apply doc_file|]. unfold file_char. simpl. lia.
Qed.

Lemma parse_zpad section key d : doc_ok d -> section <> [] -> key <> [] ->
  Z.of_nat (length (print_doc d)) < MAX_FILE_SIZE -> exists r,
  parse_file section key (zpad (print_doc d)) = Ret r /\
  secs_found section key (length (print_lines (preamble d))) (sections d) no_pos r.
Proof. intros Hd Hs Hk Hl. destruct (zpad_end (print_doc d) ltac:(lia)) as [z ->]. by apply parse_doc_ok. Qed.

(** What a value leaves in the caller's buffer: cut to [size - 1] bytes and padded with zeros. *)
Definition cut_value (size : Z) (v : list Z) : list Z :=
  take (Z.to_nat (size - 1)) v ++ replicate (Z.to_nat size - length (take (Z.to_nat (size - 1)) v)) 0.

Lemma cut_value_store (value v : list Z) size : 0 < size <= Z.of_nat (length value) ->
  let c := take (Z.to_nat (size - 1)) v in
  splice (splice (splice value 0 (replicate (Z.to_nat size) 0)) 0 c) (length c) [0] = splice value 0 (cut_value size v).
Proof.
  intros Hs c. assert (length c <= Z.to_nat size - 1)%nat as Hc by (unfold c; rewrite length_take; lia).
  rewrite (splice_append _ 0 (length c) c [0]) by splen.
  unfold cut_value. fold c. replace (Z.to_nat size - length c)%nat with (S (Z.to_nat size - 1 - length c)) by lia.
  change (replicate (S ?n) 0) with ([0] ++ replicate n 0). rewrite app_assoc. set (x := c ++ [0]).
  assert (length x = length c + 1)%nat as Hx by (unfold x; by rewrite length_app).
  replace (replicate (Z.to_nat size) 0) with (replicate (length x) 0 ++ replicate (Z.to_nat size - 1 - length c) 0)
    by (rewrite <- replicate_add; f_equal; lia).
  rewrite <- (splice_append value 0 (length x) (replicate (length x) 0)) by splen.
  rewrite <- (splice_append value 0 (length x) x) by splen.
  rewrite (splice_comm (splice value 0 (replicate (length x) 0)) 0 x) by splen.
  by rewrite splice_over by splen.
Qed.

Lemma slice_zpad t off n : (off + n <= length t)%nat -> slice off n (zpad t) = slice off n t.
Proof. intros. unfold zpad. by rewrite slice_app_l. Qed.

(** The value is copied from the buffer. *)
Lemma value_copy t off len value size : (off + len <= length t)%nat -> Z.of_nat (length t) < MAX_FILE_SIZE ->
  0 < size <= Z.of_nat (length value) ->
  (let cpcount := Z.of_nat (off + len) - Z.of_nat off in
   let cpcount := if size - 1 <? cpcount then size - 1 else cpcount in
   value ← memset value 0 0 size;
   value ← memcpy value 0 (zpad t) (Z.of_nat off) cpcount;
   value ← buf_write value cpcount [0];
   Ret (1, value)) = Ret (1, splice value 0 (cut_value size (slice off len t))).
Proof.
  intros Hl Ht Hsize. cbv zeta. set (v := slice off len t). set (c := take (Z.to_nat (size - 1)) v).
  assert (length v = len) as Hv by (unfold v; by apply length_slice).
  assert ((if size - 1 <? Z.of_nat (off + len) - Z.of_nat off then size - 1
           else Z.of_nat (off + len) - Z.of_nat off) = Z.of_nat (length c)) as ->
    by (unfold c; rewrite length_take; destruct (Z.ltb_spec (size - 1) (Z.of_nat (off + len) - Z.of_nat off)); lia).
  assert (length c <= Z.to_nat size - 1 /\ length c <= len)%nat as [Hc Hcv] by (unfold c; rewrite length_take; lia).
  unfold memset. rewrite decide_True, buf_write_ok by (rewrite ?length_replicate; lia). rewrite bind_ret_l.
  change (Z.to_nat 0) with 0%nat. rewrite memcpy_ok by (rewrite ?length_zpad; splen || lia). rewrite bind_ret_l, !Nat2Z.id.
  change (Z.to_nat 0) with 0%nat.
  assert (slice off (length c) (zpad t) = c) as ->.
  { rewrite slice_zpad by lia. unfold c at 2. unfold v, slice. rewrite take_take. f_equal. unfold c. rewrite length_take. lia. }
  rewrite buf_write_ok by (rewrite ?length_splice; rewrite ?length_replicate; cbn [length]; splen || lia).
  rewrite bind_ret_l, Nat2Z.id. unfold c. by rewrite cut_value_store.
Qed.

Lemma read_ok fs section key value size default file d :
  fs !! file = Some (print_doc d) -> doc_ok d -> Z.of_nat (length (print_doc d)) < MAX_FILE_SIZE ->
  section <> [] -> key <> [] -> 0 < size <= Z.of_nat (length value) ->
  read_profile_string fs section key value size default file =
  match doc_get d section key with
  | Some v => Ret (1, splice value 0 (cut_value size v))
  | None => value ← put_default value size default; Ret (0, value)
  end.
Proof.
  intros Hf Hd Hl Hs Hk Hsize. unfold read_profile_string.
  replace (nonempty section) with true by by destruct section. replace (nonempty key) with true by by destruct key.
  replace (0 <? size) with true by lia. cbn [cassert]. rewrite !bind_ret_l, (load_doc fs file d) by done.
  rewrite bind_ret_l. cbv beta iota. cbn [Z.eqb].
  destruct (parse_zpad section key d Hd Hs Hk Hl) as (r & Er & Hr). rewrite Er, bind_ret_l. unfold doc_get.
  destruct Hr as [A v B s e ks ke Hs0 Hks Hpr Hg Hp|A B s Hs0 Hpr Hg Hp|Hg Hp]; rewrite Hg; [|done|done].
  cbv beta iota. cbn [Z.eqb value_s value_e].
  assert (print_doc d = (print_lines (preamble d) ++ A) ++ v ++ 10 :: B) as Epr
    by (unfold print_doc; fold (print_secs (sections d)); by rewrite Hpr, app_assoc).
  pose proof (value_copy (print_doc d) (length (print_lines (preamble d) ++ A)) (length v) value size) as E.
  rewrite length_app in E. etransitivity; [apply E; [rewrite Epr, !length_app; lia|done|done]|].
  do 4 f_equal. rewrite Epr, <- length_app. apply slice_middle.
Qed.

(** ** Writing *)

Definition empty_doc : ini_doc := mk_doc [] [].
(** The file holds the document; a missing file is the empty one. *)
Definition holds_doc (fs : files) (file : list Z) (d : ini_doc) : Prop :=
  fs !! file = Some (print_doc d) \/ (fs !! file = None /\ d = empty_doc).

(** Reading a missing file as well. *)
Lemma read_doc fs section key value size default file d :
  holds_doc fs file d -> doc_ok d -> Z.of_nat (length (print_doc d)) < MAX_FILE_SIZE ->
  section <> [] -> key <> [] -> 0 < size <= Z.of_nat (length value) ->
  read_profile_string fs section key value size default file =
  match doc_get d section key with
  | Some v => Ret (1, splice value 0 (cut_value size v))
  | None => value ← put_default value size default; Ret (0, value)
  end.
Proof.
  intros [Hf|[Hf ->]] Hd Hl Hs Hk Hsize; [by apply read_ok|]. unfold read_profile_string, load_ini_file.
  replace (nonempty section) with true by by destruct section. replace (nonempty key) with true by by destruct key.
  replace (0 <? size) with true by lia. cbn [cassert]. by rewrite !bind_ret_l, Hf, bind_ret_l.
Qed.

Lemma save_ok (fs : files) file t : Forall file_char t -> Z.of_nat (length t) < MAX_FILE_SIZE ->
  save_text DiskOk fs file (zpad t) = Ret (1, <[file := t]> fs).
Proof.
  intros Ht Hl. unfold save_text. destruct (zpad_end t ltac:(lia)) as [z ->].
  rewrite strlen_ok by (eapply Forall_impl; [exact Ht|]; unfold file_char; simpl; lia).
  by rewrite bind_ret_l, Nat2Z.id, take_app_length.
Qed.

Lemma print_add_blank ss : ss <> [] -> print_secs (add_blank ss) = print_secs ss ++ [10].
Proof.
  induction ss as [|s ss IH]; [done|]. intros _. destruct ss as [|s1 ss].
  - unfold print_secs, print_section. cbn [add_blank fmap list_fmap mjoin list_join sname slines].
    rewrite print_lines_app, !app_nil_r. norm_app. done.
  - change (add_blank (s :: s1 :: ss)) with (s :: add_blank (s1 :: ss)). rewrite !(print_secs_cons s), IH by done.
    by rewrite app_assoc.
Qed.

Lemma print_section_line section key v :
  print_section (mk_section section [key ++ [61] ++ v]) = [91] ++ section ++ [93; 10] ++ key ++ [61] ++ v ++ [10].
Proof. unfold print_section. cbn [sname slines]. rewrite print_lines_cons. norm_app. done. Qed.

Lemma print_append d s : print_doc (doc_append d s) =
  (if bool_decide (print_doc d = []) then [] else print_doc d ++ [10]) ++ print_section s.
Proof.
  unfold print_doc, doc_append. fold (print_secs (sections d)). destruct (sections d) as [|s0 ss] eqn:E.
  - change (print_secs []) with (@nil Z). rewrite app_nil_r.
    destruct (preamble d) as [|l p] eqn:Ep; cbn [sections preamble]; cbn [fmap list_fmap mjoin list_join];
      rewrite (app_nil_r (print_section s)); [done|].
    rewrite bool_decide_eq_false_2 by (rewrite print_lines_cons; by destruct l). by rewrite print_lines_app.
  - cbn [sections preamble]. rewrite bool_decide_eq_false_2.
    2:{ rewrite print_secs_cons. unfold print_section. intros H. apply app_nil in H as [_ H]. done. }
    rewrite fmap_app, join_app. fold (print_secs (add_blank (s0 :: ss))). rewrite print_add_blank by done.
    cbn [fmap list_fmap mjoin list_join]. by rewrite app_nil_r, <- !app_assoc.
Qed.

(** The three texts that [write_profile_string] puts together. *)
Definition new_text (section key v : list Z) : list Z :=
  codes "[" ++ section ++ codes "]" ++ [10] ++ key ++ codes "=" ++ v ++ [10].

(** The first bytes of the old text. *)
Lemma copy_prefix A B : (length (A ++ B) < Z.to_nat MAX_FILE_SIZE)%nat ->
  memcpy blank 0 (zpad (A ++ B)) 0 (Z.of_nat (length A)) = Ret (zpad A).
Proof.
  intros H. pose proof H as H'. rewrite length_app in H'. rewrite blank_zpad.
  pose proof (zpad_memcpy [] (zpad (A ++ B)) 0 (Z.of_nat (length A))) as E. change (Z.of_nat (length [])) with 0 in E.
  rewrite E by (rewrite ?length_zpad; cbn [length]; lia).
  rewrite Nat2Z.id, slice_zpad by (rewrite length_app; simpl; lia). cbn [app]. change (Z.to_nat 0) with 0%nat.
  rewrite slice_app_l, slice_all by lia. done.
Qed.

Lemma new_text_append d section key v :
  print_doc (doc_append d (mk_section section [key ++ [61] ++ v])) =
  (if bool_decide (print_doc d = []) then [] else print_doc d ++ [10]) ++ new_text section key v.
Proof.
  rewrite print_append, print_section_line. unfold new_text. norm_app. done.
Qed.

Lemma write_new d section key v t : (length (print_doc d) < Z.to_nat MAX_FILE_SIZE)%nat ->
  t = print_doc (doc_append d (mk_section section [key ++ [61] ++ v])) -> (length t < Z.to_nat MAX_FILE_SIZE)%nat ->
  (if Z.of_nat (length (print_doc d)) =? 0 then sprintf_text blank (Z.of_nat (length (print_doc d))) (new_text section key v)
   else w ← memcpy blank 0 (zpad (print_doc d)) 0 (Z.of_nat (length (print_doc d)));
        sprintf_text w (Z.of_nat (length (print_doc d))) ([10] ++ new_text section key v)) = Ret (zpad t).
Proof.
  intros Hl -> Ht. rewrite new_text_append in *. set (p := print_doc d) in *. clearbody p. case_bool_decide as Ep.
  - subst p. cbn [length] in *. rewrite blank_zpad. by apply (zpad_sprintf []).
  - replace (Z.of_nat (length p) =? 0) with false
      by (symmetry; apply Z.eqb_neq; destruct p; [done|cbn [length]; lia]).
    pose proof (copy_prefix p []) as E. rewrite app_nil_r in E. rewrite E by done. rewrite bind_ret_l.
    rewrite <- app_assoc in *. apply zpad_sprintf. by rewrite <- length_app.
Qed.

Lemma write_room A B key v t : (length (A ++ B) < Z.to_nat MAX_FILE_SIZE)%nat ->
  Forall file_char (A ++ B) -> Forall (fun c => c <> 37) (A ++ B) ->
  t = A ++ key ++ 61 :: v ++ 10 :: B -> (length t < Z.to_nat MAX_FILE_SIZE)%nat ->
  (w ← memcpy blank 0 (zpad (A ++ B)) 0 (Z.of_nat (length A));
   w ← sprintf_text w (Z.of_nat (length A)) (key ++ codes "=" ++ v ++ [10]);
   n ← strlen (drop (Z.to_nat (Z.of_nat (length A))) (zpad (A ++ B)));
   rest ← format_text (slice (Z.to_nat (Z.of_nat (length A))) (Z.to_nat n) (zpad (A ++ B)));
   sprintf_text w (Z.of_nat (length A) + Z.of_nat (length key) + Z.of_nat (length v) + 2) rest) = Ret (zpad t).
Proof.
  intros Hl Hc H37 -> Ht. rewrite copy_prefix by done. rewrite bind_ret_l.
  set (e := key ++ codes "=" ++ v ++ [10]).
  assert (A ++ key ++ 61 :: v ++ 10 :: B = (A ++ e) ++ B) as Et by (unfold e; norm_app; done).
  assert (length e = length key + length v + 2)%nat as He by (unfold e; rewrite !length_app; simpl; lia).
  rewrite Et in *. pose proof Ht as Ht'. rewrite !length_app in Ht'.
  rewrite zpad_sprintf by lia. rewrite bind_ret_l, Nat2Z.id. destruct (zpad_end (A ++ B) Hl) as [z Ez].
  rewrite Ez. rewrite <- (app_assoc A B), drop_app_length. apply Forall_app in Hc as [_ Hc].
  rewrite strlen_ok by (eapply Forall_impl; [exact Hc|]; unfold file_char; simpl; lia). rewrite bind_ret_l, Nat2Z.id.
  unfold slice. rewrite drop_app_length, take_app_length. apply Forall_app in H37 as [_ H37].
  rewrite format_text_ok by done. rewrite bind_ret_l.
  replace (Z.of_nat (length A) + Z.of_nat (length key) + Z.of_nat (length v) + 2) with (Z.of_nat (length (A ++ e)))
    by (rewrite length_app; lia).
  apply zpad_sprintf. rewrite length_app. lia.
Qed.

Lemma write_hit A v0 B v t : (length (A ++ v0 ++ B) < Z.to_nat MAX_FILE_SIZE)%nat ->
  t = A ++ v ++ B -> (length t < Z.to_nat MAX_FILE_SIZE)%nat ->
  (w ← memcpy blank 0 (zpad (A ++ v0 ++ B)) 0 (Z.of_nat (length A));
   w ← memcpy w (Z.of_nat (length A)) v 0 (Z.of_nat (length v));
   memcpy w (Z.of_nat (length A) + Z.of_nat (length v)) (zpad (A ++ v0 ++ B)) (Z.of_nat (length A + length v0))
     (Z.of_nat (length (A ++ v0 ++ B)) - Z.of_nat (length A + length v0))) = Ret (zpad t).
Proof.
  intros Hl -> Ht. pose proof Hl as Hl'. pose proof Ht as Ht'. rewrite !length_app in Hl', Ht'.
  rewrite copy_prefix by done. rewrite bind_ret_l.
  rewrite zpad_memcpy by lia. rewrite bind_ret_l, Nat2Z.id. change (Z.to_nat 0) with 0%nat. rewrite slice_all.
  replace (Z.of_nat (length (A ++ v0 ++ B)) - Z.of_nat (length A + length v0)) with (Z.of_nat (length B))
    by (rewrite !length_app; lia).
  replace (Z.of_nat (length A) + Z.of_nat (length v)) with (Z.of_nat (length (A ++ v))) by (rewrite length_app; lia).
  rewrite zpad_memcpy by (rewrite ?length_zpad; rewrite ?length_app; lia). rewrite !Nat2Z.id.
  rewrite slice_zpad by (rewrite !length_app; lia). rewrite (app_assoc A v0 B). unfold slice.
  rewrite <- length_app, drop_app_length, take_ge by lia. by rewrite <- app_assoc.
Qed.

Lemma write_ok fs section key v file d :
  holds_doc fs file d -> doc_ok d -> section <> [] -> name_ok section -> key_ok key -> Forall text_char v ->
  (doc_get d section key = None -> Forall (fun c => c <> 37) (print_doc d)) ->
  Z.of_nat (length (print_doc d)) < MAX_FILE_SIZE ->
  let d' := doc_set d section key v in
  Z.of_nat (length (print_doc d')) < MAX_FILE_SIZE ->
  write_profile_string DiskOk fs section key v file = Ret (1, <[file := print_doc d']> fs).
Proof.
  intros Hf Hd Hs Hns Hk Hv H37 Hl d' Hl'. unfold write_profile_string. pose proof Hk as (_ & Hkne & _).
  replace (nonempty section) with true by by destruct section. replace (nonempty key) with true by by destruct key.
  cbn [cassert]. rewrite !bind_ret_l.
  assert (doc_ok d') as Hd' by by apply doc_set_ok.
  pose proof (save_ok fs file (print_doc d') (doc_file d' Hd') Hl') as Hsave.
  destruct Hf as [Hf|[Hf ->]].
  2:{ unfold load_ini_file. rewrite Hf, !bind_ret_l. cbv beta iota. cbn [Z.eqb no_pos sec_s]. rewrite bind_ret_l.
      cbn [Z.eqb no_pos sec_s Pos.eqb]. pose proof (write_new empty_doc section key v (print_doc d')) as E.
      cbn [print_doc empty_doc length] in E. change (Z.of_nat (length (print_doc empty_doc))) with 0 in E.
      rewrite <- Hsave. unfold new_text in E. cbn [Z.eqb] in E. rewrite E; [done|simpl; lia|done|lia]. }
  rewrite (load_doc fs file d) by done. rewrite bind_ret_l. cbv beta iota. cbn [Z.eqb].
  destruct (parse_zpad section key d Hd Hs Hkne Hl) as (r & Er & Hr). rewrite Er, !bind_ret_l.
  set (P := print_lines (preamble d)) in *.
  assert (forall ss, print_doc (mk_doc (preamble d) ss) = P ++ print_secs ss) as Hpd by done.
  assert (print_doc d = P ++ print_secs (sections d)) as Epd by done.
  pose proof (doc_file d Hd) as Hfile.
  destruct Hr as [A v0 B s e ks ke Hs0 Hks Hpr Hg Hp|A B s Hs0 Hpr Hg Hp|Hg Hp];
    rewrite bind_ret_l; cbn [sec_s sec_e key_s value_s value_e no_pos Z.eqb Pos.eqb].
  - replace (s =? -1) with false by lia. replace (ks =? -1) with false by lia.
    destruct (Hp v) as (ss' & Es & Ep).
    assert (print_doc d' = (P ++ A) ++ v ++ 10 :: B) as Ed' by (unfold d', doc_set; by rewrite Es, Hpd, Ep, app_assoc).
    rewrite Epd, Hpr, app_assoc in Hl |- *. rewrite <- length_app.
    rewrite (write_hit (P ++ A) v0 (10 :: B) v (print_doc d')) by (done || lia). exact Hsave.
  - replace (s =? -1) with false by lia. destruct (Hp v) as [En (ss' & Es & Ep)].
    assert (print_doc d' = (P ++ A) ++ key ++ 61 :: v ++ 10 :: B) as Ed'
      by (unfold d', doc_set; by rewrite En, Es, Hpd, Ep, app_assoc).
    specialize (H37 Hg). rewrite Epd, Hpr, app_assoc in Hl, H37, Hfile |- *. rewrite <- length_app.
    rewrite (write_room (P ++ A) B key v (print_doc d')) by (done || lia). exact Hsave.
  - destruct (Hp v) as [En Ei].
    pose proof (write_new d section key v (print_doc d')) as E. unfold new_text in E.
    rewrite E; [exact Hsave|lia| |lia]. unfold d', doc_set. by rewrite En, Ei.
Qed.

(** What setting an entry does to the text. *)
Lemma doc_set_text d section key v (P : Z -> Prop) : doc_ok d -> section <> [] -> key <> [] ->
  Forall P section -> Forall P key -> Forall P v -> Forall P [91; 93; 61; 10] -> Forall P (print_doc d) ->
  Forall P (print_doc (doc_set d section key v)) /\
  (length (print_doc (doc_set d section key v)) <= length (print_doc d) + (length section + length key + length v + 6))%nat.
Proof.
  intros Hd Hs Hk Ps Pk Pv P4 Pd. assert (P 91 /\ P 93 /\ P 61 /\ P 10) as (P1 & P2 & P3 & P5)
    by (by rewrite !Forall_cons in P4; intuition).
  destruct (parse_doc_ok section key d [] Hd Hs Hk) as (r & _ & Hr).
  assert (print_doc d = print_lines (preamble d) ++ print_secs (sections d)) as Epd by done.
  assert (forall ss, print_doc (mk_doc (preamble d) ss) = print_lines (preamble d) ++ print_secs ss) as Hpd by done.
  unfold doc_set.
  destruct Hr as [A v0 B s e ks ke Hs0 Hks Hpr Hg Hp|A B s Hs0 Hpr Hg Hp|Hg Hp].
  - destruct (Hp v) as (ss' & -> & Ep). rewrite Epd, Hpr in *. rewrite Hpd, Ep.
    rewrite !Forall_app in *. destruct Pd as (? & ? & ? & ?). split; [by split_and!|].
    rewrite !length_app. lia.
  - destruct (Hp v) as [-> (ss' & -> & Ep)]. rewrite Epd, Hpr in *. rewrite Hpd, Ep.
    rewrite !Forall_app in *. destruct Pd as (? & ? & ?). split.
    + split_and!; try done. constructor; [done|]. apply Forall_app_2; [done|by constructor].
    + repeat (rewrite length_app || cbn [length]). lia.
  - destruct (Hp v) as [-> ->]. rewrite new_text_append. unfold new_text.
    change (codes "[") with [91]. change (codes "]") with [93]. change (codes "=") with [61]. split.
    + apply Forall_app_2; [case_bool_decide; [constructor|]; apply Forall_app_2; [done|by constructor]|].
      repeat (apply Forall_app_2 || constructor); done.
    + case_bool_decide; repeat (rewrite length_app || cbn [length]); lia.
Qed.

(** ** Every text is parsed

    Whatever the file holds, as long as two bytes of the buffer remain, the
    loops end and stay inside the buffer. *)

Section total.
Variable buf : list Z.
Variable n : nat.
Hypothesis Hn : (n + 2 <= length buf)%nat.
Hypothesis Hzero : forall i, (n <= i < length buf)%nat -> buf !! i = Some 0.

Lemma get_total i : 0 <= i <= Z.of_nat n + 1 -> exists c, buf_get buf i = Ret c /\ (Z.of_nat n <= i -> c = 0).
Proof.
  intros Hi. destruct (lookup_lt_is_Some_2 buf (Z.to_nat i) ltac:(lia)) as [c Hc]. exists c.
  split; [apply buf_get_ok; [lia|done]|]. intros H. rewrite Hzero in Hc by lia. by injection Hc.
Qed.

Lemma skip_total f fuel : f 0 = false -> forall i, 0 <= i <= Z.of_nat n + 1 -> Z.of_nat n - i <= Z.of_nat fuel ->
  exists i' c, skip_while f fuel buf i = Ret i' /\ i <= i' <= Z.max i (Z.of_nat n) /\ buf_get buf i' = Ret c /\ f c = false.
Proof.
  intros Hf. induction fuel as [|fuel IH]; intros i Hi Hm; destruct (get_total i Hi) as (c & Ec & Hc);
    cbn [skip_while]; rewrite Ec, bind_ret_l; destruct (f c) eqn:E.
  - rewrite Hc, Hf in E by lia. done.
  - exists i, c. split_and!; done || lia.
  - destruct (Z.le_gt_cases (Z.of_nat n) i) as [Hle|Hgt]; [by rewrite (Hc Hle), Hf in E|].
    destruct (IH (i + 1)) as (i' & c' & Ei & Hb & Hg & Hx); [lia|lia|]. exists i', c'. split_and!; done || lia.
  - exists i, c. split_and!; done || lia.
Qed.

Lemma strncmp_total m : forall off s, 0 <= off -> off + Z.of_nat m <= Z.of_nat n + 2 ->
  exists b, strncmp_eq buf off s m = Ret b.
Proof.
  induction m as [|m IH]; intros off s H0 Hm; cbn [strncmp_eq]; [by eexists|].
  destruct (get_total off ltac:(lia)) as (c & -> & _). rewrite bind_ret_l. cbv zeta.
  destruct (negb _); [by eexists|]. destruct (c =? 0); [by eexists|]. apply IH; lia.
Qed.

Lemma find_key_total key ns i ci : 0 <= ns -> i <= Z.of_nat n -> buf_get buf i = Ret ci -> ci <> 61 ->
  forall fuel j, ns <= j -> i - j <= Z.of_nat fuel ->
  exists r, find_key fuel buf key ns i j = Ret r /\ match r with Some j' => ns < j' < i | None => True end.
Proof.
  intros Hns Hi Eci Hci. induction fuel as [|fuel IH]; intros j Hj Hf; cbn [find_key];
    destruct (Z.ltb_spec j i) as [Hlt|]; try (eexists; by split); [lia|].
  destruct (get_total j ltac:(lia)) as (c & -> & _). rewrite bind_ret_l. destruct (c =? 61); [by eexists|].
  destruct (get_total (j + 1) ltac:(lia)) as (c' & Ec' & _). rewrite Ec', bind_ret_l.
  destruct (Z.eqb_spec c' 61) as [->|]; [|apply IH; lia].
  assert (j + 1 <> i) by (intros <-; rewrite Ec' in Eci; by injection Eci).
  destruct (strncmp_total (Z.to_nat (j + 1 - ns)) ns key) as [b ->]; [lia|lia|]. rewrite bind_ret_l.
  destruct b; [|apply IH; lia]. exists (Some (j + 1)). split; [done|lia].
Qed.

Lemma scan_lines_total key fuel : forall i, 1 <= i <= Z.of_nat n + 1 -> Z.of_nat n + 1 - i <= Z.of_nat fuel ->
  exists i' r, scan_lines fuel buf key i = Ret (i', r) /\ i <= i' <= Z.of_nat n + 1 /\
    match r with Some (ns, j) => i <= ns < j /\ j < i' <= Z.of_nat n | None => True end.
Proof.
  induction fuel as [|fuel IH]; intros i Hi Hf; cbn [scan_lines];
    destruct (get_total (i - 1) ltac:(lia)) as (p & -> & _); destruct (get_total i ltac:(lia)) as (c & -> & Hc); rewrite !bind_ret_l;
    destruct ((newline p && left_barce c) || end_of_string c) eqn:E.
  - eexists _, None. split; [done|]. split; [lia|done].
  - rewrite (Hc ltac:(lia)) in E. by rewrite orb_true_r in E.
  - eexists _, None. split; [done|]. split; [lia|done].
  - assert (i < Z.of_nat n) as Hin.
    { destruct (Z.lt_ge_cases i (Z.of_nat n)) as [|Hge]; [done|]. rewrite (Hc Hge) in E. by rewrite orb_true_r in E. }
    cbv zeta. destruct (skip_total (fun c => negb (newline c) && negb (end_of_string c)) (length buf) eq_refl i)
      as (i1 & c1 & -> & Hi1 & Hg1 & Hc1); [lia|lia|]. rewrite bind_ret_l.
    assert (c1 <> 61) as Hc61 by (by intros ->).
    destruct (find_key_total key i i1 c1 ltac:(lia) ltac:(lia) Hg1 Hc61 (length buf) i ltac:(lia) ltac:(lia)) as (r & Er & Hr).
    assert (exists r', (if c =? 59 then Ret None else find_key (length buf) buf key i i1 i) = Ret r' /\
      match r' with Some j' => i < j' < i1 | None => True end) as (r' & -> & Hr')
      by (destruct (c =? 59); [by exists None|by exists r]).
    rewrite bind_ret_l. destruct r' as [j|].
    + exists i1, (Some (i, j)). split_and!; [done|lia..].
    + destruct (IH (i1 + 1)) as (i' & r0 & -> & Hb & Hr0); [lia|lia|]. eexists _, _. split; [done|].
      split; [lia|]. destruct r0 as [[? ?]|]; [lia|done].
Qed.

(** The positions of a result. *)
Definition pos_ok (r : Z * ini_pos) : Prop :=
  r.1 = 1 -> 0 <= sec_s (r.2) < sec_e (r.2) /\ sec_e (r.2) <= key_s (r.2) <= key_e (r.2) /\
    value_s (r.2) = key_e (r.2) + 2 /\ value_s (r.2) <= value_e (r.2) <= Z.of_nat n.

Lemma scan_file_total section key fuel : forall i pos, 0 <= i <= Z.of_nat n + 1 -> Z.of_nat n + 1 - i <= Z.of_nat fuel ->
  exists r, scan_file fuel buf section key i pos = Ret r /\ (r.1 = 0 \/ r.1 = 1) /\ pos_ok r.
Proof.
  induction fuel as [|fuel IH]; intros i pos Hi Hf; cbn [scan_file]; destruct (get_total i Hi) as (c & -> & Hc); rewrite bind_ret_l;
    destruct (end_of_string c) eqn:E.
  - eexists. split; [done|]. split; [by left|done].
  - by rewrite (Hc ltac:(lia)) in E.
  - eexists. split; [done|]. split; [by left|done].
  - assert (i < Z.of_nat n) as Hin by (destruct (Z.lt_ge_cases i (Z.of_nat n)) as [|Hge]; [done|]; by rewrite (Hc Hge) in E).
    assert (exists b, (if i =? 0 then Ret true else prev ← buf_get buf (i - 1); Ret (newline prev)) = Ret b) as [b ->].
    { destruct (Z.eqb_spec i 0); [by eexists|]. destruct (get_total (i - 1) ltac:(lia)) as (p & -> & _). by eexists. }
    rewrite bind_ret_l. destruct (b && left_barce c); [|apply IH; lia]. cbv zeta.
    destruct (skip_total (fun c => negb (isright_brace c) && negb (end_of_string c)) (length buf) eq_refl (i + 1))
      as (i1 & c1 & -> & Hi1 & _); [lia|lia|]. rewrite bind_ret_l.
    destruct (strncmp_total (Z.to_nat (i1 - (i + 1))) (i + 1) section) as [e ->]; [lia|lia|]. rewrite bind_ret_l.
    destruct e; [|apply IH; lia].
    destruct (skip_total isspace (length buf) eq_refl (i1 + 1)) as (i2 & c2 & -> & Hi2 & _); [lia|lia|]. rewrite bind_ret_l.
    destruct (scan_lines_total key (length buf) i2) as (i3 & r & -> & Hi3 & Hr); [lia|lia|]. rewrite bind_ret_l. cbv beta iota.
    destruct r as [[ns j]|]; [|apply IH; lia]. eexists. split; [done|]. split; [by right|].
    intros _. cbn [snd sec_s sec_e key_s key_e value_s value_e]. lia.
Qed.
End total.

(** Any text that leaves two bytes of the buffer is parsed. *)
Lemma parse_total section key text : section <> [] -> key <> [] -> Z.of_nat (length text) + 2 <= MAX_FILE_SIZE ->
  exists ok pos, parse_file section key (zpad text) = Ret (ok, pos) /\ (ok = 0 \/ ok = 1) /\ pos_ok (length text) (ok, pos).
Proof.
  intros Hs Hk Hl. unfold parse_file.
  replace (nonempty section) with true by by destruct section. replace (nonempty key) with true by by destruct key.
  cbn [cassert]. rewrite !bind_ret_l.
  assert (length (zpad text) = Z.to_nat MAX_FILE_SIZE) as Hlz by (apply length_zpad; lia).
  destruct (scan_file_total (zpad text) (length text)) with (section := section) (key := key) (fuel := length (zpad text))
    (i := 0) (pos := no_pos) as ([ok pos] & Er & Hok & Hpos).
  { rewrite Hlz. lia. }
  { intros i Hi. unfold zpad in *. rewrite lookup_app_r by lia. apply lookup_replicate_2.
    rewrite length_app, length_replicate in Hi. lia. }
  { lia. }
  { rewrite Hlz. lia. }
  by exists ok, pos.
Qed.

Lemma put_default_ok value size default : 0 <= size <= Z.of_nat (length value) ->
  put_default value size default =
    Ret (match default with
         | Some d => splice value 0 (take (Z.to_nat size) (d ++ replicate (Z.to_nat size) 0))
         | None => value
         end).
Proof.
  intros H. destruct default as [d|]; [|done]. unfold put_default, strncpy.
  rewrite buf_write_ok by (rewrite ?length_take; lia). done.
Qed.

(** ** Properties *)

Definition sample_doc : ini_doc :=
  mk_doc [codes "; settings"] [mk_section (codes "SEC") [[]; codes "k=1"; codes "port=80"]; mk_section (codes "T") []].
Definition sample_path : list Z := codes "a.ini".
Definition sample_fs : files := {[ sample_path := print_doc sample_doc ]}.

#[export] Instance text_char_dec c : Decision (text_char c).
Proof. unfold text_char. apply _. Defined.
#[export] Instance head_ok_dec l : Decision (head_ok l).
Proof. destruct l; cbn [head_ok]; apply _. Defined.
#[export] Instance line_ok_dec l : Decision (line_ok l).
Proof. unfold line_ok. apply _. Defined.
#[export] Instance key_ok_dec k : Decision (key_ok k).
Proof. unfold key_ok. apply _. Defined.

Lemma sample_doc_ok : doc_ok sample_doc.
Proof. split; eval_decide. Qed.

(** What was written is read back: after [write_profile_string] of a
    value the same key reads as this value, and every key that shares no
    first character with it reads as before, in any section. *)
Theorem ini_write_then_read fs fs' section key v value size default file d key' section' :
  holds_doc fs file d -> doc_ok d -> section <> [] -> name_ok section -> key_ok key -> Forall text_char v ->
  (doc_get d section key = None -> Forall (fun c => c <> 37) (print_doc d)) ->
  Z.of_nat (length (print_doc d)) < MAX_FILE_SIZE ->
  Z.of_nat (length (print_doc (doc_set d section key v))) < MAX_FILE_SIZE ->
  0 < size <= Z.of_nat (length value) -> section' <> [] -> key' <> [] -> head key <> head key' ->
  write_profile_string DiskOk fs section key v file = Ret (1, fs') ->
  read_profile_string fs' section key value size default file = Ret (1, splice value 0 (cut_value size v)) /\
  (fs !! file <> None ->
   read_profile_string fs' section' key' value size default file =
   read_profile_string fs section' key' value size default file).
Proof.
  intros Hf Hd Hs Hns Hk Hv H37 Hl Hl' Hsize Hs' Hk' Hap Hw. pose proof Hk as (_ & Hkne & _).
  rewrite (write_ok fs section key v file d) in Hw by done. injection Hw as <-.
  assert (doc_ok (doc_set d section key v)) as Hd' by by apply doc_set_ok.
  split.
  - rewrite (read_ok _ section key value size default file (doc_set d section key v)); try done; [|apply lookup_insert_eq].
    by rewrite doc_get_set.
  - intros Hsome. destruct Hf as [Hf|[Hf _]]; [|done].
    rewrite (read_ok _ section' key' value size default file (doc_set d section key v)); try done; [|apply lookup_insert_eq].
    rewrite (read_ok fs section' key' value size default file d) by done.
    by rewrite doc_get_set_other by (done || by apply heads_apart).
Qed.

Lemma ini_write_then_read_witness : exists fs',
  write_profile_string DiskOk sample_fs (codes "SEC") (codes "k") (codes "23") sample_path = Ret (1, fs') /\
  read_profile_string fs' (codes "SEC") (codes "k") [7; 7; 7; 7] 4 None sample_path = Ret (1, [50; 51; 0; 0]) /\
  read_profile_string fs' (codes "SEC") (codes "port") [7; 7; 7; 7] 4 None sample_path =
  read_profile_string sample_fs (codes "SEC") (codes "port") [7; 7; 7; 7] 4 None sample_path.
Proof.
  assert (sample_fs !! sample_path = Some (print_doc sample_doc)) as Hf by apply lookup_singleton_eq.
  exists (<[sample_path := print_doc (doc_set sample_doc (codes "SEC") (codes "k") (codes "23"))]> sample_fs).
  assert (write_profile_string DiskOk sample_fs (codes "SEC") (codes "k") (codes "23") sample_path = Ret (1,
    <[sample_path := print_doc (doc_set sample_doc (codes "SEC") (codes "k") (codes "23"))]> sample_fs)) as Hw.
  { apply write_ok; [by left|exact sample_doc_ok|discriminate|eval_decide|eval_decide|eval_decide|
      intros H; vm_compute in H; discriminate|eval_decide|eval_decide]. }
  split; [exact Hw|].
  destruct (ini_write_then_read sample_fs
    (<[sample_path := print_doc (doc_set sample_doc (codes "SEC") (codes "k") (codes "23"))]> sample_fs) (codes "SEC") (codes "k") (codes "23") [7; 7; 7; 7] 4 None sample_path
    sample_doc (codes "port") (codes "SEC")) as [H1 H2].
  1: left; exact Hf.
  1: exact sample_doc_ok.
  1: discriminate.
  1: eval_decide.
  1: eval_decide.
  1: eval_decide.
  1: intros H; vm_compute in H; discriminate.
  1: eval_decide.
  1: eval_decide.
  1: eval_decide.
  1: discriminate.
  1: discriminate.
  1: discriminate.
  1: exact Hw.
  split; [rewrite H1; reflexivity|apply H2; rewrite Hf; discriminate].
Defined.

(** C15: reading ends and stays inside its buffers whatever the file holds,
    as long as the part that is loaded (up to a byte 255, which the code takes
    for the end of the file) leaves two bytes of the buffer: no loop runs away
    on unclosed brackets, missing values or empty lines.  The result is 0 with
    the caller's default in the buffer, cut or padded to its size, or with the
    buffer as it was when there is no default; or it is 1 with bytes of the file
    from one place. *)
Theorem ini_read_total (fs : files) file text section key value size default :
  fs !! file = Some text -> Z.of_nat (length (upto_eof text)) + 2 <= MAX_FILE_SIZE ->
  section <> [] -> key <> [] -> 0 < size <= Z.of_nat (length value) ->
  read_profile_string fs section key value size default file =
    Ret (0, match default with
            | Some d => splice value 0 (take (Z.to_nat size) (d ++ replicate (Z.to_nat size) 0))
            | None => value
            end) \/
  exists off len, (off + len <= length (upto_eof text))%nat /\
    read_profile_string fs section key value size default file =
      Ret (1, splice value 0 (cut_value size (slice off len text))).
Proof.
  intros Hf Hl Hs Hk Hsize. unfold read_profile_string.
  replace (nonempty section) with true by by destruct section. replace (nonempty key) with true by by destruct key.
  replace (0 <? size) with true by lia. cbn [cassert]. rewrite !bind_ret_l, (load_upto fs file text) by (done || lia).
  rewrite bind_ret_l. cbv beta iota. cbn [Z.eqb].
  destruct (upto_eof_prefix text) as [rest Erest]. set (part := upto_eof text) in *. clearbody part.
  destruct (parse_total section key part Hs Hk Hl) as (ok & pos & Er & Hok & Hpos).
  rewrite Er, bind_ret_l. cbv beta iota. destruct Hok as [->| ->]; [left|right]; cbn [Z.eqb].
  - by rewrite put_default_ok, bind_ret_l by lia.
  - destruct (Hpos eq_refl) as (P1 & P2 & P3 & P4). cbn [fst snd] in *.
    exists (Z.to_nat (value_s pos)), (Z.to_nat (value_e pos - value_s pos)). split; [lia|].
    pose proof (value_copy part (Z.to_nat (value_s pos)) (Z.to_nat (value_e pos - value_s pos)) value size
      ltac:(lia) ltac:(lia) Hsize) as E.
    replace (Z.of_nat (Z.to_nat (value_s pos) + Z.to_nat (value_e pos - value_s pos))) with (value_e pos) in E by lia.
    replace (Z.of_nat (Z.to_nat (value_s pos))) with (value_s pos) in E by lia. 
    rewrite Erest, slice_app_l by lia. exact E.
Qed.

Lemma ini_read_total_witness :
  let fs : files := {[ sample_path := codes "[SEC" ++ [255; 93] ]} in
  read_profile_string fs (codes "SEC") (codes "k") [7; 7; 7] 2 (Some [97; 98; 99]) sample_path = Ret (0, [97; 98; 7]) \/
  exists off len, (off + len <= 4)%nat /\
    read_profile_string fs (codes "SEC") (codes "k") [7; 7; 7] 2 (Some [97; 98; 99]) sample_path =
      Ret (1, splice [7; 7; 7] 0 (cut_value 2 (slice off len (codes "[SEC" ++ [255; 93])))).
Proof.
  intros fs. apply (ini_read_total fs sample_path (codes "[SEC" ++ [255; 93]) (codes "SEC") (codes "k") [7; 7; 7] 2
    (Some [97; 98; 99])).
  - apply lookup_singleton_eq.
  - eval_decide.
  - discriminate.
  - discriminate.
  - eval_decide.
Defined.
