(* ===== verification/IniSpec.v ===== *)
(** * What a configuration file says

    An independent reading of the documents of [IniDoc]: [doc_entries] lists
    the entries under the names of their sections, [entry] finds one by its
    exact names, and [doc_written] says what writing an entry changes.  The
    code compares the names by prefix; it does what this specification says for
    names that no shorter name of the document is a prefix of
    ([exact_names]), and the examples at the end show what it does otherwise. *)
From S2P Require Import Prelude Words Buffers CString Ini IniDoc IniFile.

(** An entry is named by a section and a key. *)
Definition ini_name : Type := list Z * list Z.

Definition section_entries (s : ini_section) : list (ini_name * list Z) :=
  omap (fun l => '(k, v) ← line_entry l; Some ((sname s, k), v)) (slines s).
Definition secs_entries (ss : list ini_section) : list (ini_name * list Z) := mjoin (section_entries <$> ss).
(** The entries of a document in the order of the file. *)
Definition doc_entries (d : ini_doc) : list (ini_name * list Z) := secs_entries (sections d).

(** The first entry with a name. *)
Fixpoint first_named (n : ini_name) (es : list (ini_name * list Z)) : option (list Z) :=
  match es with
  | [] => None
  | (n', v) :: r => if decide (n' = n) then Some v else first_named n r
  end.
Definition entry (d : ini_doc) (n : ini_name) : option (list Z) := first_named n (doc_entries d).

Definition exact_section (n : ini_name) (s : ini_section) : Prop := prefixb (sname s) n.1 = true -> sname s = n.1.
Definition exact_key (n : ini_name) (e : ini_name * list Z) : Prop :=
  e.1.1 = n.1 -> prefixb e.1.2 n.2 = true -> e.1.2 = n.2.
(** No section of the document is named by a proper prefix of the section,
    and no entry of the section by a proper prefix of the key. *)
Definition exact_names (d : ini_doc) (n : ini_name) : Prop :=
  Forall (exact_section n) (sections d) /\
  Forall (exact_key n) (doc_entries d).

(** What writing the entry does to the document: the value of the first entry
    with the name is replaced; or, where there is none, one line is added to a
    section with the name, or a section with this line at the end. *)
Inductive doc_written (n : ini_name) (v : list Z) (d : ini_doc) : ini_doc -> Prop :=
  | value_replaced A B ls1 v0 ls2 :
      sections d = A ++ mk_section n.1 (ls1 ++ (n.2 ++ 61 :: v0) :: ls2) :: B ->
      first_named n (secs_entries (A ++ [mk_section n.1 ls1])) = None ->
      doc_written n v d (mk_doc (preamble d) (A ++ mk_section n.1 (ls1 ++ (n.2 ++ 61 :: v) :: ls2) :: B))
  | line_added A B ls1 ls2 :
      sections d = A ++ mk_section n.1 (ls1 ++ ls2) :: B -> entry d n = None ->
      doc_written n v d (mk_doc (preamble d) (A ++ mk_section n.1 (ls1 ++ (n.2 ++ 61 :: v) :: ls2) :: B))
  | section_added : n.1 ∉ (sname <$> sections d) ->
      doc_written n v d (doc_append d (mk_section n.1 [n.2 ++ 61 :: v])).

(** ** Entries of parts *)

Lemma first_entry_app n es es' : first_named n (es ++ es') =
  match first_named n es with Some v => Some v | None => first_named n es' end.
Proof. induction es as [|[n' v] es IH]; [done|]. cbn [app first_named]. by case_decide. Qed.

Lemma secs_entries_app ss ss' : secs_entries (ss ++ ss') = secs_entries ss ++ secs_entries ss'.
Proof. unfold secs_entries. by rewrite fmap_app, join_app. Qed.
Lemma secs_entries_cons s ss : secs_entries (s :: ss) = section_entries s ++ secs_entries ss.
Proof. done. Qed.

Lemma section_entries_app nm ls ls' : section_entries (mk_section nm (ls ++ ls')) =
  section_entries (mk_section nm ls) ++ section_entries (mk_section nm ls').
Proof. unfold section_entries. cbn [slines sname]. apply omap_app. Qed.

Lemma section_entries_line nm k v ls : k <> [] -> Forall (fun c => c <> 61) k -> head k <> Some 59 ->
  section_entries (mk_section nm ((k ++ 61 :: v) :: ls)) = ((nm, k), v) :: section_entries (mk_section nm ls).
Proof. intros. unfold section_entries. cbn [slines sname omap list_omap]. by rewrite line_entry_app. Qed.

Lemma other_section n s : sname s <> n.1 -> first_named n (section_entries s) = None.
Proof.
  intros Hs. unfold section_entries. induction (slines s) as [|l ls IH]; [done|]. cbn [omap list_omap].
  destruct (line_entry l) as [[k v]|]; cbn [mbind option_bind]; [|done]. cbn [first_named].
  rewrite decide_False; [done|]. intros <-. by apply Hs.
Qed.

Lemma other_sections n ss : n.1 ∉ (sname <$> ss) -> first_named n (secs_entries ss) = None.
Proof.
  induction ss as [|s ss IH]; [done|]. cbn [fmap list_fmap]. intros H. apply not_elem_of_cons in H as [Hs H].
  rewrite secs_entries_cons, first_entry_app, other_section by congruence. by apply IH.
Qed.

Lemma blank_entries ss : secs_entries (add_blank ss) = secs_entries ss.
Proof.
  induction ss as [|s ss IH]; [done|]. destruct ss as [|s1 ss].
  - cbn [add_blank]. rewrite !secs_entries_cons, section_entries_app. by rewrite app_nil_r; destruct s.
  - change (add_blank (s :: s1 :: ss)) with (s :: add_blank (s1 :: ss)). by rewrite !(secs_entries_cons s), IH.
Qed.

Lemma append_entries d s : doc_entries (doc_append d s) = doc_entries d ++ section_entries s.
Proof.
  unfold doc_entries, doc_append. destruct (sections d) as [|s0 ss] eqn:E.
  - destruct (preamble d); cbn [sections]; by rewrite secs_entries_cons, app_nil_r.
  - cbn [sections]. by rewrite secs_entries_app, blank_entries, (secs_entries_cons s []), app_nil_r.
Qed.

Lemma first_entry_mid n v X Y : first_named n X = None -> forall n',
  first_named n' (X ++ (n, v) :: Y) = if decide (n' = n) then Some v else first_named n' (X ++ Y).
Proof.
  intros HX n'. rewrite !first_entry_app. cbn [first_named]. case_decide as E.
  - subst n'. by rewrite HX, decide_True.
  - by rewrite decide_False by congruence.
Qed.

Lemma mid_entries A B n v ls1 ls2 : key_ok n.2 ->
  secs_entries (A ++ mk_section n.1 (ls1 ++ (n.2 ++ 61 :: v) :: ls2) :: B) =
  secs_entries (A ++ [mk_section n.1 ls1]) ++ (n, v) :: section_entries (mk_section n.1 ls2) ++ secs_entries B.
Proof.
  intros (_ & K1 & K2 & K3). rewrite !secs_entries_app, !secs_entries_cons, section_entries_app, section_entries_line by done.
  rewrite app_nil_r, <- !app_assoc. by destruct n.
Qed.

(** A written document holds the new entry and every other one as before. *)
Lemma written_entries n v d d' : key_ok n.2 -> doc_written n v d d' ->
  forall n', entry d' n' = if decide (n' = n) then Some v else entry d n'.
Proof.
  intros Hk H n'. unfold entry, doc_entries. destruct H as [A B ls1 v0 ls2 E H0|A B ls1 ls2 E H0|H0].
  - cbn [sections]. rewrite E, !mid_entries, !first_entry_mid by done. by case_decide.
  - unfold entry, doc_entries in H0. cbn [sections]. rewrite E in *.
    assert (secs_entries (A ++ mk_section n.1 (ls1 ++ ls2) :: B) =
      secs_entries (A ++ [mk_section n.1 ls1]) ++ section_entries (mk_section n.1 ls2) ++ secs_entries B) as Em.
    { rewrite !secs_entries_app, !secs_entries_cons, section_entries_app, app_nil_r, <- !app_assoc. done. }
    rewrite Em in *. rewrite mid_entries by done. apply first_entry_mid. rewrite first_entry_app in H0.
    by destruct (first_named n (secs_entries (A ++ _))).
  - fold (doc_entries (doc_append d (mk_section n.1 [n.2 ++ 61 :: v]))). rewrite append_entries.
    destruct Hk as (_ & K1 & K2 & K3). rewrite section_entries_line by done.
    replace ((n.1, n.2), v) with (n, v) by by destruct n.
    rewrite first_entry_mid by by apply other_sections. by rewrite app_nil_r.
Qed.

(** ** The code's search on exact names *)

Lemma lines_put_split key v ls ls' : lines_put key v ls = Some ls' -> exists ls1 k v0 ls2,
  ls = ls1 ++ (k ++ 61 :: v0) :: ls2 /\ line_entry (k ++ 61 :: v0) = Some (k, v0) /\ prefixb k key = true /\
  ls' = ls1 ++ (k ++ 61 :: v) :: ls2 /\ lines_get key ls1 = None.
Proof.
  revert ls'. induction ls as [|l ls IH]; intros ls'; [done|]. cbn [lines_put]. destruct (line_value key l) as [v0|] eqn:E.
  - intros [= <-]. unfold line_value in E. destruct (line_entry l) as [[k v1]|] eqn:El; [|done].
    destruct (line_entry_Some _ _ _ El) as (-> & _). destruct (prefixb k key) eqn:Ep; [|done].
    exists [], k, v1, ls. unfold line_put. rewrite El. done.
  - destruct (lines_put key v ls) as [r|]; [|done]. intros [= <-].
    destruct (IH _ eq_refl) as (ls1 & k & v0 & ls2 & -> & H1 & H2 & -> & H3). exists (l :: ls1), k, v0, ls2.
    split_and!; try done. cbn [lines_get]. by rewrite E.
Qed.

Lemma lines_insert_split key v ls : exists ls1 ls2, ls = ls1 ++ ls2 /\ lines_insert key v ls = ls1 ++ (key ++ 61 :: v) :: ls2.
Proof.
  induction ls as [|l ls (ls1 & ls2 & E1 & E2)]; [by exists [], []|]. destruct l as [|c l].
  - exists ([] :: ls1), ls2. cbn [lines_insert app]. rewrite E2. split; [by f_equal|done].
  - by exists [], ((c :: l) :: ls).
Qed.

Lemma secs_put_split sec key v ss ss' : secs_put sec key v ss = Some ss' -> exists A s ls' B,
  ss = A ++ s :: B /\ smatch sec s = true /\ lines_put key v (slines s) = Some ls' /\
  ss' = A ++ mk_section (sname s) ls' :: B /\ secs_get sec key A = None.
Proof.
  revert ss'. induction ss as [|s ss IH]; intros ss'; [done|]. cbn [secs_put].
  pose proof (lines_put_get key v (slines s)) as Hl.
  destruct (if smatch sec s then lines_put key v (slines s) else None) as [ls|] eqn:E.
  - intros [= <-]. destruct (smatch sec s) eqn:Em; [|done]. by exists [], s, ls, ss.
  - destruct (secs_put sec key v ss) as [r|]; [|done]. intros [= <-].
    destruct (IH _ eq_refl) as (A & s' & ls' & B & -> & H1 & H2 & -> & H3). exists (s :: A), s', ls', B.
    split_and!; try done. cbn [secs_get]. destruct (smatch sec s); [|done]. rewrite E in Hl. by rewrite Hl.
Qed.

Lemma secs_insert_split sec key v ss ss' : secs_insert sec key v ss = Some ss' -> exists A s B,
  ss = A ++ s :: B /\ smatch sec s = true /\ ss' = A ++ mk_section (sname s) (lines_insert key v (slines s)) :: B.
Proof.
  revert ss'. induction ss as [|s ss IH]; intros ss'; [done|]. cbn [secs_insert].
  destruct (secs_insert sec key v ss) as [r|].
  - intros [= <-]. destruct (IH _ eq_refl) as (A & s' & B & -> & Hm & ->). by exists (s :: A), s', B.
  - destruct (smatch sec s) eqn:Em; [|done]. intros [= <-]. by exists [], s, ss.
Qed.

(** The parts of a document inherit its names. *)
Lemma smatch_exact n s : exact_section n s -> smatch n.1 s = bool_decide (sname s = n.1).
Proof.
  unfold exact_section, smatch. intros H. case_bool_decide as E; [by rewrite E, prefixb_refl|].
  destruct (prefixb (sname s) n.1); [|done]. by destruct E, H.
Qed.

Lemma lines_exact (n : ini_name) ls :
  Forall (exact_key n) (section_entries (mk_section n.1 ls)) ->
  lines_get n.2 ls = first_named n (section_entries (mk_section n.1 ls)).
Proof.
  unfold section_entries. cbn [slines sname]. induction ls as [|l ls IH]; [done|]. cbn [lines_get omap list_omap].
  unfold line_value. destruct (line_entry l) as [[k v]|]; cbn [mbind option_bind]; [|done].
  intros H. apply Forall_cons in H as [Hk H]. unfold exact_key in Hk. cbn [fst snd] in Hk. cbn [first_named]. rewrite IH by done.
  case_decide as E.
  - rewrite <- E. cbn [snd]. by rewrite prefixb_refl.
  - destruct (prefixb k n.2); [|done]. destruct E. rewrite (Hk eq_refl eq_refl). by destruct n.
Qed.

Lemma secs_exact (n : ini_name) ss : Forall (exact_section n) ss ->
  Forall (exact_key n) (secs_entries ss) ->
  secs_get n.1 n.2 ss = first_named n (secs_entries ss).
Proof.
  induction 1 as [|s ss Hs Hss IH]; [done|]. rewrite secs_entries_cons, Forall_app, first_entry_app.
  intros [H1 H2]. cbn [secs_get]. rewrite IH, smatch_exact by done. case_bool_decide as E.
  - destruct s as [nm ls]. cbn [sname slines] in *. subst nm. by rewrite lines_exact.
  - by rewrite other_section.
Qed.

Lemma get_exact d n : exact_names d n -> doc_get d n.1 n.2 = entry d n.
Proof. intros [H1 H2]. by apply secs_exact. Qed.

Lemma exact_lines (n : ini_name) A s B :
  exact_names (mk_doc [] (A ++ s :: B)) n -> smatch n.1 s = true -> sname s = n.1 /\ forall ls1 k v ls2,
  slines s = ls1 ++ (k ++ 61 :: v) :: ls2 -> line_entry (k ++ 61 :: v) = Some (k, v) -> prefixb k n.2 = true -> k = n.2.
Proof.
  intros [H1 H2] Hm. cbn [sections] in H1. apply Forall_app in H1 as [_ H1]. apply Forall_cons in H1 as [H1 _].
  specialize (H1 Hm).  split; [done|]. intros ls1 k v ls2 E El Hp.
  unfold doc_entries in H2. cbn [sections] in H2. rewrite secs_entries_app, secs_entries_cons, !Forall_app in H2.
  destruct H2 as (_ & H2 & _). destruct s as [nm ls]. cbn [slines sname] in *. subst.
  destruct (line_entry_Some _ _ _ El) as (_ & K1 & K2 & K3).
  rewrite section_entries_app, section_entries_line, Forall_app, Forall_cons in H2 by done.
  by apply (proj1 (proj2 H2)).
Qed.

(** What [doc_set] does to a document with exact names. *)
Lemma set_written d n v : key_ok n.2 -> exact_names d n -> doc_written n v d (doc_set d n.1 n.2 v).
Proof.
  intros Hk Hx. pose proof Hx as [H1 H2]. unfold doc_set. destruct (secs_put n.1 n.2 v (sections d)) as [ss|] eqn:Ep.
  - destruct (secs_put_split _ _ _ _ _ Ep) as (A & s & ls' & B & E & Hm & El & -> & Hg).
    destruct (lines_put_split _ _ _ _ El) as (ls1 & k & v0 & ls2 & E1 & Ek & Hp & -> & Hg1).
    destruct (exact_lines n A s B) as [Hn Hkey]; [by split; rewrite <- ?E|done|].
    pose proof (Hkey _ _ _ _ E1 Ek Hp) as ->. rewrite Hn. destruct s as [nm ls]. cbn [sname slines] in *. subst nm ls.
    eapply value_replaced; [exact E|]. unfold doc_entries in H2. rewrite E in H1, H2.
    rewrite secs_entries_app, secs_entries_cons, section_entries_app, !Forall_app in H2. apply Forall_app in H1 as [H1 _].
    rewrite secs_entries_app, secs_entries_cons, app_nil_r, first_entry_app.
    rewrite <- secs_exact by tauto. rewrite Hg. rewrite <- lines_exact by tauto. done.
  - pose proof (secs_none _ _ _ _ Ep) as Hg.
    destruct (secs_insert n.1 n.2 v (sections d)) as [ss|] eqn:Ei.
    + destruct (secs_insert_split _ _ _ _ _ Ei) as (A & s & B & E & Hm & ->).
      destruct (exact_lines n A s B) as [Hn _]; [by split; rewrite <- ?E|done|].
      destruct (lines_insert_split n.2 v (slines s)) as (ls1 & ls2 & E1 & ->). rewrite Hn.
      apply line_added; [|by rewrite <- get_exact]. rewrite E. destruct s as [nm ls]. cbn [sname slines] in *. by subst.
    + apply section_added. intros Hin. apply list_elem_of_fmap in Hin as (s & Es & Hs).
      assert (exists r, secs_insert n.1 n.2 v (sections d) = Some r) as [r Er]; [|by rewrite Er in Ei].
      clear -Es Hs. induction Hs as [s ss|s s' ss Hs IH]; cbn [secs_insert].
      * destruct (secs_insert n.1 n.2 v ss); [by eexists|]. unfold smatch. rewrite <- Es, prefixb_refl. by eexists.
      * destruct (IH Es) as [r ->]. by eexists.
Qed.

(** ** Properties *)

#[export] Instance exact_names_dec d n : Decision (exact_names d n).
Proof. unfold exact_names, exact_section, exact_key. apply _. Defined.

(** C14: a configuration file is a map from names of sections and keys to
    values.  On a file that holds a well-formed document (or on a missing file,
    the empty document), and for names that no shorter name of the document is a
    prefix of, [read_profile_string] returns the first entry with exactly these
    names, cut to the size of the caller's buffer, or its default when there is
    none; and [write_profile_string] stores a document, well formed again, that
    differs from the old one in this entry only ([doc_written]: its value
    replaced, or its line added to the section, or a section added at the end), so
    that every other name has the entry it had and reading returns the new one.
    Where there is no such entry the old text must hold no percent sign, because
    the code prints its rest as a format. *)
Theorem ini_document_refinement fs (n : ini_name) v value size default file d :
  holds_doc fs file d -> doc_ok d -> exact_names d n ->
  n.1 <> [] -> name_ok n.1 -> key_ok n.2 -> Forall text_char v ->
  (entry d n = None -> Forall (fun c => c <> 37) (print_doc d)) ->
  Z.of_nat (length (print_doc d) + (length n.1 + length n.2 + length v + 6)) < MAX_FILE_SIZE ->
  0 < size <= Z.of_nat (length value) ->
  read_profile_string fs n.1 n.2 value size default file =
    match entry d n with
    | Some v => Ret (1, splice value 0 (cut_value size v))
    | None => value ← put_default value size default; Ret (0, value)
    end /\
  exists d', write_profile_string DiskOk fs n.1 n.2 v file = Ret (1, <[file := print_doc d']> fs) /\
    doc_ok d' /\ doc_written n v d d' /\
    (forall n', entry d' n' = if decide (n' = n) then Some v else entry d n') /\
    read_profile_string (<[file := print_doc d']> fs) n.1 n.2 value size default file =
      Ret (1, splice value 0 (cut_value size v)).
Proof.
  intros Hf Hd Hx Hs Hns Hk Hv H37 Hl Hsize. pose proof Hk as (_ & Hkne & _). rewrite <- (get_exact d n Hx) in *.
  destruct (doc_set_text d n.1 n.2 v (fun _ => True) Hd Hs Hkne) as [_ Hl']; try by apply Forall_true.
  set (d' := doc_set d n.1 n.2 v) in *. assert (doc_ok d') as Hd' by by apply doc_set_ok.
  assert (doc_written n v d d') as Hw by by apply set_written.
  split; [by apply read_doc; (done || lia)|]. exists d'. split_and!.
  - apply write_ok; try done; fold d'; lia.
  - done.
  - done.
  - by apply written_entries.
  - rewrite (read_ok _ _ _ value size default file d'); [|apply lookup_insert_eq|done|lia|done..].
    by unfold d'; rewrite doc_get_set.
Qed.

Lemma ini_document_refinement_witness : exists d',
  write_profile_string DiskOk sample_fs (codes "SEC") (codes "host") (codes "x") sample_path =
    Ret (1, <[sample_path := print_doc d']> sample_fs) /\
  entry d' (codes "SEC", codes "host") = Some (codes "x") /\ entry d' (codes "SEC", codes "port") = Some (codes "80") /\
  read_profile_string sample_fs (codes "SEC") (codes "host") [7; 7] 2 (Some [97]) sample_path = Ret (0, [97; 0]).
Proof.
  destruct (ini_document_refinement sample_fs (codes "SEC", codes "host") (codes "x") [7; 7] 2 (Some [97]) sample_path
    sample_doc) as (Hr & d' & Hw & _ & _ & He & _).
  1: left; apply lookup_singleton_eq.
  1: exact sample_doc_ok.
  1: eval_decide.
  1: discriminate.
  1: eval_decide.
  1: eval_decide.
  1: eval_decide.
  1: intros _; eval_decide.
  1: eval_decide.
  1: eval_decide.
  exists d'. split; [exact Hw|]. split; [rewrite He; reflexivity|]. split; [rewrite He; reflexivity|].
  etransitivity; [exact Hr|]. reflexivity.
Defined.

(** ** Names that are prefixes of others *)

(** A section, and an entry, whose name is a proper prefix of the wanted one is
    taken for it, here the entry [a = 1] of the section [S]. *)
Example prefix_taken_for_name :
  let fs : files := {[ sample_path := codes "[S]" ++ [10] ++ codes "a=1" ++ [10] ]} in
  read_profile_string fs (codes "SEC") (codes "age") [7; 7] 2 None sample_path = Ret (1, [49; 0]).
Proof. reflexivity. Qed.

(** A new entry goes below the header of its section. *)
Example new_entry_below_header :
  let fs : files := {[ sample_path := codes "[S]" ++ [10] ++ codes "a=1" ++ [10] ]} in
  write_profile_string DiskOk fs (codes "S") (codes "b") (codes "2") sample_path =
    Ret (1, {[ sample_path := codes "[S]" ++ [10] ++ codes "b=2" ++ [10] ++ codes "a=1" ++ [10] ]}).
Proof. reflexivity. Qed.
