(* ===== verification/AstConfig.v ===== *)
(** * The configuration class (astconfig.cpp) and the store interface

    [astConfig] is the reader and writer of rwIni with the path of the file as
    state, and a loader of the server settings.  Its clients use it through
    [Store]: opening, reading and writing entries, with the laws that a value
    written is read back and other entries are kept; the instance discharges
    them with the document lemmas of [IniFile]. *)
From S2P Require Import Prelude Words Buffers CString Ini IniDoc IniFile.

Record astConfig := mk_astConfig {
  m_cIp : list Z;
  m_nPort : Z;
  m_nTimeOut : Z;
  m_nLogLevel : Z;
  m_nLangId : Z;
  m_strFilePath : list Z
}.

Section methods.
Variable fs : files.
Variable c : astConfig.

Definition read_profile_string (section key value : list Z) (size : Z) (default_value : option (list Z))
    : cpp (Z * list Z) :=
  Ini.read_profile_string fs section key value size default_value (m_strFilePath c).

Definition read_profile_int (section key : list Z) (default_value : Z) : cpp Z :=
  '(ok, value) ← read_profile_string section key (replicate 32 0) 32 None;
  if ok =? 0 then Ret default_value else atoi value.

Definition write_profile_string (d : disk) (section key value : list Z) : cpp (Z * files) :=
  Ini.write_profile_string d fs section key value (m_strFilePath c).
End methods.

Definition LoadIni (fs : files) (c : astConfig) (cIniPath : list Z) : cpp (Z * astConfig) :=
  let c := mk_astConfig (m_cIp c) (m_nPort c) (m_nTimeOut c) (m_nLogLevel c) (m_nLangId c) cIniPath in
  '(nRet, ip) ← read_profile_string fs c (codes "SERVER") (codes "ip") (m_cIp c) 31 None;
  let c := mk_astConfig ip (m_nPort c) (m_nTimeOut c) (m_nLogLevel c) (m_nLangId c) cIniPath in
  if nRet =? 0 then Ret (nRet, c)
  else
    port ← read_profile_int fs c (codes "SERVER") (codes "port") 11000;
    timeout ← read_profile_int fs c (codes "SERVER") (codes "timeout") 3000;
    level ← read_profile_int fs c (codes "LOG") (codes "level") 0;
    lang ← read_profile_int fs c (codes "LOG") (codes "level") 2052;
    Ret (nRet, mk_astConfig ip port timeout level lang cIniPath).

(** ** The interface *)

(** What an entry lookup answers. *)
Definition entries : Type := list Z -> list Z -> option (list Z).

Class Store (S : Type) := {
  st_open : S -> list Z -> cpp S;
  st_read : S -> list Z -> list Z -> list Z -> Z -> option (list Z) -> cpp (Z * list Z);
  st_write : S -> list Z -> list Z -> list Z -> cpp (Z * S)
}.

(** Values, keys and section names that a store keeps. *)
Definition plain (s : list Z) : Prop := Forall (fun c => text_char c /\ c <> 37) s.
Record entry_ok (section key v : list Z) : Prop := {
  en_sec : section <> [] /\ plain section /\ Forall (fun c => c <> 93) section;
  en_key : key_ok key /\ plain key;
  en_val : plain v
}.
Definition cost (section key v : list Z) : nat := (length section + length key + length v + 6)%nat.

(** [st_holds path s f n]: the file at [path] has the entries [f] and room for
    [n] bytes; [st_opened] says moreover that it is the file in use. *)
Class StoreLaws (S : Type) `{Store S} := {
  st_holds : list Z -> S -> entries -> nat -> Prop;
  st_opened : list Z -> S -> entries -> nat -> Prop;
  st_opened_holds path s f n : st_opened path s f n -> st_holds path s f n;
  st_open_ok path s f n : st_holds path s f n -> exists s', st_open s path = Ret s' /\ st_opened path s' f n;
  st_read_ok path s f n section key value size default v :
    st_opened path s f n -> section <> [] -> key <> [] -> 0 < size <= Z.of_nat (length value) ->
    f section key = Some v ->
    st_read s section key value size default = Ret (1, splice value 0 (cut_value size v));
  st_read_missing path s f n section key value size default :
    st_opened path s f n -> section <> [] -> key <> [] -> 0 < size <= Z.of_nat (length value) ->
    f section key = None ->
    st_read s section key value size default = (value ← put_default value size default; Ret (0, value));
  st_write_ok path s f n section key v :
    st_opened path s f n -> entry_ok section key v -> ~ In (head key) [Some 105; Some 112; Some 116; Some 108] ->
    (cost section key v <= n)%nat ->
    exists s' f', st_write s section key v = Ret (1, s') /\ st_opened path s' f' (n - cost section key v) /\
      f' section key = Some v /\
      forall section' key', head key <> head key' -> f' section' key' = f section' key'
}.

(** ** The instance *)

#[export] Instance ini_store : Store (files * astConfig) := {
  st_open := fun '(fs, c) path => '(_, c) ← LoadIni fs c path; Ret (fs, c);
  st_read := fun '(fs, c) section key value size d => read_profile_string fs c section key value size d;
  st_write := fun '(fs, c) section key v => '(r, fs') ← write_profile_string fs c DiskOk section key v; Ret (r, (fs', c))
}.

(** The settings that [LoadIni] converts are in the range of [int]. *)
Definition int_entry (f : entries) (section key : list Z) : Prop :=
  match f section key with
  | Some v => exists z, atoi (cut_value 32 v) = Ret z
  | None => True
  end.
Record settings_ok (f : entries) : Prop := {
  so_port : int_entry f (codes "SERVER") (codes "port");
  so_timeout : int_entry f (codes "SERVER") (codes "timeout");
  so_level : int_entry f (codes "LOG") (codes "level")
}.

Definition file_holds (path : list Z) (s : files * astConfig) (f : entries) (n : nat) : Prop :=
  length (m_cIp s.2) = 32%nat /\ settings_ok f /\
  exists d, s.1 !! path = Some (print_doc d) /\ doc_ok d /\ (forall section key, f section key = doc_get d section key) /\
    Forall (fun c => c <> 37) (print_doc d) /\ Z.of_nat (length (print_doc d)) + Z.of_nat n < MAX_FILE_SIZE.
Definition file_opened (path : list Z) (s : files * astConfig) (f : entries) (n : nat) : Prop :=
  file_holds path s f n /\ m_strFilePath s.2 = path.

Lemma read_int_ok fs c section key default d : 
  fs !! m_strFilePath c = Some (print_doc d) -> doc_ok d -> Z.of_nat (length (print_doc d)) < MAX_FILE_SIZE ->
  section <> [] -> key <> [] -> int_entry (doc_get d) section key ->
  exists z, read_profile_int fs c section key default = Ret z.
Proof.
  intros Hf Hd Hl Hs Hk Hi. unfold read_profile_int, read_profile_string. unfold int_entry in Hi.
  rewrite (read_ok fs section key (replicate 32 0) 32 None (m_strFilePath c) d) by (done || eval_decide).
  destruct (doc_get d section key) as [v|]; [|by eexists].
  rewrite bind_ret_l. cbv beta iota. cbn [Z.eqb]. rewrite splice_all; [done|].
  unfold cut_value. rewrite length_app, !length_replicate, !length_take. lia.
Qed.

Lemma LoadIni_ok fs c path d :
  fs !! path = Some (print_doc d) -> doc_ok d -> Z.of_nat (length (print_doc d)) < MAX_FILE_SIZE ->
  length (m_cIp c) = 32%nat -> settings_ok (doc_get d) ->
  exists r c', LoadIni fs c path = Ret (r, c') /\ m_strFilePath c' = path /\ length (m_cIp c') = 32%nat.
Proof.
  intros Hf Hd Hl Hip [Hp Ht Hv]. unfold LoadIni. cbv zeta. cbn [m_cIp m_nPort m_nTimeOut m_nLogLevel m_nLangId].
  unfold read_profile_string at 1. cbn [m_strFilePath].
  rewrite (read_ok fs (codes "SERVER") (codes "ip") (m_cIp c) 31 None path d) by (done || lia).
  destruct (doc_get d (codes "SERVER") (codes "ip")) as [v|].
  - rewrite bind_ret_l. cbv beta iota. cbn [Z.eqb]. set (ip := splice _ 0 _).
    assert (length ip = 32%nat) as Hl'.
    { unfold ip. rewrite length_splice; [done|]. unfold cut_value. rewrite length_app, length_replicate, !length_take. lia. }
    set (c' := mk_astConfig ip _ _ _ _ path).
    destruct (read_int_ok fs c' (codes "SERVER") (codes "port") 11000 d) as [z1 ->]; try done.
    destruct (read_int_ok fs c' (codes "SERVER") (codes "timeout") 3000 d) as [z2 ->]; try done.
    destruct (read_int_ok fs c' (codes "LOG") (codes "level") 0 d) as [z3 ->]; try done.
    destruct (read_int_ok fs c' (codes "LOG") (codes "level") 2052 d) as [z4 ->]; try done.
    rewrite !bind_ret_l. eexists _, _. split; [reflexivity|done].
  - cbn [put_default]. rewrite !bind_ret_l. cbv beta iota. cbn [Z.eqb]. eexists _, _. split; [reflexivity|done].
Qed.

(** The loaded settings are apart from the keys that are written. *)
Lemma settings_set d section key v : key_ok key ->
  ~ In (head key) [Some 105; Some 112; Some 116; Some 108] -> settings_ok (doc_get d) ->
  settings_ok (doc_get (doc_set d section key v)).
Proof.
  intros Hk Hh [H1 H2 H3].
  assert (forall key', In (head key') [Some 105; Some 112; Some 116; Some 108] -> keys_apart key key') as Ha.
  { intros key' Hi. apply heads_apart. intros E. apply Hh. by rewrite E. }
  split; unfold int_entry in *; (rewrite doc_get_set_other; [done|done|]); apply Ha; vm_compute; tauto.
Qed.

#[export] Program Instance ini_store_laws : StoreLaws (files * astConfig) := {
  st_holds := file_holds;
  st_opened := file_opened
}.
Next Obligation. by intros path s f n []. Qed.
Next Obligation.
  intros path [fs c] f n (Hip & Hset & d & Hf & Hd & Hg & H37 & Hl). cbn [fst snd] in *.
  assert (settings_ok (doc_get d)) as Hset' by (destruct Hset; split; unfold int_entry in *; by rewrite <- Hg).
  destruct (LoadIni_ok fs c path d Hf Hd ltac:(lia) Hip Hset') as (r & c' & E & Hp & Hip').
  exists (fs, c'). cbn [st_open ini_store]. rewrite E, bind_ret_l. split; [done|]. split; [|done].
  split; [done|]. split; [done|]. exists d. done.
Qed.
Next Obligation.
  intros path [fs c] f n section key value size default v [(_ & _ & d & Hf & Hd & Hg & _ & Hl) Hp] Hs Hk Hsize Hv.
  cbn [fst snd st_read ini_store] in *. unfold read_profile_string.
  rewrite (read_ok fs section key value size default (m_strFilePath c) d) by (rewrite ?Hp; done || lia).
  by rewrite <- Hg, Hv.
Qed.
Next Obligation.
  intros path [fs c] f n section key value size default [(_ & _ & d & Hf & Hd & Hg & _ & Hl) Hp] Hs Hk Hsize Hv.
  cbn [fst snd st_read ini_store] in *. unfold read_profile_string.
  rewrite (read_ok fs section key value size default (m_strFilePath c) d) by (rewrite ?Hp; done || lia).
  by rewrite <- Hg, Hv.
Qed.
Next Obligation.
  intros path [fs c] f n section key v [(Hip & Hset & d & Hf & Hd & Hg & H37 & Hl) Hp] [(Hs & Hsp & Hs93) (Hk & Hkp) Hvp] Hh Hc.
  cbn [fst snd st_write ini_store] in *. unfold write_profile_string. rewrite Hp.
  assert (forall x, plain x -> Forall (fun c => c <> 37) x /\ Forall text_char x) as Hplain
    by (intros x Hx; split; eapply Forall_impl; try exact Hx; simpl; tauto).
  destruct (Hplain _ Hsp) as [Hs37 Hst]. destruct (Hplain _ Hkp) as [Hk37 _]. destruct (Hplain _ Hvp) as [Hv37 Hvt].
  pose proof Hk as (_ & Hkne & _).
  destruct (doc_set_text d section key v (fun c => c <> 37) Hd Hs Hkne Hs37 Hk37 Hv37 ltac:(by repeat constructor) H37) as [N37 Nl]. pose proof Hc as Hc'. unfold cost in Hc'.
  rewrite (write_ok fs section key v path d); [|by left|done|done| |done|done|done|lia|lia].
  2:{ unfold name_ok. rewrite Forall_and. done. }
  rewrite bind_ret_l. cbv beta iota. eexists _, (doc_get (doc_set d section key v)). split; [reflexivity|]. split_and!.
  - split; [|done]. split; [done|]. split.
    + apply settings_set; [done|done|]. destruct Hset. split; unfold int_entry in *; by rewrite <- Hg.
    + exists (doc_set d section key v). cbn [fst snd]. split_and!; [apply lookup_insert_eq| |done|done|].
      * apply doc_set_ok; try done. unfold name_ok. rewrite Forall_and. done.
      * unfold cost in *. lia.
  - by apply doc_get_set.
  - intros section' key' Hne. rewrite doc_get_set_other; [done|done|by apply heads_apart].
Qed.
