(* ===== verification/AstConf.v ===== *)
(** * Keeping the agent's key (astpackage.cpp: [LoadConf], [SaveConf])

    The packet codec stores identifier, key and MAC through the configuration
    class.  The two functions are written and proved against the interface
    [Store]; [ini_store_laws] supplies the files of [AstConfig].  Uninitialised
    local arrays are parameters. *)
From S2P Require Import Prelude Words Buffers CString Sm3 Sm4 Sm4Stream Base64 AstPackage IniDoc IniFile AstConfig.

Definition SECRETKEY : list Z := codes "SECRETKEY".

(** The local arrays. *)
Record locals := mk_locals {
  l_cBuf : list Z;
  l_cEKA : list Z;
  l_cKA : list Z;
  l_cMAC : list Z;
  l_cAID : list Z
}.

(** The loop that drops trailing zero bytes of the identifier. *)
Fixpoint trim_zeros (id : list Z) (n : nat) : cpp Z :=
  match n with
  | O => Ret 0
  | S k => c ← buf_get id (Z.of_nat k); if c =? 0 then trim_zeros id k else Ret (Z.of_nat n)
  end.

Definition with_aid (p : astPackage) (aid : list Z) (n : Z) : astPackage :=
  mk_astPackage (m_KI p) (m_KA p) (m_bInit p) aid n (m_UUID p).
Definition with_uuid (p : astPackage) (u : list Z) : astPackage :=
  mk_astPackage (m_KI p) (m_KA p) (m_bInit p) (m_AgentID p) (m_nAidLen p) u.
Definition with_key (p : astPackage) (k : list Z) : astPackage :=
  mk_astPackage (m_KI p) k false (m_AgentID p) (m_nAidLen p) (m_UUID p).

(** The MAC over the identifiers and the key. *)
Definition conf_mac (p : astPackage) (ka : list Z) : cpp (list Z) :=
  u ← c_str (m_UUID p);
  a ← buf_read (m_AgentID p) 0 LENGTH_AID;
  k ← buf_read ka 0 LENGTH_KA;
  hash_parts [u; a; k].

Section conf.
Context {S : Type} `{Store S}.

Definition LoadConf (j : junk) (l : locals) (s : S) (p : astPackage) (confile : list Z)
    : cpp (Z * S * astPackage) :=
  s ← st_open s confile;
  '(nRet, cBuf) ← st_read s SECRETKEY (codes "agentid") (l_cBuf l) 127 (Some []);
  if nRet =? 0 then Ret (1, s, p)
  else
    '(aid, nAIDLen) ← decode_str cBuf (m_AgentID p) LENGTH_AID;
    n ← trim_zeros aid (Z.to_nat nAIDLen);
    let p := with_aid p aid n in
    '(nRet, cBuf) ← st_read s SECRETKEY (codes "uuid") cBuf 127 (Some []);
    if nRet =? 0 then Ret (2, s, p)
    else
      u ← c_str cBuf;
      uuid ← strncpy (m_UUID p) u 40;
      uuid ← buf_write uuid 40 [0];
      let p := with_uuid p uuid in
      '(nRet, cBuf) ← st_read s SECRETKEY (codes "ka") cBuf 127 (Some []);
      if nRet =? 0 then Ret (3, s, p)
      else
        '(cEKA, nEKA) ← decode_str cBuf (l_cEKA l) 64;
        if negb (nEKA =? 48) then Ret (3, s, p)
        else
          idlen ← strlen (m_UUID p);
          '(nRet, cKA, nKA) ← DecryptByID j p cEKA nEKA (m_UUID p) idlen 0 (l_cKA l) nEKA;
          if negb (nRet =? 0) || negb (nKA =? LENGTH_KA) then Ret (5, s, p)
          else
            '(nRet, cBuf) ← st_read s SECRETKEY (codes "mac") cBuf 127 (Some []);
            if nRet =? 0 then Ret (4, s, p)
            else
              '(cMAC, nMAC) ← decode_str cBuf (l_cMAC l) 32;
              cMac ← conf_mac p cKA;
              ne ← memcmp_ne cMAC cMac 32;
              if (ne : bool) then Ret (6, s, p)
              else
                k ← memcpy (m_KA p) 0 cKA 0 LENGTH_KA;
                Ret (0, s, with_key p k).

Definition SaveConf (j : junk) (l : locals) (s : S) (p : astPackage) (confile : list Z) : cpp (Z * S) :=
  s ← st_open s confile;
  cAID ← encode (m_AgentID p) LENGTH_AID (l_cAID l);
  v ← c_str cAID;
  '(_, s) ← st_write s SECRETKEY (codes "agentid") v;
  u ← c_str (m_UUID p);
  '(_, s) ← st_write s SECRETKEY (codes "uuid") u;
  cMac ← conf_mac p (m_KA p);
  cBuf ← encode cMac 32 (l_cBuf l);
  v ← c_str cBuf;
  '(_, s) ← st_write s SECRETKEY (codes "mac") v;
  idlen ← strlen (m_UUID p);
  '(_, cEnKey, nEnKey, _) ← EncryptByID j p (m_KA p) LENGTH_KA (m_UUID p) idlen 0 (l_cKA l) 128 cMac;
  cBuf ← encode cEnKey nEnKey cBuf;
  v ← c_str cBuf;
  '(_, s) ← st_write s SECRETKEY (codes "ka") v;
  Ret (0, s).

(** ** What they compute *)

(** A value read into a large enough buffer is a terminated string. *)
Lemma cut_cstring (buf v : list Z) size : (length v < Z.to_nat size <= length buf)%nat -> exists r,
  splice buf 0 (cut_value size v) = v ++ 0 :: r /\ length (splice buf 0 (cut_value size v)) = length buf.
Proof.
  intros Hl. unfold cut_value. rewrite take_ge by lia.
  replace (Z.to_nat size - length v)%nat with (Datatypes.S (Z.to_nat size - length v - 1)) by lia. cbn [replicate].
  eexists. split.
  - unfold splice. rewrite take_0, app_nil_l, <- app_assoc. cbn [app]. reflexivity.
  - apply length_splice. rewrite length_app. cbn [length]. rewrite length_replicate. lia.
Qed.

Lemma plain_text v : plain v -> Forall (fun c => c <> 0) v.
Proof. intros Hv. eapply Forall_impl; [exact Hv|]. unfold text_char. simpl. lia. Qed.

Lemma b64_plain x : Forall is_u8 x -> plain (b64 x).
Proof.
  intros Hx. assert (forall v, 0 <= v < 64 -> text_char (dg v) /\ dg v <> 37) as Hdg.
  { intros v Hv. assert (forallb (fun v => (42 <? dg v) && (dg v <? 123)) (seqZ 0 64) = true) as E by (vm_compute; reflexivity).
    rewrite forallb_forall in E. specialize (E v ltac:(apply list_elem_of_In, elem_of_seqZ; lia)).
    apply andb_true_iff in E as [E1 E2]. apply Z.ltb_lt in E1, E2. unfold text_char. lia. }
  assert (text_char 61 /\ 61 <> 37) as H61 by (unfold text_char; lia).
  unfold plain. induction x as [x IH] using (induction_ltof1 _ (@length Z)); unfold ltof in IH.
  assert (is_u8 0) as H0 by (unfold is_u8; lia).
  assert (forall a, is_u8 a -> 0 <= a / 4 < 64) as H4 by (unfold is_u8; intros; Z.div_mod_to_equations; lia).
  destruct x as [|a [|b [|c r]]]; [constructor|..].
  - apply Forall_cons in Hx as [Ha _]. destruct (b64_bounds a 0 Ha H0) as (_ & _ & _ & B1 & _).
    rewrite Z.add_0_r in B1. cbn [b64]. repeat (apply Forall_cons_2; [by auto|]). constructor.
  - apply Forall_cons in Hx as [Ha Hx]. apply Forall_cons in Hx as [Hb _].
    destruct (b64_bounds a b Ha Hb) as (_ & _ & _ & B1 & _).
    destruct (b64_bounds b 0 Hb H0) as (_ & _ & _ & _ & B2). rewrite Z.add_0_r in B2.
    cbn [b64]. repeat (apply Forall_cons_2; [by auto|]). constructor.
  - apply Forall_cons in Hx as [Ha Hx]. apply Forall_cons in Hx as [Hb Hx]. apply Forall_cons in Hx as [Hc Hr].
    destruct (b64_bounds a b Ha Hb) as (_ & _ & _ & B1 & _).
    destruct (b64_bounds b c Hb Hc) as (_ & _ & _ & _ & B2).
    destruct (b64_bounds c 0 Hc H0) as (_ & _ & B3 & _).
    cbn [b64 app]. repeat (apply Forall_cons_2; [by auto|]). apply IH; [simpl; lia|done].
Qed.

(** The trimmed length: up to the last byte that is not zero. *)
Fixpoint trimmed (rev_id : list Z) : nat :=
  match rev_id with
  | c :: r => if c =? 0 then trimmed r else Datatypes.S (length r)
  | [] => O
  end.

Lemma trim_zeros_ok id r : trim_zeros (id ++ r) (length id) = Ret (Z.of_nat (trimmed (rev id))).
Proof.
  revert r. induction id as [|c id IH] using rev_ind; intros r; [done|]. rewrite length_app, Nat.add_1_r, rev_app_distr. cbn [trim_zeros rev app trimmed].
  rewrite <- app_assoc. cbn [app]. rewrite buf_get_mid, bind_ret_l.
  destruct (c =? 0); [apply IH|]. rewrite length_rev. done.
Qed.

(** The identifier, key and name of a package. *)
Record identity (p : astPackage) (aid u key : list Z) : Prop := {
  id_aid : length aid = 16%nat /\ Forall is_u8 aid /\ take 16 (m_AgentID p) = aid;
  id_uuid : (length u <= 40)%nat /\ plain u /\ Forall is_u8 u /\ exists r, m_UUID p = u ++ 0 :: r;
  id_key : length key = 32%nat /\ Forall is_u8 key /\ m_KA p = key
}.

Record locals_ok (l : locals) : Prop := {
  lo_buf : length (l_cBuf l) = 128%nat;
  lo_eka : length (l_cEKA l) = 64%nat;
  lo_ka : length (l_cKA l) = 128%nat /\ Forall is_u8 (l_cKA l);
  lo_mac : length (l_cMAC l) = 32%nat;
  lo_aid : length (l_cAID l) = 64%nat
}.

(** What is stored: Base64 of the identifier, the name, the key under the
    root key, and the hash of all three. *)
Definition conf_key (ki u : list Z) : list Z := derive ki u.
Definition conf_hash (u aid key : list Z) : list Z := sm3_spec (u ++ aid ++ key).
Record stored (f : entries) (ki aid u key : list Z) : Prop := {
  sr_aid : f SECRETKEY (codes "agentid") = Some (b64 aid);
  sr_uuid : f SECRETKEY (codes "uuid") = Some u;
  sr_mac : f SECRETKEY (codes "mac") = Some (b64 (conf_hash u aid key));
  sr_ka : f SECRETKEY (codes "ka") = Some (b64 (encrypted (conf_key ki u) key))
}.

(** The package after loading; [ag] is the array that begins with the identifier. *)
Definition loaded (p : astPackage) (ag aid u key : list Z) : astPackage :=
  mk_astPackage (m_KI p) (splice (m_KA p) 0 key) false ag (Z.of_nat (trimmed (rev aid)))
    (splice (splice (m_UUID p) 0 (take 40 (u ++ replicate 40 0))) 40 [0]).

(** A terminated name of at most 40 characters. *)
Lemma uuid_buf (old u : list Z) : (length u <= 40)%nat -> length old = 64%nat -> exists r,
  splice (splice old 0 (take 40 (u ++ replicate 40 0))) 40 [0] = u ++ 0 :: r.
Proof.
  intros Hu Ho. assert (length (take 40 (u ++ replicate 40 0)) = 40%nat) as Ht
    by (rewrite length_take, length_app, length_replicate; lia).
  rewrite (splice_append old 0 40) by (rewrite Ht; cbn [length]; lia).
  unfold splice. rewrite take_0. cbn [app]. rewrite take_app_ge by lia. rewrite take_replicate, Nat.min_l by lia.
  rewrite <- !app_assoc. destruct (40 - length u)%nat as [|k] eqn:E; cbn [replicate app]; eexists; reflexivity.
Qed.

Lemma conf_mac_ok (p : astPackage) (ka u aid key : list Z) : (exists r, m_UUID p = u ++ 0 :: r) -> plain u -> Forall is_u8 u ->
  take 16 (m_AgentID p) = aid -> length aid = 16%nat -> Forall is_u8 aid ->
  take 32 ka = key -> length key = 32%nat -> Forall is_u8 key ->
  conf_mac p ka = Ret (conf_hash u aid key).
Proof.
  intros [r Eu] Hu Hu8 Ea Hal Ha8 Ek Hkl Hk8. unfold conf_mac. rewrite Eu, c_str_ok by by apply plain_text. rewrite bind_ret_l.
  apply (f_equal length) in Ea as Hla. apply (f_equal length) in Ek as Hlk. rewrite length_take in Hla, Hlk.
  unfold LENGTH_AID, LENGTH_KA. rewrite (buf_read_ok (m_AgentID p)) by lia. rewrite bind_ret_l.
  rewrite (buf_read_ok ka) by lia. rewrite bind_ret_l.
  change (slice (Z.to_nat 0) (Z.to_nat 16) (m_AgentID p)) with (take 16 (m_AgentID p)).
  change (slice (Z.to_nat 0) (Z.to_nat 32) ka) with (take 32 ka). rewrite Ea, Ek, hash_parts_ok by by repeat constructor.
  unfold conf_hash. simpl mjoin. by rewrite app_nil_r.
Qed.

Context `{!StoreLaws S}.

(** One entry read into [cBuf] and decoded. *)
Lemma read_entry path s f n key buf v : st_opened path s f n -> key <> [] -> length buf = 128%nat ->
  f SECRETKEY key = Some v -> (length v <= 126)%nat -> exists r,
  st_read s SECRETKEY key buf 127 (Some []) = Ret (1, v ++ 0 :: r) /\ length (v ++ 0 :: r) = 128%nat.
Proof.
  intros Hs Hk Hb Hv Hl. destruct (cut_cstring buf v 127) as (r & E & El); [rewrite Hb; change (Z.to_nat 127) with 127%nat; lia|].
  exists r. rewrite (st_read_ok path s f n SECRETKEY key buf 127 (Some []) v Hs) by (done || lia). rewrite E in *. split; [done|lia].
Qed.

Lemma decode_entry x r out cap : Forall is_u8 x -> (length x <= cap)%nat -> (cap <= length out)%nat -> exists out',
  decode_str (b64 x ++ 0 :: r) out (Z.of_nat cap) = Ret (out', Z.of_nat (length x)) /\
  length out' = length out /\ take (length x) out' = x.
Proof.
  intros Hx Hl Hc. destruct (decode_str_ok x r out cap Hx Hc) as (out' & E & Hlen & Ht). exists out'.
  rewrite Nat.min_r in E, Ht by lia. rewrite (take_ge x) in Ht by lia. done.
Qed.

Lemma LoadConf_ok j l s p path f n aid u key :
  st_holds path s f n -> stored f (m_KI p) aid u key -> junk_ok j -> pkg_ok p -> locals_ok l ->
  length aid = 16%nat -> Forall is_u8 aid -> (length u <= 40)%nat -> plain u -> Forall is_u8 u ->
  length key = 32%nat -> Forall is_u8 key ->
  exists s' ag, LoadConf j l s p path = Ret (0, s', loaded p ag aid u key) /\ st_opened path s' f n /\
    length ag = 64%nat /\ take 16 ag = aid.
Proof.
  intros Hs [Ga Gu Gm Gk] Hj Hp Hlo Hal Ha8 Hul Hu Hu8 Hkl Hk8. unfold LoadConf.
  destruct (st_open_ok path s f n Hs) as (s' & -> & Ho). rewrite bind_ret_l. exists s'.
  set (cKey := conf_key (m_KI p) u) in *. set (e := encrypted cKey key) in *.
  assert (length (pad_msg 1 key) = 48%nat) as Hpad by (by do 33 (destruct key; try done)).
  assert (length e = 48%nat) as He by (unfold e; by rewrite length_encrypted).
  pose proof (length_b64 aid) as La. rewrite Hal in La. pose proof (length_b64 e) as Le. rewrite He in Le.
  pose proof (length_b64 (conf_hash u aid key)) as Lm. unfold conf_hash in Lm at 2. rewrite length_sm3_spec in Lm. unfold SM3_DIGEST_LENGTH in Lm.
  change (4 * ((16 + 2) / 3))%nat with 24%nat in La. change (4 * ((48 + 2) / 3))%nat with 64%nat in Le.
  change (4 * ((32 + 2) / 3))%nat with 44%nat in Lm.
  destruct (read_entry path s' f n (codes "agentid") (l_cBuf l) _ Ho ltac:(done) (lo_buf l Hlo) Ga ltac:(lia)) as (r1 & -> & L1).
  rewrite bind_ret_l. cbv beta iota. cbn [Z.eqb].
  pose proof (pk_aid p Hp) as Hag. pose proof (pk_uuid p Hp) as Huu. destruct (pk_KA p Hp) as [Hka _].
  destruct (decode_entry aid r1 (m_AgentID p) 16 Ha8 ltac:(lia) ltac:(lia)) as (ag & Ed & Hagl & Hagt).
  unfold LENGTH_AID at 1. change (Z.of_nat 16) with 16 in Ed. rewrite Ed, bind_ret_l. cbv beta iota. clear Ed. exists ag.
  rewrite Hal, Nat2Z.id in *. assert (trim_zeros ag 16 = Ret (Z.of_nat (trimmed (rev aid)))) as ->.
  { pose proof (trim_zeros_ok aid (drop 16 ag)) as Et. rewrite Hal in Et. by rewrite <- Et, <- Hagt, take_drop. }
  rewrite bind_ret_l. cbv zeta.
  destruct (read_entry path s' f n (codes "uuid") _ u Ho ltac:(done) L1 Gu ltac:(lia)) as (r2 & -> & L2).
  rewrite bind_ret_l. cbv beta iota. cbn [Z.eqb]. rewrite c_str_ok by by apply plain_text. rewrite bind_ret_l.
  cbn [with_aid m_UUID]. unfold strncpy. change (Z.to_nat 40) with 40%nat.
  assert (length (take 40 (u ++ replicate 40 0)) = 40%nat) as H40
    by (rewrite length_take, length_app, length_replicate; lia).
  rewrite buf_write_ok by (rewrite ?H40; lia). rewrite bind_ret_l.
  rewrite buf_write_ok by (rewrite ?length_splice; rewrite ?H40; cbn [length]; lia). rewrite bind_ret_l. cbv zeta.
  change (Z.to_nat 0) with 0%nat. change (Z.to_nat 40) with 40%nat.
  destruct (uuid_buf (m_UUID p) u Hul Huu) as [ru Eu]. set (uu := splice (splice _ _ _) 40 [0]) in *.
  destruct (read_entry path s' f n (codes "ka") _ _ Ho ltac:(done) L2 Gk ltac:(lia)) as (r3 & -> & L3).
  rewrite bind_ret_l. cbv beta iota. cbn [Z.eqb].
  destruct (decode_entry e r3 (l_cEKA l) 64 (encrypted_u8 _ _) ltac:(lia) ltac:(rewrite (lo_eka l Hlo); lia)) as (ea & Ed & _ & Het).
  change (Z.of_nat 64) with 64 in Ed. rewrite Ed, bind_ret_l. cbv beta iota. clear Ed. rewrite He in *.
  cbn [with_uuid with_aid m_UUID m_AgentID m_KI m_KA m_bInit m_nAidLen]. change (negb (Z.of_nat 48 =? 48)) with false. cbv iota.
  rewrite Eu, strlen_ok by by apply plain_text. rewrite bind_ret_l.
  set (p2 := with_uuid _ _).
  assert (length uu = 64%nat) as Huul
    by (unfold uu; rewrite !length_splice; rewrite ?length_splice, ?H40; cbn [length]; lia).
  assert (pkg_ok p2) as Hp2.
  { destruct Hp as [K1 K2 K3 K4]. split; [exact K1|exact K2|cbn; lia|]. by rewrite <- Huul, Eu. }
  pose proof (DecryptByID_ok j p2 key ea (m_UUID p2) (Z.of_nat (length u)) 0 (l_cKA l) 48) as D. cbv zeta in D.
  rewrite Nat2Z.id in D. change (root_key p2 0) with (m_KI p) in D.
  assert (take (length u) (m_UUID p2) = u) as Htu by apply take_app_length.
  rewrite Htu in D. fold (conf_key (m_KI p) u) in D. fold cKey in D. fold e in D. rewrite Hpad in D.
  destruct (lo_ka l Hlo) as [Hkal Hka8].
  change (m_UUID p2) with (u ++ 0 :: ru) in D. change (Z.of_nat 48) with 48 in *.
  rewrite D; [|done|done|done|done|done|lia|rewrite length_app; cbn [length]; lia|exact Het|lia].
  rewrite bind_ret_l. cbv beta iota. rewrite Hkl. change (negb (0 =? 0) || negb (Z.of_nat 32 =? LENGTH_KA)) with false. cbv iota.
  destruct (read_entry path s' f n (codes "mac") _ _ Ho ltac:(done) L3 Gm ltac:(lia)) as (r4 & -> & L4).
  rewrite bind_ret_l. cbv beta iota. cbn [Z.eqb].
  assert (Forall is_u8 (conf_hash u aid key)) as Hch by apply sm3_spec_u8.
  assert (length (conf_hash u aid key) = 32%nat) as Hcl by apply length_sm3_spec.
  destruct (decode_entry (conf_hash u aid key) r4 (l_cMAC l) 32 Hch ltac:(lia) ltac:(rewrite (lo_mac l Hlo); lia))
    as (ma & Ed & Hmal & Hmat).
  change (Z.of_nat 32) with 32 in Ed. rewrite Ed, bind_ret_l. cbv beta iota. clear Ed. rewrite Hcl in *.
  assert (take 32 (splice (l_cKA l) 0 key) = key) as Hkt.
  { rewrite <- Hkl at 1. apply (take_splice _ 0). lia. }
  rewrite (conf_mac_ok p2 _ u aid key); try done; [|by eexists].
  rewrite bind_ret_l. rewrite take_ge in Hmat by (rewrite Hmal, (lo_mac l Hlo); lia). subst ma.
  assert (memcmp_ne (conf_hash u aid key) (conf_hash u aid key) 32 = Ret false) as ->.
  { unfold memcmp_ne. rewrite buf_read_ok by lia. rewrite !bind_ret_l. by rewrite bool_decide_eq_true_2. }
  rewrite bind_ret_l. rewrite memcpy_ok by (unfold LENGTH_KA; rewrite ?length_splice; lia || (cbn; lia)).
  rewrite bind_ret_l. split_and!; [|done|lia|done]. f_equal. unfold loaded, with_key, p2, with_uuid, with_aid.
  cbn [m_KI m_KA m_bInit m_AgentID m_nAidLen m_UUID].
  change (slice (Z.to_nat 0) (Z.to_nat LENGTH_KA) (splice (l_cKA l) 0 key)) with (take 32 (splice (l_cKA l) 0 key)).
  rewrite Hkt. fold uu. by rewrite Eu.
Qed.

Lemma encode_c_str (out x : list Z) : Forall is_u8 x -> (length (b64 x) < length out)%nat ->
  c_str (splice out 0 (b64 x ++ [0])) = Ret (b64 x).
Proof.
  intros Hx Hl. unfold splice. rewrite take_0, app_nil_l, <- app_assoc. cbn [app].
  apply c_str_ok. by apply b64_nonzero.
Qed.

Lemma encode_entry x tail out : Forall is_u8 (x ++ tail) -> (length (b64 x) < length out)%nat ->
  encode (x ++ tail) (Z.of_nat (length x)) out = Ret (splice out 0 (b64 x ++ [0])).
Proof.
  intros Hx Hl. pose proof (encode_ok (x ++ tail) (Z.of_nat (length x)) out Hx) as E. cbv zeta in E.
  rewrite Nat2Z.id, take_app_length in E. apply E; [rewrite length_app; lia|done].
Qed.

(** The four entries do not interfere. *)
Definition conf_keys : list (list Z) := [codes "agentid"; codes "uuid"; codes "mac"; codes "ka"].

Lemma write_entry path s f n key v : st_opened path s f n -> In key conf_keys -> plain v ->
  (length key + length v + 15 <= n)%nat -> exists s' f',
  st_write s SECRETKEY key v = Ret (1, s') /\ st_opened path s' f' (n - (length key + length v + 15)) /\
  f' SECRETKEY key = Some v /\ (forall sec' key', head key <> head key' -> f' sec' key' = f sec' key').
Proof.
  intros Ho Hk Hv Hn.
  assert (forallb (fun k => bool_decide (key_ok k /\ plain k) &&
    negb (existsb (fun h => bool_decide (h = head k)) [Some 105; Some 112; Some 116; Some 108])) conf_keys = true) as Hall
    by (vm_compute; reflexivity).
  rewrite forallb_forall in Hall. specialize (Hall key Hk). apply andb_true_iff in Hall as [Hkey Hhd].
  apply bool_decide_eq_true_1 in Hkey as [Hkey Hpl].
  assert (length SECRETKEY = 9%nat) as Hs9 by reflexivity.
  destruct (st_write_ok path s f n SECRETKEY key v Ho) as (s' & f' & Hw & Ho' & Hf & Hfr).
  - split; [split; [done|split; eval_decide]|done|done].
  - intros Hin. apply negb_true_iff in Hhd. assert (existsb (fun h => bool_decide (h = head key))
      [Some 105; Some 112; Some 116; Some 108] = true) as Ht; [|by rewrite Hhd in Ht].
    apply existsb_exists. exists (head key). split; [done|by apply bool_decide_eq_true_2].
  - unfold cost. lia.
  - exists s', f'. split_and!; try done. unfold cost in Ho'. rewrite Hs9 in Ho'.
    by replace (length key + length v + 15)%nat with (9 + length key + length v + 6)%nat by lia.
Qed.

Lemma SaveConf_ok j l s p path f n aid u key :
  st_holds path s f n -> (300 <= n)%nat -> identity p aid u key -> junk_ok j -> pkg_ok p -> locals_ok l ->
  Forall is_u8 (m_AgentID p) ->
  exists s' f' n', SaveConf j l s p path = Ret (0, s') /\ st_opened path s' f' n' /\
    stored f' (m_KI p) aid u key /\
    (forall sec' key', ~ In (head key') (head <$> conf_keys) -> f' sec' key' = f sec' key').
Proof.
  intros Hs Hn [(Hal & Ha8 & Ha) (Hul & Hu & Hu8 & r & Eu) (Hkl & Hk8 & Ek)] Hj Hp Hlo Hag8. unfold SaveConf.
  destruct (st_open_ok path s f n Hs) as (s0 & -> & Ho). rewrite bind_ret_l.
  set (e := encrypted (conf_key (m_KI p) u) key).
  assert (length (pad_msg 1 key) = 48%nat) as Hpad by (clear -Hkl; by do 33 (destruct key; try done)).
  assert (length e = 48%nat) as He by (unfold e; by rewrite length_encrypted).
  assert (length (conf_hash u aid key) = 32%nat) as Hcl by apply length_sm3_spec.
  assert (Forall is_u8 (conf_hash u aid key)) as Hc8 by apply sm3_spec_u8.
  pose proof (length_b64 aid) as La. rewrite Hal in La. pose proof (length_b64 e) as Le. rewrite He in Le.
  pose proof (length_b64 (conf_hash u aid key)) as Lm. rewrite Hcl in Lm.
  change (4 * ((16 + 2) / 3))%nat with 24%nat in La. change (4 * ((48 + 2) / 3))%nat with 64%nat in Le.
  change (4 * ((32 + 2) / 3))%nat with 44%nat in Lm.
  destruct Hlo as [Lb _ [Lk Lk8] _ Laid].
  assert (m_AgentID p = aid ++ drop 16 (m_AgentID p)) as Eag by (by rewrite <- Ha, take_drop).
  assert (encode (m_AgentID p) LENGTH_AID (l_cAID l) = Ret (splice (l_cAID l) 0 (b64 aid ++ [0]))) as ->.
  { pose proof (encode_entry aid (drop 16 (m_AgentID p)) (l_cAID l)) as E. rewrite <- Eag, Hal in E. apply E; [done|lia]. }
  rewrite bind_ret_l, encode_c_str by (done || lia). rewrite bind_ret_l.
  destruct (write_entry path s0 f n (codes "agentid") (b64 aid) Ho) as (s1 & f1 & -> & O1 & F1 & R1);
    [by left|by apply b64_plain|rewrite La; cbn; lia|]. rewrite bind_ret_l. cbv beta iota.
  rewrite Eu, c_str_ok by by apply plain_text. rewrite bind_ret_l.
  destruct (write_entry path s1 f1 _ (codes "uuid") u O1) as (s2 & f2 & -> & O2 & F2 & R2);
    [by right; left|done|rewrite La; cbn; lia|]. rewrite bind_ret_l. cbv beta iota.
  rewrite (conf_mac_ok p (m_KA p) u aid key) by (done || (by eexists) || (rewrite Ek, take_ge by lia; done)).
  rewrite bind_ret_l.
  assert (encode (conf_hash u aid key) 32 (l_cBuf l) = Ret (splice (l_cBuf l) 0 (b64 (conf_hash u aid key) ++ [0]))) as ->.
  { pose proof (encode_entry (conf_hash u aid key) [] (l_cBuf l)) as E. rewrite app_nil_r, Hcl in E. apply E; [done|lia]. }
  rewrite bind_ret_l, encode_c_str by (done || lia). rewrite bind_ret_l.
  destruct (write_entry path s2 f2 _ (codes "mac") (b64 (conf_hash u aid key)) O2) as (s3 & f3 & -> & O3 & F3 & R3);
    [by right; right; left|by apply b64_plain|rewrite La, Lm; cbn; lia|]. rewrite bind_ret_l. cbv beta iota.
  rewrite strlen_ok by by apply plain_text. rewrite bind_ret_l.
  pose proof (EncryptByID_ok j p (m_KA p) LENGTH_KA (u ++ 0 :: r) (Z.of_nat (length u)) 0 (l_cKA l) 128 (conf_hash u aid key)) as E.
  cbv zeta in E. rewrite Nat2Z.id, take_app_length in E. change (root_key p 0) with (m_KI p) in E.
  change (Z.to_nat LENGTH_KA) with 32%nat in E. rewrite Ek, (take_ge key) in E by lia.
  fold (conf_key (m_KI p) u) in E. fold e in E. rewrite Hpad in E. rewrite Ek.
  rewrite E; [|done|done|done|done|done|unfold LENGTH_KA; lia|done|rewrite length_app; cbn [length]; lia|lia|lia].
  rewrite bind_ret_l. cbv beta iota.
  assert (splice (l_cKA l) 0 e = e ++ drop 48 (l_cKA l)) as -> by (unfold splice; by rewrite He).
  pose proof (encode_entry e (drop 48 (l_cKA l)) (splice (l_cBuf l) 0 (b64 (conf_hash u aid key) ++ [0]))) as E2.
  rewrite He in E2. rewrite E2.
  2:{ apply Forall_app_2; [apply encrypted_u8|by apply Forall_drop]. }
  2:{ rewrite length_splice; rewrite ?length_app; cbn [length]; lia. }
  rewrite bind_ret_l, encode_c_str; [|apply encrypted_u8|rewrite length_splice; rewrite ?length_app; cbn [length]; lia].
  rewrite bind_ret_l.
  destruct (write_entry path s3 f3 _ (codes "ka") (b64 e) O3) as (s4 & f4 & -> & O4 & F4 & R4);
    [by right; right; right; left|by apply b64_plain, encrypted_u8|rewrite La, Lm, Le; cbn; lia|].
  rewrite bind_ret_l. cbv beta iota. exists s4, f4. eexists. split_and!; [reflexivity|exact O4| |].
  - split; fold e; rewrite ?R4, ?R3, ?R2, ?R1 by (vm_compute; discriminate); done.
  - intros sec' key' Hni. rewrite R4, R3, R2, R1; [done|..]; intros E'; apply Hni; rewrite <- E'; vm_compute; tauto.
Qed.
End conf.
