(* ===== verification/AstAgent.v ===== *)
(** * The life of an agent's key (astpackage.cpp)

    The packet class as a state machine: construction, [InitKA], registration
    and loading of the stored key in any order, and what its keyed operations
    do before a key is there.  With the round trip of the stored key. *)
From S2P Require Import Prelude Words Buffers CString Sm3 Sm4 Sm4Stream Base64 AstPackage Ini IniDoc IniFile AstConfig AstConf.

#[local] Opaque sm3_spec SM3.

(** ** Partial loops keep invariants *)

Lemma cwhile_Ret {A} (cond : A -> bool) (body : A -> cpp A) (I : A -> Prop) :
  (forall s s', I s -> body s = Ret s' -> I s') ->
  forall fuel s s', I s -> cwhile fuel cond body s = Ret s' -> I s'.
Proof.
  intros Hb. induction fuel as [|n IH]; intros s s' Hs; cbn [cwhile]; destruct (cond s); try done.
  - by intros [= <-].
  - intros H. cpp_inv H. eapply IH; [|exact H]. by eapply Hb.
  - by intros [= <-].
Qed.

Lemma cfor_Ret {A} (body : nat -> A -> cpp A) (I : A -> Prop) :
  (forall i s s', I s -> body i s = Ret s' -> I s') ->
  forall n i s s', I s -> cfor body n i s = Ret s' -> I s'.
Proof.
  intros Hb. induction n as [|n IH]; intros i s s' Hs; cbn [cfor]; [by intros [= <-]|].
  intros H. cpp_inv H. eapply IH; [|exact H]. by eapply Hb.
Qed.

Lemma decode_length code len out cap out' n : decode code len out cap = Ret (out', n) -> length out' = length out.
Proof.
  unfold decode. intros H. cpp_inv H. destruct a as [[[i o] b] st]. injection H as <- <-.
  assert ((fun '(_, _, b, _) => length b = length out) (i, o, b, st)); [|done].
  refine (cwhile_Ret _ _ (fun '(_, _, b, _) => length b = length out) _ _ _ (i, o, b, st) _ Hr); [|reflexivity].
  intros [[[i1 o1] b1] st1] [[[i2 o2] b2] st2] Hl E. unfold decode_step in E. cpp_inv E.
  destruct (64 <=? a0); [by injection E as _ _ <- _|]. cbv zeta in E.
  repeat case_match; cpp_inv E; injection E as _ _ <- _;
    repeat match goal with
    | X : buf_write _ _ _ = Ret _ |- _ => apply buf_write_length in X
    | X : Ret _ = Ret _ |- _ => injection X as <-
    end; congruence.
Qed.

Lemma AToByte_length asc out n out' : AToByte asc out n = Ret out' -> length out' = length out.
Proof.
  unfold AToByte. intros H. cpp_inv H. destruct a as [p b]. injection H as <-.
  assert ((fun '(_, b) => length b = length out) (p, b)); [|done].
  refine (cfor_Ret _ (fun '(_, b) => length b = length out) _ _ _ _ (p, b) _ Hr); [|reflexivity].
  intros i [p1 b1] [p2 b2] Hl E. cpp_inv E. injection E as _ <-.
  match goal with X : buf_write _ _ _ = Ret _ |- _ => apply buf_write_length in X end. congruence.
Qed.

Lemma memcpy_length (d : list Z) doff s soff n d' : memcpy d doff s soff n = Ret d' -> length d' = length d.
Proof. unfold memcpy. intros H. cpp_inv H. by eapply buf_write_length. Qed.

(** ** One step *)

(** The arrays of the class keep their sizes, the constant key its value. *)
Record sizes (p : astPackage) : Prop := {
  sz_KI : length (m_KI p) = 32%nat;
  sz_KA : length (m_KA p) = 32%nat;
  sz_aid : length (m_AgentID p) = 64%nat;
  sz_uuid : length (m_UUID p) = 64%nat
}.

(** What an attempt to obtain a key may do, by the status it reports. *)
Record attempt (p : astPackage) (r : Z) (p' : astPackage) : Prop := {
  at_KI : m_KI p' = m_KI p;
  at_sizes : sizes p -> sizes p';
  at_fail : r <> 0 -> m_KA p' = m_KA p /\ m_bInit p' = m_bInit p;
  at_ok : r = 0 -> m_bInit p' = false
}.

Lemma attempt_refl p r : r <> 0 -> attempt p r p.
Proof. by split. Qed.

Lemma InitReg_attempt j t o m p aid ka mka id idlen r p' :
  InitReg j t o m p aid ka mka id idlen = Ret (r, p') -> attempt p r p' /\ (r <> 0 -> p' = p).
Proof.
  unfold InitReg. intros H.
  do 3 (cpp_open H; cpp_test H; [injection H as <- <-; split; [by apply attempt_refl|done]|]).
  cpp_open H. injection H as <- <-. split; [|done].
  repeat match goal with
  | X : memcpy _ _ _ _ _ = Ret _ |- _ => apply memcpy_length in X
  | X : AToByte _ _ _ = Ret _ |- _ => apply AToByte_length in X
  | X : memset _ _ _ _ = Ret _ |- _ => unfold memset in X; case_decide; [apply buf_write_length in X|done]
  end.
  split; cbn [m_KI m_KA m_bInit m_AgentID m_UUID]; [done| |done|done].
  intros []. split; cbn [m_KI m_KA m_bInit m_AgentID m_UUID]; congruence.
Qed.

Lemma LoadConf_attempt {S} `{Store S} j l (s : S) p path r s' p' :
  LoadConf j l s p path = Ret (r, s', p') -> attempt p r p'.
Proof.
  unfold LoadConf. intros E. cpp_open E. cpp_test E; [injection E as <- <- <-; by apply attempt_refl|].
  cpp_open E.
  assert (forall q, m_KI q = m_KI p -> m_KA q = m_KA p -> m_bInit q = m_bInit p -> length (m_AgentID q) = length (m_AgentID p) ->
    length (m_UUID q) = length (m_UUID p) -> forall r, r <> 0 -> attempt p r q) as Hfail.
  { intros q E1 E2 E3 E4 E5 r0 Hr0'. split; try done. intros []. split; congruence. }
  match goal with X : decode_str _ _ _ = Ret _ |- _ => unfold decode_str in X; cpp_open X; apply decode_length in X end.
  cpp_test E; [injection E as <- <- <-; by apply Hfail|]. cpp_open E.
  repeat match goal with
  | X : strncpy _ _ _ = Ret _ |- _ => unfold strncpy in X
  | X : buf_write _ _ _ = Ret _ |- _ => apply buf_write_length in X; cbn [with_aid m_UUID] in X
  end.
  do 5 (cpp_test E; [injection E as <- <- <-; apply Hfail; cbn; congruence|]; cpp_open E).
  injection E as <- <- <-.
  match goal with X : memcpy _ _ _ _ _ = Ret _ |- _ => apply memcpy_length in X end. cbn in *.
  split; cbn; [done| |done|done]. intros []. split; cbn; congruence.
Qed.

(** ** Histories *)

(** The states an agent goes through, with whether some attempt succeeded. *)
Inductive history {S} `{Store S} : bool -> astPackage -> Prop :=
| constructed junkKI uuid p :
    length junkKI = 32%nat -> length uuid = 64%nat -> new_astPackage junkKI uuid = Ret p -> history false p
| ka_set b p ka p' : history b p -> InitKA p ka = Ret p' -> history b p'
| registers b p j t o m aid ka mka id idlen r p' :
    history b p -> InitReg j t o m p aid ka mka id idlen = Ret (r, p') -> history (b || (r =? 0)) p'
| loads b p j l (s : S) path r s' p' :
    history b p -> LoadConf j l s p path = Ret (r, s', p') -> history (b || (r =? 0)) p'.

Definition agent_inv (b : bool) (p : astPackage) : Prop :=
  sizes p /\ m_KI p = sm3_spec (codes "20181009") /\ m_bInit p = negb b.

Lemma attempt_inv b p r p' : attempt p r p' -> agent_inv b p -> agent_inv (b || (r =? 0)) p'.
Proof.
  intros [A1 A2 A3 A4] (Hs & Hk & Hb). split_and!; [by apply A2|congruence|].
  destruct (Z.eqb_spec r 0) as [->|Hr]; [rewrite orb_true_r; by apply A4|].
  rewrite orb_false_r. destruct (A3 Hr) as [_ ->]. done.
Qed.

Lemma Ret_inj {A} (x y : A) : Ret x = Ret y -> x = y.
Proof. congruence. Qed.

Lemma constructed_inv junkKI uuid p : length junkKI = 32%nat -> length uuid = 64%nat ->
  new_astPackage junkKI uuid = Ret p -> agent_inv false p.
Proof.
  intros Hj Hu E. unfold new_astPackage in E. cpp_inv E. injection E as <-.
  assert (a = sm3_spec (codes "20181009")) as ->.
  { rewrite SM3_ok in Hr by (rewrite ?Hj; eval_decide || lia).
    change (take (Z.to_nat 8) (codes "20181009")) with (codes "20181009") in Hr.
    apply Ret_inj in Hr. rewrite splice_all in Hr by (rewrite Hj, length_sm3_spec; reflexivity). by symmetry. }
  split_and!; [|reflexivity|reflexivity].
  split; cbn [m_KI m_KA m_AgentID m_UUID]; [apply length_sm3_spec|reflexivity|reflexivity|exact Hu].
Qed.

Lemma history_inv {S} `{Store S} b p : history (S := S) b p -> agent_inv b p.
Proof.
  induction 1 as [junkKI uuid p Hj Hu E|b p ka p' _ IH E|b p j t o m aid ka mka id idlen r p' _ IH E|b p j l s path r s' p' _ IH E].
  - by eapply constructed_inv.
  - destruct IH as ([] & Hk & Hb). unfold InitKA in E. cpp_inv E. injection E as <-. apply memcpy_length in Hr.
    split_and!; [split; cbn; congruence|done|done].
  - apply InitReg_attempt in E as [Ha _]. by eapply attempt_inv.
  - apply LoadConf_attempt in E. by eapply attempt_inv.
Qed.

(** ** Properties *)

(** C13: through any sequence of construction, [InitKA], registrations and
    loads, whatever their arguments and outcomes: the arrays keep their sizes,
    the root key stays the hash of the constant, and the object is initialised
    exactly when some registration or load reported success.  Before that,
    every operation under the agent's key is refused with -1 and changes
    nothing; a failed registration changes nothing at all. *)
Theorem agent_lifecycle {S} `{Store S} b p : history (S := S) b p ->
  sizes p /\ m_KI p = sm3_spec (codes "20181009") /\ m_bInit p = negb b /\
  (b = false ->
    (forall j data ver type flag sid aid i out outlen, i <> 0 ->
       PutData j p data ver type flag sid aid i out outlen = Ret (-1, out, outlen)) /\
    (forall j msg msglen i g, i <> 0 -> GetData j p msg msglen i g = Ret (-1, msg, g)) /\
    (forall data datalen id idlen mac, MacByID p data datalen id idlen 1 mac = Ret (-1, mac)) /\
    (forall j data datalen id idlen out outlen mac,
       EncryptByID j p data datalen id idlen 1 out outlen mac = Ret (-1, out, outlen, mac)) /\
    (forall j edata edatalen id idlen out outlen, 16 <= edatalen ->
       DecryptByID j p edata edatalen id idlen 1 out outlen = Ret (-1, out, outlen))) /\
  (forall j t o m aid ka mka id idlen r p', InitReg j t o m p aid ka mka id idlen = Ret (r, p') -> r <> 0 -> p' = p).
Proof.
  intros Hh. destruct (history_inv b p Hh) as (Hs & Hk & Hb).
  split; [exact Hs|]. split; [exact Hk|]. split; [exact Hb|]. split.
  - intros ->. cbn [negb] in Hb. assert (forall i, i <> 0 -> (i =? 0) = false) as Hi by (intros i ?; by apply Z.eqb_neq).
    split_and!; intros; unfold PutData, GetData, MacByID, EncryptByID, DecryptByID; rewrite Hb; cbn [andb].
    + by rewrite Hi.
    + by rewrite Hi.
    + done.
    + done.
    + by replace (edatalen <? 16) with false by lia.
  - intros j t o m aid ka mka id idlen r p' E Hr. by apply (InitReg_attempt _ _ _ _ _ _ _ _ _ _ _ _ E).
Qed.

Lemma agent_lifecycle_witness : exists p, history (S := files * astConfig) false p /\
  GetData sample_junk p [] 0 1 sample_out = Ret (-1, [], sample_out).
Proof.
  assert (exists p, new_astPackage (replicate 32 7) (replicate 64 7) = Ret p) as [p E].
  { unfold new_astPackage. rewrite SM3_ok; [|eval_decide|eval_decide|eval_decide].
    eexists. rewrite bind_ret_l. reflexivity. }
  exists p. assert (history (S := files * astConfig) false p) as Hh.
  { eapply constructed; [| |exact E]; reflexivity. }
  split; [exact Hh|].
  destruct (agent_lifecycle (S := files * astConfig) false p Hh) as (_ & _ & _ & H & _).
  apply (proj1 (proj2 (H eq_refl))). discriminate.
Defined.

(** C12: a key that was saved is loaded again.  On any configuration store
    that keeps what is written, [SaveConf] of an agent stores its identifier,
    name and key (the key encrypted, all under a MAC) without touching other
    entries, and [LoadConf] by an agent with the same constant key then
    reports success, leaves the initial state and holds the saved key,
    identifier and name. *)
Theorem conf_save_load {S} `{StoreLaws S} j j' l l' (s : S) p q path f n aid u key :
  st_holds path s f n -> (300 <= n)%nat -> identity p aid u key -> m_KI q = m_KI p ->
  junk_ok j -> junk_ok j' -> pkg_ok p -> pkg_ok q -> locals_ok l -> locals_ok l' -> Forall is_u8 (m_AgentID p) ->
  exists s1 f1 n1, SaveConf j l s p path = Ret (0, s1) /\ st_holds path s1 f1 n1 /\
    (forall sec' key', ~ In (head key') (head <$> conf_keys) -> f1 sec' key' = f sec' key') /\
    exists s2 q', LoadConf j' l' s1 q path = Ret (0, s2, q') /\
      m_KA q' = key /\ take 16 (m_AgentID q') = aid /\ m_bInit q' = false /\ m_KI q' = m_KI p /\
      exists r, m_UUID q' = u ++ 0 :: r.
Proof.
  intros Hs Hn Hid Hki Hj Hj' Hp Hq Hl Hl' Hag8.
  destruct (SaveConf_ok j l s p path f n aid u key Hs Hn Hid Hj Hp Hl Hag8) as (s1 & f1 & n1 & E & Ho & Hst & Hfr).
  exists s1, f1, n1. split; [done|]. split; [by apply st_opened_holds|]. split; [done|].
  destruct Hid as [(Hal & Ha8 & _) (Hul & Hu & Hu8 & _) (Hkl & Hk8 & _)]. rewrite <- Hki in Hst.
  destruct (LoadConf_ok j' l' s1 q path f1 n1 aid u key) as (s2 & ag & E2 & _ & Hagl & Hagt); try done.
  { by apply st_opened_holds. }
  exists s2, (loaded q ag aid u key). split; [done|]. cbn [loaded m_KA m_AgentID m_bInit m_KI m_UUID].
  destruct (pk_KA q Hq) as [Hqk _]. pose proof (pk_uuid q Hq) as Hqu. split_and!; try done.
  - apply splice_all. lia.
  - destruct (uuid_buf (m_UUID q) u Hul Hqu) as [r Er]. exists r. exact Er.
Qed.

Definition sample_locals : locals :=
  mk_locals (replicate 128 7) (replicate 64 7) (replicate 128 7) (replicate 32 7) (replicate 64 7).
Definition sample_agent : astPackage :=
  mk_astPackage (replicate 32 5) (replicate 32 6) false (replicate 64 3) 16 (codes "agent-1" ++ replicate 57 0).
Definition new_agent : astPackage :=
  mk_astPackage (replicate 32 5) (replicate 32 0) true (replicate 64 0) 0 (replicate 64 9).
Definition agent_doc : ini_doc := mk_doc [] [mk_section (codes "SERVER") [codes "ip=10.0.0.1"; codes "port=11001"]].
Definition agent_store : files * astConfig :=
  ({[ sample_path := print_doc agent_doc ]}, mk_astConfig (replicate 32 7) 0 0 0 0 []).

Lemma agent_store_holds : file_holds sample_path agent_store (doc_get agent_doc) 400.
Proof.
  split; [reflexivity|]. split.
  - split; unfold int_entry; [exists 11001|..]; vm_compute; reflexivity || exact I.
  - exists agent_doc. split; [apply lookup_singleton_eq|]. split; [split; eval_decide|].
    split; [reflexivity|]. split; eval_decide.
Qed.

Lemma conf_save_load_witness : exists s1 s2 q',
  SaveConf sample_junk sample_locals agent_store sample_agent sample_path = Ret (0, s1) /\
  LoadConf sample_junk sample_locals s1 new_agent sample_path = Ret (0, s2, q') /\
  m_KA q' = replicate 32 6 /\ take 16 (m_AgentID q') = replicate 16 3 /\ m_bInit q' = false.
Proof.
  destruct (conf_save_load sample_junk sample_junk sample_locals sample_locals agent_store sample_agent new_agent sample_path
    (doc_get agent_doc) 400 (replicate 16 3) (codes "agent-1") (replicate 32 6))
    as (s1 & f1 & n1 & H1 & _ & _ & s2 & q' & H2 & H3 & H4 & H5 & _).
  1: exact agent_store_holds.
  1: eval_decide.
  1: split; [split; [|split]|split; [|split; [|split; [|exists (replicate 56 0)]]]|split; [|split]];
     try reflexivity; eval_decide.
  1: reflexivity.
  1: exact sample_junk_ok.
  1: exact sample_junk_ok.
  1: split; try split; eval_decide.
  1: split; try split; eval_decide.
  1: split; try split; eval_decide.
  1: split; try split; eval_decide.
  1: eval_decide.
  exists s1, s2, q'. split; [exact H1|]. split; [exact H2|]. split; [exact H3|]. split; [exact H4|exact H5].
Defined.
