(* ===== verification/StdMap.v ===== *)
(** * std::map

    The ordered associative container of the C++ library, as the list of its
    pairs in increasing key order.  The key type brings the [operator<] and
    [operator==] the container calls (class [Key]); the laws of a key order
    are a second class, so that the operations stay executable and the lemmas
    name what they rely on.  The instances are the two kinds of key of
    [Json::Value::CZString]: an index and a C string. *)
From Stdlib Require Import Sorted.
From S2P Require Import Prelude Words Buffers CString.

Class Key (K : Type) := { key_lt : K -> K -> bool; key_eq : K -> K -> bool }.

Class KeyLaws (K : Type) `{Key K} := {
  key_eq_spec (k l : K) : key_eq k l = true <-> k = l;
  key_lt_irrefl (k : K) : key_lt k k = false;
  key_lt_trans (k l m : K) : key_lt k l = true -> key_lt l m = true -> key_lt k m = true;
  key_lt_total (k l : K) : key_lt k l = false -> key_lt l k = false -> k = l
}.

Definition stdmap (K V : Type) := list (K * V).

Section ops.
Context {K V : Type} `{Key K}.
Implicit Types m : stdmap K V.

(** [find]: the element [lower_bound] stops at, if its key is the one sought. *)
Fixpoint map_find (k : K) m : option V :=
  match m with
  | [] => None
  | (l, v) :: r => if key_lt l k then map_find k r else if key_eq l k then Some v else None
  end.

(** [it = lower_bound(k); if found f(it->second) else insert(it, k, f(nothing))]. *)
Fixpoint map_update (k : K) (f : option V -> V) m : stdmap K V :=
  match m with
  | [] => [(k, f None)]
  | (l, v) :: r =>
      if key_lt l k then (l, v) :: map_update k f r
      else if key_eq l k then (l, f (Some v)) :: r else (k, f None) :: m
  end.

(** [erase(k)]. *)
Fixpoint map_erase (k : K) m : stdmap K V :=
  match m with
  | [] => []
  | (l, v) :: r =>
      if key_lt l k then (l, v) :: map_erase k r else if key_eq l k then r else m
  end.

(** The keys increase. *)
Definition map_sorted m : Prop := StronglySorted (fun k l => key_lt k l = true) m.*1.
End ops.

#[global] Instance index_key : Key Z := { key_lt := Z.ltb; key_eq := Z.eqb }.

#[global] Instance index_key_laws : KeyLaws Z.
Proof. split; cbn; intros; lia. Qed.

(** [strcmp(s, t) < 0]: the first difference decides, as unsigned bytes. *)
Fixpoint strcmp_lt (s t : list Z) : bool :=
  match s, t with
  | [], [] => false
  | [], _ :: _ => true
  | _ :: _, [] => false
  | c :: s', d :: t' => if c =? d then strcmp_lt s' t' else c <? d
  end.

(** [strcmp(s, t) == 0]. *)
Fixpoint strcmp_eq (s t : list Z) : bool :=
  match s, t with
  | [], [] => true
  | c :: s', d :: t' => (c =? d) && strcmp_eq s' t'
  | _, _ => false
  end.

#[global] Instance string_key : Key (list Z) := { key_lt := strcmp_lt; key_eq := strcmp_eq }.

Lemma strcmp_eq_spec s t : strcmp_eq s t = true <-> s = t.
Proof.
  revert t. induction s as [|c s IH]; intros [|d t]; cbn; try done.
  rewrite andb_true_iff, IH, Z.eqb_eq. split; [intros [-> ->]; done|by intros [= -> ->]].
Qed.

#[global] Instance string_key_laws : KeyLaws (list Z).
Proof.
  split; cbn.
  - apply strcmp_eq_spec.
  - intros s. induction s as [|c s IH]; cbn; [done|]. by rewrite Z.eqb_refl.
  - intros s. induction s as [|c s IH]; intros [|d t] [|e u]; cbn; try done.
    destruct (Z.eqb_spec c d), (Z.eqb_spec d e), (Z.eqb_spec c e); subst; try lia; eauto.
  - intros s. induction s as [|c s IH]; intros [|d t]; cbn; try done.
    destruct (Z.eqb_spec c d), (Z.eqb_spec d c); subst; try lia. intros; f_equal; auto.
Qed.

Section laws.
Context {K V : Type} `{KeyLaws K}.
Implicit Types m : stdmap K V.

Lemma key_eq_refl (k : K) : key_eq k k = true.
Proof. by apply key_eq_spec. Qed.

Lemma key_lt_ne (k l : K) : key_lt k l = true -> k <> l.
Proof. intros Hl ->. by rewrite key_lt_irrefl in Hl. Qed.

Lemma key_lt_asym (k l : K) : key_lt k l = true -> key_lt l k = false.
Proof.
  intros Hl. destruct (key_lt l k) eqn:E; [|done].
  pose proof (key_lt_trans _ _ _ Hl E) as E2. by rewrite key_lt_irrefl in E2.
Qed.

Lemma key_eq_false (k l : K) : key_lt k l = true -> key_eq k l = false /\ key_eq l k = false.
Proof.
  intros Hl. apply key_lt_ne in Hl.
  split; apply not_true_iff_false; rewrite key_eq_spec; congruence.
Qed.

Lemma map_sorted_cons k v m :
  map_sorted ((k, v) :: m) <-> map_sorted m /\ Forall (fun '(l, _) => key_lt k l = true) m.
Proof.
  unfold map_sorted. cbn [fmap list_fmap fst]. split.
  - intros Hs. apply StronglySorted_inv in Hs as [Hs Hf]. split; [done|].
    rewrite Forall_fmap in Hf. eapply Forall_impl; [exact Hf|]. by intros [l w].
  - intros [Hs Hf]. constructor; [done|]. rewrite Forall_fmap.
    eapply Forall_impl; [exact Hf|]. by intros [l w].
Qed.

Lemma map_find_above k m : Forall (fun '(l, _) => key_lt k l = true) m -> map_find k m = None.
Proof.
  destruct m as [|[l v] r]; [done|]. intros Hf. apply Forall_cons in Hf as [Hl _]. cbn [map_find].
  rewrite (key_lt_asym _ _ Hl). by destruct (key_eq_false _ _ Hl) as [_ ->].
Qed.

(** The comparison of two keys, as one case analysis. *)
Lemma key_cases (l k : K) :
  {key_lt l k = true /\ key_lt k l = false /\ key_eq l k = false}
  + {l = k}
  + {key_lt l k = false /\ key_eq l k = false /\ key_lt k l = true}.
Proof.
  destruct (key_lt l k) eqn:E; [left; left|].
  - split; [done|]. split; [by apply key_lt_asym|]. by destruct (key_eq_false _ _ E).
  - destruct (key_lt k l) eqn:E2; [right|left; right].
    + split; [done|]. split; [|done]. by destruct (key_eq_false _ _ E2).
    + by apply key_lt_total.
Qed.

Lemma map_update_sorted k f m : map_sorted m -> map_sorted (map_update k f m).
Proof.
  induction m as [|[l v] r IH]; cbn [map_update]; intros Hs.
  { constructor; constructor. }
  pose proof Hs as Hs'. apply map_sorted_cons in Hs as [Hs Hf].
  destruct (key_cases l k) as [[(E1 & E2 & E3)| ->]|(E1 & E2 & E3)]; rewrite ?E1, ?E2.
  - apply map_sorted_cons. split; [by apply IH|].
    clear -Hf E1. induction r as [|[l' v'] r IH]; cbn [map_update].
    { by constructor. }
    apply Forall_cons in Hf as [Hl Hf].
    destruct (key_lt l' k); [constructor; auto|]. destruct (key_eq l' k); constructor; auto.
  - rewrite key_lt_irrefl, key_eq_refl. by apply map_sorted_cons.
  - apply map_sorted_cons. split; [done|]. constructor; [done|].
    eapply Forall_impl; [exact Hf|]. intros [l' v'] Hl. by eapply key_lt_trans.
Qed.

Lemma map_find_update k f m : map_find k (map_update k f m) = Some (f (map_find k m)).
Proof.
  induction m as [|[l v] r IH]; cbn [map_update map_find].
  { by rewrite key_lt_irrefl, key_eq_refl. }
  destruct (key_cases l k) as [[(E1 & E2 & E3)| ->]|(E1 & E2 & E3)].
  - rewrite E1. cbn [map_find]. by rewrite E1.
  - rewrite key_lt_irrefl, key_eq_refl. cbn [map_find]. by rewrite key_lt_irrefl, key_eq_refl.
  - rewrite E1, E2. cbn [map_find]. by rewrite key_lt_irrefl, key_eq_refl.
Qed.

Lemma map_find_update_ne k k' f m :
  k <> k' -> map_find k' (map_update k f m) = map_find k' m.
Proof.
  intros Hk. induction m as [|[l v] r IH]; cbn [map_update map_find].
  { destruct (key_cases k k') as [[(E1 & E2 & E3)| ?]|(E1 & E2 & E3)]; [by rewrite E1|done|].
    by rewrite E1, E2. }
  destruct (key_cases l k) as [[(E1 & E2 & E3)| ->]|(E1 & E2 & E3)].
  - rewrite E1. cbn [map_find]. by rewrite IH.
  - rewrite key_lt_irrefl, key_eq_refl. cbn [map_find].
    destruct (key_cases k k') as [[(F1 & F2 & F3)| ?]|(F1 & F2 & F3)]; [by rewrite F1|done|].
    by rewrite F1, F2.
  - rewrite E1, E2. cbn [map_find].
    destruct (key_cases k k') as [[(F1 & F2 & F3)| ?]|(F1 & F2 & F3)]; [by rewrite F1|done|].
    rewrite F1, F2.
    pose proof (key_lt_trans _ _ _ F3 E3) as G. rewrite (key_lt_asym _ _ G).
    by destruct (key_eq_false _ _ G) as [_ ->].
Qed.

Lemma map_erase_sub k m : Forall (fun e => e ∈ m) (map_erase k m).
Proof.
  induction m as [|[l v] r IH]; cbn [map_erase]; [done|].
  assert (Forall (fun e => e ∈ (l, v) :: r) r).
  { apply Forall_forall. intros e He. by apply list_elem_of_further. }
  destruct (key_lt l k).
  - constructor; [apply list_elem_of_here|]. eapply Forall_impl; [exact IH|].
    intros e He. by apply list_elem_of_further.
  - destruct (key_eq l k); [done|]. constructor; [apply list_elem_of_here|done].
Qed.

Lemma map_erase_sorted k m : map_sorted m -> map_sorted (map_erase k m).
Proof.
  induction m as [|[l v] r IH]; cbn [map_erase]; intros Hs; [done|].
  pose proof Hs as Hs'. apply map_sorted_cons in Hs as [Hs Hf].
  destruct (key_lt l k); [|by destruct (key_eq l k)].
  apply map_sorted_cons. split; [by apply IH|].
  apply Forall_forall. intros [l' v'] He.
  rewrite Forall_forall in Hf. apply (Hf (l', v')).
  pose proof (map_erase_sub k r) as Hsub. rewrite Forall_forall in Hsub. by apply Hsub.
Qed.

Lemma map_find_erase k m : map_sorted m -> map_find k (map_erase k m) = None.
Proof.
  induction m as [|[l v] r IH]; cbn [map_erase]; intros Hs; [done|].
  apply map_sorted_cons in Hs as [Hs Hf].
  destruct (key_cases l k) as [[(E1 & E2 & E3)| ->]|(E1 & E2 & E3)].
  - rewrite E1. cbn [map_find]. rewrite E1. by apply IH.
  - rewrite key_lt_irrefl, key_eq_refl. by apply map_find_above.
  - rewrite E1, E2. cbn [map_find]. by rewrite E1, E2.
Qed.

Lemma map_find_erase_ne k k' m :
  map_sorted m -> k <> k' -> map_find k' (map_erase k m) = map_find k' m.
Proof.
  intros Hs Hk. induction m as [|[l v] r IH]; cbn [map_erase map_find]; [done|].
  apply map_sorted_cons in Hs as [Hs Hf].
  destruct (key_cases l k) as [[(E1 & E2 & E3)| ->]|(E1 & E2 & E3)].
  - rewrite E1. cbn [map_find]. by rewrite IH.
  - rewrite key_lt_irrefl, key_eq_refl.
    destruct (key_cases k k') as [[(F1 & F2 & F3)| ?]|(F1 & F2 & F3)]; [by rewrite F1|done|].
    rewrite F1, F2. apply map_find_above. eapply Forall_impl; [exact Hf|].
    intros [l' v'] Hl. by eapply key_lt_trans.
  - by rewrite E1, E2.
Qed.

(** A key above all others goes to the end. *)
Lemma map_update_end k f m :
  Forall (fun '(l, _) => key_lt l k = true) m -> map_update k f m = m ++ [(k, f None)].
Proof.
  induction m as [|[l v] r IH]; intros Hf; cbn [map_update app]; [done|].
  apply Forall_cons in Hf as [Hl Hf]. by rewrite Hl, IH.
Qed.

Lemma map_find_end k m : Forall (fun '(l, _) => key_lt l k = true) m -> map_find k m = None.
Proof.
  induction m as [|[l v] r IH]; intros Hf; cbn [map_find]; [done|].
  apply Forall_cons in Hf as [Hl Hf]. by rewrite Hl, IH.
Qed.

Lemma map_update_update k f g m :
  map_update k g (map_update k f m) = map_update k (fun o => g (Some (f o))) m.
Proof.
  induction m as [|[l v] r IH]; cbn [map_update].
  { by rewrite key_lt_irrefl, key_eq_refl. }
  destruct (key_cases l k) as [[(E1 & E2 & E3)| ->]|(E1 & E2 & E3)].
  - rewrite E1. cbn [map_update]. by rewrite E1, IH.
  - rewrite key_lt_irrefl, key_eq_refl. cbn [map_update]. by rewrite key_lt_irrefl, key_eq_refl.
  - rewrite E1, E2. cbn [map_update]. by rewrite key_lt_irrefl, key_eq_refl.
Qed.

Lemma map_update_ext k f g m :
  f (map_find k m) = g (map_find k m) -> map_update k f m = map_update k g m.
Proof.
  induction m as [|[l v] r IH]; cbn [map_update map_find]; [by intros ->|].
  destruct (key_lt l k); [intros E; by rewrite IH|].
  destruct (key_eq l k); by intros ->.
Qed.

Lemma map_find_Some_in k v m : map_find k m = Some v -> (k, v) ∈ m.
Proof.
  induction m as [|[l w] r IH]; cbn [map_find]; [done|].
  destruct (key_lt l k).
  - intros E. apply list_elem_of_further. auto.
  - destruct (key_eq l k) eqn:E; [|done]. apply key_eq_spec in E as ->.
    intros [= ->]. apply list_elem_of_here.
Qed.

Lemma map_in_find k v m : map_sorted m -> (k, v) ∈ m -> map_find k m = Some v.
Proof.
  induction m as [|[l w] r IH]; intros Hs Hin; [by apply not_elem_of_nil in Hin|].
  apply map_sorted_cons in Hs as [Hs Hf]. cbn [map_find].
  apply elem_of_cons in Hin as [[= -> ->]|Hin].
  - by rewrite key_lt_irrefl, key_eq_refl.
  - rewrite Forall_forall in Hf. specialize (Hf _ Hin). cbn in Hf. rewrite Hf. by apply IH.
Qed.

(** Sorted maps with the same lookups are equal. *)
Lemma map_find_ext m1 m2 :
  map_sorted m1 -> map_sorted m2 -> (forall k, map_find k m1 = map_find k m2) -> m1 = m2.
Proof.
  revert m2. induction m1 as [|[k v] m1 IH]; intros [|[l w] m2] H1 H2 Hf.
  - done.
  - specialize (Hf l). cbn [map_find] in Hf. by rewrite key_lt_irrefl, key_eq_refl in Hf.
  - specialize (Hf k). cbn [map_find] in Hf. by rewrite key_lt_irrefl, key_eq_refl in Hf.
  - assert (k = l /\ v = w) as [-> ->].
    { pose proof (Hf k) as Fk. pose proof (Hf l) as Fl. cbn [map_find] in Fk, Fl.
      rewrite key_lt_irrefl, key_eq_refl in Fk. rewrite key_lt_irrefl, key_eq_refl in Fl.
      apply map_sorted_cons in H1 as [_ H1]. apply map_sorted_cons in H2 as [_ H2].
      destruct (key_cases k l) as [[(E1 & E2 & E3)| ->]|(E1 & E2 & E3)].
      - rewrite E2 in Fk. by destruct (key_eq_false _ _ E1) as [_ E]; rewrite E in Fk.
      - rewrite key_lt_irrefl, key_eq_refl in Fk. by injection Fk.
      - rewrite E1 in Fl. by rewrite E2 in Fl. }
    apply map_sorted_cons in H1 as [H1 F1]. apply map_sorted_cons in H2 as [H2 F2].
    f_equal. apply IH; [done..|]. intros k. specialize (Hf k). cbn [map_find] in Hf.
    destruct (key_cases l k) as [[(E1 & E2 & E3)| ->]|(E1 & E2 & E3)].
    + by rewrite E1 in Hf.
    + by rewrite !map_find_above.
    + rewrite !map_find_above; [done|..].
      * eapply Forall_impl; [exact F2|]. intros [l' v'] Hl. by eapply key_lt_trans.
      * eapply Forall_impl; [exact F1|]. intros [l' v'] Hl. by eapply key_lt_trans.
Qed.

Lemma map_update_Forall (P : K * V -> Prop) k f m :
  Forall P m -> (forall l v, (l, v) ∈ m -> key_eq l k = true -> P (l, f (Some v))) ->
  P (k, f None) -> Forall P (map_update k f m).
Proof.
  intros Hm Hs Hn. induction m as [|[l v] r IH]; cbn [map_update]; [by constructor|].
  apply Forall_cons in Hm as [Hl Hr].
  destruct (key_lt l k).
  - constructor; [done|]. apply IH; [done|]. intros l' v' Hin. apply Hs.
    by apply list_elem_of_further.
  - destruct (key_eq l k) eqn:E; constructor; try done; [|by constructor].
    apply Hs; [apply list_elem_of_here|done].
Qed.

Lemma map_erase_Forall (P : K * V -> Prop) k m : Forall P m -> Forall P (map_erase k m).
Proof.
  rewrite !Forall_forall. intros Hm e He. apply Hm.
  pose proof (map_erase_sub k m) as Hsub. rewrite Forall_forall in Hsub. by apply Hsub.
Qed.
End laws.

#[global] Create HintDb stdmap.
#[export] Hint Resolve map_update_sorted map_erase_sorted : stdmap.
