(* ===== verification/Decimal.v ===== *)
(** * Decimal numerals

    Digits of the "C" locale as character codes, the shortest numeral of a
    natural number and the value of a numeral.  Shared by the number formats
    of the JSON writer and reader. *)
From S2P Require Import Prelude Words Buffers CString.

(** The value of a list of digits, most significant first. *)
Definition dec_value (ds : list Z) : Z := foldl (fun a c => a * 10 + (c - 48)) 0 ds.

(** The digits of [n] before [acc]; [fuel] bounds their number. *)
Fixpoint dec_digits (fuel : nat) (n : Z) (acc : list Z) : list Z :=
  let acc' := (n mod 10 + 48) :: acc in
  match fuel with
  | O => acc'
  | S f => if n / 10 =? 0 then acc' else dec_digits f (n / 10) acc'
  end.

(** The shortest numeral of [n >= 0]: a number below [2^(k+1)] has at most [k+1] digits. *)
Definition dec (n : Z) : list Z := dec_digits (Z.to_nat (Z.log2 n)) n [].

(** [printf] of an [int] with ["%d"]. *)
Definition print_int (n : Z) : list Z := if n <? 0 then 45 :: dec (- n) else dec n.

(** The numeral of [n] with exactly [w] digits. *)
Fixpoint dec_fixed (w : nat) (n : Z) : list Z :=
  match w with
  | O => []
  | S w' => dec_fixed w' (n / 10) ++ [n mod 10 + 48]
  end.

Definition digits (s : list Z) : Prop := Forall (fun c => isdigit c = true) s.

#[global] Instance digits_dec s : Decision (digits s).
Proof. unfold digits. apply _. Defined.

(** The longest prefix of [s] that satisfies [p], and the rest. *)
Fixpoint span (p : Z -> bool) (s : list Z) : list Z * list Z :=
  match s with
  | c :: r => if p c then let '(a, b) := span p r in (c :: a, b) else ([], s)
  | [] => ([], [])
  end.

Lemma digit_char n : isdigit (n mod 10 + 48) = true.
Proof. unfold isdigit. pose proof (Z.mod_pos_bound n 10 ltac:(lia)). lia. Qed.

Lemma dec_value_app s t : dec_value (s ++ t) = foldl (fun a c => a * 10 + (c - 48)) (dec_value s) t.
Proof. unfold dec_value. by rewrite foldl_app. Qed.

Lemma dec_value_snoc s c : dec_value (s ++ [c]) = dec_value s * 10 + (c - 48).
Proof. by rewrite dec_value_app. Qed.

(** [dec_digits] puts the numeral of [n] before the digits it is given. *)
Lemma dec_digits_app fuel n acc : dec_digits fuel n acc = dec_digits fuel n [] ++ acc.
Proof.
  revert n acc. induction fuel as [|f IH]; intros n acc; cbn [dec_digits]; [done|].
  destruct (n / 10 =? 0); [done|]. rewrite IH, (IH _ [_]). by rewrite <- app_assoc.
Qed.

Lemma dec_digits_value fuel n :
  0 <= n < 10 ^ (Z.of_nat fuel + 1) -> dec_value (dec_digits fuel n []) = n.
Proof.
  revert n. induction fuel as [|f IH]; intros n Hn; cbn [dec_digits].
  - change (10 ^ _) with 10 in Hn. unfold dec_value. cbn. rewrite Z.mod_small by lia. lia.
  - rewrite Nat2Z.inj_succ, <- Z.add_1_r in Hn. rewrite (Z.pow_add_r 10 (_ + 1) 1) in Hn by lia.
    destruct (Z.eqb_spec (n / 10) 0) as [E|E].
    + unfold dec_value. cbn. pose proof (Z.div_mod n 10). lia.
    + rewrite dec_digits_app, dec_value_snoc, IH.
      * pose proof (Z.div_mod n 10). lia.
      * split; [apply Z.div_pos; lia|]. apply Z.div_lt_upper_bound; lia.
Qed.

Lemma log2_fuel n : 0 <= n -> n < 10 ^ (Z.of_nat (Z.to_nat (Z.log2 n)) + 1).
Proof.
  intros Hn. rewrite Z2Nat.id by apply Z.log2_nonneg.
  destruct (decide (n = 0)) as [->|Hz]; [reflexivity|].
  apply Z.lt_le_trans with (2 ^ (Z.log2 n + 1)).
  - rewrite Z.add_1_r. apply Z.log2_spec. lia.
  - apply Z.pow_le_mono_l. lia.
Qed.

Lemma dec_value_dec n : 0 <= n -> dec_value (dec n) = n.
Proof. intros Hn. apply dec_digits_value. split; [done|]. by apply log2_fuel. Qed.

Lemma dec_digits_digits fuel n acc : digits acc -> digits (dec_digits fuel n acc).
Proof.
  revert n acc. induction fuel as [|f IH]; intros n acc Ha; cbn [dec_digits].
  - constructor; [apply digit_char|done].
  - assert (digits ((n mod 10 + 48) :: acc)) by (constructor; [apply digit_char|done]).
    destruct (n / 10 =? 0); auto.
Qed.

Lemma dec_is_digits n : digits (dec n).
Proof. apply dec_digits_digits. constructor. Qed.

Lemma dec_digits_nonnil fuel n acc : dec_digits fuel n acc <> [].
Proof.
  revert n acc. induction fuel as [|f IH]; intros n acc; cbn [dec_digits]; [done|].
  destruct (n / 10 =? 0); [done|apply IH].
Qed.

Lemma dec_nonnil n : dec n <> [].
Proof. apply dec_digits_nonnil. Qed.

(** More fuel gives the same numeral. *)
Lemma dec_digits_more f1 f2 n acc :
  0 <= n < 10 ^ (Z.of_nat f1 + 1) -> (f1 <= f2)%nat ->
  dec_digits f2 n acc = dec_digits f1 n acc.
Proof.
  revert f2 n acc. induction f1 as [|f IH]; intros f2 n acc Hn Hf.
  - change (10 ^ _) with 10 in Hn. destruct f2 as [|f2]; cbn [dec_digits]; [done|].
    by rewrite Z.div_small by lia.
  - destruct f2 as [|f2]; [lia|]. cbn [dec_digits].
    destruct (Z.eqb_spec (n / 10) 0); [done|]. apply IH; [|lia].
    rewrite Nat2Z.inj_succ, <- Z.add_1_r in Hn. rewrite (Z.pow_add_r 10 (_ + 1) 1) in Hn by lia.
    split; [apply Z.div_pos; lia|]. apply Z.div_lt_upper_bound; lia.
Qed.

Lemma dec_digits_dec f n acc :
  0 <= n < 10 ^ (Z.of_nat f + 1) -> dec_digits f n acc = dec n ++ acc.
Proof.
  intros Hn. unfold dec. rewrite <- dec_digits_app.
  destruct (decide (f <= Z.to_nat (Z.log2 n))%nat).
  - symmetry. by apply dec_digits_more.
  - apply dec_digits_more; [|lia]. split; [lia|]. apply log2_fuel. lia.
Qed.

(** A number of at most [k] digits has a numeral of length at most [k]. *)
Lemma dec_digits_length fuel n acc :
  (length (dec_digits fuel n acc) <= fuel + 1 + length acc)%nat.
Proof.
  revert n acc. induction fuel as [|f IH]; intros n acc; cbn [dec_digits]; [cbn; lia|].
  destruct (n / 10 =? 0); [cbn; lia|]. specialize (IH (n / 10) ((n mod 10 + 48) :: acc)).
  cbn [length] in IH. lia.
Qed.

Lemma dec_length n k : 0 <= n < 10 ^ (Z.of_nat k + 1) -> (length (dec n) <= k + 1)%nat.
Proof.
  intros Hn. pose proof (dec_digits_dec k n [] Hn) as E. rewrite app_nil_r in E. rewrite <- E.
  pose proof (dec_digits_length k n []). cbn [length] in *. lia.
Qed.

(** The numeral of [n] is that of [n / 10] and one more digit. *)
Lemma dec_unfold n : 0 <= n ->
  dec n = (if n / 10 =? 0 then [] else dec (n / 10)) ++ [n mod 10 + 48].
Proof.
  intros Hn. set (f := Z.to_nat (Z.log2 n)).
  assert (E : 0 <= n < 10 ^ (Z.of_nat (S f) + 1)).
  { pose proof (log2_fuel n Hn). fold f in H. split; [done|].
    apply Z.lt_le_trans with (10 ^ (Z.of_nat f + 1)); [done|]. apply Z.pow_le_mono_r; lia. }
  pose proof (dec_digits_dec (S f) n [] E) as D. rewrite app_nil_r in D. rewrite <- D.
  cbn [dec_digits]. destruct (Z.eqb_spec (n / 10) 0); [done|].
  apply dec_digits_dec. rewrite Nat2Z.inj_succ, <- Z.add_1_r in E.
  rewrite (Z.pow_add_r 10 (_ + 1) 1) in E by lia.
  split; [apply Z.div_pos; lia|]. apply Z.div_lt_upper_bound; lia.
Qed.

Lemma length_dec_fixed w n : length (dec_fixed w n) = w.
Proof.
  revert n. induction w as [|w IH]; intros n; cbn [dec_fixed]; [done|].
  rewrite length_app, IH. cbn. lia.
Qed.

Lemma dec_fixed_digits w n : digits (dec_fixed w n).
Proof.
  revert n. induction w as [|w IH]; intros n; cbn [dec_fixed]; [constructor|].
  apply Forall_app. split; [apply IH|]. constructor; [apply digit_char|constructor].
Qed.

Lemma digits_app s t : digits (s ++ t) <-> digits s /\ digits t.
Proof. apply Forall_app. Qed.

Lemma digits_replicate n : digits (replicate n 48).
Proof. by apply Forall_replicate. Qed.

Lemma span_all p s r :
  Forall (fun c => p c = true) s -> match r with [] => True | c :: _ => p c = false end ->
  span p (s ++ r) = (s, r).
Proof.
  induction s as [|c s IH]; intros Hs Hr; cbn [app span].
  - destruct r as [|c r]; cbn [span]; [done|]. by rewrite Hr.
  - apply Forall_cons in Hs as [Hc Hs]. by rewrite Hc, IH.
Qed.

Lemma span_digits s r :
  digits s -> match r with [] => True | c :: _ => isdigit c = false end -> span isdigit (s ++ r) = (s, r).
Proof. apply span_all. Qed.

(** ** Reading a numeral *)

(** Where a numeral ends. *)
Definition ends_number (r : list Z) : Prop := match r with [] => True | c :: _ => isdigit c = false end.

Lemma atoi_digits_value ds r a : digits ds -> ends_number r ->
  atoi_digits (ds ++ r) a = foldl (fun a c => a * 10 + (c - 48)) a ds.
Proof.
  intros Hds Hr. revert a. induction Hds as [|d ds Hd Hds IH]; intros a; cbn [app atoi_digits foldl].
  - destruct r as [|c r]; [done|]. cbn [atoi_digits]. by rewrite Hr.
  - rewrite Hd. apply IH.
Qed.

Lemma text_number_digits ds r : digits ds -> ds <> [] -> ends_number r -> text_number (ds ++ r) = dec_value ds.
Proof.
  intros Hds Hne Hr. unfold text_number, dec_value. destruct ds as [|d ds]; [done|]. pose proof Hds as [Hd _]%Forall_cons.
  assert (48 <= d <= 57) by (unfold isdigit in Hd; lia). cbn [app skip_spaces].
  assert (Es : isspace d = false) by (unfold isspace; lia). rewrite Es.
  rewrite (proj2 (Z.eqb_neq d 45)), (proj2 (Z.eqb_neq d 43)) by lia. by apply (atoi_digits_value (d :: ds)).
Qed.

Lemma text_number_dec n r : 0 <= n -> ends_number r -> text_number (dec n ++ r) = n.
Proof. intros Hn Hr. rewrite text_number_digits by (done || apply dec_is_digits || apply dec_nonnil). by apply dec_value_dec. Qed.

Lemma text_number_print_int n r : ends_number r -> text_number (print_int n ++ r) = n.
Proof.
  intros Hr. unfold print_int. destruct (Z.ltb_spec n 0); [|by apply text_number_dec].
  unfold text_number. cbn [app skip_spaces]. change (isspace 45) with false. cbv iota.
  rewrite atoi_digits_value by (done || apply dec_is_digits). change (foldl _ 0 (dec (- n))) with (dec_value (dec (- n))).
  rewrite dec_value_dec by lia. cbn. lia.
Qed.

Lemma atoi_print_int n : is_int n -> atoi (print_int n) = Ret n.
Proof.
  intros Hn. unfold atoi. rewrite <- (app_nil_r (print_int n)), text_number_print_int by done. by apply int_checked_id.
Qed.
