(* ===== verification/Double.v ===== *)
(** * Doubles

    The type [double] of the C++ code as IEEE 754 binary64 numbers (the
    executable specification of the Standard Library), the conversions the
    sources apply to it, and the two functions of <stdio.h> that print and
    read one: [sprintf(buffer, "%#.16g", x)] and [sscanf(buffer, "%lf", &x)].
    Both round to nearest, ties to even. *)
From Stdlib Require Import SpecFloat.
From S2P Require Import Prelude Words Buffers CString Decimal.

Definition double := spec_float.

Definition dbl_lt (x y : double) : bool := SFltb x y.
Definition dbl_le (x y : double) : bool := SFleb x y.
Definition dbl_eq (x y : double) : bool := SFeqb x y.
Definition dbl_zero : double := S754_zero false.

(** Conversion of an integer. *)
Definition dbl_of_Z (z : Z) : double := binary_normalize 53 1024 z 0 false.

(** Conversion to an integer type drops the fraction; a number without an
    integer part makes it undefined, and the callers check the range. *)
Definition dbl_trunc (x : double) : cpp Z :=
  match x with
  | S754_zero _ => Ret 0
  | S754_finite s m e =>
      let a := if 0 <=? e then Z.pos m * 2 ^ e else Z.pos m / 2 ^ (- e) in
      Ret (if s then - a else a)
  | _ => Undef
  end.

Definition dbl_finite (x : double) : bool :=
  match x with S754_zero _ | S754_finite _ _ _ => true | _ => false end.

Definition dbl_nan (x : double) : bool := match x with S754_nan => true | _ => false end.

(** ** sscanf

    [dbl_decimal neg m e] is the double nearest to [m * 10^e], with its sign. *)
Definition dbl_decimal (neg : bool) (m e : Z) : double :=
  match m with
  | Z.pos p =>
      if 0 <=? e then binary_round 53 1024 neg (p * Z.to_pos (10 ^ e))%positive 0
      else SFdiv 53 1024 (S754_finite neg p 0) (S754_finite false (Z.to_pos (10 ^ (- e))) 0)
  | _ => S754_zero neg
  end.

Definition scan_sign (s : list Z) : bool * list Z :=
  match s with
  | c :: r => if c =? 45 then (true, r) else if c =? 43 then (false, r) else (false, s)
  | [] => (false, [])
  end.

(** The exponent of a number: absent, complete, or cut short, which makes the
    conversion fail. *)
Definition scan_exponent (s : list Z) : option Z :=
  match s with
  | c :: r =>
      if (c =? 101) || (c =? 69) then
        let '(neg, r1) := scan_sign r in
        let '(ds, _) := span isdigit r1 in
        if decide (ds = []) then None
        else Some (if neg : bool then - dec_value ds else dec_value ds)
      else Some 0
  | [] => Some 0
  end.

(** [sscanf(s, "%lf", &x)] on a text of digits, signs, points and exponent
    letters (the callers pass no other); [None] is a result other than 1. *)
Definition sscanf_lf (s : list Z) : option double :=
  let '(neg, s1) := scan_sign s in
  let '(ip, s2) := span isdigit s1 in
  let '(fp, s3) := match s2 with
                   | c :: r => if c =? 46 then span isdigit r else ([], s2)
                   | [] => ([], [])
                   end in
  if decide (ip ++ fp = []) then None
  else
    ex ← scan_exponent s3;
    Some (dbl_decimal neg (dec_value (ip ++ fp)) (ex - Z.of_nat (length fp))).

(** ** sprintf

    [round_div a b] is [a / b] rounded to nearest, ties to even. *)
Definition round_div (a b : Z) : Z :=
  let q := a / b in
  let r := a mod b in
  if 2 * r <? b then q else if b <? 2 * r then q + 1 else if Z.even q then q else q + 1.

(** The least [k] with [den <= num * 10^k], counted from [k]. *)
Fixpoint scale_up (fuel : nat) (num den k : Z) : Z :=
  match fuel with
  | O => k
  | S f => if den <=? num then k else scale_up f (num * 10) den (k + 1)
  end.

(** The decimal exponent of [num / den]: [10^x <= num / den < 10^(x+1)]. *)
Definition ilog10 (num den : Z) : Z :=
  if den <=? num then Z.of_nat (length (dec (num / den))) - 1
  else - scale_up (S (Z.to_nat (Z.log2 den))) num den 0.

(** Sixteen significant digits of [num / den] as an integer, and the exponent of the first. *)
Definition sig16 (num den : Z) : Z * Z :=
  let x := ilog10 num den in
  let n := if x <=? 15 then round_div (num * 10 ^ (15 - x)) den
           else round_div num (den * 10 ^ (x - 15)) in
  if n =? 10 ^ 16 then (10 ^ 15, x + 1) else (n, x).

(** The layout of "%#.16g": sixteen digits, as a fraction for an exponent from
    -4 to 15 and in scientific notation otherwise; the point is always there. *)
Definition g16_layout (n x : Z) : list Z :=
  let ds := dec_fixed 16 n in
  if (-4 <=? x) && (x <? 16) then
    if 0 <=? x then
      take (Z.to_nat (x + 1)) ds ++ [46] ++ drop (Z.to_nat (x + 1)) ds
    else [48; 46] ++ replicate (Z.to_nat (- x - 1)) 48 ++ ds
  else
    take 1 ds ++ [46] ++ drop 1 ds ++ [101; if x <? 0 then 45 else 43]
    ++ (if Z.abs x <? 10 then [48] else []) ++ dec (Z.abs x).

Definition sprintf_g16 (x : double) : list Z :=
  match x with
  | S754_nan => codes "nan"
  | S754_infinity s => (if s then [45] else []) ++ codes "inf"
  | S754_zero s => (if s then [45] else []) ++ [48; 46] ++ replicate 15 48
  | S754_finite s m e =>
      let num := Z.pos m * 2 ^ Z.max 0 e in
      let den := 2 ^ Z.max 0 (- e) in
      let '(n, x) := sig16 num den in
      (if s then [45] else []) ++ g16_layout n x
  end.

(** ** Facts *)

Lemma digits2_pos_bound m : Z.pos m < 2 ^ Z.pos (digits2_pos m).
Proof.
  induction m as [m IH|m IH|]; cbn [digits2_pos]; [..|reflexivity];
    rewrite Pos2Z.inj_succ, Z.pow_succ_r by lia; lia.
Qed.

Lemma valid_mantissa s m e : valid_binary 53 1024 (S754_finite s m e) = true -> Z.pos m < 2 ^ 53.
Proof.
  cbn [valid_binary]. unfold bounded, canonical_mantissa, fexp, emin.
  rewrite andb_true_iff, Z.eqb_eq. intros [H _].
  pose proof (digits2_pos_bound m) as Hm. apply Z.lt_le_trans with (1 := Hm).
  apply Z.pow_le_mono_r; lia.
Qed.

(** The integer part of a double up to [h], for a normalised [h * 2^k * 2^-k]. *)
Lemma trunc_bound s m e h k :
  valid_binary 53 1024 (S754_finite s m e) = true -> 0 < k -> 2 ^ 53 <= h * 2 ^ (k + 1) ->
  e < - k \/ (e = - k /\ Z.pos m <= h * 2 ^ k) ->
  exists a, dbl_trunc (S754_finite s m e) = Ret (if s then - a else a) /\ 0 <= a <= h.
Proof.
  intros Hv Hk Hh He. apply valid_mantissa in Hv. cbn [dbl_trunc].
  replace (0 <=? e) with false by (destruct He as [He|[He _]]; lia).
  exists (Z.pos m / 2 ^ (- e)). split; [done|].
  split; [apply Z.div_pos; [lia|apply Z.pow_pos_nonneg; destruct He as [?|[? _]]; lia]|].
  destruct He as [He|[-> Hm]].
  - apply Z.div_le_upper_bound; [apply Z.pow_pos_nonneg; lia|].
    assert (2 ^ (k + 1) <= 2 ^ (- e)) by (apply Z.pow_le_mono_r; lia). nia.
  - rewrite Z.opp_involutive. apply Z.div_le_upper_bound; [apply Z.pow_pos_nonneg; lia|]. lia.
Qed.

Lemma le_finite s m e m' e' :
  SFleb (S754_finite s m e) (S754_finite s m' e') = true ->
  if s then e' < e \/ (e' = e /\ Z.pos m' <= Z.pos m) else e < e' \/ (e = e' /\ Z.pos m <= Z.pos m').
Proof.
  unfold SFleb. cbn [SFcompare]. change (Pos.compare_cont Eq m m') with (m ?= m')%positive.
  destruct s, (Z.compare_spec e e'); try done; try lia.
  - subst. destruct (Pos.compare_spec m m'); cbn; try done; subst; lia.
  - subst. destruct (Pos.compare_spec m m'); cbn; try done; subst; lia.
Qed.

(** A double between the conversions of two limits has its integer part
    between them; the limits are those of [int] and [unsigned int]. *)
Lemma trunc_range x lo hi :
  (lo = - 2 ^ 31 /\ hi = 2 ^ 31 - 1) \/ (lo = 0 /\ hi = 2 ^ 32 - 1) ->
  valid_binary 53 1024 x = true -> dbl_le (dbl_of_Z lo) x = true -> dbl_le x (dbl_of_Z hi) = true ->
  exists z, dbl_trunc x = Ret z /\ lo <= z <= hi.
Proof.
  intros Hl Hv H1 H2. unfold dbl_le in *. destruct x as [s|s| |s m e].
  - exists 0. split; [done|]. destruct Hl as [[-> ->]|[-> ->]]; lia.
  - destruct Hl as [[-> ->]|[-> ->]]; vm_compute in H1, H2; by destruct s.
  - destruct Hl as [[-> ->]|[-> ->]]; vm_compute in H1; discriminate H1.
  - destruct Hl as [[-> ->]|[-> ->]]; destruct s.
    + change (dbl_of_Z (- 2 ^ 31)) with (S754_finite true 4503599627370496 (-21)) in H1.
      apply le_finite in H1.
      destruct (trunc_bound true m e (2 ^ 31) 21 Hv) as (a & E & Ha); [lia..|]. exists (- a). split; [done|lia].
    + change (dbl_of_Z (2 ^ 31 - 1)) with (S754_finite false 9007199250546688 (-22)) in H2.
      apply le_finite in H2.
      destruct (trunc_bound false m e (2 ^ 31 - 1) 22 Hv) as (a & E & Ha); [lia..|]. exists a. split; [done|lia].
    + vm_compute in H1. discriminate H1.
    + change (dbl_of_Z (2 ^ 32 - 1)) with (S754_finite false 9007199252643840 (-21)) in H2.
      apply le_finite in H2.
      destruct (trunc_bound false m e (2 ^ 32 - 1) 21 Hv) as (a & E & Ha); [lia..|]. exists a. split; [done|lia].
Qed.
