(* ===== verification/DoubleArith.v ===== *)
(** * Exact integers and quotients in double precision

    Integers below [2^53] are represented exactly, so is their product when it
    stays below that bound, and the integer part of a rounded quotient is the
    quotient of the integers: the rounding never reaches the next integer. *)
From Stdlib Require Import SpecFloat.
From S2P Require Import Prelude Words Buffers CString Decimal Double.

Definition digits (m : positive) : Z := Z.pos (digits2_pos m).

Lemma digits_bounds m : 2 ^ (digits m - 1) <= Z.pos m < 2 ^ digits m.
Proof.
  unfold digits. split; [|apply digits2_pos_bound]. induction m as [m IH|m IH|]; cbn [digits2_pos]; [..|done].
  all: rewrite Pos2Z.inj_succ; replace (Z.succ _ - 1) with (Z.succ (Z.pos (digits2_pos m) - 1)) by lia;
    rewrite Z.pow_succ_r by lia; lia.
Qed.

Lemma digits_unique m k : 0 <= k -> 2 ^ (k - 1) <= Z.pos m < 2 ^ k -> digits m = k.
Proof.
  intros Hk [H1 H2]. pose proof (digits_bounds m) as [D1 D2]. assert (0 < digits m) by done.
  destruct (Z.lt_trichotomy (digits m) k) as [Hl|[Hl|Hl]]; [exfalso|done|exfalso].
  - assert (2 ^ digits m <= 2 ^ (k - 1)) by (apply Z.pow_le_mono_r; lia). lia.
  - assert (2 ^ k <= 2 ^ (digits m - 1)) by (apply Z.pow_le_mono_r; lia). lia.
Qed.

Lemma shl_pos m d : Z.pos (Pos.iter xO m d) = Z.pos m * 2 ^ Z.pos d.
Proof.
  revert m. induction d as [|d IH] using Pos.peano_ind; intros m; [cbn; lia|].
  rewrite Pos.iter_succ, Pos2Z.inj_succ, Z.pow_succ_r by lia. rewrite Pos2Z.inj_xO, IH. lia.
Qed.

Lemma iter_pos_nat {A} (f : A -> A) p x : SpecFloat.iter_pos f p x = Nat.iter (Pos.to_nat p) f x.
Proof.
  revert x. induction p as [p IH|p IH|]; intros x; cbn [SpecFloat.iter_pos]; rewrite ?IH; [| |done].
  - rewrite Pos2Nat.inj_xI. rewrite <- Nat.iter_add, <- Nat.iter_succ_r. f_equal. lia.
  - rewrite Pos2Nat.inj_xO. rewrite <- Nat.iter_add. f_equal. lia.
Qed.

(** Shifting right drops zeros. *)
Lemma shr_zeros n m : 0 < m -> Nat.iter n shr_1 (Build_shr_record (m * 2 ^ Z.of_nat n) false false) = Build_shr_record m false false.
Proof.
  intros Hm. induction n as [|n IH]; [cbn [Nat.iter]; change (2 ^ Z.of_nat 0) with 1; by rewrite Z.mul_1_r|].
  rewrite Nat.iter_succ_r. rewrite <- IH. f_equal.
  rewrite Nat2Z.inj_succ, Z.pow_succ_r by lia. replace (m * (2 * 2 ^ Z.of_nat n)) with (2 * (m * 2 ^ Z.of_nat n)) by lia.
  assert (Hp : 0 < m * 2 ^ Z.of_nat n) by (apply Z.mul_pos_pos; [lia|apply Z.pow_pos_nonneg; lia]).
  by destruct (m * 2 ^ Z.of_nat n).
Qed.

(** A mantissa of 53 bits with zeros behind it is cut to 53 bits. *)
Lemma shr_fexp_exact (m : positive) (n : nat) e : digits m = 53 -> -1074 <= e + Z.of_nat n ->
  exists r, shr_fexp 53 1024 (Z.pos m * 2 ^ Z.of_nat n) e loc_Exact = (r, e + Z.of_nat n) /\ shr_m r = Z.pos m /\
    loc_of_shr_record r = loc_Exact.
Proof.
  intros Hd He. unfold shr_fexp.
  assert (Ep : exists p, Z.pos m * 2 ^ Z.of_nat n = Z.pos p).
  { assert (0 < Z.pos m * 2 ^ Z.of_nat n) by (apply Z.mul_pos_pos; [lia|apply Z.pow_pos_nonneg; lia]).
    destruct (Z.pos m * 2 ^ Z.of_nat n); [lia|eauto|lia]. }
  destruct Ep as [p Ep]. assert (Hp : digits p = 53 + Z.of_nat n).
  { apply digits_unique; [lia|]. pose proof (digits_bounds m) as [D1 D2]. rewrite Hd in *. rewrite <- Ep.
    rewrite Z.add_comm, <- Z.add_sub_assoc, Z.pow_add_r, Z.pow_add_r by lia. nia. }
  assert (Ef : fexp 53 1024 (Zdigits2 (Z.pos m * 2 ^ Z.of_nat n) + e) - e = Z.of_nat n).
  { rewrite Ep. cbn [Zdigits2]. fold (digits p). rewrite Hp. unfold fexp, emin. lia. }
  rewrite Ef. cbn [shr_record_of_loc]. destruct n as [|n].
  - cbn [shr Z.of_nat]. eexists. split; [rewrite Z.add_0_r; reflexivity|]. change (2 ^ Z.of_nat 0) with 1. by rewrite Z.mul_1_r.
  - unfold shr. change (Z.of_nat (S n)) with (Z.pos (Pos.of_succ_nat n)). cbv iota beta. rewrite iter_pos_nat, SuccNat2Pos.id_succ.
    change (Z.pos (Pos.of_succ_nat n)) with (Z.of_nat (S n)). rewrite shr_zeros by lia. by eexists.
Qed.

Lemma round_exact (m : positive) (n : nat) e s : digits m = 53 -> -1074 <= e + Z.of_nat n <= 971 ->
  binary_round_aux 53 1024 s (Z.pos m * 2 ^ Z.of_nat n) e loc_Exact = S754_finite s m (e + Z.of_nat n).
Proof.
  intros Hd He. unfold binary_round_aux. destruct (shr_fexp_exact m n e Hd) as (r & E & Em & El); [lia|].
  rewrite E, Em, El. cbn [round_nearest_even].
  destruct (shr_fexp_exact m 0 (e + Z.of_nat n) Hd) as (r' & E' & Em' & El'); [lia|].
  change (2 ^ Z.of_nat 0) with 1 in E'. rewrite Z.mul_1_r in E'. rewrite E', Em'.
  replace (e + Z.of_nat n + Z.of_nat 0) with (e + Z.of_nat n) by lia. by rewrite (proj2 (Z.leb_le _ (1024 - 53))) by lia.
Qed.

(** The normalised mantissa of a positive integer below [2^53]. *)
Definition mantissa (a : positive) : positive := Z.to_pos (Z.pos a * 2 ^ (53 - digits a)).

Lemma mantissa_value a : digits a <= 53 -> Z.pos (mantissa a) = Z.pos a * 2 ^ (53 - digits a).
Proof.
  intros Ha. unfold mantissa. apply Z2Pos.id. apply Z.mul_pos_pos; [lia|]. apply Z.pow_pos_nonneg; lia.
Qed.

Lemma mantissa_digits a : digits a <= 53 -> digits (mantissa a) = 53.
Proof.
  intros Ha. assert (0 < digits a) by done. apply digits_unique; [lia|]. rewrite mantissa_value by done. pose proof (digits_bounds a) as [D1 D2].
  replace (53 - 1) with ((digits a - 1) + (53 - digits a)) by lia.
  replace 53 with (digits a + (53 - digits a)) at 4 by lia. rewrite !Z.pow_add_r by lia.
  assert (0 < 2 ^ (53 - digits a)) by (apply Z.pow_pos_nonneg; lia). nia.
Qed.

Lemma digits_small a : Z.pos a < 2 ^ 53 -> digits a <= 53.
Proof.
  intros Ha. pose proof (digits_bounds a) as [D _]. destruct (Z.le_gt_cases (digits a) 53) as [|Hd]; [done|exfalso].
  assert (2 ^ 53 <= 2 ^ (digits a - 1)) by (apply Z.pow_le_mono_r; lia). lia.
Qed.

Lemma dbl_of_pos a : digits a <= 53 -> dbl_of_Z (Z.pos a) = S754_finite false (mantissa a) (digits a - 53).
Proof.
  intros Ha. assert (0 < digits a) by done. unfold dbl_of_Z, binary_normalize, binary_round.
  assert (Ef : fexp 53 1024 (Z.pos (digits2_pos a) + 0) = digits a - 53) by (unfold fexp, emin, digits; lia).
  rewrite Ef. assert (Es : shl_align a 0 (digits a - 53) = (mantissa a, digits a - 53)).
  { unfold shl_align. destruct (digits a - 53 - 0) as [|d|d] eqn:Ed; [|lia|].
    - f_equal; [|lia]. unfold mantissa. replace (53 - digits a) with 0 by lia. by rewrite Z.mul_1_r.
    - f_equal. apply Pos2Z.inj. rewrite shl_pos, mantissa_value by lia. f_equal. f_equal. lia. }
  rewrite Es. pose proof (round_exact (mantissa a) 0 (digits a - 53) false (mantissa_digits a Ha)) as R.
  change (2 ^ Z.of_nat 0) with 1 in R. rewrite Z.mul_1_r in R. rewrite R by lia. f_equal. lia.
Qed.

Lemma digits_mono a b : Z.pos a <= Z.pos b -> digits a <= digits b.
Proof.
  intros Hab. pose proof (digits_bounds a) as [D1 _]. pose proof (digits_bounds b) as [_ D2].
  destruct (Z.le_gt_cases (digits a) (digits b)) as [|Hd]; [done|exfalso].
  assert (2 ^ digits b <= 2 ^ (digits a - 1)) by (apply Z.pow_le_mono_r; lia). lia.
Qed.

(** An exact product. *)
Lemma dbl_mul_exact a b : Z.pos a * Z.pos b < 2 ^ 53 ->
  SFmul 53 1024 (dbl_of_Z (Z.pos a)) (dbl_of_Z (Z.pos b)) = dbl_of_Z (Z.pos a * Z.pos b).
Proof.
  intros Hab. rewrite <- Pos2Z.inj_mul in *. pose proof (digits_small _ Hab) as Hd.
  pose proof (digits_mono a (a * b)) as Ha. pose proof (digits_mono b (a * b)) as Hb.
  assert (Z.pos a <= Z.pos (a * b) /\ Z.pos b <= Z.pos (a * b)) as [La Lb] by (rewrite Pos2Z.inj_mul; split; nia).
  specialize (Ha La). specialize (Hb Lb). assert (0 < digits a /\ 0 < digits b) as [Pa Pb] by done.
  rewrite !dbl_of_pos by lia. cbn [SFmul xorb].
  set (n := 53 + digits (a * b) - digits a - digits b). assert (Hn : 0 <= n) by (unfold n; lia).
  rewrite Pos2Z.inj_mul. rewrite !mantissa_value by lia.
  replace (Z.pos a * 2 ^ (53 - digits a) * (Z.pos b * 2 ^ (53 - digits b)))
    with (Z.pos (mantissa (a * b)) * 2 ^ Z.of_nat (Z.to_nat n)).
  2: { rewrite mantissa_value, Z2Nat.id, Pos2Z.inj_mul by lia.
       replace (Z.pos a * 2 ^ (53 - digits a) * (Z.pos b * 2 ^ (53 - digits b)))
         with (Z.pos a * Z.pos b * (2 ^ (53 - digits a) * 2 ^ (53 - digits b))) by ring.
       rewrite <- Z.mul_assoc, <- !Z.pow_add_r by lia. f_equal. f_equal. unfold n. lia. }
  assert (Hz : Z.of_nat (Z.to_nat n) = n) by (apply Z2Nat.id; done).
  rewrite round_exact; [|by apply mantissa_digits|rewrite Hz; unfold n; lia]. f_equal. rewrite Hz. unfold n. lia.
Qed.

(** A mantissa after rounding. *)
Lemma finish_round x e : 2 ^ 52 <= x <= 2 ^ 53 -> -1074 <= e <= 950 ->
  exists (m : positive) (j : nat) r, shr_fexp 53 1024 x e loc_Exact = (r, e + Z.of_nat j) /\ shr_m r = Z.pos m /\
    Z.pos m * 2 ^ Z.of_nat j = x /\ (j <= 1)%nat.
Proof.
  intros Hx He. destruct (decide (x = 2 ^ 53)) as [->|Hn].
  - destruct (shr_fexp_exact (2 ^ 52) 1 e) as (r & E & Em & _); [done|lia|]. exists (2 ^ 52)%positive, 1%nat, r. done.
  - destruct x as [|p|p]; [lia| |lia]. destruct (shr_fexp_exact p 0 e) as (r & E & Em & _); [apply digits_unique; lia|lia|].
    change (2 ^ Z.of_nat 0) with 1 in E. rewrite Z.mul_1_r in E. exists p, 0%nat, r. rewrite Z.mul_1_r. auto.
Qed.

(** The first shift of a mantissa of 53 or 54 bits. *)
Lemma first_shift q e l : 2 ^ 52 <= q < 2 ^ 54 -> -1074 <= e <= 900 ->
  exists r (i : nat), shr_fexp 53 1024 q e l = (r, e + Z.of_nat i) /\ (i <= 1)%nat /\
    let y := round_nearest_even (shr_m r) (loc_of_shr_record r) in
    2 ^ 52 <= y <= 2 ^ 53 /\ (if Z.even q then q else q - 1) <= y * 2 ^ Z.of_nat i <= q + 1.
Proof.
  intros Hq He. destruct q as [|p|p]; [lia| |lia]. unfold shr_fexp. cbn [Zdigits2]. fold (digits p).
  destruct (Z.lt_ge_cases (Z.pos p) (2 ^ 53)) as [Hl|Hl].
  - rewrite (digits_unique p 53) by lia. replace (fexp 53 1024 (53 + e) - e) with 0 by (unfold fexp, emin; lia).
    cbn [shr]. exists (shr_record_of_loc (Z.pos p) l), 0%nat. split; [f_equal; lia|]. split; [lia|].
    change (2 ^ Z.of_nat 0) with 1. rewrite Z.mul_1_r. pose proof (Zeven_odd_dec (Z.pos p)) as _.
    destruct l as [|[| |]]; cbn [shr_record_of_loc loc_of_shr_record shr_m round_nearest_even];
      destruct (Z.even (Z.pos p)); lia.
  - rewrite (digits_unique p 54) by lia. replace (fexp 53 1024 (54 + e) - e) with 1 by (unfold fexp, emin; lia).
    cbn [shr SpecFloat.iter_pos]. eexists _, 1%nat. split; [reflexivity|]. split; [lia|].
    change (2 ^ Z.of_nat 1) with 2.
    destruct l as [|[| |]]; destruct p as [p|p|]; try lia;
      cbn [shr_record_of_loc shr_1 orb loc_of_shr_record shr_m round_nearest_even Z.even];
      repeat case_match; lia.
Qed.

(** Rounding a mantissa of 53 or 54 bits moves it by one at most, and an even
    one never down. *)
Lemma round_near q e l : 2 ^ 52 <= q < 2 ^ 54 -> -1074 <= e <= 900 ->
  exists (m : positive) (j : nat), binary_round_aux 53 1024 false q e l = S754_finite false m (e + Z.of_nat j) /\
    (if Z.even q then q else q - 1) <= Z.pos m * 2 ^ Z.of_nat j <= q + 1.
Proof.
  intros Hq He. unfold binary_round_aux. destruct (first_shift q e l Hq He) as (r & i & E & Hi & Hy & Hb). rewrite E.
  destruct (finish_round (round_nearest_even (shr_m r) (loc_of_shr_record r)) (e + Z.of_nat i) Hy)
    as (m & j & r' & E' & Em & Ev & Hj); [lia|]. rewrite E', Em.
  rewrite (proj2 (Z.leb_le _ (1024 - 53))) by lia. exists m, (j + i)%nat. split; [f_equal; lia|].
  rewrite Nat2Z.inj_add, Z.pow_add_r, Z.mul_assoc, Ev by lia. done.
Qed.

(** Rounding does not reach the next integer. *)
Lemma near_quotient a b P Y : 0 <= a -> 0 < b < P -> Z.even P = true ->
  (if Z.even (a * P / b) then a * P / b else a * P / b - 1) <= Y <= a * P / b + 1 -> Y / P = a / b.
Proof.
  intros Ha Hb He HY. pose proof (Z_div_mod_eq_full a b) as Ea. pose proof (Z.mod_pos_bound a b) as Hr.
  set (t := a / b) in *. set (r := a mod b) in *.
  assert (Eq : a * P / b = t * P + r * P / b).
  { rewrite Ea at 1. replace ((b * t + r) * P) with (r * P + t * P * b) by ring. rewrite Z.div_add by lia. lia. }
  assert (Hw : 0 <= r * P / b) by (apply Z.div_pos; nia).
  assert (Hw2 : b * (r * P / b) <= r * P) by (apply Z.mul_div_le; lia).
  rewrite Eq in HY. set (w := r * P / b) in *. assert (w <= P - 2) by nia.
  assert (Hl : t * P <= Y).
  { destruct (decide (w = 0)) as [E0|E0]; [|destruct (Z.even (t * P + w)); lia].
    rewrite E0, Z.add_0_r, Z.even_mul, He, orb_true_r in HY. lia. }
  symmetry. apply (Z.div_unique_pos _ _ _ (Y - t * P)); [|ring]. destruct (Z.even _); lia.
Qed.

Lemma dbl_trunc_shift (m : positive) k j : 0 <= k -> 0 <= j ->
  dbl_trunc (S754_finite false m (- k + j)) = Ret (Z.pos m * 2 ^ j / 2 ^ k).
Proof.
  intros Hk Hj. cbn [dbl_trunc]. f_equal. destruct (Z.leb_spec 0 (- k + j)) as [Hl|Hl].
  - assert (Ep : 2 ^ j = 2 ^ (- k + j) * 2 ^ k) by (rewrite <- Z.pow_add_r by lia; f_equal; lia).
    rewrite Ep, Z.mul_assoc, Z.div_mul; [done|]. apply Z.pow_nonzero; lia.
  - assert (Ep : 2 ^ k = 2 ^ (- (- k + j)) * 2 ^ j) by (rewrite <- Z.pow_add_r by lia; f_equal; lia).
    rewrite Ep, Z.div_mul_cancel_r; [done|apply Z.pow_nonzero; lia..].
Qed.

(** The quotient of two mantissas has 53 or 54 bits. *)
Lemma quotient_bits A B : 2 ^ 52 <= A < 2 ^ 53 -> 2 ^ 52 <= B < 2 ^ 53 -> 2 ^ 52 <= A * 2 ^ 53 / B < 2 ^ 54.
Proof. intros HA HB. split; [apply Z.div_le_lower_bound|apply Z.div_lt_upper_bound]; lia. Qed.

Lemma mantissa_bounds a : digits a <= 53 -> 2 ^ 52 <= Z.pos a * 2 ^ (53 - digits a) < 2 ^ 53.
Proof.
  intros Ha. pose proof (digits_bounds (mantissa a)) as D. rewrite mantissa_digits, mantissa_value in D by done. done.
Qed.

(** The integer part of the rounded quotient of two integers. *)
Lemma dbl_div_trunc a b : Z.pos a < 2 ^ 53 -> Z.pos b < 2 ^ 53 ->
  dbl_trunc (SFdiv 53 1024 (dbl_of_Z (Z.pos a)) (dbl_of_Z (Z.pos b))) = Ret (Z.pos a / Z.pos b).
Proof.
  intros Ha Hb. apply digits_small in Ha, Hb. assert (0 < digits a /\ 0 < digits b) as [Pa Pb] by done.
  rewrite !dbl_of_pos by done. cbn [SFdiv xorb]. unfold SFdiv_core_binary. cbn [Zdigits2].
  fold (digits (mantissa a)) (digits (mantissa b)). rewrite !mantissa_digits by done.
  set (k := 53 - digits a + digits b).
  replace (Z.min _ _) with (- k) by (unfold fexp, emin, k; lia).
  replace (digits a - 53 - (digits b - 53) - - k) with 53 by (unfold k; lia).
  rewrite Z.shiftl_mul_pow2, !mantissa_value by lia.
  pose proof (quotient_bits _ _ (mantissa_bounds a Ha) (mantissa_bounds b Hb)) as Hq.
  assert (Eq : Z.pos a * 2 ^ (53 - digits a) * 2 ^ 53 / (Z.pos b * 2 ^ (53 - digits b)) = Z.pos a * 2 ^ k / Z.pos b).
  { replace (Z.pos a * 2 ^ (53 - digits a) * 2 ^ 53) with (Z.pos a * 2 ^ k * 2 ^ (53 - digits b)).
    - apply Z.div_mul_cancel_r; [lia|]. apply Z.pow_nonzero; lia.
    - rewrite <- !Z.mul_assoc, <- !Z.pow_add_r by (unfold k; lia). f_equal. f_equal. unfold k. lia. }
  rewrite Eq in Hq. unfold Z.div in Eq at 1. destruct (Z.div_eucl _ _) as [q r]. subst q.
  destruct (round_near _ (- k) (new_location (Z.pos b * 2 ^ (53 - digits b)) r) Hq) as (m & j & E & Hm); [unfold k; lia|].
  rewrite E, dbl_trunc_shift by (unfold k; lia). f_equal. apply near_quotient; [lia| | |done].
  - split; [lia|]. pose proof (digits_bounds b) as [_ D].
    assert (2 ^ digits b <= 2 ^ k) by (apply Z.pow_le_mono_r; unfold k; lia). lia.
  - rewrite Z.even_pow by (unfold k; lia). done.
Qed.

(** [(int)((double)a * c / (double)b)] for small integers. *)
Lemma dbl_muldiv a c b : 0 <= a -> 0 < c < 2 ^ 53 -> 0 < b < 2 ^ 53 -> a * c < 2 ^ 53 ->
  dbl_trunc (SFdiv 53 1024 (SFmul 53 1024 (dbl_of_Z a) (dbl_of_Z c)) (dbl_of_Z b)) = Ret (a * c / b).
Proof.
  intros Ha Hc Hb Hac. destruct c as [|c|c]; [lia| |lia]. destruct b as [|b|b]; [lia| |lia].
  destruct a as [|a|a]; [| |lia].
  - rewrite (dbl_of_pos b) by (apply digits_small; lia). rewrite (dbl_of_pos c) by (apply digits_small; lia). done.
  - rewrite dbl_mul_exact, <- Pos2Z.inj_mul by lia. by rewrite dbl_div_trunc by lia.
Qed.
