(* ===== verification/DoubleValid.v ===== *)
(** * Rounding yields binary64 values

    Every result of the rounding of [SpecFloat] is a double of the format: the
    mantissa has its 53 bits, or fewer at the least exponent, and an exponent
    too large becomes an infinity.  So is every number [sscanf] reads. *)
From Stdlib Require Import SpecFloat.
From S2P Require Import Prelude Words Buffers CString Decimal Double DoubleArith.

Definition valid (x : double) : Prop := valid_binary 53 1024 x = true.

Lemma fexp_mono a b : a <= b -> fexp 53 1024 a <= fexp 53 1024 b.
Proof. unfold fexp. lia. Qed.

Lemma Zdigits2_bounds m : 0 < m -> 0 < Zdigits2 m /\ 2 ^ (Zdigits2 m - 1) <= m < 2 ^ Zdigits2 m.
Proof. destruct m as [|p|p]; [lia| |lia]. intros _. split; [done|]. exact (digits_bounds p). Qed.

Lemma Zdigits2_nonneg m : 0 <= m -> 0 <= Zdigits2 m.
Proof. by destruct m. Qed.

Lemma Zdigits2_unique m k : 0 <= k -> 2 ^ (k - 1) <= m < 2 ^ k -> Zdigits2 m = k.
Proof.
  intros Hk H. assert (0 <= 2 ^ (k - 1)) by (apply Z.pow_nonneg; lia).
  destruct (decide (m = 0)) as [->|].
  - destruct (decide (k = 0)) as [->|]; [done|]. assert (0 < 2 ^ (k - 1)) by (apply Z.pow_pos_nonneg; lia). lia.
  - destruct m as [|p|p]; [lia| |lia]. by apply digits_unique.
Qed.

Lemma Zdigits2_le m k : 0 <= k -> 2 ^ (k - 1) <= m -> k <= Zdigits2 m.
Proof.
  intros Hk H. destruct (decide (k = 0)) as [->|].
  { apply Zdigits2_nonneg. change (2 ^ (0 - 1)) with 0 in H. lia. }
  assert (0 < 2 ^ (k - 1)) by (apply Z.pow_pos_nonneg; lia).
  pose proof (Zdigits2_bounds m) as [Hd [_ Hm]]; [lia|]. apply Z.le_ngt. intros Hlt.
  assert (2 ^ Zdigits2 m <= 2 ^ (k - 1)) by (apply Z.pow_le_mono_r; lia). lia.
Qed.

Lemma Zdigits2_mono a b : 0 <= a <= b -> Zdigits2 a <= Zdigits2 b.
Proof.
  intros H. destruct (decide (a = 0)) as [->|]; [apply (Zdigits2_nonneg b); lia|].
  pose proof (Zdigits2_bounds a) as [Hd [Ha _]]; [lia|]. apply Zdigits2_le; lia.
Qed.

(** Dividing by a power of two drops as many bits. *)
Lemma Zdigits2_shift m n : 0 <= n -> 0 < m / 2 ^ n -> Zdigits2 (m / 2 ^ n) = Zdigits2 m - n.
Proof.
  intros Hn H. assert (0 < 2 ^ n) by (apply Z.pow_pos_nonneg; lia).
  assert (Hm : 2 ^ n <= m) by (apply Z.nlt_ge; intros Hlt; assert (m / 2 ^ n <= 0); [|lia]; destruct (decide (0 <= m));
    [by rewrite Z.div_small by lia|apply Z.div_le_upper_bound; lia]).
  pose proof (Zdigits2_bounds m) as [Hd [H1 H2]]; [lia|].
  assert (n < Zdigits2 m).
  { apply Z.nle_gt. intros Hle. assert (2 ^ Zdigits2 m <= 2 ^ n) by (apply Z.pow_le_mono_r; lia). lia. }
  apply Zdigits2_unique; [lia|]. split.
  - apply Z.div_le_lower_bound; [done|]. rewrite <- Z.pow_add_r by lia. by replace (n + _) with (Zdigits2 m - 1) by lia.
  - apply Z.div_lt_upper_bound; [done|]. rewrite <- Z.pow_add_r by lia. by replace (n + _) with (Zdigits2 m) by lia.
Qed.

Lemma shr_1_half r : 0 <= shr_m r -> shr_m (shr_1 r) = shr_m r / 2 /\ 0 <= shr_m (shr_1 r).
Proof.
  destruct r as [m b s]. cbn [shr_m]. intros Hm. destruct m as [|[p|p|]|p]; cbn [shr_1 shr_m]; try lia; rewrite <- Z.div2_div; done.
Qed.

Lemma shr_iter n r : 0 <= shr_m r -> shr_m (Nat.iter n shr_1 r) = shr_m r / 2 ^ Z.of_nat n /\ 0 <= shr_m (Nat.iter n shr_1 r).
Proof.
  intros Hr. induction n as [|n [IH1 IH2]]; [cbn; by rewrite Z.div_1_r|].
  rewrite Nat.iter_succ. destruct (shr_1_half _ IH2) as [-> H]. split; [|exact H].
  rewrite IH1, Z.div_div by lia. f_equal. rewrite Nat2Z.inj_succ, Z.pow_succ_r by lia. lia.
Qed.

(** The shift of the rounding, of a mantissa long enough. *)
Lemma shr_fexp_shift m e l : 0 <= m -> e <= fexp 53 1024 (Zdigits2 m + e) ->
  exists r, shr_fexp 53 1024 m e l = (r, fexp 53 1024 (Zdigits2 m + e))
    /\ shr_m r = m / 2 ^ (fexp 53 1024 (Zdigits2 m + e) - e).
Proof.
  intros Hm He. unfold shr_fexp. set (e' := fexp 53 1024 (Zdigits2 m + e)) in *.
  assert (Er : shr_m (shr_record_of_loc m l) = m) by (by destruct l as [|[]]).
  unfold shr. destruct (e' - e) as [|p|p] eqn:E; [|..|lia].
  - exists (shr_record_of_loc m l). rewrite Er, Z.div_1_r. split; [|done]. f_equal. lia.
  - rewrite iter_pos_nat. eexists. split; [f_equal; lia|].
    destruct (shr_iter (Pos.to_nat p) (shr_record_of_loc m l)) as [-> _]; [by rewrite Er|].
    by rewrite Er, positive_nat_Z.
Qed.

Lemma round_nearest_range x l : x <= round_nearest_even x l <= x + 1.
Proof. destruct l as [|[]]; cbn; try lia. case_match; lia. Qed.

(** Rounding a mantissa that is long enough. *)
Lemma round_valid s m e l : 0 <= m -> e <= fexp 53 1024 (Zdigits2 m + e) ->
  valid (binary_round_aux 53 1024 s m e l).
Proof.
  intros Hm He. unfold binary_round_aux. destruct (shr_fexp_shift m e l Hm He) as (r & -> & Er).
  set (e' := fexp 53 1024 (Zdigits2 m + e)) in *. set (y := round_nearest_even _ _).
  pose proof (round_nearest_range (shr_m r) (loc_of_shr_record r)) as Hy. fold y in Hy.
  assert (H0 : 0 <= shr_m r) by (rewrite Er; apply Z.div_pos; [done|apply Z.pow_pos_nonneg; lia]).
  assert (He' : e' <= fexp 53 1024 (Zdigits2 y + e')).
  { destruct (decide (0 < shr_m r)) as [Hp|Hp].
    - rewrite Er in Hp. pose proof (Zdigits2_shift m (e' - e) ltac:(lia) Hp) as Ed. rewrite <- Er in Ed.
      pose proof (Zdigits2_mono (shr_m r) y ltac:(lia)). unfold e' at 1. apply fexp_mono. lia.
    - assert (e' = -1074 \/ Zdigits2 m + e = e' + 53) as [->|Hd] by (unfold e', fexp, emin; lia); [unfold fexp, emin; lia|].
      exfalso. assert (Ez : m / 2 ^ (e' - e) = 0) by lia.
      pose proof (Zdigits2_nonneg m Hm). destruct (decide (m = 0)) as [->|]; [cbn in *; lia|].
      pose proof (Zdigits2_bounds m) as [_ [Hb _]]; [lia|].
      assert (0 < 2 ^ (e' - e)) by (apply Z.pow_pos_nonneg; lia). apply Z.div_small_iff in Ez; [|lia].
      assert (2 ^ (e' - e) <= 2 ^ (Zdigits2 m - 1)) by (apply Z.pow_le_mono_r; lia). lia. }
  destruct (shr_fexp_shift y e' loc_Exact) as (r' & -> & Er'); [lia|done|].
  set (e2 := fexp 53 1024 (Zdigits2 y + e')) in *. destruct (shr_m r') as [|p|p] eqn:Ep; [done| |done].
  destruct (Z.leb_spec e2 (1024 - 53)) as [Hle|]; [|done]. unfold valid. cbn [valid_binary]. unfold bounded, canonical_mantissa.
  assert (Ed : Z.pos (digits2_pos p) = Zdigits2 y - (e2 - e')).
  { change (Z.pos (digits2_pos p)) with (Zdigits2 (Z.pos p)). rewrite Er'. apply Zdigits2_shift; lia. }
  rewrite Ed. replace (Zdigits2 y - (e2 - e') + e2) with (Zdigits2 y + e') by lia. fold e2.
  apply andb_true_iff. split; [by apply Z.eqb_eq|lia].
Qed.

Lemma binary_round_valid s m e : valid (binary_round 53 1024 s m e).
Proof.
  unfold binary_round. set (e' := fexp 53 1024 (Z.pos (digits2_pos m) + e)).
  unfold shl_align. destruct (e' - e) as [|d|d] eqn:E; try (apply round_valid; [done|]; cbn [Zdigits2]; lia).
  apply round_valid; [done|]. cbn [Zdigits2]. fold (digits (Pos.iter xO m d)).
  replace (digits (Pos.iter xO m d) + e') with (Z.pos (digits2_pos m) + e); [done|].
  enough (digits (Pos.iter xO m d) = digits m + Z.pos d) as -> by (unfold digits; lia).
  pose proof (digits_bounds m) as [D1 D2]. assert (0 < digits m) by done.
  apply digits_unique; [lia|]. rewrite shl_pos, Z.pow_add_r by lia.
  replace (digits m + Z.pos d - 1) with (digits m - 1 + Z.pos d) by lia. rewrite Z.pow_add_r by lia.
  assert (0 < 2 ^ Z.pos d) by (apply Z.pow_pos_nonneg; lia). nia.
Qed.

Lemma quotient_long a b s : 0 < a -> 0 < b -> 0 <= s ->
  Zdigits2 a + s - Zdigits2 b <= Zdigits2 (a * 2 ^ s / b).
Proof.
  intros Ha Hb Hs. pose proof (Zdigits2_bounds a Ha) as [Pa [A1 _]]. pose proof (Zdigits2_bounds b Hb) as [Pb [_ B2]].
  assert (Hp : 0 < 2 ^ s) by (apply Z.pow_pos_nonneg; lia).
  assert (0 <= a * 2 ^ s / b) by (apply Z.div_pos; [nia|done]).
  destruct (decide (Zdigits2 a + s - Zdigits2 b <= 0)) as [Hk|Hk].
  { etransitivity; [exact Hk|]. by apply Zdigits2_nonneg. }
  apply Zdigits2_le; [lia|]. apply Z.div_le_lower_bound; [done|].
  transitivity (2 ^ Zdigits2 b * 2 ^ (Zdigits2 a + s - Zdigits2 b - 1)).
  - apply Z.mul_le_mono_nonneg_r; [by apply Z.pow_nonneg|lia].
  - rewrite <- Z.pow_add_r by lia. replace (Zdigits2 b + _) with ((Zdigits2 a - 1) + s) by lia.
    rewrite Z.pow_add_r by lia. apply Z.mul_le_mono_nonneg_r; lia.
Qed.

Lemma div_valid s a ea t b eb :
  valid (SFdiv 53 1024 (S754_finite s a ea) (S754_finite t b eb)).
Proof.
  cbn [SFdiv]. unfold SFdiv_core_binary.
  set (e := Z.min (fexp 53 1024 (Zdigits2 (Z.pos a) + ea - (Zdigits2 (Z.pos b) + eb))) (ea - eb)).
  assert (Em : match ea - eb - e with Z.pos _ => Z.shiftl (Z.pos a) (ea - eb - e) | Z0 => Z.pos a | Z.neg _ => 0 end
    = Z.pos a * 2 ^ (ea - eb - e)).
  { assert (0 <= ea - eb - e) by lia. rewrite <- Z.shiftl_mul_pow2 by done. destruct (ea - eb - e); [done|done|lia]. }
  rewrite Em. pose proof (Z_div_mod (Z.pos a * 2 ^ (ea - eb - e)) (Z.pos b) eq_refl) as Hd.
  assert (Hq : (Z.div_eucl (Z.pos a * 2 ^ (ea - eb - e)) (Z.pos b)).1 = Z.pos a * 2 ^ (ea - eb - e) / Z.pos b).
  { unfold Z.div. by destruct (Z.div_eucl _ _). }
  destruct (Z.div_eucl _ _) as [q r]. cbn [fst] in Hq. destruct Hd as [_ _].
  pose proof (quotient_long (Z.pos a) (Z.pos b) (ea - eb - e) eq_refl eq_refl ltac:(lia)) as Hl. rewrite <- Hq in Hl.
  apply round_valid.
  - rewrite Hq. apply Z.div_pos; [|done]. apply Z.mul_nonneg_nonneg; [done|]. apply Z.pow_nonneg. lia.
  - unfold e at 1. etransitivity; [apply Z.le_min_l|]. apply fexp_mono. lia.
Qed.

Lemma dbl_decimal_valid neg m e : valid (dbl_decimal neg m e).
Proof.
  destruct m as [|p|p]; [done| |done]. cbn [dbl_decimal]. case_match; [apply binary_round_valid|apply div_valid].
Qed.

Lemma sscanf_valid s x : sscanf_lf s = Some x -> valid x.
Proof.
  unfold sscanf_lf. destruct (scan_sign s) as [neg s1]. destruct (span isdigit s1) as [ip s2].
  destruct (match s2 with [] => _ | _ => _ end) as [fp s3]. case_decide; [done|].
  intros (ex & _ & E)%bind_Some. injection E as <-. apply dbl_decimal_valid.
Qed.
