(* ===== verification/JsonValue.v ===== *)
(** * JSON values (src/public/json/json_value.cpp, include/value.h)

    The class [Json::Value]: a tagged union with up to three comments.  Arrays
    and objects hold a [std::map] ([StdMap]), keyed by an index or a member
    name; a string is the bytes before its terminator, [None] the null pointer.
    A reference to an element is a [step] into its container: [child] reads
    and [set_child] writes through it, so a path of steps is a pointer into a
    tree.  A function that returns [const Value &] may return the static
    [Value::null], which the callers recognise by its address: [None].

    [allocated_] only says who frees the string and is left out. *)
From Stdlib Require Import Sorted SpecFloat.
From S2P Require Import Prelude Words Buffers CString StdMap Decimal Double.

(** ** Data *)

Inductive ValueType :=
| nullValue | intValue | uintValue | realValue
| stringValue | booleanValue | arrayValue | objectValue.

Definition type_code (t : ValueType) : Z :=
  match t with
  | nullValue => 0 | intValue => 1 | uintValue => 2 | realValue => 3
  | stringValue => 4 | booleanValue => 5 | arrayValue => 6 | objectValue => 7
  end.

#[global] Instance ValueType_eq_dec : EqDecision ValueType.
Proof. solve_decision. Defined.

Inductive CommentPlacement := commentBefore | commentAfterOnSameLine | commentAfter.

(** The array [comments_]; a null pointer is an array of absent comments. *)
Record CommentInfo := {
  comment_before : option (list Z);
  comment_same_line : option (list Z);
  comment_after : option (list Z)
}.
Definition no_comments : CommentInfo := Build_CommentInfo None None None.

(** [type_] and [value_], over the values held by a container. *)
Inductive data (V : Type) :=
| d_null
| d_int (z : Z)
| d_uint (z : Z)
| d_real (x : double)
| d_string (s : option (list Z))
| d_bool (b : bool)
| d_array (m : stdmap Z V)
| d_object (m : stdmap (list Z) V).
Arguments d_null {V}.
Arguments d_int {V} z.
Arguments d_uint {V} z.
Arguments d_real {V} x.
Arguments d_string {V} s.
Arguments d_bool {V} b.
Arguments d_array {V} m.
Arguments d_object {V} m.

#[local] Unset Elimination Schemes.
Inductive Value := MkValue { value_ : data Value; comments_ : CommentInfo }.
#[local] Set Elimination Schemes.

Definition type_ (v : Value) : ValueType :=
  match value_ v with
  | d_null => nullValue | d_int _ => intValue | d_uint _ => uintValue | d_real _ => realValue
  | d_string _ => stringValue | d_bool _ => booleanValue
  | d_array _ => arrayValue | d_object _ => objectValue
  end.

Definition minInt : Z := - 2 ^ 31.
Definition maxInt : Z := 2 ^ 31 - 1.
Definition maxUInt : Z := 2 ^ 32 - 1.


(** ** Constructors *)

Definition plain (d : data Value) : Value := MkValue d no_comments.
Definition null : Value := plain d_null.

Definition Value_type (t : ValueType) : Value :=
  plain match t with
        | nullValue => d_null
        | intValue => d_int 0
        | uintValue => d_uint 0
        | realValue => d_real dbl_zero
        | stringValue => d_string None
        | arrayValue => d_array []
        | objectValue => d_object []
        | booleanValue => d_bool false
        end.
Definition Value_int (z : Z) : Value := plain (d_int z).
Definition Value_uint (z : Z) : Value := plain (d_uint z).
Definition Value_double (x : double) : Value := plain (d_real x).
Definition Value_string (s : list Z) : Value := plain (d_string (Some (upto_nul s))).
Definition Value_bool (b : bool) : Value := plain (d_bool b).

(** [swap] exchanges everything but the comments. *)
Definition swap (this other : Value) : Value * Value :=
  (MkValue (value_ other) (comments_ this), MkValue (value_ this) (comments_ other)).

(** [operator=]: a copy is swapped in and dropped. *)
Definition assign (this other : Value) : Value := (swap this other).1.

(** ** Comparison

    The comparison of two maps, as [std::lexicographical_compare] and
    [std::equal] on their pairs; [lt s x y] is [x < y], or [y < x] if [s]. *)
Section compare_maps.
Context {K V : Type} `{Key K} (lt : bool -> V -> V -> bool) (eqv : V -> V -> bool).

Definition pair_less (s : bool) (k : K) (x : V) (l : K) (y : V) : bool :=
  if s then key_lt l k || (negb (key_lt k l) && lt true x y)
  else key_lt k l || (negb (key_lt l k) && lt false x y).

Fixpoint maps_less (s : bool) (xs ys : stdmap K V) : bool :=
  match xs, ys with
  | [], [] => false
  | [], _ :: _ => negb s
  | _ :: _, [] => s
  | (k, x) :: xs', (l, y) :: ys' =>
      if pair_less s k x l y then true
      else if pair_less (negb s) k x l y then false else maps_less s xs' ys'
  end.

Fixpoint maps_equal (xs ys : stdmap K V) : bool :=
  match xs, ys with
  | [], [] => true
  | (k, x) :: xs', (l, y) :: ys' => key_eq k l && eqv x y && maps_equal xs' ys'
  | _, _ => false
  end.

(** Maps of different sizes are ordered by their size. *)
Definition sized_less (s : bool) (xs ys : stdmap K V) : bool :=
  let delta := Z.of_nat (length xs) - Z.of_nat (length ys) in
  let delta := if s then - delta else delta in
  if negb (delta =? 0) then delta <? 0 else maps_less s xs ys.

Definition sized_equal (xs ys : stdmap K V) : bool :=
  (Z.of_nat (length xs) =? Z.of_nat (length ys)) && maps_equal xs ys.
End compare_maps.

(** The order of strings puts a null pointer first. *)
Definition string_less (s t : option (list Z)) : bool :=
  match s, t with
  | None, Some _ => true
  | Some s, Some t => strcmp_lt s t
  | _, None => false
  end.

Definition string_equal (s t : option (list Z)) : bool :=
  match s, t with
  | None, None => true
  | Some s, Some t => strcmp_eq s t
  | _, _ => false
  end.

(** [less sw a b] is [operator<] of [a] and [b], in that order unless [sw]
    exchanges them: the comparison of two maps needs both orders. *)
Fixpoint less (sw : bool) (a b : Value) {struct a} : bool :=
  let ordered {A B : Type} (lt : A -> A -> B) (x y : A) := if sw then lt y x else lt x y in
  let delta := ordered Z.sub (type_code (type_ a)) (type_code (type_ b)) in
  if negb (delta =? 0) then delta <? 0
  else
    match value_ a, value_ b with
    | d_null, d_null => false
    | d_int x, d_int y => ordered Z.ltb x y
    | d_uint x, d_uint y => ordered Z.ltb x y
    | d_real x, d_real y => ordered dbl_lt x y
    | d_bool x, d_bool y => ordered (fun p q => negb p && q) x y
    | d_string x, d_string y => ordered string_less x y
    | d_array x, d_array y => sized_less less sw x y
    | d_object x, d_object y => sized_less less sw x y
    | _, _ => false
    end.

Definition value_lt (a b : Value) : bool := less false a b.
Definition value_gt (a b : Value) : bool := value_lt b a.
(** [!(other > *this)]. *)
Definition value_le (a b : Value) : bool := negb (value_gt b a).
Definition value_ge (a b : Value) : bool := negb (value_lt a b).

Fixpoint value_eq (a b : Value) {struct a} : bool :=
  match value_ a, value_ b with
  | d_null, d_null => true
  | d_int x, d_int y => x =? y
  | d_uint x, d_uint y => x =? y
  | d_real x, d_real y => dbl_eq x y
  | d_bool x, d_bool y => Bool.eqb x y
  | d_string x, d_string y => string_equal x y
  | d_array x, d_array y => sized_equal value_eq x y
  | d_object x, d_object y => sized_equal value_eq x y
  | _, _ => false
  end.
Definition value_ne (a b : Value) : bool := negb (value_eq a b).

(** ** Conversions *)

(** [JSON_ASSERT_MESSAGE]. *)
Definition assert_message (b : bool) (msg : string) : cpp unit := if b then Ret tt else Throw msg.

Definition asCString (v : Value) : cpp (option (list Z)) :=
  match value_ v with d_string s => Ret s | _ => Abort end.

Definition asString (v : Value) : cpp (list Z) :=
  match value_ v with
  | d_null => Ret []
  | d_string s => Ret (from_option (fun x => x) [] s)
  | d_bool b => Ret (codes (if b then "true" else "false"))
  | _ => Throw "Type is not convertible to string"
  end.

Definition asInt (v : Value) : cpp Z :=
  match value_ v with
  | d_null => Ret 0
  | d_int z => Ret z
  | d_uint z =>
      assert_message (z <? maxInt) "integer out of signed integer range" ;;
      Ret (s32 z)
  | d_real x =>
      assert_message (dbl_le (dbl_of_Z minInt) x && dbl_le x (dbl_of_Z maxInt))
        "Real out of signed integer range" ;;
      z ← dbl_trunc x; int_checked z
  | d_bool b => Ret (if b then 1 else 0)
  | _ => Throw "Type is not convertible to int"
  end.

Definition asUInt (v : Value) : cpp Z :=
  match value_ v with
  | d_null => Ret 0
  | d_int z =>
      assert_message (0 <=? z) "Negative integer can not be converted to unsigned integer" ;;
      Ret (u32 z)
  | d_uint z => Ret z
  | d_real x =>
      assert_message (dbl_le (dbl_of_Z 0) x && dbl_le x (dbl_of_Z maxUInt))
        "Real out of unsigned integer range" ;;
      z ← dbl_trunc x; defined ((0 <=? z) && (z <=? maxUInt)) ;; Ret z
  | d_bool b => Ret (if b then 1 else 0)
  | _ => Throw "Type is not convertible to uint"
  end.

Definition asDouble (v : Value) : cpp double :=
  match value_ v with
  | d_null => Ret dbl_zero
  | d_int z => Ret (dbl_of_Z z)
  | d_uint z => Ret (dbl_of_Z z)
  | d_real x => Ret x
  | d_bool b => Ret (dbl_of_Z (if b then 1 else 0))
  | _ => Throw "Type is not convertible to double"
  end.

Definition asBool (v : Value) : bool :=
  match value_ v with
  | d_null => false
  | d_int z => negb (z =? 0)
  | d_uint z => negb (s32 z =? 0)
  | d_real x => negb (dbl_eq x dbl_zero)
  | d_bool b => b
  | d_string s => match s with Some (_ :: _) => true | _ => false end
  | d_array m => negb (Z.of_nat (length m) =? 0)
  | d_object m => negb (Z.of_nat (length m) =? 0)
  end.

Definition isConvertibleTo (v : Value) (other : ValueType) : bool :=
  let to t := bool_decide (other = t) in
  match value_ v with
  | d_null => true
  | d_int z =>
      (to nullValue && (z =? 0)) || to intValue || (to uintValue && (0 <=? z))
      || to realValue || to stringValue || to booleanValue
  | d_uint z =>
      (to nullValue && (z =? 0)) || (to intValue && (z <=? maxInt)) || to uintValue
      || to realValue || to stringValue || to booleanValue
  | d_real x =>
      (to nullValue && dbl_eq x dbl_zero)
      || (to intValue && dbl_le (dbl_of_Z minInt) x && dbl_le x (dbl_of_Z maxInt))
      || (to uintValue && dbl_le (dbl_of_Z 0) x && dbl_le x (dbl_of_Z maxUInt))
      || to realValue || to stringValue || to booleanValue
  | d_bool b =>
      (to nullValue && negb b) || to intValue || to uintValue
      || to realValue || to stringValue || to booleanValue
  | d_string s =>
      to stringValue || (to nullValue && match s with Some (_ :: _) => false | _ => true end)
  | d_array m => to arrayValue || (to nullValue && (Z.of_nat (length m) =? 0))
  | d_object m => to objectValue || (to nullValue && (Z.of_nat (length m) =? 0))
  end.

Definition isNull v := bool_decide (type_ v = nullValue).
Definition isBool v := bool_decide (type_ v = booleanValue).
Definition isInt v := bool_decide (type_ v = intValue).
Definition isUInt v := bool_decide (type_ v = uintValue).
Definition isIntegral v :=
  bool_decide (type_ v = intValue) || bool_decide (type_ v = uintValue) || bool_decide (type_ v = booleanValue).
Definition isDouble v := bool_decide (type_ v = realValue).
Definition isNumeric v := isIntegral v || isDouble v.
Definition isString v := bool_decide (type_ v = stringValue).
Definition isArray v := bool_decide (type_ v = nullValue) || bool_decide (type_ v = arrayValue).
Definition isObject v := bool_decide (type_ v = nullValue) || bool_decide (type_ v = objectValue).

(** ** Containers *)

(** The size of an array is its highest index and one. *)
Definition size (v : Value) : cpp Z :=
  match value_ v with
  | d_array m =>
      match last m with
      | Some (i, _) => n ← int_checked (i + 1); Ret (u32 n)
      | None => Ret 0
      end
  | d_object m => Ret (u32 (Z.of_nat (length m)))
  | _ => Ret 0
  end.

Definition empty (v : Value) : cpp bool :=
  if isNull v || isArray v || isObject v then n ← size v; Ret (n =? 0) else Ret false.

Definition operator_not (v : Value) : bool := isNull v.

Definition clear (v : Value) : cpp Value :=
  match value_ v with
  | d_null => Ret v
  | d_array _ => Ret (MkValue (d_array []) (comments_ v))
  | d_object _ => Ret (MkValue (d_object []) (comments_ v))
  | _ => Abort
  end.

(** The null value becomes a container when it is indexed. *)
Definition become (t : ValueType) (v : Value) : Value :=
  if isNull v then assign v (Value_type t) else v.

(** [Value &operator[](UInt)]: the array with the element it refers to. *)
Definition index_ref (v : Value) (i : Z) : cpp Value :=
  match value_ (become arrayValue v) with
  | d_array m =>
      Ret (MkValue (d_array (map_update (s32 i) (from_option (fun x => x) null) m)) (comments_ v))
  | _ => Abort
  end.

(** [const Value &operator[](UInt) const]. *)
Definition index_get (v : Value) (i : Z) : cpp (option Value) :=
  match value_ v with
  | d_null => Ret None
  | d_array m => Ret (map_find (s32 i) m)
  | _ => Abort
  end.

(** [resolveReference], behind [Value &operator[]] of a member name. *)
Definition resolveReference (v : Value) (key : list Z) : cpp Value :=
  match value_ (become objectValue v) with
  | d_object m =>
      Ret (MkValue (d_object (map_update (upto_nul key) (from_option (fun x => x) null) m)) (comments_ v))
  | _ => Abort
  end.

(** The [const] access to a member by its name. *)
Definition member_get (v : Value) (key : list Z) : cpp (option Value) :=
  match value_ v with
  | d_null => Ret None
  | d_object m => Ret (map_find (upto_nul key) m)
  | _ => Abort
  end.

Definition get_index (v : Value) (i : Z) (defaultValue : Value) : cpp Value :=
  r ← index_get v i; Ret (from_option (fun x => x) defaultValue r).
Definition get_member (v : Value) (key : list Z) (defaultValue : Value) : cpp Value :=
  r ← member_get v key; Ret (from_option (fun x => x) defaultValue r).

Definition isValidIndex (v : Value) (i : Z) : cpp bool := n ← size v; Ret (i <? n).

Definition isMember (v : Value) (key : list Z) : cpp bool :=
  r ← member_get v key; Ret (bool_decide (is_Some r)).

Definition removeMember (v : Value) (key : list Z) : cpp (Value * Value) :=
  match value_ v with
  | d_null => Ret (v, null)
  | d_object m =>
      match map_find (upto_nul key) m with
      | None => Ret (v, null)
      | Some old => Ret (MkValue (d_object (map_erase (upto_nul key) m)) (comments_ v), old)
      end
  | _ => Abort
  end.

Definition getMemberNames (v : Value) : cpp (list (list Z)) :=
  match value_ v with
  | d_null => Ret []
  | d_object m => Ret m.*1
  | _ => Abort
  end.

(** [value_.map_->erase(index)] of an array. *)
Definition erase_index (v : Value) (i : Z) : cpp Value :=
  match value_ v with
  | d_array m => Ret (MkValue (d_array (map_erase (s32 i) m)) (comments_ v))
  | _ => Abort
  end.

Definition resize (v : Value) (newSize : Z) : cpp Value :=
  cassert (isArray v) ;;
  let v := become arrayValue v in
  oldSize ← size v;
  if newSize =? 0 then clear v
  else if oldSize <? newSize then index_ref v (newSize - 1)
  else
    v ← cfor (fun i v => erase_index v (newSize + Z.of_nat i)) (Z.to_nat (oldSize - newSize)) 0 v;
    n ← size v; cassert (n =? newSize) ;; Ret v.

(** ** Comments *)

Definition comment_at (p : CommentPlacement) (c : CommentInfo) : option (list Z) :=
  match p with
  | commentBefore => comment_before c
  | commentAfterOnSameLine => comment_same_line c
  | commentAfter => comment_after c
  end.

Definition put_comment (p : CommentPlacement) (t : list Z) (c : CommentInfo) : CommentInfo :=
  match p with
  | commentBefore => Build_CommentInfo (Some t) (comment_same_line c) (comment_after c)
  | commentAfterOnSameLine => Build_CommentInfo (comment_before c) (Some t) (comment_after c)
  | commentAfter => Build_CommentInfo (comment_before c) (comment_same_line c) (Some t)
  end.

(** [CommentInfo::setComment] demands a leading slash. *)
Definition setComment (v : Value) (text : list Z) (p : CommentPlacement) : cpp Value :=
  assert_message match upto_nul text with [] => true | c :: _ => c =? 47 end
    "Comments must start with /" ;;
  Ret (MkValue (value_ v) (put_comment p (upto_nul text) (comments_ v))).

Definition hasComment (v : Value) (p : CommentPlacement) : bool :=
  bool_decide (is_Some (comment_at p (comments_ v))).

Definition getComment (v : Value) (p : CommentPlacement) : list Z :=
  from_option (fun x => x) [] (comment_at p (comments_ v)).

(** ** References *)

Inductive step := Index (i : Z) | Member (key : list Z).
#[global] Instance step_eq_dec : EqDecision step.
Proof. solve_decision. Defined.

Definition child (v : Value) (s : step) : option Value :=
  match s, value_ v with
  | Index i, d_array m => map_find i m
  | Member k, d_object m => map_find k m
  | _, _ => None
  end.

(** Writes through a reference to an existing element. *)
Definition set_child (v : Value) (s : step) (f : Value -> Value) : Value :=
  let new o := f (from_option (fun x => x) null o) in
  match s, value_ v with
  | Index i, d_array m => MkValue (d_array (map_update i new m)) (comments_ v)
  | Member k, d_object m => MkValue (d_object (map_update k new m)) (comments_ v)
  | _, _ => v
  end.

(** A pointer into the tree below [v]. *)
Definition pointer := list step.

Fixpoint deref (v : Value) (p : pointer) : option Value :=
  match p with
  | [] => Some v
  | s :: q => c ← child v s; deref c q
  end.

Fixpoint store (v : Value) (p : pointer) (f : Value -> Value) : Value :=
  match p with
  | [] => f v
  | s :: q => set_child v s (fun c => store c q f)
  end.

(** The element past the end is created and assigned. *)
Definition append (v : Value) (x : Value) : cpp Value :=
  n ← size v;
  v ← index_ref v n;
  Ret (set_child v (Index (s32 n)) (fun c => assign c x)).

(** ** Well-formed values *)

(** [P] of every element of a list, in a form a recursive predicate can use. *)
Fixpoint all {A} (P : A -> Prop) (l : list A) : Prop :=
  match l with [] => True | x :: r => P x /\ all P r end.

(** A comment is a C string that is empty or starts with a slash. *)
Definition comment_ok (t : list Z) : Prop :=
  cstring t /\ match t with [] => True | c :: _ => c = 47 end.

Definition comments_ok (c : CommentInfo) : Prop :=
  forall p t, comment_at p c = Some t -> comment_ok t.

(** Integers have their width, doubles are binary64, strings are C strings,
    the keys of maps increase, and an array index satisfies [R]. *)
Fixpoint shape (R : Z -> Prop) (v : Value) : Prop :=
  comments_ok (comments_ v) /\
  match value_ v with
  | d_int z => is_int z
  | d_uint z => is_u32 z
  | d_real x => valid_binary 53 1024 x = true
  | d_string (Some s) => cstring s
  | d_array m => map_sorted m /\ all (fun '(i, c) => R i /\ shape R c) m
  | d_object m => map_sorted m /\ all (fun '(k, c) => cstring k /\ shape R c) m
  | _ => True
  end.

(** Well-formed values: an array index leaves room for the size. *)
Abbreviation wf := (shape (fun i => 0 <= i < maxInt)).

(** A test of well-formedness, for concrete values. *)
Fixpoint sortedb {K V} `{Key K} (m : stdmap K V) : bool :=
  match m with
  | [] => true
  | (k, _) :: r => forallb (fun '(l, _) => key_lt k l) r && sortedb r
  end.

Definition cstringb (s : list Z) : bool := forallb (fun c => (0 <? c) && (c <? 256)) s.

Definition commentb (o : option (list Z)) : bool :=
  match o with
  | Some t => cstringb t && match t with [] => true | c :: _ => c =? 47 end
  | None => true
  end.

Definition commentsb (c : CommentInfo) : bool :=
  commentb (comment_before c) && commentb (comment_same_line c) && commentb (comment_after c).

Fixpoint wfb (v : Value) : bool :=
  commentsb (comments_ v) &&
  match value_ v with
  | d_int z => bool_decide (is_int z)
  | d_uint z => bool_decide (is_u32 z)
  | d_real x => valid_binary 53 1024 x
  | d_string (Some s) => cstringb s
  | d_array m => sortedb m && forallb (fun '(i, c) => (0 <=? i) && (i <? maxInt) && wfb c) m
  | d_object m => sortedb m && forallb (fun '(k, c) => cstringb k && wfb c) m
  | _ => true
  end.

Definition children (d : data Value) : list Value :=
  match d with d_array m => m.*2 | d_object m => m.*2 | _ => [] end.

(** The nesting depth of a value, the fuel of the functions that walk it. *)
Fixpoint height (v : Value) : nat :=
  S match value_ v with
    | d_array m => foldr (fun '(_, c) n => Nat.max (height c) n) O m
    | d_object m => foldr (fun '(_, c) n => Nat.max (height c) n) O m
    | _ => O
    end.

Lemma all_Forall {A} (P : A -> Prop) l : all P l <-> Forall P l.
Proof.
  induction l as [|x l IH]; cbn [all]; [by split; [constructor|]|].
  rewrite IH. symmetry. apply Forall_cons.
Qed.

Lemma Value_ind (P : Value -> Prop) :
  (forall v, Forall P (children (value_ v)) -> P v) -> forall v, P v.
Proof.
  intros step. fix IH 1. intros [d c]. apply step.
  destruct d; cbn [value_ children]; try constructor.
  - induction m as [|[k x] m IHm]; constructor; [apply IH|exact IHm].
  - induction m as [|[k x] m IHm]; constructor; [apply IH|exact IHm].
Qed.

Lemma wf_comments R v : shape R v -> comments_ok (comments_ v).
Proof. destruct v as [[] c]; cbn; intros [H _]; exact H. Qed.

Lemma wf_array R m c :
  shape R (MkValue (d_array m) c) <->
  comments_ok c /\ map_sorted m /\ Forall (fun '(i, x) => R i /\ shape R x) m.
Proof. cbn [shape value_ comments_]. by rewrite all_Forall. Qed.

Lemma wf_object R m c :
  shape R (MkValue (d_object m) c) <->
  comments_ok c /\ map_sorted m /\ Forall (fun '(k, x) => cstring k /\ shape R x) m.
Proof. cbn [shape value_ comments_]. by rewrite all_Forall. Qed.

Lemma sortedb_sorted {K V} `{Key K} (m : stdmap K V) : sortedb m = true -> map_sorted m.
Proof.
  unfold map_sorted. induction m as [|[k v] m IH]; cbn [sortedb]; [constructor|].
  rewrite andb_true_iff. intros [Hk Hm]. cbn. constructor; [by apply IH|].
  apply Forall_fmap. rewrite forallb_forall in Hk. apply Forall_forall. intros [l w] Hin.
  apply (Hk (l, w)). by apply list_elem_of_In.
Qed.

Lemma cstringb_cstring s : cstringb s = true -> cstring s.
Proof.
  unfold cstringb, cstring. rewrite forallb_forall. intros H. apply Forall_forall. intros c Hc.
  apply list_elem_of_In, H in Hc. lia.
Qed.

Lemma commentsb_ok c : commentsb c = true -> comments_ok c.
Proof.
  unfold commentsb. rewrite !andb_true_iff. intros [[H1 H2] H3].
  assert (Hb : forall o t, commentb o = true -> o = Some t -> comment_ok t).
  { intros o t Ho ->. cbn in Ho. apply andb_true_iff in Ho as [Ho1 Ho2].
    split; [by apply cstringb_cstring|]. destruct t; [done|lia]. }
  intros [] t E; cbn in E; eauto.
Qed.

Lemma wfb_wf v : wfb v = true -> wf v.
Proof.
  induction v as [v IH] using Value_ind. destruct v as [d c]. cbn [value_] in IH.
  cbn [wfb shape value_ comments_]. rewrite andb_true_iff. intros [Hc Hd].
  split; [by apply commentsb_ok|]. destruct d; try done.
  - by apply bool_decide_eq_true in Hd.
  - by apply bool_decide_eq_true in Hd.
  - destruct s; [by apply cstringb_cstring|done].
  - apply andb_true_iff in Hd as [Hs Hf]. split; [by apply sortedb_sorted|].
    rewrite all_Forall. rewrite forallb_forall in Hf. apply Forall_forall. intros [i x] Hin.
    pose proof (proj1 (Forall_forall _ _) IH x) as Hx. cbn [children] in Hx.
    apply list_elem_of_In in Hin as Hin'. apply Hf in Hin'. rewrite !andb_true_iff in Hin'.
    destruct Hin' as [Hi Hw]. split; [lia|]. apply Hx; [|done].
    apply list_elem_of_fmap. by exists (i, x).
  - apply andb_true_iff in Hd as [Hs Hf]. split; [by apply sortedb_sorted|].
    rewrite all_Forall. rewrite forallb_forall in Hf. apply Forall_forall. intros [i x] Hin.
    pose proof (proj1 (Forall_forall _ _) IH x) as Hx. cbn [children] in Hx.
    apply list_elem_of_In in Hin as Hin'. apply Hf in Hin'. rewrite !andb_true_iff in Hin'.
    destruct Hin' as [Hi Hw]. split; [by apply cstringb_cstring|]. apply Hx; [|done].
    apply list_elem_of_fmap. by exists (i, x).
Qed.

Lemma no_comments_ok : comments_ok no_comments.
Proof. by intros []. Qed.

Lemma wf_null R : shape R null.
Proof. split; [apply no_comments_ok|done]. Qed.

Lemma wf_empty_array R c : comments_ok c -> shape R (MkValue (d_array []) c).
Proof. intros Hc. apply wf_array. split; [done|]. split; constructor. Qed.

Lemma wf_empty_object R c : comments_ok c -> shape R (MkValue (d_object []) c).
Proof. intros Hc. apply wf_object. split; [done|]. split; constructor. Qed.

Lemma upto_nul_cstring s : Forall is_u8 s -> cstring (upto_nul s).
Proof.
  intros Hs. induction Hs as [|c s Hc Hs IH]; cbn [upto_nul]; [constructor|].
  destruct (Z.eqb_spec c 0); [constructor|]. constructor; [|done]. unfold is_u8 in Hc. lia.
Qed.

Lemma upto_nul_id s : cstring s -> upto_nul s = s.
Proof.
  intros Hs. induction Hs as [|c s Hc Hs IH]; cbn [upto_nul]; [done|].
  by replace (c =? 0) with false by lia; rewrite IH.
Qed.

(** The data of a value decide its well-formedness, apart from its comments. *)
Lemma wf_with_comments R v c : shape R v -> comments_ok c -> shape R (MkValue (value_ v) c).
Proof. destruct v as [[] c']; cbn; tauto. Qed.

Lemma assign_wf R a b : shape R a -> shape R b -> shape R (assign a b).
Proof. intros Ha Hb. apply wf_with_comments; [done|by eapply wf_comments]. Qed.

Lemma wf_child R v s c : shape R v -> child v s = Some c -> shape R c.
Proof.
  destruct v as [[] k], s; cbn [child value_]; try done.
  - rewrite wf_array. intros (_ & _ & Hf) E%map_find_Some_in.
    rewrite Forall_forall in Hf. by apply (Hf _ E).
  - rewrite wf_object. intros (_ & _ & Hf) E%map_find_Some_in.
    rewrite Forall_forall in Hf. by apply (Hf _ E).
Qed.

Lemma wf_deref R v p c : shape R v -> deref v p = Some c -> shape R c.
Proof.
  revert v. induction p as [|s p IH]; cbn; [by intros v Hv [= ->]|].
  intros v Hv E. apply bind_Some in E as (x & E1 & E2). eauto using wf_child.
Qed.

(** A container stays well formed when an element is replaced by such a value. *)
Lemma wf_update_array R m c i f :
  shape R (MkValue (d_array m) c) -> (R i : Prop) ->
  (forall x, map_find i m = Some x -> shape R x -> shape R (f (Some x))) -> (map_find i m = None -> shape R (f None)) ->
  shape R (MkValue (d_array (map_update i f m)) c).
Proof.
  intros Hw Hi Hs Hn. pose proof Hw as Hw'. apply wf_array in Hw' as (Hc & Hm & Hf).
  set (g := fun o : option Value => f (map_find i m)).
  rewrite (map_update_ext _ f g) by done. apply wf_array.
  split; [done|]. split; [by apply map_update_sorted|].
  assert (shape R (f (map_find i m))).
  { destruct (map_find i m) as [x|] eqn:E; [|by apply Hn]. apply Hs; [done|].
    rewrite Forall_forall in Hf. by apply (Hf _ (map_find_Some_in _ _ _ E)). }
  apply map_update_Forall; [done| |done].
  intros l v Hin E. cbn in E. apply Z.eqb_eq in E as ->. done.
Qed.

Lemma wf_update_object R m c k f :
  shape R (MkValue (d_object m) c) -> cstring k ->
  (forall x, map_find k m = Some x -> shape R x -> shape R (f (Some x))) -> (map_find k m = None -> shape R (f None)) ->
  shape R (MkValue (d_object (map_update k f m)) c).
Proof.
  intros Hw Hi Hs Hn. pose proof Hw as Hw'. apply wf_object in Hw' as (Hc & Hm & Hf).
  set (g := fun o : option Value => f (map_find k m)).
  rewrite (map_update_ext _ f g) by done. apply wf_object.
  split; [done|]. split; [by apply map_update_sorted|].
  assert (shape R (f (map_find k m))).
  { destruct (map_find k m) as [x|] eqn:E; [|by apply Hn]. apply Hs; [done|].
    rewrite Forall_forall in Hf. by apply (Hf _ (map_find_Some_in _ _ _ E)). }
  apply map_update_Forall; [done| |done].
  intros l v Hin E. apply strcmp_eq_spec in E as ->. done.
Qed.

Lemma set_child_wf R v s f x :
  shape R v -> child v s = Some x -> (shape R x -> shape R (f x)) -> shape R (set_child v s f).
Proof.
  intros Hv E Hf. destruct v as [[] c], s; cbn [child value_] in E; try done; cbn [set_child value_ comments_].
  - apply wf_update_array; [done| |..].
    + apply wf_array in Hv as (_ & _ & Hm). rewrite Forall_forall in Hm.
      by apply (Hm _ (map_find_Some_in _ _ _ E)).
    + intros y Ey. rewrite E in Ey. by injection Ey as <-.
    + by rewrite E.
  - apply wf_update_object; [done| |..].
    + apply wf_object in Hv as (_ & _ & Hm). rewrite Forall_forall in Hm.
      by apply (Hm _ (map_find_Some_in _ _ _ E)).
    + intros y Ey. rewrite E in Ey. by injection Ey as <-.
    + by rewrite E.
Qed.

Lemma store_wf R v p f x : shape R v -> deref v p = Some x -> (shape R x -> shape R (f x)) -> shape R (store v p f).
Proof.
  revert v. induction p as [|s p IH]; cbn [deref store]; intros v Hv E Hf; [injection E as <-; auto|].
  apply bind_Some in E as (y & E1 & E2). eapply set_child_wf; [done|exact E1|]. eauto.
Qed.

(** Reading through a reference gives what was written through it. *)
Lemma child_set_child v s f x : child v s = Some x -> child (set_child v s f) s = Some (f x).
Proof.
  intros E. destruct v as [[] c], s; cbn [child value_] in E; try done;
    cbn [set_child child value_ comments_]; by rewrite map_find_update, E.
Qed.

Lemma child_set_child_ne v s s' f : s <> s' -> child (set_child v s f) s' = child v s'.
Proof.
  intros Hs. destruct v as [[] c], s, s'; cbn [set_child child value_ comments_]; try done;
    apply map_find_update_ne; congruence.
Qed.

Lemma deref_store v p f x : deref v p = Some x -> deref (store v p f) p = Some (f x).
Proof.
  revert v. induction p as [|s p IH]; cbn [deref store]; intros v E; [by injection E as ->|].
  apply bind_Some in E as (y & E1 & E2). apply bind_Some.
  exists (store y p f). split; [exact (child_set_child v s (fun c => store c p f) y E1)|]. by apply IH.
Qed.

Lemma deref_app v p q : deref v (p ++ q) = x ← deref v p; deref x q.
Proof.
  revert v. induction p as [|s p IH]; intros v; cbn [deref app]; [done|].
  destruct (child v s) as [x|]; [apply IH|done].
Qed.

Lemma store_app v p q f : store v (p ++ q) f = store v p (fun c => store c q f).
Proof.
  revert v. induction p as [|s p IH]; intros v; cbn [store app]; [done|].
  unfold set_child. destruct v as [[] c], s; cbn [value_]; try done.
  - do 2 f_equal. apply map_update_ext. by rewrite IH.
  - do 2 f_equal. apply map_update_ext. by rewrite IH.
Qed.

Lemma set_child_ext v s f g : (forall x, child v s = Some x -> f x = g x) ->
  (child v s = None -> f null = g null) -> set_child v s f = set_child v s g.
Proof.
  intros Hs Hn. destruct v as [[] c], s; try done; cbn [set_child child value_ comments_] in *;
    do 2 f_equal; apply map_update_ext; destruct (map_find _ m); cbn; auto.
Qed.

Lemma set_child_twice v s f g x : child v s = Some x ->
  set_child (set_child v s f) s g = set_child v s (fun c => g (f c)).
Proof.
  intros E. destruct v as [[] c], s; cbn [child value_] in E; try done;
    cbn [set_child value_ comments_]; by rewrite map_update_update.
Qed.

(** Two writes through one pointer. *)
Lemma store_store v p f g x : deref v p = Some x -> store (store v p f) p g = store v p (fun c => g (f c)).
Proof.
  revert v. induction p as [|s p IH]; cbn [deref store]; intros v E; [done|].
  apply bind_Some in E as (y & E1 & E2). rewrite (set_child_twice _ _ _ _ y) by done.
  apply set_child_ext; [|by rewrite E1]. intros z Ez. rewrite E1 in Ez. injection Ez as <-. by apply IH.
Qed.

Lemma store_ext v p f g x : deref v p = Some x -> f x = g x -> store v p f = store v p g.
Proof.
  revert v. induction p as [|s p IH]; cbn [deref store]; intros v E Ef; [by injection E as ->|].
  apply bind_Some in E as (y & E1 & E2). apply set_child_ext; [|by rewrite E1].
  intros z Ez. rewrite E1 in Ez. injection Ez as <-. by apply IH.
Qed.

(** Writing back what is there changes nothing. *)
Lemma map_update_same {K V} `{KeyLaws K} (k : K) (m : stdmap K V) x f :
  map_find k m = Some x -> f (Some x) = x -> map_update k f m = m.
Proof.
  intros E Ef. induction m as [|[l v] m IH]; cbn [map_find map_update] in *; [done|].
  destruct (key_lt l k); [by rewrite IH|]. destruct (key_eq l k); [|done]. injection E as ->. by rewrite Ef.
Qed.

Lemma store_same v p x : deref v p = Some x -> store v p (fun _ => x) = v.
Proof.
  revert v. induction p as [|s p IH]; cbn [deref store]; intros v E; [by injection E as ->|].
  apply bind_Some in E as (y & E1 & E2). destruct v as [[] c], s; cbn [child value_] in E1; try done;
    cbn [set_child value_ comments_]; do 2 f_equal; (eapply map_update_same; [exact E1|]); cbn; by apply IH.
Qed.

Lemma set_child_comments v s f : comments_ (set_child v s f) = comments_ v.
Proof. by destruct v as [[] c], s. Qed.
