(* ===== verification/JsonOrder.v ===== *)
(** * The order of JSON values

    [operator<] and [operator==] of [Json::Value] are written by cases on the
    type, each with its own traversal of maps.  Here they are both shown to be
    read off one three-way comparison, defined independently: by type, then by
    content, containers by size and then lexicographically. *)
From Stdlib Require Import Sorted SpecFloat.
From S2P Require Import Prelude Words Buffers CString StdMap Decimal Double JsonValue.

(** ** Three-way comparisons *)

Definition then_cmp (c d : comparison) : comparison := match c with Eq => d | _ => c end.

(** What [x ? y] and [y ? z] say about [x ? z]. *)
Definition chain (c d : comparison) : option comparison :=
  match c, d with
  | Eq, d => Some d
  | c, Eq => Some c
  | Lt, Lt => Some Lt
  | Gt, Gt => Some Gt
  | _, _ => None
  end.

Definition chains (c d e : comparison) : Prop := forall r, chain c d = Some r -> e = r.

(** [cmp] orders [x] among the elements of [D]. *)
Definition cmp_laws {A} (D : A -> Prop) (cmp : A -> A -> comparison) (x : A) : Prop :=
  cmp x x = Eq /\
  (forall y, D y -> cmp y x = CompOpp (cmp x y)) /\
  (forall y z, D y -> D z -> chains (cmp x y) (cmp y z) (cmp x z)).

Definition key_cmp {K} `{Key K} (k l : K) : comparison :=
  if key_lt k l then Lt else if key_lt l k then Gt else Eq.

(** A double as a triple of integers whose lexicographic order is that of the numbers. *)
Definition dbl_key (x : double) : Z * Z * Z :=
  match x with
  | S754_infinity true => (-2, 0, 0)
  | S754_finite true m e => (-1, - e, Z.neg m)
  | S754_zero _ | S754_nan => (0, 0, 0)
  | S754_finite false m e => (1, e, Z.pos m)
  | S754_infinity false => (2, 0, 0)
  end.

Definition dbl_cmp (x y : double) : comparison :=
  let '(a, b, c) := dbl_key x in
  let '(a', b', c') := dbl_key y in
  then_cmp (a ?= a') (then_cmp (b ?= b') (c ?= c')).

Definition string_cmp (s t : option (list Z)) : comparison :=
  match s, t with
  | None, None => Eq
  | None, Some _ => Lt
  | Some _, None => Gt
  | Some s, Some t => key_cmp s t
  end.

Section maps.
Context {K V : Type} `{Key K} (cmp : V -> V -> comparison).

Fixpoint maps_cmp (xs ys : stdmap K V) : comparison :=
  match xs, ys with
  | [], [] => Eq
  | [], _ :: _ => Lt
  | _ :: _, [] => Gt
  | (k, x) :: xs', (l, y) :: ys' => then_cmp (then_cmp (key_cmp k l) (cmp x y)) (maps_cmp xs' ys')
  end.

Definition sized_cmp (xs ys : stdmap K V) : comparison :=
  then_cmp (Z.of_nat (length xs) ?= Z.of_nat (length ys)) (maps_cmp xs ys).
End maps.

Definition bool_cmp (b c : bool) : comparison := Z.b2z b ?= Z.b2z c.

Fixpoint value_cmp (a b : Value) {struct a} : comparison :=
  then_cmp (type_code (type_ a) ?= type_code (type_ b))
    match value_ a, value_ b with
    | d_int x, d_int y => x ?= y
    | d_uint x, d_uint y => x ?= y
    | d_real x, d_real y => dbl_cmp x y
    | d_bool x, d_bool y => bool_cmp x y
    | d_string x, d_string y => string_cmp x y
    | d_array x, d_array y => sized_cmp value_cmp x y
    | d_object x, d_object y => sized_cmp value_cmp x y
    | _, _ => Eq
    end.

(** No number in the value is a NaN. *)
Fixpoint nan_free (v : Value) : Prop :=
  match value_ v with
  | d_real x => dbl_nan x = false
  | d_array m => all (fun '(_, c) => nan_free c) m
  | d_object m => all (fun '(_, c) => nan_free c) m
  | _ => True
  end.

Definition is_lt (c : comparison) : bool := match c with Lt => true | _ => false end.
Definition is_gt (c : comparison) : bool := match c with Gt => true | _ => false end.
Definition is_eq (c : comparison) : bool := match c with Eq => true | _ => false end.

(** ** Laws of the three-way comparisons *)

(** Two outcomes that do not chain, or whose chain is plain. *)
Ltac chain_cases :=
  intros r Hr;
  match type of Hr with chain ?a ?b = _ => destruct a eqn:?, b eqn:? end;
  cbn in *; by simplify_eq.

Lemma then_chains a b a' b' a'' b'' :
  chains a a' a'' -> chains b b' b'' -> chains (then_cmp a b) (then_cmp a' b') (then_cmp a'' b'').
Proof.
  intros Ha Hb r Hr.
  destruct a, a'; cbn [then_cmp] in Hr; try (rewrite (Ha _ eq_refl); cbn [then_cmp]; auto; fail);
    try discriminate Hr; try (destruct b'; try discriminate Hr); try (destruct b; try discriminate Hr);
    rewrite (Ha _ eq_refl); by injection Hr.
Qed.

Lemma then_chains_ne a b a' b' a'' b'' :
  chains a a' a'' -> ~ (a = Eq /\ a' = Eq) -> chains (then_cmp a b) (then_cmp a' b') (then_cmp a'' b'').
Proof.
  intros Ha Hn r Hr.
  destruct a, a'; try (exfalso; by apply Hn); cbn [then_cmp] in Hr; try discriminate Hr;
    rewrite (Ha _ eq_refl); cbn [then_cmp]; try (by injection Hr);
    try (destruct b; cbn in Hr; congruence); destruct b'; cbn in Hr; congruence.
Qed.

Lemma type_code_inj s t : type_code s = type_code t -> s = t.
Proof. by destruct s, t. Qed.

Lemma then_opp a b : CompOpp (then_cmp a b) = then_cmp (CompOpp a) (CompOpp b).
Proof. by destruct a. Qed.

Lemma then_cmp_assoc a b c : then_cmp (then_cmp a b) c = then_cmp a (then_cmp b c).
Proof. by destruct a. Qed.

Lemma chains_trivial a b c r : chain a b = Some r -> c = r -> chains a b c.
Proof. intros H -> r' Hr. congruence. Qed.

Lemma Z_cmp_laws D x : cmp_laws D Z.compare x.
Proof.
  split; [apply Z.compare_refl|]. split; [intros y _; apply Z.compare_antisym|].
  intros y z _ _ r Hr.
  destruct (Z.compare_spec x y), (Z.compare_spec y z), (Z.compare_spec x z);
    cbn in Hr; try discriminate; try congruence; lia.
Qed.

Lemma Z_chains (x y z : Z) : chains (x ?= y) (y ?= z) (x ?= z).
Proof. by apply (Z_cmp_laws (fun _ => True)). Qed.

Lemma bool_cmp_laws D x : cmp_laws D bool_cmp x.
Proof.
  split; [apply Z.compare_refl|]. split; [intros y _; apply Z.compare_antisym|].
  intros y z _ _. apply Z_chains.
Qed.

Lemma key_cmp_laws {K} `{KeyLaws K} D (x : K) : cmp_laws D key_cmp x.
Proof.
  unfold key_cmp. split; [by rewrite key_lt_irrefl|]. split.
  - intros y _. destruct (key_lt x y) eqn:E; [by rewrite (key_lt_asym _ _ E)|].
    by destruct (key_lt y x).
  - intros y z _ _ r Hr.
    destruct (key_cases x y) as [[(E1 & E2 & _)| ->]|(E1 & _ & E2)].
    + rewrite E1 in Hr. destruct (key_cases y z) as [[(F1 & F2 & _)| ->]|(F1 & _ & F2)].
      * rewrite F1 in Hr. injection Hr as <-. by rewrite (key_lt_trans _ _ _ E1 F1).
      * rewrite key_lt_irrefl in Hr. injection Hr as <-. by rewrite E1.
      * by rewrite F1, F2 in Hr.
    + rewrite key_lt_irrefl in Hr. by injection Hr.
    + rewrite E1, E2 in Hr. destruct (key_cases y z) as [[(F1 & F2 & _)| ->]|(F1 & _ & F2)].
      * by rewrite F1 in Hr.
      * rewrite key_lt_irrefl in Hr. injection Hr as <-. by rewrite E1, E2.
      * rewrite F1, F2 in Hr. injection Hr as <-. pose proof (key_lt_trans _ _ _ F2 E2) as G.
        by rewrite G, (key_lt_asym _ _ G).
Qed.

Lemma key_cmp_lt {K} `{KeyLaws K} (k l : K) : key_lt k l = is_lt (key_cmp k l).
Proof. unfold key_cmp. by destruct (key_lt k l), (key_lt l k). Qed.

Lemma key_cmp_gt {K} `{KeyLaws K} (k l : K) : key_lt l k = is_gt (key_cmp k l).
Proof.
  unfold key_cmp. destruct (key_lt k l) eqn:E; [by rewrite (key_lt_asym _ _ E)|].
  by destruct (key_lt l k).
Qed.

Lemma key_cmp_eq {K} `{KeyLaws K} (k l : K) : key_eq k l = is_eq (key_cmp k l).
Proof.
  unfold key_cmp. destruct (key_cases k l) as [[(E1 & E2 & E3)| ->]|(E1 & E2 & E3)].
  - by rewrite E1, E3.
  - by rewrite key_lt_irrefl, key_eq_refl.
  - by rewrite E1, E2, E3.
Qed.

Lemma dbl_cmp_laws D x : cmp_laws D dbl_cmp x.
Proof.
  unfold dbl_cmp. split.
  { destruct (dbl_key x) as [[a b] c]. by rewrite !Z.compare_refl. }
  split.
  - intros y _. destruct (dbl_key x) as [[a b] c], (dbl_key y) as [[a' b'] c'].
    by rewrite !then_opp, <- !Z.compare_antisym.
  - intros y z _ _.
    destruct (dbl_key x) as [[a b] c], (dbl_key y) as [[a' b'] c'], (dbl_key z) as [[a'' b''] c''].
    repeat apply then_chains; apply Z_chains.
Qed.

(** The comparison of the Standard Library's specification is this one. *)
Lemma dbl_cmp_spec x y :
  dbl_nan x = false -> dbl_nan y = false -> SFcompare x y = Some (dbl_cmp x y).
Proof.
  intros Hx Hy. unfold dbl_cmp.
  destruct x as [s|[]| |[] m e]; try discriminate Hx;
    destruct y as [s'|[]| |[] m' e']; try discriminate Hy; try reflexivity; cbn.
  - f_equal. rewrite Z.compare_opp. change (Pos.compare_cont Eq m m') with (m ?= m')%positive.
    rewrite <- Pos.compare_antisym, (Z.compare_antisym e e').
    by destruct (e ?= e').
  - f_equal. by destruct (e ?= e').
Qed.

Lemma string_cmp_laws D x : cmp_laws D string_cmp x.
Proof.
  destruct (key_cmp_laws (fun _ => True) (default [] x)) as (H1 & H2 & H3).
  split; [by destruct x|]. split.
  - intros [t|] _; destruct x as [s|]; cbn; try done. by apply H2.
  - intros [t|] [u|] _ _; destruct x as [s|]; cbn; try (by apply H3);
      unfold chains; cbn [string_cmp]; chain_cases.
Qed.

Section maps_laws.
Context {K V : Type} `{KeyLaws K} (cmp : V -> V -> comparison) (D : V -> Prop).

Lemma maps_cmp_laws (xs : stdmap K V) :
  Forall (fun '(_, x) => cmp_laws D cmp x) xs ->
  cmp_laws (Forall (fun '(_, x) => D x)) (maps_cmp cmp) xs.
Proof.
  induction xs as [|[k x] xs IH]; intros Hx.
  - split; [done|]. split; [by intros [|[l y] ys]|].
    intros [|[l y] ys] [|[m z] zs] _ _; chain_cases.
  - apply Forall_cons in Hx as [(Hx1 & Hx2 & Hx3) Hx]. destruct (IH Hx) as (I1 & I2 & I3).
    destruct (key_cmp_laws (fun _ => True) k) as (K1 & K2 & K3).
    split; [cbn [maps_cmp]; by rewrite K1, Hx1, I1|]. split.
    + intros [|[l y] ys] Hy; [done|]. apply Forall_cons in Hy as [Hy Hys].
      cbn [maps_cmp]. by rewrite K2, Hx2, I2, !then_opp by done.
    + intros [|[l y] ys] [|[m z] zs] Hy Hz; [chain_cases..|].
      apply Forall_cons in Hy as [Hy Hys]. apply Forall_cons in Hz as [Hz Hzs].
      cbn [maps_cmp]. apply then_chains; [apply then_chains|]; auto.
Qed.

Lemma sized_cmp_laws (xs : stdmap K V) :
  Forall (fun '(_, x) => cmp_laws D cmp x) xs ->
  cmp_laws (Forall (fun '(_, x) => D x)) (sized_cmp cmp) xs.
Proof.
  intros Hx. destruct (maps_cmp_laws xs Hx) as (I1 & I2 & I3). unfold sized_cmp.
  split; [by rewrite Z.compare_refl, I1|]. split.
  - intros ys Hy. by rewrite I2, then_opp, <- Z.compare_antisym by done.
  - intros ys zs Hy Hz. apply then_chains; [apply Z_chains|by apply I3].
Qed.
End maps_laws.

Lemma nan_free_children v : nan_free v -> Forall nan_free (children (value_ v)).
Proof.
  destruct v as [[] c]; cbn [nan_free value_ children]; try (intros; constructor); rewrite all_Forall, Forall_fmap;
    intros Hf; eapply Forall_impl; [exact Hf| |exact Hf|]; by intros [k x].
Qed.

Lemma Forall_pairs {K V} (P : V -> Prop) (m : list (K * V)) :
  Forall (fun '(_, x) => P x) m <-> Forall P m.*2.
Proof. rewrite Forall_fmap. split; intros Hf; (eapply Forall_impl; [exact Hf|]); by intros [k x]. Qed.

Lemma value_cmp_laws x : nan_free x -> cmp_laws nan_free value_cmp x.
Proof.
  induction x as [x IH] using Value_ind. intros Hx.
  assert (Hc : Forall (cmp_laws nan_free value_cmp) (children (value_ x))).
  { apply nan_free_children in Hx. clear -IH Hx. induction IH; [constructor|].
    apply Forall_cons in Hx as [? ?]. constructor; auto. }
  clear IH. destruct x as [dx cx]. cbn [value_] in Hc.
  split; [|split].
  - destruct dx; cbn; try reflexivity; try (apply Z.compare_refl).
    + by destruct (dbl_cmp_laws (fun _ => True) x) as (E & _).
    + by destruct (string_cmp_laws (fun _ => True) s) as (E & _).
    + apply Forall_pairs in Hc. by destruct (sized_cmp_laws _ _ _ Hc) as (E & _).
    + apply Forall_pairs in Hc. by destruct (sized_cmp_laws _ _ _ Hc) as (E & _).
  - intros [dy cy] Hy. destruct dx, dy; cbn [value_cmp value_]; try reflexivity;
      cbn [type_ value_ type_code Z.compare Pos.compare Pos.compare_cont then_cmp].
    + apply Z.compare_antisym.
    + apply Z.compare_antisym.
    + by apply (dbl_cmp_laws (fun _ => True)).
    + by apply (string_cmp_laws (fun _ => True)).
    + by apply (bool_cmp_laws (fun _ => True)).
    + apply Forall_pairs in Hc. destruct (sized_cmp_laws _ _ _ Hc) as (_ & E & _). apply E.
      apply Forall_pairs. by apply (nan_free_children (MkValue (d_array _) cy)).
    + apply Forall_pairs in Hc. destruct (sized_cmp_laws _ _ _ Hc) as (_ & E & _). apply E.
      apply Forall_pairs. by apply (nan_free_children (MkValue (d_object _) cy)).
  - intros [dy cy] [dz cz] Hy Hz.
    cbn [value_cmp value_]. destruct (decide (type_ (MkValue dx cx) = type_ (MkValue dy cy)
      /\ type_ (MkValue dy cy) = type_ (MkValue dz cz))) as [[E1 E2]|Hn].
    + destruct dx, dy; try discriminate E1; destruct dz; try discriminate E2;
        cbn [type_ value_ type_code Z.compare Pos.compare Pos.compare_cont then_cmp].
      * by intros r [= <-].
      * apply Z_chains.
      * apply Z_chains.
      * by apply (dbl_cmp_laws (fun _ => True)).
      * by apply (string_cmp_laws (fun _ => True)).
      * by apply (bool_cmp_laws (fun _ => True)).
      * apply Forall_pairs in Hc. destruct (sized_cmp_laws _ _ _ Hc) as (_ & _ & E).
        apply E; apply Forall_pairs.
        -- by apply (nan_free_children (MkValue (d_array _) cy)).
        -- by apply (nan_free_children (MkValue (d_array _) cz)).
      * apply Forall_pairs in Hc. destruct (sized_cmp_laws _ _ _ Hc) as (_ & _ & E).
        apply E; apply Forall_pairs.
        -- by apply (nan_free_children (MkValue (d_object _) cy)).
        -- by apply (nan_free_children (MkValue (d_object _) cz)).
    + apply then_chains_ne; [apply Z_chains|]. intros [E1 E2]. apply Hn.
      split; apply type_code_inj; by apply Z.compare_eq.
Qed.

(** ** The operators *)

(** [less], read from the three-way comparison. *)
Definition cmp_less (sw : bool) (c : comparison) : bool := if sw then is_gt c else is_lt c.

Lemma Z_lt_cmp x y : (x <? y) = is_lt (x ?= y).
Proof. by unfold Z.ltb; destruct (x ?= y). Qed.

Lemma Z_gt_cmp x y : (y <? x) = is_gt (x ?= y).
Proof. unfold Z.ltb. rewrite (Z.compare_antisym x y). by destruct (x ?= y). Qed.

Lemma dbl_lt_cmp x y : dbl_nan x = false -> dbl_nan y = false -> dbl_lt x y = is_lt (dbl_cmp x y).
Proof. intros Hx Hy. unfold dbl_lt, SFltb. rewrite dbl_cmp_spec by done. by destruct (dbl_cmp x y). Qed.

Lemma dbl_gt_cmp x y : dbl_nan x = false -> dbl_nan y = false -> dbl_lt y x = is_gt (dbl_cmp x y).
Proof.
  intros Hx Hy. rewrite dbl_lt_cmp by done.
  destruct (dbl_cmp_laws (fun _ => True) x) as (_ & E & _). rewrite E by done. by destruct (dbl_cmp x y).
Qed.

Lemma string_less_cmp s t : string_less s t = is_lt (string_cmp s t).
Proof. destruct s as [s|], t as [t|]; try done. exact (key_cmp_lt s t). Qed.

Lemma string_more_cmp s t : string_less t s = is_gt (string_cmp s t).
Proof. destruct s as [s|], t as [t|]; try done. exact (key_cmp_gt s t). Qed.

Section maps_less.
Context {K V : Type} `{KeyLaws K} (lt : bool -> V -> V -> bool) (eqv : V -> V -> bool).
Context (cmp : V -> V -> comparison).

Lemma pair_less_cmp s k x l y :
  (forall s, lt s x y = cmp_less s (cmp x y)) ->
  pair_less lt s k x l y = cmp_less s (then_cmp (key_cmp k l) (cmp x y)).
Proof.
  intros Hl. unfold pair_less, cmp_less. rewrite !Hl. cbn [cmp_less].
  destruct s; rewrite (key_cmp_lt k l), (key_cmp_gt k l); by destruct (key_cmp k l).
Qed.

Lemma maps_less_cmp s (xs ys : stdmap K V) :
  Forall (fun '(_, x) => Forall (fun '(_, y) => forall s, lt s x y = cmp_less s (cmp x y)) ys) xs ->
  maps_less lt s xs ys = cmp_less s (maps_cmp cmp xs ys).
Proof.
  revert ys. induction xs as [|[k x] xs IH]; intros [|[l y] ys] Hf; cbn [maps_less maps_cmp];
    [by destruct s..|].
  apply Forall_cons in Hf as [Hx Hxs]. apply Forall_cons in Hx as [Hxy _].
  rewrite !pair_less_cmp by done. rewrite IH.
  - by destruct s, (then_cmp (key_cmp k l) (cmp x y)).
  - eapply Forall_impl; [exact Hxs|]. intros [k' x'] Hf. by apply Forall_cons in Hf as [_ Hf].
Qed.

Lemma sized_less_cmp s (xs ys : stdmap K V) :
  Forall (fun '(_, x) => Forall (fun '(_, y) => forall s, lt s x y = cmp_less s (cmp x y)) ys) xs ->
  sized_less lt s xs ys = cmp_less s (sized_cmp cmp xs ys).
Proof.
  intros Hf. unfold sized_less, sized_cmp. rewrite maps_less_cmp by done.
  destruct (Z.compare_spec (Z.of_nat (length xs)) (Z.of_nat (length ys))) as [E|E|E]; cbn [then_cmp].
  - rewrite E, Z.sub_diag. by destruct s.
  - destruct s; cbn [cmp_less is_gt is_lt]; case_match; lia.
  - destruct s; cbn [cmp_less is_gt is_lt]; case_match; lia.
Qed.

Lemma maps_equal_cmp (xs ys : stdmap K V) :
  Forall (fun '(_, x) => Forall (fun '(_, y) => eqv x y = is_eq (cmp x y)) ys) xs ->
  maps_equal eqv xs ys = is_eq (maps_cmp cmp xs ys).
Proof.
  revert ys. induction xs as [|[k x] xs IH]; intros [|[l y] ys] Hf; cbn [maps_equal maps_cmp]; [done..|].
  apply Forall_cons in Hf as [Hx Hxs]. apply Forall_cons in Hx as [Hxy _].
  rewrite Hxy, key_cmp_eq, IH.
  - by destruct (key_cmp k l), (cmp x y).
  - eapply Forall_impl; [exact Hxs|]. intros [k' x'] Hf. by apply Forall_cons in Hf as [_ Hf].
Qed.

Lemma sized_equal_cmp (xs ys : stdmap K V) :
  Forall (fun '(_, x) => Forall (fun '(_, y) => eqv x y = is_eq (cmp x y)) ys) xs ->
  sized_equal eqv xs ys = is_eq (sized_cmp cmp xs ys).
Proof.
  intros Hf. unfold sized_equal, sized_cmp. rewrite maps_equal_cmp by done.
  rewrite Z.eqb_compare. by destruct (Z.of_nat (length xs) ?= Z.of_nat (length ys)).
Qed.
End maps_less.

Lemma Forall_two {K V} (P Q : V -> Prop) (R : V -> V -> Prop) (xs ys : list (K * V)) :
  Forall P xs.*2 -> Forall Q ys.*2 -> (forall x y, P x -> Q y -> R x y) ->
  Forall (fun '(_, x) => Forall (fun '(_, y) => R x y) ys) xs.
Proof.
  intros Hx Hy HR. apply Forall_pairs in Hx. apply Forall_pairs in Hy.
  eapply Forall_impl; [exact Hx|]. intros [k x] Px. eapply Forall_impl; [exact Hy|]. intros [l y] Qy. auto.
Qed.

Lemma less_cmp a : nan_free a -> forall b s, nan_free b -> less s a b = cmp_less s (value_cmp a b).
Proof.
  induction a as [a IH] using Value_ind. intros Ha.
  assert (Hc : Forall (fun x => forall b s, nan_free b -> less s x b = cmp_less s (value_cmp x b))
                 (children (value_ a))).
  { apply nan_free_children in Ha. clear -IH Ha. induction IH; [constructor|].
    apply Forall_cons in Ha as [? ?]. constructor; auto. }
  clear IH. intros b s Hb. pose proof (nan_free_children b Hb) as Hcb.
  destruct a as [da ca], b as [db cb]. cbn [value_] in Hc, Hcb.
  destruct da, db; cbn [less value_cmp value_ type_ type_code children] in *;
    try (by destruct s); cbn [Z.sub Z.add Z.opp Z.pos_sub Z.compare Pos.compare Pos.compare_cont then_cmp].
  - destruct s; [apply Z_gt_cmp|apply Z_lt_cmp].
  - destruct s; [apply Z_gt_cmp|apply Z_lt_cmp].
  - destruct s; [by apply dbl_gt_cmp|by apply dbl_lt_cmp].
  - destruct s; [apply string_more_cmp|apply string_less_cmp].
  - by destruct s, b0, b.
  - destruct s; apply sized_less_cmp; eapply Forall_two; eauto.
  - destruct s; apply sized_less_cmp; eapply Forall_two; eauto.
Qed.

Lemma value_eq_cmp a : nan_free a -> forall b, nan_free b -> value_eq a b = is_eq (value_cmp a b).
Proof.
  induction a as [a IH] using Value_ind. intros Ha.
  assert (Hc : Forall (fun x => forall b, nan_free b -> value_eq x b = is_eq (value_cmp x b))
                 (children (value_ a))).
  { apply nan_free_children in Ha. clear -IH Ha. induction IH; [constructor|].
    apply Forall_cons in Ha as [? ?]. constructor; auto. }
  clear IH. intros b Hb. pose proof (nan_free_children b Hb) as Hcb.
  destruct a as [da ca], b as [db cb]. cbn [value_] in Hc, Hcb.
  destruct da, db; cbn [value_eq value_cmp value_ type_ type_code children] in *;
    try reflexivity; cbn [Z.compare Pos.compare Pos.compare_cont then_cmp].
  - apply Z.eqb_compare.
  - apply Z.eqb_compare.
  - unfold dbl_eq, SFeqb. rewrite dbl_cmp_spec by done. by destruct (dbl_cmp x x0).
  - destruct s as [s|], s0 as [t|]; try done. exact (key_cmp_eq s t).
  - by destruct b0, b.
  - apply sized_equal_cmp. eapply Forall_two; eauto.
  - apply sized_equal_cmp. eapply Forall_two; eauto.
Qed.

(** C32: on values without a NaN, the comparison operators answer by one total
    preorder, the three-way comparison [value_cmp]: exactly one of less, equal
    and greater holds, less is transitive, and equal values compare alike with
    every other; [>=] and [!=] are the operators they stand for.  The operator
    [<=] is not: it is defined as [!(other > *this)], the negation of [*this < other],
    and so answers as [>=] does.  Comments of values play no part in it. *)
Theorem value_operators_order a b c :
  nan_free a -> nan_free b -> nan_free c ->
  (value_lt a b = is_lt (value_cmp a b) /\ value_gt a b = is_gt (value_cmp a b)
   /\ value_eq a b = is_eq (value_cmp a b) /\ value_cmp b a = CompOpp (value_cmp a b))
  /\ (value_ge a b = value_gt a b || value_eq a b /\ value_ne a b = negb (value_eq a b)
      /\ value_le a b = value_ge a b)
  /\ (value_lt a b = true -> value_lt b c = true -> value_lt a c = true)
  /\ (value_eq a b = true ->
      value_lt a c = value_lt b c /\ value_lt c a = value_lt c b /\ value_eq a c = value_eq b c).
Proof.
  intros Ha Hb Hc. unfold value_le, value_gt, value_ge, value_ne, value_lt.
  rewrite !less_cmp, !value_eq_cmp by done. cbn [cmp_less].
  destruct (value_cmp_laws a Ha) as (_ & A1 & A2). destruct (value_cmp_laws b Hb) as (_ & B1 & _).
  rewrite (A1 b Hb), (A1 c Hc), (B1 c Hc).
  pose proof (A2 b c Hb Hc) as T.
  split; [|split; [|split]].
  - by destruct (value_cmp a b).
  - by destruct (value_cmp a b).
  - destruct (value_cmp a b), (value_cmp b c); try done. by rewrite (T _ eq_refl).
  - destruct (value_cmp a b); try done. by rewrite (T _ eq_refl).
Qed.

(** Two objects that differ in a nested number, and an array. *)
Definition order_sample (z : Z) : Value :=
  plain (d_object [(codes "a", Value_int z); (codes "b", plain (d_array [(0, Value_bool true)]))]).

Lemma value_operators_order_witness :
  value_lt (order_sample 1) (order_sample 2) = true /\
  value_le (order_sample 1) (order_sample 2) = false.
Proof.
  destruct (value_operators_order (order_sample 1) (order_sample 2) (Value_string (codes "x")))
    as ((E1 & _) & (_ & _ & E2) & _ & _); [cbn; tauto..|].
  split; [rewrite E1; reflexivity|rewrite E2; reflexivity].
Defined.

(** The operator [<=] on two numbers. *)
Example one_not_at_most_two :
  value_le (Value_int 1) (Value_int 2) = false /\ value_le (Value_int 2) (Value_int 1) = true.
Proof. done. Qed.
