(* ===== verification/JsonOps.v ===== *)
(** * Operations on JSON values

    The members of objects, the elements of arrays and the conversions of
    [Json::Value]: what each operation does on every branch, and the
    invariant every value built through the public interface satisfies. *)
From Stdlib Require Import Sorted SpecFloat.
From S2P Require Import Prelude Words Buffers CString StdMap Decimal Double JsonValue.

(** A call that ends in an exception. *)
Definition throws {A} (m : cpp A) : Prop := exists msg, m = Throw msg.

(** [v[key] = x] and [v[i] = x]. *)
Definition set_member (v : Value) (key : list Z) (x : Value) : cpp Value :=
  v ← resolveReference v key; Ret (set_child v (Member (upto_nul key)) (fun c => assign c x)).
Definition set_index (v : Value) (i : Z) (x : Value) : cpp Value :=
  v ← index_ref v i; Ret (set_child v (Index (s32 i)) (fun c => assign c x)).

(** The values that the public interface can build: the constructors, the
    mutating members, and any change made through a reference into a value.
    [R] restricts the indices that [operator\[\]], [resize] and [append] may
    create, as the [int] that the argument is stored as. *)
Inductive built (R : Z -> Prop) : Value -> Prop :=
| built_type t : built R (Value_type t)
| built_int z : is_int z -> built R (Value_int z)
| built_uint z : is_u32 z -> built R (Value_uint z)
| built_double x : valid_binary 53 1024 x = true -> built R (Value_double x)
| built_string s : Forall is_u8 s -> built R (Value_string s)
| built_bool b : built R (Value_bool b)
| built_assign a b : built R a -> built R b -> built R (assign a b)
| built_swap a b : built R a -> built R b -> built R (swap a b).2
| built_clear v v' : built R v -> clear v = Ret v' -> built R v'
| built_index v i v' : built R v -> R (s32 i) -> index_ref v i = Ret v' -> built R v'
| built_member v k v' : built R v -> Forall is_u8 k -> resolveReference v k = Ret v' -> built R v'
| built_remove v k v' old : built R v -> removeMember v k = Ret (v', old) -> built R v'
| built_removed v k v' old : built R v -> removeMember v k = Ret (v', old) -> built R old
| built_resize v n v' : built R v -> n = 0 \/ R (s32 (n - 1)) -> resize v n = Ret v' -> built R v'
| built_append v x v' : built R v -> built R x -> (forall n, size v = Ret n -> R (s32 n)) ->
    append v x = Ret v' -> built R v'
| built_comment v t p v' : built R v -> Forall is_u8 t -> setComment v t p = Ret v' -> built R v'
| built_ref v p c : built R v -> deref v p = Some c -> built R c
| built_through v p c : built R v -> is_Some (deref v p) -> built R c -> built R (store v p (fun _ => c)).

(** The unsigned number that is the largest signed one. *)
Definition unsigned_max (v : Value) : bool :=
  match value_ v with d_uint z => z =? maxInt | _ => false end.

(** The elements of an array value. *)
Definition elements (v : Value) : stdmap Z Value :=
  match value_ v with d_array m => m | _ => [] end.

(** ** Sizes *)

Lemma s32_index i : 0 <= i < maxInt -> s32 i = i.
Proof. intros Hi. apply s32_id. unfold is_int, maxInt in *. lia. Qed.

(** The size of a map of increasing indices, as the code computes it. *)
Definition top (m : stdmap Z Value) : Z := match last m with Some (i, _) => i + 1 | None => 0 end.

Lemma last_in {A} (l : list A) x : last l = Some x -> x ∈ l.
Proof. rewrite last_lookup. apply list_elem_of_lookup_2. Qed.

Lemma index_below m i (x : Value) : map_sorted m -> (i, x) ∈ m -> i < top m.
Proof.
  unfold top. induction m as [|[j y] m IH]; intros Hs Hin; [by apply not_elem_of_nil in Hin|].
  apply map_sorted_cons in Hs as [Hs Hf]. destruct m as [|e m].
  - apply list_elem_of_singleton in Hin as [= -> ->]. cbn. lia.
  - apply elem_of_cons in Hin as [[= -> ->]|Hin].
    + rewrite last_cons_cons. destruct (last (e :: m)) as [[k z]|] eqn:E; [|by apply last_None in E].
      apply last_in in E. rewrite Forall_forall in Hf. specialize (Hf _ E). cbn in Hf. lia.
    + rewrite last_cons_cons. by apply IH.
Qed.

Lemma top_range m : Forall (fun '(i, x) => 0 <= i < maxInt /\ wf x) m -> 0 <= top m <= maxInt.
Proof.
  intros Hf. unfold top. destruct (last m) as [[i x]|] eqn:E; [|unfold maxInt; lia].
  apply last_in in E. rewrite Forall_forall in Hf. destruct (Hf _ E). lia.
Qed.

Lemma size_array m c : wf (MkValue (d_array m) c) -> size (MkValue (d_array m) c) = Ret (top m).
Proof.
  rewrite wf_array. intros (_ & _ & Hf). apply top_range in Hf. unfold size, top in *. cbn [value_].
  destruct (last m) as [[i x]|]; [|done].
  rewrite int_checked_id by (unfold is_int, maxInt in *; lia).
  rewrite bind_ret_l. f_equal. apply u32_id. unfold is_u32, maxInt in *. lia.
Qed.

Lemma top_cons e m : m <> [] -> top (e :: m) = top m.
Proof. destruct m; [done|]. intros _. unfold top. by rewrite last_cons_cons. Qed.

Lemma top_one i x : top [(i, x)] = i + 1.
Proof. done. Qed.

Lemma map_update_nonnil {K V} `{Key K} (k : K) (f : option V -> V) m : map_update k f m <> [].
Proof. destruct m as [|[j y] m]; cbn [map_update]; [done|]. repeat case_match; done. Qed.

Lemma top_update m i f :
  map_sorted m -> 0 <= i -> top (map_update i f m) = Z.max (top m) (i + 1).
Proof.
  intros Hs Hi. induction m as [|[j y] m IH]; [cbn [map_update]; rewrite top_one; unfold top; cbn; lia|].
  pose proof (index_below _ j y Hs (list_elem_of_here _ _)) as Hj.
  apply map_sorted_cons in Hs as [Hm Hf].
  cbn [map_update key_lt key_eq index_key].
  destruct (Z.ltb_spec j i).
  - rewrite top_cons by apply map_update_nonnil. rewrite IH by done.
    destruct (decide (m = [])) as [->|Hn]; [unfold top; cbn; lia|]. by rewrite top_cons.
  - destruct (Z.eqb_spec j i) as [->|].
    + destruct (decide (m = [])) as [->|Hn]; [unfold top; cbn; lia|]. rewrite !top_cons in * by done. lia.
    + rewrite top_cons by done. lia.
Qed.

(** ** Preservation of well-formedness *)

Lemma value_arrays R v : shape R v -> isArray v = true ->
  become arrayValue v = MkValue (d_array (elements v)) (comments_ v) /\
  shape R (MkValue (d_array (elements v)) (comments_ v)).
Proof.
  intros Hv Ha. destruct v as [[] c]; try discriminate Ha; (split; [done|]); [|done].
  apply wf_empty_array. by apply wf_comments in Hv.
Qed.

(** The members of an object value. *)
Definition members (v : Value) : stdmap (list Z) Value :=
  match value_ v with d_object m => m | _ => [] end.

Lemma value_objects R v : shape R v -> isObject v = true ->
  become objectValue v = MkValue (d_object (members v)) (comments_ v) /\
  shape R (MkValue (d_object (members v)) (comments_ v)).
Proof.
  intros Hv Ha. destruct v as [[] c]; try discriminate Ha; (split; [done|]); [|done].
  apply wf_empty_object. by apply wf_comments in Hv.
Qed.

Lemma index_ref_array v i : wf v -> isArray v = true -> 0 <= i < maxInt ->
  index_ref v i =
    Ret (MkValue (d_array (map_update i (from_option (fun x => x) null) (elements v))) (comments_ v)).
Proof.
  intros Hv Ha Hi. unfold index_ref. destruct (value_arrays _ v Hv Ha) as [-> _]. cbn [value_].
  by rewrite s32_index.
Qed.

Lemma resolve_object R v k : shape R v -> isObject v = true -> cstring k ->
  resolveReference v k =
    Ret (MkValue (d_object (map_update k (from_option (fun x => x) null) (members v))) (comments_ v)).
Proof.
  intros Hv Ha Hk. unfold resolveReference. destruct (value_objects _ v Hv Ha) as [-> _]. cbn [value_].
  by rewrite upto_nul_id.
Qed.

Lemma index_ref_inv R v i v' : shape R v -> index_ref v i = Ret v' -> isArray v = true.
Proof. destruct v as [[] c]; try done; by intros _ [=]. Qed.

Lemma resolve_inv R v k v' : shape R v -> resolveReference v k = Ret v' -> isObject v = true.
Proof. destruct v as [[] c]; try done; by intros _ [=]. Qed.

Lemma index_ref_shape R v i v' : shape R v -> R (s32 i) -> index_ref v i = Ret v' -> shape R v'.
Proof.
  intros Hv Hi E. pose proof (index_ref_inv _ _ _ _ Hv E) as Ha. destruct (value_arrays _ v Hv Ha) as [B Hw].
  unfold index_ref in E. rewrite B in E. injection E as <-.
  apply wf_update_array; [done|done|done|intros _; apply wf_null].
Qed.

Lemma index_ref_wf v i v' : wf v -> 0 <= i < maxInt -> index_ref v i = Ret v' -> wf v'.
Proof. intros Hv Hi. apply index_ref_shape; [done|]. by rewrite s32_index. Qed.

Lemma resolve_wf R v k v' : shape R v -> Forall is_u8 k -> resolveReference v k = Ret v' -> shape R v'.
Proof.
  intros Hv Hk E. pose proof (resolve_inv _ _ _ _ Hv E) as Ha.
  unfold resolveReference in E. destruct (value_objects _ v Hv Ha) as [B Hw]. rewrite B in E. injection E as <-.
  apply wf_update_object; [done|by apply upto_nul_cstring|done|intros _; apply wf_null].
Qed.

Lemma remove_wf R v k v' old : shape R v -> removeMember v k = Ret (v', old) -> shape R v' /\ shape R old.
Proof.
  intros Hv. destruct v as [[] c]; try done; cbn [removeMember value_].
  - intros [= <- <-]. split; [done|apply wf_null].
  - destruct (map_find (upto_nul k) m) as [x|] eqn:E; intros [= <- <-].
    + pose proof Hv as Hv'. apply wf_object in Hv' as (Hc & Hm & Hf). split.
      * apply wf_object. split; [done|]. split; [by apply map_erase_sorted|by apply map_erase_Forall].
      * rewrite Forall_forall in Hf. by apply (Hf _ (map_find_Some_in _ _ _ E)).
    + split; [done|apply wf_null].
Qed.

Lemma clear_wf R v v' : shape R v -> clear v = Ret v' -> shape R v'.
Proof.
  intros Hv. pose proof (wf_comments _ v Hv) as Hc. destruct v as [[] c]; cbn; intros [= <-]; try done.
  - by apply wf_empty_array.
  - by apply wf_empty_object.
Qed.

(** The loop of [resize] that erases the elements from [n]. *)
Definition erased (n : Z) (j cnt : nat) (m : stdmap Z Value) : stdmap Z Value :=
  foldl (fun m i => map_erase (n + Z.of_nat i) m) m (seq j cnt).

Lemma erase_loop n cnt j m c : 0 <= n -> n + Z.of_nat (j + cnt) <= maxInt ->
  cfor (fun i v => erase_index v (n + Z.of_nat i)) cnt j (MkValue (d_array m) c)
    = Ret (MkValue (d_array (erased n j cnt m)) c).
Proof.
  revert j m. induction cnt as [|cnt IH]; intros j m Hn Hm; cbn [cfor]; [done|].
  cbn [erase_index value_]. rewrite s32_index by lia. rewrite bind_ret_l, IH by lia. done.
Qed.

Lemma erased_sorted n cnt j m : map_sorted m -> map_sorted (erased n j cnt m).
Proof.
  unfold erased. revert j m. induction cnt as [|cnt IH]; intros j m Hm; cbn; [done|].
  apply IH. by apply map_erase_sorted.
Qed.

Lemma erased_Forall P n cnt j m : Forall P m -> Forall P (erased n j cnt m).
Proof.
  unfold erased. revert j m. induction cnt as [|cnt IH]; intros j m Hm; cbn; [done|].
  apply IH. by apply map_erase_Forall.
Qed.

Lemma erased_find n cnt j m i : map_sorted m ->
  map_find i (erased n j cnt m) =
    if (n + Z.of_nat j <=? i) && (i <? n + Z.of_nat j + Z.of_nat cnt) then None else map_find i m.
Proof.
  unfold erased. revert j m. induction cnt as [|cnt IH]; intros j m Hm; cbn [seq foldl].
  - change (Z.of_nat 0) with 0. rewrite Z.add_0_r.
    by replace ((n + Z.of_nat j <=? i) && (i <? n + Z.of_nat j)) with false by lia.
  - rewrite IH by (by apply map_erase_sorted). rewrite !Nat2Z.inj_succ.
    destruct (Z.eq_dec i (n + Z.of_nat j)) as [->|Hne].
    + rewrite map_find_erase by done.
      replace ((n + Z.of_nat j <=? n + Z.of_nat j)
               && (n + Z.of_nat j <? n + Z.of_nat j + Z.succ (Z.of_nat cnt))) with true
        by (symmetry; apply andb_true_iff; split; [apply Z.leb_le|apply Z.ltb_lt]; lia).
      by case_match.
    + rewrite map_find_erase_ne by done.
      replace (n + Z.succ (Z.of_nat j) <=? i) with (n + Z.of_nat j <=? i)
        by (apply eq_true_iff_eq; rewrite !Z.leb_le; lia).
      by replace (n + Z.of_nat j + Z.succ (Z.of_nat cnt)) with (n + Z.succ (Z.of_nat j) + Z.of_nat cnt) by lia.
Qed.

(** The size is [n] exactly if the last element is at [n - 1]. *)
Lemma top_spec m n : map_sorted m -> 0 < n -> (forall i, n <= i -> map_find i m = None) ->
  (top m = n <-> is_Some (map_find (n - 1) m)).
Proof.
  intros Hm Hn Hb. split.
  - intros Et. unfold top in Et. destruct (last m) as [[i x]|] eqn:E; [|lia].
    apply last_in in E. replace (n - 1) with i by lia. exists x. by apply map_in_find.
  - intros [x Hx]. apply map_find_Some_in in Hx as Hin.
    pose proof (index_below _ _ _ Hm Hin). unfold top in *.
    destruct (last m) as [[i y]|] eqn:E; [|lia].
    apply last_in in E. apply map_in_find in E; [|done].
    destruct (decide (n <= i)); [by rewrite Hb in E|lia].
Qed.

Lemma above_top m i : map_sorted m -> top m <= i -> map_find i m = None.
Proof.
  intros Hm Hi. destruct (map_find i m) as [x|] eqn:E; [|done].
  apply map_find_Some_in in E. pose proof (index_below _ _ _ Hm E). lia.
Qed.

Lemma resize_cases v n : wf v -> isArray v = true -> 0 <= n <= maxInt ->
  resize v n =
    (if n =? 0 then Ret (MkValue (d_array []) (comments_ v))
     else if top (elements v) <? n then index_ref v (n - 1)
     else
       let m := erased n 0 (Z.to_nat (top (elements v) - n)) (elements v) in
       if bool_decide (is_Some (map_find (n - 1) (elements v)))
       then Ret (MkValue (d_array m) (comments_ v)) else Abort).
Proof.
  intros Hv Ha Hn. destruct (value_arrays _ v Hv Ha) as [B Hw]. unfold resize. rewrite Ha, B.
  cbn [cassert]. rewrite bind_ret_l, size_array, bind_ret_l by done.
  pose proof Hw as Hw'. apply wf_array in Hw' as (Hc & Hm & Hf). pose proof (top_range _ Hf) as Ht.
  destruct (Z.eqb_spec n 0) as [->|Hz]; [done|].
  destruct (Z.ltb_spec (top (elements v)) n).
  { unfold index_ref. by rewrite B. }
  rewrite erase_loop by lia. rewrite bind_ret_l.
  set (m := erased n 0 (Z.to_nat (top (elements v) - n)) (elements v)).
  assert (Hs : map_sorted m) by by apply erased_sorted.
  rewrite size_array.
  2: { apply wf_array. split; [done|]. split; [done|]. by apply erased_Forall. }
  rewrite bind_ret_l.
  assert (Hfind : forall i, map_find i m = if n <=? i then None else map_find i (elements v)).
  { intros i. unfold m. rewrite erased_find by done.
    change (Z.of_nat 0) with 0. rewrite Z.add_0_r, Z2Nat.id by lia.
    destruct (Z.leb_spec n i); [|done].
    destruct (Z.ltb_spec i (top (elements v))).
    - by replace (i <? n + (top (elements v) - n)) with true by lia.
    - rewrite above_top by done. by case_match. }
  assert (Ht' : top m = n <-> is_Some (map_find (n - 1) m)).
  { apply top_spec; [done|lia|]. intros i Hi. rewrite Hfind. by replace (n <=? i) with true by lia. }
  rewrite (Hfind (n - 1)) in Ht'. replace (n <=? n - 1) with false in Ht' by lia.
  case_bool_decide as E.
  - apply Ht' in E. by rewrite E, Z.eqb_refl.
  - rewrite (proj2 (Z.eqb_neq _ _)); [done|]. by rewrite Ht'.
Qed.

Lemma resize_inv v n v' : resize v n = Ret v' -> isArray v = true.
Proof. unfold resize. by destruct (isArray v). Qed.

Lemma erase_shape R v i v' : shape R v -> erase_index v i = Ret v' -> shape R v'.
Proof.
  intros Hv. destruct v as [[] c]; try done. intros [= <-]. apply wf_array in Hv as (Hc & Hm & Hf). apply wf_array.
  split; [done|]. split; [by apply map_erase_sorted|by apply map_erase_Forall].
Qed.

(** What every round keeps holds after a loop that returns. *)
Lemma cfor_kept {S} (P : S -> Prop) (body : nat -> S -> cpp S) n : (forall i s s', P s -> body i s = Ret s' -> P s') ->
  forall i s s', P s -> cfor body n i s = Ret s' -> P s'.
Proof.
  intros Hb. induction n as [|n IH]; intros i s s' Hs; cbn [cfor]; [by intros [= <-]|].
  intros E. apply bind_Ret_inv in E as (s1 & E1 & E). apply (IH (Datatypes.S i) s1); [|exact E]. by eapply Hb.
Qed.

Lemma resize_shape R v n v' : shape R v -> n = 0 \/ R (s32 (n - 1)) -> resize v n = Ret v' -> shape R v'.
Proof.
  intros Hv Hn E. pose proof (resize_inv _ _ _ E) as Ha. unfold resize in E. rewrite Ha in E. cbn [cassert] in E.
  rewrite bind_ret_l in E. destruct (value_arrays _ v Hv Ha) as [B Hw]. rewrite B in E. set (a := MkValue _ _) in *.
  apply bind_Ret_inv in E as (old & _ & E). destruct (Z.eqb_spec n 0) as [->|Hz].
  { by apply (clear_wf R a). }
  destruct (old <? n); [apply (index_ref_shape R a (n - 1)); [done| |exact E]; by destruct Hn|].
  apply bind_Ret_inv in E as (w & Ew & E). apply bind_Ret_inv in E as (k & _ & E).
  apply bind_Ret_inv in E as (? & _ & [= <-]). eapply (cfor_kept (shape R)); [|exact Hw|exact Ew].
  intros i s s' Hs Es. exact (erase_shape R s _ s' Hs Es).
Qed.

Lemma resize_wf v n v' : wf v -> 0 <= n <= maxInt -> resize v n = Ret v' -> wf v'.
Proof.
  intros Hv Hn. apply resize_shape; [done|]. destruct (Z.eq_dec n 0); [by left|right]. rewrite s32_index; lia.
Qed.

Lemma append_cases v x : wf v -> isArray v = true -> top (elements v) < maxInt ->
  append v x = Ret (MkValue (d_array (elements v ++ [(top (elements v), assign null x)])) (comments_ v)).
Proof.
  intros Hv Ha Ht. destruct (value_arrays _ v Hv Ha) as [B Hw].
  assert (Es : size v = Ret (top (elements v))).
  { destruct v as [[] c]; try discriminate Ha; [done|by apply size_array]. }
  apply wf_array in Hw as (_ & Hm & Hf). pose proof (top_range _ Hf).
  assert (Hb : Forall (fun '(i, _) => key_lt i (top (elements v)) = true) (elements v)).
  { apply Forall_forall. intros [i y] Hin. cbn. pose proof (index_below _ _ _ Hm Hin). lia. }
  unfold append. rewrite Es, bind_ret_l, index_ref_array, bind_ret_l by (done || lia).
  rewrite s32_index by lia. cbn [set_child value_ comments_].
  rewrite map_update_update, map_update_end by done. done.
Qed.

Lemma append_inv R v x v' : shape R v -> append v x = Ret v' -> isArray v = true.
Proof.
  unfold append. intros Hv E. apply bind_Ret_inv in E as (n & _ & E).
  apply bind_Ret_inv in E as (w & E & _). by eapply index_ref_inv.
Qed.

Lemma append_shape R v x v' : shape R v -> shape R x -> (forall n, size v = Ret n -> R (s32 n)) ->
  append v x = Ret v' -> shape R v'.
Proof.
  intros Hv Hx Hn E. unfold append in E. apply bind_Ret_inv in E as (n & En & E).
  apply bind_Ret_inv in E as (w & Ew & [= <-]). assert (shape R w) as Hw by (exact (index_ref_shape R v _ w Hv (Hn n En) Ew)).
  assert (exists y, child w (Index (s32 n)) = Some y) as [y Ey].
  { unfold index_ref in Ew. destruct (value_ (become arrayValue v)); try discriminate Ew. injection Ew as <-.
    cbn [child value_]. rewrite map_find_update. by eexists. }
  refine (set_child_wf R w (Index (s32 n)) (fun c => assign c x) y Hw Ey _). intros Hy. by apply assign_wf.
Qed.

Lemma comment_wf R v t p v' : shape R v -> Forall is_u8 t -> setComment v t p = Ret v' -> shape R v'.
Proof.
  intros Hv Ht E. unfold setComment in E. cpp_inv E. injection E as <-.
  apply wf_with_comments; [done|]. pose proof (wf_comments _ v Hv) as Hc.
  assert (comment_ok (upto_nul t)).
  { split; [by apply upto_nul_cstring|]. destruct (upto_nul t); [done|].
    unfold assert_message in Hr. case_match; [lia|discriminate Hr]. }
  intros q u. specialize (Hc q u). destruct p, q; cbn in *; try done; by intros [= <-].
Qed.

Lemma Value_type_wf R t : shape R (Value_type t).
Proof.
  destruct t; try (split; [apply no_comments_ok|done]).
  - by apply wf_empty_array, no_comments_ok.
  - by apply wf_empty_object, no_comments_ok.
Qed.

(** C31: every value the public interface can build, by constructors, mutating
    members and writes through references, is well formed: numbers keep their
    width, strings are C strings, map keys increase, comments are empty or start
    with a slash, and an array index satisfies whatever [R] all the indices do
    that the calls create.  An index argument is stored as an [int], so with
    [is_int] for [R] the theorem is about every use of the interface; with the
    indices below the greatest [int] it is about the uses that keep to them, and
    then an index leaves room for the size of its array ([wf]).  The interface
    does not check this: [negative_index] is a use that breaks it. *)
Theorem built_values_well_formed R v : built R v -> shape R v.
Proof.
  intros H. induction H as [t|z Hz|z Hz|x Hx|s Hs|b|a b _ Ha _ Hb|a b _ Ha _ Hb|v v' _ IH E
    |v i v' _ IH Hi E|v k v' _ IH Hk E|v k v' old _ IH E|v k v' old _ IH E|v n v' _ IH Hn E
    |v x v' _ IH _ IHx Hn E|v t p v' _ IH Ht E|v p c _ IH E|v p c _ IH [x E] _ IHc].
  - apply Value_type_wf.
  - by split; [apply no_comments_ok|].
  - by split; [apply no_comments_ok|].
  - by split; [apply no_comments_ok|].
  - split; [apply no_comments_ok|by apply upto_nul_cstring].
  - by split; [apply no_comments_ok|].
  - by apply assign_wf.
  - apply wf_with_comments; [done|by eapply wf_comments].
  - by eapply clear_wf.
  - by eapply index_ref_shape.
  - by eapply resolve_wf.
  - by destruct (remove_wf _ _ _ _ _ IH E).
  - by destruct (remove_wf _ _ _ _ _ IH E).
  - by eapply resize_shape.
  - exact (append_shape R v x v' IH IHx Hn E).
  - by eapply comment_wf.
  - by eapply (wf_deref R v p).
  - exact (store_wf R v p (fun _ => c) x IH E (fun _ => IHc)).
Qed.

(** Every index argument is stored as an [int]. *)
Lemma index_stored i : is_int (s32 i).
Proof. unfold is_int, s32. pose proof (Z.mod_pos_bound (i + 2 ^ 31) (2 ^ 32)). lia. Qed.

(** An object with a member that was reached through a reference, and an array
    with an index above the range of [int]. *)
Lemma built_values_well_formed_witness :
  (exists v, wf v /\ deref v [Member (codes "k")] = Some (Value_int 7)) /\
  exists v, index_ref null (2 ^ 31) = Ret v /\ shape is_int v.
Proof.
  split.
  - exists (store (plain (d_object [(codes "k", null)])) [Member (codes "k")] (fun _ => Value_int 7)).
    split; [|reflexivity].
    apply (built_values_well_formed (fun i => 0 <= i < maxInt)). apply built_through.
    + apply (built_member _ (Value_type objectValue) (codes "k")); [constructor| |reflexivity].
      eval_decide.
    + exists null. reflexivity.
    + apply built_int. eval_decide.
  - eexists. split; [reflexivity|]. apply (built_values_well_formed is_int).
    apply (built_index _ (Value_type nullValue) (2 ^ 31)); [constructor|eval_decide|reflexivity].
Defined.

(** The index 2^31 is stored as the least [int], and the size of the array with
    this one element is then 2^31 + 1; for the index 2^31 - 1 computing the
    size overflows. *)
Lemma negative_index :
  (exists v, index_ref null (2 ^ 31) = Ret v /\ deref v [Index (- 2 ^ 31)] = Some null /\ size v = Ret (2 ^ 31 + 1)) /\
  exists v, index_ref null (2 ^ 31 - 1) = Ret v /\ size v = Undef.
Proof. split; eexists; split; try reflexivity. split; reflexivity. Qed.

(** The elements after a resize that does not abort. *)
Lemma resize_find v n : wf v -> 0 <= n <= maxInt -> isArray v = true ->
  let old := elements v in
  ~ (0 < n <= top old /\ map_find (n - 1) old = None) ->
  exists m', resize v n = Ret (MkValue (d_array m') (comments_ v)) /\
    (forall i, map_find i m' = if i <? Z.min n (top old) then map_find i old
       else if (i =? n - 1) && (0 <? n) then Some null else None) /\ top m' = n.
Proof.
  intros Hv Hn Ha old Hb. destruct (value_arrays _ v Hv Ha) as [_ Hw]. apply wf_array in Hw as (_ & Hm & Hf). fold old in Hm, Hf.
  pose proof (top_range _ Hf) as Ht. rewrite resize_cases by done. fold old.
  destruct (Z.eqb_spec n 0) as [->|Hz].
  { exists []. split; [done|]. split; [|done]. intros i. cbn [map_find].
    replace ((i =? 0 - 1) && (0 <? 0)) with false by lia.
    case_match; [|done]. symmetry. destruct (map_find i old) as [x|] eqn:E; [|done].
    apply map_find_Some_in in E. rewrite Forall_forall in Hf. destruct (Hf _ E). lia. }
  replace (0 <? n) with true by lia.
  destruct (Z.ltb_spec (top old) n).
  - rewrite index_ref_array by (done || lia). fold old. eexists. split; [done|]. split.
    + intros i. rewrite andb_true_r. destruct (Z.eqb_spec i (n - 1)) as [->|Hi].
      * rewrite map_find_update by done. rewrite above_top by (done || lia).
        by replace (n - 1 <? Z.min n (top old)) with false by lia.
      * rewrite map_find_update_ne by congruence.
        destruct (Z.ltb_spec i (Z.min n (top old))); [done|]. apply above_top; [done|lia].
    + rewrite top_update by (done || lia). lia.
  - destruct (map_find (n - 1) old) as [x|] eqn:Ex; [|exfalso; apply Hb; split; [lia|done]].
    rewrite bool_decide_eq_true_2 by eauto. eexists. split; [done|].
    assert (Hfind : forall i, map_find i (erased n 0 (Z.to_nat (top old - n)) old)
              = if i <? n then map_find i old else None).
    { intros i. rewrite erased_find by done. change (Z.of_nat 0) with 0. rewrite Z.add_0_r, Z2Nat.id by lia.
      destruct (Z.ltb_spec i n); [by replace (n <=? i) with false by lia|].
      replace (n <=? i) with true by lia. cbn [andb]. case_match; [done|]. apply above_top; [done|lia]. }
    split.
    + intros i. rewrite Hfind. replace (Z.min n (top old)) with n by lia.
      destruct (Z.ltb_spec i n); [done|]. by replace (i =? n - 1) with false by lia.
    + apply top_spec; [by apply erased_sorted|lia| |].
      * intros i Hi. rewrite Hfind. by replace (i <? n) with false by lia.
      * rewrite Hfind. replace (n - 1 <? n) with true by lia. by rewrite Ex.
Qed.

(** C30: [resize] of an array or null value of [top] elements.  To zero it
    empties it.  Growing creates only the last element, so that the size is
    right and the elements between are absent.  Shrinking keeps the elements
    below the new size, and its final assertion fails exactly when the last of
    them is absent.  Other types fail the first assertion. *)
Theorem array_resize v n : wf v -> 0 <= n <= maxInt ->
  let old := elements v in
  if negb (isArray v) then resize v n = Abort
  else if (0 <? n) && (n <=? top old) && bool_decide (map_find (n - 1) old = None) then resize v n = Abort
  else
    exists v', resize v n = Ret v' /\ wf v' /\ type_ v' = arrayValue /\ comments_ v' = comments_ v
      /\ size v' = Ret n
      /\ forall i, map_find i (elements v') =
           if i <? Z.min n (top old) then map_find i old
           else if (i =? n - 1) && (0 <? n) then Some null else None.
Proof.
  intros Hv Hn old. destruct (isArray v) eqn:Ha; cbn [negb]; [|unfold resize; by rewrite Ha].
  destruct ((0 <? n) && (n <=? top old) && bool_decide (map_find (n - 1) old = None)) eqn:Eb.
  { apply andb_true_iff in Eb as [Eb E1]. apply andb_true_iff in Eb as [E2 E3].
    rewrite bool_decide_eq_true in E1. rewrite resize_cases by done. fold old.
    replace (n =? 0) with false by lia. replace (top old <? n) with false by lia.
    rewrite E1. by rewrite bool_decide_eq_false_2 by (by intros [? ?]). }
  destruct (resize_find v n Hv Hn Ha) as (m' & E & Hfind & Et).
  { fold old. intros [Hr Hx]. rewrite bool_decide_eq_true_2 in Eb by done. lia. }
  exists (MkValue (d_array m') (comments_ v)). pose proof (resize_wf _ _ _ Hv Hn E) as Hw2.
  split; [done|]. split; [done|]. split; [done|]. split; [done|]. split; [by rewrite size_array, Et|done].
Qed.

(** Growing an empty array to ten elements and shrinking it to five fails. *)
Lemma array_resize_witness :
  exists v, resize null 10 = Ret v /\ size v = Ret 10 /\ resize v 5 = Abort.
Proof.
  pose proof (array_resize null 10 (wf_null _) ltac:(unfold maxInt; lia)) as (v & E & Hv & _ & _ & Es & _).
  exists v. split; [exact E|]. split; [exact Es|].
  pose proof (array_resize v 5 Hv ltac:(unfold maxInt; lia)) as H.
  vm_compute in E. injection E as <-. exact H.
Defined.

(** The lookups of a value as an object: absent members read as absent. *)
Lemma member_get_object v k : wf v -> isObject v = true -> cstring k ->
  member_get v k = Ret (map_find k (members v)).
Proof.
  intros Hv Ho Hk. destruct v as [[] c]; try discriminate Ho; [done|].
  cbn [member_get value_]. by rewrite upto_nul_id.
Qed.

Lemma names_object v : isObject v = true -> getMemberNames v = Ret (members v).*1.
Proof. intros Ho. by destruct v as [[] c]. Qed.

Lemma names_find (m : stdmap (list Z) Value) k :
  map_sorted m -> (k ∈ m.*1 <-> is_Some (map_find k m)).
Proof.
  intros Hm. split.
  - intros Hin. apply list_elem_of_fmap in Hin as ([l x] & -> & Hin). exists x. by apply map_in_find.
  - intros [x E]. apply map_find_Some_in in E. apply list_elem_of_fmap. by exists (k, x).
Qed.

(** C21: assigning a member of an object or null value.  The member then holds
    the assigned data and keeps the comments it had, no other member changes,
    the names stay sorted by [strcmp] without repetition, and removing the
    member returns it and restores every other lookup. *)
Theorem object_members v k x : wf v -> wf x -> cstring k ->
  if negb (isObject v) then set_member v k x = Abort
  else
    exists w u old, set_member v k x = Ret w /\ wf w
      /\ member_get v k = Ret old
      /\ member_get w k = Ret (Some (assign (default null old) x))
      /\ (forall l, cstring l -> l <> k -> member_get w l = member_get v l)
      /\ isMember w k = Ret true
      /\ (exists ns, getMemberNames w = Ret ns /\ StronglySorted (fun a b => strcmp_lt a b = true) ns
          /\ forall n, n ∈ ns <-> n = k \/ n ∈ (members v).*1)
      /\ removeMember w k = Ret (u, assign (default null old) x) /\ wf u
      /\ member_get u k = Ret None
      /\ (forall l, cstring l -> l <> k -> member_get u l = member_get v l).
Proof.
  intros Hv Hx Hk. destruct (isObject v) eqn:Ho; cbn [negb].
  2: { unfold set_member, resolveReference. by destruct v as [[] c]. }
  destruct (value_objects _ v Hv Ho) as [_ Hw]. pose proof Hw as Hw'.
  apply wf_object in Hw' as (Hc & Hm & Hf). set (m := members v) in *. set (c := comments_ v) in *.
  set (y := assign (default null (map_find k m)) x).
  set (m' := map_update k (fun _ => y) m).
  assert (Hy : wf y).
  { apply assign_wf; [|done]. destruct (map_find k m) eqn:E; [|apply wf_null].
    rewrite Forall_forall in Hf. by apply (Hf _ (map_find_Some_in _ _ _ E)). }
  assert (Es : set_member v k x = Ret (MkValue (d_object m') c)).
  { unfold set_member. rewrite (resolve_object _ v k Hv), bind_ret_l by done. rewrite upto_nul_id by done.
    cbn [set_child value_ comments_]. rewrite map_update_update. do 3 f_equal. by apply map_update_ext. }
  assert (Hw2 : wf (MkValue (d_object m') c)) by (by apply wf_update_object).
  assert (Hm' : map_sorted m') by (by apply map_update_sorted).
  assert (Fk : map_find k m' = Some y) by (by apply map_find_update).
  assert (Fl : forall l, l <> k -> map_find l m' = map_find l m).
  { intros l Hl. by apply map_find_update_ne. }
  exists (MkValue (d_object m') c), (MkValue (d_object (map_erase k m')) c), (map_find k m).
  split; [done|]. split; [done|].
  split; [by apply member_get_object|]. split; [rewrite member_get_object by done; by f_equal|].
  split. { intros l Hl Hn. rewrite !member_get_object by done. cbn [members value_]. by rewrite Fl. }
  split. { unfold isMember. rewrite member_get_object by done. cbn [members value_]. by rewrite Fk. }
  split.
  { exists m'.*1. split; [done|]. split; [exact Hm'|]. intros n.
    rewrite !names_find by done. destruct (decide (n = k)) as [->|Hn].
    - rewrite Fk. split; [by left|eauto].
    - rewrite Fl by done. split; [by right|by intros [?|?]]. }
  assert (Er : removeMember (MkValue (d_object m') c) k = Ret (MkValue (d_object (map_erase k m')) c, y)).
  { cbn [removeMember value_]. by rewrite upto_nul_id, Fk by done. }
  destruct (remove_wf _ _ _ _ _ Hw2 Er) as [Hu _].
  split; [done|]. split; [done|].
  split. { rewrite member_get_object by done. cbn [members value_]. by rewrite map_find_erase. }
  intros l Hl Hn. rewrite !member_get_object by done. cbn [members value_].
  rewrite map_find_erase_ne by (done || congruence). by rewrite Fl.
Qed.

(** A member is added to an object that has another. *)
Lemma object_members_witness :
  let v := plain (d_object [(codes "b", Value_bool true)]) in
  exists w, set_member v (codes "a") (Value_int 1) = Ret w
    /\ getMemberNames w = Ret [codes "a"; codes "b"].
Proof.
  intros v. destruct (object_members v (codes "a") (Value_int 1)) as (w & u & old & E & _).
  - by apply wfb_wf.
  - by apply wfb_wf.
  - eval_decide.
  - exists w. split; [exact E|]. vm_compute in E. injection E as <-. reflexivity.
Defined.

(** Evaluates the comparisons of constant types. *)
Ltac eval_types :=
  repeat match goal with
  | |- context [bool_decide (@eq ValueType ?a ?b)] =>
      let r := eval vm_compute in (bool_decide (a = b)) in
      change (bool_decide (a = b)) with r
  end.

(** The numeric conversions.  [asInt] and [asUInt] return a number of the
    type exactly on the values [isConvertibleTo] reports, and throw on all
    others, never undefined; the one exception is the unsigned [maxInt], which
    is reported and refused.  [asDouble] agrees with the report, and [asString]
    throws on numbers that are reported convertible. *)
Theorem conversions_agree v : wf v ->
  (if isConvertibleTo v intValue && negb (unsigned_max v)
   then exists z, asInt v = Ret z /\ is_int z else throws (asInt v))
  /\ (if isConvertibleTo v uintValue then exists z, asUInt v = Ret z /\ is_u32 z else throws (asUInt v))
  /\ (if isConvertibleTo v realValue then is_ret (asDouble v) = true else throws (asDouble v))
  /\ (if isConvertibleTo v stringValue && negb (isInt v || isUInt v || isDouble v)
      then is_ret (asString v) = true else throws (asString v)).
Proof.
  intros Hv. destruct v as [d c]. destruct Hv as [_ Hv]. cbn [value_] in Hv.
  destruct d; cbn [asInt asUInt asDouble asString value_];
    unfold isConvertibleTo, unsigned_max, isInt, isUInt, isDouble, type_; cbn [value_].
  all: eval_types; cbn [andb orb negb]; rewrite ?orb_true_r, ?orb_false_r, ?andb_true_r; cbn [andb orb negb].
  all: try (repeat split; by eexists).
  - split; [by exists z|]. split; [|split; [done|by eexists]].
    destruct (0 <=? z) eqn:E; [|by eexists]. exists (u32 z). split; [done|auto with words].
  - split; [|split; [by exists z|split; [done|by eexists]]].
    unfold is_u32 in Hv. unfold maxInt. destruct (Z.ltb_spec z (2 ^ 31 - 1)).
    + replace ((z <=? 2 ^ 31 - 1) && negb (z =? 2 ^ 31 - 1)) with true by lia.
      exists z. split; [cbn; f_equal; apply s32_id|]; unfold is_int; lia.
    + replace ((z <=? 2 ^ 31 - 1) && negb (z =? 2 ^ 31 - 1)) with false by lia. by eexists.
  - split; [|split; [|split; [done|by eexists]]].
    + destruct (dbl_le (dbl_of_Z minInt) x && dbl_le x (dbl_of_Z maxInt)) eqn:E; [|by eexists].
      apply andb_true_iff in E as [E1 E2].
      destruct (trunc_range x minInt maxInt) as (z & Ez & Hz); [by left|done..|].
      exists z. cbn [assert_message]. rewrite bind_ret_l, Ez, bind_ret_l. unfold minInt, maxInt in Hz.
      split; [apply int_checked_id|]; unfold is_int; lia.
    + destruct (dbl_le (dbl_of_Z 0) x && dbl_le x (dbl_of_Z maxUInt)) eqn:E; [|by eexists].
      apply andb_true_iff in E as [E1 E2].
      destruct (trunc_range x 0 maxUInt) as (z & Ez & Hz); [by right|done..|].
      exists z. cbn [assert_message]. rewrite bind_ret_l, Ez, bind_ret_l. unfold maxUInt in *.
      rewrite defined_true by lia. split; [done|]. unfold is_u32. lia.
  - split; [|split; [|done]]; exists (if b then 1 else 0); (split; [done|]); destruct b;
      unfold is_int, is_u32; lia.
Qed.

(** The double 3.5, and the unsigned [maxInt], which is reported and refused. *)
Lemma conversions_agree_witness :
  (exists z, asInt (Value_double (S754_finite false 7881299347898368 (-51))) = Ret z /\ is_int z) /\
  isConvertibleTo (Value_uint maxInt) intValue = true /\ throws (asInt (Value_uint maxInt)).
Proof.
  split.
  - destruct (conversions_agree (Value_double (S754_finite false 7881299347898368 (-51)))) as (E & _).
    + by apply wfb_wf.
    + exact E.
  - split; [reflexivity|]. destruct (conversions_agree (Value_uint maxInt)) as (E & _).
    + by apply wfb_wf.
    + exact E.
Defined.
