(* ===== verification/JsonWriter.v ===== *)
(** * JSON writers (src/public/json/json_writer.cpp, include/writer.h)

    The number and string formats, [FastWriter], and the two indenting
    writers.  [StyledWriter] and [StyledStreamWriter] are the same text in the
    source up to the start of a line and the indentation step: those are the
    class [Layout], and each writer is an instance.

    The writers walk a value by its nesting depth, [height]; every loop has
    the bound of the source. *)
From Stdlib Require Import SpecFloat.
From S2P Require Import Prelude Words Buffers CString StdMap Decimal Double JsonValue.

(** [for (it = l.begin(); it != l.end(); ++it)] with the position of [it]. *)
Fixpoint cfold {S A} (body : nat -> A -> S -> cpp S) (i : nat) (l : list A) (s : S) : cpp S :=
  match l with
  | [] => Ret s
  | a :: r => s' ← body i a s; cfold body (Datatypes.S i) r s'
  end.

(** ** Numbers *)

Definition isControlCharacter (ch : Z) : bool := (0 <? ch) && (ch <=? 31).

Definition containsControlCharacter (str : list Z) : bool := existsb isControlCharacter str.

(** [*--current = c] in a local buffer, whose contents are never read before. *)
Definition push_char (c : Z) (b : list Z * Z) : cpp (list Z * Z) :=
  let '(buffer, current) := b in
  buffer ← buf_write buffer (current - 1) [c]; Ret (buffer, current - 1).

(** The digits of the [do] loop; an [unsigned int] has at most ten. *)
Fixpoint push_digits (fuel : nat) (value : Z) (b : list Z * Z) : cpp (list Z * Z) :=
  match fuel with
  | O => NoFuel
  | S f =>
      b ← push_char (value mod 10 + 48) b;
      if value / 10 =? 0 then Ret b else push_digits f (value / 10) b
  end.

Definition uintToString (value : Z) (b : list Z * Z) : cpp (list Z * Z) :=
  b ← push_char 0 b; push_digits 10 value b.

(** The string that starts at [current]. *)
Definition string_at (b : list Z * Z) : list Z := upto_nul (drop (Z.to_nat b.2) b.1).

Definition valueToString_uint (value : Z) : cpp (list Z) :=
  b ← uintToString value (replicate 32 0, 32);
  cassert (0 <=? b.2) ;; Ret (string_at b).

(** The negation wraps, as compilers translate it; only [minInt] overflows. *)
Definition valueToString_int (value : Z) : cpp (list Z) :=
  let isNegative := value <? 0 in
  let value := if isNegative then s32 (- value) else value in
  b ← uintToString (u32 value) (replicate 32 0, 32);
  b ← (if isNegative then push_char 45 b else Ret b);
  cassert (0 <=? b.2) ;; Ret (string_at b).

(** [while (ch > buffer && *ch == '0') --ch]. *)
Fixpoint skip_zeros (buffer : list Z) (ch : nat) : cpp nat :=
  match ch with
  | O => Ret O
  | S ch' => c ← buf_get buffer (Z.of_nat ch); if c =? 48 then skip_zeros buffer ch' else Ret ch
  end.

(** The second loop: back over digits to a point, which ends the zeros to drop. *)
Fixpoint truncate_at_point (buffer : list Z) (last_nonzero ch : nat) : cpp (list Z) :=
  c ← buf_get buffer (Z.of_nat ch);
  if isdigit c then
    match ch with O => Ret buffer | S ch' => truncate_at_point buffer last_nonzero ch' end
  else if c =? 46 then buf_write buffer (Z.of_nat last_nonzero + 2) [0]
  else Ret buffer.

Definition valueToString_double (value : double) : cpp (list Z) :=
  buffer ← sprintf_text (replicate 32 0) 0 (sprintf_g16 value);
  n ← strlen buffer;
  c ← buf_get buffer (n - 1);
  if negb (c =? 48) then Ret (upto_nul buffer)
  else
    last_nonzero ← skip_zeros buffer (Z.to_nat (n - 1));
    buffer ← truncate_at_point buffer last_nonzero last_nonzero;
    Ret (upto_nul buffer).

Definition valueToString_bool (value : bool) : list Z := codes (if value then "true" else "false").

(** ** Strings *)

(** [std::hex << std::uppercase << std::setfill('0') << std::setw(4)] of a small number. *)
Definition hex_digit (n : Z) : Z := if n <? 10 then n + 48 else n + 55.
Definition hex4 (n : Z) : list Z :=
  [hex_digit (n / 4096 mod 16); hex_digit (n / 256 mod 16); hex_digit (n / 16 mod 16); hex_digit (n mod 16)].

(** One character of a string, as the [switch] writes it. *)
Definition escape_char (c : Z) : list Z :=
  if c =? 34 then [92; 34]
  else if c =? 92 then [92; 92]
  else if c =? 8 then [92; 98]
  else if c =? 12 then [92; 102]
  else if c =? 10 then [92; 110]
  else if c =? 13 then [92; 114]
  else if c =? 9 then [92; 116]
  else if isControlCharacter c then 92 :: 117 :: hex4 c
  else [c].

(** The characters [strpbrk] looks for. *)
Definition needs_escape (c : Z) : bool := bool_decide (c ∈ [34; 92; 8; 12; 10; 13; 9]).

Definition valueToQuotedString (value : option (list Z)) : cpp (list Z) :=
  match value with
  | None => Undef
  | Some s =>
      if negb (existsb needs_escape s) && negb (containsControlCharacter s)
      then Ret (34 :: s ++ [34])
      else Ret ((34 :: mjoin (escape_char <$> s)) ++ [34])
  end.

(** ** FastWriter *)

Module FastWriter.
(** [document_ += text] is [app_doc text]. *)
Definition app_doc (text document : list Z) : cpp (list Z) := Ret (document ++ text).

Fixpoint writeValue (fuel : nat) (yaml : bool) (value : Value) (document : list Z) : cpp (list Z) :=
  match fuel with
  | O => NoFuel
  | S f =>
      match type_ value with
      | nullValue => app_doc (codes "null") document
      | intValue => n ← asInt value; t ← valueToString_int n; app_doc t document
      | uintValue => n ← asUInt value; t ← valueToString_uint n; app_doc t document
      | realValue => x ← asDouble value; t ← valueToString_double x; app_doc t document
      | stringValue => s ← asCString value; t ← valueToQuotedString s; app_doc t document
      | booleanValue => app_doc (valueToString_bool (asBool value)) document
      | arrayValue =>
          document ← app_doc (codes "[") document;
          n ← size value;
          document ← cfor (fun index document =>
              document ← (if (0 <? Z.of_nat index) then app_doc (codes ",") document else Ret document);
              child ← index_get value (Z.of_nat index);
              writeValue f yaml (default null child) document)
            (Z.to_nat (s32 n)) 0 document;
          app_doc (codes "]") document
      | objectValue =>
          names ← getMemberNames value;
          document ← app_doc (codes "{") document;
          document ← cfold (fun i name document =>
              document ← (if (0 <? Z.of_nat i) then app_doc (codes ",") document else Ret document);
              t ← valueToQuotedString (Some name);
              document ← app_doc t document;
              document ← app_doc (codes (if yaml : bool then ": " else ":")) document;
              child ← member_get value name;
              writeValue f yaml (default null child) document)
            0 names document;
          app_doc (codes "}") document
      end
  end.

Definition write (yaml : bool) (root : Value) : cpp (list Z) :=
  document ← writeValue (height root) yaml root [];
  app_doc [10] document.
End FastWriter.

(** ** The indenting writers *)

(** How a line starts after [document], at the indentation [indentString], and
    the text one level adds. *)
Class Layout := {
  line_start (document indentString : list Z) : list Z;
  indentation : list Z
}.

Record Styled := {
  childValues_ : list (list Z);
  document_ : list Z;
  indentString_ : list Z;
  addChildValues_ : bool
}.

Definition rightMargin_ : Z := 74.

Definition emit (text : list Z) (w : Styled) : Styled :=
  {| childValues_ := childValues_ w; document_ := document_ w ++ text;
     indentString_ := indentString_ w; addChildValues_ := addChildValues_ w |}.

Definition set_indent (s : list Z) (w : Styled) : Styled :=
  {| childValues_ := childValues_ w; document_ := document_ w;
     indentString_ := s; addChildValues_ := addChildValues_ w |}.

Definition set_children (l : list (list Z)) (add : bool) (w : Styled) : Styled :=
  {| childValues_ := l; document_ := document_ w;
     indentString_ := indentString_ w; addChildValues_ := add |}.

Definition pushValue (value : list Z) (w : Styled) : Styled :=
  if addChildValues_ w then set_children (childValues_ w ++ [value]) true w else emit value w.

(** Every kind of line end becomes a line feed. *)
Fixpoint normalizeEOL (text : list Z) : list Z :=
  match text with
  | [] => []
  | c :: r =>
      if c =? 13 then
        match r with
        | d :: r' => if d =? 10 then 10 :: normalizeEOL r' else 10 :: normalizeEOL r
        | [] => [10]
        end
      else c :: normalizeEOL r
  end.

Definition hasCommentForValue (value : Value) : bool :=
  hasComment value commentBefore || hasComment value commentAfterOnSameLine || hasComment value commentAfter.

Definition writeCommentBeforeValue (root : Value) (w : Styled) : Styled :=
  if negb (hasComment root commentBefore) then w
  else emit [10] (emit (normalizeEOL (getComment root commentBefore)) w).

Definition writeCommentAfterValueOnSameLine (root : Value) (w : Styled) : Styled :=
  let w := if hasComment root commentAfterOnSameLine
           then emit (32 :: normalizeEOL (getComment root commentAfterOnSameLine)) w else w in
  if hasComment root commentAfter
  then emit [10] (emit (normalizeEOL (getComment root commentAfter)) (emit [10] w)) else w.

Section layout.
Context `{Layout}.

Definition writeIndent (w : Styled) : Styled := emit (line_start (document_ w) (indentString_ w)) w.

Definition writeWithIndent (value : list Z) (w : Styled) : Styled := emit value (writeIndent w).

Definition indent (w : Styled) : Styled := set_indent (indentString_ w ++ indentation) w.

Definition unindent (w : Styled) : cpp Styled :=
  cassert (Z.of_nat (length indentation) <=? Z.of_nat (length (indentString_ w))) ;;
  Ret (set_indent (take (length (indentString_ w) - length indentation) (indentString_ w)) w).

(** The element of an array, as a reference to a constant. *)
Definition element (value : Value) (index : Z) : cpp Value :=
  child ← index_get value index; Ret (default null child).

(** Whether an element is a container with elements of its own. *)
Definition nested (child : Value) : cpp bool :=
  if isArray child || isObject child then n ← size child; Ret (0 <? n) else Ret false.

Definition isMultineArray (rec : Value -> Styled -> cpp Styled) (value : Value) (w : Styled)
    : cpp (bool * Styled) :=
  n ← size value;
  let size := s32 n in
  limit ← int_checked (size * 3);
  let isMultiLine := rightMargin_ <=? limit in
  let w := set_children [] (addChildValues_ w) w in
  '(_, isMultiLine) ← cwhile (Z.to_nat size) (fun '(index, multi) => (index <? size) && negb multi)
    (fun '(index, multi) =>
       child ← element value index; b ← nested child; Ret (index + 1, multi || b))
    (0, isMultiLine);
  if negb isMultiLine then
    let w := set_children (childValues_ w) true w in
    '(_, isMultiLine, lineLength, w) ←
      cwhile (Z.to_nat size) (fun '(index, multi, _, _) => (index <? size) && negb multi)
        (fun '(index, multi, lineLength, w) =>
           child ← element value index;
           w ← rec child w;
           text ← match childValues_ w !! Z.to_nat index with Some t => Ret t | None => Undef end;
           Ret (index + 1, multi && hasCommentForValue child, lineLength + Z.of_nat (length text), w))
        (0, isMultiLine, 4 + (size - 1) * 2, w);
    Ret (isMultiLine || (rightMargin_ <=? lineLength), set_children (childValues_ w) false w)
  else Ret (isMultiLine, w).

Definition writeArrayValue (rec : Value -> Styled -> cpp Styled) (value : Value) (w : Styled) : cpp Styled :=
  size ← size value;
  if size =? 0 then Ret (pushValue (codes "[]") w)
  else
    '(isArrayMultiLine, w) ← isMultineArray rec value w;
    if isArrayMultiLine : bool then
      let w := indent (writeWithIndent (codes "[") w) in
      let hasChildValue := negb (bool_decide (childValues_ w = [])) in
      w ← cfor (fun index w =>
          child ← element value (Z.of_nat index);
          let w := writeCommentBeforeValue child w in
          w ← (if hasChildValue then
                 text ← match childValues_ w !! index with Some t => Ret t | None => Undef end;
                 Ret (writeWithIndent text w)
               else rec child (writeIndent w));
          let w := if Z.of_nat (Datatypes.S index) =? size then w else emit (codes ",") w in
          Ret (writeCommentAfterValueOnSameLine child w))
        (Z.to_nat size) 0 w;
      w ← unindent w;
      Ret (writeWithIndent (codes "]") w)
    else
      cassert (Z.of_nat (length (childValues_ w)) =? size) ;;
      let w := emit (codes "[ ") w in
      w ← cfor (fun index w =>
          let w := if 0 <? Z.of_nat index then emit (codes ", ") w else w in
          text ← match childValues_ w !! index with Some t => Ret t | None => Undef end;
          Ret (emit text w))
        (Z.to_nat size) 0 w;
      Ret (emit (codes " ]") w).

Fixpoint writeValue (fuel : nat) (value : Value) (w : Styled) : cpp Styled :=
  match fuel with
  | O => NoFuel
  | S f =>
      match type_ value with
      | nullValue => Ret (pushValue (codes "null") w)
      | intValue => n ← asInt value; t ← valueToString_int n; Ret (pushValue t w)
      | uintValue => n ← asUInt value; t ← valueToString_uint n; Ret (pushValue t w)
      | realValue => x ← asDouble value; t ← valueToString_double x; Ret (pushValue t w)
      | stringValue => s ← asCString value; t ← valueToQuotedString s; Ret (pushValue t w)
      | booleanValue => Ret (pushValue (valueToString_bool (asBool value)) w)
      | arrayValue => writeArrayValue (writeValue f) value w
      | objectValue =>
          members ← getMemberNames value;
          if bool_decide (members = []) then Ret (pushValue (codes "{}") w)
          else
            let w := indent (writeWithIndent (codes "{") w) in
            w ← cfold (fun i name w =>
                child ← member_get value name;
                let childValue := default null child in
                let w := writeCommentBeforeValue childValue w in
                t ← valueToQuotedString (Some name);
                let w := emit (codes " : ") (writeWithIndent t w) in
                w ← writeValue f childValue w;
                let w := if Nat.eqb (Datatypes.S i) (length members) then w else emit (codes ",") w in
                Ret (writeCommentAfterValueOnSameLine childValue w))
              0 members w;
            w ← unindent w;
            Ret (writeWithIndent (codes "}") w)
      end
  end.

Definition write (root : Value) : cpp (list Z) :=
  let w := {| childValues_ := []; document_ := []; indentString_ := []; addChildValues_ := false |} in
  let w := writeCommentBeforeValue root w in
  w ← writeValue (height root) root w;
  let w := writeCommentAfterValueOnSameLine root w in
  Ret (document_ w ++ [10]).
End layout.

Module StyledWriter.
(** A line starts on its own unless the last character is a space. *)
Definition writeIndent_start (document indentString : list Z) : list Z :=
  match last document with
  | Some c => if c =? 32 then [] else (if c =? 10 then [] else [10]) ++ indentString
  | None => indentString
  end.

Definition layout : Layout := {| line_start := writeIndent_start; indentation := replicate 3 32 |}.

Definition write (root : Value) : cpp (list Z) := JsonWriter.write (H := layout) root.
End StyledWriter.

Module StyledStreamWriter.
(** A line start is always written. *)
Definition layout (indentation : list Z) : Layout :=
  {| line_start := fun _ indentString => 10 :: indentString; indentation := indentation |}.

(** The methods, which repeat those of [StyledWriter] at this layout. *)
Section methods.
Context (indentation_ : list Z).

Definition writeIndent : Styled -> Styled := JsonWriter.writeIndent (H := layout indentation_).
Definition writeWithIndent : list Z -> Styled -> Styled := JsonWriter.writeWithIndent (H := layout indentation_).
Definition indent : Styled -> Styled := JsonWriter.indent (H := layout indentation_).
Definition unindent : Styled -> cpp Styled := JsonWriter.unindent (H := layout indentation_).
Definition writeArrayValue : (Value -> Styled -> cpp Styled) -> Value -> Styled -> cpp Styled :=
  JsonWriter.writeArrayValue (H := layout indentation_).
Definition writeValue : nat -> Value -> Styled -> cpp Styled := JsonWriter.writeValue (H := layout indentation_).
Definition write (root : Value) : cpp (list Z) := JsonWriter.write (H := layout indentation_) root.
End methods.
End StyledStreamWriter.
