(* ===== verification/JsonReader.v ===== *)
(** * JSON reader (src/public/json/json_reader.cpp, include/reader.h, include/features.h)

    The class [Json::Reader]: a recursive-descent parser over a text in
    memory, with an error list and recovery.  The functions run in a state
    monad over the reader's fields; what a parse does not change (the text, its
    end, the features) is the record [Input].

    [nodes_] is a stack of pointers into the tree that [root] is.  A pointer is
    the path to the element ([JsonValue.pointer]), so that [lastValue_], which
    may name an element of a container being filled, aliases it as in the code.

    Loops run on [loop_fuel], the number of characters and one: each iteration
    reads at least a character.  Calls nest by [loop_fuel] as well: a container
    opens with a character. *)
From Stdlib Require Import SpecFloat.
From S2P Require Import Prelude Words Buffers CString StdMap Decimal Double JsonValue JsonWriter.

(** ** Features, tokens and errors *)

Record Features := { allowComments_ : bool; strictRoot_ : bool }.
Definition Features_all : Features := {| allowComments_ := true; strictRoot_ := false |}.
Definition strictMode : Features := {| allowComments_ := false; strictRoot_ := true |}.

Inductive TokenType :=
| tokenEndOfStream | tokenObjectBegin | tokenObjectEnd | tokenArrayBegin | tokenArrayEnd
| tokenString | tokenNumber | tokenTrue | tokenFalse | tokenNull
| tokenArraySeparator | tokenMemberSeparator | tokenComment | tokenError.

#[global] Instance TokenType_eq_dec : EqDecision TokenType.
Proof. solve_decision. Defined.

Record Token := { tok_type : TokenType; tok_start : Z; tok_end : Z }.

Record ErrorInfo := { err_token : Token; err_message : list Z; err_extra : option Z }.

(** ** The reader *)

(** [text] is the memory from [begin_]: the document and what follows [end_]. *)
Record Input := { text : list Z; end_ : Z; features_ : Features; collectComments_ : bool }.

Record Reader := {
  nodes_ : list pointer;
  root_ : Value;
  errors_ : list ErrorInfo;
  current_ : Z;
  lastValueEnd_ : option Z;
  lastValue_ : option pointer;
  commentsBefore_ : list Z
}.

Definition set_current (c : Z) (r : Reader) : Reader :=
  {| nodes_ := nodes_ r; root_ := root_ r; errors_ := errors_ r; current_ := c;
     lastValueEnd_ := lastValueEnd_ r; lastValue_ := lastValue_ r; commentsBefore_ := commentsBefore_ r |}.
Definition set_root (v : Value) (r : Reader) : Reader :=
  {| nodes_ := nodes_ r; root_ := v; errors_ := errors_ r; current_ := current_ r;
     lastValueEnd_ := lastValueEnd_ r; lastValue_ := lastValue_ r; commentsBefore_ := commentsBefore_ r |}.
Definition set_nodes (n : list pointer) (r : Reader) : Reader :=
  {| nodes_ := n; root_ := root_ r; errors_ := errors_ r; current_ := current_ r;
     lastValueEnd_ := lastValueEnd_ r; lastValue_ := lastValue_ r; commentsBefore_ := commentsBefore_ r |}.
Definition set_errors (e : list ErrorInfo) (r : Reader) : Reader :=
  {| nodes_ := nodes_ r; root_ := root_ r; errors_ := e; current_ := current_ r;
     lastValueEnd_ := lastValueEnd_ r; lastValue_ := lastValue_ r; commentsBefore_ := commentsBefore_ r |}.
Definition set_last (e : option Z) (p : option pointer) (r : Reader) : Reader :=
  {| nodes_ := nodes_ r; root_ := root_ r; errors_ := errors_ r; current_ := current_ r;
     lastValueEnd_ := e; lastValue_ := p; commentsBefore_ := commentsBefore_ r |}.
Definition set_comments (s : list Z) (r : Reader) : Reader :=
  {| nodes_ := nodes_ r; root_ := root_ r; errors_ := errors_ r; current_ := current_ r;
     lastValueEnd_ := lastValueEnd_ r; lastValue_ := lastValue_ r; commentsBefore_ := s |}.

(** The functions of the reader, on its state. *)
Definition RM (A : Type) : Type := Reader -> cpp (A * Reader).
#[global] Instance rm_ret : MRet RM := fun A a r => Ret (a, r).
#[global] Instance rm_bind : MBind RM := fun A B f m r => '(a, r') ← m r; f a r'.

Definition gets {A} (f : Reader -> A) : RM A := fun r => Ret (f r, r).
Definition modify (f : Reader -> Reader) : RM unit := fun r => Ret (tt, f r).
Definition lift {A} (m : cpp A) : RM A := fun r => a ← m; Ret (a, r).

(** A loop: the body goes on with [inl] or ends with [inr]. *)
Fixpoint rloop {S A} (fuel : nat) (body : S -> RM (S + A)) (s : S) : RM A :=
  match fuel with
  | O => lift NoFuel
  | Datatypes.S f =>
      o ← body s;
      match o with inl s' => rloop f body s' | inr a => mret a end
  end.

(** ** Characters *)

(** [in] of four or five characters. *)
Definition char_in (c : Z) (l : list Z) : bool := existsb (Z.eqb c) l.

Fixpoint containsNewLine (s : list Z) : bool :=
  match s with
  | c :: r => if (c =? 10) || (c =? 13) then true else containsNewLine r
  | [] => false
  end.

Definition codePointToUTF8 (cp : Z) : list Z :=
  if cp <=? 127 then [u8 cp]
  else if cp <=? 2047 then
    [u8 (Z.lor 192 (Z.land 31 (Z.shiftr cp 6))); u8 (Z.lor 128 (Z.land 63 cp))]
  else if cp <=? 65535 then
    [u8 (Z.lor 224 (Z.land 15 (Z.shiftr cp 12))); u8 (Z.lor 128 (Z.land 63 (Z.shiftr cp 6)));
     u8 (Z.lor 128 (Z.land 63 cp))]
  else if cp <=? 1114111 then
    [u8 (Z.lor 240 (Z.land 7 (Z.shiftr cp 18))); u8 (Z.lor 128 (Z.land 63 (Z.shiftr cp 12)));
     u8 (Z.lor 128 (Z.land 63 (Z.shiftr cp 6))); u8 (Z.lor 128 (Z.land 63 cp))]
  else [].

Section reader.
Variable inp : Input.

Definition loop_fuel : nat := S (length (text inp)).

(** [*(current_ + k)]. *)
Definition char_at (i : Z) : RM Z := lift (buf_get (text inp) i).

(** The characters from [b] to [e], as [std::string(b, e)] copies them. *)
Definition text_between (b e : Z) : RM (list Z) := lift (buf_read (text inp) b (e - b)).

Definition getNextChar : RM Z :=
  cur ← gets current_;
  if cur =? end_ inp then mret 0
  else c ← char_at cur; _ ← modify (set_current (cur + 1)); mret c.

Definition skipSpaces : RM unit :=
  rloop loop_fuel (fun _ : unit =>
    cur ← gets current_;
    if cur =? end_ inp then mret (inr tt)
    else
      c ← char_at cur;
      if (c =? 32) || (c =? 9) || (c =? 13) || (c =? 10)
      then _ ← modify (set_current (cur + 1)); mret (inl tt)
      else mret (inr tt)) tt.

(** [while (index--) if (current_[index] != pattern[index]) return false]. *)
Fixpoint match_back (cur : Z) (pattern : list Z) (index : nat) : RM bool :=
  match index with
  | O => mret true
  | S i =>
      c ← char_at (cur + Z.of_nat i);
      if negb (c =? nth i pattern 0) then mret false else match_back cur pattern i
  end.

Definition match_ (pattern : list Z) : RM bool :=
  let patternLength := Z.of_nat (length pattern) in
  cur ← gets current_;
  if end_ inp - cur <? patternLength then mret false
  else
    ok ← match_back cur pattern (length pattern);
    if ok : bool then _ ← modify (set_current (cur + patternLength)); mret true else mret false.

(** ** The tree *)

(** [*(nodes_.top())], and a change made through it. *)
Definition top_node : RM pointer :=
  n ← gets nodes_; match n with p :: _ => mret p | [] => lift Undef end.

Definition currentValue : RM Value :=
  p ← top_node; v ← gets root_; match deref v p with Some c => mret c | None => lift Undef end.

Definition update_current (f : Value -> cpp Value) : RM unit :=
  p ← top_node;
  c ← currentValue;
  c' ← lift (f c);
  modify (fun r => set_root (store (root_ r) p (fun _ => c')) r).

(** [currentValue() = v]. *)
Definition assign_current (v : Value) : RM unit := update_current (fun c => Ret (assign c v)).

Definition push_node (s : step) : RM unit :=
  p ← top_node; modify (fun r => set_nodes ((p ++ [s]) :: nodes_ r) r).
Definition pop_node : RM unit := modify (fun r => set_nodes (tail (nodes_ r)) r).

(** ** Errors *)

Definition addError (message : list Z) (token : Token) (extra : option Z) : RM bool :=
  _ ← modify (fun r => set_errors (errors_ r ++ [{| err_token := token; err_message := message; err_extra := extra |}]) r);
  mret false.

(** ** Comments *)

Definition addComment (b e : Z) (placement : CommentPlacement) : RM unit :=
  _ ← lift (cassert (collectComments_ inp));
  s ← text_between b e;
  match placement with
  | commentAfterOnSameLine =>
      last ← gets lastValue_;
      match last with
      | None => lift Abort
      | Some p =>
          v ← gets root_;
          match deref v p with
          | None => lift Undef
          | Some c =>
              c' ← lift (setComment c s placement);
              modify (fun r => set_root (store (root_ r) p (fun _ => c')) r)
          end
      end
  | _ =>
      before ← gets commentsBefore_;
      let before := if bool_decide (before = []) then before else before ++ [10] in
      modify (set_comments (before ++ s))
  end.

Definition readCStyleComment : RM bool :=
  _ ← rloop loop_fuel (fun _ : unit =>
    cur ← gets current_;
    if cur =? end_ inp then mret (inr tt)
    else
      c ← getNextChar;
      if c =? 42 then
        cur ← gets current_;
        d ← char_at cur;
        if d =? 47 then mret (inr tt) else mret (inl tt)
      else mret (inl tt)) tt;
  c ← getNextChar; mret (c =? 47).

Definition readCppStyleComment : RM bool :=
  _ ← rloop loop_fuel (fun _ : unit =>
    cur ← gets current_;
    if cur =? end_ inp then mret (inr tt)
    else
      c ← getNextChar;
      if (c =? 13) || (c =? 10) then mret (inr tt) else mret (inl tt)) tt;
  mret true.

Definition readComment : RM bool :=
  cur ← gets current_;
  let commentBegin := cur - 1 in
  c ← getNextChar;
  successful ← (if c =? 42 then readCStyleComment
                else if c =? 47 then readCppStyleComment else mret false);
  if negb successful then mret false
  else if collectComments_ inp then
    lastEnd ← gets lastValueEnd_;
    cur ← gets current_;
    placement ←
      match lastEnd with
      | None => mret commentBefore
      | Some e =>
          between ← text_between e commentBegin;
          if containsNewLine between then mret commentBefore
          else
            body ← text_between commentBegin cur;
            mret (if negb (c =? 42) || negb (containsNewLine body)
                  then commentAfterOnSameLine else commentBefore)
      end;
    _ ← addComment commentBegin cur placement;
    mret true
  else mret true.

(** ** Tokens *)

Definition is_number_char (c : Z) : bool :=
  ((48 <=? c) && (c <=? 57)) || char_in c [46; 101; 69; 43; 45].

Definition readNumber : RM unit :=
  rloop loop_fuel (fun _ : unit =>
    cur ← gets current_;
    if cur =? end_ inp then mret (inr tt)
    else
      c ← char_at cur;
      if negb (is_number_char c) then mret (inr tt)
      else _ ← modify (set_current (cur + 1)); mret (inl tt)) tt.

(** One round of [readString], with the character last read. *)
Definition string_step (c : Z) : RM (Z + bool) :=
  cur ← gets current_;
  if cur =? end_ inp then mret (inr (c =? 34))
  else
    c ← getNextChar;
    if c =? 92 then _ ← getNextChar; mret (inl c)
    else if c =? 34 then mret (inr (c =? 34))
    else mret (inl c).

Definition readString : RM bool := rloop loop_fuel string_step 0.

(** The [switch] on the first character: the type, and whether the rest is right. *)
Definition token_class (c : Z) : RM (TokenType * bool) :=
  if c =? 123 then mret (tokenObjectBegin, true)
  else if c =? 125 then mret (tokenObjectEnd, true)
  else if c =? 91 then mret (tokenArrayBegin, true)
  else if c =? 93 then mret (tokenArrayEnd, true)
  else if c =? 34 then ok ← readString; mret (tokenString, ok)
  else if c =? 47 then ok ← readComment; mret (tokenComment, ok)
  else if isdigit c || (c =? 45) then _ ← readNumber; mret (tokenNumber, true)
  else if c =? 116 then ok ← match_ (codes "rue"); mret (tokenTrue, ok)
  else if c =? 102 then ok ← match_ (codes "alse"); mret (tokenFalse, ok)
  else if c =? 110 then ok ← match_ (codes "ull"); mret (tokenNull, ok)
  else if c =? 44 then mret (tokenArraySeparator, true)
  else if c =? 58 then mret (tokenMemberSeparator, true)
  else if c =? 0 then mret (tokenEndOfStream, true)
  else mret (tokenError, false).

(** [readToken] always returns true; its result here is the token. *)
Definition readToken : RM Token :=
  _ ← skipSpaces;
  start ← gets current_;
  c ← getNextChar;
  '(type, ok) ← token_class c;
  finish ← gets current_;
  mret {| tok_type := if ok : bool then type else tokenError; tok_start := start; tok_end := finish |}.

Definition skipCommentTokens : RM Token :=
  if allowComments_ (features_ inp) then
    rloop loop_fuel (fun _ : unit =>
      token ← readToken;
      mret (if bool_decide (tok_type token = tokenComment) then inl tt else inr token)) tt
  else readToken.

Definition expectToken (type : TokenType) (message : list Z) : RM (bool * Token) :=
  token ← readToken;
  if negb (bool_decide (tok_type token = type))
  then ok ← addError message token None; mret (ok, token)
  else mret (true, token).

Definition recoverFromError (skipUntilToken : TokenType) : RM bool :=
  errorCount ← gets (fun r => length (errors_ r));
  _ ← rloop loop_fuel (fun _ : unit =>
    skip ← readToken;
    mret (if bool_decide (tok_type skip = skipUntilToken) || bool_decide (tok_type skip = tokenEndOfStream)
          then inr tt else inl tt)) tt;
  _ ← modify (fun r => set_errors (take errorCount (errors_ r)) r);
  mret false.

Definition addErrorAndRecover (message : list Z) (token : Token) (skipUntilToken : TokenType) : RM bool :=
  _ ← addError message token None; recoverFromError skipUntilToken.

(** ** Numbers *)

(** The digits of an integer: read, not digits, or past the threshold. *)
Inductive number_scan := NumberIs (value : Z) | NotANumber | PastThreshold.

Fixpoint scan_number (threshold : Z) (s : list Z) (value : Z) : number_scan :=
  match s with
  | [] => NumberIs value
  | c :: r =>
      if (c <? 48) || (57 <? c) then NotANumber
      else if threshold <=? value then PastThreshold
      else scan_number threshold r (u32 (value * 10 + (c - 48)))
  end.

Definition not_a_number (token : Token) : RM bool :=
  s ← text_between (tok_start token) (tok_end token);
  addError (39 :: s ++ codes "' is not a number.") token None.

(** A token of 32 characters writes its terminator past the local buffer. *)
Definition decodeDouble (token : Token) : RM bool :=
  let bufferSize := 32 in
  let length := tok_end token - tok_start token in
  s ← (if length <=? bufferSize then
         buffer ← lift (memcpy (replicate 32 0) 0 (text inp) (tok_start token) length);
         buffer ← lift (buf_write buffer length [0]);
         mret (upto_nul buffer)
       else s ← text_between (tok_start token) (tok_end token); mret (upto_nul s));
  match sscanf_lf s with
  | Some value => _ ← assign_current (Value_double value); mret true
  | None => not_a_number token
  end.

(** The test of the first loop: a point, an exponent or an inner sign. *)
Definition looks_double (s : list Z) : bool :=
  existsb (fun c => char_in c [46; 101; 69; 43]) s || existsb (Z.eqb 45) (tail s).

(** [-Value::minInt] wraps, as compilers translate it. *)
Definition number_threshold (isNegative : bool) : Z :=
  (if isNegative then u32 (s32 (- minInt)) else maxUInt) / 10.

Definition decodeNumber (token : Token) : RM bool :=
  s ← text_between (tok_start token) (tok_end token);
  if looks_double s then decodeDouble token
  else
    let isNegative := match s with c :: _ => c =? 45 | [] => false end in
    match scan_number (number_threshold isNegative) (if isNegative then tail s else s) 0 with
    | NotANumber => not_a_number token
    | PastThreshold => decodeDouble token
    | NumberIs value =>
        _ ← assign_current (if isNegative then Value_int (s32 (- s32 value))
                            else if value <=? maxInt then Value_int value else Value_uint value);
        mret true
    end.

(** ** Strings

    The decoders walk the characters [s] between [current] and [end], where
    [pos] is [current]; a failure carries the message and the position of
    the error they add. *)
Definition decoded (A : Type) : Type := (list Z * Z + A)%type.

Definition hex_value (c : Z) : option Z :=
  if (48 <=? c) && (c <=? 57) then Some (c - 48)
  else if (97 <=? c) && (c <=? 102) then Some (c - 97 + 10)
  else if (65 <=? c) && (c <=? 70) then Some (c - 65 + 10)
  else None.

Fixpoint decode_hex (n : nat) (s : list Z) (pos unicode : Z) : decoded (Z * list Z * Z) :=
  match n with
  | O => inr (unicode, s, pos)
  | S n' =>
      match s with
      | [] => inl ([], pos)
      | c :: r =>
          match hex_value c with
          | Some d => decode_hex n' r (pos + 1) (u32 (u32 (unicode * 16) + d))
          | None =>
              inl (codes "Bad unicode escape sequence in string: hexadecimal digit expected.", pos + 1)
          end
      end
  end.

Definition decodeUnicodeEscapeSequence (s : list Z) (pos : Z) : decoded (Z * list Z * Z) :=
  if Z.of_nat (length s) <? 4
  then inl (codes "Bad unicode escape sequence in string: four digits expected.", pos)
  else decode_hex 4 s pos 0.

Definition surrogate_error : list Z :=
  codes "expecting another \u token to begin the second half of a unicode surrogate pair".

Definition decodeUnicodeCodePoint (s : list Z) (pos : Z) : decoded (Z * list Z * Z) :=
  match decodeUnicodeEscapeSequence s pos with
  | inl e => inl e
  | inr (unicode, s, pos) =>
      if (55296 <=? unicode) && (unicode <=? 56319) then
        if Z.of_nat (length s) <? 6
        then inl (codes "additional six characters expected to parse unicode surrogate pair.", pos)
        else
          match s with
          | c :: d :: s' =>
              if c =? 92 then
                if d =? 117 then
                  match decodeUnicodeEscapeSequence s' (pos + 2) with
                  | inl e => inl e
                  | inr (surrogatePair, s'', pos') =>
                      inr (65536 + Z.shiftl (Z.land unicode 1023) 10 + Z.land surrogatePair 1023, s'', pos')
                  end
                else inl (surrogate_error, pos + 2)
              else inl (surrogate_error, pos + 1)
          | _ => inl ([], pos)
          end
      else inr (unicode, s, pos)
  end.

(** The character an escape letter other than [u] stands for. *)
Definition escape_value (c : Z) : option Z :=
  if c =? 34 then Some 34 else if c =? 47 then Some 47 else if c =? 92 then Some 92
  else if c =? 98 then Some 8 else if c =? 102 then Some 12 else if c =? 110 then Some 10
  else if c =? 114 then Some 13 else if c =? 116 then Some 9 else None.

Fixpoint decode_chars (fuel : nat) (s : list Z) (pos : Z) (acc : list Z) : cpp (decoded (list Z)) :=
  match fuel with
  | O => NoFuel
  | S f =>
      match s with
      | [] => Ret (inr acc)
      | c :: r =>
          if c =? 34 then Ret (inr acc)
          else if c =? 92 then
            match r with
            | [] => Ret (inl (codes "Empty escape sequence in string", pos + 1))
            | e :: r' =>
                if e =? 117 then
                  match decodeUnicodeCodePoint r' (pos + 2) with
                  | inl err => Ret (inl err)
                  | inr (unicode, r'', pos') => decode_chars f r'' pos' (acc ++ codePointToUTF8 unicode)
                  end
                else
                  match escape_value e with
                  | Some d => decode_chars f r' (pos + 2) (acc ++ [d])
                  | None => Ret (inl (codes "Bad escape sequence in string", pos + 2))
                  end
            end
          else decode_chars f r (pos + 1) (acc ++ [c])
      end
  end.

(** [decodeString(token, decoded)]; [None] is failure, its error recorded. *)
Definition decodeString_text (token : Token) : RM (option (list Z)) :=
  s ← text_between (tok_start token + 1) (tok_end token - 1);
  d ← lift (decode_chars (loop_fuel) s (tok_start token + 1) []);
  match d with
  | inr decoded => mret (Some decoded)
  | inl (message, pos) => _ ← addError message token (Some pos); mret None
  end.

Definition decodeString (token : Token) : RM bool :=
  d ← decodeString_text token;
  match d with
  | Some decoded => _ ← assign_current (Value_string decoded); mret true
  | None => mret false
  end.

(** ** Values *)

(** Reads tokens until one that is not a comment. *)
Definition skip_comments (token : Token) : RM Token :=
  rloop (loop_fuel) (fun token =>
    if bool_decide (tok_type token = tokenComment) then token ← readToken; mret (inl token)
    else mret (inr token)) token.

(** One round of the loop of [readObject], from the name last read. *)
Definition object_step (readValue : RM bool) (name : list Z) : RM (list Z + bool) :=
  tokenName ← readToken;
  tokenName ← skip_comments tokenName;
  if bool_decide (tok_type tokenName = tokenObjectEnd) && bool_decide (name = []) then mret (inr true)
  else if negb (bool_decide (tok_type tokenName = tokenString)) then
    ok ← addErrorAndRecover (codes "Missing '}' or object member name") tokenName tokenObjectEnd;
    mret (inr ok)
  else
    d ← decodeString_text tokenName;
    match d with
    | None => ok ← recoverFromError tokenObjectEnd; mret (inr ok)
    | Some name =>
        colon ← readToken;
        if negb (bool_decide (tok_type colon = tokenMemberSeparator)) then
          ok ← addErrorAndRecover (codes "Missing ':' after object member name") colon tokenObjectEnd;
          mret (inr ok)
        else
          _ ← update_current (fun v => resolveReference v name);
          _ ← push_node (Member (upto_nul name));
          ok ← readValue;
          _ ← pop_node;
          if negb ok then ok ← recoverFromError tokenObjectEnd; mret (inr ok)
          else
            comma ← readToken;
            if negb (bool_decide (tok_type comma = tokenObjectEnd))
               && negb (bool_decide (tok_type comma = tokenArraySeparator))
               && negb (bool_decide (tok_type comma = tokenComment)) then
              ok ← addErrorAndRecover (codes "Missing ',' or '}' in object declaration") comma tokenObjectEnd;
              mret (inr ok)
            else
              comma ← skip_comments comma;
              if bool_decide (tok_type comma = tokenObjectEnd) then mret (inr true) else mret (inl name)
    end.

Definition readObject (readValue : RM bool) (tokenStart : Token) : RM bool :=
  _ ← assign_current (Value_type objectValue);
  rloop loop_fuel (object_step readValue) [].

(** One round of the loop of [readArray], at the next index. *)
Definition array_step (readValue : RM bool) (index : Z) : RM (Z + bool) :=
  _ ← update_current (fun v => index_ref v (u32 index));
  _ ← push_node (Index (s32 (u32 index)));
  index' ← lift (int_checked (index + 1));
  ok ← readValue;
  _ ← pop_node;
  if negb ok then ok ← recoverFromError tokenArrayEnd; mret (inr ok)
  else
    token ← readToken;
    token ← skip_comments token;
    let badTokenType := bool_decide (tok_type token = tokenArraySeparator)
                        && bool_decide (tok_type token = tokenArrayEnd) in
    if badTokenType then
      ok ← addErrorAndRecover (codes "Missing ',' or ']' in array declaration") token tokenArrayEnd;
      mret (inr ok)
    else if bool_decide (tok_type token = tokenArrayEnd) then mret (inr true)
    else mret (inl index').

Definition readArray (readValue : RM bool) (tokenStart : Token) : RM bool :=
  _ ← assign_current (Value_type arrayValue);
  _ ← skipSpaces;
  cur ← gets current_;
  c ← char_at cur;
  if c =? 93 then _ ← readToken; mret true
  else rloop loop_fuel (array_step readValue) 0.

(** The comment collected before a value becomes its comment. *)
Definition take_comment : RM unit :=
  before ← gets commentsBefore_;
  if collectComments_ inp && negb (bool_decide (before = [])) then
    _ ← update_current (fun v => setComment v before commentBefore);
    modify (set_comments [])
  else mret tt.

(** The value just read is the one a comment on its line belongs to. *)
Definition finish_value (successful : bool) : RM bool :=
  if collectComments_ inp then
    cur ← gets current_;
    p ← top_node;
    _ ← modify (set_last (Some cur) (Some p));
    mret successful
  else mret successful.

Fixpoint readValue (fuel : nat) : RM bool :=
  match fuel with
  | O => lift NoFuel
  | S f =>
      token ← skipCommentTokens;
      _ ← take_comment;
      match tok_type token with
      | tokenObjectBegin => ok ← readObject (readValue f) token; finish_value ok
      | tokenArrayBegin => ok ← readArray (readValue f) token; finish_value ok
      | tokenNumber => ok ← decodeNumber token; finish_value ok
      | tokenString => ok ← decodeString token; finish_value ok
      | tokenTrue => _ ← assign_current (Value_bool true); finish_value true
      | tokenFalse => _ ← assign_current (Value_bool false); finish_value true
      | tokenNull => _ ← assign_current (Value_type nullValue); finish_value true
      | _ => addError (codes "Syntax error: value, object or array expected.") token None
      end
  end.

(** What [parse] runs, after the fields are set. *)
Definition parse_document : RM bool :=
  successful ← readValue (loop_fuel);
  _ ← skipCommentTokens;
  before ← gets commentsBefore_;
  _ ← (if collectComments_ inp && negb (bool_decide (before = []))
       then r ← gets root_; r' ← lift (setComment r before commentAfter); modify (set_root r')
       else mret tt);
  r ← gets root_;
  if strictRoot_ (features_ inp) && negb (isArray r) && negb (isObject r) then
    addError (codes "A valid JSON document must be either an array or an object value.")
      {| tok_type := tokenError; tok_start := 0; tok_end := end_ inp |} None
  else mret successful.
End reader.

(** [parse(beginDoc, endDoc, root, collectComments)] on the memory [mem]. *)
Definition parse_range (features : Features) (mem : list Z) (endDoc : Z) (root : Value) (collectComments : bool)
    : cpp (bool * Reader) :=
  let collect := if negb (allowComments_ features) then false else collectComments in
  parse_document {| text := mem; end_ := endDoc; features_ := features; collectComments_ := collect |}
    {| nodes_ := [[]]; root_ := root; errors_ := []; current_ := 0;
       lastValueEnd_ := None; lastValue_ := None; commentsBefore_ := [] |}.

(** [parse(document, root, collectComments)]: the string and its terminator. *)
Definition parse (features : Features) (document : list Z) (root : Value) (collectComments : bool)
    : cpp (bool * Reader) :=
  parse_range features (document ++ [0]) (Z.of_nat (length document)) root collectComments.

(** [parse(sin, root, collectComments)]: [std::getline] stops at [(char)EOF]. *)
Definition parse_stream (features : Features) (sin : list Z) (root : Value) (collectComments : bool)
    : cpp (bool * Reader) :=
  parse features (span (fun c => negb (c =? 255)) sin).1 root collectComments.

(** ** Error messages *)

(** The loop over the text before [location]: the line, the start of the last one. *)
Fixpoint location_loop (fuel : nat) (mem : list Z) (finish location current lastLineStart line : Z) : cpp (Z * Z) :=
  if (current <? location) && negb (current =? finish) then
    match fuel with
    | O => NoFuel
    | S f =>
        c ← buf_get mem current;
        let current := current + 1 in
        if c =? 13 then
          d ← buf_get mem current;
          let current := if d =? 10 then current + 1 else current in
          location_loop f mem finish location current current (line + 1)
        else if c =? 10 then location_loop f mem finish location current current (line + 1)
        else location_loop f mem finish location current lastLineStart line
    end
  else Ret (line, lastLineStart).

(** Line and column of a location, counted from 1. *)
Definition getLocationLineAndColumn (mem : list Z) (finish location : Z) : cpp (Z * Z) :=
  '(line, lastLineStart) ← location_loop (S (length mem)) mem finish location 0 0 0;
  Ret (line + 1, location - lastLineStart + 1).

Definition location_text (mem : list Z) (finish location : Z) : cpp (list Z) :=
  '(line, column) ← getLocationLineAndColumn mem finish location;
  buffer ← sprintf_text (replicate 51 0) 0
    (codes "Line " ++ print_int line ++ codes ", Column " ++ print_int column);
  Ret (upto_nul buffer).

Definition getFormatedErrorMessages (mem : list Z) (finish : Z) (errors : list ErrorInfo) : cpp (list Z) :=
  cfold (fun _ error formattedMessage =>
    at_ ← location_text mem finish (tok_start (err_token error));
    let formattedMessage := formattedMessage ++ codes "* " ++ at_ ++ [10]
                            ++ codes "  " ++ err_message error ++ [10] in
    match err_extra error with
    | Some extra =>
        see ← location_text mem finish extra;
        Ret (formattedMessage ++ codes "See " ++ see ++ codes " for detail." ++ [10])
    | None => Ret formattedMessage
    end) 0 errors [].

(** [operator>>]: the parsed root, or the messages as an exception. *)
Definition operator_extract (sin : list Z) (root : Value) : cpp (Value + list Z) :=
  let document := (span (fun c => negb (c =? 255)) sin).1 in
  '(ok, r) ← parse_stream Features_all sin root true;
  if ok : bool then Ret (inl (root_ r))
  else m ← getFormatedErrorMessages (document ++ [0]) (Z.of_nat (length document)) (errors_ r); Ret (inr m).
