(* ===== verification/JsonGrammar.v ===== *)
(** * The texts of JSON values

    What a JSON document means, defined without the reader: which texts spell a
    value, with any white space and any escapes.  Numbers are those of the
    reader's types: an integer near the end of its range is a double.  The
    second part relates the grammar to the decoders of [JsonReader], which work
    on the characters of one token. *)
From Stdlib Require Import SpecFloat.
From S2P Require Import Prelude Words Buffers CString StdMap Decimal Double JsonValue JsonWriter JsonReader.

(** ** White space, numbers and strings *)

Definition is_space (c : Z) : bool := (c =? 32) || (c =? 9) || (c =? 13) || (c =? 10).
Definition spaces (s : list Z) : Prop := Forall (fun c => is_space c = true) s.

Definition sign (neg : bool) : list Z := if neg then [45] else [].

Inductive exponent_text : list Z -> Z -> Prop :=
| exponent_none : exponent_text [] 0
| exponent_some (c : Z) (s ds : list Z) (neg : bool) :
    c = 101 \/ c = 69 -> s = sign neg \/ (s = [43] /\ neg = false) -> digits ds -> ds <> [] ->
    exponent_text (c :: s ++ ds) (if neg then - dec_value ds else dec_value ds).

(** Integers from here on are read as doubles. *)
Definition int_limit (neg : bool) : Z := if neg then 2147483640 else 4294967290.

Definition integer (neg : bool) (n : Z) : data Value :=
  if neg then d_int (- n) else if n <=? maxInt then d_int n else d_uint n.

Inductive number_text : list Z -> data Value -> Prop :=
| number_int neg ds : digits ds -> ds <> [] -> dec_value ds < int_limit neg ->
    number_text (sign neg ++ ds) (integer neg (dec_value ds))
| number_big neg ds : digits ds -> int_limit neg <= dec_value ds ->
    length (sign neg ++ ds) <> 32%nat ->
    number_text (sign neg ++ ds) (d_real (dbl_decimal neg (dec_value ds) 0))
| number_real neg ip fp ex e : digits ip -> ip <> [] -> digits fp -> exponent_text ex e ->
    length (sign neg ++ ip ++ 46 :: fp ++ ex) <> 32%nat ->
    number_text (sign neg ++ ip ++ 46 :: fp ++ ex)
      (d_real (dbl_decimal neg (dec_value (ip ++ fp)) (e - Z.of_nat (length fp))))
| number_exponent neg ip ex e : digits ip -> ip <> [] -> ex <> [] -> exponent_text ex e ->
    length (sign neg ++ ip ++ ex) <> 32%nat ->
    number_text (sign neg ++ ip ++ ex) (d_real (dbl_decimal neg (dec_value ip) e)).

(** Four hexadecimal digits and their value. *)
Inductive hex_text : list Z -> Z -> Prop :=
| hex_four a b c d va vb vc vd :
    hex_value a = Some va -> hex_value b = Some vb -> hex_value c = Some vc -> hex_value d = Some vd ->
    hex_text [a; b; c; d] (va * 4096 + vb * 256 + vc * 16 + vd).

(** [escaped s t]: between quotes, [t] spells the bytes [s]. *)
Inductive escaped : list Z -> list Z -> Prop :=
| escaped_nil : escaped [] []
| escaped_plain c s t : c <> 34 -> c <> 92 -> escaped s t -> escaped (c :: s) (c :: t)
| escaped_letter e d s t : escape_value e = Some d -> escaped s t -> escaped (d :: s) (92 :: e :: t)
| escaped_unicode h u s t : hex_text h u -> ~ (55296 <= u <= 56319) -> escaped s t ->
    escaped (codePointToUTF8 u ++ s) (92 :: 117 :: h ++ t)
| escaped_pair h u h' u' s t : hex_text h u -> 55296 <= u <= 56319 -> hex_text h' u' ->
    56320 <= u' <= 57343 -> escaped s t ->
    escaped (codePointToUTF8 (65536 + (u - 55296) * 1024 + (u' - 56320)) ++ s)
            (92 :: 117 :: h ++ 92 :: 117 :: h' ++ t).

(** ** Documents *)

(** An array of consecutive elements, and an object of the members in the
    order of the text: a repeated name keeps the last. *)
Definition array_of (vs : list Value) : data Value := d_array (imap (fun i v => (Z.of_nat i, v)) vs).

Definition add_member (m : stdmap (list Z) Value) (kv : list Z * Value) : stdmap (list Z) Value :=
  map_update (upto_nul kv.1) (fun _ => kv.2) m.
Definition object_of (kvs : list (list Z * Value)) : data Value := d_object (foldl add_member [] kvs).

Inductive json_text : Value -> list Z -> Prop :=
| text_null : json_text null (codes "null")
| text_true : json_text (Value_bool true) (codes "true")
| text_false : json_text (Value_bool false) (codes "false")
| text_number d t : number_text t d -> json_text (plain d) t
| text_string s t : escaped s t -> json_text (Value_string s) (34 :: t ++ [34])
| text_empty_array w : spaces w -> json_text (plain (array_of [])) (91 :: w ++ [93])
| text_array vs t : elements_text vs t -> json_text (plain (array_of vs)) (91 :: t ++ [93])
| text_empty_object w : spaces w -> json_text (plain (object_of [])) (123 :: w ++ [125])
| text_object kvs t : members_text kvs t -> json_text (plain (object_of kvs)) (123 :: t ++ [125])
with elements_text : list Value -> list Z -> Prop :=
| elements_one v w t w' : spaces w -> json_text v t -> spaces w' -> elements_text [v] (w ++ t ++ w')
| elements_more v w t w' vs ts : spaces w -> json_text v t -> spaces w' -> elements_text vs ts ->
    elements_text (v :: vs) (w ++ t ++ w' ++ 44 :: ts)
with members_text : list (list Z * Value) -> list Z -> Prop :=
| members_one k v w s w' w'' t w''' : spaces w -> escaped k s -> spaces w' -> spaces w'' ->
    json_text v t -> spaces w''' ->
    members_text [(k, v)] (w ++ (34 :: s ++ [34]) ++ w' ++ 58 :: w'' ++ t ++ w''')
| members_more k v w s w' w'' t w''' kvs ts : spaces w -> escaped k s -> spaces w' -> spaces w'' ->
    json_text v t -> spaces w''' -> members_text kvs ts ->
    members_text ((k, v) :: kvs) (w ++ (34 :: s ++ [34]) ++ w' ++ 58 :: w'' ++ t ++ w''' ++ 44 :: ts).

Scheme json_text_mut := Induction for json_text Sort Prop
with elements_text_mut := Induction for elements_text Sort Prop
with members_text_mut := Induction for members_text Sort Prop.
Combined Scheme json_text_mutind from json_text_mut, elements_text_mut, members_text_mut.

(** ** Strings against the decoder *)

Lemma hex_value_range c d : hex_value c = Some d -> 0 <= d < 16.
Proof. unfold hex_value. repeat case_match; intros [= <-]; lia. Qed.

Lemma hex_text_range h u : hex_text h u -> length h = 4%nat /\ 0 <= u < 65536.
Proof.
  intros [a b c d va vb vc vd Ha Hb Hc Hd]. apply hex_value_range in Ha, Hb, Hc, Hd. split; [done|lia].
Qed.

Lemma decode_hex_text h u s pos : hex_text h u ->
  decodeUnicodeEscapeSequence (h ++ s) pos = inr (u, s, pos + 4).
Proof.
  intros [a b c d va vb vc vd Ha Hb Hc Hd]. unfold decodeUnicodeEscapeSequence.
  replace (Z.of_nat (length ([a; b; c; d] ++ s)) <? 4) with false.
  2: { symmetry. apply Z.ltb_ge. rewrite length_app. cbn [length]. lia. }
  cbn [app decode_hex]. rewrite Ha, Hb, Hc, Hd.
  apply hex_value_range in Ha, Hb, Hc, Hd. unfold u32.
  rewrite (Z.mod_small (0 * 16)), (Z.mod_small (0 * 16 + va)) by lia.
  rewrite (Z.mod_small ((0 * 16 + va) * 16)), (Z.mod_small ((0 * 16 + va) * 16 + vb)) by lia.
  set (x := (0 * 16 + va) * 16 + vb). assert (Hx : x = va * 16 + vb) by lia. clearbody x.
  rewrite (Z.mod_small (x * 16)), (Z.mod_small (x * 16 + vc)) by lia.
  rewrite (Z.mod_small ((x * 16 + vc) * 16)), (Z.mod_small ((x * 16 + vc) * 16 + vd)) by lia.
  f_equal. f_equal; [f_equal|]; lia.
Qed.

Lemma decode_escaped s t fuel pos acc : escaped s t -> (length t < fuel)%nat ->
  decode_chars fuel t pos acc = Ret (inr (acc ++ s)).
Proof.
  intros H. revert fuel pos acc. induction H as [|c s t H1 H2 H IH|e d s t E H IH|h u s t Hh Hu H IH
    |h u h' u' s t Hh Hu Hh' Hu' H IH]; intros [|fuel] pos acc Hf; try (cbn [length] in Hf; lia).
  - cbn. by rewrite app_nil_r.
  - cbn [decode_chars]. replace (c =? 34) with false by lia. replace (c =? 92) with false by lia.
    rewrite IH by (cbn [length] in Hf; lia). by rewrite <- app_assoc.
  - cbn [decode_chars]. change (92 =? 34) with false. change (92 =? 92) with true. cbv iota.
    destruct (Z.eqb_spec e 117) as [->|He]; [discriminate E|]. rewrite E.
    rewrite IH by (cbn [length] in Hf; lia). by rewrite <- app_assoc.
  - cbn [decode_chars]. change (92 =? 34) with false. change (92 =? 92) with true.
    change (117 =? 117) with true. cbv iota. unfold decodeUnicodeCodePoint.
    rewrite (decode_hex_text h u) by done.
    replace ((55296 <=? u) && (u <=? 56319)) with false by lia.
    rewrite IH; [by rewrite <- app_assoc|]. cbn [length] in Hf. rewrite length_app in Hf. lia.
  - cbn [decode_chars]. change (92 =? 34) with false. change (92 =? 92) with true.
    change (117 =? 117) with true. cbv iota. unfold decodeUnicodeCodePoint.
    rewrite (decode_hex_text h u) by done.
    replace ((55296 <=? u) && (u <=? 56319)) with true by lia.
    apply hex_text_range in Hh as Rh. apply hex_text_range in Hh' as Rh'.
    replace (Z.of_nat (length (92 :: 117 :: h' ++ t)) <? 6) with false.
    2: { symmetry. apply Z.ltb_ge. cbn [length]. rewrite length_app. lia. }
    change (92 =? 92) with true. change (117 =? 117) with true. cbv iota.
    rewrite (decode_hex_text h' u') by done.
    replace (65536 + Z.shiftl (Z.land u 1023) 10 + Z.land u' 1023)
      with (65536 + (u - 55296) * 1024 + (u' - 56320)).
    2: { change 1023 with (Z.ones 10). rewrite !Z.land_ones, Z.shiftl_mul_pow2 by lia.
         change (2 ^ 10) with 1024.
         replace (u mod 1024) with (u - 55296); [replace (u' mod 1024) with (u' - 56320); [lia|]|].
         - apply Zmod_unique with (q := 55); lia.
         - apply Zmod_unique with (q := 54); lia. }
    rewrite IH; [by rewrite <- app_assoc|]. cbn [length] in Hf. rewrite length_app in Hf.
    cbn [length] in Hf. rewrite length_app in Hf. lia.
Qed.

(** ** Numbers against the decoder *)

Definition dec_step (a c : Z) : Z := a * 10 + (c - 48).

Lemma isdigit_range c : isdigit c = true -> 48 <= c <= 57.
Proof. unfold isdigit. lia. Qed.

Lemma dec_fold_mono ds v : digits ds -> 0 <= v -> v <= foldl dec_step v ds.
Proof.
  revert v. induction ds as [|c ds IH]; intros v Hd Hv; cbn [foldl]; [lia|].
  apply Forall_cons in Hd as [Hc Hd]. apply isdigit_range in Hc.
  etransitivity; [|apply IH; [done|]]; unfold dec_step; lia.
Qed.

Lemma scan_number_ok T ds v : digits ds -> ds <> [] -> 0 <= v -> 0 < T -> T * 10 <= 2 ^ 32 ->
  scan_number T ds v = if foldl dec_step v ds <? T * 10 then NumberIs (foldl dec_step v ds) else PastThreshold.
Proof.
  revert v. induction ds as [|c ds IH]; intros v Hd Hn Hv H0 HT; [done|].
  apply Forall_cons in Hd as [Hc Hd]. apply isdigit_range in Hc. cbn [scan_number foldl].
  replace ((c <? 48) || (57 <? c)) with false by lia.
  pose proof (dec_fold_mono ds (dec_step v c) Hd ltac:(unfold dec_step; lia)) as Hm. unfold dec_step at 1 in Hm.
  destruct (Z.leb_spec T v).
  - replace (foldl dec_step (dec_step v c) ds <? T * 10) with false by lia. done.
  - change (v * 10 + (c - 48)) with (dec_step v c). rewrite u32_id by (unfold is_u32, dec_step; lia).
    destruct (decide (ds = [])) as [->|Hds]; [|apply IH; [done|done|unfold dec_step; lia|done|done]].
    cbn [scan_number foldl]. replace (dec_step v c <? T * 10) with true; [done|]. unfold dec_step. lia.
Qed.

Lemma threshold_limit neg : number_threshold neg * 10 = int_limit neg.
Proof. by destruct neg. Qed.

Lemma scan_digits neg ds : digits ds -> ds <> [] ->
  scan_number (number_threshold neg) ds 0 =
    if dec_value ds <? int_limit neg then NumberIs (dec_value ds) else PastThreshold.
Proof.
  intros Hd Hn. rewrite scan_number_ok; try done; [|by destruct neg..]. by rewrite threshold_limit.
Qed.

Lemma dec_value_nonneg ds : digits ds -> 0 <= dec_value ds.
Proof. intros Hd. exact (dec_fold_mono ds 0 Hd ltac:(lia)). Qed.

Lemma char_in_digit c l : isdigit c = true -> forallb (fun d => negb (isdigit d)) l = true -> char_in c l = false.
Proof.
  intros Hc Hl. apply not_true_iff_false. unfold char_in. rewrite existsb_exists. intros (d & Hd & E).
  apply Z.eqb_eq in E as ->. rewrite forallb_forall in Hl. apply Hl in Hd. by rewrite Hc in Hd.
Qed.

Lemma digits_not_double ds : digits ds -> looks_double ds = false.
Proof.
  intros Hd. unfold looks_double. apply orb_false_iff. split.
  - apply not_true_iff_false. rewrite existsb_exists. intros (c & Hc & E).
    unfold digits in Hd. rewrite Forall_forall in Hd. apply list_elem_of_In, Hd in Hc.
    by rewrite char_in_digit in E.
  - apply not_true_iff_false. rewrite existsb_exists. intros (c & Hc & E). apply Z.eqb_eq in E as <-.
    unfold digits in Hd. rewrite Forall_forall in Hd. specialize (Hd 45). destruct ds; [done|].
    enough (isdigit 45 = true) by done. apply Hd. apply list_elem_of_further. by apply list_elem_of_In.
Qed.

Lemma int_not_double neg ds : digits ds -> looks_double (sign neg ++ ds) = false.
Proof.
  intros Hd. destruct neg; cbn [sign app]; [|by apply digits_not_double].
  pose proof (digits_not_double ds Hd) as E. unfold looks_double in *. cbn [existsb tail].
  apply orb_false_iff in E as [-> E]. change (char_in 45 [46; 101; 69; 43]) with false. cbn [orb].
  apply not_true_iff_false. rewrite existsb_exists. intros (c & Hc & E2). apply Z.eqb_eq in E2 as <-.
  unfold digits in Hd. rewrite Forall_forall in Hd. by apply list_elem_of_In, Hd in Hc.
Qed.

(** A point or an exponent makes a number a double. *)
Lemma marked_double s c t : char_in c [46; 101; 69; 43] = true -> looks_double (s ++ c :: t) = true.
Proof.
  intros Hc. unfold looks_double. apply orb_true_iff. left. rewrite existsb_app. cbn [existsb].
  rewrite Hc. by rewrite orb_true_r.
Qed.

Lemma exponent_marked ex e : exponent_text ex e -> ex <> [] ->
  exists c t, ex = c :: t /\ char_in c [46; 101; 69; 43] = true /\ isdigit c = false /\ c <> 46.
Proof. intros [|c s ds neg [-> | ->] _ _ _] Hn; [done|by eexists _, _|by eexists _, _]. Qed.

Lemma scan_exponent_ok ex e : exponent_text ex e -> scan_exponent ex = Some e.
Proof.
  intros [|c s ds neg Hc Hs Hd Hn]; [done|]. cbn [scan_exponent].
  replace ((c =? 101) || (c =? 69)) with true by lia.
  assert (E : scan_sign (s ++ ds) = (neg, ds)).
  { destruct Hs as [->|[-> ->]]; [|done]. destruct neg; [done|]. destruct ds as [|d ds]; [done|].
    apply Forall_cons in Hd as [Hd _]. apply isdigit_range in Hd. cbn [sign app scan_sign].
    by replace (d =? 45) with false by lia; replace (d =? 43) with false by lia. }
  rewrite E. rewrite <- (app_nil_r ds) at 1. rewrite span_digits by done. by case_decide.
Qed.

Lemma scan_sign_ok neg s c t : s = c :: t -> isdigit c = true -> scan_sign (sign neg ++ s) = (neg, s).
Proof.
  intros -> Hc. apply isdigit_range in Hc. destruct neg; cbn [sign app scan_sign]; [done|].
  by replace (c =? 45) with false by lia; replace (c =? 43) with false by lia.
Qed.

Lemma digits_cons ds : digits ds -> ds <> [] -> exists c t, ds = c :: t /\ isdigit c = true.
Proof. intros Hd Hn. destruct ds; [done|]. apply Forall_cons in Hd as [Hc _]. eauto. Qed.

(** [sscanf] on the three forms of a double. *)
Lemma sscanf_point neg ip fp ex e : digits ip -> ip <> [] -> digits fp -> exponent_text ex e ->
  sscanf_lf (sign neg ++ ip ++ 46 :: fp ++ ex) =
    Some (dbl_decimal neg (dec_value (ip ++ fp)) (e - Z.of_nat (length fp))).
Proof.
  intros Hi Hn Hf He. unfold sscanf_lf. destruct (digits_cons ip Hi Hn) as (c & t & E & Hc).
  erewrite (scan_sign_ok neg (ip ++ _)) by (by rewrite ?E). rewrite span_digits by done.
  change (46 =? 46) with true. cbv iota beta.
  rewrite span_digits; [|done|destruct He as [|c' s ds neg' [-> | ->] _ _ _]; done].
  rewrite decide_False by (intros E2; by apply app_nil in E2 as [? _]).
  by rewrite (scan_exponent_ok ex e).
Qed.

Lemma sscanf_integer neg ip ex e : digits ip -> ip <> [] -> exponent_text ex e ->
  sscanf_lf (sign neg ++ ip ++ ex) = Some (dbl_decimal neg (dec_value ip) e).
Proof.
  intros Hi Hn He. unfold sscanf_lf. destruct (digits_cons ip Hi Hn) as (c & t & E & Hc).
  erewrite (scan_sign_ok neg (ip ++ _)) by (by rewrite ?E).
  rewrite span_digits; [|done|destruct He as [|c' s ds neg' [-> | ->] _ _ _]; done].
  assert (E2 : match ex with [] => ([], []) | c :: r => if c =? 46 then span isdigit r else ([], ex) end = ([], ex)).
  { destruct He as [|c' s ds neg' [-> | ->] _ _ _]; done. }
  rewrite E2. rewrite decide_False by (by rewrite app_nil_r). rewrite (scan_exponent_ok ex e) by done.
  cbn. by rewrite app_nil_r, Z.sub_0_r.
Qed.

(** *** The characters of a number *)

Lemma digit_number c : isdigit c = true -> is_number_char c = true.
Proof. intros Hc. apply isdigit_range in Hc. unfold is_number_char. by replace ((48 <=? c) && (c <=? 57)) with true by lia. Qed.

Lemma digits_number ds : digits ds -> Forall (fun c => is_number_char c = true) ds.
Proof. intros Hd. eapply Forall_impl; [exact Hd|]. apply digit_number. Qed.

Lemma sign_number neg : Forall (fun c => is_number_char c = true) (sign neg).
Proof. destruct neg; repeat constructor. Qed.

Lemma exponent_number ex e : exponent_text ex e -> Forall (fun c => is_number_char c = true) ex.
Proof.
  intros [|c s ds neg Hc Hs Hd Hn]; [constructor|]. constructor; [by destruct Hc as [-> | ->]|].
  apply Forall_app. split; [|by apply digits_number].
  destruct Hs as [-> |[-> _]]; [apply sign_number|by repeat constructor].
Qed.

Lemma number_chars t d : number_text t d -> Forall (fun c => is_number_char c = true) t.
Proof.
  intros [neg ds Hd Hn Hv|neg ds Hd Hv Hl|neg ip fp ex e Hi Hn Hf He Hl|neg ip ex e Hi Hn Hx He Hl];
    rewrite ?Forall_app, ?Forall_cons, ?Forall_app;
    eauto 8 using sign_number, digits_number, exponent_number.
Qed.

Lemma sign_head neg ds s : digits ds -> ds <> [] ->
  exists c t, sign neg ++ ds ++ s = c :: t /\ isdigit c || (c =? 45) = true.
Proof.
  intros Hd Hn. destruct neg; cbn [sign app]; [by eexists _, _|].
  destruct (digits_cons ds Hd Hn) as (c & t & -> & Hc). eexists _, _. split; [done|]. by rewrite Hc.
Qed.

Lemma number_head t d : number_text t d -> exists c u, t = c :: u /\ isdigit c || (c =? 45) = true.
Proof.
  intros [neg ds Hd Hn Hv|neg ds Hd Hv Hl|neg ip fp ex e Hi Hn Hf He Hl|neg ip ex e Hi Hn Hx He Hl].
  - rewrite <- (app_nil_r ds). by apply sign_head.
  - rewrite <- (app_nil_r ds). apply sign_head; [done|]. intros ->. cbn in Hv. by destruct neg.
  - by apply sign_head.
  - by apply sign_head.
Qed.
