(* ===== verification/JsonRead.v ===== *)
(** * Reading a JSON document

    The reader of [JsonReader] on a text of the grammar of [JsonGrammar]: every
    token, every value and the whole document are read as the grammar says,
    whatever the white space and the escapes. *)
From Stdlib Require Import SpecFloat.
From S2P Require Import Prelude Words Buffers CString StdMap Decimal Double JsonValue JsonWriter JsonReader JsonGrammar.

(** ** The reader's monad *)

Lemma rm_step {A B} (m : RM A) (f : A -> RM B) r a r' : m r = Ret (a, r') -> (m ≫= f) r = f a r'.
Proof. intros E. unfold mbind at 1, rm_bind. by rewrite E. Qed.

Lemma rloop_more {S A} fuel (body : S -> RM (S + A)) s r s' r' :
  body s r = Ret (inl s', r') -> rloop (Datatypes.S fuel) body s r = rloop fuel body s' r'.
Proof. intros E. cbn [rloop]. by rewrite (rm_step _ _ _ _ _ E). Qed.

Lemma rloop_done {S A} fuel (body : S -> RM (S + A)) s r a r' :
  body s r = Ret (inr a, r') -> rloop (Datatypes.S fuel) body s r = Ret (a, r').
Proof. intros E. cbn [rloop]. by rewrite (rm_step _ _ _ _ _ E). Qed.

Lemma gets_ok {A} (f : Reader -> A) r : gets f r = Ret (f r, r).
Proof. done. Qed.

Lemma modify_ok f r : modify f r = Ret (tt, f r).
Proof. done. Qed.

Lemma lift_ok {A} (m : cpp A) a r : m = Ret a -> lift m r = Ret (a, r).
Proof. by intros ->. Qed.

(** [adv n r] is [r] after [n] more characters. *)
Definition adv (n : nat) (r : Reader) : Reader := set_current (current_ r + Z.of_nat n) r.

Lemma adv_0 r : adv 0 r = r.
Proof. destruct r. unfold adv, set_current. cbn. by rewrite Z.add_0_r. Qed.

Lemma adv_adv n m r : adv m (adv n r) = adv (n + m) r.
Proof. unfold adv, set_current. cbn. f_equal. lia. Qed.

(** A step of [ma ≫= ...], discharging the first call with [H]. *)
Ltac rm_run H := rewrite (rm_step _ _ _ _ _ H).
Ltac rm_gets := rewrite (rm_step (gets _) _ _ _ _ (gets_ok _ _)).
Ltac rm_modify := rewrite (rm_step (modify _) _ _ _ _ (modify_ok _ _)).

Section read.
Variable inp : Input.
(** The character at [end_] can be read: it is the terminator of the string. *)
Hypothesis input_end : 0 <= end_ inp < Z.of_nat (length (text inp)).

Definition ahead (r : Reader) : list Z := drop (Z.to_nat (current_ r)) (take (Z.to_nat (end_ inp)) (text inp)).

(** The reader is inside the document and [s] is left of it. *)
Definition looking (r : Reader) (s : list Z) : Prop := 0 <= current_ r <= end_ inp /\ ahead r = s.

Lemma looking_length r s : looking r s -> Z.of_nat (length s) = end_ inp - current_ r.
Proof. intros [Hc <-]. unfold ahead. rewrite length_drop, length_take. lia. Qed.

Lemma looking_fuel r s : looking r s -> (length s < loop_fuel inp)%nat.
Proof. intros H. apply looking_length in H as Hl. destruct H. unfold loop_fuel. lia. Qed.

Lemma looking_end r : looking r [] -> current_ r = end_ inp.
Proof. intros H. apply looking_length in H as Hl. destruct H. cbn in Hl. lia. Qed.

Lemma looking_cons r c s : looking r (c :: s) ->
  (current_ r =? end_ inp) = false /\ buf_get (text inp) (current_ r) = Ret c.
Proof.
  intros H. apply looking_length in H as Hl. destruct H as [Hc Ha]. cbn [length] in Hl. split; [lia|].
  assert (E : ahead r !! 0%nat = Some c) by (by rewrite Ha).
  unfold ahead in E. rewrite lookup_drop, lookup_take_Some, Nat.add_0_r in E. destruct E as [E _].
  unfold buf_get. rewrite decide_True by lia. by rewrite E.
Qed.

Lemma looking_at r s i c : looking r s -> s !! i = Some c ->
  buf_get (text inp) (current_ r + Z.of_nat i) = Ret c.
Proof.
  intros [Hc Ha] E. rewrite <- Ha in E. unfold ahead in E. rewrite lookup_drop, lookup_take_Some in E.
  destruct E as [E _]. unfold buf_get. rewrite decide_True by lia.
  replace (Z.to_nat (current_ r + Z.of_nat i)) with (Z.to_nat (current_ r) + i)%nat by lia. by rewrite E.
Qed.

Lemma looking_adv r s t : looking r (s ++ t) -> looking (adv (length s) r) t.
Proof.
  intros H. apply looking_length in H as Hl. destruct H as [Hc Ha]. rewrite length_app in Hl.
  split; [cbn; lia|]. unfold ahead, adv. cbn [current_ set_current].
  rewrite Z2Nat.inj_add, Nat2Z.id by lia. rewrite <- drop_drop. fold (ahead r). rewrite Ha.
  by rewrite drop_app_length.
Qed.

Lemma looking_adv1 r c t : looking r (c :: t) -> looking (adv 1 r) t.
Proof. exact (looking_adv r [c] t). Qed.

(** Only the position matters. *)
Lemma looking_moved r r' s t : looking r (s ++ t) ->
  current_ r' = current_ r + Z.of_nat (length s) -> looking r' t.
Proof.
  intros H E. apply looking_adv in H. unfold looking, ahead in *. cbn [adv set_current current_] in H.
  by rewrite E.
Qed.

Lemma text_ahead r s t : looking r (s ++ t) ->
  text_between inp (current_ r) (current_ r + Z.of_nat (length s)) r = Ret (s, r).
Proof.
  intros H. apply looking_length in H as Hl. destruct H as [Hc Ha]. rewrite length_app in Hl.
  apply lift_ok. unfold buf_read. rewrite decide_True by lia. f_equal.
  unfold slice. replace (Z.to_nat (current_ r + Z.of_nat (length s) - current_ r)) with (length s) by lia.
  apply list_eq. intros i. destruct (decide (i < length s)%nat).
  - rewrite lookup_take_lt, lookup_drop by done.
    assert (E : ahead r !! i = s !! i) by (rewrite Ha; by apply lookup_app_l).
    unfold ahead in E. rewrite lookup_drop, lookup_take_lt in E by lia. done.
  - rewrite lookup_take_ge, lookup_ge_None_2 by lia. done.
Qed.

(** ** Characters and tokens *)

Lemma next_char r c s : looking r (c :: s) -> getNextChar inp r = Ret (c, adv 1 r).
Proof.
  intros H. apply looking_cons in H as [E1 E2]. unfold getNextChar. rm_gets. rewrite E1.
  rm_run (lift_ok _ _ r E2). by rm_modify.
Qed.

Lemma next_char_end r : looking r [] -> getNextChar inp r = Ret (0, r).
Proof. intros H. apply looking_end in H. unfold getNextChar. rm_gets. by rewrite H, Z.eqb_refl. Qed.

(** The next character, if any, is outside [p]. *)
Definition stops (p : Z -> bool) (s : list Z) : Prop :=
  match s with [] => True | c :: _ => p c = false end.

(** A loop that advances over the characters of [p]. *)
Lemma skip_loop (p : Z -> bool) (body : unit -> RM (unit + unit)) w s r fuel :
  (forall r, looking r [] -> body tt r = Ret (inr tt, r)) ->
  (forall r c s, looking r (c :: s) ->
     body tt r = if p c then Ret (inl tt, adv 1 r) else Ret (inr tt, r)) ->
  looking r (w ++ s) -> Forall (fun c => p c = true) w -> stops p s -> (length w < fuel)%nat ->
  rloop fuel body tt r = Ret (tt, adv (length w) r).
Proof.
  intros H0 H1. revert r fuel. induction w as [|c w IH]; intros r [|fuel] Hl Hw Hs Hf; try (cbn in Hf; lia).
  - rewrite adv_0. apply rloop_done. destruct s as [|c s]; [by apply H0|].
    rewrite (H1 _ _ _ Hl). cbn in Hs. by rewrite Hs.
  - apply Forall_cons in Hw as [Hc Hw]. erewrite rloop_more by (rewrite (H1 _ _ _ Hl), Hc; reflexivity).
    rewrite IH; [by rewrite adv_adv|by eapply looking_adv1|done|done|cbn in Hf; lia].
Qed.

Lemma skipSpaces_ok r w s : looking r (w ++ s) -> spaces w -> stops is_space s ->
  skipSpaces inp r = Ret (tt, adv (length w) r).
Proof.
  intros Hl Hw Hs. unfold skipSpaces. apply (skip_loop is_space _ w s); try done.
  - intros r' H. apply looking_end in H. rm_gets. by rewrite H, Z.eqb_refl.
  - intros r' c t H. apply looking_cons in H as [E1 E2]. rm_gets. rewrite E1.
    rm_run (lift_ok _ _ r' E2). fold (is_space c). by destruct (is_space c).
  - apply looking_fuel in Hl. rewrite length_app in Hl. lia.
Qed.

Lemma readNumber_ok r w s : looking r (w ++ s) -> Forall (fun c => is_number_char c = true) w ->
  stops is_number_char s -> readNumber inp r = Ret (tt, adv (length w) r).
Proof.
  intros Hl Hw Hs. unfold readNumber. apply (skip_loop is_number_char _ w s); try done.
  - intros r' H. apply looking_end in H. rm_gets. by rewrite H, Z.eqb_refl.
  - intros r' c t H. apply looking_cons in H as [E1 E2]. rm_gets. rewrite E1.
    rm_run (lift_ok _ _ r' E2). by destruct (is_number_char c).
  - apply looking_fuel in Hl. rewrite length_app in Hl. lia.
Qed.

(** *** Strings *)

(** A spelled string, as [readString] walks it: pairs after a backslash. *)
Inductive string_body : list Z -> Prop :=
| body_nil : string_body []
| body_char c t : c <> 34 -> c <> 92 -> string_body t -> string_body (c :: t)
| body_pair e t : string_body t -> string_body (92 :: e :: t).

Lemma hex_body h u t : hex_text h u -> string_body t -> string_body (h ++ t).
Proof.
  intros [a b c d va vb vc vd Ha Hb Hc Hd] Ht. cbn [app].
  repeat (constructor; [intros ->; discriminate|intros ->; discriminate|]). done.
Qed.

Lemma escaped_body s t : escaped s t -> string_body t.
Proof.
  induction 1; [by apply body_nil|by apply body_char|by apply body_pair|..]; apply body_pair.
  - by eapply hex_body.
  - eapply hex_body; [done|]. apply body_pair. by eapply hex_body.
Qed.

Lemma string_step_char c0 r c s : looking r (c :: s) -> c <> 34 -> c <> 92 ->
  string_step inp c0 r = Ret (inl c, adv 1 r).
Proof.
  intros Hl H1 H2. destruct (looking_cons _ _ _ Hl) as [E _]. unfold string_step. rm_gets. rewrite E.
  rm_run (next_char _ _ _ Hl). replace (c =? 92) with false by lia. by replace (c =? 34) with false by lia.
Qed.

Lemma string_step_pair c0 r e s : looking r (92 :: e :: s) ->
  string_step inp c0 r = Ret (inl 92, adv 2 r).
Proof.
  intros Hl. destruct (looking_cons _ _ _ Hl) as [E _]. unfold string_step. rm_gets. rewrite E.
  rm_run (next_char _ _ _ Hl). change (92 =? 92) with true. cbv iota.
  rm_run (next_char _ _ _ (looking_adv1 _ _ _ Hl)). by rewrite adv_adv.
Qed.

Lemma string_step_end c0 r s : looking r (34 :: s) ->
  string_step inp c0 r = Ret (inr true, adv 1 r).
Proof.
  intros Hl. destruct (looking_cons _ _ _ Hl) as [E _]. unfold string_step. rm_gets. rewrite E.
  by rm_run (next_char _ _ _ Hl).
Qed.

Lemma string_loop t s : string_body t -> forall fuel c0 r,
  looking r (t ++ 34 :: s) -> (length t < fuel)%nat ->
  rloop fuel (string_step inp) c0 r = Ret (true, adv (length t + 1) r).
Proof.
  induction 1 as [|c t H1 H2 Ht IH|e t Ht IH]; intros [|fuel] c0 r Hl Hf; try (cbn in Hf; lia).
  - apply rloop_done. exact (string_step_end c0 r s Hl).
  - erewrite rloop_more by (exact (string_step_char c0 r c _ Hl H1 H2)).
    rewrite IH; [by rewrite adv_adv|by eapply looking_adv1|cbn in Hf; lia].
  - erewrite rloop_more by (exact (string_step_pair c0 r e _ Hl)).
    rewrite IH; [by rewrite adv_adv|by apply (looking_adv r [92; e])|cbn in Hf; lia].
Qed.

Lemma readString_ok r t s : looking r (t ++ 34 :: s) -> string_body t ->
  readString inp r = Ret (true, adv (length t + 1) r).
Proof.
  intros Hl Ht. apply (string_loop t s Ht); [done|].
  apply looking_fuel in Hl. rewrite length_app in Hl. lia.
Qed.

(** *** Words *)

Lemma match_back_ok r p i : (i <= length p)%nat ->
  (forall j c, (j < i)%nat -> p !! j = Some c -> buf_get (text inp) (current_ r + Z.of_nat j) = Ret c) ->
  match_back inp (current_ r) p i r = Ret (true, r).
Proof.
  induction i as [|i IH]; intros Hi Hp; cbn [match_back]; [done|].
  destruct (lookup_lt_is_Some_2 p i) as [c Hc]; [lia|].
  rm_run (lift_ok _ _ r (Hp i c ltac:(lia) Hc)). rewrite (nth_lookup_Some _ _ _ _ Hc), Z.eqb_refl.
  apply IH; [lia|]. intros j d Hj. apply Hp. lia.
Qed.

Lemma match_ok r p s : looking r (p ++ s) -> match_ inp p r = Ret (true, adv (length p) r).
Proof.
  intros Hl. unfold match_. rm_gets. pose proof (looking_length _ _ Hl) as Hn. rewrite length_app in Hn.
  replace (end_ inp - current_ r <? Z.of_nat (length p)) with false by lia.
  assert (E : match_back inp (current_ r) p (length p) r = Ret (true, r)).
  { apply match_back_ok; [done|]. intros j c _ Hc. eapply looking_at; [exact Hl|]. by apply lookup_app_l_Some. }
  rm_run E. by rm_modify.
Qed.

(** *** Tokens *)

(** The text of a token; a number ends where no number character follows. *)
Inductive token_text : TokenType -> list Z -> list Z -> Prop :=
| tt_object_begin s : token_text tokenObjectBegin [123] s
| tt_object_end s : token_text tokenObjectEnd [125] s
| tt_array_begin s : token_text tokenArrayBegin [91] s
| tt_array_end s : token_text tokenArrayEnd [93] s
| tt_comma s : token_text tokenArraySeparator [44] s
| tt_colon s : token_text tokenMemberSeparator [58] s
| tt_true s : token_text tokenTrue (codes "true") s
| tt_false s : token_text tokenFalse (codes "false") s
| tt_null s : token_text tokenNull (codes "null") s
| tt_string t s : string_body t -> token_text tokenString (34 :: t ++ [34]) s
| tt_number c t s : isdigit c || (c =? 45) = true -> Forall (fun c => is_number_char c = true) t ->
    stops is_number_char s -> token_text tokenNumber (c :: t) s.

Definition token_at (ty : TokenType) (n m : nat) (r : Reader) : Token :=
  {| tok_type := ty; tok_start := current_ r + Z.of_nat n; tok_end := current_ r + Z.of_nat (n + m) |}.

Lemma token_head ty t s : token_text ty t s -> exists c u, t = c :: u /\ is_space c = false.
Proof.
  intros []; try (by eexists _, _). eexists _, _. split; [done|].
  unfold is_space, isdigit in *. lia.
Qed.

Lemma token_class_ok ty c u s r : token_text ty (c :: u) s -> looking r (u ++ s) ->
  token_class inp c r = Ret ((ty, true), adv (length u) r).
Proof.
  intros Ht Hl. inversion Ht as [| | | | | | | | |t ? Hb|? ? ? Hd Hn Hs]; subst; try (by rewrite adv_0); unfold token_class.
  - exact (rm_step _ _ _ _ _ (match_ok r (codes "rue") s Hl)).
  - exact (rm_step _ _ _ _ _ (match_ok r (codes "alse") s Hl)).
  - exact (rm_step _ _ _ _ _ (match_ok r (codes "ull") s Hl)).
  - rewrite <- app_assoc in Hl. rewrite length_app. exact (rm_step _ _ _ _ _ (readString_ok r t s Hl Hb)).
  - replace (c =? 123) with false by (unfold isdigit in *; lia).
    replace (c =? 125) with false by (unfold isdigit in *; lia).
    replace (c =? 91) with false by (unfold isdigit in *; lia).
    replace (c =? 93) with false by (unfold isdigit in *; lia).
    replace (c =? 34) with false by (unfold isdigit in *; lia).
    replace (c =? 47) with false by (unfold isdigit in *; lia).
    rewrite Hd. exact (rm_step _ _ _ _ _ (readNumber_ok r u s Hl Hn Hs)).
Qed.

Lemma readToken_ok ty r w t s : looking r (w ++ t ++ s) -> spaces w -> token_text ty t s ->
  readToken inp r = Ret (token_at ty (length w) (length t) r, adv (length w + length t) r).
Proof.
  intros Hl Hw Ht. unfold readToken. destruct (token_head _ _ _ Ht) as (c & u & -> & Hc).
  rm_run (skipSpaces_ok r w ((c :: u) ++ s) Hl Hw Hc).
  pose proof (looking_adv _ _ _ Hl) as Hl2. cbn [app] in Hl2. rm_gets.
  rm_run (next_char _ _ _ Hl2). rm_run (token_class_ok ty c u s _ Ht (looking_adv1 _ _ _ Hl2)).
  rm_gets. unfold mret, rm_ret. rewrite !adv_adv. cbn [length].
  replace (length w + 1 + length u)%nat with (length w + S (length u))%nat by lia. done.
Qed.

(** At the end of the text. *)
Lemma readToken_end r w : looking r w -> spaces w ->
  readToken inp r = Ret (token_at tokenEndOfStream (length w) 0 r, adv (length w) r).
Proof.
  intros Hl Hw. unfold readToken. rewrite <- (app_nil_r w) in Hl.
  rm_run (skipSpaces_ok r w [] Hl Hw I). pose proof (looking_adv _ _ _ Hl) as Hl2. rm_gets.
  rm_run (next_char_end _ Hl2). unfold token_at. rewrite Nat.add_0_r. done.
Qed.

Lemma skipCommentTokens_ok ty r w t s : looking r (w ++ t ++ s) -> spaces w -> token_text ty t s ->
  skipCommentTokens inp r = Ret (token_at ty (length w) (length t) r, adv (length w + length t) r).
Proof.
  intros Hl Hw Ht. pose proof (readToken_ok _ _ _ _ _ Hl Hw Ht) as E. unfold skipCommentTokens.
  destruct (allowComments_ (features_ inp)); [|done]. apply rloop_done. rm_run E.
  cbn [token_at tok_type]. by destruct Ht.
Qed.

Lemma skipCommentTokens_end r w : looking r w -> spaces w ->
  skipCommentTokens inp r = Ret (token_at tokenEndOfStream (length w) 0 r, adv (length w) r).
Proof.
  intros Hl Hw. pose proof (readToken_end _ _ Hl Hw) as E. unfold skipCommentTokens.
  destruct (allowComments_ (features_ inp)); [|done]. apply rloop_done. by rm_run E.
Qed.

Lemma skip_comments_ok t r : tok_type t <> tokenComment -> skip_comments inp t r = Ret (t, r).
Proof.
  intros Ht. unfold skip_comments. apply rloop_done. by rewrite bool_decide_eq_false_2.
Qed.

(** ** The tree *)

(** [r'] is [r] after [n] characters, with the tree [t]; what comments may
    change is left open. *)
Record moved (n : nat) (t : Value) (r r' : Reader) : Prop := {
  moved_current : current_ r' = current_ r + Z.of_nat n;
  moved_root : root_ r' = t;
  moved_nodes : nodes_ r' = nodes_ r;
  moved_errors : errors_ r' = errors_ r;
  moved_before : commentsBefore_ r' = commentsBefore_ r
}.

Lemma moved_adv n r : moved n (root_ r) r (adv n r).
Proof. by split. Qed.

Lemma moved_trans n m t t' r r' r'' : moved n t r r' -> moved m t' r' r'' -> moved (n + m) t' r r''.
Proof. intros [E1 E2 E3 E4 E5] [F1 F2 F3 F4 F5]. split; congruence || lia. Qed.

Lemma top_node_ok r p ns : nodes_ r = p :: ns -> top_node r = Ret (p, r).
Proof. intros E. unfold top_node. rm_gets. by rewrite E. Qed.

Lemma currentValue_ok r p ns c : nodes_ r = p :: ns -> deref (root_ r) p = Some c ->
  currentValue r = Ret (c, r).
Proof.
  intros E1 E2. unfold currentValue. rm_run (top_node_ok _ _ _ E1). rm_gets. by rewrite E2.
Qed.

Lemma update_current_ok r p ns c c' f : nodes_ r = p :: ns -> deref (root_ r) p = Some c -> f c = Ret c' ->
  update_current f r = Ret (tt, set_root (store (root_ r) p (fun _ => c')) r).
Proof.
  intros E1 E2 E3. unfold update_current. rm_run (top_node_ok _ _ _ E1).
  rm_run (currentValue_ok _ _ _ _ E1 E2). by rm_run (lift_ok _ _ r E3).
Qed.

Lemma assign_current_ok r p ns c v : nodes_ r = p :: ns -> deref (root_ r) p = Some c ->
  assign_current v r = Ret (tt, set_root (store (root_ r) p (fun c => assign c v)) r).
Proof.
  intros E1 E2. unfold assign_current. rewrite (update_current_ok r p ns c (assign c v)) by done.
  do 3 f_equal. by apply (store_ext _ _ _ _ c).
Qed.

Lemma push_node_ok r p ns s : nodes_ r = p :: ns ->
  push_node s r = Ret (tt, set_nodes ((p ++ [s]) :: p :: ns) r).
Proof. intros E. unfold push_node. rm_run (top_node_ok _ _ _ E). rewrite modify_ok. by rewrite E. Qed.

Lemma finish_value_ok ok r p ns : nodes_ r = p :: ns ->
  exists r', finish_value inp ok r = Ret (ok, r') /\ moved 0 (root_ r) r r'.
Proof.
  intros E. unfold finish_value. destruct (collectComments_ inp).
  - rm_gets. rm_run (top_node_ok _ _ _ E). rm_modify. eexists. split; [done|].
    split; cbn; lia || done.
  - eexists. split; [done|]. split; cbn; lia || done.
Qed.

Lemma take_comment_none r : commentsBefore_ r = [] -> take_comment inp r = Ret (tt, r).
Proof. intros E. unfold take_comment. rm_gets. rewrite E. by destruct (collectComments_ inp). Qed.

(** ** Numbers and strings *)

Lemma text_read r w t s : looking r (w ++ t ++ s) ->
  buf_read (text inp) (current_ r + Z.of_nat (length w)) (Z.of_nat (length t)) = Ret t.
Proof.
  intros Hl. apply looking_adv in Hl. pose proof (text_ahead _ _ _ Hl) as E.
  unfold text_between, lift in E. cbn [adv set_current current_] in E.
  replace (current_ r + Z.of_nat (length w) + Z.of_nat (length t) - (current_ r + Z.of_nat (length w)))
    with (Z.of_nat (length t)) in E by lia.
  destruct (buf_read _ _ _); try discriminate E. by injection E as ->.
Qed.

Lemma token_text_read r w t s r' : looking r (w ++ t ++ s) -> forall ty,
  text_between inp (tok_start (token_at ty (length w) (length t) r))
    (tok_end (token_at ty (length w) (length t) r)) r' = Ret (t, r').
Proof.
  intros Hl ty. apply lift_ok. cbn [token_at tok_start tok_end].
  replace (current_ r + Z.of_nat (length w + length t) - (current_ r + Z.of_nat (length w)))
    with (Z.of_nat (length t)) by lia. by eapply text_read.
Qed.

Lemma number_nonzero t : Forall (fun c => is_number_char c = true) t -> Forall (fun c => c <> 0) t.
Proof. intros H. eapply Forall_impl; [exact H|]. by intros c Hc ->. Qed.

Lemma decodeDouble_ok r w t s r' p ns c x ty : looking r (w ++ t ++ s) ->
  Forall (fun c => is_number_char c = true) t -> length t <> 32%nat -> sscanf_lf t = Some x ->
  nodes_ r' = p :: ns -> deref (root_ r') p = Some c ->
  decodeDouble inp (token_at ty (length w) (length t) r) r' =
    Ret (true, set_root (store (root_ r') p (fun c => assign c (Value_double x))) r').
Proof.
  intros Hl Hn H32 Hx E1 E2. apply number_nonzero in Hn. unfold decodeDouble.
  assert (E : (if tok_end (token_at ty (length w) (length t) r) - tok_start (token_at ty (length w) (length t) r) <=? 32
     then buffer ← lift (memcpy (replicate 32 0) 0 (text inp) (tok_start (token_at ty (length w) (length t) r))
              (tok_end (token_at ty (length w) (length t) r) - tok_start (token_at ty (length w) (length t) r)));
          buffer ← lift (buf_write buffer (tok_end (token_at ty (length w) (length t) r)
              - tok_start (token_at ty (length w) (length t) r)) [0]);
          mret (upto_nul buffer)
     else s ← text_between inp (tok_start (token_at ty (length w) (length t) r))
                (tok_end (token_at ty (length w) (length t) r)); mret (upto_nul s) : RM (list Z)) r' = Ret (t, r')).
  { case_match eqn:El.
    - cbn [token_at tok_start tok_end] in *.
      replace (current_ r + Z.of_nat (length w + length t) - (current_ r + Z.of_nat (length w)))
        with (Z.of_nat (length t)) in * by lia.
      erewrite rm_step; [|apply lift_ok; unfold memcpy; rewrite (text_read _ _ _ _ Hl), bind_ret_l;
        apply buf_write_ok; rewrite ?length_replicate; lia].
      erewrite rm_step; [|apply lift_ok, buf_write_ok; rewrite ?length_splice, ?length_replicate; cbn [length];
        rewrite ?length_replicate; lia].
      unfold mret, rm_ret. do 2 f_equal. rewrite Nat2Z.id. change (Z.to_nat 0) with 0%nat.
      rewrite (splice_splice _ 0 t [0]) by (rewrite length_replicate; cbn [length]; lia).
      unfold splice. cbn [take app]. rewrite <- app_assoc. by apply upto_nul_at.
    - rm_run (token_text_read r w t s r' Hl ty). unfold mret, rm_ret. by rewrite upto_nul_all. }
  rm_run E. rewrite Hx. by rm_run (assign_current_ok _ _ _ _ (Value_double x) E1 E2).
Qed.

Lemma s32_neg n : 0 <= n < 2 ^ 31 -> s32 (- s32 n) = - n.
Proof. intros Hn. rewrite (s32_id n) by (unfold is_int; lia). apply s32_id. unfold is_int. lia. Qed.

Lemma decodeNumber_ok r w t s r' p ns c d ty : looking r (w ++ t ++ s) -> number_text t d ->
  nodes_ r' = p :: ns -> deref (root_ r') p = Some c ->
  decodeNumber inp (token_at ty (length w) (length t) r) r' =
    Ret (true, set_root (store (root_ r') p (fun c => assign c (plain d))) r').
Proof.
  intros Hl Ht E1 E2. pose proof (number_chars _ _ Ht) as Hc.
  unfold decodeNumber. rm_run (token_text_read r w t s r' Hl ty).
  assert (Hr : looks_double t = true -> forall x, sscanf_lf t = Some x -> d = d_real x -> length t <> 32%nat ->
    (if looks_double t then decodeDouble inp (token_at ty (length w) (length t) r)
     else
       let isNegative := match t with c :: _ => c =? 45 | [] => false end in
       match scan_number (number_threshold isNegative) (if isNegative then tail t else t) 0 with
       | NotANumber => not_a_number inp (token_at ty (length w) (length t) r)
       | PastThreshold => decodeDouble inp (token_at ty (length w) (length t) r)
       | NumberIs value =>
           _ ← assign_current (if isNegative then Value_int (s32 (- s32 value))
                               else if value <=? maxInt then Value_int value else Value_uint value);
           mret true
       end) r' = Ret (true, set_root (store (root_ r') p (fun c => assign c (plain d))) r')).
  { intros -> x Hx -> H32. by eapply decodeDouble_ok. }
  destruct Ht as [neg ds Hd Hn Hv|neg ds Hd Hv H32|neg ip fp ex e Hi Hn Hf He H32|neg ip ex e Hi Hn Hx He H32].
  - rewrite int_not_double by done. cbv zeta.
    destruct (digits_cons ds Hd Hn) as (c' & u & Eu & Hc'). apply isdigit_range in Hc'.
    assert (Es : match sign neg ++ ds with c :: _ => c =? 45 | [] => false end = neg).
    { destruct neg; [done|]. rewrite Eu. cbn. lia. }
    rewrite Es. replace (if neg then tail (sign neg ++ ds) else sign neg ++ ds) with ds by (by destruct neg).
    rewrite scan_digits by done. replace (dec_value ds <? int_limit neg) with true by lia.
    pose proof (dec_value_nonneg ds Hd) as H0.
    assert (Ev : (if neg then Value_int (s32 (- s32 (dec_value ds)))
       else if dec_value ds <=? maxInt then Value_int (dec_value ds) else Value_uint (dec_value ds))
       = plain (integer neg (dec_value ds))).
    { destruct neg; cbn [integer int_limit] in *; [|by destruct (dec_value ds <=? maxInt)]. by rewrite s32_neg by lia. }
    rewrite Ev. by rm_run (assign_current_ok _ _ _ _ (plain (integer neg (dec_value ds))) E1 E2).
  - rewrite int_not_double by done. cbv zeta.
    assert (Hn : ds <> []) by (intros ->; by destruct neg).
    destruct (digits_cons ds Hd Hn) as (c' & u & Eu & Hc'). apply isdigit_range in Hc'.
    assert (Es : match sign neg ++ ds with c :: _ => c =? 45 | [] => false end = neg).
    { destruct neg; [done|]. rewrite Eu. cbn. lia. }
    rewrite Es. replace (if neg then tail (sign neg ++ ds) else sign neg ++ ds) with ds by (by destruct neg).
    rewrite scan_digits by done. replace (dec_value ds <? int_limit neg) with false by lia.
    eapply decodeDouble_ok; try done.
    pose proof (sscanf_integer neg ds [] 0 Hd Hn exponent_none) as Ex. by rewrite app_nil_r in Ex.
  - eapply Hr; [|by eapply sscanf_point|done|done].
    rewrite app_assoc. by apply marked_double.
  - destruct (exponent_marked ex e He Hx) as (c' & u & -> & Hm & _ & _).
    eapply Hr; [|by eapply sscanf_integer|done|done]. rewrite app_assoc. by apply marked_double.
Qed.

Lemma decodeString_text_ok r w k t s r' : looking r (w ++ (34 :: t ++ [34]) ++ s) -> escaped k t ->
  decodeString_text inp (token_at tokenString (length w) (length (34 :: t ++ [34])) r) r' = Ret (Some k, r').
Proof.
  intros Hl Hk. unfold decodeString_text. set (tk := token_at _ _ _ _).
  assert (E : buf_read (text inp) (tok_start tk + 1) (tok_end tk - 1 - (tok_start tk + 1)) = Ret t).
  { replace (w ++ (34 :: t ++ [34]) ++ s) with ((w ++ [34]) ++ t ++ 34 :: s) in Hl
      by (rewrite <- !app_assoc; cbn [app]; by rewrite <- app_assoc).
    pose proof (text_read _ _ _ _ Hl) as E. rewrite length_app in E. cbn [length] in E.
    unfold tk, token_at. cbn [tok_start tok_end length]. rewrite length_app. cbn [length].
    etransitivity; [|exact E]. f_equal; lia. }
  rm_run (lift_ok _ _ r' E). clearbody tk.
  assert (Ed : decode_chars (loop_fuel inp) t (tok_start tk + 1) [] = Ret (inr k)).
  { refine (decode_escaped k t _ _ [] Hk _). apply looking_fuel in Hl. rewrite !length_app in Hl. cbn [length] in Hl.
    rewrite length_app in Hl. lia. }
  by rm_run (lift_ok _ _ r' Ed).
Qed.

Lemma decodeString_ok r w k t s r' p ns c : looking r (w ++ (34 :: t ++ [34]) ++ s) -> escaped k t ->
  nodes_ r' = p :: ns -> deref (root_ r') p = Some c ->
  decodeString inp (token_at tokenString (length w) (length (34 :: t ++ [34])) r) r' =
    Ret (true, set_root (store (root_ r') p (fun c => assign c (Value_string k))) r').
Proof.
  intros Hl Hk E1 E2. unfold decodeString. rm_run (decodeString_text_ok r w k t s r' Hl Hk).
  by rm_run (assign_current_ok _ _ _ _ (Value_string k) E1 E2).
Qed.

(** ** Values *)

Definition reads (f : nat) (v : Value) (t : list Z) : Prop :=
  forall r w s p ns c, looking r (w ++ t ++ s) -> spaces w -> stops is_number_char s ->
  nodes_ r = p :: ns -> deref (root_ r) p = Some c -> commentsBefore_ r = [] ->
  exists r', readValue inp f r = Ret (true, r')
    /\ moved (length w + length t) (store (root_ r) p (fun c => assign c v)) r r'.

Lemma moved_finish n t r r1 r' : moved n t r r1 -> root_ r1 = t -> moved 0 (root_ r1) r1 r' -> moved n t r r'.
Proof. intros H1 H2 H3. rewrite <- (Nat.add_0_r n). rewrite H2 in H3. by eapply moved_trans. Qed.

Lemma moved_set_root n v r : moved n v r (set_root v (adv n r)).
Proof. by split. Qed.

(** A value of one token, once its token is decoded. *)
Lemma reads_token f ty v t (D : Token -> RM bool) :
  (forall s, stops is_number_char s -> token_text ty t s) ->
  (forall r tk, tok_type tk = ty ->
     match tok_type tk with
     | tokenObjectBegin => ok ← readObject inp (readValue inp f) tk; finish_value inp ok
     | tokenArrayBegin => ok ← readArray inp (readValue inp f) tk; finish_value inp ok
     | tokenNumber => ok ← decodeNumber inp tk; finish_value inp ok
     | tokenString => ok ← decodeString inp tk; finish_value inp ok
     | tokenTrue => _ ← assign_current (Value_bool true); finish_value inp true
     | tokenFalse => _ ← assign_current (Value_bool false); finish_value inp true
     | tokenNull => _ ← assign_current (Value_type nullValue); finish_value inp true
     | _ => addError (codes "Syntax error: value, object or array expected.") tk None
     end r = (ok ← D tk; finish_value inp ok) r) ->
  (forall r w s r' p ns c, looking r (w ++ t ++ s) -> nodes_ r' = p :: ns -> deref (root_ r') p = Some c ->
     D (token_at ty (length w) (length t) r) r' =
       Ret (true, set_root (store (root_ r') p (fun c => assign c v)) r')) ->
  reads (S f) v t.
Proof.
  intros Ht HD Hok r w s p ns c Hl Hw Hs E1 E2 E3. cbn [readValue].
  rm_run (skipCommentTokens_ok ty r w t s Hl Hw (Ht s Hs)).
  rm_run (take_comment_none (adv (length w + length t) r) E3). rewrite HD by done.
  set (r0 := adv (length w + length t) r).
  rm_run (Hok r w s r0 p ns c Hl E1 E2).
  destruct (finish_value_ok true (set_root (store (root_ r0) p (fun c => assign c v)) r0) p ns E1)
    as (r' & E & Hm).
  exists r'. split; [exact E|]. eapply moved_finish; [apply moved_set_root|done|exact Hm].
Qed.

Lemma reads_assign f ty v t :
  (ty = tokenTrue /\ v = Value_bool true \/ ty = tokenFalse /\ v = Value_bool false
   \/ ty = tokenNull /\ v = null) ->
  (forall s, token_text ty t s) -> reads (S f) v t.
Proof.
  intros Hty Ht. apply (reads_token f ty v t (fun _ => _ ← assign_current v; mret true)); [auto|..].
  - intros r tk E. rewrite E. unfold mbind, rm_bind. destruct Hty as [[-> ->]|[[-> ->]|[-> ->]]];
      (change (Value_type nullValue) with null); by destruct (assign_current _ r) as [[]| | | |].
  - intros r w s r' p ns c _ E1 E2. by rm_run (assign_current_ok r' p ns c v E1 E2).
Qed.

Lemma reads_number f d t : number_text t d -> reads (S f) (plain d) t.
Proof.
  intros Ht. apply (reads_token f tokenNumber (plain d) t (decodeNumber inp)).
  - intros s Hs. destruct (number_head _ _ Ht) as (c & u & -> & Hc).
    pose proof (number_chars _ _ Ht) as Hn. apply Forall_cons in Hn as [_ Hn]. by constructor.
  - by intros r tk ->.
  - intros r w s r' p ns c Hl E1 E2. by eapply decodeNumber_ok.
Qed.

Lemma reads_string f k t : escaped k t -> reads (S f) (Value_string k) (34 :: t ++ [34]).
Proof.
  intros Ht. apply (reads_token f tokenString (Value_string k) _ (decodeString inp)).
  - intros s Hs. constructor. by eapply escaped_body.
  - by intros r tk ->.
  - intros r w s r' p ns c Hl E1 E2. by eapply decodeString_ok.
Qed.

(** ** Containers *)

(** A value read into a child of the current container. *)
Lemma child_read f v t r w s p ns c A k x :
  reads f v t -> looking r (w ++ t ++ s) -> spaces w -> stops is_number_char s ->
  nodes_ r = p :: ns -> deref (root_ r) p = Some c -> commentsBefore_ r = [] ->
  child A k = Some x -> comments_ x = comments_ v ->
  exists r', readValue inp f (set_nodes ((p ++ [k]) :: p :: ns) (set_root (store (root_ r) p (fun _ => A)) r))
      = Ret (true, r')
    /\ moved (length w + length t) (store (root_ r) p (fun _ => set_child A k (fun _ => v))) r (set_nodes (p :: ns) r')
    /\ pop_node r' = Ret (tt, set_nodes (p :: ns) r').
Proof.
  intros Hv Hl Hw Hs E1 E2 E3 Ek Ex.
  set (r1 := set_nodes _ _).
  assert (Ed : deref (root_ r1) (p ++ [k]) = Some x).
  { cbn [r1 set_nodes set_root root_]. rewrite deref_app, (deref_store _ _ _ _ E2). cbn. by rewrite Ek. }
  destruct (Hv r1 w s (p ++ [k]) (p :: ns) x Hl Hw Hs eq_refl Ed E3) as (r' & Er & [M1 M2 M3 M4 M5]).
  exists r'. split; [exact Er|]. split.
  - split; cbn [set_nodes current_ root_ nodes_ errors_ commentsBefore_]; try done.
    rewrite M2. cbn [r1 set_nodes set_root root_]. rewrite store_app, (store_store _ _ _ _ _ E2).
    cbn [store]. apply (store_ext _ _ _ _ c); [done|].
    apply set_child_ext; [|by rewrite Ek]. intros y Ey. rewrite Ek in Ey. injection Ey as <-.
    destruct x as [dx cx], v as [dv cv]. cbn in Ex. by rewrite Ex.
  - unfold pop_node. rewrite modify_ok. by rewrite M3.
Qed.

(** The token after an element or a member. *)
Lemma next_token r w e s ty : looking r (w ++ e :: s) -> spaces w -> token_text ty [e] s ->
  exists tk, readToken inp r = Ret (tk, adv (length w + 1) r) /\ tok_type tk = ty.
Proof.
  intros Hl Hw Ht. eexists. split; [by apply (readToken_ok ty r w [e] s)|done].
Qed.

Definition filled (m : stdmap Z Value) (index : Z) (vs : list Value) : stdmap Z Value :=
  m ++ imap (fun i v => (index + Z.of_nat i, v)) vs.

Lemma filled_cons m index v vs : filled m index (v :: vs) = filled (m ++ [(index, v)]) (index + 1) vs.
Proof.
  unfold filled. rewrite <- app_assoc. cbn [imap app]. do 2 f_equal; [f_equal; lia|].
  apply imap_ext. intros i x _. cbn. f_equal. lia.
Qed.

Lemma index_update m index (v : Value) : Forall (fun '(i, _) => i < index) m ->
  map_update index (fun _ => v) m = m ++ [(index, v)].
Proof.
  intros Hf. apply (map_update_end index (fun _ => v)). eapply Forall_impl; [exact Hf|].
  intros [i x]. cbn. lia.
Qed.

Definition below (index : Z) (m : stdmap Z Value) : Prop := Forall (fun '(i, _) => i < index) m.

Lemma array_step_ok f v t r w w' e s p ns m cm index (last : bool) :
  reads f v t -> comments_ v = no_comments ->
  looking r (w ++ t ++ w' ++ e :: s) -> spaces w -> spaces w' -> e = (if last then 93 else 44) ->
  nodes_ r = p :: ns -> deref (root_ r) p = Some (MkValue (d_array m) cm) -> commentsBefore_ r = [] ->
  below index m -> 0 <= index -> index + 1 < 2 ^ 31 ->
  exists r', array_step inp (readValue inp f) index r
      = Ret (if last then inr true else inl (index + 1), r')
    /\ moved (length w + length t + length w' + 1)
         (store (root_ r) p (fun _ => MkValue (d_array (m ++ [(index, v)])) cm)) r r'.
Proof.
  intros Hv Hc Hl Hw Hw' He E1 E2 E3 Hb H0 H1. unfold array_step.
  assert (Hu : u32 index = index) by (apply u32_id; unfold is_u32; lia).
  assert (Hs : s32 index = index) by (apply s32_id; unfold is_int; lia).
  set (A := MkValue (d_array (map_update index (from_option (fun x => x) null) m)) cm).
  assert (Ei : index_ref (MkValue (d_array m) cm) (u32 index) = Ret A).
  { unfold index_ref, A. cbn. by rewrite Hu, Hs. }
  rm_run (update_current_ok r p ns _ A (fun v => index_ref v (u32 index)) E1 E2 Ei). rewrite Hu, Hs.
  rm_run (push_node_ok (set_root (store (root_ r) p (fun _ => A)) r) p ns (Index index) E1).
  erewrite rm_step by (apply lift_ok, int_checked_id; unfold is_int; lia).
  assert (Ek : child A (Index index) = Some null).
  { cbn [child A value_]. rewrite map_find_update. rewrite map_find_end; [done|].
    eapply Forall_impl; [exact Hb|]. intros [i x]. cbn. lia. }
  assert (Hst : stops is_number_char (w' ++ e :: s)).
  { destruct w' as [|c w']; cbn [app stops]; [by rewrite He; destruct last|].
    apply Forall_cons in Hw' as [Hc' _]. unfold is_space in Hc'. unfold is_number_char, char_in. cbn. lia. }
  destruct (child_read f v t r w (w' ++ e :: s) p ns _ A (Index index) null Hv Hl Hw Hst E1 E2 E3 Ek)
    as (r' & Er & Hm & Ep); [by rewrite Hc|].
  rm_run Er. rm_run Ep. cbn [negb]. set (r2 := set_nodes (p :: ns) r') in *.
  assert (Hl2 : looking r2 (w' ++ e :: s)).
  { apply (looking_moved r r2 (w ++ t)); [by rewrite <- app_assoc|].
    rewrite length_app. by destruct Hm as [-> _ _ _ _]. }
  destruct (next_token r2 w' e s (if last then tokenArrayEnd else tokenArraySeparator) Hl2 Hw')
    as (tk & Et & Hty); [rewrite He; destruct last; constructor|].
  rm_run Et.
  erewrite rm_step by (apply skip_comments_ok; rewrite Hty; by destruct last). rewrite Hty. cbv zeta.
  exists (adv (length w' + 1) r2). split; [by destruct last|].
  rewrite <- (Nat.add_assoc _ (length w') 1).
  eapply moved_trans; [exact Hm|]. destruct Hm as [M1 M2 M3 M4 M5].
  split; cbn [adv set_current current_ root_ nodes_ errors_ commentsBefore_]; try done.
  rewrite M2. cbn [set_child A value_ comments_]. rewrite map_update_update.
  by rewrite index_update.
Qed.

Lemma looking_prefix (u w t' x : list Z) : spaces u -> stops is_space x -> u ++ t' = w ++ x ->
  spaces w -> exists w2, w = u ++ w2 /\ t' = w2 ++ x.
Proof.
  intros Hu Hx E Hw. revert w E Hw. induction u as [|c u IH]; intros w E Hw; [by exists w|].
  apply Forall_cons in Hu as [Hc Hu]. destruct w as [|d w].
  - cbn [app] in E. subst x. cbn in Hx. by rewrite Hc in Hx.
  - cbn [app] in E. injection E as -> E. apply Forall_cons in Hw as [_ Hw].
    destruct (IH Hu w E Hw) as (w2 & -> & ->). by exists w2.
Qed.

Definition bare (m : stdmap (list Z) Value) : Prop :=
  Forall (fun '(_, x) => comments_ x = no_comments) m.

Lemma bare_add m k v : bare m -> comments_ v = no_comments -> bare (add_member m (k, v)).
Proof. intros Hm Hv. apply map_update_Forall; [exact Hm|by intros|done]. Qed.

Lemma space_stops w e s : spaces w -> e = 44 \/ e = 93 \/ e = 125 -> stops is_number_char (w ++ e :: s).
Proof.
  intros Hw He. destruct w as [|c w]; cbn [app stops].
  - by destruct He as [-> |[-> | ->]].
  - apply Forall_cons in Hw as [Hc' _]. unfold is_space in Hc'. unfold is_number_char, char_in. cbn. lia.
Qed.

(** A value after the name and the colon, and the token behind it. *)
Lemma member_value_ok f k v t r w w' e s p ns m cm (last : bool) :
  reads f v t -> comments_ v = no_comments -> bare m ->
  looking r (w ++ t ++ w' ++ e :: s) -> spaces w -> spaces w' -> e = (if last then 125 else 44) ->
  nodes_ r = p :: ns -> deref (root_ r) p = Some (MkValue (d_object m) cm) -> commentsBefore_ r = [] ->
  exists r', (_ ← update_current (fun v => resolveReference v k);
              _ ← push_node (Member (upto_nul k));
              ok ← readValue inp f;
              _ ← pop_node;
              if negb ok then ok ← recoverFromError inp tokenObjectEnd; mret (inr ok)
              else
                comma ← readToken inp;
                if negb (bool_decide (tok_type comma = tokenObjectEnd))
                   && negb (bool_decide (tok_type comma = tokenArraySeparator))
                   && negb (bool_decide (tok_type comma = tokenComment)) then
                  ok ← addErrorAndRecover inp (codes "Missing ',' or '}' in object declaration") comma tokenObjectEnd;
                  mret (inr ok)
                else
                  comma ← skip_comments inp comma;
                  if bool_decide (tok_type comma = tokenObjectEnd) then mret (inr true)
                  else mret (inl k) : RM (list Z + bool)) r
      = Ret (if last then inr true else inl k, r')
    /\ moved (length w + length t + length w' + 1)
         (store (root_ r) p (fun _ => MkValue (d_object (add_member m (k, v))) cm)) r r'.
Proof.
  intros Hv Hc Hm0 Hl Hw Hw' He E1 E2 E3.
  set (A := MkValue (d_object (map_update (upto_nul k) (from_option (fun x => x) null) m)) cm).
  assert (Ei : resolveReference (MkValue (d_object m) cm) k = Ret A) by done.
  rm_run (update_current_ok r p ns _ A (fun v => resolveReference v k) E1 E2 Ei).
  rm_run (push_node_ok (set_root (store (root_ r) p (fun _ => A)) r) p ns (Member (upto_nul k)) E1).
  set (x := default null (map_find (upto_nul k) m)).
  assert (Ek : child A (Member (upto_nul k)) = Some x).
  { cbn [child A value_]. by rewrite map_find_update. }
  assert (Ex : comments_ x = comments_ v).
  { rewrite Hc. unfold x. destruct (map_find (upto_nul k) m) as [y|] eqn:Ey; [|done].
    apply map_find_Some_in in Ey. unfold bare in Hm0. rewrite Forall_forall in Hm0. by apply (Hm0 _ Ey). }
  assert (Hst : stops is_number_char (w' ++ e :: s)).
  { apply space_stops; [done|]. rewrite He. destruct last; tauto. }
  destruct (child_read f v t r w (w' ++ e :: s) p ns _ A _ x Hv Hl Hw Hst E1 E2 E3 Ek Ex)
    as (r' & Er & Hm & Ep).
  rm_run Er. rm_run Ep. cbn [negb]. set (r2 := set_nodes (p :: ns) r') in *.
  assert (Hl2 : looking r2 (w' ++ e :: s)).
  { apply (looking_moved r r2 (w ++ t)); [by rewrite <- app_assoc|].
    rewrite length_app. by destruct Hm as [-> _ _ _ _]. }
  destruct (next_token r2 w' e s (if last then tokenObjectEnd else tokenArraySeparator) Hl2 Hw')
    as (tk & Et & Hty); [rewrite He; destruct last; constructor|].
  rm_run Et.
  replace (negb (bool_decide (tok_type tk = tokenObjectEnd))
           && negb (bool_decide (tok_type tk = tokenArraySeparator))
           && negb (bool_decide (tok_type tk = tokenComment))) with false by (rewrite Hty; by destruct last).
  exists (adv (length w' + 1) r2). split.
  - rewrite (rm_step (skip_comments inp tk) _ _ tk (adv (length w' + 1) r2)).
    + rewrite Hty. by destruct last.
    + apply skip_comments_ok. rewrite Hty. by destruct last.
  - rewrite <- (Nat.add_assoc _ (length w') 1).
    eapply moved_trans; [exact Hm|]. destruct Hm as [M1 M2 M3 M4 M5].
    split; cbn [adv set_current current_ root_ nodes_ errors_ commentsBefore_]; try done.
    rewrite M2. cbn [set_child A value_ comments_]. by rewrite map_update_update.
Qed.

Lemma object_step_ok f k v name q t r w0 w1 w w' e s p ns m cm (last : bool) :
  reads f v t -> comments_ v = no_comments -> bare m -> escaped k q ->
  looking r (w0 ++ (34 :: q ++ [34]) ++ w1 ++ 58 :: w ++ t ++ w' ++ e :: s) ->
  spaces w0 -> spaces w1 -> spaces w -> spaces w' -> e = (if last then 125 else 44) ->
  nodes_ r = p :: ns -> deref (root_ r) p = Some (MkValue (d_object m) cm) -> commentsBefore_ r = [] ->
  exists r', object_step inp (readValue inp f) name r = Ret (if last then inr true else inl k, r')
    /\ moved (length w0 + length (34 :: q ++ [34]) + (length w1 + 1) + (length w + length t + length w' + 1))
         (store (root_ r) p (fun _ => MkValue (d_object (add_member m (k, v))) cm)) r r'.
Proof.
  intros Hv Hc Hm0 Hq Hl Hw0 Hw1 Hw Hw' He E1 E2 E3. unfold object_step.
  set (qq := 34 :: q ++ [34]) in *.
  assert (Htt : token_text tokenString qq (w1 ++ 58 :: w ++ t ++ w' ++ e :: s)).
  { constructor. by eapply escaped_body. }
  rm_run (readToken_ok _ _ _ _ _ Hl Hw0 Htt). set (r1 := adv (length w0 + length qq) r).
  rewrite (rm_step (skip_comments inp _) _ _ _ _ 
    (skip_comments_ok (token_at tokenString (length w0) (length qq) r) r1 ltac:(done))).
  cbn [token_at tok_type]. change (bool_decide (tokenString = tokenObjectEnd)) with false. cbn [andb].
  change (bool_decide (tokenString = tokenString)) with true. cbn [negb].
  rewrite (rm_step (decodeString_text inp _) _ _ _ _ (decodeString_text_ok r w0 k q _ r1 Hl Hq)). cbv iota.
  assert (Hl1 : looking r1 (w1 ++ 58 :: w ++ t ++ w' ++ e :: s)).
  { apply (looking_moved r r1 (w0 ++ qq)); [by rewrite <- app_assoc|]. unfold r1, adv. cbn [set_current current_].
    by rewrite length_app. }
  destruct (next_token r1 w1 58 _ tokenMemberSeparator Hl1 Hw1 ltac:(constructor)) as (tk & Et & Hty).
  rm_run Et. rewrite Hty. change (bool_decide (tokenMemberSeparator = tokenMemberSeparator)) with true. cbn [negb].
  set (r2 := adv (length w1 + 1) r1).
  assert (Hl2 : looking r2 (w ++ t ++ w' ++ e :: s)).
  { apply (looking_moved r1 r2 (w1 ++ [58])); [by rewrite <- app_assoc|]. unfold r2, adv. cbn [set_current current_].
    by rewrite length_app. }
  destruct (member_value_ok f k v t r2 w w' e s p ns m cm last Hv Hc Hm0 Hl2 Hw Hw' He E1 E2 E3) as (r' & Er & Hm).
  exists r'. split; [exact Er|]. eapply moved_trans; [|exact Hm].
  unfold r2, r1. rewrite adv_adv. apply moved_adv.
Qed.

(** ** Texts of the grammar *)

Lemma json_text_bare v t : json_text v t -> comments_ v = no_comments.
Proof. by intros []. Qed.

Lemma json_text_head v t : json_text v t -> exists c u, t = c :: u /\ is_space c = false /\ c <> 93.
Proof.
  intros [| | |d t' Ht|k t' Ht|w Hw|vs t' Ht|w Hw|kvs t' Ht]; try (by eexists _, _).
  destruct (number_head _ _ Ht) as (c & u & -> & Hc). eexists _, _. split; [done|].
  unfold is_space, isdigit in *. lia.
Qed.

Lemma stops_head v t s : json_text v t -> stops is_space (t ++ s).
Proof. intros H. by destruct (json_text_head _ _ H) as (c & u & -> & Hc & _). Qed.

Hypothesis input_small : Z.of_nat (length (text inp)) < 2 ^ 31.

Definition reads_value (v : Value) (t : list Z) : Prop :=
  forall f, (length t < f)%nat -> reads f v t.

(** The loop of [readArray]; the reader may be past leading spaces [u]. *)
Definition reads_elements (vs : list Value) (t : list Z) : Prop :=
  forall f fuel u t' r s p ns m cm index, t = u ++ t' -> spaces u ->
  (length t < f)%nat -> (length t < fuel)%nat -> looking r (t' ++ 93 :: s) ->
  nodes_ r = p :: ns -> deref (root_ r) p = Some (MkValue (d_array m) cm) -> commentsBefore_ r = [] ->
  below index m -> 0 <= index -> index + Z.of_nat (length t) + 1 < 2 ^ 31 ->
  exists r', rloop fuel (array_step inp (readValue inp f)) index r = Ret (true, r')
    /\ moved (length t' + 1) (store (root_ r) p (fun _ => MkValue (d_array (filled m index vs)) cm)) r r'.

Definition reads_members (kvs : list (list Z * Value)) (t : list Z) : Prop :=
  forall f fuel name r s p ns m cm, bare m ->
  (length t < f)%nat -> (length t < fuel)%nat -> looking r (t ++ 125 :: s) ->
  nodes_ r = p :: ns -> deref (root_ r) p = Some (MkValue (d_object m) cm) -> commentsBefore_ r = [] ->
  exists r', rloop fuel (object_step inp (readValue inp f)) name r = Ret (true, r')
    /\ moved (length t + 1) (store (root_ r) p (fun _ => MkValue (d_object (foldl add_member m kvs)) cm)) r r'.

Lemma elements_one_ok v w t w' : spaces w -> json_text v t -> reads_value v t -> spaces w' ->
  reads_elements [v] (w ++ t ++ w').
Proof.
  intros Hw Ht Hv Hw' f fuel u t' r s p ns m cm index Eu Hu Hf Hfu Hl E1 E2 E3 Hb H0 H1.
  destruct (looking_prefix u w t' (t ++ w') Hu) as (w2 & -> & ->);
    [by eapply stops_head|done|done|]. rewrite !length_app in Hf, Hfu, H1.
  apply Forall_app in Hw as [_ Hw2]. destruct fuel as [|fuel]; [lia|].
  rewrite <- !app_assoc in Hl.
  destruct (array_step_ok f v t r w2 w' 93 s p ns m cm index true) as (r' & Er & Hm);
    try done; [apply Hv; lia|by eapply json_text_bare|lia|].
  exists r'. split; [by apply rloop_done|]. rewrite !length_app.
  replace (length w2 + (length t + length w') + 1)%nat with (length w2 + length t + length w' + 1)%nat by lia.
  rewrite filled_cons. unfold filled. cbn [imap]. by rewrite app_nil_r.
Qed.

Lemma elements_more_ok v w t w' vs ts : spaces w -> json_text v t -> reads_value v t -> spaces w' ->
  reads_elements vs ts -> reads_elements (v :: vs) (w ++ t ++ w' ++ 44 :: ts).
Proof.
  intros Hw Ht Hv Hw' Hvs f fuel u t' r s p ns m cm index Eu Hu Hf Hfu Hl E1 E2 E3 Hb H0 H1.
  destruct (looking_prefix u w t' (t ++ w' ++ 44 :: ts) Hu) as (w2 & -> & ->);
    [by eapply stops_head|done|done|]. rewrite !length_app in Hf, Hfu, H1. cbn [length] in Hf, Hfu, H1.
  apply Forall_app in Hw as [_ Hw2]. destruct fuel as [|fuel]; [lia|].
  rewrite <- !app_assoc in Hl. cbn [app] in Hl.
  destruct (array_step_ok f v t r w2 w' 44 (ts ++ 93 :: s) p ns m cm index false) as (r1 & Er & Hm);
    try done; [apply Hv; lia|by eapply json_text_bare|lia|].
  assert (Hl1 : looking r1 (ts ++ 93 :: s)).
  { apply (looking_moved r r1 (w2 ++ t ++ w' ++ [44])); [by rewrite <- !app_assoc|].
    rewrite (moved_current _ _ _ _ Hm), !length_app. cbn [length]. lia. }
  destruct (Hvs f fuel [] ts r1 s p ns (m ++ [(index, v)]) cm (index + 1)) as (r' & Er' & Hm');
    try done; try lia.
  - constructor.
  - by rewrite (moved_nodes _ _ _ _ Hm).
  - rewrite (moved_root _ _ _ _ Hm). by erewrite deref_store.
  - by rewrite (moved_before _ _ _ _ Hm).
  - apply Forall_app. split; [|repeat constructor; lia].
    eapply Forall_impl; [exact Hb|]. intros [i x]. lia.
  - exists r'. split; [by rewrite (rloop_more _ _ _ _ _ _ Er)|].
    rewrite !length_app. cbn [length].
    replace (length w2 + (length t + (length w' + S (length ts))) + 1)%nat
      with (length w2 + length t + length w' + 1 + (length ts + 1))%nat by lia.
    eapply moved_trans; [exact Hm|]. rewrite (moved_root _ _ _ _ Hm) in Hm'.
    rewrite (store_store _ _ _ _ _ E2) in Hm'. by rewrite filled_cons.
Qed.

Lemma members_one_ok k v w q w1 w2 t w3 : spaces w -> escaped k q -> spaces w1 -> spaces w2 ->
  json_text v t -> reads_value v t -> spaces w3 ->
  reads_members [(k, v)] (w ++ (34 :: q ++ [34]) ++ w1 ++ 58 :: w2 ++ t ++ w3).
Proof.
  intros Hw Hq Hw1 Hw2 Ht Hv Hw3 f fuel name r s p ns m cm Hm0 Hf Hfu Hl E1 E2 E3.
  set (qq := 34 :: q ++ [34]) in *.
  rewrite !length_app in Hf, Hfu. cbn [length] in Hf, Hfu. rewrite !length_app in Hf, Hfu.
  destruct fuel as [|fuel]; [lia|].
  rewrite <- !app_assoc in Hl. cbn [app] in Hl. rewrite <- !app_assoc in Hl.
  destruct (object_step_ok f k v name q t r w w1 w2 w3 125 s p ns m cm true) as (r' & Er & Hm);
    try done; [apply Hv; lia|by eapply json_text_bare|].
  exists r'. split; [by apply rloop_done|]. cbn [foldl].
  match type of Hm with moved ?a _ _ _ => match goal with |- moved ?b _ _ _ => replace b with a; [exact Hm|] end end.
  unfold qq. rewrite !length_app. cbn [length]. rewrite !length_app. cbn [length]. lia.
Qed.

Lemma members_more_ok k v w q w1 w2 t w3 kvs ts : spaces w -> escaped k q -> spaces w1 -> spaces w2 ->
  json_text v t -> reads_value v t -> spaces w3 -> reads_members kvs ts ->
  reads_members ((k, v) :: kvs) (w ++ (34 :: q ++ [34]) ++ w1 ++ 58 :: w2 ++ t ++ w3 ++ 44 :: ts).
Proof.
  intros Hw Hq Hw1 Hw2 Ht Hv Hw3 Hkvs f fuel name r s p ns m cm Hm0 Hf Hfu Hl E1 E2 E3.
  set (qq := 34 :: q ++ [34]) in *.
  rewrite !length_app in Hf, Hfu. cbn [length] in Hf, Hfu. rewrite !length_app in Hf, Hfu. cbn [length] in Hf, Hfu.
  destruct fuel as [|fuel]; [lia|].
  rewrite <- !app_assoc in Hl. cbn [app] in Hl. rewrite <- !app_assoc in Hl. cbn [app] in Hl.
  destruct (object_step_ok f k v name q t r w w1 w2 w3 44 (ts ++ 125 :: s) p ns m cm false) as (r1 & Er & Hm);
    try done; [apply Hv; lia|by eapply json_text_bare|].
  assert (Hl1 : looking r1 (ts ++ 125 :: s)).
  { apply (looking_moved r r1 (w ++ qq ++ w1 ++ [58] ++ w2 ++ t ++ w3 ++ [44])).
    - by rewrite <- !app_assoc.
    - rewrite (moved_current _ _ _ _ Hm). unfold qq. rewrite !length_app. cbn [length].
      rewrite !length_app. cbn [length]. lia. }
  destruct (Hkvs f fuel k r1 s p ns (add_member m (k, v)) cm) as (r' & Er' & Hm'); try done; try lia.
  - apply bare_add; [done|]. by eapply json_text_bare.
  - by rewrite (moved_nodes _ _ _ _ Hm).
  - rewrite (moved_root _ _ _ _ Hm). by erewrite deref_store.
  - by rewrite (moved_before _ _ _ _ Hm).
  - exists r'. split; [by rewrite (rloop_more _ _ _ _ _ _ Er)|].
    assert (Ht' := moved_trans _ _ _ _ _ _ _ Hm Hm'). rewrite (moved_root _ _ _ _ Hm) in Ht'.
    rewrite (store_store _ _ _ _ _ E2) in Ht'. cbn [foldl].
    match type of Ht' with moved ?a _ _ _ => match goal with |- moved ?b _ _ _ => replace b with a; [exact Ht'|] end end.
    unfold qq. rewrite !length_app. cbn [length]. rewrite !length_app. cbn [length].
    lia.
Qed.

Lemma lead_spaces vs t : elements_text vs t ->
  exists u t', t = u ++ t' /\ spaces u /\ exists c x, t' = c :: x /\ is_space c = false /\ c <> 93.
Proof.
  intros [v w t1 w' Hw Ht Hw'|v w t1 w' vs' ts Hw Ht Hw' Hvs];
    destruct (json_text_head _ _ Ht) as (c & x & -> & Hc & H93);
    eexists w, _; (split; [done|]); split; try done; eexists _, _; done.
Qed.

Lemma filled_nil vs : filled [] 0 vs = imap (fun i v => (Z.of_nat i, v)) vs.
Proof. done. Qed.

(** The current value, assigned a container and then filled. *)
Lemma store_filled root p c v d : deref root p = Some c ->
  store (store root p (fun c => assign c v)) p (fun _ => MkValue d (comments_ c))
    = store root p (fun c => assign c (plain d)).
Proof. intros E. rewrite (store_store _ _ _ _ _ E). by apply (store_ext _ _ _ _ c). Qed.

Lemma reads_array f vs t : elements_text vs t -> reads_elements vs t -> (length t < f)%nat ->
  reads (S f) (plain (array_of vs)) (91 :: t ++ [93]).
Proof.
  intros Ht Hvs Hf r w s p ns c Hl Hw Hs E1 E2 E3.
  replace (w ++ (91 :: t ++ [93]) ++ s) with (w ++ [91] ++ t ++ 93 :: s) in Hl
    by (cbn [app]; by rewrite <- app_assoc).
  cbn [readValue]. rm_run (skipCommentTokens_ok tokenArrayBegin r w [91] _ Hl Hw ltac:(constructor)).
  set (r1 := adv (length w + length [91]) r).
  assert (Hl1 : looking r1 (t ++ 93 :: s)).
  { apply (looking_moved r r1 (w ++ [91])); [by rewrite <- app_assoc|]. by rewrite length_app. }
  rm_run (take_comment_none r1 E3). cbn [token_at tok_type].
  destruct (lead_spaces _ _ Ht) as (u & t' & -> & Hu & c1 & x & Ex & Hc1 & H93).
  assert (Er : forall tk, exists r4, readArray inp (readValue inp f) tk r1 = Ret (true, r4)
    /\ moved (length (u ++ t') + 1) (store (root_ r) p (fun c => assign c (plain (array_of vs)))) r1 r4).
  { intros tk. unfold readArray. rm_run (assign_current_ok r1 p ns c (Value_type arrayValue) E1 E2).
    set (r2 := set_root _ r1).
    assert (Hl2 : looking r2 (u ++ t' ++ 93 :: s)) by (rewrite app_assoc; exact Hl1).
    rm_run (skipSpaces_ok r2 u (t' ++ 93 :: s) Hl2 Hu ltac:(by rewrite Ex)).
    pose proof (looking_adv _ _ _ Hl2) as Hl3. set (r3 := adv (length u) r2) in *. rm_gets.
    assert (Hl3' := Hl3). rewrite Ex in Hl3'. cbn [app] in Hl3'.
    destruct (looking_cons _ _ _ Hl3') as [_ Eg].
    rm_run (lift_ok _ _ r3 Eg). replace (c1 =? 93) with false by lia.
    pose proof (looking_fuel _ _ Hl1) as Hfu. rewrite length_app in Hfu. cbn [length] in Hfu.
    pose proof (looking_length _ _ Hl1) as Hlen. rewrite length_app in Hlen. cbn [length] in Hlen.
    assert (Hpos : 0 <= current_ r1) by (destruct Hl1; lia).
    destruct (Hvs f (loop_fuel inp) u t' r3 s p ns [] (comments_ c) 0) as (r4 & E4 & Hm);
      try done; try lia; [exact (deref_store (root_ r) p (fun c => assign c (Value_type arrayValue)) c E2)|constructor|].
    exists r4. split; [exact E4|].
    cbn [r3 r2 adv set_current set_root root_] in Hm. rewrite (store_filled _ _ c) in Hm by done.
    rewrite length_app, <- Nat.add_assoc. eapply moved_trans; [|exact Hm]. by split. }
  match goal with |- context [readArray inp (readValue inp f) ?tk] => destruct (Er tk) as (r4 & E4 & Hm) end.
  rm_run E4.
  destruct (finish_value_ok true r4 p ns) as (r5 & E5 & Hm5); [by rewrite (moved_nodes _ _ _ _ Hm)|].
  exists r5. split; [exact E5|]. eapply moved_finish; [|by rewrite <- (moved_root _ _ _ _ Hm)|exact Hm5].
  cbn [length]. rewrite length_app. cbn [length].
  replace (length w + S (length (u ++ t') + 1))%nat with (length w + 1 + (length (u ++ t') + 1))%nat by lia.
  eapply moved_trans; [|exact Hm]. apply moved_adv.
Qed.

Lemma reads_empty_array f w0 : spaces w0 -> reads (S f) (plain (array_of [])) (91 :: w0 ++ [93]).
Proof.
  intros Hw0 r w s p ns c Hl Hw Hs E1 E2 E3.
  replace (w ++ (91 :: w0 ++ [93]) ++ s) with (w ++ [91] ++ w0 ++ 93 :: s) in Hl
    by (cbn [app]; by rewrite <- app_assoc).
  cbn [readValue]. rm_run (skipCommentTokens_ok tokenArrayBegin r w [91] _ Hl Hw ltac:(constructor)).
  set (r1 := adv (length w + length [91]) r).
  assert (Hl1 : looking r1 (w0 ++ 93 :: s)).
  { apply (looking_moved r r1 (w ++ [91])); [by rewrite <- app_assoc|]. by rewrite length_app. }
  rm_run (take_comment_none r1 E3). cbn [token_at tok_type]. unfold readArray.
  rewrite (rm_step (_ ← assign_current _; _) _ r1 true
    (set_root (store (root_ r1) p (fun c => assign c (Value_type arrayValue))) (adv (length w0 + 1) r1))).
  2: { rm_run (assign_current_ok r1 p ns c (Value_type arrayValue) E1 E2). set (r2 := set_root _ r1).
       rm_run (skipSpaces_ok r2 w0 (93 :: s) Hl1 Hw0 ltac:(done)).
       pose proof (looking_adv r2 _ _ Hl1) as Hl3. set (r3 := adv (length w0) r2) in *. rm_gets.
       destruct (looking_cons _ _ _ Hl3) as [_ Eg]. rm_run (lift_ok _ _ r3 Eg).
       change (93 =? 93) with true. cbv iota.
       rm_run (readToken_ok tokenArrayEnd r3 [] [93] s Hl3 ltac:(constructor) ltac:(constructor)).
       unfold r3. by rewrite adv_adv. }
  set (r4 := set_root _ _).
  destruct (finish_value_ok true r4 p ns E1) as (r5 & E5 & Hm5).
  exists r5. split; [exact E5|]. apply (moved_finish _ _ r r4 r5); [|reflexivity|exact Hm5].
  split; try done. cbn [r4 r1 adv set_root set_current current_ length]. rewrite length_app. cbn [length]. lia.
Qed.

Lemma reads_object f kvs t t0 :
  (forall r s p ns cm, (length t < f)%nat -> (length t < loop_fuel inp)%nat -> looking r (t ++ 125 :: s) ->
     nodes_ r = p :: ns -> deref (root_ r) p = Some (MkValue (d_object []) cm) -> commentsBefore_ r = [] ->
     exists r', rloop (loop_fuel inp) (object_step inp (readValue inp f)) [] r = Ret (true, r')
       /\ moved (length t + 1) (store (root_ r) p (fun _ => MkValue (object_of kvs) cm)) r r') ->
  t0 = 123 :: t ++ [125] -> (length t < f)%nat ->
  reads (S f) (plain (object_of kvs)) t0.
Proof.
  intros Hkvs -> Hf r w s p ns c Hl Hw Hs E1 E2 E3.
  replace (w ++ (123 :: t ++ [125]) ++ s) with (w ++ [123] ++ t ++ 125 :: s) in Hl
    by (cbn [app]; by rewrite <- app_assoc).
  cbn [readValue]. rm_run (skipCommentTokens_ok tokenObjectBegin r w [123] _ Hl Hw ltac:(constructor)).
  set (r1 := adv (length w + length [123]) r).
  assert (Hl1 : looking r1 (t ++ 125 :: s)).
  { apply (looking_moved r r1 (w ++ [123])); [by rewrite <- app_assoc|]. by rewrite length_app. }
  rm_run (take_comment_none r1 E3). cbn [token_at tok_type].
  assert (Er : forall tk, exists r4, readObject inp (readValue inp f) tk r1 = Ret (true, r4)
    /\ moved (length t + 1) (store (root_ r) p (fun c => assign c (plain (object_of kvs)))) r1 r4).
  { intros tk. unfold readObject. rm_run (assign_current_ok r1 p ns c (Value_type objectValue) E1 E2).
    set (r2 := set_root _ r1). pose proof (looking_fuel _ _ Hl1) as Hfu. rewrite length_app in Hfu.
    destruct (Hkvs r2 s p ns (comments_ c)) as (r4 & E4 & Hm); try done; try lia;
      [exact (deref_store (root_ r) p (fun c => assign c (Value_type objectValue)) c E2)|].
    exists r4. split; [exact E4|]. cbn [r2 set_root root_] in Hm.
    rewrite (store_filled _ _ c) in Hm by done.
    destruct Hm as [M1 M2 M3 M4 M5]. by split. }
  match goal with |- context [readObject inp (readValue inp f) ?tk] => destruct (Er tk) as (r4 & E4 & Hm) end.
  rm_run E4.
  destruct (finish_value_ok true r4 p ns) as (r5 & E5 & Hm5); [by rewrite (moved_nodes _ _ _ _ Hm)|].
  exists r5. split; [exact E5|]. eapply moved_finish; [|by rewrite <- (moved_root _ _ _ _ Hm)|exact Hm5].
  cbn [length]. rewrite length_app. cbn [length].
  replace (length w + S (length t + 1))%nat with (length w + 1 + (length t + 1))%nat by lia.
  eapply moved_trans; [|exact Hm]. apply moved_adv.
Qed.

Lemma empty_object_loop f w : spaces w -> forall r s p ns cm,
  looking r (w ++ 125 :: s) -> nodes_ r = p :: ns -> deref (root_ r) p = Some (MkValue (d_object []) cm) ->
  exists r', rloop (loop_fuel inp) (object_step inp (readValue inp f)) [] r = Ret (true, r')
    /\ moved (length w + 1) (store (root_ r) p (fun _ => MkValue (object_of []) cm)) r r'.
Proof.
  intros Hw r s p ns cm Hl E1 E2. exists (adv (length w + 1) r).
  assert (Et : object_step inp (readValue inp f) [] r = Ret (inr true, adv (length w + 1) r)).
  { unfold object_step.
    rm_run (readToken_ok tokenObjectEnd r w [125] s Hl Hw ltac:(constructor)).
    by rewrite (rm_step (skip_comments inp _) _ _ _ _
      (skip_comments_ok (token_at tokenObjectEnd (length w) (length [125]) r) (adv (length w + length [125]) r) ltac:(done))). }
  split; [by apply rloop_done|]. split; try done. cbn [adv set_current root_].
  symmetry. exact (store_same _ _ _ E2).
Qed.

(** Every text of the grammar is read as its value. *)
Lemma json_text_read : (forall v t, json_text v t -> reads_value v t)
  /\ (forall vs t, elements_text vs t -> reads_elements vs t)
  /\ (forall kvs t, members_text kvs t -> reads_members kvs t).
Proof.
  apply json_text_mutind with (P := fun v t _ => reads_value v t)
    (P0 := fun vs t _ => reads_elements vs t) (P1 := fun kvs t _ => reads_members kvs t);
    try (intros; first [apply elements_one_ok | apply elements_more_ok | apply members_one_ok | apply members_more_ok]; done).
  - intros [|f] Hf; [lia|]. apply (reads_assign f tokenNull); [tauto|constructor].
  - intros [|f] Hf; [lia|]. apply (reads_assign f tokenTrue); [tauto|constructor].
  - intros [|f] Hf; [lia|]. apply (reads_assign f tokenFalse); [tauto|constructor].
  - intros d t Ht [|f] Hf; [lia|]. by apply reads_number.
  - intros k t Ht [|f] Hf; [lia|]. by apply reads_string.
  - intros w Hw [|f] Hf; [lia|]. by apply reads_empty_array.
  - intros vs t Ht IH [|f] Hf; [lia|]. cbn [length] in Hf. rewrite length_app in Hf.
    apply reads_array; [done|done|lia].
  - intros w Hw [|f] Hf; [lia|]. cbn [length] in Hf. rewrite length_app in Hf.
    apply (reads_object f [] w); [|done|lia]. intros r s p ns cm _ _ Hl E1 E2 _. by eapply empty_object_loop.
  - intros kvs t Ht IH [|f] Hf; [lia|]. cbn [length] in Hf. rewrite length_app in Hf.
    apply (reads_object f kvs t); [|done|lia]. intros r s p ns cm H1 H2 Hl E1 E2 E3.
    eapply IH; try done. constructor.
Qed.
End read.

(** ** Documents *)

(** What strict mode asks of the root; [isArray] and [isObject] hold of null. *)
Definition root_allowed (features : Features) (v : Value) : bool :=
  negb (strictRoot_ features) || isArray v || isObject v.

Definition root_error (n : Z) : ErrorInfo :=
  {| err_token := {| tok_type := tokenError; tok_start := 0; tok_end := n |};
     err_message := codes "A valid JSON document must be either an array or an object value.";
     err_extra := None |}.

Lemma parse_range_ok features v w t w' tail root collect :
  json_text v t -> spaces w -> spaces w' -> tail <> [] -> Z.of_nat (length (w ++ t ++ w') + length tail) < 2 ^ 31 ->
  exists r, parse_range features ((w ++ t ++ w') ++ tail) (Z.of_nat (length (w ++ t ++ w'))) root collect =
      Ret (root_allowed features v, r)
    /\ root_ r = assign root v
    /\ errors_ r = (if root_allowed features v then [] else [root_error (Z.of_nat (length (w ++ t ++ w')))]).
Proof.
  intros Ht Hw Hw' Htail Hn. unfold parse_range.
  set (doc := w ++ t ++ w') in *. set (inp := {| text := doc ++ tail |}).
  set (r0 := {| nodes_ := [[]] |}).
  assert (Hl0 : (0 < length tail)%nat) by (destruct tail; [done|cbn; lia]).
  assert (Hlen : length (text inp) = (length doc + length tail)%nat) by (cbn; by rewrite length_app).
  assert (He : 0 <= end_ inp < Z.of_nat (length (text inp))) by (rewrite Hlen; cbn; lia).
  assert (Hs : Z.of_nat (length (text inp)) < 2 ^ 31) by (rewrite Hlen; lia).
  assert (Hl : looking inp r0 (w ++ t ++ w')).
  { split; [cbn; lia|]. unfold ahead. cbn [inp text end_ r0 current_]. rewrite Nat2Z.id.
    change (Z.to_nat 0) with 0%nat. by rewrite drop_0, take_app_length. }
  destruct (json_text_read inp He Hs) as (H1 & _ & _).
  destruct (H1 v t Ht (loop_fuel inp)) with (r := r0) (w := w) (s := w') (p := []:pointer) (ns := []:list pointer) (c := root)
    as (r1 & E1 & Hm); try done.
  { unfold loop_fuel. rewrite Hlen. unfold doc. rewrite !length_app. lia. }
  { destruct w' as [|c w']; [done|]. apply Forall_cons in Hw' as [Hc _].
    unfold is_space in Hc. unfold stops, is_number_char, char_in. cbn. lia. }
  unfold parse_document. rm_run E1.
  assert (Hl1 : looking inp r1 w').
  { apply (looking_moved inp He r0 r1 (w ++ t)); [by rewrite <- app_assoc|]. rewrite (moved_current _ _ _ _ Hm).
    by rewrite length_app. }
  rm_run (skipCommentTokens_end inp He r1 w' Hl1 Hw'). set (r2 := adv (length w') r1).
  assert (Eb : commentsBefore_ r2 = []) by exact (moved_before _ _ _ _ Hm).
  assert (Er : root_ r2 = assign root v) by exact (moved_root _ _ _ _ Hm).
  assert (Ee : errors_ r2 = []) by exact (moved_errors _ _ _ _ Hm).
  rm_gets. rewrite Eb. change (negb (bool_decide ([] = @nil Z))) with false. rewrite andb_false_r.
  rewrite (rm_step (mret tt) _ r2 tt r2 eq_refl). rm_gets. rewrite Er.
  assert (Ea : isArray (assign root v) = isArray v) by done.
  assert (Eo : isObject (assign root v) = isObject v) by done. rewrite Ea, Eo.
  assert (Eq : strictRoot_ (features_ inp) && negb (isArray v) && negb (isObject v) = negb (root_allowed features v)).
  { unfold root_allowed. cbn [inp features_]. by destruct (strictRoot_ features), (isArray v), (isObject v). }
  rewrite Eq. destruct (root_allowed features v); cbn [negb].
  - exists r2. done.
  - unfold addError. rm_modify. eexists. split; [done|]. cbn [set_errors root_ errors_]. by rewrite Ee.
Qed.

Lemma parse_ok features v w t w' root collect :
  json_text v t -> spaces w -> spaces w' -> Z.of_nat (length (w ++ t ++ w')) < 2 ^ 31 - 1 ->
  exists r, parse features (w ++ t ++ w') root collect = Ret (root_allowed features v, r)
    /\ root_ r = assign root v
    /\ errors_ r = (if root_allowed features v then [] else [root_error (Z.of_nat (length (w ++ t ++ w')))]).
Proof.
  intros Ht Hw Hw' Hn. unfold parse.
  apply (parse_range_ok features v w t w' [0] root collect Ht Hw Hw'); [discriminate|].
  change (length [0]) with 1%nat. lia.
Qed.

(** C16: the reader implements the grammar.  Any text that spells a value, with
    white space around it, is parsed in full into the value the grammar gives
    it (assigned to the root, which keeps its own comments); parsing fails, with
    one error, only in strict mode and only for a scalar other than null.  That
    strict mode takes the document null, although its description and its error
    message ask for an array or an object, comes from [isArray] and [isObject],
    which hold of null. *)
Theorem documents_read features v w t w' root collect :
  json_text v t -> spaces w -> spaces w' -> Z.of_nat (length (w ++ t ++ w')) < 2 ^ 31 - 1 ->
  exists r, parse features (w ++ t ++ w') root collect = Ret (root_allowed features v, r)
    /\ root_ r = assign root v
    /\ errors_ r = (if root_allowed features v then [] else [root_error (Z.of_nat (length (w ++ t ++ w')))]).
Proof. apply parse_ok. Qed.

(** An array of a string with two escapes and an object that repeats a name. *)
Definition sample_members : list Z := [34; 97; 34; 58; 45; 55; 44; 34; 97; 34; 32; 58; 116; 114; 117; 101].
Definition sample_elements : list Z :=
  [34; 92; 110; 92; 117; 48; 48; 69; 57; 34; 44; 32; 123] ++ sample_members ++ [125].
Definition sample_text : list Z := 91 :: sample_elements ++ [93].
Definition sample_value : Value :=
  plain (d_array [(0, Value_string [10; 195; 169]); (1, plain (d_object [([97], Value_bool true)]))]).

Lemma sample_spelled : json_text sample_value sample_text.
Proof.
  assert (Ek : escaped [97] [97]) by (apply escaped_plain; [done|done|constructor]).
  assert (Hn : spaces []) by constructor.
  assert (Hs : spaces [32]) by (by repeat constructor).
  refine (text_array [Value_string [10; 195; 169];
    plain (object_of [([97], plain (integer true 7)); ([97], Value_bool true)])] sample_elements _).
  refine (elements_more _ [] [34; 92; 110; 92; 117; 48; 48; 69; 57; 34] [] _ _ Hn _ Hn _).
  - refine (text_string _ [92; 110; 92; 117; 48; 48; 69; 57] _).
    apply (escaped_letter 110 10); [done|].
    refine (escaped_unicode [48; 48; 69; 57] 233 [] [] _ _ escaped_nil); [|lia].
    by apply (hex_four 48 48 69 57 0 0 14 9).
  - refine (elements_one _ [32] (123 :: sample_members ++ [125]) [] Hs _ Hn).
    refine (text_object _ sample_members _).
    refine (members_more [97] _ [] [97] [] [] [45; 55] [] _ _ Hn Ek Hn Hn _ Hn _).
    + apply text_number. refine (number_int true [55] _ _ _); [by repeat constructor|done|done].
    + exact (members_one [97] _ [] [97] [32] [] _ [] Hn Ek Hs Hn text_true Hn).
Qed.

Lemma documents_read_witness :
  exists r, parse strictMode ([10] ++ sample_text ++ [32]) null false = Ret (true, r) /\ root_ r = sample_value.
Proof.
  destruct (documents_read strictMode sample_value [10] sample_text [32] null false) as (r & E & Er & _).
  - exact sample_spelled.
  - by repeat constructor.
  - by repeat constructor.
  - eval_decide.
  - exists r. split; [exact E|exact Er].
Defined.
