(* ===== verification/JsonFormat.v ===== *)
(** * The texts of numbers and strings

    What [valueToString] and [valueToQuotedString] write: the shortest numeral
    of an integer, a number of the grammar for every finite double, within the
    local buffers, and a spelling of every string. *)
From Stdlib Require Import SpecFloat.
From S2P Require Import Prelude Words Buffers CString StdMap Decimal Double JsonValue JsonWriter JsonReader JsonGrammar.

(** ** Integers *)

(** The local buffer with [out] at its end. *)
Definition filled_end (n : nat) (out : list Z) : list Z * Z := (replicate n 0 ++ out, Z.of_nat n).

Lemma push_char_ok c n out : push_char c (filled_end (S n) out) = Ret (filled_end n (c :: out)).
Proof.
  unfold push_char, filled_end. cbv beta iota.
  rewrite buf_write_ok by (rewrite ?length_app, ?length_replicate; cbn [length]; lia).
  rewrite bind_ret_l. do 2 f_equal; [|lia].
  replace (Z.to_nat (Z.of_nat (S n) - 1)) with n by lia. unfold splice.
  rewrite replicate_S_end, <- app_assoc. cbn [app].
  rewrite take_app_le, take_ge by (rewrite length_replicate; lia). f_equal.
  rewrite drop_app_ge by (rewrite length_replicate; cbn [length]; lia). rewrite length_replicate. cbn [length].
  by replace (n + 1 - n)%nat with 1%nat by lia.
Qed.

Lemma push_digits_S f value b : push_digits (S f) value b =
  b ← push_char (value mod 10 + 48) b; if value / 10 =? 0 then Ret b else push_digits f (value / 10) b.
Proof. done. Qed.

Lemma push_digits_ok f n value out :
  0 <= value < 10 ^ (Z.of_nat f + 1) -> (f < n)%nat ->
  push_digits (S f) value (filled_end n out) =
    Ret (filled_end (n - length (dec_digits f value [])) (dec_digits f value [] ++ out)).
Proof.
  revert n value out. induction f as [|f IH]; intros n value out Hv Hn;
    (destruct n as [|n]; [lia|]); rewrite push_digits_S, push_char_ok, bind_ret_l; cbn [dec_digits].
  - rewrite Z.div_small by (cbn in Hv; lia). cbn [Z.eqb length app]. by replace (S n - 1)%nat with n by lia.
  - destruct (value / 10 =? 0); [cbn [length app]; by replace (S n - 1)%nat with n by lia|].
    rewrite IH; [| |lia].
    + rewrite (dec_digits_app f (value / 10) [_]), length_app, <- app_assoc. cbn [length app].
      by replace (S n - (length (dec_digits f (value / 10) []) + 1))%nat
        with (n - length (dec_digits f (value / 10) []))%nat by lia.
    + rewrite Nat2Z.inj_succ, <- Z.add_1_r in Hv. rewrite (Z.pow_add_r 10 (_ + 1) 1) in Hv by lia.
      split; [apply Z.div_pos; lia|]. apply Z.div_lt_upper_bound; lia.
Qed.

Lemma digits_nonzero ds : digits ds -> Forall (fun c => c <> 0) ds.
Proof. intros Hd. eapply Forall_impl; [exact Hd|]. intros c Hc. apply isdigit_range in Hc. lia. Qed.

Lemma string_at_end n s : Forall (fun c => c <> 0) s -> string_at (filled_end n (s ++ [0])) = s.
Proof.
  intros Hs. unfold string_at, filled_end. cbn [fst snd]. rewrite Nat2Z.id, drop_app_length' by (by rewrite length_replicate).
  by apply upto_nul_at.
Qed.

Lemma uint_digits value : is_u32 value ->
  uintToString value (replicate 32 0, 32) = Ret (filled_end (31 - length (dec value)) (dec value ++ [0])).
Proof.
  intros Hv. unfold is_u32 in Hv. unfold uintToString. change (replicate 32 0, 32) with (filled_end 32 []).
  assert (Hv' : 0 <= value < 10 ^ (Z.of_nat 9 + 1)) by (change (10 ^ (Z.of_nat 9 + 1)) with 10000000000; lia).
  rewrite push_char_ok, bind_ret_l, push_digits_ok by (done || lia).
  pose proof (dec_digits_dec 9 value [] Hv') as E. rewrite app_nil_r in E. by rewrite E.
Qed.

Lemma uint_length value : is_u32 value -> (length (dec value) <= 10)%nat.
Proof.
  intros Hv. unfold is_u32 in Hv. apply (dec_length value 9).
  change (10 ^ (Z.of_nat 9 + 1)) with 10000000000. lia.
Qed.

Lemma valueToString_uint_ok value : is_u32 value -> valueToString_uint value = Ret (dec value).
Proof.
  intros Hv. unfold valueToString_uint. rewrite uint_digits, bind_ret_l by done.
  cbn [filled_end snd]. rewrite (proj2 (Z.leb_le 0 _) (Nat2Z.is_nonneg _)). cbn [cassert]. rewrite bind_ret_l.
  f_equal. apply (string_at_end (31 - length (dec value))). apply digits_nonzero, dec_is_digits.
Qed.

Lemma valueToString_int_ok value : is_int value ->
  valueToString_int value = Ret (sign (value <? 0) ++ dec (Z.abs value)).
Proof.
  intros Hv. unfold is_int in Hv. unfold valueToString_int.
  assert (Ea : u32 (if value <? 0 then s32 (- value) else value) = Z.abs value).
  { destruct (Z.ltb_spec value 0); [|rewrite u32_id; unfold is_u32; lia].
    destruct (Z.eq_dec value (- 2 ^ 31)) as [->|Hn]; [reflexivity|].
    rewrite s32_id by (unfold is_int; lia). rewrite u32_id; unfold is_u32; lia. }
  assert (Hu : is_u32 (Z.abs value)) by (unfold is_u32; lia).
  rewrite Ea, uint_digits, bind_ret_l by done. pose proof (uint_length _ Hu) as Hl.
  pose proof (digits_nonzero _ (dec_is_digits (Z.abs value))) as Hd.
  destruct (value <? 0); cbn [sign].
  - replace (31 - length (dec (Z.abs value)))%nat with (S (30 - length (dec (Z.abs value)))) by lia.
    rewrite push_char_ok, bind_ret_l. cbn [filled_end snd]. rewrite (proj2 (Z.leb_le 0 _) (Nat2Z.is_nonneg _)).
    cbn [cassert]. rewrite bind_ret_l. f_equal. apply (string_at_end _ (45 :: dec (Z.abs value))). by constructor.
  - rewrite bind_ret_l. cbn [filled_end snd]. rewrite (proj2 (Z.leb_le 0 _) (Nat2Z.is_nonneg _)).
    cbn [cassert]. rewrite bind_ret_l. f_equal. by apply (string_at_end (31 - length (dec (Z.abs value)))).
Qed.

(** ** Doubles *)

(** A text of "%#.16g" of a finite number. *)
Definition g16_form (s : bool) (ip fp ex : list Z) : Prop :=
  digits ip /\ ip <> [] /\ digits fp /\
  (ex = [] \/ exists sg ds, ex = 101 :: sg :: ds /\ (sg = 43 \/ sg = 45) /\ digits ds /\ ds <> []).

Lemma take_digits n ds : digits ds -> digits (take n ds).
Proof. apply Forall_take. Qed.
Lemma drop_digits n ds : digits ds -> digits (drop n ds).
Proof. apply Forall_drop. Qed.

Lemma g16_layout_form s n x : Z.abs x < 10 ^ 5 ->
  exists ip fp ex, g16_layout n x = ip ++ 46 :: fp ++ ex /\ g16_form s ip fp ex
    /\ (length (ip ++ 46%Z :: fp ++ ex) <= 25)%nat.
Proof.
  intros Hx. unfold g16_layout. set (ds := dec_fixed 16 n).
  assert (Hd : digits ds) by apply dec_fixed_digits. assert (Hl : length ds = 16%nat) by apply length_dec_fixed.
  destruct ((-4 <=? x) && (x <? 16)) eqn:Ef.
  - destruct (Z.leb_spec 0 x).
    + exists (take (Z.to_nat (x + 1)) ds), (drop (Z.to_nat (x + 1)) ds), []. rewrite app_nil_r.
      split; [done|]. split.
      * split; [by apply take_digits|]. split; [|split; [by apply drop_digits|by left]].
        intros E. apply (f_equal length) in E. rewrite length_take in E. cbn in E. lia.
      * rewrite length_app, length_take. cbn [length]. rewrite length_drop. lia.
    + exists [48], (replicate (Z.to_nat (- x - 1)) 48 ++ ds), []. rewrite app_nil_r.
      split; [done|]. split.
      * split; [by repeat constructor|]. split; [done|]. split; [|by left].
        apply digits_app. split; [apply digits_replicate|done].
      * rewrite length_app. cbn [length]. rewrite length_app, length_replicate, Hl. lia.
  - exists (take 1 ds), (drop 1 ds),
      ([101; if x <? 0 then 45 else 43] ++ (if Z.abs x <? 10 then [48] else []) ++ dec (Z.abs x)).
    split; [done|]. split.
    + split; [by apply take_digits|]. split; [by destruct ds|]. split; [by apply drop_digits|]. right.
      exists (if x <? 0 then 45 else 43), ((if Z.abs x <? 10 then [48] else []) ++ dec (Z.abs x)).
      split; [done|]. split; [case_match; tauto|]. split.
      * apply digits_app. split; [case_match; by repeat constructor|apply dec_is_digits].
      * intros E. apply app_eq_nil in E as [_ E]. by apply dec_nonnil in E.
    + rewrite length_app, length_take. cbn [length]. rewrite !length_app, length_drop. cbn [length].
      pose proof (dec_length (Z.abs x) 4 ltac:(lia)). destruct (Z.abs x <? 10); cbn [length]; lia.
Qed.

Lemma scale_up_bound fuel num den k : k <= scale_up fuel num den k <= k + Z.of_nat fuel.
Proof.
  revert num k. induction fuel as [|f IH]; intros num k; cbn [scale_up]; [lia|].
  destruct (den <=? num); [lia|]. specialize (IH (num * 10) (k + 1)). lia.
Qed.

(** The decimal exponent of a binary64 number is small. *)
Lemma sig16_exponent s m e : valid_binary 53 1024 (S754_finite s m e) = true ->
  Z.abs (sig16 (Z.pos m * 2 ^ Z.max 0 e) (2 ^ Z.max 0 (- e))).2 < 10 ^ 5.
Proof.
  intros Hv. pose proof (valid_mantissa _ _ _ Hv) as Hm.
  assert (He : -1074 <= e <= 971).
  { cbn [valid_binary] in Hv. unfold bounded, canonical_mantissa, fexp, emin in Hv.
    apply andb_true_iff in Hv as [H1 H2]. apply Z.eqb_eq in H1. lia. }
  assert (Hi : Z.abs (ilog10 (Z.pos m * 2 ^ Z.max 0 e) (2 ^ Z.max 0 (- e))) < 2000).
  { unfold ilog10. case_match eqn:El.
    - assert (Hd : 0 < 2 ^ Z.max 0 (- e)) by (apply Z.pow_pos_nonneg; lia).
      set (q := _ / _). assert (Hq : 0 <= q < 10 ^ (Z.of_nat 1100 + 1)).
      { split; [apply Z.div_pos; [nia|done]|]. apply Z.div_lt_upper_bound; [done|].
        apply Z.lt_le_trans with (2 ^ 1024).
        - apply Z.lt_le_trans with (2 ^ 53 * 2 ^ Z.max 0 e); [|rewrite <- Z.pow_add_r by lia; apply Z.pow_le_mono_r; lia].
          apply Z.mul_lt_mono_pos_r; [apply Z.pow_pos_nonneg; lia|done].
        - transitivity (10 ^ (Z.of_nat 1100 + 1)); [|nia].
          transitivity (10 ^ 1024); [apply Z.pow_le_mono_l; lia|apply Z.pow_le_mono_r; lia]. }
      pose proof (dec_length q 1100 Hq). lia.
    - match goal with |- context [scale_up ?f ?n ?d ?k] => pose proof (scale_up_bound f n d k) as Hb end.
      rewrite Z.log2_pow2 in Hb |- * by lia. lia. }
  unfold sig16. cbv zeta. destruct (_ =? 10 ^ 16); cbn [snd]; lia.
Qed.

Lemma sprintf_form x : dbl_finite x = true -> valid_binary 53 1024 x = true ->
  exists s ip fp ex, sprintf_g16 x = sign s ++ ip ++ 46 :: fp ++ ex /\ g16_form s ip fp ex
    /\ (length (sign s ++ ip ++ 46%Z :: fp ++ ex) <= 26)%nat.
Proof.
  intros Hf Hv. destruct x as [s|s| |s m e]; try discriminate Hf.
  - exists s, [48], (replicate 15 48), []. split; [by destruct s|]. split; [|destruct s; cbn; lia].
    split; [by repeat constructor|]. split; [done|]. split; [apply digits_replicate|by left].
  - cbn [sprintf_g16]. pose proof (sig16_exponent s m e Hv) as Hx.
    destruct (sig16 _ _) as [n x]. cbn [snd] in Hx.
    destruct (g16_layout_form s n x Hx) as (ip & fp & ex & E & Hform & Hl).
    exists s, ip, fp, ex. rewrite E. split; [by destruct s|]. split; [done|].
    rewrite length_app. destruct s; cbn [sign length]; lia.
Qed.

Lemma buf_get_app (a : list Z) c r i : i = Z.of_nat (length a) -> buf_get (a ++ c :: r) i = Ret c.
Proof.
  intros ->. apply buf_get_ok; [lia|]. rewrite Nat2Z.id. rewrite lookup_app_r by lia. by rewrite Nat.sub_diag.
Qed.

Lemma skip_zeros_ok a c z r : c <> 48 ->
  skip_zeros (a ++ c :: replicate z 48 ++ r) (length a + z) = Ret (length a).
Proof.
  intros Hc. revert r. induction z as [|z IH]; intros r.
  - rewrite Nat.add_0_r. cbn [replicate app]. destruct a as [|d a]; [done|].
    change (length (d :: a)) with (S (length a)). cbn [skip_zeros].
    rewrite (buf_get_app (d :: a)) by done. rewrite bind_ret_l. by replace (c =? 48) with false by lia.
  - rewrite Nat.add_succ_r. cbn [skip_zeros].
    rewrite replicate_S_end, <- app_assoc. cbn [app].
    replace (a ++ c :: replicate z 48 ++ 48 :: r) with ((a ++ c :: replicate z 48) ++ 48 :: r)
      by (by rewrite <- app_assoc).
    rewrite (buf_get_app (a ++ c :: replicate z 48)) by (rewrite length_app; cbn [length]; rewrite length_replicate; lia).
    rewrite bind_ret_l. change (48 =? 48) with true. cbv iota. rewrite <- app_assoc. cbn [app]. apply IH.
Qed.

Lemma truncate_digits a c ds r j : digits ds -> isdigit c = false ->
  truncate_at_point (a ++ c :: ds ++ r) j (length a + length ds) =
    if c =? 46 then buf_write (a ++ c :: ds ++ r) (Z.of_nat j + 2) [0] else Ret (a ++ c :: ds ++ r).
Proof.
  intros Hd Hc. revert r Hd. induction ds as [|d ds IH] using rev_ind; intros r Hd.
  - rewrite Nat.add_0_r. cbn [app]. destruct (length a) eqn:El; cbn [truncate_at_point];
      rewrite (buf_get_app a), bind_ret_l, Hc by lia; done.
  - apply digits_app in Hd as [Hd Hd1]. apply Forall_cons in Hd1 as [Hd1 _].
    rewrite length_app. cbn [length]. replace (length a + (length ds + 1))%nat with (S (length a + length ds)) by lia.
    cbn [truncate_at_point]. rewrite <- app_assoc. cbn [app].
    replace (a ++ c :: ds ++ d :: r) with ((a ++ c :: ds) ++ d :: r) by (by rewrite <- app_assoc).
    rewrite (buf_get_app (a ++ c :: ds)) by (rewrite length_app; cbn [length]; lia).
    rewrite bind_ret_l, Hd1, <- app_assoc. cbn [app]. by apply IH.
Qed.

(** The zeros at the end of a list of digits. *)
Lemma split_zeros ds : exists u z, ds = u ++ replicate z 48 /\ (u = [] \/ exists v c, u = v ++ [c] /\ c <> 48).
Proof.
  induction ds as [|d ds IH] using rev_ind; [exists [], 0%nat; by split; [|left]|].
  destruct (Z.eq_dec d 48) as [->|Hd].
  - destruct IH as (u & z & -> & Hu). exists u, (S z). split; [|done].
    by rewrite replicate_S_end, <- app_assoc.
  - exists (ds ++ [d]), 0%nat. split; [by rewrite app_nil_r|]. right. by eexists _, _.
Qed.

(** The second half of [valueToString(double)], on the buffer with the text [t]. *)
Definition trimmed (buffer : list Z) (n : Z) : cpp (list Z) :=
  c ← buf_get buffer (n - 1);
  if negb (c =? 48) then Ret (upto_nul buffer)
  else
    last_nonzero ← skip_zeros buffer (Z.to_nat (n - 1));
    buffer ← truncate_at_point buffer last_nonzero last_nonzero;
    Ret (upto_nul buffer).

(** A text that ends in [z] zeros after the character [c] and digits before
    them: nothing changes unless the digits follow a point. *)
Lemma trimmed_zeros a c u d z r : digits u -> isdigit c = false ->
  (u = [] /\ d = c \/ exists v, u = v ++ [d]) -> d <> 48 -> (0 < z)%nat ->
  Forall (fun c => c <> 0) (a ++ c :: u ++ replicate z 48) ->
  trimmed ((a ++ c :: u ++ replicate z 48) ++ 0 :: r) (Z.of_nat (length (a ++ c :: u ++ replicate z 48))) =
    Ret (if c =? 46 then a ++ c :: u ++ [48] else a ++ c :: u ++ replicate z 48).
Proof.
  intros Hu Hc Hd Hd48 Hz Hnz. unfold trimmed. destruct z as [|z]; [lia|].
  set (t := a ++ c :: u ++ replicate (S z) 48) in *.
  assert (Et : t = (a ++ c :: u ++ replicate z 48) ++ [48]).
  { unfold t. rewrite replicate_S_end, <- !app_assoc. cbn [app]. by rewrite <- app_assoc. }
  assert (El : length t = S (length a + (S (length u) + z))).
  { rewrite Et, !length_app. cbn [length]. rewrite length_app, length_replicate. cbn [length]. lia. }
  rewrite El. replace (Z.of_nat (S (length a + (S (length u) + z))) - 1) with (Z.of_nat (length a + (S (length u) + z))) by lia.
  rewrite Et at 1. rewrite <- app_assoc. cbn [app].
  rewrite (buf_get_app (a ++ c :: u ++ replicate z 48))
    by (rewrite length_app; cbn [length]; rewrite length_app, length_replicate; lia).
  rewrite bind_ret_l. change (negb (48 =? 48)) with false. cbv iota. rewrite Nat2Z.id.
  assert (Es : exists a0, t ++ 0 :: r = a0 ++ d :: replicate (S z) 48 ++ 0 :: r /\ length a0 = (length a + length u)%nat).
  { unfold t. destruct Hd as [[-> ->]|[v ->]].
    - exists a. split; [|cbn; lia]. rewrite <- app_assoc. done.
    - exists (a ++ c :: v). rewrite !length_app. cbn [length]. split; [|lia].
      by rewrite <- !app_assoc; cbn [app]; rewrite <- !app_assoc. }
  destruct Es as (a0 & Ea & Hla).
  rewrite Ea at 1. replace (length a + (S (length u) + z))%nat with (length a0 + S z)%nat by lia.
  rewrite skip_zeros_ok, bind_ret_l by done. rewrite Hla.
  assert (Eb : t ++ 0 :: r = a ++ c :: u ++ replicate (S z) 48 ++ 0 :: r).
  { unfold t. by rewrite <- app_assoc; cbn [app]; rewrite <- app_assoc. }
  rewrite Eb at 1. rewrite truncate_digits by done. rewrite <- Eb.
  destruct (c =? 46).
  - rewrite buf_write_ok by (rewrite ?length_app, ?El; cbn [length]; lia). rewrite bind_ret_l. f_equal.
    unfold splice. cbn [length].
    assert (Ek : take (Z.to_nat (Z.of_nat (length a + length u) + 2)) (t ++ 0 :: r) = a ++ c :: u ++ [48]).
    { rewrite Eb. replace (Z.to_nat _) with (length (a ++ c :: u ++ [48]))
        by (rewrite length_app; cbn [length]; rewrite length_app; cbn [length]; lia).
      replace (a ++ c :: u ++ replicate (S z) 48 ++ 0 :: r)
        with ((a ++ c :: u ++ [48]) ++ replicate z 48 ++ 0 :: r)
        by (rewrite <- app_assoc; cbn [app replicate]; by rewrite <- app_assoc).
      by rewrite take_app_length. }
    rewrite Ek. cbn [app]. apply upto_nul_at.
    apply Forall_app in Hnz as [H1 H2]. apply Forall_app. split; [done|].
    apply Forall_cons in H2 as [H2 H3]. constructor; [done|]. apply Forall_app in H3 as [H3 _].
    apply Forall_app. split; [done|by repeat constructor].
  - rewrite bind_ret_l. f_equal. by apply upto_nul_at.
Qed.

Lemma trimmed_plain a c r : c <> 48 -> Forall (fun c => c <> 0) (a ++ [c]) ->
  trimmed ((a ++ [c]) ++ 0 :: r) (Z.of_nat (length (a ++ [c]))) = Ret (a ++ [c]).
Proof.
  intros Hc Hnz. unfold trimmed. rewrite <- app_assoc. cbn [app].
  rewrite buf_get_app by (rewrite length_app; cbn [length]; lia). rewrite bind_ret_l.
  replace (c =? 48) with false by lia. cbn [negb]. f_equal.
  change (a ++ c :: 0 :: r) with (a ++ [c] ++ 0 :: r). rewrite app_assoc. by apply upto_nul_at.
Qed.

(** A text that ends in digits after the character [c]: after a point zeros may
    be dropped, elsewhere the text stays. *)
Lemma trimmed_digits a c ds r : digits ds -> isdigit c = false -> Forall (fun c => c <> 0) (a ++ c :: ds) ->
  exists ds', trimmed ((a ++ c :: ds) ++ 0 :: r) (Z.of_nat (length (a ++ c :: ds))) = Ret (a ++ c :: ds')
    /\ digits ds' /\ (length ds' <= length ds)%nat /\ (c <> 46 -> ds' = ds).
Proof.
  intros Hd Hc Hnz. assert (Hc48 : c <> 48) by (intros ->; discriminate Hc).
  destruct (split_zeros ds) as (u & z & -> & Hu). apply digits_app in Hd as [Hdu Hdz]. destruct z as [|z].
  - cbn [replicate] in *. rewrite app_nil_r in *. exists u. split; [|done].
    destruct Hu as [->|(v & d & -> & Hd)]; [by apply trimmed_plain|].
    change (a ++ c :: v ++ [d]) with (a ++ (c :: v) ++ [d]) in *. rewrite app_assoc in *. by apply trimmed_plain.
  - set (d := List.last u c).
    rewrite (trimmed_zeros a c u d (S z) r); [|done|done| | |lia|done].
    + exists (if c =? 46 then u ++ [48] else u ++ replicate (S z) 48). split; [by case_match|].
      destruct (Z.eqb_spec c 46).
      * rewrite !length_app, length_replicate. cbn [length]. split; [|split; [lia|done]].
        apply digits_app. split; [done|by repeat constructor].
      * split; [by apply digits_app|]. done.
    + unfold d. destruct Hu as [->|(v & x & -> & Hx)]; [by left|right]. exists v. by rewrite last_last.
    + unfold d. destruct Hu as [->|(v & x & -> & Hx)]; [done|]. by rewrite last_last.
Qed.

Lemma g16_nonzero s ip fp ex : g16_form s ip fp ex -> Forall (fun c => c <> 0) (sign s ++ ip ++ 46 :: fp ++ ex).
Proof.
  intros (Hi & _ & Hf & He). apply digits_nonzero in Hi, Hf.
  assert (Hx : Forall (fun c => c <> 0) ex).
  { destruct He as [->|(sg & ds & -> & Hsg & Hds & _)]; [constructor|]. apply digits_nonzero in Hds.
    repeat constructor; [done|lia|done]. }
  repeat (apply Forall_app; split; [by try destruct s; repeat constructor|]).
  constructor; [done|]. by apply Forall_app.
Qed.

Lemma exponent_g16 sg ds : sg = 43 \/ sg = 45 -> digits ds -> ds <> [] ->
  exponent_text (101 :: sg :: ds) (if sg =? 45 then - dec_value ds else dec_value ds).
Proof.
  intros Hsg Hd Hn.
  apply (exponent_some 101 [sg] ds (sg =? 45)); [by left| |done|done].
  destruct Hsg as [-> | ->]; [by right|by left].
Qed.

(** What the trimming leaves of a text of [sprintf] is a number of the grammar. *)
Lemma g16_trimmed s ip fp ex r : g16_form s ip fp ex ->
  exists fp', trimmed ((sign s ++ ip ++ 46 :: fp ++ ex) ++ 0 :: r) (Z.of_nat (length (sign s ++ ip ++ 46 :: fp ++ ex)))
      = Ret (sign s ++ ip ++ 46 :: fp' ++ ex)
    /\ digits fp' /\ (length fp' <= length fp)%nat.
Proof.
  intros Hg. pose proof (g16_nonzero _ _ _ _ Hg) as Hnz. destruct Hg as (Hi & Hn & Hf & He).
  destruct He as [->|(sg & ds & -> & Hsg & Hds & Hdn)].
  - rewrite app_nil_r in *. rewrite app_assoc in *.
    destruct (trimmed_digits (sign s ++ ip) 46 fp r) as (fp' & E & H1 & H2 & _); [done..|].
    exists fp'. by rewrite E, app_nil_r, <- app_assoc.
  - assert (Ea : sign s ++ ip ++ 46 :: fp ++ 101 :: sg :: ds = (sign s ++ ip ++ 46 :: fp ++ [101]) ++ sg :: ds).
    { rewrite <- !app_assoc. cbn [app]. by rewrite <- app_assoc. }
    rewrite Ea in *.
    destruct (trimmed_digits (sign s ++ ip ++ 46 :: fp ++ [101]) sg ds r) as (ds' & E & _ & _ & H3).
    { done. } { by destruct Hsg as [-> | ->]. } { done. }
    rewrite E, H3 by lia. exists fp. by rewrite <- Ea.
Qed.

Lemma g16_number s ip fp ex : g16_form s ip fp ex -> length (sign s ++ ip ++ 46 :: fp ++ ex) <> 32%nat ->
  exists y, number_text (sign s ++ ip ++ 46 :: fp ++ ex) (d_real y)
    /\ sscanf_lf (sign s ++ ip ++ 46 :: fp ++ ex) = Some y.
Proof.
  intros (Hi & Hn & Hf & He) Hl. assert (Hx : exists e, exponent_text ex e).
  { destruct He as [->|(sg & ds & -> & Hsg & Hds & Hdn)]; eexists; [constructor|by apply exponent_g16]. }
  destruct Hx as [e Hx]. eexists. split; [by apply number_real|]. by apply sscanf_point.
Qed.

(** The double a reader finds in the text of [x]. *)
Definition reread (x : double) : double :=
  match valueToString_double x with Ret t => default x (sscanf_lf t) | _ => x end.

Lemma valueToString_double_ok x : dbl_finite x = true -> valid_binary 53 1024 x = true ->
  exists t, valueToString_double x = Ret t /\ number_text t (d_real (reread x)).
Proof.
  intros Hf Hv. destruct (sprintf_form x Hf Hv) as (s & ip & fp & ex & E & Hg & Hl).
  set (t := sign s ++ ip ++ 46 :: fp ++ ex) in *.
  pose proof (g16_nonzero _ _ _ _ Hg) as Hnz. fold t in Hnz.
  destruct (g16_trimmed s ip fp ex (replicate (31 - length t) 0) Hg) as (fp' & Et & Hf' & Hl'). fold t in Et.
  assert (Ev : valueToString_double x = Ret (sign s ++ ip ++ 46 :: fp' ++ ex)).
  { unfold valueToString_double. rewrite E. unfold sprintf_text.
    rewrite buf_write_ok by (rewrite ?length_app, ?length_replicate; cbn [length]; lia). rewrite bind_ret_l.
    assert (Es : splice (replicate 32 0) (Z.to_nat 0) (t ++ [0]) = t ++ 0 :: replicate (31 - length t) 0).
    { unfold splice. change (Z.to_nat 0) with 0%nat. cbn [take app].
      rewrite drop_replicate, <- app_assoc. cbn [app].
      rewrite length_app. cbn [length]. by replace (32 - (0 + (length t + 1)))%nat with (31 - length t)%nat by lia. }
    rewrite Es, strlen_ok, bind_ret_l by done. exact Et. }
  assert (Hg' : g16_form s ip fp' ex) by (destruct Hg as (? & ? & ? & ?); done).
  destruct (g16_number s ip fp' ex Hg') as (y & Hy & Hs).
  { unfold t in Hl. rewrite !length_app in *. cbn [length] in *. rewrite !length_app in *. lia. }
  eexists. split; [exact Ev|]. unfold reread. rewrite Ev, Hs. exact Hy.
Qed.

(** ** Strings *)

Lemma codePoint_small c : 0 <= c <= 127 -> codePointToUTF8 c = [c].
Proof.
  intros Hc. unfold codePointToUTF8. replace (c <=? 127) with true by lia. unfold u8.
  by rewrite Z.mod_small by lia.
Qed.

Lemma hex4_control c : 0 < c <= 31 -> hex_text (hex4 c) c.
Proof.
  intros Hc. unfold hex4. rewrite (Z.div_small c 4096), (Z.div_small c 256) by lia.
  change (hex_digit (0 mod 16)) with 48.
  assert (H1 : c / 16 = 0 \/ c / 16 = 1) by (pose proof (Z.div_mod c 16); pose proof (Z.mod_pos_bound c 16); lia).
  rewrite (Z.mod_small (c / 16)) by lia.
  assert (Hd : forall n, 0 <= n < 16 -> hex_value (hex_digit n) = Some n).
  { intros n Hn. unfold hex_digit, hex_value. destruct (Z.ltb_spec n 10).
    - replace ((48 <=? n + 48) && (n + 48 <=? 57)) with true by lia. f_equal. lia.
    - replace ((48 <=? n + 55) && (n + 55 <=? 57)) with false by lia.
      replace ((97 <=? n + 55) && (n + 55 <=? 102)) with false by lia.
      replace ((65 <=? n + 55) && (n + 55 <=? 70)) with true by lia. f_equal. lia. }
  replace c with (0 * 4096 + 0 * 256 + (c / 16) * 16 + c mod 16) at 3
    by (pose proof (Z.div_mod c 16); lia).
  apply hex_four; [done|done|apply Hd; lia|apply Hd, Z.mod_pos_bound; lia].
Qed.

Lemma escape_char_ok c s t : 0 < c < 256 -> escaped s t -> escaped (c :: s) (escape_char c ++ t).
Proof.
  intros Hc Hs. unfold escape_char.
  repeat (match goal with |- context [?x =? ?k] => destruct (Z.eqb_spec x k) as [->|?] end;
    [cbn [app]; by apply escaped_letter|]).
  destruct (isControlCharacter c) eqn:E.
  - unfold isControlCharacter in E. cbn [app].
    change (c :: s) with ([c] ++ s). rewrite <- (codePoint_small c) by lia.
    apply escaped_unicode; [apply hex4_control; lia|lia|done].
  - by apply escaped_plain.
Qed.

Lemma escape_all s : cstring s -> escaped s (mjoin (escape_char <$> s)).
Proof.
  induction s as [|c s IH]; intros Hs; [constructor|]. apply Forall_cons in Hs as [Hc Hs].
  cbn. by apply escape_char_ok, IH.
Qed.

Lemma escaped_self s : existsb needs_escape s = false -> escaped s s.
Proof.
  induction s as [|c s IH]; [constructor|]. cbn [existsb]. intros [Hc Hs]%orb_false_iff.
  unfold needs_escape in Hc. apply bool_decide_eq_false in Hc.
  constructor; [set_solver| set_solver|by apply IH].
Qed.

Lemma valueToQuotedString_ok s : cstring s ->
  exists t, valueToQuotedString (Some s) = Ret (34 :: t ++ [34]) /\ escaped s t.
Proof.
  intros Hs. unfold valueToQuotedString. destruct (existsb needs_escape s) eqn:E; cbn [negb andb].
  - eexists. split; [done|]. by apply escape_all.
  - destruct (containsControlCharacter s); cbn [negb].
    + eexists. split; [done|]. by apply escape_all.
    + exists s. split; [done|]. by apply escaped_self.
Qed.
