(* ===== verification/JsonText.v ===== *)
(** * The value a written document spells

    [norm v] is the value the text of [v] has under the grammar: the reader's
    types for numbers, doubles as sixteen digits give them back, arrays without
    gaps, no comments.  The values without infinities and null pointers are the
    ones the writers can write.  The leaves are written alike by every writer. *)
From Stdlib Require Import Sorted SpecFloat.
From S2P Require Import Prelude Words Buffers CString StdMap Decimal Double JsonValue JsonOps JsonWriter JsonReader JsonGrammar JsonFormat.

Definition map_values {K V W} (f : V -> W) (m : stdmap K V) : stdmap K W := (fun '(k, x) => (k, f x)) <$> m.

(** The elements of an array by index, null where there is none. *)
Definition dense (m : stdmap Z Value) : list Value :=
  (fun i => default null (map_find (Z.of_nat i) m)) <$> seq 0 (Z.to_nat (top m)).

Definition norm_number (z : Z) : data Value :=
  if Z.abs z <? int_limit (z <? 0) then integer (z <? 0) (Z.abs z)
  else d_real (dbl_decimal (z <? 0) (Z.abs z) 0).

Fixpoint norm (v : Value) : Value :=
  match value_ v with
  | d_null => null
  | d_int z => plain (norm_number z)
  | d_uint z => plain (norm_number z)
  | d_real x => Value_double (reread x)
  | d_string s => Value_string (default [] s)
  | d_bool b => Value_bool b
  | d_array m => plain (array_of (dense (map_values norm m)))
  | d_object m => plain (d_object (map_values norm m))
  end.

Fixpoint writable (v : Value) : Prop :=
  match value_ v with
  | d_real x => dbl_finite x = true
  | d_string s => is_Some s
  | d_array m => all (fun '(_, c) => writable c) m
  | d_object m => all (fun '(_, c) => writable c) m
  | _ => True
  end.

(** ** Maps and elements *)

Lemma map_find_values {K V W} `{Key K} (f : V -> W) (m : stdmap K V) k :
  map_find k (map_values f m) = f <$> map_find k m.
Proof.
  induction m as [|[l x] m IH]; [done|]. cbn [map_values fmap list_fmap map_find].
  destruct (key_lt l k); [exact IH|]. by destruct (key_eq l k).
Qed.

Lemma top_values f m : top (map_values f m) = top m.
Proof. unfold top, map_values. rewrite fmap_last. by destruct (last m) as [[i x]|]. Qed.

Lemma values_keys {K V W} (f : V -> W) (m : stdmap K V) : (map_values f m).*1 = m.*1.
Proof. unfold map_values. rewrite <- list_fmap_compose. apply list_fmap_ext. by intros ? []. Qed.

Lemma dense_norm m : dense (map_values norm m) = norm <$> dense m.
Proof.
  unfold dense. rewrite top_values, <- list_fmap_compose. apply list_fmap_ext. intros ? i _. cbn.
  rewrite map_find_values. by destruct (map_find _ m).
Qed.

Lemma dense_length m : length (dense m) = Z.to_nat (top m).
Proof. unfold dense. by rewrite length_fmap, length_seq. Qed.

Lemma dense_lookup m i v : dense m !! i = Some v ->
  v = default null (map_find (Z.of_nat i) m) /\ Z.of_nat i < top m.
Proof.
  unfold dense. rewrite list_lookup_fmap_Some. intros (j & -> & Hj). apply lookup_seq in Hj as [-> Hj].
  cbn. split; [done|lia].
Qed.

Lemma height_pos v : (0 < height v)%nat.
Proof. destruct v. cbn [height]. lia. Qed.

Lemma height_in {K} (m : stdmap K Value) k x : (k, x) ∈ m ->
  (height x <= foldr (fun '(_, c) n => Nat.max (height c) n) O m)%nat.
Proof.
  induction m as [|[l y] m IH]; intros Hin; [by apply not_elem_of_nil in Hin|]. cbn [foldr].
  apply elem_of_cons in Hin as [[= -> ->]|Hin]; [lia|]. specialize (IH Hin). lia.
Qed.

(** An element of an array is an element of its map or null. *)
Lemma dense_elem m v : v ∈ dense m -> v = null /\ m <> [] \/ exists i, (i, v) ∈ m.
Proof.
  intros Hin. apply list_elem_of_lookup in Hin as [i Hi]. apply dense_lookup in Hi as [-> Hi].
  destruct (map_find _ m) as [x|] eqn:E; cbn.
  - right. eexists. by apply map_find_Some_in.
  - left. split; [done|]. intros ->. unfold top in Hi. cbn in Hi. lia.
Qed.

Definition fits (fuel : nat) (v : Value) : Prop := wf v /\ writable v /\ (height v <= fuel)%nat.

Lemma fits_null f : (0 < f)%nat -> fits f null.
Proof. intros Hf. split; [apply wf_null|]. split; [done|]. cbn. lia. Qed.

Lemma fits_array f m c : fits (S f) (MkValue (d_array m) c) -> map_sorted m /\ 0 <= top m <= maxInt /\ Forall (fits f) (dense m).
Proof.
  intros (Hw & Hr & Hh). apply wf_array in Hw as (_ & Hs & Hw). split; [done|].
  split; [by apply top_range|]. apply Forall_forall. intros v Hv.
  cbn [height value_] in Hh. apply dense_elem in Hv as [[-> Hm]|[i Hi]].
  - apply fits_null. destruct m as [|[j y] m]; [done|]. cbn [foldr] in Hh. pose proof (height_pos y). lia.
  - cbn [writable value_] in Hr. rewrite all_Forall in Hr. rewrite Forall_forall in Hr, Hw.
    apply Hr in Hi as H1. apply Hw in Hi as H2. apply height_in in Hi. split; [tauto|]. split; [done|lia].
Qed.

Lemma fits_object f m c : fits (S f) (MkValue (d_object m) c) ->
  map_sorted m /\ Forall (fun '(k, x) => cstring k /\ fits f x) m.
Proof.
  intros (Hw & Hr & Hh). apply wf_object in Hw as (_ & Hs & Hw). split; [done|].
  apply Forall_forall. intros [k v] Hi. cbn [height value_] in Hh.
  cbn [writable value_] in Hr. rewrite all_Forall in Hr. rewrite Forall_forall in Hr, Hw.
  apply Hr in Hi as H1. apply Hw in Hi as H2. apply height_in in Hi. split; [tauto|]. split; [tauto|]. split; [done|lia].
Qed.

(** The members of an object in the order of their names build it again. *)
Lemma sorted_app_keys {K V} `{KeyLaws K} (m1 m2 : stdmap K V) k x :
  map_sorted (m1 ++ (k, x) :: m2) -> Forall (fun '(l, _) => key_lt l k = true) m1.
Proof.
  induction m1 as [|[l y] m1 IH]; intros Hs; [constructor|]. cbn [app] in Hs.
  apply map_sorted_cons in Hs as [Hs Hf]. constructor; [|by apply IH].
  apply Forall_app in Hf as [_ Hf]. by apply Forall_cons in Hf as [Hf _].
Qed.

Lemma object_of_app (m kvs : stdmap (list Z) Value) : map_sorted (m ++ kvs) -> Forall (fun '(k, _) => cstring k) kvs ->
  foldl add_member m kvs = m ++ kvs.
Proof.
  revert m. induction kvs as [|[k v] kvs IH]; intros m Hs Hk; [by rewrite app_nil_r|].
  apply Forall_cons in Hk as [Hk Hks]. cbn [foldl]. unfold add_member at 2. cbn [fst snd].
  rewrite upto_nul_id, map_update_end by (done || by eapply sorted_app_keys).
  rewrite IH; rewrite <- ?app_assoc; done.
Qed.

Lemma object_of_sorted (m : stdmap (list Z) Value) : map_sorted m -> Forall (fun '(k, _) => cstring k) m ->
  object_of m = d_object m.
Proof. intros Hs Hk. unfold object_of. f_equal. by apply (object_of_app []). Qed.

(** ** Arrays and objects *)

Lemma norm_array m c : norm (MkValue (d_array m) c) = plain (array_of (norm <$> dense m)).
Proof. cbn [norm value_]. by rewrite <- dense_norm. Qed.

Lemma norm_object f m c : fits (S f) (MkValue (d_object m) c) ->
  norm (MkValue (d_object m) c) = plain (object_of (map_values norm m)).
Proof.
  intros Hf. apply fits_object in Hf as [Hs Hm]. cbn [norm value_]. rewrite object_of_sorted; [done| |].
  - unfold map_sorted. by rewrite values_keys.
  - unfold map_values. rewrite Forall_fmap. eapply Forall_impl; [exact Hm|]. intros [k x] [H _]. exact H.
Qed.

Lemma element_get m c i v : top m <= maxInt -> dense m !! i = Some v ->
  index_get (MkValue (d_array m) c) (Z.of_nat i) = Ret (map_find (Z.of_nat i) m) /\ v = default null (map_find (Z.of_nat i) m).
Proof.
  intros Ht Hi. apply dense_lookup in Hi as [-> Hi]. unfold index_get. cbn [value_].
  rewrite s32_index by lia. done.
Qed.

Lemma member_found m c k v : map_sorted m -> cstring k -> (k, v) ∈ m ->
  member_get (MkValue (d_object m) c) k = Ret (Some v).
Proof. intros Hs Hk Hin. unfold member_get. cbn [value_]. rewrite upto_nul_id by done. by rewrite (map_in_find k v). Qed.

Lemma cfold_keys {S V} (body : nat -> list Z -> S -> cpp S) (m : stdmap (list Z) V) i s :
  cfold body i m.*1 s = cfold (fun i kv => body i kv.1) i m s.
Proof.
  revert i s. induction m as [|[k v] m IH]; intros i s; [done|]. cbn [fmap list_fmap cfold fst].
  destruct (body i k s); cbn; auto.
Qed.

(** ** Leaves *)

Lemma norm_number_text z : is_int z \/ is_u32 z -> number_text (sign (z <? 0) ++ dec (Z.abs z)) (norm_number z).
Proof.
  intros Hz. unfold is_int, is_u32 in Hz. unfold norm_number.
  assert (Hv : dec_value (dec (Z.abs z)) = Z.abs z) by (apply dec_value_dec; lia).
  destruct (Z.ltb_spec (Z.abs z) (int_limit (z <? 0))) as [Hl|Hl].
  - rewrite <- Hv at 2. constructor; [apply dec_is_digits|apply dec_nonnil|by rewrite Hv].
  - rewrite <- Hv at 2. constructor; [apply dec_is_digits|by rewrite Hv|].
    rewrite length_app. pose proof (dec_length (Z.abs z) 9) as Hd.
    assert (Hg : (length (sign (z <? 0)%Z) <= 1)%nat) by (destruct (z <? 0); cbn; lia).
    change (10 ^ (Z.of_nat 9 + 1)) with 10000000000 in Hd. lia.
Qed.

(** The text of a value without elements of its own, the same for all writers. *)
Definition leaf_text (v : Value) : cpp (list Z) :=
  match value_ v with
  | d_null => Ret (codes "null")
  | d_int z => valueToString_int z
  | d_uint z => valueToString_uint z
  | d_real x => valueToString_double x
  | d_string s => valueToQuotedString s
  | d_bool b => Ret (valueToString_bool b)
  | d_array _ | d_object _ => Abort
  end.

Definition container (v : Value) : bool := match value_ v with d_array _ | d_object _ => true | _ => false end.

Lemma leaf_text_ok f v : fits f v -> container v = false ->
  exists t, leaf_text v = Ret t /\ json_text (norm v) t.
Proof.
  intros (Hw & Hr & _) Hc. destruct v as [d c]. destruct d as [|z|z|x|s|b|m|m]; try done;
    cbn [wf writable value_ comments_ leaf_text norm] in *; destruct Hw as [_ Hw].
  - eexists. split; [done|constructor].
  - rewrite valueToString_int_ok by done. eexists. split; [done|]. apply text_number, norm_number_text. tauto.
  - rewrite valueToString_uint_ok by done. eexists. split; [done|]. apply text_number.
    unfold is_u32 in Hw. pose proof (norm_number_text z) as Hn.
    rewrite (proj2 (Z.ltb_ge z 0)) in Hn by lia. cbn [sign app] in Hn. rewrite Z.abs_eq in Hn by lia.
    apply Hn. by right.
  - destruct (valueToString_double_ok x Hr Hw) as (t & E & Ht). exists t. split; [done|]. by apply text_number.
  - destruct Hr as [s' ->]. destruct (valueToQuotedString_ok s' Hw) as (t & E & Ht).
    eexists. split; [exact E|]. by apply text_string.
  - eexists. split; [done|]. destruct b; constructor.
Qed.

(** Both sides of an equation of texts in the form [a ++ b ++ c :: d ++ ...]. *)
Ltac app_norm := repeat first [rewrite <- app_assoc | progress (cbn [app])].

(** ** Lists of items

    Items separated by commas: the elements of an array, the members of an
    object.  A loop that writes the comma before every item but the first, or
    after every one but the last, writes such a list. *)
Inductive items {A} (P : A -> list Z -> Prop) : list A -> list Z -> Prop :=
| items_one a t : P a t -> items P [a] t
| items_more a t l ts : P a t -> items P l ts -> items P (a :: l) (t ++ 44 :: ts).

Definition element_item (v : Value) (t : list Z) : Prop :=
  exists w t0 w', t = w ++ t0 ++ w' /\ spaces w /\ spaces w' /\ json_text (norm v) t0.

Definition member_item (kv : list Z * Value) (t : list Z) : Prop :=
  exists w s w' w'' t0 w3, t = w ++ (34 :: s ++ [34]) ++ w' ++ 58 :: w'' ++ t0 ++ w3
    /\ spaces w /\ escaped kv.1 s /\ spaces w' /\ spaces w'' /\ spaces w3 /\ json_text (norm kv.2) t0.

Lemma spaces_app s t : spaces (s ++ t) <-> spaces s /\ spaces t.
Proof. apply Forall_app. Qed.

(** White space around a list of items belongs to the first and the last. *)
Lemma items_lead {A} (P : A -> list Z -> Prop) l ts w : (forall a t, P a t -> P a (w ++ t)) ->
  items P l ts -> items P l (w ++ ts).
Proof. intros HP [a t Ht|a t l' ts' Ht Hl]; [constructor; auto|]. rewrite app_assoc. constructor; auto. Qed.

Lemma items_trail {A} (P : A -> list Z -> Prop) l ts w : (forall a t, P a t -> P a (t ++ w)) ->
  items P l ts -> items P l (ts ++ w).
Proof.
  intros HP H. induction H as [a t Ht|a t l ts Ht Hl IH]; [constructor; auto|].
  rewrite <- app_assoc. cbn [app]. constructor; auto.
Qed.

Lemma element_lead v t w : spaces w -> element_item v t -> element_item v (w ++ t).
Proof.
  intros Hw (w1 & t0 & w2 & -> & H1 & H2 & Ht). exists (w ++ w1), t0, w2. rewrite spaces_app.
  split; [by rewrite <- app_assoc|done].
Qed.

Lemma element_trail v t w : spaces w -> element_item v t -> element_item v (t ++ w).
Proof.
  intros Hw (w1 & t0 & w2 & -> & H1 & H2 & Ht). exists w1, t0, (w2 ++ w). rewrite spaces_app.
  split; [by rewrite <- !app_assoc|done].
Qed.

Lemma member_trail kv t w : spaces w -> member_item kv t -> member_item kv (t ++ w).
Proof.
  intros Hw (w1 & s & w2 & w3 & t0 & w4 & -> & H). exists w1, s, w2, w3, t0, (w4 ++ w). rewrite spaces_app.
  split; [by app_norm|]. tauto.
Qed.

Lemma items_elements vs ts : items element_item vs ts -> elements_text (norm <$> vs) ts.
Proof.
  induction 1 as [v t (w & t0 & w' & -> & Hw & Hw' & Ht)|v t vs ts (w & t0 & w' & -> & Hw & Hw' & Ht) _ IH].
  - by apply elements_one.
  - cbn [fmap list_fmap]. rewrite <- !app_assoc. by apply elements_more.
Qed.

Lemma items_members kvs ts : items member_item kvs ts -> members_text (map_values norm kvs) ts.
Proof.
  induction 1 as [[k v] t (w & s & w' & w'' & t0 & w3 & -> & Hw & Hs & Hw' & Hw'' & Hw3 & Ht)
    |[k v] t kvs ts (w & s & w' & w'' & t0 & w3 & -> & Hw & Hs & Hw' & Hw'' & Hw3 & Ht) _ IH]; cbn [fst snd] in *.
  - by apply members_one.
  - cbn [map_values fmap list_fmap].
    replace ((w ++ (34 :: s ++ [34]) ++ w' ++ 58 :: w'' ++ t0 ++ w3) ++ 44 :: ts)
      with (w ++ (34 :: s ++ [34]) ++ w' ++ 58 :: w'' ++ t0 ++ w3 ++ 44 :: ts) by (app_norm; done).
    by apply members_more.
Qed.

Section loops.
Context {W A : Type} (out : W -> list Z) (keep : W -> Prop) (P : A -> list Z -> Prop).

(** [body] writes [before j], an item and [after j], and keeps [keep]. *)
Definition writes_item (body : nat -> A -> W -> cpp W) (i : nat) (l : list A) (before after : nat -> list Z) : Prop :=
  forall j a s, l !! j = Some a -> keep s -> exists s' t,
    body (i + j)%nat a s = Ret s' /\ keep s' /\ out s' = out s ++ before (i + j)%nat ++ t ++ after (i + j)%nat /\ P a t.

Definition comma (b : bool) : list Z := if b then [44] else [].

Lemma writes_item_tail body i a l before after :
  writes_item body i (a :: l) before after -> writes_item body (S i) l before after.
Proof.
  intros H j b s Hj Hs. destruct (H (S j) b s Hj Hs) as (s' & t & Hb).
  rewrite Nat.add_succ_r in Hb. eauto.
Qed.

Lemma commas_before body l : forall i s, l <> [] -> keep s ->
  writes_item body i l (fun j => comma (0 <? Z.of_nat j)) (fun _ => []) ->
  exists s' ts, cfold body i l s = Ret s' /\ keep s'
    /\ out s' = out s ++ comma (0 <? Z.of_nat i) ++ ts /\ items P l ts.
Proof.
  induction l as [|a l IH]; intros i s Hn Hs H; [done|]. cbn [cfold].
  destruct (H 0%nat a s eq_refl Hs) as (s1 & t & E & Hs1 & Eo & Ht). rewrite Nat.add_0_r in E, Eo.
  rewrite E, bind_ret_l. rewrite app_nil_r in Eo. destruct l as [|b l].
  - exists s1, t. split; [done|]. split; [done|]. split; [done|]. by constructor.
  - destruct (IH (S i) s1 ltac:(done) Hs1 (writes_item_tail _ _ _ _ _ _ H)) as (s' & ts & E2 & Hs' & Eo2 & Hts).
    exists s', (t ++ 44 :: ts). split; [done|]. split; [done|]. split; [|by constructor].
    rewrite Eo2, Eo. replace (0 <? Z.of_nat (S i)) with true by (symmetry; apply Z.ltb_lt; lia). cbn [comma].
    by rewrite <- !app_assoc.
Qed.

Lemma commas_after body n l : forall i s, l <> [] -> keep s -> (i + length l = n)%nat ->
  writes_item body i l (fun _ => []) (fun j => comma (negb (Nat.eqb (S j) n))) ->
  exists s' ts, cfold body i l s = Ret s' /\ keep s' /\ out s' = out s ++ ts /\ items P l ts.
Proof.
  induction l as [|a l IH]; intros i s Hn Hs El H; [done|]. cbn [cfold].
  destruct (H 0%nat a s eq_refl Hs) as (s1 & t & E & Hs1 & Eo & Ht). rewrite Nat.add_0_r in E, Eo.
  rewrite E, bind_ret_l. cbn [length] in El. destruct l as [|b l].
  - exists s1, t. split; [done|]. split; [done|]. split; [|by constructor].
    rewrite Eo. replace (Nat.eqb (S i) n) with true by (symmetry; apply Nat.eqb_eq; cbn in El; lia).
    cbn. by rewrite app_nil_r.
  - destruct (IH (S i) s1 ltac:(done) Hs1 ltac:(cbn [length] in *; lia) (writes_item_tail _ _ _ _ _ _ H))
      as (s' & ts & E2 & Hs' & Eo2 & Hts).
    exists s', (t ++ 44 :: ts). split; [done|]. split; [done|]. split; [|by constructor].
    rewrite Eo2, Eo. replace (Nat.eqb (S i) n) with false.
    2: { symmetry. apply Nat.eqb_neq. cbn [length] in El. lia. }
    cbn [negb comma app]. by rewrite <- !app_assoc.
Qed.
End loops.

Lemma cfor_cfold {S A} (body : nat -> S -> cpp S) (l : list A) i s :
  cfor body (length l) i s = cfold (fun i _ => body i) i l s.
Proof.
  revert i s. induction l as [|a l IH]; intros i s; [done|]. cbn [length cfor cfold].
  destruct (body i s); cbn; auto.
Qed.
