(* ===== verification/JsonStyled.v ===== *)
(** * The documents of the indenting writers

    For a value without comments an indenting writer produces white space and a
    text of the value, whatever the layout, provided the layout only adds white
    space.  While [addChildValues_] is set the texts of the elements go to
    [childValues_], which holds only for elements that are written in one piece:
    the first loop of [isMultineArray] sees to that. *)
From Stdlib Require Import Sorted SpecFloat.
From S2P Require Import Prelude Words Buffers CString StdMap Decimal Double JsonValue JsonOps JsonWriter JsonReader JsonGrammar JsonRead JsonFormat JsonText.

(** A layout adds nothing but white space. *)
Class LayoutLaws `{Layout} := {
  line_start_spaces doc ind : spaces ind -> spaces (line_start doc ind);
  indentation_spaces : spaces indentation
}.
Arguments LayoutLaws : clear implicits.
Arguments LayoutLaws {_}.

(** No comments, and sizes the writers can compute with. *)
Fixpoint uncommented (v : Value) : Prop :=
  comments_ v = no_comments /\
  match value_ v with
  | d_array m => top m * 3 <= maxInt /\ all (fun '(_, c) => uncommented c) m
  | d_object m => Z.of_nat (length m) < 2 ^ 32 /\ all (fun '(_, c) => uncommented c) m
  | _ => True
  end.

(** Written in one piece: a leaf or an empty container. *)
Definition flat (v : Value) : bool :=
  match value_ v with
  | d_array m => bool_decide (m = [])
  | d_object m => bool_decide (m = [])
  | _ => true
  end.

Definition prints (f : nat) (v : Value) : Prop := fits f v /\ uncommented v.

Lemma uncommented_bare v : uncommented v -> comments_ v = no_comments.
Proof. destruct v as [[] c]; by intros [H _]. Qed.

Lemma prints_dense f m c : prints (S f) (MkValue (d_array m) c) ->
  map_sorted m /\ 0 <= top m * 3 <= maxInt /\ Forall (prints f) (dense m).
Proof.
  intros [Hf Hu]. destruct (fits_array _ _ _ Hf) as (Hs & Ht & Hd). destruct Hu as (_ & Hu & Hc).
  split; [done|]. split; [lia|]. rewrite all_Forall in Hc. rewrite Forall_forall in Hc. apply Forall_forall; rewrite Forall_forall in Hd. intros v Hv. split; [auto|].
  apply dense_elem in Hv as [[-> _]|[i Hi]]; [done|]. exact (Hc _ Hi).
Qed.

Lemma prints_members f m c : prints (S f) (MkValue (d_object m) c) ->
  map_sorted m /\ Z.of_nat (length m) < 2 ^ 32 /\ Forall (fun '(k, x) => cstring k /\ prints f x) m.
Proof.
  intros [Hf Hu]. destruct (fits_object _ _ _ Hf) as (Hs & Hd). destruct Hu as (_ & Hu & Hc).
  split; [done|]. split; [done|]. rewrite all_Forall in Hc. rewrite Forall_forall in Hc. apply Forall_forall; rewrite Forall_forall in Hd. intros [k v] Hv.
  destruct (Hd _ Hv). split; [done|]. split; [done|]. exact (Hc _ Hv).
Qed.

Lemma no_comment_before v w : comments_ v = no_comments -> writeCommentBeforeValue v w = w.
Proof. intros E. unfold writeCommentBeforeValue, hasComment. by rewrite E. Qed.

Lemma no_comment_after v w : comments_ v = no_comments -> writeCommentAfterValueOnSameLine v w = w.
Proof. intros E. unfold writeCommentAfterValueOnSameLine, hasComment. by rewrite E. Qed.

Lemma top_nonnil m : map_sorted m -> Forall (fun '(i, x) => 0 <= i < maxInt /\ wf x) m -> m <> [] -> 0 < top m.
Proof.
  intros Hs Hf Hn. destruct m as [|[i x] m]; [done|]. apply Forall_cons in Hf as [[Hi _] _].
  pose proof (index_below _ i x Hs (list_elem_of_here _ _)). lia.
Qed.

Lemma nested_ok f v : prints f v -> nested v = Ret (negb (flat v)).
Proof.
  intros [(Hw & _ & _) Hu]. unfold nested. destruct v as [d c]. destruct d as [|z|z|x|s|b|m|m]; try reflexivity.
  - change (isArray _ || isObject _) with true. cbv iota. rewrite size_array, bind_ret_l by done. unfold flat. cbn [value_].
    apply wf_array in Hw as (_ & Hs & Hf). case_bool_decide as Hm; [by subst|].
    pose proof (top_nonnil m Hs Hf Hm). f_equal. cbn. lia.
  - change (isArray _ || isObject _) with true. cbv iota. destruct Hu as (_ & Hl & _). unfold size, flat. cbn [value_].
    rewrite bind_ret_l, u32_id by (unfold is_u32; lia). f_equal. case_bool_decide as Hm; [by subst|].
    destruct m; [done|]. cbn [negb]. apply Z.ltb_lt. cbn [length]. lia.
Qed.

Section styled.
Context `{LayoutLaws}.

Lemma styled_leaf f v w : container v = false -> writeValue (S f) v w = t ← leaf_text v; Ret (pushValue t w).
Proof. destruct v as [[] c]; done. Qed.

(** A flat value is pushed in one piece. *)
Lemma styled_flat f v w : prints (S f) v -> flat v = true ->
  exists t, writeValue (S f) v w = Ret (pushValue t w) /\ json_text (norm v) t.
Proof.
  intros [Hv Hu] Hf. destruct (container v) eqn:Ec.
  2: { rewrite styled_leaf by done. destruct (leaf_text_ok _ v Hv Ec) as (t & -> & Ht). by exists t. }
  destruct v as [d c]. destruct d as [|z|z|x|s|b|m|m]; try discriminate Ec;
    apply bool_decide_eq_true in Hf as ->; (eexists; split; [reflexivity|]).
  - apply (text_empty_array []). constructor.
  - apply (text_empty_object []). constructor.
Qed.

Lemma element_ok m c i v : top m <= maxInt -> dense m !! i = Some v -> element (MkValue (d_array m) c) (Z.of_nat i) = Ret v.
Proof.
  intros Ht Hi. unfold element. destruct (element_get m c i v Ht Hi) as [-> ->]. by rewrite bind_ret_l.
Qed.

(** The first loop of [isMultineArray]. *)
Lemma nested_loop f m c multi : top m <= maxInt -> Forall (prints f) (dense m) ->
  returns (cwhile (Z.to_nat (top m)) (fun '(index, multi) => (index <? top m) && negb multi)
    (fun '(index, multi) =>
       child ← element (MkValue (d_array m) c) index; b ← nested child; Ret (index + 1, multi || b))
    (0, multi)) (fun '(_, multi') => multi' = false -> Forall (fun v => flat v = true) (dense m)).
Proof.
  intros Ht Hd.
  eapply returns_mono.
  - apply (cwhile_total _ _
      (fun '(i, multi) => 0 <= i <= Z.max 0 (top m) /\ (multi = false -> Forall (fun v => flat v = true) (take (Z.to_nat i) (dense m))))
      (fun '(i, _) => Z.to_nat (top m - i))); [|split; [lia|constructor]|lia].
    intros [i b] [Hi Hb] Hc. apply andb_true_iff in Hc as [Hc Hm]. apply Z.ltb_lt in Hc. apply negb_true_iff in Hm as ->.
    destruct (lookup_lt_is_Some_2 (dense m) (Z.to_nat i)) as [v Hv]; [rewrite dense_length; lia|].
    apply list_elem_of_lookup_2 in Hv as Hin. rewrite Forall_forall in Hd.
    rewrite <- (Z2Nat.id i) at 1 by lia. rewrite (element_ok m c _ v), bind_ret_l, (nested_ok f), bind_ret_l by auto.
    cbn [returns]. split; [|lia]. split; [lia|]. cbn [orb]. intros Hfl. apply negb_false_iff in Hfl.
    replace (Z.to_nat (i + 1)) with (S (Z.to_nat i)) by lia. rewrite (take_S_r _ _ v) by done.
    apply Forall_app. split; [by apply Hb|by repeat constructor].
  - intros [i b] [[Hi Hb] Hc] ->. specialize (Hb eq_refl). rewrite take_ge in Hb; [done|].
    rewrite dense_length. rewrite andb_true_r in Hc. apply Z.ltb_ge in Hc. lia.
Qed.

Definition texts (vs : list Value) (ts : list (list Z)) : Prop := Forall2 (fun v t => json_text (norm v) t) vs ts.

(** The second loop of [isMultineArray]: the texts of the elements are collected. *)
Lemma text_loop f m c w : top m <= maxInt -> Forall (prints (S f)) (dense m) ->
  Forall (fun v => flat v = true) (dense m) -> childValues_ w = [] -> addChildValues_ w = true ->
  forall n0,
  returns (cwhile (Z.to_nat (top m)) (fun '(index, multi, _, _) => (index <? top m) && negb multi)
    (fun '(index, multi, lineLength, w) =>
       child ← element (MkValue (d_array m) c) index;
       w ← writeValue (S f) child w;
       text ← match childValues_ w !! Z.to_nat index with Some t => Ret t | None => Undef end;
       Ret (index + 1, multi && hasCommentForValue child, lineLength + Z.of_nat (length text), w))
    (0, false, n0, w))
  (fun '(_, multi, _, w') => multi = false /\ exists ts, texts (dense m) ts /\ w' = set_children ts true w).
Proof.
  intros Ht Hd Hfl Ec Ea n0.
  eapply returns_mono.
  - apply (cwhile_total _ _
      (fun '(i, multi, _, w') => 0 <= i <= Z.max 0 (top m) /\ multi = false
         /\ exists ts, texts (take (Z.to_nat i) (dense m)) ts /\ w' = set_children ts true w)
      (fun '(i, _, _, _) => Z.to_nat (top m - i)));
      [|split; [lia|]; split; [done|]; exists []; split; [constructor|by destruct w; cbn in *; subst]|lia].
    intros [[[i b] n] w'] (Hi & -> & ts & Hts & ->) Hc. rewrite andb_true_r in Hc. apply Z.ltb_lt in Hc.
    destruct (lookup_lt_is_Some_2 (dense m) (Z.to_nat i)) as [v Hv]; [rewrite dense_length; lia|].
    apply list_elem_of_lookup_2 in Hv as Hin. rewrite Forall_forall in Hd. rewrite Forall_forall in Hfl.
    rewrite <- (Z2Nat.id i) at 1 by lia. rewrite (element_ok m c _ v), bind_ret_l by done.
    destruct (styled_flat f v (set_children ts true w) (Hd _ Hin) (Hfl _ Hin)) as (t & -> & Ht').
    rewrite bind_ret_l. unfold pushValue. cbn [set_children addChildValues_ childValues_].
    assert (El : Z.to_nat i = length ts).
    { apply Forall2_length in Hts. rewrite <- Hts, length_take, dense_length. lia. }
    rewrite El, lookup_app_r, Nat.sub_diag by done. cbn [lookup list_lookup]. rewrite bind_ret_l.
    cbn [returns]. split; [|lia]. split; [lia|]. split; [done|]. exists (ts ++ [t]). split; [|done].
    replace (Z.to_nat (i + 1)) with (S (Z.to_nat i)) by lia. rewrite (take_S_r _ _ v) by done.
    apply Forall2_app; [done|by repeat constructor].
  - intros [[[i b] n] w'] ((Hi & -> & ts & Hts & ->) & Hc). split; [done|]. exists ts. split; [|done].
    rewrite take_ge in Hts; [done|]. rewrite dense_length. rewrite andb_true_r in Hc. apply Z.ltb_ge in Hc. lia.
Qed.

(** [isMultineArray] leaves the texts of all elements or of none, and none
    only for an array it spreads over lines. *)
Lemma isMultineArray_ok f m c w : prints (S (S f)) (MkValue (d_array m) c) -> addChildValues_ w = false ->
  exists b ts, isMultineArray (writeValue (S f)) (MkValue (d_array m) c) w = Ret (b, set_children ts false w)
    /\ (b = true /\ ts = [] \/ texts (dense m) ts).
Proof.
  intros Hp Ea. pose proof Hp as [[Hw _] _]. destruct (prints_dense _ _ _ Hp) as (Hs & Ht & Hd).
  unfold isMultineArray. rewrite size_array, bind_ret_l by done.
  rewrite s32_id, int_checked_id, bind_ret_l by (unfold is_int, maxInt in *; lia).
  destruct (returns_inv _ _ (nested_loop (S f) m c (rightMargin_ <=? top m * 3) ltac:(unfold maxInt in *; lia) Hd)) as ([i b] & -> & Hb).
  rewrite bind_ret_l. destruct b; cbn [negb].
  - exists true, []. rewrite Ea. split; [done|by left].
  - destruct (returns_inv _ _ (text_loop f m c (set_children [] true w) ltac:(unfold maxInt in *; lia) Hd
      (Hb eq_refl) eq_refl eq_refl (4 + (top m - 1) * 2))) as ([[[j b] n] w'] & E & -> & ts & Hts & ->).
    match goal with |- context [cwhile _ _ _ ?s0] =>
      change s0 with (0, false, 4 + (top m - 1) * 2, set_children [] true w) end.
    rewrite E, bind_ret_l. eexists _, ts. split; [done|by right].
Qed.

(** ** Lines *)

Definition styled_writes (f : nat) : Prop := forall v w,
  prints f v -> addChildValues_ w = false -> spaces (indentString_ w) ->
  exists w' u, writeValue f v w = Ret w' /\ addChildValues_ w' = false /\ indentString_ w' = indentString_ w
    /\ document_ w' = document_ w ++ u /\ element_item v u.

Lemma indent_spaces w : spaces (indentString_ w) -> spaces (line_start (document_ w) (indentString_ w)).
Proof. apply line_start_spaces. Qed.

Lemma flat_item v t w : spaces w -> json_text (norm v) t -> element_item v (w ++ t).
Proof. intros Hw Ht. exists w, t, []. rewrite app_nil_r. split; [done|]. split; [done|]. split; [constructor|done]. Qed.

Lemma emit_comma (b : bool) w : (if b then w else emit (codes ",") w) = emit (comma (negb b)) w.
Proof. destruct b; [|done]. unfold emit. destruct w. cbn. by rewrite app_nil_r. Qed.

Lemma texts_lookup vs ts j v : texts vs ts -> vs !! j = Some v -> exists t, ts !! j = Some t /\ json_text (norm v) t.
Proof. intros Ht Hj. destruct (Forall2_lookup_l _ _ _ _ _ Ht Hj) as (t & ? & ?). eauto. Qed.

Definition in_lines (ind : list Z) (ts : list (list Z)) (w : Styled) : Prop :=
  indentString_ w = ind /\ addChildValues_ w = false /\ (ts <> [] -> childValues_ w = ts).

(** An element of an array on its own line. *)
Lemma array_line f m c ind ts : styled_writes f -> Forall (prints f) (dense m) -> top m <= maxInt -> 0 <= top m ->
  spaces ind -> ts = [] \/ texts (dense m) ts ->
  writes_item document_ (in_lines ind ts) element_item
    (fun index (_ : Value) w =>
       child ← element (MkValue (d_array m) c) (Z.of_nat index);
       let w := writeCommentBeforeValue child w in
       w ← (if negb (bool_decide (ts = [])) then
              text ← match childValues_ w !! index with Some t => Ret t | None => Undef end;
              Ret (writeWithIndent text w)
            else writeValue f child (writeIndent w));
       let w := if Z.of_nat (S index) =? top m then w else emit (codes ",") w in
       Ret (writeCommentAfterValueOnSameLine child w))
    0 (dense m) (fun _ => []) (fun j => comma (negb (Nat.eqb (S j) (length (dense m))))).
Proof.
  intros IH Hd Ht Ht0 Hi Hts j v w Hj (Ei & Ea & Ec). cbn beta. rewrite Nat.add_0_l.
  apply list_elem_of_lookup_2 in Hj as Hin. rewrite Forall_forall in Hd. pose proof (Hd _ Hin) as Hp.
  rewrite (element_ok m c j v), bind_ret_l by done. pose proof (uncommented_bare v (proj2 Hp)) as Hc.
  cbv zeta. rewrite no_comment_before by done. pose proof (indent_spaces w ltac:(by rewrite Ei)) as Hsp.
  assert (Eb : (Z.of_nat (S j) =? top m) = Nat.eqb (S j) (length (dense m))).
  { rewrite dense_length. apply eq_true_iff_eq. rewrite Z.eqb_eq, Nat.eqb_eq. lia. }
  rewrite Eb. set (b := Nat.eqb _ _).
  assert (Hw : exists w1 u, (if negb (bool_decide (ts = [])) then
              text ← match childValues_ w !! j with Some t => Ret t | None => Undef end; Ret (writeWithIndent text w)
            else writeValue f v (writeIndent w)) = Ret w1
      /\ in_lines ind ts w1 /\ document_ w1 = document_ w ++ u /\ element_item v u).
  { case_bool_decide as En; cbn [negb].
    - destruct (IH v (writeIndent w) Hp Ea ltac:(by cbn; rewrite Ei)) as (w1 & u & E & Ea1 & Ei1 & Ed & Hu).
      exists w1, (line_start (document_ w) (indentString_ w) ++ u). rewrite Ed. cbn [writeIndent emit document_].
      split; [done|]. split; [split; [by rewrite Ei1|done]|]. split; [by rewrite app_assoc|]. by apply element_lead.
    - destruct Hts as [->|Hts]; [done|]. destruct (texts_lookup _ _ _ _ Hts Hj) as (t & Et & Htt).
      rewrite (Ec En), Et, bind_ret_l. exists (writeWithIndent t w), (line_start (document_ w) (indentString_ w) ++ t).
      split; [done|]. split; [done|]. split; [cbn; by rewrite app_assoc|]. by apply flat_item. }
  destruct Hw as (w1 & u & -> & Hk & Ed & Hu). rewrite bind_ret_l, no_comment_after, emit_comma by done.
  eexists _, u. split; [reflexivity|]. split; [done|]. split; [cbn; by rewrite Ed, <- app_assoc|done].
Qed.

(** An element of an array on a single line. *)
Lemma array_piece ind ts vs : texts vs ts ->
  writes_item document_ (in_lines ind ts) element_item
    (fun index (_ : Value) w =>
       text ← match childValues_ (if 0 <? Z.of_nat index then emit (codes ", ") w else w) !! index with
              | Some t => Ret t | None => Undef end;
       Ret (emit text (if 0 <? Z.of_nat index then emit (codes ", ") w else w)))
    0 vs (fun j => comma (0 <? Z.of_nat j)) (fun _ => []).
Proof.
  intros Hts j v w Hj (Ei & Ea & Ec). cbn beta. rewrite Nat.add_0_l.
  destruct (texts_lookup _ _ _ _ Hts Hj) as (t & Et & Htt).
  assert (En : ts <> []) by (intros ->; done). specialize (Ec En).
  destruct (0 <? Z.of_nat j); cbn [emit childValues_]; rewrite Ec, Et, bind_ret_l.
  - eexists _, (32 :: t). split; [done|]. split; [done|].
    split; [cbn; by rewrite app_nil_r, <- app_assoc|]. apply (flat_item v t [32]); [by repeat constructor|done].
  - eexists _, t. split; [done|]. split; [done|].
    split; [cbn; by rewrite app_nil_r|]. apply (flat_item v t []); [constructor|done].
Qed.

Lemma unindent_ok w : exists w', unindent (set_indent (indentString_ w ++ indentation) w) = Ret w'
  /\ document_ w' = document_ w /\ addChildValues_ w' = addChildValues_ w /\ indentString_ w' = indentString_ w.
Proof.
  unfold unindent. cbn [set_indent indentString_ childValues_ document_ addChildValues_].
  rewrite (proj2 (Z.leb_le _ _)) by (rewrite length_app; lia). cbn [cassert]. rewrite bind_ret_l.
  eexists. split; [reflexivity|]. split; [done|]. split; [done|]. cbn.
  rewrite length_app, Nat.add_sub. apply take_app_length.
Qed.

(** ** Values *)

(** The end of a container spread over lines. *)
Lemma close_lines ind ts w t : spaces ind -> in_lines (ind ++ indentation) ts w ->
  exists w' sp, (w ← unindent w; Ret (writeWithIndent t w)) = Ret w' /\ addChildValues_ w' = false
    /\ indentString_ w' = ind /\ document_ w' = document_ w ++ sp ++ t /\ spaces sp.
Proof.
  intros Hi (Ei & Ea & _).
  destruct (unindent_ok (set_indent ind w)) as (w1 & E & Ed & Ea1 & Ei1). cbn [set_indent indentString_ document_ addChildValues_] in *.
  assert (Ew : {| childValues_ := childValues_ w; document_ := document_ w; indentString_ := ind ++ indentation;
                  addChildValues_ := addChildValues_ w |} = w) by (destruct w; cbn in *; by subst).
  unfold set_indent in E. cbn [childValues_ document_ indentString_ addChildValues_] in E. rewrite Ew in E.
  rewrite E, bind_ret_l. exists (writeWithIndent t w1), (line_start (document_ w1) (indentString_ w1)).
  split; [done|]. split; [cbn; by rewrite Ea1|]. split; [done|]. split; [cbn; by rewrite Ed, app_assoc|].
  rewrite Ei1. by apply line_start_spaces.
Qed.

Lemma array_value f m c w : styled_writes (S f) -> prints (S (S f)) (MkValue (d_array m) c) -> m <> [] ->
  addChildValues_ w = false -> spaces (indentString_ w) ->
  exists w' u, writeArrayValue (writeValue (S f)) (MkValue (d_array m) c) w = Ret w' /\ addChildValues_ w' = false
    /\ indentString_ w' = indentString_ w /\ document_ w' = document_ w ++ u /\ element_item (MkValue (d_array m) c) u.
Proof.
  intros IH Hp Hm Ea Hsp. pose proof Hp as [[Hw _] _]. destruct (prints_dense _ _ _ Hp) as (Hs & Ht & Hd).
  assert (Ht0 : 0 < top m) by (apply wf_array in Hw as (_ & _ & Hf); by apply top_nonnil).
  assert (Hn : dense m <> []) by (intros E; apply (f_equal length) in E; rewrite dense_length in E; cbn in E; lia).
  unfold writeArrayValue. rewrite size_array, bind_ret_l by done. replace (top m =? 0) with false by lia.
  destruct (isMultineArray_ok f m c w Hp Ea) as (b & ts & -> & Hts). rewrite bind_ret_l.
  destruct b; rewrite <- dense_length, cfor_cfold.
  - set (w1 := indent _). change (childValues_ w1) with ts.
    edestruct (commas_after document_ (in_lines (indentString_ w ++ indentation) ts) element_item) as (w2 & u & E & Hk & Ed & Hu).
    5: { rewrite E, bind_ret_l. destruct (close_lines (indentString_ w) ts w2 (codes "]") Hsp Hk) as (w3 & sp & -> & Ea3 & Ei3 & Ed3 & Hsp3).
      exists w3, (line_start (document_ w) (indentString_ w) ++ (91 :: (u ++ sp) ++ [93])).
      split; [done|]. split; [done|]. split; [done|].
      split; [rewrite Ed3, Ed; unfold w1; cbn; by app_norm|]. apply element_lead; [by apply indent_spaces|].
      apply (flat_item _ _ []); [constructor|]. rewrite norm_array. apply text_array, items_elements.
      apply items_trail; [|done]. intros v t. by apply element_trail. }
    + exact Hn.
    + done.
    + done.
    + apply (array_line (S f) m c); [done|done|unfold maxInt in *; lia|lia| |tauto].
      apply spaces_app. split; [done|apply indentation_spaces].
  - destruct Hts as [[? _]|Hts]; [done|].
    assert (El : (Z.of_nat (length (childValues_ (set_children ts false w))) =? top m) = true).
    { apply Z.eqb_eq. cbn. apply Forall2_length in Hts. rewrite <- Hts, dense_length. lia. }
    rewrite El. cbn [cassert]. rewrite bind_ret_l.
    destruct (commas_before document_ (in_lines (indentString_ w) ts) element_item _ (dense m) 0
      (emit (codes "[ ") (set_children ts false w)) Hn ltac:(done) (array_piece _ _ _ Hts)) as (w2 & u & E & (Ei2 & Ea2 & _) & Ed & Hu).
    rewrite E, bind_ret_l. eexists _, (91 :: (32 :: u ++ [32]) ++ [93]). split; [done|]. split; [done|]. split; [done|].
    split; [cbn; rewrite Ed; cbn; by app_norm|].
    apply (flat_item _ _ []); [constructor|]. rewrite norm_array. apply text_array, items_elements.
    apply (items_lead _ _ (u ++ [32]) [32]); [intros v t; apply element_lead; by repeat constructor|].
    apply items_trail; [|done]. intros v t. apply element_trail. by repeat constructor.
Qed.

Lemma object_line f m c ind : styled_writes f -> Forall (fun '(k, x) => cstring k /\ prints f x) m -> map_sorted m ->
  spaces ind ->
  writes_item document_ (in_lines ind []) member_item
    (fun i (kv : list Z * Value) w =>
       child ← member_get (MkValue (d_object m) c) kv.1;
       let childValue := default null child in
       let w := writeCommentBeforeValue childValue w in
       t ← valueToQuotedString (Some kv.1);
       let w := emit (codes " : ") (writeWithIndent t w) in
       w ← writeValue f childValue w;
       let w := if Nat.eqb (S i) (length m.*1) then w else emit (codes ",") w in
       Ret (writeCommentAfterValueOnSameLine childValue w))
    0 m (fun _ => []) (fun j => comma (negb (Nat.eqb (S j) (length m)))).
Proof.
  intros IH Hd Hs Hi j [k v] w Hj (Ei & Ea & _). cbn beta. rewrite Nat.add_0_l. apply list_elem_of_lookup_2 in Hj.
  rewrite Forall_forall in Hd. destruct (Hd _ Hj) as [Hk Hp]. cbn [fst snd].
  pose proof (uncommented_bare v (proj2 Hp)) as Hc.
  destruct (valueToQuotedString_ok k Hk) as (s & E1 & Hes).
  rewrite (member_found m c k v), bind_ret_l by done. change (default null (Some v)) with v. cbv zeta.
  rewrite no_comment_before, E1, bind_ret_l by done. set (w1 := emit (codes " : ") (writeWithIndent (34 :: s ++ [34]) w)).
  destruct (IH v w1 Hp) as (w2 & u & -> & Ea2 & Ei2 & Ed & a & t0 & b & -> & Ha & Hb & Ht0); [done|by cbn; rewrite Ei|].
  rewrite bind_ret_l, length_fmap, no_comment_after, emit_comma by done.
  eexists _, (line_start (document_ w) (indentString_ w) ++ (34 :: s ++ [34]) ++ [32] ++ 58 :: (32 :: a) ++ t0 ++ b).
  split; [reflexivity|]. split; [split; [cbn; by rewrite Ei2|done]|].
  split; [cbn; rewrite Ed; unfold w1; cbn; by app_norm|].
  exists (line_start (document_ w) (indentString_ w)), s, [32], (32 :: a), t0, b.
  split; [done|]. split; [apply line_start_spaces; by rewrite Ei|]. split; [done|]. split; [by repeat constructor|].
  split; [by constructor|]. done.
Qed.

Lemma object_value f m c w : styled_writes f -> prints (S f) (MkValue (d_object m) c) ->
  addChildValues_ w = false -> spaces (indentString_ w) ->
  exists w' u, writeValue (S f) (MkValue (d_object m) c) w = Ret w' /\ addChildValues_ w' = false
    /\ indentString_ w' = indentString_ w /\ document_ w' = document_ w ++ u /\ element_item (MkValue (d_object m) c) u.
Proof.
  intros IH Hp Ea Hsp. pose proof (prints_members _ _ _ Hp) as (Hs & _ & Hd).
  cbn [writeValue type_ value_ getMemberNames]. rewrite bind_ret_l. case_bool_decide as Em.
  - apply fmap_nil_inv in Em as ->. unfold pushValue. rewrite Ea. eexists _, _. split; [reflexivity|].
    split; [done|]. split; [done|]. split; [reflexivity|]. apply (flat_item _ _ []); [constructor|].
    apply (text_empty_object []). constructor.
  - rewrite cfold_keys. set (w1 := indent _).
    edestruct (commas_after document_ (in_lines (indentString_ w ++ indentation) []) member_item) as (w2 & u & E & Hk & Ed & Hu).
    5: { rewrite E, bind_ret_l. destruct (close_lines (indentString_ w) [] w2 (codes "}") Hsp Hk) as (w3 & sp & -> & Ea3 & Ei3 & Ed3 & Hsp3).
      exists w3, (line_start (document_ w) (indentString_ w) ++ (123 :: (u ++ sp) ++ [125])).
      split; [done|]. split; [done|]. split; [done|].
      split; [rewrite Ed3, Ed; unfold w1; cbn; by app_norm|]. apply element_lead; [by apply indent_spaces|].
      apply (flat_item _ _ []); [constructor|]. rewrite (norm_object f) by apply Hp. apply text_object, items_members.
      apply items_trail; [|done]. intros kv t. by apply member_trail. }
    + intros ->. done.
    + done.
    + done.
    + apply (object_line f m c); [done..|]. apply spaces_app. split; [done|apply indentation_spaces].
Qed.

Lemma styled_write f : styled_writes f.
Proof.
  induction f as [|f IH]; intros v w Hp Ea Hsp; [destruct Hp as [(_ & _ & Hh) _]; pose proof (height_pos v); lia|].
  destruct (flat v) eqn:Ef.
  - destruct (styled_flat f v w Hp Ef) as (t & E & Ht). rewrite E. unfold pushValue. rewrite Ea.
    eexists _, t. split; [reflexivity|]. split; [done|]. split; [done|]. split; [done|].
    apply (flat_item v t []); [constructor|done].
  - destruct v as [d c]. destruct d as [|z|z|x|s|b|m|m]; try discriminate Ef; [|by apply object_value].
    apply bool_decide_eq_false in Ef. destruct f as [|f].
    + destruct Hp as [(_ & _ & Hh) _]. cbn [height value_] in Hh. destruct m as [|[i x] m]; [done|].
      cbn [foldr] in Hh. pose proof (height_pos x). lia.
    + by apply array_value.
Qed.

Lemma styled_document v : prints (height v) v ->
  exists w t w', write v = Ret (w ++ t ++ w') /\ spaces w /\ spaces w' /\ json_text (norm v) t.
Proof.
  intros Hp. unfold write. pose proof (uncommented_bare v (proj2 Hp)) as Hc. cbv zeta. rewrite no_comment_before by done.
  edestruct (styled_write (height v) v) as (w' & u & -> & _ & _ & Ed & w1 & t & w2 & -> & H1 & H2 & Ht);
    [done|..]; [|constructor|].
  2: { rewrite bind_ret_l, no_comment_after, Ed by done. cbn [document_ app]. exists w1, t, (w2 ++ [10]).
       split; [by rewrite <- !app_assoc|]. split; [done|]. split; [|done]. apply spaces_app. split; [done|by repeat constructor]. }
  done.
Qed.
End styled.

#[export] Instance styled_writer_laws : LayoutLaws (H := StyledWriter.layout).
Proof.
  split; [|by repeat constructor]. intros doc ind Hi. cbn [line_start StyledWriter.layout].
  unfold StyledWriter.writeIndent_start. destruct (last doc) as [c|]; [|done].
  destruct (c =? 32); [constructor|]. destruct (c =? 10); cbn [app]; [done|]. by constructor.
Qed.

Lemma stream_writer_laws indentation_ : spaces indentation_ -> LayoutLaws (H := StyledStreamWriter.layout indentation_).
Proof. intros Hi. split; [|done]. intros doc ind Hind. by constructor. Qed.
