(* ===== verification/JsonRoundtrip.v ===== *)
(** * Writing and reading back

    The document a writer produces for a value without comments is read as the
    value it spells. *)
From Stdlib Require Import Sorted SpecFloat.
From S2P Require Import Prelude Words Buffers CString StdMap Decimal Double JsonValue JsonOps JsonWriter JsonReader JsonGrammar JsonRead JsonFormat JsonText JsonStyled.

(** ** The compact writer *)

Lemma fast_leaf f yaml v doc : container v = false ->
  FastWriter.writeValue (S f) yaml v doc = t ← leaf_text v; Ret (doc ++ t).
Proof. destruct v as [[] c]; done. Qed.

Definition fast_writes (f : nat) (yaml : bool) : Prop := forall v doc, fits f v ->
  exists t, FastWriter.writeValue f yaml v doc = Ret (doc ++ t) /\ json_text (norm v) t.

Lemma app_doc_ok t doc : FastWriter.app_doc t doc = Ret (doc ++ t).
Proof. done. Qed.

Lemma fast_comma (b : bool) doc : (if b then FastWriter.app_doc (codes ",") doc else Ret doc) = Ret (doc ++ comma b).
Proof. destruct b; [done|]. cbn. by rewrite app_nil_r. Qed.

Lemma fast_element f yaml m c : fast_writes f yaml -> Forall (fits f) (dense m) -> top m <= maxInt ->
  writes_item (fun d : list Z => d) (fun _ => True) element_item
    (fun index (_ : Value) document =>
       document ← (if 0 <? Z.of_nat index then FastWriter.app_doc (codes ",") document else Ret document);
       child ← index_get (MkValue (d_array m) c) (Z.of_nat index);
       FastWriter.writeValue f yaml (default null child) document)
    0 (dense m) (fun j => comma (0 <? Z.of_nat j)) (fun _ => []).
Proof.
  intros IH Hd Ht j v d Hj _. cbn beta. rewrite Nat.add_0_l.
  destruct (element_get m c j v) as [E1 E2]; [lia|done|].
  rewrite fast_comma, bind_ret_l, E1, bind_ret_l, <- E2.
  rewrite Forall_forall in Hd. apply list_elem_of_lookup_2 in Hj.
  destruct (IH v (d ++ comma (0 <? Z.of_nat j)) (Hd _ Hj)) as (t & E3 & Ht').
  eexists _, t. split; [exact E3|]. split; [done|]. split; [by rewrite app_nil_r, app_assoc|].
  exists [], t, []. rewrite app_nil_r. split; [done|]. split; [constructor|]. split; [constructor|done].
Qed.

Lemma fast_member f yaml m c : fast_writes f yaml -> Forall (fun '(k, x) => cstring k /\ fits f x) m -> map_sorted m ->
  writes_item (fun d : list Z => d) (fun _ => True) member_item
    (fun index (kv : list Z * Value) document =>
       document ← (if 0 <? Z.of_nat index then FastWriter.app_doc (codes ",") document else Ret document);
       t ← valueToQuotedString (Some kv.1);
       document ← FastWriter.app_doc t document;
       document ← FastWriter.app_doc (codes (if yaml : bool then ": " else ":")) document;
       child ← member_get (MkValue (d_object m) c) kv.1;
       FastWriter.writeValue f yaml (default null child) document)
    0 m (fun j => comma (0 <? Z.of_nat j)) (fun _ => []).
Proof.
  intros IH Hd Hs j [k v] d Hj _. cbn beta. rewrite Nat.add_0_l. apply list_elem_of_lookup_2 in Hj.
  rewrite Forall_forall in Hd. destruct (Hd _ Hj) as [Hk Hv]. cbn [fst snd].
  destruct (valueToQuotedString_ok k Hk) as (s & E1 & Hes).
  rewrite fast_comma, bind_ret_l, E1, bind_ret_l, !app_doc_ok, bind_ret_l, app_doc_ok, bind_ret_l,
    (member_found m c k v), bind_ret_l by done. cbn [default from_option].
  edestruct (IH v) as (t & E3 & Ht'); [done|]. eexists _, ((34 :: s ++ [34]) ++ codes (if yaml then ": " else ":") ++ t).
  split; [exact E3|]. split; [done|]. split; [by app_norm; rewrite ?app_nil_r|].
  exists [], s, [], (if yaml then [32] else []), t, [].
  split; [by destruct yaml; app_norm; rewrite ?app_nil_r|]. split; [constructor|]. split; [done|]. split; [constructor|].
  split; [destruct yaml; repeat constructor|]. split; [constructor|done].
Qed.

Lemma fast_write f yaml : fast_writes f yaml.
Proof.
  induction f as [|f IH]; intros v doc Hv; [destruct Hv as (_ & _ & Hh); pose proof (height_pos v); lia|].
  destruct (container v) eqn:Ec.
  2: { rewrite fast_leaf by done. destruct (leaf_text_ok _ v Hv Ec) as (t & -> & Ht). by exists t. }
  destruct v as [[] c]; try discriminate Ec; cbn [FastWriter.writeValue type_ value_ getMemberNames];
    rewrite app_doc_ok, ?bind_ret_l.
  - pose proof (fits_array _ _ _ Hv) as (Hs & Ht & Hd). rewrite size_array, bind_ret_l by apply Hv.
    rewrite norm_array, s32_id by (unfold is_int, maxInt in *; lia). rewrite <- dense_length, cfor_cfold.
    destruct (decide (dense m = [])) as [->|Hn].
    + cbn [cfold]. rewrite bind_ret_l, app_doc_ok, <- app_assoc. eexists.
      split; [done|]. apply (text_empty_array []). constructor.
    + destruct (commas_before _ _ _ _ _ 0 (doc ++ codes "[") Hn I (fast_element f yaml m c IH Hd ltac:(lia)))
        as (d & ts & E & _ & Eo & Hts).
      rewrite E, bind_ret_l, app_doc_ok, Eo, <- !app_assoc. eexists. split; [done|].
      apply text_array. by apply items_elements.
  - pose proof (fits_object _ _ _ Hv) as (Hs & Hd). rewrite (norm_object f), cfold_keys by done.
    destruct (decide (m = [])) as [->|Hn].
    + cbn [cfold]. rewrite bind_ret_l, app_doc_ok, <- app_assoc. eexists.
      split; [done|]. apply (text_empty_object []). constructor.
    + destruct (commas_before _ _ _ _ _ 0 (doc ++ codes "{") Hn I (fast_member f yaml m c IH Hd Hs))
        as (d & ts & E & _ & Eo & Hts).
      rewrite E, bind_ret_l, app_doc_ok, Eo, <- !app_assoc. eexists. split; [done|].
      apply text_object. by apply items_members.
Qed.

(** ** Values the reader gives back unchanged *)

(** Numbers in the reader's types, doubles sixteen digits determine, arrays
    without gaps, no comments. *)
Fixpoint settled (v : Value) : Prop :=
  comments_ v = no_comments /\
  match value_ v with
  | d_int z => Z.abs z < int_limit (z <? 0)
  | d_uint z => maxInt < z < 4294967290
  | d_real x => reread x = x
  | d_array m => m = imap (fun i x => (Z.of_nat i, x)) m.*2 /\ all (fun '(_, c) => settled c) m
  | d_object m => all (fun '(_, c) => settled c) m
  | _ => True
  end.

(** The doubles of a value are determined by sixteen digits. *)
Fixpoint sixteen (v : Value) : Prop :=
  match value_ v with
  | d_real x => reread x = x
  | d_array m => all (fun '(_, c) => sixteen c) m
  | d_object m => all (fun '(_, c) => sixteen c) m
  | _ => True
  end.

Lemma number_settled t d : number_text t d -> sixteen (plain d) -> settled (plain d).
Proof.
  intros Ht. destruct Ht as [neg ds Hd Hn Hl| | |]; try done. intros _. split; [done|]. cbn [value_ plain].
  pose proof (dec_value_nonneg ds Hd). unfold integer, int_limit, maxInt in *. destruct neg.
  - destruct (Z.ltb_spec (- dec_value ds) 0); lia.
  - destruct (Z.leb_spec (dec_value ds) (2 ^ 31 - 1)); [|lia]. destruct (Z.ltb_spec (dec_value ds) 0); lia.
Qed.

Lemma array_settled vs : Forall (fun v => sixteen v -> settled v) vs -> sixteen (plain (array_of vs)) -> settled (plain (array_of vs)).
Proof.
  intros Hf Hs. split; [done|]. cbn [sixteen value_ plain array_of] in *. split.
  - f_equal. symmetry. rewrite fmap_imap, <- (list_fmap_id vs) at 1. apply list_eq. intros i. rewrite list_lookup_imap, list_lookup_fmap. by destruct (vs !! i).
  - rewrite all_Forall, Forall_forall in *. rewrite Forall_forall in Hf. intros [i x] Hin. specialize (Hs _ Hin).
    cbn in Hs. apply elem_of_lookup_imap in Hin as (j & y & [= -> ->] & Hy).
    apply Hf; [by eapply list_elem_of_lookup_2|done].
Qed.

Lemma members_kept (P : Value -> Prop) kvs : Forall (fun kv => P kv.2) kvs ->
  forall m, Forall (fun '(_, c) => P c) m -> Forall (fun '(_, c) => P c) (foldl add_member m kvs).
Proof.
  induction 1 as [|kv kvs Hk _ IH]; intros m Hm; [done|]. cbn [foldl]. apply IH. by apply map_update_Forall.
Qed.

Lemma object_settled kvs : Forall (fun kv => sixteen kv.2 -> settled kv.2) kvs ->
  sixteen (plain (object_of kvs)) -> settled (plain (object_of kvs)).
Proof.
  intros Hf Hs. split; [done|]. cbn [sixteen settled value_ plain object_of] in *.
  pose proof (members_kept (fun v => sixteen v -> settled v) kvs Hf [] (Forall_nil_2 _)) as Hm. rewrite all_Forall, Forall_forall in *.
  intros [k x] Hin. exact (Hm _ Hin (Hs _ Hin)).
Qed.

(** The value of a text is settled when its doubles are. *)
Lemma text_settled v t : json_text v t -> sixteen v -> settled v.
Proof.
  revert v t. apply (json_text_mut (fun v t _ => sixteen v -> settled v)
    (fun vs t _ => Forall (fun v => sixteen v -> settled v) vs)
    (fun kvs t _ => Forall (fun kv => sixteen kv.2 -> settled kv.2) kvs)); try done.
  - intros d t. apply number_settled.
  - intros vs t ?. apply array_settled.
  - intros kvs t ?. apply object_settled.
  - repeat constructor; auto.
  - repeat constructor; auto.
  - repeat constructor; auto.
  - repeat constructor; auto.
Qed.

Lemma indexed_find (xs : list Value) k i :
  map_find (Z.of_nat (k + i)) (imap (fun j x => (Z.of_nat (k + j), x)) xs) = xs !! i.
Proof.
  revert k i. induction xs as [|x xs IH]; intros k i; [done|]. cbn [imap map_find]. rewrite Nat.add_0_r.
  destruct i as [|i].
  - rewrite Nat.add_0_r, key_lt_irrefl, key_eq_refl. done.
  - replace (key_lt (Z.of_nat k) (Z.of_nat (k + S i))) with true by (symmetry; apply Z.ltb_lt; lia).
    rewrite Nat.add_succ_r, <- Nat.add_succ_l. change ((x :: xs) !! S i) with (xs !! i). rewrite <- (IH (S k) i). f_equal.
    apply imap_ext. intros j y _. cbn. by rewrite Nat.add_succ_r.
Qed.

Lemma indexed_top (xs : list Value) : top (imap (fun i x => (Z.of_nat i, x)) xs) = Z.of_nat (length xs).
Proof.
  unfold top. rewrite last_lookup, length_imap, list_lookup_imap. destruct (length xs) as [|n] eqn:E.
  - by destruct xs.
  - cbn [pred]. destruct (lookup_lt_is_Some_2 xs n) as [x ->]; [lia|]. cbn. lia.
Qed.

Lemma indexed_dense (xs : list Value) : dense (imap (fun i x => (Z.of_nat i, x)) xs) = xs.
Proof.
  apply list_eq. intros i. unfold dense. rewrite indexed_top, Nat2Z.id, list_lookup_fmap.
  destruct (decide (i < length xs)%nat) as [Hi|Hi].
  - rewrite lookup_seq_lt by done. pose proof (indexed_find xs 0 i) as E. cbn [Nat.add] in E.
    destruct (lookup_lt_is_Some_2 xs i Hi) as [x Hx]. rewrite Hx in E |- *. cbn. by rewrite E.
  - rewrite lookup_seq_ge, lookup_ge_None_2 by lia. done.
Qed.

Lemma all_in {A} (P : A -> Prop) l x : all P l -> x ∈ l -> P x.
Proof. rewrite all_Forall, Forall_forall. auto. Qed.

Lemma norm_settled v : wf v -> writable v -> settled v -> norm v = v.
Proof.
  induction v as [v IH] using Value_ind. destruct v as [d c]. intros Hw Hr [Hc Hd]. cbn [comments_] in Hc. subst c.
  rewrite Forall_forall in IH.
  assert (IHm : forall K (m : stdmap K Value), m.*2 = children d -> all (fun '(_, c) => wf c /\ writable c /\ settled c) m ->
            map_values norm m = m).
  { intros K m Em Ha. apply all_Forall in Ha. unfold map_values. rewrite <- (list_fmap_id m) at 2.
    apply list_fmap_ext. intros i [k x] Hi. cbn. f_equal. apply list_elem_of_lookup_2 in Hi.
    rewrite Forall_forall in Ha. destruct (Ha _ Hi) as (? & ? & ?). apply IH; [|done..].
    cbn [value_]. rewrite <- Em. apply list_elem_of_fmap. by exists (k, x). }
  destruct d as [|z|z|x|s|b|m|m]; try done; cbn [value_ norm wf writable] in *.
  - unfold norm_number, integer. destruct Hw as [_ Hw]. unfold is_int, maxInt in *. rewrite (proj2 (Z.ltb_lt _ _)) by done.
    destruct (Z.ltb_spec z 0); [unfold plain; do 2 f_equal; lia|]. rewrite (proj2 (Z.leb_le _ _)) by (unfold maxInt; lia).
    unfold plain. do 2 f_equal. lia.
  - unfold norm_number, integer, int_limit. unfold maxInt in *. rewrite (proj2 (Z.ltb_ge z 0)) by lia. cbv iota.
    rewrite (proj2 (Z.ltb_lt _ _)) by lia. rewrite (proj2 (Z.leb_gt _ _)) by (unfold maxInt; lia).
    unfold plain. do 2 f_equal. lia.
  - unfold Value_double. by rewrite Hd.
  - destruct Hw as [_ Hw]. destruct Hr as [s' ->]. unfold Value_string, plain. cbn. by rewrite upto_nul_id.
  - destruct Hd as [Em Ha]. destruct Hw as (_ & _ & Hw).
    rewrite (IHm Z m eq_refl).
    + rewrite Em, indexed_dense at 1. unfold array_of, plain. by rewrite <- Em.
    + apply all_Forall, Forall_forall. intros [i x] Hi.
      pose proof (all_in _ _ _ Hw Hi). pose proof (all_in _ _ _ Hr Hi). pose proof (all_in _ _ _ Ha Hi). cbv beta iota in *. tauto.
  - destruct Hw as (_ & _ & Hw). rewrite (IHm (list Z) m eq_refl); [done|].
    apply all_Forall, Forall_forall. intros [i x] Hi.
    pose proof (all_in _ _ _ Hw Hi). pose proof (all_in _ _ _ Hr Hi). pose proof (all_in _ _ _ Hd Hi). cbv beta iota in *. tauto.
Qed.

(** ** Documents *)

(** The document that [W] produces for [v] is read as the value it spells. *)
Definition reads_back (features : Features) (root : Value) (collect : bool) (v : Value) (W : cpp (list Z)) : Prop :=
  exists t, W = Ret t /\
    (Z.of_nat (length t) < 2 ^ 31 - 1 ->
     exists r, parse features t root collect = Ret (root_allowed features (norm v), r)
       /\ root_ r = assign root (norm v)).

Lemma document_reads_back features root collect v W w t w' : W = Ret (w ++ t ++ w') -> spaces w -> spaces w' ->
  json_text (norm v) t -> reads_back features root collect v W.
Proof.
  intros -> Hw Hw' Ht. exists (w ++ t ++ w'). split; [done|]. intros Hl.
  destruct (parse_ok features (norm v) w t w' root collect Ht Hw Hw' Hl) as (r & E & Er & _). by exists r.
Qed.



(** An array with a gap, holding an object and a large unsigned integer. *)
Definition roundtrip_sample : Value :=
  plain (d_array [(0, Value_int (-7)); (2, plain (d_object [([97; 34], Value_uint 4000000000)]))]).

Lemma roundtrip_sample_ok : wf roundtrip_sample /\ writable roundtrip_sample /\ uncommented roundtrip_sample.
Proof. split; [by apply wfb_wf; vm_compute|]. by repeat split. Qed.


