(* ===== verification/JsonTokens.v ===== *)
(** * The tokens of any text

    The scanner of the JSON reader ([JsonReader]) on an arbitrary text: every
    function that reads characters, comments and tokens returns, stays inside
    the text, and keeps the reader consistent ([ok]): the tree is well formed,
    the comments collected are comments, the value a comment may be added to
    exists.  The rules that follow a call through the reader's monad are here
    too; [JsonSafe] goes on with the values. *)
From Stdlib Require Import SpecFloat.
From S2P Require Import Prelude Words Buffers CString StdMap Decimal Double JsonValue JsonOps JsonReader.

(** ** Calls that return

    [ends m r Q]: from [r] the call returns, with a result and a reader in [Q]. *)
Definition ends {A} (m : RM A) (r : Reader) (Q : A -> Reader -> Prop) : Prop :=
  returns (m r) (fun '(a, r') => Q a r').

Lemma ends_ret {A} (a : A) r (Q : A -> Reader -> Prop) : Q a r -> ends (mret a) r Q.
Proof. done. Qed.

Lemma ends_mono {A} (m : RM A) r (P Q : A -> Reader -> Prop) :
  ends m r P -> (forall a r', P a r' -> Q a r') -> ends m r Q.
Proof. intros H HQ. eapply returns_mono; [exact H|]. intros [a r']. apply HQ. Qed.

Lemma ends_bind {A B} (m : RM A) (f : A -> RM B) r P Q :
  ends m r P -> (forall a r', P a r' -> ends (f a) r' Q) -> ends (m ≫= f) r Q.
Proof. intros H HQ. eapply returns_bind; [exact H|]. intros [a r']. apply HQ. Qed.

Lemma ends_gets {A B} (g : Reader -> A) (f : A -> RM B) r Q : ends (f (g r)) r Q -> ends (gets g ≫= f) r Q.
Proof. done. Qed.

Lemma ends_modify {B} g (f : unit -> RM B) r Q : ends (f tt) (g r) Q -> ends (modify g ≫= f) r Q.
Proof. done. Qed.

Lemma ends_lift {A B} (m : cpp A) (a : A) (f : A -> RM B) r Q :
  m = Ret a -> ends (f a) r Q -> ends (lift m ≫= f) r Q.
Proof. by intros ->. Qed.

(** A loop from an invariant, with what is left of the text as the variant. *)
Lemma ends_loop {S A} (left : S -> Reader -> nat) (inv : S -> Reader -> Prop) (body : S -> RM (S + A)) Q :
  (forall s r, inv s r ->
     ends (body s) r (fun o r' =>
       match o with inl s' => inv s' r' /\ (left s' r' < left s r)%nat | inr a => Q a r' end)) ->
  forall fuel s r, inv s r -> (left s r < fuel)%nat -> ends (rloop fuel body s) r Q.
Proof.
  intros Hb fuel. induction fuel as [|f IH]; intros s r Hi Hf; [lia|]. cbn [rloop].
  eapply ends_bind; [by apply Hb|]. intros [s'|a] r' H; [|done]. destruct H as [Hi' Hl]. apply IH; [done|lia].
Qed.

Ltac ends_gets := apply ends_gets.
Ltac ends_modify := apply ends_modify.
Ltac ends_with H := eapply ends_bind; [eapply H|].

(** ** The shape of a tree

    Comments change no type, and a new element no other one. *)
Definition type_at (v : Value) (q : pointer) : option ValueType := type_ <$> deref v q.

Definition grows (v w : Value) : Prop := forall q t, type_at v q = Some t -> type_at w q = Some t.

Lemma grows_refl v : grows v v.
Proof. by intros q t. Qed.

Lemma grows_trans u v w : grows u v -> grows v w -> grows u w.
Proof. intros H1 H2 q t H. by apply H2, H1. Qed.

Lemma type_at_valid v q t : type_at v q = Some t -> exists c, deref v q = Some c /\ type_ c = t.
Proof. unfold type_at. intros (c & E & ->)%fmap_Some. eauto. Qed.

Lemma type_at_is_Some v q : is_Some (type_at v q) <-> is_Some (deref v q).
Proof. unfold type_at. by rewrite fmap_is_Some. Qed.

Lemma type_set_child v s f : type_ (set_child v s f) = type_ v.
Proof. by destruct v as [[] c], s. Qed.

(** A write through a pointer is seen below it only. *)
Lemma type_at_store_ne v p q f x : deref v p = Some x -> ~ p `prefix_of` q ->
  type_at (store v p f) q = type_at v q.
Proof.
  revert v q. induction p as [|s p IH]; intros v q E Hq; [by destruct Hq; apply prefix_nil|].
  cbn [deref] in E. apply bind_Some in E as (y & E1 & E2). destruct q as [|s' q]; unfold type_at; cbn [deref store].
  { cbn. by rewrite type_set_child. }
  destruct (decide (s = s')) as [<-|Hs].
  - rewrite (child_set_child _ _ _ _ E1), E1. cbn. apply IH; [done|]. intros Hp. apply Hq. by apply prefix_cons.
  - by rewrite child_set_child_ne.
Qed.

Lemma type_at_store v p q f x : deref v p = Some x -> type_at (store v p f) (p ++ q) = type_at (f x) q.
Proof. intros E. unfold type_at. by rewrite deref_app, (deref_store _ _ _ _ E). Qed.

Lemma type_at_app v p q x : deref v p = Some x -> type_at v (p ++ q) = type_at x q.
Proof. intros E. unfold type_at. by rewrite deref_app, E. Qed.

Lemma grows_store v p f x : deref v p = Some x -> grows x (f x) -> grows v (store v p f).
Proof.
  intros E Hg q t Hq. destruct (decide (p `prefix_of` q)) as [[q' ->]|Hn].
  - rewrite (type_at_store _ _ _ _ _ E). apply Hg. by rewrite <- (type_at_app _ _ _ _ E).
  - by rewrite (type_at_store_ne _ _ _ _ _ E).
Qed.

(** Values that differ in comments only. *)
Lemma grows_same_value v w : value_ w = value_ v -> grows v w.
Proof.
  intros E [|s q] t; unfold type_at; cbn [deref]; [by cbn; unfold type_; rewrite E|].
  assert (Ec : child w s = child v s) by (unfold child; destruct s; by rewrite E). by rewrite Ec.
Qed.

(** Containers that keep their elements. *)
Lemma grows_children v w : type_ w = type_ v ->
  (forall s c, child v s = Some c -> child w s = Some c) -> grows v w.
Proof.
  intros Et Hc [|s q] t; unfold type_at; cbn [deref]; [cbn; by rewrite Et|].
  destruct (child v s) as [c|] eqn:E; [|done]. by rewrite (Hc _ _ E).
Qed.

(** [setComment] on a text that is a comment. *)
Definition comment_text (s : list Z) : Prop := Forall is_u8 s /\ head s = Some 47.

Lemma setComment_ok v s p : comment_text s -> wf v ->
  exists v', setComment v s p = Ret v' /\ value_ v' = value_ v /\ wf v'.
Proof.
  intros [Hs Hh] Hv. destruct s as [|c s]; [done|]. injection Hh as ->.
  assert (E : exists v', setComment v (47 :: s) p = Ret v' /\ value_ v' = value_ v) by (eexists; done).
  destruct E as (v' & E & Ev). exists v'. split; [done|]. split; [done|]. by eapply comment_wf.
Qed.

Lemma comment_text_app s t : comment_text s -> Forall is_u8 t -> comment_text (s ++ t).
Proof. intros [Hs Hh] Ht. split; [by apply Forall_app|]. by destruct s. Qed.

Section tokens.
Variable inp : Input.

(** The characters [b], ..., [e - 1] of the text are characters of a number. *)
Definition numeric (b e : Z) : Prop :=
  forall i, b <= i < e -> exists c, text inp !! Z.to_nat i = Some c /\ is_number_char c = true.

(** The text is bytes and can be read one character past its end, as the
    terminator of a string can. *)
Hypothesis input_end : 0 <= end_ inp < Z.of_nat (length (text inp)).
Hypothesis input_bytes : Forall is_u8 (text inp).

(** ** The reader between two calls *)

(** A token inside the text. *)
Definition inside (t : Token) : Prop := 0 <= tok_start t <= end_ inp /\ tok_start t <= tok_end t <= end_ inp.

Definition located (e : ErrorInfo) : Prop :=
  inside (err_token e) /\ match err_extra e with Some i => 0 <= i <= end_ inp | None => True end.

(** [lastValue_] names an element of the tree, which ends before [current_]. *)
Definition last_ok (r : Reader) : Prop :=
  match lastValue_ r, lastValueEnd_ r with
  | None, None => True
  | Some q, Some e => is_Some (type_at (root_ r) q) /\ 0 <= e <= current_ r /\ collectComments_ inp = true
  | _, _ => False
  end.

Record ok (r : Reader) : Prop := {
  ok_current : 0 <= current_ r <= end_ inp;
  ok_comments : commentsBefore_ r = [] \/ comment_text (commentsBefore_ r);
  ok_last : last_ok r;
  ok_errors : Forall located (errors_ r);
  ok_root : wf (root_ r)
}.

(** What is left of the text. *)
Definition left (r : Reader) : nat := Z.to_nat (end_ inp - current_ r).

(** [r'] is [r] after reading tokens: further on, comments added. *)
Record scans (r r' : Reader) : Prop := {
  scans_current : current_ r <= current_ r';
  scans_nodes : nodes_ r' = nodes_ r;
  scans_errors : errors_ r' = errors_ r;
  scans_last : lastValue_ r' = lastValue_ r;
  scans_last_end : lastValueEnd_ r' = lastValueEnd_ r;
  scans_root : grows (root_ r) (root_ r');
  scans_ok : ok r'
}.

Lemma scans_refl r : ok r -> scans r r.
Proof. intros H. split; try done; try lia. apply grows_refl. Qed.

Lemma scans_trans r r' r'' : scans r r' -> scans r' r'' -> scans r r''.
Proof.
  intros [A1 A2 A3 A4 A5 A6 A7] [B1 B2 B3 B4 B5 B6 B7].
  split; try congruence; try lia. by eapply grows_trans.
Qed.

Lemma scans_move r c : ok r -> current_ r <= c <= end_ inp -> scans r (set_current c r).
Proof.
  intros [H1 H2 H3 H4 H5] Hc. split; cbn; try done; try lia; [apply grows_refl|].
  split; cbn; try done; try lia. unfold last_ok in *. cbn. destruct (lastValue_ r), (lastValueEnd_ r); try done.
  destruct H3 as (? & ? & ?). split; [done|]. split; [lia|done].
Qed.

Lemma left_less r r' : ok r' -> current_ r < current_ r' -> (left r' < left r)%nat.
Proof. intros [H _ _ _ _] Hc. unfold left. lia. Qed.

Lemma left_fuel r : ok r -> (left r < loop_fuel inp)%nat.
Proof. intros [H _ _ _ _]. unfold left, loop_fuel. lia. Qed.

(** ** Characters *)

Lemma char_ok i : 0 <= i <= end_ inp ->
  exists c, text inp !! Z.to_nat i = Some c /\ buf_get (text inp) i = Ret c.
Proof.
  intros Hi. destruct (lookup_lt_is_Some_2 (text inp) (Z.to_nat i)) as [c E]; [lia|].
  exists c. split; [done|]. apply buf_get_ok; [lia|done].
Qed.

Lemma between_ok b e : 0 <= b <= e -> e <= end_ inp ->
  buf_read (text inp) b (e - b) = Ret (slice (Z.to_nat b) (Z.to_nat (e - b)) (text inp)).
Proof. intros Hb He. apply buf_read_ok; lia. Qed.

Lemma between_bytes b n : Forall is_u8 (slice b n (text inp)).
Proof. by apply Forall_slice. Qed.

(** The next character, or a zero at the end. *)
Definition reads_char (r : Reader) (c : Z) (r' : Reader) : Prop :=
  current_ r = end_ inp /\ c = 0 /\ r' = r
  \/ current_ r < end_ inp /\ text inp !! Z.to_nat (current_ r) = Some c /\ r' = set_current (current_ r + 1) r.

Lemma getNextChar_ends r : ok r -> ends (getNextChar inp) r (reads_char r).
Proof.
  intros H. pose proof (ok_current _ H) as Hc. unfold getNextChar. ends_gets. destruct (Z.eqb_spec (current_ r) (end_ inp)).
  { apply ends_ret. by left. }
  destruct (char_ok (current_ r)) as (c & E & Eg); [lia|]. eapply ends_lift; [exact Eg|].
  ends_modify. apply ends_ret. right. split; [lia|done].
Qed.

Lemma reads_char_scans r c r' : ok r -> reads_char r c r' -> scans r r'.
Proof.
  intros H [(_ & _ & ->)|(Hc & _ & ->)]; [by apply scans_refl|]. pose proof (ok_current _ H). apply scans_move; [done|lia].
Qed.

(** A loop that moves over characters. *)
Lemma scan_loop {S A} (inv : S -> Reader -> Prop) (body : S -> RM (S + A)) (Q : A -> Reader -> Prop) :
  (forall s r, inv s r -> ok r) ->
  (forall s r, inv s r ->
     ends (body s) r (fun o r' =>
       match o with inl s' => inv s' r' /\ current_ r < current_ r' | inr a => Q a r' end)) ->
  forall s r, inv s r -> ends (rloop (loop_fuel inp) body s) r Q.
Proof.
  intros Ho Hb s r Hi. apply (ends_loop (fun _ => left) inv); [|done|by apply left_fuel, (Ho s)].
  intros s' r' Hi'. eapply ends_mono; [by apply Hb|]. intros [s2|a] r2; [|done]. intros [H1 H2]. split; [done|].
  apply left_less; [by apply (Ho s2)|done].
Qed.

Lemma skipSpaces_ends r : ok r -> ends (skipSpaces inp) r (fun _ r' => scans r r').
Proof.
  intros H. apply (scan_loop (fun _ r' => scans r r')); [by intros _ r' []| |by apply scans_refl].
  intros _ r' Hs. pose proof (scans_ok _ _ Hs) as H'. pose proof (ok_current _ H') as Hc. ends_gets.
  destruct (Z.eqb_spec (current_ r') (end_ inp)); [by apply ends_ret|].
  destruct (char_ok (current_ r')) as (c & _ & Eg); [lia|]. eapply ends_lift; [exact Eg|].
  case_match; [|by apply ends_ret]. ends_modify. apply ends_ret. split; [|cbn; lia].
  eapply scans_trans; [done|]. apply scans_move; [done|lia].
Qed.

Lemma match_back_ends cur p i r : 0 <= cur -> cur + Z.of_nat i <= end_ inp ->
  ends (match_back inp cur p i) r (fun _ r' => r' = r).
Proof.
  intros H0. induction i as [|i IH]; intros Hi; cbn [match_back]; [by apply ends_ret|].
  destruct (char_ok (cur + Z.of_nat i)) as (c & _ & E); [lia|]. eapply ends_lift; [exact E|].
  case_match; [by apply ends_ret|]. apply IH. lia.
Qed.

Lemma match_ends p r : ok r -> ends (match_ inp p) r (fun _ r' => scans r r').
Proof.
  intros H. pose proof (ok_current _ H) as Hc. unfold match_. ends_gets.
  destruct (Z.ltb_spec (end_ inp - current_ r) (Z.of_nat (length p))); [by apply ends_ret, scans_refl|].
  eapply ends_bind; [apply match_back_ends; lia|]. intros b r' ->. destruct b; [|by apply ends_ret, scans_refl].
  ends_modify. apply ends_ret. apply scans_move; [done|lia].
Qed.

(** ** Comments *)

Lemma slice_comment b e : 0 <= b < e -> e <= end_ inp -> text inp !! Z.to_nat b = Some 47 ->
  comment_text (slice (Z.to_nat b) (Z.to_nat (e - b)) (text inp)).
Proof.
  intros Hb He E. split; [apply between_bytes|].
  rewrite head_lookup, lookup_slice, decide_True, Nat.add_0_r by lia. done.
Qed.

(** A write through a pointer that keeps the elements. *)
Lemma scans_store r q x v : ok r -> deref (root_ r) q = Some x -> grows x v -> wf v ->
  scans r (set_root (store (root_ r) q (fun _ => v)) r).
Proof.
  intros [H1 H2 H3 H4 H5] E Ev Hv.
  assert (Hg : grows (root_ r) (store (root_ r) q (fun _ => v))) by (by eapply grows_store).
  split; cbn; try done; try lia. split; cbn; try done.
  - unfold last_ok in *. cbn. destruct (lastValue_ r) as [p|], (lastValueEnd_ r); try done.
    destruct H3 as ([t Ht] & H3). split; [|done]. exists t. by apply Hg.
  - eapply store_wf; [done|exact E|done].
Qed.

Lemma addComment_ends b e pl r : ok r -> 0 <= b < e -> e <= end_ inp -> text inp !! Z.to_nat b = Some 47 ->
  collectComments_ inp = true -> (pl = commentAfterOnSameLine -> is_Some (lastValue_ r)) ->
  ends (addComment inp b e pl) r (fun _ r' => scans r r').
Proof.
  intros H Hb He E Hc Hl. pose proof (slice_comment _ _ Hb He E) as Ht. unfold addComment.
  rewrite Hc. eapply ends_lift; [done|]. eapply (ends_lift (buf_read _ _ _)); [apply between_ok; lia|].
  set (s := slice _ _ _) in *.
  assert (Hbefore : ends (before ← gets commentsBefore_;
      let before := if bool_decide (before = []) then before else before ++ [10] in
      modify (set_comments (before ++ s))) r (fun _ r' => scans r r')).
  { ends_gets. split; cbn; try done; try lia; [apply grows_refl|]. destruct H as [H1 H2 H3 H4 H5].
    split; cbn; try done. right. case_bool_decide as En; [by rewrite En|].
    destruct H2 as [H2|H2]; [done|]. apply comment_text_app; [|by destruct Ht].
    apply comment_text_app; [done|]. by repeat constructor. }
  destruct pl; [exact Hbefore| |exact Hbefore]. clear Hbefore.
  ends_gets. destruct (Hl eq_refl) as [q Eq]. rewrite Eq. ends_gets.
  pose proof (ok_last _ H) as Hq. unfold last_ok in Hq. rewrite Eq in Hq.
  destruct (lastValueEnd_ r); [|done]. destruct Hq as [Hq _]. apply type_at_is_Some in Hq as [x Ex]. rewrite Ex.
  destruct (setComment_ok x s commentAfterOnSameLine Ht) as (v & Ev & Hv & Hw); [by eapply wf_deref; [apply ok_root|]|].
  eapply ends_lift; [exact Ev|]. eapply scans_store; try done. by apply grows_same_value.
Qed.

Lemma readCStyleComment_ends r : ok r -> ends (readCStyleComment inp) r (fun _ r' => scans r r').
Proof.
  intros H. unfold readCStyleComment. eapply ends_bind.
  - apply (scan_loop (fun _ r' => scans r r') _ (fun _ r' => scans r r')); [by intros _ r' []| |by apply scans_refl].
    intros _ r' Hs. pose proof (scans_ok _ _ Hs) as H'. ends_gets.
    destruct (Z.eqb_spec (current_ r') (end_ inp)) as [|Hn]; [by apply ends_ret|].
    ends_with getNextChar_ends; [done|]. intros c r1 Hr. pose proof (reads_char_scans _ _ _ H' Hr) as H1.
    assert (Hc : current_ r' < current_ r1) by (destruct Hr as [(? & _)|(_ & _ & ->)]; [done|cbn; lia]).
    pose proof (scans_trans _ _ _ Hs H1) as H2. case_match; [|by apply ends_ret]. ends_gets.
    destruct (char_ok (current_ r1)) as (d & _ & Ed); [exact (ok_current _ (scans_ok _ _ H1))|].
    eapply ends_lift; [exact Ed|]. by case_match; apply ends_ret.
  - intros [] r1 H1. ends_with getNextChar_ends; [by eapply scans_ok|]. intros c r2 Hr. apply ends_ret.
    eapply scans_trans; [exact H1|]. eapply reads_char_scans; [by eapply scans_ok|done].
Qed.

Lemma readCppStyleComment_ends r : ok r -> ends (readCppStyleComment inp) r (fun _ r' => scans r r').
Proof.
  intros H. unfold readCppStyleComment. apply (ends_bind _ _ _ (fun _ r' => scans r r')); [|intros [] r1 H1; by apply ends_ret].
  apply (scan_loop (fun _ r' => scans r r') _ (fun _ r' => scans r r')); [by intros _ r' []| |by apply scans_refl].
  intros _ r' Hs. pose proof (scans_ok _ _ Hs) as H'. ends_gets.
  destruct (Z.eqb_spec (current_ r') (end_ inp)) as [|Hn]; [by apply ends_ret|].
  ends_with getNextChar_ends; [done|]. intros c r1 Hr. pose proof (reads_char_scans _ _ _ H' Hr) as H1.
  assert (Hc : current_ r' < current_ r1) by (destruct Hr as [(? & _)|(_ & _ & ->)]; [done|cbn; lia]).
  pose proof (scans_trans _ _ _ Hs H1) as H2. by case_match; apply ends_ret.
Qed.

(** The slash before [current_] opens the comment. *)
Lemma readComment_ends r : ok r -> 1 <= current_ r -> text inp !! Z.to_nat (current_ r - 1) = Some 47 ->
  (forall e, lastValueEnd_ r = Some e -> e <= current_ r - 1) ->
  ends (readComment inp) r (fun _ r' => scans r r').
Proof.
  intros H H1 E Hl. unfold readComment. ends_gets. ends_with getNextChar_ends; [done|].
  intros c r1 Hr. pose proof (reads_char_scans _ _ _ H Hr) as S1. pose proof (scans_ok _ _ S1) as O1.
  eapply (ends_bind _ _ _ (fun _ r' => scans r1 r')).
  { case_match; [by apply readCStyleComment_ends|]. case_match; [by apply readCppStyleComment_ends|].
    by apply ends_ret, scans_refl. }
  intros b r2 S2. pose proof (scans_trans _ _ _ S1 S2) as S. destruct b; [|by apply ends_ret].
  cbn [negb]. case_match eqn:Ec; [|by apply ends_ret]. ends_gets. ends_gets.
  pose proof (scans_ok _ _ S) as O2. pose proof (ok_current _ O2) as C2. pose proof (scans_current _ _ S) as C.
  eapply (ends_bind _ _ _ (fun p r' => r' = r2 /\ (p = commentAfterOnSameLine -> is_Some (lastValue_ r2)))).
  - destruct (lastValueEnd_ r2) as [e|] eqn:Ee; [|by apply ends_ret].
    pose proof (ok_last _ O2) as Hq. unfold last_ok in Hq. rewrite Ee in Hq. destruct (lastValue_ r2); [|done].
    destruct Hq as (_ & He & _). rewrite (scans_last_end _ _ S) in Ee. specialize (Hl _ Ee).
    eapply (ends_lift (buf_read _ _ _)); [apply between_ok; lia|]. case_match; [by apply ends_ret|].
    eapply (ends_lift (buf_read _ _ _)); [apply between_ok; lia|]. by apply ends_ret.
  - intros pl r3 [-> Hp]. eapply ends_bind; [apply addComment_ends; try done; lia|].
    intros [] r3 S3. apply ends_ret. by eapply scans_trans.
Qed.

(** ** Numbers, strings, tokens *)

Lemma numeric_snoc b e c : b <= e -> numeric b e -> text inp !! Z.to_nat e = Some c -> is_number_char c = true ->
  numeric b (e + 1).
Proof. intros Hb Hn E Hc i Hi. destruct (decide (i = e)) as [->|]; [eauto|]. apply Hn. lia. Qed.

Lemma numeric_cons b e c : text inp !! Z.to_nat b = Some c -> is_number_char c = true -> numeric (b + 1) e ->
  numeric b e.
Proof. intros E Hc Hn i Hi. destruct (decide (i = b)) as [->|]; [eauto|]. apply Hn. lia. Qed.

Lemma readNumber_ends r : ok r ->
  ends (readNumber inp) r (fun _ r' => scans r r' /\ numeric (current_ r) (current_ r')).
Proof.
  intros H. unfold readNumber.
  apply (scan_loop (fun _ r' => scans r r' /\ numeric (current_ r) (current_ r'))); [by intros _ r' [[]]| |].
  2:{ split; [by apply scans_refl|]. intros i Hi. lia. }
  intros _ r' [Hs Hn]. pose proof (scans_ok _ _ Hs) as H'. pose proof (ok_current _ H') as Hc. ends_gets.
  destruct (Z.eqb_spec (current_ r') (end_ inp)); [by apply ends_ret|].
  destruct (char_ok (current_ r')) as (c & E & Eg); [lia|]. eapply ends_lift; [exact Eg|].
  destruct (is_number_char c) eqn:En; cbn [negb]; [|by apply ends_ret]. ends_modify. apply ends_ret.
  split; [|cbn; lia]. split; [eapply scans_trans; [done|]; apply scans_move; [done|lia]|].
  cbn. eapply numeric_snoc; try done. apply Hs.
Qed.

Lemma string_step_ends r c r' : scans r r' -> c <> 34 ->
  ends (string_step inp c) r' (fun o r2 =>
    match o with
    | inl c' => (scans r r2 /\ c' <> 34) /\ current_ r' < current_ r2
    | inr b => scans r r2 /\ (b = true -> current_ r < current_ r2)
    end).
Proof.
  intros Hs Hc. pose proof (scans_ok _ _ Hs) as H'. unfold string_step. ends_gets.
  destruct (Z.eqb_spec (current_ r') (end_ inp)) as [|Hn]; [apply ends_ret; split; [done|lia]|].
  ends_with getNextChar_ends; [done|]. intros d r1 Hr. pose proof (reads_char_scans _ _ _ H' Hr) as S1.
  assert (Hd : current_ r' < current_ r1) by (destruct Hr as [(? & _)|(_ & _ & ->)]; [done|cbn; lia]).
  pose proof (scans_trans _ _ _ Hs S1) as S. pose proof (scans_current _ _ Hs) as C.
  destruct (Z.eqb_spec d 92) as [->|].
  - ends_with getNextChar_ends; [by eapply scans_ok|]. intros e r2 Hr2.
    pose proof (reads_char_scans _ _ _ (scans_ok _ _ S) Hr2) as S2. apply ends_ret.
    pose proof (scans_current _ _ S2). split; [|lia]. split; [by eapply scans_trans|done].
  - destruct (Z.eqb_spec d 34) as [->|]; apply ends_ret; [|done]. split; [done|]. intros _. lia.
Qed.

Lemma readString_ends r : ok r ->
  ends (readString inp) r (fun b r' => scans r r' /\ (b = true -> current_ r < current_ r')).
Proof.
  intros H. unfold readString. apply (scan_loop (fun c r' => scans r r' /\ c <> 34)).
  - by intros c r' [[] _].
  - intros c r' [Hs Hc]. by apply string_step_ends.
  - split; [by apply scans_refl|done].
Qed.

(** What [readToken] promises about a token read from [r] to [r']. *)
Record reads_token (r : Reader) (tk : Token) (r' : Reader) : Prop := {
  token_scans : scans r r';
  token_start : current_ r <= tok_start tk <= tok_end tk;
  token_end : tok_end tk = current_ r';
  token_long : tok_type tk <> tokenEndOfStream -> tok_start tk < tok_end tk;
  token_quotes : tok_type tk = tokenString -> tok_start tk + 2 <= tok_end tk;
  token_number : tok_type tk = tokenNumber -> numeric (tok_start tk) (tok_end tk)
}.

Lemma token_class_ends c r : ok r -> 1 <= current_ r -> text inp !! Z.to_nat (current_ r - 1) = Some c ->
  (forall e, lastValueEnd_ r = Some e -> e <= current_ r - 1) ->
  ends (token_class inp c) r (fun '(ty, b) r' => scans r r' /\
    (b = true -> ty = tokenString -> current_ r < current_ r') /\
    (ty = tokenNumber -> numeric (current_ r - 1) (current_ r'))).
Proof.
  intros H H1 E Hl. unfold token_class.
  assert (Ht : forall ty b, ty <> tokenString -> ty <> tokenNumber -> forall r', scans r r' ->
    scans r r' /\ (b = true -> ty = tokenString -> current_ r < current_ r') /\
    (ty = tokenNumber -> numeric (current_ r - 1) (current_ r'))) by done.
  pose proof (scans_refl _ H) as Hr.
  repeat match goal with
  | |- ends (if _ then mret _ else _) _ _ => case_match; [by apply ends_ret, Ht|]
  end.
  destruct (Z.eqb_spec c 34).
  { ends_with readString_ends; [done|]. intros b r' [Hs Hb]. apply ends_ret.
    split; [done|]. split; [by intros Eb _; apply Hb|done]. }
  destruct (Z.eqb_spec c 47) as [->|].
  { ends_with readComment_ends; [done..|]. intros b r' Hs. by apply ends_ret, Ht. }
  destruct (isdigit c || (c =? 45)) eqn:Ed.
  { ends_with readNumber_ends; [done|]. intros b r' [Hs Hn]. apply ends_ret. split; [done|]. split; [done|].
    intros _. eapply numeric_cons; [exact E| |by rewrite Z.sub_add].
    unfold is_number_char, isdigit, char_in in *. cbn. lia. }
  repeat match goal with
  | |- ends (if _ then (_ ≫= _) else _) _ _ =>
      case_match; [ends_with match_ends; [done|]; intros b r' Hs; by apply ends_ret, Ht|]
  | |- ends (if _ then mret _ else _) _ _ => case_match; [by apply ends_ret, Ht|]
  end.
  by apply ends_ret, Ht.
Qed.

Lemma readToken_ends r : ok r -> ends (readToken inp) r (reads_token r).
Proof.
  intros H. unfold readToken. ends_with skipSpaces_ends; [done|]. intros [] r1 S1. ends_gets.
  pose proof (scans_ok _ _ S1) as O1. pose proof (scans_current _ _ S1) as C1.
  ends_with getNextChar_ends; [done|]. intros c r2 [(Hc & -> & ->)|(Hc & E & ->)].
  { apply ends_gets, ends_ret. split; cbn; try done; lia. }
  assert (S2 : scans r1 (set_current (current_ r1 + 1) r1)) by (apply scans_move; [done|lia]).
  pose proof (ok_current _ O1) as C0. eapply ends_bind.
  { apply token_class_ends; cbn; [by eapply scans_ok|lia|by rewrite Z.add_simpl_r|].
    intros e Ee. pose proof (ok_last _ O1) as Hq. unfold last_ok in Hq. rewrite Ee in Hq.
    destruct (lastValue_ r1); [lia|done]. }
  intros [ty b] r3 (S3 & Hs & Hn). cbn in Hs, Hn. pose proof (scans_current _ _ S3) as C3. cbn in C3.
  apply ends_gets, ends_ret. split; cbn; try lia.
  - eapply scans_trans; [exact S1|]. by eapply scans_trans.
  - intros Ht. destruct b; [|done]. specialize (Hs eq_refl Ht). lia.
  - intros Ht. destruct b; [|done]. specialize (Hn Ht). by rewrite Z.add_simpl_r in Hn.
Qed.

Lemma reads_token_left r tk r' : reads_token r tk r' -> tok_type tk <> tokenEndOfStream -> current_ r < current_ r'.
Proof. intros [H1 H2 H3 H4 _ _] Ht. specialize (H4 Ht). lia. Qed.

Lemma reads_token_inside r tk r' : ok r -> reads_token r tk r' -> inside tk.
Proof.
  intros H [H1 H2 H3 _ _ _]. pose proof (ok_current _ H). pose proof (ok_current _ (scans_ok _ _ H1)).
  unfold inside. lia.
Qed.

Lemma reads_token_after r r1 tk r' : scans r r1 -> reads_token r1 tk r' -> reads_token r tk r'.
Proof.
  intros S [H1 H2 H3 H4 H5 H6]. pose proof (scans_current _ _ S).
  split; try done; [by eapply scans_trans|lia].
Qed.

(** Tokens up to one that is not a comment. *)
Lemma skip_comments_ends r tk r1 : ok r -> reads_token r tk r1 ->
  ends (skip_comments inp tk) r1 (reads_token r).
Proof.
  intros H Ht. unfold skip_comments.
  apply (ends_loop (fun tk r' => left r' + if bool_decide (tok_type tk = tokenComment) then 1 else 0)%nat
    (reads_token r)); [|done|].
  - intros tk1 r2 H2. pose proof (token_scans _ _ _ H2) as S2. case_bool_decide as E; [|by apply ends_ret].
    ends_with readToken_ends; [by eapply scans_ok|]. intros tk3 r3 H3. apply ends_ret.
    split; [by eapply reads_token_after|]. pose proof (scans_current _ _ (token_scans _ _ _ H3)).
    pose proof (ok_current _ (scans_ok _ _ (token_scans _ _ _ H3))). unfold left. case_bool_decide as E3; [|lia].
    apply reads_token_left in H3; [lia|by rewrite E3].
  - pose proof (left_fuel _ H). case_bool_decide as E; [|pose proof (left_fuel _ (scans_ok _ _ (token_scans _ _ _ Ht))); lia].
    apply reads_token_left in Ht as Hl; [|by rewrite E]. apply left_less in Hl; [lia|]. apply Ht.
Qed.

Lemma skipCommentTokens_ends r : ok r -> ends (skipCommentTokens inp) r (reads_token r).
Proof.
  intros H. unfold skipCommentTokens. case_match; [|by apply readToken_ends].
  apply (scan_loop (fun _ r' => scans r r')); [by intros _ r' []| |by apply scans_refl].
  intros _ r1 S1. ends_with readToken_ends; [by eapply scans_ok|]. intros tk r2 H2. apply ends_ret.
  case_bool_decide as Et; [|by eapply reads_token_after].
  split; [eapply scans_trans; [exact S1|apply H2]|]. eapply reads_token_left; [exact H2|]. by rewrite Et.
Qed.

(** ** Errors and recovery *)

(** A call succeeds without a new error, or fails with at least one. *)
Definition reports (b : bool) (r r' : Reader) : Prop :=
  if b then errors_ r' = errors_ r else exists e es, errors_ r' = errors_ r ++ e :: es.

Lemma ok_add_error r e : ok r -> located e -> ok (set_errors (errors_ r ++ [e]) r).
Proof. intros [H1 H2 H3 H4 H5] He. split; try done. cbn. apply Forall_app. by split; [|constructor]. Qed.

Lemma recoverFromError_ends t r : ok r -> ends (recoverFromError inp t) r (fun b r' => b = false /\ scans r r').
Proof.
  intros H. unfold recoverFromError. ends_gets. eapply (ends_bind _ _ _ (fun _ r' => scans r r')).
  - apply (scan_loop (fun _ r' => scans r r') _ (fun _ r' => scans r r')); [by intros _ r' []| |by apply scans_refl].
    intros _ r1 S1. ends_with readToken_ends; [by eapply scans_ok|]. intros tk r2 H2. apply ends_ret.
    pose proof (token_scans _ _ _ H2) as S2. pose proof (scans_trans _ _ _ S1 S2) as S.
    destruct (_ || _) eqn:E; [done|]. split; [done|]. eapply reads_token_left; [exact H2|]. intros Et.
    by rewrite Et, orb_true_r in E.
  - intros [] r' S. ends_modify. apply ends_ret. split; [done|]. cbv beta.
    rewrite take_ge by (by rewrite (scans_errors _ _ S)). by destruct r'.
Qed.
End tokens.
