(* ===== verification/JsonSafe.v ===== *)
(** * The JSON reader on any text

    Whatever the text, the reader of [JsonReader] returns: no loop runs for
    ever, no assertion fails, nothing outside the text is touched, the tree it
    builds is well formed, and it reports failure exactly when it recorded an
    error.  The one proviso is the local buffer of [decodeDouble]: a number of
    32 characters writes past it. *)
From Stdlib Require Import SpecFloat.
From S2P Require Import Prelude Words Buffers CString StdMap Decimal Double DoubleValid JsonValue JsonOps JsonWriter JsonReader JsonGrammar JsonRead JsonTokens.

Section safe.
Variable inp : Input.
Hypothesis input_end : 0 <= end_ inp < Z.of_nat (length (text inp)).
Hypothesis input_bytes : Forall is_u8 (text inp).
(** The text fits an [int], and no number in it has 32 characters. *)
Hypothesis input_int : end_ inp < maxInt.
Hypothesis input_numbers : forall b e, 0 <= b -> numeric inp b e -> e - b < 32.

Lemma ends_ok {A B} (m : RM A) (f : A -> RM B) r a r' Q : m r = Ret (a, r') -> ends (f a) r' Q -> ends (m ≫= f) r Q.
Proof. intros E. unfold ends. by rewrite (rm_step _ _ _ _ _ E). Qed.

(** ** Reading at a place of the tree

    [walks p r r']: from [r] to [r'] only the element at [p] was read. *)
Record walks (p : pointer) (r r' : Reader) : Prop := {
  walks_current : current_ r <= current_ r';
  walks_nodes : nodes_ r' = nodes_ r;
  walks_tree : forall q t, ~ p `prefix_of` q -> type_at (root_ r) q = Some t -> type_at (root_ r') q = Some t;
  walks_here : is_Some (type_at (root_ r') p);
  walks_last : lastValue_ r' = lastValue_ r \/ lastValue_ r' = Some p;
  walks_ok : ok inp r'
}.

(** [lastValue_] is not an element of the one at [p]. *)
Definition not_below (p : pointer) (r : Reader) : Prop :=
  forall q, lastValue_ r = Some q -> p `prefix_of` q -> q = p.

(** The top node is the element at [p]; a value can be read into it. *)
Record placed (p : pointer) (ns : list pointer) (r : Reader) : Prop := {
  placed_ok : ok inp r;
  placed_nodes : nodes_ r = p :: ns;
  placed_here : is_Some (type_at (root_ r) p)
}.

Definition ready (p : pointer) (ns : list pointer) (r : Reader) : Prop := placed p ns r /\ not_below p r.

Lemma scans_walks p r r' : scans inp r r' -> is_Some (type_at (root_ r) p) -> walks p r r'.
Proof.
  intros [H1 H2 H3 H4 H5 H6 H7] [t Ht]. split; try done; [by intros q u _ ?; apply H6|by exists t; apply H6|by left].
Qed.

Lemma walks_trans p r r' r'' : walks p r r' -> walks p r' r'' -> walks p r r''.
Proof.
  intros [A1 A2 A3 A4 A5 A6] [B1 B2 B3 B4 B5 B6]. split; try congruence; try lia.
  - intros q t Hq Ht. by apply B3, A3.
  - destruct B5 as [-> | ->]; [done|by right].
Qed.

Lemma placed_scans p ns r r' : placed p ns r -> scans inp r r' -> placed p ns r'.
Proof. intros [H1 H2 [t Ht]] [S1 S2 S3 S4 S5 S6 S7]. split; [done|congruence|by exists t; apply S6]. Qed.

Lemma ready_scans p ns r r' : ready p ns r -> scans inp r r' -> ready p ns r'.
Proof.
  intros [H1 H2] S. split; [by eapply placed_scans|]. intros q. rewrite (scans_last _ _ _ S). apply H2.
Qed.

Lemma placed_value p ns r : placed p ns r -> exists x, deref (root_ r) p = Some x /\ wf x.
Proof.
  intros [H1 _ H3]. apply type_at_is_Some in H3 as [x E]. exists x. split; [done|].
  by eapply wf_deref; [apply ok_root with inp|].
Qed.

(** ** Writing the top node *)

(** A write that keeps what the node holds. *)
Lemma update_ends f r p ns x v : placed p ns r -> deref (root_ r) p = Some x ->
  f x = Ret v -> grows x v -> wf v ->
  ends (update_current f) r (fun _ r' => scans inp r r' /\ r' = set_root (store (root_ r) p (fun _ => v)) r).
Proof.
  intros [H1 H2 H3] E Ef Hg Hv. unfold ends. rewrite (update_current_ok r p ns x v) by done. split; [|done].
  by eapply scans_store.
Qed.

Lemma assign_type x v : type_ (assign x v) = type_ v.
Proof. done. Qed.

(** An assignment replaces it. *)
Lemma assign_ends v r p ns : ready p ns r -> wf v ->
  ends (assign_current v) r (fun _ r' => walks p r r' /\ reports true r r' /\ lastValue_ r' = lastValue_ r
    /\ type_at (root_ r') p = Some (type_ v)).
Proof.
  intros H Hv. destruct (placed_value _ _ _ (proj1 H)) as (x & E & Hx). destruct H as [[[H1 H2 H3 H4 H5] Hn Hh] Hc].
  unfold ends. rewrite (assign_current_ok r p ns x v) by done. cbn [returns]. set (f := fun c => assign c v).
  assert (Ht : type_at (store (root_ r) p f) p = Some (type_ v)).
  { unfold type_at. by rewrite (deref_store _ _ _ _ E). }
  assert (Ho : forall q t, ~ p `prefix_of` q -> type_at (root_ r) q = Some t -> type_at (store (root_ r) p f) q = Some t).
  { intros q t Hq. by rewrite (type_at_store_ne _ _ _ _ _ E Hq). }
  split; [|done]. split; cbn; try done; try lia; [by left|]. split; cbn; try done.
  - unfold last_ok in *. cbn. unfold not_below in Hc. destruct (lastValue_ r) as [q|], (lastValueEnd_ r); try done.
    destruct H3 as ([t Hq] & H3). split; [|done]. destruct (decide (p `prefix_of` q)) as [Hp|Hp].
    + rewrite (Hc _ eq_refl Hp), Ht. done.
    + exists t. by apply Ho.
  - eapply store_wf; [done|exact E|]. intros Hx'. by apply assign_wf.
Qed.

Lemma take_comment_ends r p ns : placed p ns r -> ends (take_comment inp) r (fun _ r' => scans inp r r').
Proof.
  intros H. pose proof (placed_ok _ _ _ H) as Ho. unfold take_comment. ends_gets.
  destruct (collectComments_ inp && _) eqn:E; [|by apply ends_ret, scans_refl].
  apply andb_true_iff in E as [_ E]. apply negb_true_iff, bool_decide_eq_false in E.
  destruct (ok_comments _ _ Ho) as [|Hc]; [done|]. destruct (placed_value _ _ _ H) as (x & Ex & Hx).
  destruct (setComment_ok x _ commentBefore Hc Hx) as (v & Ev & Hv & Hw).
  eapply ends_bind; [by eapply update_ends; [..|apply grows_same_value|]|]. intros [] r1 [S ->].
  split; cbn; try apply S. destruct (scans_ok _ _ _ S) as [S1 S2 S3 S4 S5]. split; try done. by left.
Qed.

(** ** Errors *)

(** After reading a value at [p]: success, or an error more. *)
Definition answers (p : pointer) (r : Reader) (b : bool) (r' : Reader) : Prop := walks p r r' /\ reports b r r'.

Lemma answers_scans p r r1 b r' : scans inp r r1 -> is_Some (type_at (root_ r) p) -> answers p r1 b r' -> answers p r b r'.
Proof.
  intros S H [W R]. split; [eapply walks_trans; [by apply scans_walks|done]|].
  unfold reports in *. by rewrite (scans_errors _ _ _ S) in R.
Qed.

Lemma error_answers p ns r e : placed p ns r -> located inp e -> answers p r false (set_errors (errors_ r ++ [e]) r).
Proof.
  intros [H1 H2 H3] He. split; [|by eexists _, _]. split; try done; [by left|]. by apply ok_add_error.
Qed.

Lemma addError_ends m tk p ns r : placed p ns r -> inside inp tk -> ends (addError m tk None) r (answers p r).
Proof. intros H Ht. unfold addError. ends_modify. apply ends_ret. by eapply error_answers. Qed.

(** ** Numbers *)

Lemma not_a_number_ends tk p ns r : placed p ns r -> inside inp tk -> ends (not_a_number inp tk) r (answers p r).
Proof.
  intros H Ht. unfold not_a_number. eapply (ends_lift (buf_read _ _ _)); [apply between_ok; unfold inside in Ht; lia|].
  by eapply addError_ends.
Qed.

Lemma assign_answers v r p ns : ready p ns r -> wf v ->
  ends (_ ← assign_current v; mret true) r (answers p r).
Proof.
  intros H Hv. ends_with assign_ends; [done..|]. intros [] r' (W & R & _). by apply ends_ret.
Qed.

Lemma decodeDouble_ends tk p ns r : ready p ns r -> inside inp tk -> numeric inp (tok_start tk) (tok_end tk) ->
  ends (decodeDouble inp tk) r (answers p r).
Proof.
  intros H Ht Hn. unfold inside in Ht. apply input_numbers in Hn as Hl; [|lia]. unfold decodeDouble.
  replace (tok_end tk - tok_start tk <=? 32) with true by lia.
  eapply (ends_bind _ _ _ (fun _ r' => r' = r)).
  { eapply ends_lift; [apply memcpy_ok; rewrite ?length_replicate; lia|].
    eapply ends_lift; [|by apply ends_ret].
    apply buf_write_ok; rewrite ?length_splice; rewrite ?length_slice, ?length_replicate; cbn [length]; lia. }
  intros s r' ->. destruct (sscanf_lf s) as [x|] eqn:E; [|eapply not_a_number_ends; [apply H|done]].
  eapply assign_answers; [done|]. split; [apply no_comments_ok|]. by eapply sscanf_valid.
Qed.

Lemma scan_number_u32 t s v n : is_u32 v -> scan_number t s v = NumberIs n -> is_u32 n.
Proof.
  revert v. induction s as [|c s IH]; intros v Hv; cbn [scan_number]; [by intros [= <-]|].
  case_match; [done|]. case_match; [done|]. apply IH, is_u32_u32.
Qed.

Lemma is_int_s32 z : is_int (s32 z).
Proof. unfold is_int, s32. pose proof (Z.mod_pos_bound (z + 2 ^ 31) (2 ^ 32)). lia. Qed.

Lemma decodeNumber_ends tk p ns r : ready p ns r -> inside inp tk -> numeric inp (tok_start tk) (tok_end tk) ->
  ends (decodeNumber inp tk) r (answers p r).
Proof.
  intros H Ht Hn. unfold decodeNumber.
  eapply (ends_lift (buf_read _ _ _)); [apply between_ok; unfold inside in Ht; lia|].
  case_match; [by eapply decodeDouble_ends|]. cbv zeta. destruct (scan_number _ _ _) as [n| |] eqn:E.
  - eapply assign_answers; [done|]. apply scan_number_u32 in E; [|done].
    destruct (match slice _ _ _ with [] => _ | _ => _ end); [split; [apply no_comments_ok|apply is_int_s32]|].
    destruct (Z.leb_spec n maxInt); (split; [apply no_comments_ok|]); cbn [value_ Value_int Value_uint plain];
      unfold is_int, is_u32, maxInt in *; lia.
  - eapply not_a_number_ends; [apply H|done].
  - by eapply decodeDouble_ends.
Qed.

(** ** Strings *)

(** A decoder of the [s] characters from [pos] fails inside them, or goes on
    inside them. *)
Definition decodes {A} (s : list Z) (pos : Z) (d : decoded (A * list Z * Z)) : Prop :=
  match d with
  | inl (_, i) => pos <= i <= pos + Z.of_nat (length s)
  | inr (_, s', pos') => pos <= pos' /\ pos' + Z.of_nat (length s') = pos + Z.of_nat (length s) /\ Forall is_u8 s'
  end.

Lemma decode_hex_inside n s pos u : Forall is_u8 s -> decodes s pos (decode_hex n s pos u).
Proof.
  intros Hs. revert pos u. induction Hs as [|c s Hc Hs IH] in n |- *; intros pos u; destruct n as [|n]; cbn [decode_hex].
  - cbn. by split; [lia|].
  - cbn. lia.
  - cbn. split; [lia|]. by split; [|constructor].
  - destruct (hex_value c); [|cbn; lia]. specialize (IH n (pos + 1) (u32 (u32 (u * 16) + z))).
    destruct (decode_hex _ _ _ _) as [[m i]|[[v s'] pos']]; cbn [decodes length] in *; [lia|].
    destruct IH as (? & ? & ?). split; [lia|]. split; [lia|done].
Qed.

Lemma decodeUnicodeEscapeSequence_inside s pos : Forall is_u8 s -> decodes s pos (decodeUnicodeEscapeSequence s pos).
Proof. intros Hs. unfold decodeUnicodeEscapeSequence. case_match; [cbn; lia|]. by apply decode_hex_inside. Qed.

Lemma decodeUnicodeCodePoint_inside s pos : Forall is_u8 s -> decodes s pos (decodeUnicodeCodePoint s pos).
Proof.
  intros Hs. unfold decodeUnicodeCodePoint. pose proof (decodeUnicodeEscapeSequence_inside s pos Hs) as H.
  destruct (decodeUnicodeEscapeSequence s pos) as [[m i]|[[u s1] pos1]]; [done|]. destruct H as (H1 & H2 & H3).
  destruct (_ && _); [|done]. destruct (Z.ltb_spec (Z.of_nat (length s1)) 6); [cbn; lia|].
  destruct s1 as [|c [|d s2]]; [cbn in *; lia..|]. cbn [length] in *.
  destruct (c =? 92); [|cbn; lia]. destruct (d =? 117); [|cbn; lia].
  apply Forall_cons in H3 as [_ H3]. apply Forall_cons in H3 as [_ H3].
  pose proof (decodeUnicodeEscapeSequence_inside s2 (pos1 + 2) H3) as H'.
  destruct (decodeUnicodeEscapeSequence s2 (pos1 + 2)) as [[m i]|[[v s3] pos3]]; cbn [decodes] in *; [lia|].
  destruct H' as (? & ? & ?). split; [lia|]. split; [lia|done].
Qed.

Lemma codePointToUTF8_bytes cp : Forall is_u8 (codePointToUTF8 cp).
Proof. unfold codePointToUTF8. repeat case_match; repeat constructor; apply is_u8_u8. Qed.

Lemma escape_value_byte e d : escape_value e = Some d -> is_u8 d.
Proof. unfold escape_value, is_u8. repeat case_match; intros [= <-]; lia. Qed.

Lemma decode_chars_inside fuel s pos acc : Forall is_u8 s -> Forall is_u8 acc -> (length s < fuel)%nat ->
  returns (decode_chars fuel s pos acc) (fun d =>
    match d with inl (_, i) => pos <= i <= pos + Z.of_nat (length s) | inr k => Forall is_u8 k end).
Proof.
  revert s pos acc. induction fuel as [|f IH]; intros s pos acc Hs Ha Hf; [lia|]. cbn [decode_chars].
  destruct s as [|c r]; [done|]. apply Forall_cons in Hs as [Hc Hs]. cbn [length] in *.
  assert (Hgo : forall s' pos' acc', Forall is_u8 s' -> Forall is_u8 acc' -> pos <= pos' ->
      pos' + Z.of_nat (length s') = pos + Z.of_nat (S (length r)) -> (length s' < f)%nat ->
      returns (decode_chars f s' pos' acc') (fun d =>
        match d with inl (_, i) => pos <= i <= pos + Z.of_nat (S (length r)) | inr k => Forall is_u8 k end)).
  { intros s' pos' acc' H1 H2 H3 H4 H5. eapply returns_mono; [by apply IH|]. intros [[m i]|k]; [lia|done]. }
  case_match; [done|]. case_match; [|apply Hgo; try done; [by apply Forall_app_2; [|constructor]|lia..]].
  destruct r as [|e r]; [cbn; lia|]. apply Forall_cons in Hs as [He Hs]. cbn [length] in *. case_match.
  - pose proof (decodeUnicodeCodePoint_inside r (pos + 2) Hs) as H'.
    destruct (decodeUnicodeCodePoint r (pos + 2)) as [[m i]|[[u s'] pos']]; cbn [decodes returns] in *; [lia|].
    destruct H' as (? & ? & ?). apply Hgo; try done; [apply Forall_app_2; [done|apply codePointToUTF8_bytes]|lia..].
  - destruct (escape_value e) as [d|] eqn:Ee; [|cbn; lia].
    apply Hgo; try done; [apply Forall_app_2; [done|]; by repeat constructor; eapply escape_value_byte|lia..].
Qed.

Lemma decodeString_text_ends tk p ns r : placed p ns r -> inside inp tk -> tok_start tk + 2 <= tok_end tk ->
  ends (decodeString_text inp tk) r (fun d r' =>
    match d with
    | Some k => r' = r /\ Forall is_u8 k
    | None => exists e, located inp e /\ r' = set_errors (errors_ r ++ [e]) r
    end).
Proof.
  intros H Ht Hq. pose proof Ht as Ht'. unfold inside in Ht. unfold decodeString_text.
  eapply (ends_lift (buf_read _ _ _)); [apply between_ok; lia|]. set (s := slice _ _ _).
  assert (Hl : length s = Z.to_nat (tok_end tk - 1 - (tok_start tk + 1))) by (apply length_slice; lia).
  assert (Hs : Forall is_u8 s) by (by apply Forall_slice).
  destruct (returns_inv _ _ (decode_chars_inside (loop_fuel inp) s (tok_start tk + 1) [] Hs (Forall_nil_2 _)
    ltac:(unfold loop_fuel; lia))) as (d & E & Hd).
  eapply ends_lift; [exact E|]. destruct d as [[m i]|k]; [|by apply ends_ret].
  eapply ends_ok; [reflexivity|]. apply ends_ret. eexists. split; [|done]. split; [done|]. cbn in *. lia.
Qed.

Lemma decodeString_ends tk p ns r : ready p ns r -> inside inp tk -> tok_start tk + 2 <= tok_end tk ->
  ends (decodeString inp tk) r (answers p r).
Proof.
  intros H Ht Hq. unfold decodeString. ends_with decodeString_text_ends; [apply H|done..|].
  intros [k|] r' Hd; [|destruct Hd as (e & He & ->); apply ends_ret; eapply error_answers; [apply H|done]].
  destruct Hd as [-> Hk]. eapply assign_answers; [done|].
  split; [apply no_comments_ok|by apply upto_nul_cstring].
Qed.

(** ** Containers

    [within p ty r0 r]: the reader is among the elements of the container of
    type [ty] at [p], which [r0] is at. *)
Record within (p : pointer) (ty : ValueType) (r0 r : Reader) : Prop := {
  within_current : current_ r0 <= current_ r;
  within_nodes : nodes_ r = nodes_ r0;
  within_tree : forall q t, ~ p `prefix_of` q -> type_at (root_ r0) q = Some t -> type_at (root_ r) q = Some t;
  within_here : type_at (root_ r) p = Some ty;
  within_last : lastValue_ r = lastValue_ r0 \/ exists s, lastValue_ r = Some (p ++ [s]);
  within_ok : ok inp r
}.

Definition leaves (p : pointer) (ty : ValueType) (r0 : Reader) (b : bool) (r : Reader) : Prop :=
  within p ty r0 r /\ reports b r0 r.

Lemma app_prefix_last (p : pointer) s q : p ++ [s] `prefix_of` q -> p `prefix_of` q /\ q <> p.
Proof.
  intros [k ->]. split; [rewrite <- app_assoc; by eexists|]. rewrite <- app_assoc. intros E.
  rewrite <- (app_nil_r p) in E at 2. by apply app_inv_head in E.
Qed.

Lemma within_scans p ty r0 r r' : within p ty r0 r -> scans inp r r' -> within p ty r0 r'.
Proof.
  intros [H1 H2 H3 H4 H5 H6] [S1 S2 S3 S4 S5 S6 S7]. split; try congruence; try lia.
  - intros q t Hq Ht. by apply S6, H3.
  - by apply S6.
  - by rewrite S4.
Qed.

Lemma within_placed p ty ns r0 r : placed p ns r0 -> within p ty r0 r -> placed p ns r.
Proof. intros [R1 R2 R3] [H1 H2 H3 H4 H5 H6]. split; [done|congruence|by exists ty]. Qed.

(** The element [s], once it is there, can be read. *)
Lemma within_child p ty ns s r0 r : ready p ns r0 -> within p ty r0 r -> is_Some (type_at (root_ r) (p ++ [s])) ->
  ready (p ++ [s]) (p :: ns) (set_nodes ((p ++ [s]) :: p :: ns) r).
Proof.
  intros [[R1 R2 R3] R4] [H1 H2 H3 H4 H5 H6] Hs. split; [split; try done; by destruct H6|].
  intros q Eq Hq. cbn in Eq. destruct H5 as [E|[s' E]].
  - apply app_prefix_last in Hq as [Hq Hn]. destruct Hn. apply R4; [congruence|done].
  - rewrite Eq in E. injection E as ->. destruct Hq as [k Ek]. rewrite <- app_assoc in Ek.
    apply app_inv_head in Ek. injection Ek as -> _. done.
Qed.

(** Back from the element. *)
Lemma within_back p ty ns s r0 r r' : ready p ns r0 -> within p ty r0 r ->
  walks (p ++ [s]) (set_nodes ((p ++ [s]) :: p :: ns) r) r' -> within p ty r0 (set_nodes (p :: ns) r').
Proof.
  intros [[R1 R2 R3] R4] [H1 H2 H3 H4 H5 H6] [W1 W2 W3 W4 W5 W6]. cbn in *.
  assert (Hne : forall q, ~ p `prefix_of` q \/ q = p -> ~ (p ++ [s]) `prefix_of` q).
  { intros q Hq [Hp Hn]%app_prefix_last. by destruct Hq. }
  split; cbn; try done; try lia.
  - intros q t Hq Ht. apply W3; [apply Hne; by left|by apply H3].
  - apply W3; [apply Hne; by right|done].
  - destruct W5 as [-> | ->]; [done|right; by exists s].
  - by destruct W6.
Qed.

Lemma reports_trans r r1 b r' : reports true r r1 -> reports b r1 r' -> reports b r r'.
Proof. unfold reports. by intros ->. Qed.

(** Giving up on a container. *)
Lemma give_up_ends p ty t r0 r : within p ty r0 r -> reports false r0 r ->
  ends (recoverFromError inp t) r (leaves p ty r0).
Proof.
  intros H R. eapply ends_mono; [by apply recoverFromError_ends, H|]. intros b' r' [-> S].
  split; [by eapply within_scans|]. unfold reports in *. by rewrite (scans_errors _ _ _ S).
Qed.

Lemma within_error p ty r0 r e : within p ty r0 r -> located inp e -> within p ty r0 (set_errors (errors_ r ++ [e]) r).
Proof. intros [H1 H2 H3 H4 H5 H6] He. split; try done. by apply ok_add_error. Qed.

Lemma fail_ends p ty t tk m r0 r : within p ty r0 r -> reports true r0 r -> inside inp tk ->
  ends (addErrorAndRecover inp m tk t) r (leaves p ty r0).
Proof.
  intros H R Ht. unfold addErrorAndRecover, addError. set (e := {| err_token := tk; err_message := m; err_extra := None |}).
  eapply (ends_bind _ _ _ (fun _ r' => r' = set_errors (errors_ r ++ [e]) r)); [done|]. intros _ r' ->.
  apply give_up_ends; [by apply within_error|]. exists e, []. cbn. by rewrite R.
Qed.

(** *** An element is created and read *)

Lemma member_made x k : wf x -> type_ x = objectValue -> Forall is_u8 k ->
  exists v, resolveReference x k = Ret v /\ grows x v /\ wf v /\ is_Some (child v (Member (upto_nul k))).
Proof.
  intros Hx Ht Hk. destruct x as [[] c]; try discriminate Ht.
  eexists. split; [reflexivity|]. split; [|split; [by apply (resolve_wf _ _ _ _ Hx Hk)|]].
  - apply grows_children; [done|]. intros [i|l] y; cbn [child value_]; [done|].
    destruct (decide (upto_nul k = l)) as [<-|Hn]; [|by rewrite map_find_update_ne].
    rewrite map_find_update. by intros ->.
  - cbn [child value_]. by rewrite map_find_update.
Qed.

Lemma element_made x i : wf x -> type_ x = arrayValue -> 0 <= i < maxInt ->
  exists v, index_ref x (u32 i) = Ret v /\ grows x v /\ wf v /\ is_Some (child v (Index (s32 (u32 i)))).
Proof.
  intros Hx Ht Hi. destruct x as [[] c]; try discriminate Ht.
  assert (Eu : u32 i = i) by (apply u32_id; unfold is_u32, maxInt in *; lia). rewrite Eu.
  eexists. split; [reflexivity|]. split; [|split; [by apply (index_ref_wf _ _ _ Hx Hi)|]].
  - apply grows_children; [done|]. intros [l|k] y; cbn [child value_]; [|done].
    destruct (decide (s32 i = l)) as [<-|Hn]; [|by rewrite map_find_update_ne].
    rewrite map_find_update. by intros ->.
  - cbn [child value_]. by rewrite map_find_update.
Qed.

Lemma within_value p ty r0 r : within p ty r0 r -> exists x, deref (root_ r) p = Some x /\ wf x /\ type_ x = ty.
Proof.
  intros H. destruct (type_at_valid _ _ _ (within_here _ _ _ _ H)) as (x & E & Ht). exists x. split; [done|].
  split; [|done]. eapply wf_deref; [|exact E]. by eapply ok_root, within_ok.
Qed.

Lemma open_child p ty ns r0 r x mk v s : ready p ns r0 -> within p ty r0 r -> deref (root_ r) p = Some x ->
  mk x = Ret v -> grows x v -> wf v -> is_Some (child v s) ->
  exists r1, update_current mk r = Ret (tt, r1) /\ scans inp r r1 /\ current_ r1 = current_ r
    /\ push_node s r1 = Ret (tt, set_nodes ((p ++ [s]) :: p :: ns) r1)
    /\ ready (p ++ [s]) (p :: ns) (set_nodes ((p ++ [s]) :: p :: ns) r1).
Proof.
  intros H W E Em Hg Hv [y Hs]. pose proof (within_placed _ _ _ _ _ (proj1 H) W) as P.
  pose proof (update_ends mk r p ns x v P E Em Hg Hv) as U. apply returns_inv in U as ([[] r1] & Er & S & E1).
  exists r1. split; [done|]. split; [done|]. split; [by rewrite E1|].
  split; [apply push_node_ok, (placed_scans _ _ _ _ P S)|].
  apply (within_child p ty ns s r0 r1); [done|by eapply within_scans|].
  rewrite E1. cbn. rewrite (type_at_store _ _ _ _ _ E). unfold type_at. cbn. by rewrite Hs.
Qed.

Lemma close_child p ty ns s r0 r1 b r2 : ready p ns r0 -> within p ty r0 r1 -> reports true r0 r1 ->
  answers (p ++ [s]) (set_nodes ((p ++ [s]) :: p :: ns) r1) b r2 ->
  pop_node r2 = Ret (tt, set_nodes (p :: ns) r2) /\ leaves p ty r0 b (set_nodes (p :: ns) r2).
Proof.
  intros H W R [A B]. split.
  - unfold pop_node. rewrite modify_ok. by rewrite (walks_nodes _ _ _ A).
  - split; [by eapply within_back|]. exact (reports_trans _ _ b _ R B).
Qed.

(** What [readValue] promises with fuel [f]. *)
Definition reads_values (f : nat) : Prop := forall p ns r, ready p ns r -> (left inp r < f)%nat ->
  ends (readValue inp f) r (fun b r' => answers p r b r' /\ (b = true -> current_ r < current_ r')).

(** The tokens between two elements. *)
Lemma within_token p ty r0 r tk r' : within p ty r0 r -> reads_token inp r tk r' ->
  within p ty r0 r' /\ inside inp tk.
Proof.
  intros W T. split; [eapply within_scans; [done|apply T]|]. eapply reads_token_inside; [by eapply within_ok|done].
Qed.

Lemma reports_token r0 r tk r' : reports true r0 r -> reads_token inp r tk r' -> reports true r0 r'.
Proof. unfold reports. intros <- T. by apply (scans_errors _ _ _ (token_scans _ _ _ _ T)). Qed.

(** *** Objects and arrays *)

Definition among (p : pointer) (ty : ValueType) (f : nat) (r0 r : Reader) : Prop :=
  leaves p ty r0 true r /\ (left inp r < f)%nat.

Lemma among_token p ty f r0 r tk r' : among p ty f r0 r -> reads_token inp r tk r' ->
  among p ty f r0 r' /\ inside inp tk.
Proof.
  intros [[W R] L] T. destruct (within_token _ _ _ _ _ _ W T) as [W' Ht]. split; [|done].
  split; [split; [done|by eapply reports_token]|]. pose proof (scans_current _ _ _ (token_scans _ _ _ _ T)).
  unfold left in *. lia.
Qed.

Lemma among_scans p ty f r0 r r' : among p ty f r0 r -> scans inp r r' -> among p ty f r0 r'.
Proof.
  intros [[W R] L] S. split; [split; [by eapply within_scans|]|].
  - unfold reports in *. by rewrite (scans_errors _ _ _ S).
  - pose proof (scans_current _ _ _ S). unfold left in *. lia.
Qed.

(** The element at [s] is read, and the reader is back at [p]. *)
Lemma child_ends {A} p ty ns f r0 r1 s (K : bool -> RM A) Q :
  reads_values f -> ready p ns r0 -> among p ty f r0 r1 ->
  ready (p ++ [s]) (p :: ns) (set_nodes ((p ++ [s]) :: p :: ns) r1) ->
  (forall b r', leaves p ty r0 b r' -> current_ r1 <= current_ r' -> (b = true -> current_ r1 < current_ r') -> ends (K b) r' Q) ->
  ends (b ← readValue inp f; _ ← pop_node; K b) (set_nodes ((p ++ [s]) :: p :: ns) r1) Q.
Proof.
  intros Hf H [[W R] L] H1 HK. eapply ends_bind; [apply (Hf _ _ _ H1), L|]. intros b r2 [Ha Hb]. cbn in Hb.
  destruct (close_child p ty ns s r0 r1 b r2 H W R Ha) as [E3 Hl].
  eapply ends_ok; [exact E3|]. pose proof (walks_current _ _ _ (proj1 Ha)) as C. by apply HK.
Qed.

(** The answer [b] of a child that failed, or that the next element follows. *)
Definition goes_on {S} (p : pointer) (ty : ValueType) (f : nat) (r0 r : Reader) (o : S + bool) (r' : Reader) : Prop :=
  match o with
  | inl _ => among p ty f r0 r' /\ current_ r < current_ r'
  | inr b => leaves p ty r0 b r'
  end.

Lemma stop_ends {S} p ty r0 (m : RM bool) r1 (Q : S + bool -> Reader -> Prop) : ends m r1 (leaves p ty r0) ->
  (forall b r', leaves p ty r0 b r' -> Q (inr b) r') -> ends (b ← m; mret (inr b)) r1 Q.
Proof. intros H HQ. eapply ends_bind; [exact H|]. intros b r' Hl. by apply ends_ret, HQ. Qed.

Lemma object_step_ends p ns f r0 r name : reads_values f -> ready p ns r0 -> among p objectValue f r0 r ->
  ends (object_step inp (readValue inp f) name) r (goes_on p objectValue f r0 r).
Proof.
  intros Hf H A. pose proof (within_ok _ _ _ _ (proj1 (proj1 A))) as O. unfold object_step.
  ends_with readToken_ends; [done..|]. intros tk0 r1 T0. ends_with skip_comments_ends; [done..|]. intros tk r2 T.
  destruct (among_token _ _ _ _ _ _ _ A T) as [A2 Ht]. pose proof A2 as [[W2 R2] _].
  destruct (_ && _); [by apply ends_ret|].
  case_bool_decide as Es; cbn [negb]; [|by eapply stop_ends; [apply fail_ends|]].
  pose proof (token_quotes _ _ _ _ T Es) as Hq. pose proof (token_end _ _ _ _ T) as He.
  pose proof (token_start _ _ _ _ T) as Hst.
  ends_with decodeString_text_ends; [exact (within_placed _ _ _ _ _ (proj1 H) W2)|done..|].
  intros [k|] r3 Hd.
  2:{ destruct Hd as (e & Hl & ->). eapply stop_ends; [apply (give_up_ends p objectValue)|done]; [by apply within_error|].
      exists e, []. cbn. by rewrite R2. }
  destruct Hd as [-> Hk]. ends_with readToken_ends; [done|done|by apply W2|]. intros colon r3 T3.
  destruct (among_token _ _ _ _ _ _ _ A2 T3) as [A3 Ht3]. pose proof A3 as [[W3 R3] _].
  case_bool_decide as Ec; cbn [negb]; [|by eapply stop_ends; [apply fail_ends|]].
  destruct (within_value _ _ _ _ W3) as (x & Ex & Hx & Hty).
  destruct (member_made x k Hx Hty Hk) as (v & Em & Hg & Hv & Hs).
  pose proof (scans_current _ _ _ (token_scans _ _ _ _ T3)) as C3.
  destruct (open_child _ _ _ _ _ _ (fun v => resolveReference v k) _ _ H W3 Ex Em Hg Hv Hs) as (rc & E1 & Sc & Ec' & E2 & Hc).
  eapply ends_ok; [exact E1|]. eapply ends_ok; [exact E2|].
  apply (child_ends p objectValue ns f r0 rc); [done..|by eapply among_scans|done|].
  intros b r4 L4 C4 _. pose proof L4 as [W4 R4]. destruct b; cbn [negb]; [|by eapply stop_ends; [apply give_up_ends|]].
  assert (A4 : among p objectValue f r0 r4) by (split; [done|]; destruct A3 as [_ L]; unfold left in *; lia).
  ends_with readToken_ends; [done|done|by apply W4|]. intros comma r5 T5.
  destruct (among_token _ _ _ _ _ _ _ A4 T5) as [A5 Ht5]. pose proof A5 as [[W5 R5] _].
  destruct (_ && _); [by eapply stop_ends; [apply fail_ends|]|].
  ends_with (skip_comments_ends inp input_end input_bytes r4); [by apply W4|done|]. intros comma' r6 T6.
  destruct (among_token _ _ _ _ _ _ _ A4 T6) as [A6 _].
  pose proof (scans_current _ _ _ (token_scans _ _ _ _ T6)). case_match; apply ends_ret; [apply A6|].
  split; [done|]. lia.
Qed.

(** The next index, below the characters read. *)
Definition counts (o : Z + bool) (r : Reader) : Prop :=
  match o with inl i => 0 <= i <= current_ r | inr _ => True end.

Lemma array_step_ends p ns f r0 r i : reads_values f -> ready p ns r0 -> among p arrayValue f r0 r ->
  0 <= i <= current_ r ->
  ends (array_step inp (readValue inp f) i) r (fun o r' => goes_on p arrayValue f r0 r o r' /\ counts o r').
Proof.
  intros Hf H A Hi. pose proof (proj1 (proj1 A)) as W. pose proof (ok_current _ _ (within_ok _ _ _ _ W)) as C.
  unfold array_step. destruct (within_value _ _ _ _ W) as (x & Ex & Hx & Hty).
  destruct (element_made x i Hx Hty) as (v & Em & Hg & Hv & Hs); [lia|].
  destruct (open_child _ _ _ _ _ _ (fun v => index_ref v (u32 i)) _ _ H W Ex Em Hg Hv Hs) as (r1 & E1 & S & Ec & E2 & Hc).
  eapply ends_ok; [exact E1|]. eapply ends_ok; [exact E2|].
  eapply ends_lift; [apply int_checked_id; unfold is_int, maxInt in *; lia|].
  apply (child_ends p arrayValue ns f r0 r1); [done..|by eapply among_scans|done|].
  intros b r4 L4 C4 Cb. pose proof L4 as [W4 R4]. destruct b; cbn [negb].
  2:{ by eapply stop_ends; [apply give_up_ends|]. }
  assert (A4 : among p arrayValue f r0 r4) by (split; [done|]; destruct A as [_ L]; unfold left in *; lia).
  ends_with readToken_ends; [done|done|by apply W4|]. intros tk r5 T5.
  ends_with (skip_comments_ends inp input_end input_bytes r4); [by apply W4|done|]. intros tk' r6 T6.
  destruct (among_token _ _ _ _ _ _ _ A4 T6) as [A6 Ht]. pose proof (scans_current _ _ _ (token_scans _ _ _ _ T6)).
  specialize (Cb eq_refl). cbv zeta. case_match.
  { eapply stop_ends; [by apply fail_ends; [apply A6|apply A6|]|done]. }
  case_match; apply ends_ret; (split; [|done || (cbn; lia)]); [apply A6|]. split; [done|lia].
Qed.

(** The container is made. *)
Lemma start_ends p ns f ty r : ready p ns r -> (left inp r < f)%nat ->
  ends (assign_current (Value_type ty)) r (fun _ r' => among p ty f r r').
Proof.
  intros H L. eapply ends_mono; [eapply assign_ends; [exact H|by apply Value_type_wf]|].
  intros [] r1 (W & R & El & Et). destruct W as [W1 W2 W3 W4 W5 W6].
  split; [|unfold left in *; lia]. split; [|done]. split; try done; [by destruct ty|by left].
Qed.

Lemma readObject_ends p ns f r tk : reads_values f -> ready p ns r -> (left inp r < f)%nat ->
  ends (readObject inp (readValue inp f) tk) r (leaves p objectValue r).
Proof.
  intros Hf H L. unfold readObject. eapply ends_bind; [by apply (start_ends p ns f objectValue)|]. intros [] r1 A.
  apply (scan_loop inp input_end (fun _ r' => among p objectValue f r r') _ (leaves p objectValue r)); [|..|done].
  - by intros s r' [[[] _] _].
  - intros name r2 A2. by eapply object_step_ends.
Qed.

Lemma readArray_ends p ns f r tk : reads_values f -> ready p ns r -> (left inp r < f)%nat ->
  ends (readArray inp (readValue inp f) tk) r (leaves p arrayValue r).
Proof.
  intros Hf H L. unfold readArray. eapply ends_bind; [by apply (start_ends p ns f arrayValue)|]. intros [] r1 A.
  ends_with skipSpaces_ends; [done|apply A|]. intros [] r2 S. ends_gets. pose proof (among_scans _ _ _ _ _ _ A S) as A2.
  pose proof (within_ok _ _ _ _ (proj1 (proj1 A2))) as O2.
  destruct (char_ok inp input_end (current_ r2)) as (c & _ & Ec); [apply O2|]. eapply ends_lift; [exact Ec|].
  case_match.
  { ends_with readToken_ends; [done..|]. intros tk' r3 T. apply ends_ret.
    by destruct (among_token _ _ _ _ _ _ _ A2 T) as [[L3 _] _]. }
  apply (scan_loop inp input_end (fun i r' => among p arrayValue f r r' /\ 0 <= i <= current_ r') _ (leaves p arrayValue r)).
  - by intros s r' [[[[] _] _] _].
  - intros i r3 [A3 Hi]. eapply ends_mono; [by eapply array_step_ends|]. intros [i'|b] r4 [G Hc]; [|done].
    by destruct G.
  - split; [done|]. destruct O2. lia.
Qed.

(** ** Values *)

(** [finish_value] remembers the element at [p], or nothing. *)
Lemma finish_value_ends b p ns r : placed p ns r ->
  ends (finish_value inp b) r (fun b' r' => b' = b /\ placed p ns r' /\ current_ r' = current_ r /\ root_ r' = root_ r
    /\ errors_ r' = errors_ r /\ (lastValue_ r' = Some p \/ lastValue_ r' = lastValue_ r /\ lastValue_ r = None)).
Proof.
  intros [O Hn Hp]. pose proof O as [H1 H2 H3 H4 H5]. unfold finish_value. destruct (collectComments_ inp) eqn:Ec.
  - ends_gets. eapply ends_ok; [by eapply top_node_ok|]. ends_modify. apply ends_ret. split; [done|].
    split; [|split_and!; try done; by left]. split; [|done|done]. split; try done. unfold last_ok. cbn. split; [done|]. split; [lia|done].
  - apply ends_ret. split; [done|]. split; [done|]. split_and!; try done. right. split; [done|].
    unfold last_ok in H3. destruct (lastValue_ r), (lastValueEnd_ r); try done. destruct H3 as (_ & _ & E). congruence.
Qed.

Lemma answers_finish p ns r b r' : placed p ns r -> answers p r b r' ->
  ends (finish_value inp b) r' (answers p r).
Proof.
  intros [R1 R2 R3] [[W1 W2 W3 W4 W5 W6] R]. eapply ends_mono; [apply (finish_value_ends b p ns); split; [done|congruence|done]|].
  intros b' r2 (-> & [O Hn Hp] & Ec & Er & Ee & El). split; [|unfold reports in *; by rewrite Ee].
  split; try done; try (rewrite ?Er; done); try lia; [congruence|].
  destruct El as [->|[-> E]]; [by right|done].
Qed.

Lemma leaves_finish p ty ns r b r' : placed p ns r -> leaves p ty r b r' ->
  ends (finish_value inp b) r' (answers p r).
Proof.
  intros P [W R]. pose proof (within_placed _ _ _ _ _ P W) as P'. destruct W as [W1 W2 W3 W4 W5 W6].
  eapply ends_mono; [by apply (finish_value_ends b p ns)|].
  intros b' r2 (-> & [O Hn Hp] & Ec & Er & Ee & El). split; [|unfold reports in *; by rewrite Ee].
  split; try done; try (rewrite ?Er; done); try lia; [destruct P, P'; congruence|].
  destruct El as [->|[-> E]]; [by right|]. left. destruct W5 as [->|[s E']]; [done|congruence].
Qed.

(** The value a token starts, from the reader after the token. *)
Lemma token_value_ends p ns f r tk : reads_values f -> ready p ns r -> (left inp r < f)%nat -> inside inp tk ->
  (tok_type tk = tokenString -> tok_start tk + 2 <= tok_end tk) ->
  (tok_type tk = tokenNumber -> numeric inp (tok_start tk) (tok_end tk)) ->
  ends (match tok_type tk with
      | tokenObjectBegin => ok ← readObject inp (readValue inp f) tk; finish_value inp ok
      | tokenArrayBegin => ok ← readArray inp (readValue inp f) tk; finish_value inp ok
      | tokenNumber => ok ← decodeNumber inp tk; finish_value inp ok
      | tokenString => ok ← decodeString inp tk; finish_value inp ok
      | tokenTrue => _ ← assign_current (Value_bool true); finish_value inp true
      | tokenFalse => _ ← assign_current (Value_bool false); finish_value inp true
      | tokenNull => _ ← assign_current (Value_type nullValue); finish_value inp true
      | _ => addError (codes "Syntax error: value, object or array expected.") tk None
      end) r (fun b r' => answers p r b r' /\ (b = true -> tok_type tk <> tokenEndOfStream)).
Proof.
  intros Hf H L Ht Hs Hn. pose proof (proj1 H) as P.
  assert (Ha : forall v, wf v -> ends (_ ← assign_current v; finish_value inp true) r (answers p r)).
  { intros v Hv. ends_with assign_ends; [exact H|done|]. intros [] r' (W & R & _). by eapply answers_finish. }
  assert (Hb : forall b, wf (Value_bool b)) by (intros b; split; [apply no_comments_ok|done]).
  destruct (tok_type tk) eqn:Et;
    try (eapply ends_ok; [reflexivity|]; apply ends_ret; split; [by eapply error_answers|done]);
    (eapply ends_mono; [|intros b r' A; split; [exact A|done]]).
  - ends_with readObject_ends; [done..|]. intros b r' Hl. by eapply leaves_finish.
  - ends_with readArray_ends; [done..|]. intros b r' Hl. by eapply leaves_finish.
  - ends_with decodeString_ends; [done..|by apply Hs|]. intros b r' A. by eapply answers_finish.
  - ends_with decodeNumber_ends; [done..|by apply Hn|]. intros b r' A. by eapply answers_finish.
  - by apply Ha.
  - by apply Ha.
  - apply Ha, Value_type_wf.
Qed.

Lemma readValue_ends f : reads_values f.
Proof.
  induction f as [|f IH]; intros p ns r H L; [lia|]. cbn [readValue]. pose proof (placed_ok _ _ _ (proj1 H)) as O.
  ends_with skipCommentTokens_ends; [done..|]. intros tk r1 T. pose proof (token_scans _ _ _ _ T) as S1.
  pose proof (ready_scans _ _ _ _ H S1) as H1. pose proof (scans_current _ _ _ S1) as C1.
  ends_with take_comment_ends; [apply H1|]. intros [] r2 S2. pose proof (scans_current _ _ _ S2) as C2.
  pose proof (reads_token_inside _ _ _ _ O T) as Hi. destruct (decide (tok_type tk = tokenEndOfStream)) as [E|E].
  - rewrite E. eapply ends_ok; [reflexivity|]. apply ends_ret. split; [|done].
    eapply answers_scans; [by eapply scans_trans|apply H|]. eapply error_answers; [|by split].
    by eapply placed_scans; [apply H1|].
  - pose proof (reads_token_left _ _ _ _ T E) as Cl. pose proof (scans_ok _ _ _ S2) as O2.
    eapply ends_mono; [apply (token_value_ends p ns f r2 tk IH)|].
    + by eapply ready_scans.
    + unfold left in *. pose proof (ok_current _ _ O2). lia.
    + done.
    + apply T.
    + apply T.
    + intros b r' [A _]. split; [|pose proof (walks_current _ _ _ (proj1 A)); lia].
      eapply answers_scans; [by eapply scans_trans|apply H|done].
Qed.

(** The whole document, and a value that does not outgrow the checks. *)
Lemma parse_document_ends r : ok inp r -> nodes_ r = [[]] -> lastValue_ r = None ->
  ends (parse_document inp) r (fun b r' => ok inp r' /\ reports b r r').
Proof.
  intros O Hn Hl. unfold parse_document.
  assert (H : ready [] [] r) by (split; [split; [done|done|by eexists]|intros q; congruence]).
  ends_with (readValue_ends (loop_fuel inp)); [exact H|by apply left_fuel|]. intros b r1 [[W R] _].
  pose proof (walks_ok _ _ _ W) as O1. ends_with skipCommentTokens_ends; [done..|]. intros tk r2 T.
  pose proof (token_scans _ _ _ _ T) as S. ends_gets. pose proof (scans_ok _ _ _ S) as O2.
  eapply (ends_bind _ _ _ (fun _ r' => scans inp r2 r')).
  { case_match eqn:E; [|by apply ends_ret, scans_refl]. apply andb_true_iff in E as [_ E].
    apply negb_true_iff, bool_decide_eq_false in E. destruct (ok_comments _ _ O2) as [|Hc]; [done|]. ends_gets.
    destruct (setComment_ok (root_ r2) _ commentAfter Hc (ok_root _ _ O2)) as (v & Ev & Hv & Hw).
    eapply ends_lift; [exact Ev|]. exact (scans_store inp r2 [] (root_ r2) v O2 eq_refl (grows_same_value _ _ Hv) Hw). }
  intros [] r3 S3. ends_gets. pose proof (scans_ok _ _ _ S3) as O3.
  assert (E : reports b r r3) by (unfold reports in *; by rewrite (scans_errors _ _ _ S3), (scans_errors _ _ _ S)).
  case_match; [|by apply ends_ret]. eapply ends_ok; [reflexivity|]. apply ends_ret. split.
  - apply ok_add_error; [done|]. split; [|done]. unfold inside. cbn. lia.
  - unfold reports in *. cbn. destruct b; [rewrite E; by eexists _, []|]. destruct E as (e & es & ->).
    rewrite <- app_assoc. by eexists e, _.
Qed.
End safe.

(** ** Texts without long numbers *)

(** Fewer than 32 characters of a number in a row, with [n] just before. *)
Fixpoint short_from (n : Z) (s : list Z) : bool :=
  match s with
  | c :: r => if is_number_char c then (n + 1 <? 32) && short_from (n + 1) r else short_from 0 r
  | [] => true
  end.
Definition short_numbers (s : list Z) : bool := short_from 0 s.

Lemma short_from_mono n m s : n <= m -> short_from m s = true -> short_from n s = true.
Proof.
  revert n m. induction s as [|c s IH]; intros n m Hn; cbn [short_from]; [done|]. case_match; [|done].
  rewrite !andb_true_iff. intros [H1 H2]. split; [lia|]. exact (IH (n + 1) (m + 1) ltac:(lia) H2).
Qed.

Lemma short_from_app n s t : short_from n (s ++ t) = true -> short_from n s = true.
Proof.
  revert n. induction s as [|c s IH]; intros n; cbn [short_from app]; [done|]. case_match; [|apply IH].
  rewrite !andb_true_iff. intros [H1 H2]. split; [done|by apply IH].
Qed.

Lemma short_from_run w : Forall (fun c => is_number_char c = true) w -> forall n t, 0 <= n < 32 ->
  short_from n (w ++ t) = true -> n + Z.of_nat (length w) < 32.
Proof.
  induction 1 as [|c w Hc Hw IH]; intros n t Hn; cbn [short_from app length]; [lia|]. rewrite Hc, andb_true_iff.
  intros [H1 H2]. apply IH in H2; lia.
Qed.

Lemma short_from_drop k s : short_from 0 s = true -> short_from 0 (drop k s) = true.
Proof.
  revert s. induction k as [|k IH]; intros [|c s] H; try done. cbn [drop]. apply IH. cbn [short_from] in H.
  case_match; [|done]. apply andb_true_iff in H as [_ H]. by apply (short_from_mono _ (0 + 1)).
Qed.

Lemma short_numbers_run inp document : text inp = document ++ [0] -> short_numbers document = true ->
  forall b e, 0 <= b -> numeric inp b e -> e - b < 32.
Proof.
  intros Et Hs b e Hb Hn. destruct (Z.le_gt_cases e b) as [|Hl]; [lia|]. set (w := slice (Z.to_nat b) (Z.to_nat (e - b)) document).
  assert (Hi : forall i, b <= i < e -> exists c, document !! Z.to_nat i = Some c /\ is_number_char c = true).
  { intros i Hi. destruct (Hn i Hi) as (c & E & Hc). exists c. split; [|done]. rewrite Et in E.
    apply lookup_app_Some in E as [E|[_ E]]; [done|]. apply list_lookup_singleton_Some in E as [_ <-]. discriminate Hc. }
  assert (Hw : Forall (fun c => is_number_char c = true) w).
  { apply Forall_lookup. intros k c E. unfold w in E. rewrite lookup_slice in E. case_decide; [|done].
    destruct (Hi (b + Z.of_nat k)) as (c' & E' & Hc'); [lia|]. replace (Z.to_nat (b + Z.of_nat k)) with (Z.to_nat b + k)%nat in E' by lia.
    congruence. }
  assert (Hlen : length w = Z.to_nat (e - b)).
  { apply length_slice. destruct (Hi (e - 1)) as (c & E & _); [lia|]. apply lookup_lt_Some in E. lia. }
  apply (short_from_drop (Z.to_nat b)) in Hs. rewrite <- (take_drop (Z.to_nat (e - b)) (drop _ document)) in Hs.
  apply (short_from_run w Hw) in Hs; lia.
Qed.

(** ** Error messages *)

Lemma location_loop_ends mem finish location : 0 <= location <= finish -> finish < Z.of_nat (length mem) ->
  forall fuel current last line, 0 <= line <= current -> 0 <= last <= current -> current <= location + 1 ->
  (Z.to_nat (location - current) < fuel)%nat ->
  returns (location_loop fuel mem finish location current last line)
    (fun '(line', last') => 0 <= line' <= location + 1 /\ 0 <= last' <= location + 1).
Proof.
  intros Hl Hm. induction fuel as [|f IH]; intros current last line H1 H2 H3 Hf; [lia|]. cbn [location_loop].
  destruct ((current <? location) && negb (current =? finish)) eqn:E; [|cbn; lia].
  destruct (lookup_lt_is_Some_2 mem (Z.to_nat current)) as [c Ec]; [lia|].
  destruct (lookup_lt_is_Some_2 mem (Z.to_nat (current + 1))) as [d Ed]; [lia|].
  rewrite (buf_get_ok mem current c) by (lia || done). cbn [mbind cpp_bind].
  rewrite (buf_get_ok mem (current + 1) d) by (lia || done). cbn [mbind cpp_bind]. repeat case_match; apply IH; lia.
Qed.

Lemma print_length z : 0 <= z < 10 ^ 10 -> (length (print_int z) <= 10)%nat.
Proof. intros Hz. unfold print_int. replace (z <? 0) with false by lia. by apply (dec_length z 9). Qed.

Lemma location_text_ends mem finish location : 0 <= location <= finish -> finish < Z.of_nat (length mem) ->
  finish < maxInt -> returns (location_text mem finish location) (fun _ => True).
Proof.
  intros Hl Hm Hi. unfold maxInt in Hi. unfold location_text.
  apply (returns_bind _ _ (fun '(l, c) => 0 <= l < 10 ^ 10 /\ 0 <= c < 10 ^ 10)).
  - unfold getLocationLineAndColumn. eapply returns_bind; [apply (location_loop_ends mem finish location); lia|].
    intros [line last] H. cbn. lia.
  - intros [l c] [H1 H2]. apply print_length in H1, H2. unfold sprintf_text.
    rewrite buf_write_ok; [done|lia|]. rewrite length_replicate, !length_app. cbn. lia.
Qed.

(** Every error has a message. *)
Lemma messages_ends inp document errors : end_ inp = Z.of_nat (length document) -> Z.of_nat (length document) < maxInt ->
  Forall (located inp) errors ->
  returns (getFormatedErrorMessages (document ++ [0]) (Z.of_nat (length document)) errors)
    (fun m => errors = [] \/ m <> []).
Proof.
  intros Ee Hl He. unfold getFormatedErrorMessages. set (body := fun _ _ _ => _).
  assert (Hb : forall i e m, located inp e -> returns (body i e m) (fun m' => m' <> [])).
  { intros i e m [Ht Hx]. unfold inside in Ht. unfold body.
    assert (Hat : forall j, 0 <= j <= end_ inp -> returns (location_text (document ++ [0]) (Z.of_nat (length document)) j) (fun _ => True)).
    { intros j Hj. apply location_text_ends; rewrite ?length_app; cbn; lia. }
    eapply returns_bind; [apply Hat; lia|]. intros at_ _. cbv zeta.
    destruct (err_extra e) as [x|].
    - eapply returns_bind; [by apply Hat|]. intros see _. cbn [returns]. rewrite <- !app_assoc. by destruct m.
    - cbn [returns]. by destruct m. }
  assert (Hgo : forall i m, returns (cfold body i errors m) (fun m' => errors = [] /\ m' = m \/ m' <> [])).
  { clear -Hb He. induction He as [|e es He Hes IH]; intros i m; cbn [cfold]; [by left|].
    eapply returns_bind; [by apply Hb|]. intros m' Hm'. eapply returns_mono; [apply IH|].
    intros m2 [[_ ->]|Hm2]; by right. }
  eapply returns_mono; [apply Hgo|]. intros m [[H _]|H]; [by left|by right].
Qed.

(** ** The whole text *)

(** The bytes of a text shorter than an [int] counts, without long numbers. *)
Definition plain_input (document : list Z) : Prop :=
  Forall is_u8 document /\ Z.of_nat (length document) < maxInt /\ short_numbers document = true.

Lemma parse_ends features document root collect : plain_input document -> wf root ->
  exists inp, end_ inp = Z.of_nat (length document) /\
  returns (parse features document root collect) (fun '(b, r) => ok inp r /\
    reports b {| nodes_ := []; root_ := root; errors_ := []; current_ := 0; lastValueEnd_ := None; lastValue_ := None; commentsBefore_ := [] |} r).
Proof.
  intros (Hb & Hl & Hs) Hr. unfold parse, parse_range. set (inp := {| text := _; end_ := _; features_ := _; collectComments_ := _ |}).
  set (r0 := {| nodes_ := [[]]; root_ := root; errors_ := []; current_ := 0; lastValueEnd_ := None; lastValue_ := None; commentsBefore_ := [] |}).
  exists inp. split; [done|].
  assert (E : ends (parse_document inp) r0 (fun b r' => ok inp r' /\ reports b r0 r')).
  { apply parse_document_ends; try done.
    - cbn. rewrite length_app. cbn. lia.
    - cbn. apply Forall_app_2; [done|]. by constructor; [|constructor].
    - by apply (short_numbers_run inp document).
    - split; cbn; try done; [lia|by left]. }
  exact E.
Qed.

(** A document with a comment, an exponent and a word cut short. *)
Definition broken_text : list Z := codes "[ 1e3, /* x */ tru ]".

Lemma broken_text_plain : plain_input broken_text.
Proof. split; [eval_decide|]. split; [reflexivity|vm_compute; reflexivity]. Qed.

(** C17: the reader returns on any text of bytes shorter than [2^31] without 32
    characters of a number in a row, whatever the features and the value it
    reads into: it never leaves the text, overflows, fails an assertion or
    loops.  The value it leaves is well formed; it answers true exactly when it
    recorded no error; every error lies in the text. *)
Theorem any_text_is_read features document root collect : plain_input document -> wf root ->
  returns (parse features document root collect) (fun '(b, r) =>
    wf (root_ r) /\ (b = true <-> errors_ r = []) /\
    Forall (fun e => 0 <= tok_start (err_token e) <= tok_end (err_token e) /\
                     tok_end (err_token e) <= Z.of_nat (length document)) (errors_ r)).
Proof.
  intros Hd Hr. destruct (parse_ends features document root collect Hd Hr) as (inp & Ee & H).
  eapply returns_mono; [exact H|]. intros [b r] [O R]. split; [apply O|]. split.
  - unfold reports in R. cbn in R. destruct b; [done|]. by destruct R as (e & es & ->).
  - eapply Forall_impl; [apply O|]. intros e [Ht _]. unfold inside in Ht. lia.
Qed.

(** C18: [operator>>] of any such text sets the value, which is well formed, or
    throws a message: the formatting of the errors never fails. *)
Theorem extraction_total sin root : plain_input sin -> wf root ->
  returns (operator_extract sin root) (fun r => match r with inl v => wf v | inr m => m <> [] end).
Proof.
  intros (Hb & Hl & Hs) Hr. unfold operator_extract. set (p := fun c => negb (c =? 255)).
  assert (Ed : sin = (span p sin).1 ++ (span p sin).2).
  { clear. induction sin as [|c s IH]; [done|]. cbn [span]. destruct (p c); [|done].
    destruct (span p s) as [u v]. cbn in *. by rewrite IH. }
  assert (Hd : plain_input (span p sin).1).
  { rewrite Ed in Hb, Hl, Hs. apply Forall_app in Hb as [Hb _]. rewrite length_app in Hl.
    split; [done|]. split; [lia|]. by eapply short_from_app. }
  unfold parse_stream. destruct (parse_ends Features_all _ root true Hd Hr) as (inp & Ee & H).
  eapply returns_bind; [exact H|]. intros [b r] [O R]. destruct b; [apply O|].
  eapply returns_bind; [apply (messages_ends inp); [done|apply Hd|apply O]|].
  intros m [E|Hm]; [|done]. destruct R as (e & es & R). by rewrite R in E.
Qed.

Lemma any_text_is_read_witness :
  returns (parse strictMode broken_text null true) (fun '(b, r) => wf (root_ r) /\ (b = true <-> errors_ r = []) /\
    Forall (fun e => 0 <= tok_start (err_token e) <= tok_end (err_token e) /\
                     tok_end (err_token e) <= Z.of_nat (length broken_text)) (errors_ r)).
Proof. apply any_text_is_read; [apply broken_text_plain|apply wf_null]. Defined.

Lemma extraction_total_witness :
  returns (operator_extract broken_text null) (fun r => match r with inl v => wf v | inr m => m <> [] end)
  /\ exists m, operator_extract broken_text null = Ret (inr m).
Proof.
  split; [apply extraction_total; [apply broken_text_plain|apply wf_null]|]. eexists. vm_compute. reflexivity.
Defined.

(** A number of 32 characters is written past the end of a local buffer. *)
Lemma long_number_overflows : parse Features_all (replicate 30 49 ++ codes ".5") null false = Undef.
Proof. vm_compute. reflexivity. Qed.
