(* ===== verification/JsonIter.v ===== *)
(** * Iterators of JSON values (src/public/json/json_valueiterator.inl, include/value.h)

    The classes [ValueIteratorBase], [ValueConstIterator] and [ValueIterator].
    A [std::map] iterator is a position in the entries of the container it was
    made from; a default-constructed one, which may not be compared, is [None].
    The functions that look into the container take its entries. *)
From Stdlib Require Import SpecFloat.
From S2P Require Import Prelude Words Buffers CString StdMap Decimal Double JsonValue JsonOps.

(** The entries of a container, by the [CZString] they are stored under. *)
Definition entries (v : Value) : list (step * Value) :=
  match value_ v with
  | d_array m => (fun '(i, x) => (Index i, x)) <$> m
  | d_object m => (fun '(k, x) => (Member k, x)) <$> m
  | _ => []
  end.

Record ValueIterator := { current_ : option nat; isNull_ : bool }.

Definition ValueIteratorBase_null : ValueIterator := {| current_ := None; isNull_ := true |}.
Definition ValueIteratorBase_at (n : nat) : ValueIterator := {| current_ := Some n; isNull_ := false |}.

Definition value_begin (v : Value) : ValueIterator :=
  match value_ v with
  | d_array _ | d_object _ => ValueIteratorBase_at 0
  | _ => ValueIteratorBase_null
  end.
Definition value_end (v : Value) : ValueIterator :=
  match value_ v with
  | d_array _ | d_object _ => ValueIteratorBase_at (length (entries v))
  | _ => ValueIteratorBase_null
  end.

Section iterator.
Variable es : list (step * Value).

(** [*current_], undefined at the end and for a default iterator. *)
Definition entry_at (it : ValueIterator) : cpp (step * Value) :=
  match current_ it with
  | Some n => match es !! n with Some e => Ret e | None => Undef end
  | None => Undef
  end.

Definition iter_deref (it : ValueIterator) : cpp Value := e ← entry_at it; Ret e.2.

(** [++current_] and [--current_]. *)
Definition map_next (c : option nat) : cpp (option nat) :=
  match c with
  | Some n => if (n <? length es)%nat then Ret (Some (S n)) else Undef
  | None => Undef
  end.
Definition map_prev (c : option nat) : cpp (option nat) :=
  match c with Some (S n) => Ret (Some n) | _ => Undef end.
Definition map_same (c d : option nat) : cpp bool :=
  match c, d with Some n, Some k => Ret (n =? k)%nat | _, _ => Undef end.

Definition increment (it : ValueIterator) : cpp ValueIterator :=
  c ← map_next (current_ it); Ret {| current_ := c; isNull_ := isNull_ it |}.
Definition decrement (it : ValueIterator) : cpp ValueIterator :=
  c ← map_prev (current_ it); Ret {| current_ := c; isNull_ := isNull_ it |}.

(** [for (it = current_; it != other.current_; ++it) ++myDistance]. *)
Fixpoint distance_loop (fuel : nat) (it other : option nat) (myDistance : Z) : cpp Z :=
  same ← map_same it other;
  if same : bool then Ret myDistance
  else
    match fuel with
    | O => NoFuel
    | S f => n ← int_checked (myDistance + 1); it' ← map_next it; distance_loop f it' other n
    end.

Definition computeDistance (it other : ValueIterator) : cpp Z :=
  if isNull_ it && isNull_ other then Ret 0
  else distance_loop (S (length es)) (current_ it) (current_ other) 0.

(** [it - other]. *)
Definition operator_minus (it other : ValueIterator) : cpp Z := computeDistance it other.

Definition isEqual (it other : ValueIterator) : cpp bool :=
  if isNull_ it then Ret (isNull_ other) else map_same (current_ it) (current_ other).

(** [copy], behind the assignment of iterators: [isNull_] stays. *)
Definition copy (it other : ValueIterator) : ValueIterator :=
  {| current_ := current_ other; isNull_ := isNull_ it |}.

Definition key (it : ValueIterator) : cpp Value :=
  e ← entry_at it;
  Ret match e.1 with Member k => Value_string k | Index i => Value_int i end.

Definition index (it : ValueIterator) : cpp Z :=
  e ← entry_at it; Ret match e.1 with Index i => u32 i | Member _ => u32 (-1) end.

Definition memberName (it : ValueIterator) : cpp (list Z) :=
  e ← entry_at it; Ret match e.1 with Member k => k | Index _ => [] end.

(** The postfix operators: the old iterator and the moved one. *)
Definition post_increment (it : ValueIterator) : cpp (ValueIterator * ValueIterator) :=
  it' ← increment it; Ret (it, it').
Definition post_decrement (it : ValueIterator) : cpp (ValueIterator * ValueIterator) :=
  it' ← decrement it; Ret (it, it').

(** [for (; it != end; ++it)] over keys and elements. *)
Fixpoint iterate (fuel : nat) (it finish : ValueIterator) (seen : list (Value * Value)) : cpp (list (Value * Value)) :=
  same ← isEqual it finish;
  if same : bool then Ret seen
  else
    match fuel with
    | O => NoFuel
    | S f =>
        k ← key it;
        x ← iter_deref it;
        it' ← increment it;
        iterate f it' finish (seen ++ [(k, x)])
    end.
End iterator.

(** The loop over a value from [begin()] to [end()]. *)
Definition visit (v : Value) : cpp (list (Value * Value)) :=
  iterate (entries v) (length (entries v)) (value_begin v) (value_end v) [].

(** ** Facts *)

(** The [Value] that names an entry. *)
Definition step_key (s : step) : Value := match s with Member k => Value_string k | Index i => Value_int i end.

Lemma distance_from es n k d : (n <= k <= length es)%nat -> 0 <= d -> d + Z.of_nat (k - n) < 2 ^ 31 ->
  forall fuel, (k - n <= fuel)%nat -> distance_loop es fuel (Some n) (Some k) d = Ret (d + Z.of_nat (k - n)).
Proof.
  intros Hn Hd Hk fuel. revert n d Hn Hd Hk. induction fuel as [|f IH]; intros n d Hn Hd Hk Hf; cbn [distance_loop map_same].
  - rewrite bind_ret_l. rewrite (proj2 (Nat.eqb_eq n k)) by lia. f_equal. lia.
  - rewrite bind_ret_l. destruct (Nat.eqb_spec n k) as [->|Hne]; [f_equal; lia|].
    rewrite int_checked_id, bind_ret_l by (unfold is_int; lia). unfold map_next.
    rewrite (proj2 (Nat.ltb_lt n (length es))) by lia. rewrite bind_ret_l, IH by lia. f_equal. lia.
Qed.

(** From the end there is no way back to the begin. *)
Lemma distance_past es f n : (length es <= n)%nat -> (0 < n)%nat ->
  distance_loop es (S f) (Some n) (Some 0%nat) 0 = Undef.
Proof.
  intros H1 H2. cbn [distance_loop map_same]. rewrite bind_ret_l. rewrite (proj2 (Nat.eqb_neq n 0)) by lia.
  change (int_checked (0 + 1)) with (Ret 1 : cpp Z). rewrite bind_ret_l. unfold map_next.
  by rewrite (proj2 (Nat.ltb_ge n (length es))) by lia.
Qed.

Lemma iterate_from es n seen : (n <= length es)%nat -> forall fuel, (length es - n <= fuel)%nat ->
  iterate es fuel (ValueIteratorBase_at n) (ValueIteratorBase_at (length es)) seen
    = Ret (seen ++ ((fun '(s, x) => (step_key s, x)) <$> drop n es)).
Proof.
  intros Hn fuel. revert n seen Hn. induction fuel as [|f IH]; intros n seen Hn Hf; cbn [iterate isEqual ValueIteratorBase_at isNull_ current_ map_same].
  - rewrite bind_ret_l. rewrite (proj2 (Nat.eqb_eq n (length es))) by lia. rewrite drop_ge by lia. cbn. by rewrite app_nil_r.
  - rewrite bind_ret_l. destruct (Nat.eqb_spec n (length es)) as [->|Hne].
    { rewrite drop_ge by lia. cbn. by rewrite app_nil_r. }
    destruct (lookup_lt_is_Some_2 es n) as [[s x] E]; [lia|].
    unfold key, iter_deref, entry_at, increment, map_next. cbn [current_ isNull_ ValueIteratorBase_at]. rewrite E, !bind_ret_l.
    rewrite (proj2 (Nat.ltb_lt n (length es))) by lia. rewrite !bind_ret_l.
    rewrite (IH (S n)) by lia. rewrite (drop_S es (s, x) n) by done. cbn [fmap list_fmap fst snd]. rewrite <- app_assoc. by destruct s.
Qed.

Lemma map_sorted_NoDup {K V} `{KeyLaws K} (m : stdmap K V) : map_sorted m -> NoDup m.*1.
Proof.
  induction m as [|[k v] m IH]; [by constructor|]. rewrite map_sorted_cons. intros [Hm Hf]. cbn. constructor; [|by apply IH].
  intros ([l w] & E & Hin)%list_elem_of_fmap. cbn in E. subst l. rewrite Forall_forall in Hf.
  specialize (Hf _ Hin). cbn in Hf. by rewrite key_lt_irrefl in Hf.
Qed.

Lemma entries_child v s x : wf v -> (s, x) ∈ entries v <-> child v s = Some x.
Proof.
  intros Hv. destruct v as [[] c]; unfold entries, child; cbn [value_];
    try (split; [by intros H%not_elem_of_nil|by destruct s]).
  - apply wf_array in Hv as (_ & Hm & _). rewrite list_elem_of_fmap. split.
    + intros ([i y] & [= -> ->] & H). by apply map_in_find.
    + destruct s as [i|]; [|done]. intros H%map_find_Some_in. by exists (i, x).
  - apply wf_object in Hv as (_ & Hm & _). rewrite list_elem_of_fmap. split.
    + intros ([i y] & [= -> ->] & H). by apply map_in_find.
    + destruct s as [|k]; [done|]. intros H%map_find_Some_in. by exists (k, x).
Qed.

(** C39: a loop from [begin()] to [end()] of any well-formed value visits its
    elements, each once under its key in the order of the keys, and nothing for
    a value that is no container.  The number of elements is [begin() - end()]:
    the difference [a - b] counts the steps from [a] to [b], the other way round
    than for the iterators of the library, so that [end() - begin()] steps
    beyond the end of a container that is not empty, which is undefined. *)
Theorem iteration_visits v : wf v -> Z.of_nat (length (entries v)) < 2 ^ 31 ->
  visit v = Ret ((fun '(s, x) => (step_key s, x)) <$> entries v)
  /\ operator_minus (entries v) (value_begin v) (value_end v) = Ret (Z.of_nat (length (entries v)))
  /\ operator_minus (entries v) (value_end v) (value_begin v) = (if entries v is [] then Ret 0 else Undef)
  /\ (forall s x, (s, x) ∈ entries v <-> child v s = Some x)
  /\ NoDup (entries v).*1.
Proof.
  intros Hv Hl. assert (Hd : NoDup (entries v).*1).
  { destruct v as [[] c]; unfold entries; cbn [value_]; try apply NoDup_nil_2.
    - apply wf_array in Hv as (_ & Hm & _). rewrite <- list_fmap_compose.
      rewrite (list_fmap_ext _ (Index ∘ fst)) by (by intros ? []). rewrite list_fmap_compose.
      apply NoDup_fmap; [by intros ? ? [=]|]. by apply map_sorted_NoDup.
    - apply wf_object in Hv as (_ & Hm & _). rewrite <- list_fmap_compose.
      rewrite (list_fmap_ext _ (Member ∘ fst)) by (by intros ? []). rewrite list_fmap_compose.
      apply NoDup_fmap; [by intros ? ? [=]|]. by apply map_sorted_NoDup. }
  split; [|split; [|split; [|split; [by intros; apply entries_child|done]]]].
  - unfold visit. destruct v as [[] c]; try reflexivity; (etransitivity; [apply (iterate_from _ 0 []); lia|done]).
  - destruct v as [[] c]; try reflexivity; (etransitivity; [apply (distance_from _ 0 _ 0); lia|f_equal; lia]).
  - unfold operator_minus, computeDistance, value_end.
    destruct v as [[] c]; try reflexivity; cbn [value_ isNull_ ValueIteratorBase_at andb];
      (destruct (entries _) as [|e es]; [done|apply (distance_past (e :: es)); cbn [length]; lia]).
Qed.

(** A sparse array in an object. *)
Definition sample_tree : Value :=
  plain (d_object [(codes "a", plain (d_array [(0, Value_int 5); (3, Value_bool true)])); (codes "b", null)]).

Lemma iteration_visits_witness :
  visit sample_tree = Ret [(Value_string (codes "a"), plain (d_array [(0, Value_int 5); (3, Value_bool true)]));
                           (Value_string (codes "b"), null)]
  /\ operator_minus (entries sample_tree) (value_begin sample_tree) (value_end sample_tree) = Ret 2
  /\ operator_minus (entries sample_tree) (value_end sample_tree) (value_begin sample_tree) = Undef.
Proof.
  destruct (iteration_visits sample_tree) as (H1 & H2 & H3 & _); [by apply wfb_wf|done|].
  split; [exact H1|split; [exact H2|exact H3]].
Defined.

(** Stepping back returns to the entry. *)
Lemma decrement_increment es it it' : increment es it = Ret it' -> decrement it' = Ret it.
Proof.
  unfold increment, decrement, map_next. destruct it as [[n|] b]; cbn [mbind cpp_bind current_ isNull_]; [|done].
  destruct (n <? length es)%nat; cbn [mbind cpp_bind]; [|done]. by intros [= <-].
Qed.

(** Assigning [begin()] to a default iterator leaves [isNull_] set: it never
    equals [end()], and the loop runs past the last entry. *)
Lemma assigned_iterator_runs_on v : type_ v = arrayValue \/ type_ v = objectValue ->
  iterate (entries v) (S (length (entries v))) (copy ValueIteratorBase_null (value_begin v)) (value_end v) [] = Undef.
Proof.
  intros Hv. assert (H : forall es fuel n seen, (n <= length es)%nat -> (length es - n < fuel)%nat ->
    iterate es fuel {| current_ := Some n; isNull_ := true |} (ValueIteratorBase_at (length es)) seen = Undef).
  { intros es fuel. induction fuel as [|f IH]; intros n seen Hn Hf; [lia|].
    cbn [iterate isEqual ValueIteratorBase_at isNull_ current_]. rewrite bind_ret_l.
    unfold key, iter_deref, entry_at, increment, map_next. cbn [current_ isNull_].
    destruct (es !! n) as [[s x]|] eqn:E; [|done]. rewrite !bind_ret_l. apply lookup_lt_Some in E.
    rewrite (proj2 (Nat.ltb_lt n (length es))), !bind_ret_l by lia. apply IH; lia. }
  destruct v as [[] c]; destruct Hv; try done; apply H; lia.
Qed.
