(* ===== verification/JsonPath.v ===== *)
(** * Paths into JSON values (src/public/json/json_value.cpp, include/value.h)

    The classes [PathArgument] and [Path]: a text such as [.name[3]] becomes a
    list of arguments, which is resolved in a value or made in it.  The
    functions that report errors are empty in the source, so that a path that
    is not valid goes on; a [const Value &] to the static null is [None] in
    [JsonValue] and is followed as the null value. *)
From Stdlib Require Import SpecFloat.
From S2P Require Import Prelude Words Buffers CString StdMap Decimal Double JsonValue JsonOps.

(** ** Data *)

Inductive PathArgument := ArgNone | ArgIndex (index_ : Z) | ArgKey (key_ : list Z).

#[global] Instance PathArgument_eq_dec : EqDecision PathArgument.
Proof. solve_decision. Defined.

Definition PathArgument_index (index : Z) : PathArgument := ArgIndex index.
Definition PathArgument_key (key : list Z) : PathArgument := ArgKey (upto_nul key).

Inductive Kind := kindNone | kindIndex | kindKey.
#[global] Instance Kind_eq_dec : EqDecision Kind.
Proof. solve_decision. Defined.

Definition kind_ (a : PathArgument) : Kind :=
  match a with ArgNone => kindNone | ArgIndex _ => kindIndex | ArgKey _ => kindKey end.

(** ** Making a path from its text *)

(** [addPathInArg]: the iterator over the arguments is never advanced. *)
Definition addPathInArg (ins : list PathArgument) (itInArg : nat) (kind : Kind) (args : list PathArgument)
    : list PathArgument :=
  match ins !! itInArg with
  | None => args
  | Some a => if bool_decide (kind_ a = kind) then args ++ [a] else args
  end.

(** The digits of an index, in unsigned arithmetic. *)
Fixpoint index_loop (fuel : nat) (path : list Z) (current finish index : Z) : cpp (Z * Z) :=
  match fuel with
  | O => NoFuel
  | S f =>
      if current =? finish then Ret (index, current)
      else
        c ← buf_get path current;
        if (48 <=? c) && (c <=? 57)
        then index_loop f path (current + 1) finish (u32 (u32 (index * 10) + u32 (c - 48)))
        else Ret (index, current)
  end.

(** The characters of a name; [strchr] also finds the terminator. *)
Fixpoint name_loop (fuel : nat) (path : list Z) (current finish : Z) : cpp Z :=
  match fuel with
  | O => NoFuel
  | S f =>
      if current =? finish then Ret current
      else
        c ← buf_get path current;
        if negb ((c =? 91) || (c =? 46) || (c =? 0)) then name_loop f path (current + 1) finish else Ret current
  end.

(** One round of [makePath]; [invalidPath] does nothing. *)
Definition path_step (fuel : nat) (path : list Z) (finish : Z) (ins : list PathArgument) (st : Z * list PathArgument)
    : cpp (Z * list PathArgument) :=
  let '(current, args) := st in
  c ← buf_get path current;
  if c =? 91 then
    let current := current + 1 in
    d ← buf_get path current;
    '(current, args) ←
      (if d =? 37 then Ret (current, addPathInArg ins 0 kindIndex args)
       else '(index, current) ← index_loop fuel path current finish 0; Ret (current, args ++ [PathArgument_index index]));
    if current =? finish then Ret (current, args)
    else _ ← buf_get path current; Ret (current + 1, args)
  else if c =? 37 then Ret (current + 1, addPathInArg ins 0 kindKey args)
  else if c =? 46 then Ret (current + 1, args)
  else
    let beginName := current in
    current ← name_loop fuel path current finish;
    name ← buf_read path beginName (current - beginName);
    Ret (current, args ++ [PathArgument_key name]).

Definition makePath (path : list Z) (ins : list PathArgument) : cpp (list PathArgument) :=
  let finish := Z.of_nat (length path) in
  let fuel := S (length path) in
  st ← cwhile fuel (fun st => negb (st.1 =? finish)) (path_step fuel (path ++ [0]) finish ins) (0, []);
  Ret st.2.

(** [Path(path, a1, ..., a5)]. *)
Definition Path (path : list Z) (a1 a2 a3 a4 a5 : PathArgument) : cpp (list PathArgument) :=
  makePath path [a1; a2; a3; a4; a5].

(** ** Following a path *)

Definition or_null (o : option Value) : Value := from_option (fun x => x) null o.

Fixpoint path_resolve (args : list PathArgument) (node : Value) : cpp Value :=
  match args with
  | [] => Ret node
  | arg :: rest =>
      match arg with
      | ArgIndex i =>
          _ ← (if isArray node then isValidIndex node i else Ret false);
          o ← index_get node i; path_resolve rest (or_null o)
      | ArgKey k => o ← member_get node k; path_resolve rest (or_null o)
      | ArgNone => path_resolve rest node
      end
  end.

Fixpoint path_resolve_default (args : list PathArgument) (node defaultValue : Value) : cpp Value :=
  match args with
  | [] => Ret node
  | arg :: rest =>
      match arg with
      | ArgIndex i =>
          if negb (isArray node) then Ret defaultValue
          else
            valid ← isValidIndex node i;
            if valid : bool then Ret defaultValue
            else o ← index_get node i; path_resolve_default rest (or_null o) defaultValue
      | ArgKey k =>
          if negb (isObject node) then Ret defaultValue
          else
            o ← member_get node k;
            match o with
            | None => Ret defaultValue
            | Some node => path_resolve_default rest node defaultValue
            end
      | ArgNone => path_resolve_default rest node defaultValue
      end
  end.

(** One step of [make]: the element is created and the pointer moves to it. *)
Definition make_step (root : Value) (node : pointer) (arg : PathArgument) : cpp (Value * pointer) :=
  let through (f : Value -> cpp Value) (s : step) :=
    match deref root node with
    | None => Undef
    | Some c => c' ← f c; Ret (store root node (fun _ => c'), node ++ [s])
    end in
  match arg with
  | ArgIndex i => through (fun v => index_ref v i) (Index (s32 i))
  | ArgKey k => through (fun v => resolveReference v k) (Member (upto_nul k))
  | ArgNone => Ret (root, node)
  end.

Fixpoint path_make_from (args : list PathArgument) (root : Value) (node : pointer) : cpp (Value * pointer) :=
  match args with
  | [] => Ret (root, node)
  | arg :: rest => '(root, node) ← make_step root node arg; path_make_from rest root node
  end.

(** [Path::make(root)]: the changed root and the reference it returns. *)
Definition path_make (args : list PathArgument) (root : Value) : cpp (Value * pointer) := path_make_from args root [].

(** ** What a path reaches

    [reaches]: every container on the path has the type its argument needs, or
    is null; [found] is the node at its end and [put] the tree with another
    node there, the containers on the way made. *)
Definition element_at (v : Value) (a : PathArgument) : Value :=
  match a with
  | ArgIndex i => or_null (map_find i (elements v))
  | ArgKey k => or_null (map_find k (members v))
  | ArgNone => v
  end.

Fixpoint reaches (args : list PathArgument) (v : Value) : bool :=
  match args with
  | [] => true
  | a :: rest =>
      match a with ArgIndex _ => isArray v | ArgKey _ => isObject v | ArgNone => true end && reaches rest (element_at v a)
  end.

Fixpoint found (args : list PathArgument) (v : Value) : Value :=
  match args with [] => v | a :: rest => found rest (element_at v a) end.

Fixpoint put (args : list PathArgument) (v y : Value) : Value :=
  match args with
  | [] => y
  | ArgIndex i :: rest =>
      MkValue (d_array (map_update i (fun o => put rest (or_null o) y) (elements v))) (comments_ v)
  | ArgKey k :: rest =>
      MkValue (d_object (map_update k (fun o => put rest (or_null o) y) (members v))) (comments_ v)
  | ArgNone :: rest => put rest v y
  end.

Definition arg_ok (a : PathArgument) : Prop :=
  match a with ArgIndex i => 0 <= i < maxInt | ArgKey k => cstring k | ArgNone => True end.

Definition arg_steps (a : PathArgument) : pointer :=
  match a with ArgIndex i => [Index i] | ArgKey k => [Member k] | ArgNone => [] end.

Definition path_steps (args : list PathArgument) : pointer := mjoin (arg_steps <$> args).

Lemma or_null_wf o : (forall x, o = Some x -> wf x) -> wf (or_null o).
Proof. destruct o; intros H; [by apply H|apply wf_null]. Qed.

Lemma element_wf v a : wf v -> wf (element_at v a).
Proof.
  intros Hv. destruct a as [|i|k]; [done|..]; apply or_null_wf; intros x E.
  - destruct v as [[] c]; try discriminate E. by apply (wf_child _ _ (Index i) x Hv).
  - destruct v as [[] c]; try discriminate E. by apply (wf_child _ _ (Member k) x Hv).
Qed.

Lemma found_wf args v : wf v -> wf (found args v).
Proof. revert v. induction args as [|a args IH]; intros v Hv; [done|]. apply IH. by apply element_wf. Qed.

Lemma put_wf args v y : Forall arg_ok args -> wf v -> wf y -> reaches args v = true -> wf (put args v y).
Proof.
  intros Ha. revert v. induction Ha as [|a args Hok Ha IH]; intros v Hv Hy Hr; [done|]. cbn [reaches] in Hr.
  apply andb_true_iff in Hr as [Ht Hr]. pose proof (element_wf v a Hv) as He. destruct a as [|i|k]; cbn [put element_at] in *.
  - by apply IH.
  - destruct (value_arrays _ v Hv Ht) as [_ Hw].
    apply wf_update_array; [done|done|intros x Ex _|intros Ex]; rewrite Ex in *; by apply IH.
  - destruct (value_objects _ v Hv Ht) as [_ Hw].
    apply wf_update_object; [done|done|intros x Ex _|intros Ex]; rewrite Ex in *; by apply IH.
Qed.

(** What is put is found. *)
Lemma put_found args v y : reaches args v = true ->
  reaches args (put args v y) = true /\ found args (put args v y) = y /\ deref (put args v y) (path_steps args) = Some y.
Proof.
  revert v. induction args as [|a args IH]; intros v Hr; [done|]. cbn [reaches] in Hr.
  apply andb_true_iff in Hr as [Ht Hr]. destruct (IH _ Hr) as (H1 & H2 & H3).
  destruct a as [|i|k]; cbn [put reaches found element_at elements members value_] in *; [done|..];
    rewrite map_find_update; cbn [or_null from_option]; (split; [exact H1|]; split; [exact H2|]);
    unfold path_steps; cbn [fmap list_fmap mjoin list_join arg_steps app deref child value_]; rewrite map_find_update; exact H3.
Qed.

Lemma child_null s : child null s = None.
Proof. by destruct s. Qed.
Lemma deref_null q : q <> [] -> deref null q = None.
Proof. destruct q as [|s q]; [done|]. intros _. cbn. by rewrite child_null. Qed.

(** What an element made for an argument is to the other elements. *)
Lemma child_put_ne a args v y s : reaches (a :: args) v = true -> [s] <> arg_steps a -> a <> ArgNone ->
  child (put (a :: args) v y) s = child v s.
Proof.
  intros Hr Hs Ha. cbn [reaches] in Hr. apply andb_true_iff in Hr as [Ht _].
  destruct a as [|i|k]; [done|..]; cbn [put arg_steps] in *; destruct s as [j|l]; destruct v as [[] c];
    try discriminate Ht; try done; unfold child; cbn [value_ elements members]; by rewrite map_find_update_ne by congruence.
Qed.

Lemma child_put a args v y s : arg_steps a = [s] -> reaches (a :: args) v = true ->
  child (put (a :: args) v y) s = Some (put args (or_null (child v s)) y) /\ element_at v a = or_null (child v s).
Proof.
  intros Es Hr. cbn [reaches] in Hr. apply andb_true_iff in Hr as [Ht _].
  destruct a as [|i|k]; [done|..]; injection Es as <-; cbn [put]; unfold child; cbn [value_]; rewrite map_find_update;
    destruct v as [[] c]; by try discriminate Ht.
Qed.

(** Making a path leaves everything beside it as it was. *)
Lemma put_beside args v p : reaches args v = true -> ~ p `prefix_of` path_steps args ->
  deref (put args v (found args v)) p = deref v p.
Proof.
  revert v p. induction args as [|a args IH]; intros v p Hr Hp; [done|].
  destruct p as [|s q]; [by destruct Hp; apply prefix_nil|]. destruct (decide (a = ArgNone)) as [->|Ha].
  { by apply (IH v). }
  destruct (decide (arg_steps a = [s])) as [Es|Hs].
  - assert (~ q `prefix_of` path_steps args) as Hq.
    { intros Hq. apply Hp. unfold path_steps. cbn [fmap list_fmap mjoin list_join]. rewrite Es. by apply prefix_cons. }
    assert (q <> []) as Hne by (intros ->; apply Hq, prefix_nil).
    destruct (child_put a args v (found (a :: args) v) s Es Hr) as [Ec Ee]. cbn [deref]. rewrite Ec. cbn [mbind option_bind].
    cbn [reaches] in Hr. apply andb_true_iff in Hr as [_ Hr]. cbn [found]. rewrite Ee in *. rewrite (IH _ _ Hr Hq).
    destruct (child v s); [done|]. by apply deref_null.
  - cbn [deref]. by rewrite child_put_ne by congruence.
Qed.

(** A container on the way keeps its comments, and its type unless it was null. *)
Definition grown (x x' : Value) : Prop :=
  comments_ x' = comments_ x /\ (type_ x' = type_ x \/ type_ x = nullValue).

Lemma put_grown args v p x : reaches args v = true -> deref v p = Some x ->
  exists x', deref (put args v (found args v)) p = Some x' /\ grown x x'.
Proof.
  revert v p. induction args as [|a args IH]; intros v p Hr Hd; [exists x; split; [done|split; [done|by left]]|].
  destruct (decide (a = ArgNone)) as [->|Ha]; [by apply (IH v)|]. destruct p as [|s q].
  - cbn [deref] in *. injection Hd as <-. cbn [reaches] in Hr. apply andb_true_iff in Hr as [Ht _]. eexists. split; [done|].
    destruct a as [|i|k]; [done|..]; (split; [done|]); destruct v as [[] c]; try discriminate Ht; first [by left|by right].
  - cbn [deref] in *. destruct (decide (arg_steps a = [s])) as [Es|Hs].
    + destruct (child_put a args v (found (a :: args) v) s Es Hr) as [Ec Ee]. rewrite Ec. cbn [mbind option_bind].
      cbn [reaches] in Hr. apply andb_true_iff in Hr as [_ Hr]. cbn [found]. rewrite Ee in *.
      destruct (child v s) as [c|]; [|done]. by apply (IH c).
    + rewrite child_put_ne by congruence. exists x. split; [done|]. split; [done|by left].
Qed.

Lemma store_put args v x y : reaches args v = true ->
  store (put args v x) (path_steps args) (fun _ => y) = put args v y.
Proof.
  revert v. induction args as [|a args IH]; intros v Hr; [done|]. cbn [reaches] in Hr.
  apply andb_true_iff in Hr as [Ht Hr]. specialize (IH _ Hr).
  destruct a as [|i|k]; cbn [put element_at] in *; [done|..];
    unfold path_steps; cbn [fmap list_fmap mjoin list_join arg_steps app store set_child value_ comments_];
    rewrite map_update_update; do 2 f_equal; apply map_update_ext; exact IH.
Qed.

(** ** Resolving *)

Lemma resolve_ok args v : Forall arg_ok args -> wf v ->
  path_resolve args v = if reaches args v then Ret (found args v) else Abort.
Proof.
  intros Ha. revert v. induction Ha as [|a args Hok Ha IH]; intros v Hv; [done|].
  pose proof (element_wf v a Hv) as He. specialize (IH _ He).
  destruct a as [|i|k]; cbn [path_resolve reaches found element_at arg_ok] in *; [by apply IH|..].
  - unfold index_get. rewrite s32_index by done. destruct v as [[] c]; try reflexivity; try exact IH.
    change (isArray (MkValue (d_array m) c)) with true. cbn [value_ elements andb] in *. unfold isValidIndex.
    rewrite size_array, !bind_ret_l by done. exact IH.
  - unfold member_get. rewrite upto_nul_id by done. destruct v as [[] c]; try reflexivity; exact IH.
Qed.

(** With a default, an index that is valid gives the default. *)
Lemma valid_index_gives_default i args m c d : wf (MkValue (d_array m) c) -> 0 <= i < maxInt -> is_Some (map_find i m) ->
  path_resolve_default (ArgIndex i :: args) (MkValue (d_array m) c) d = Ret d.
Proof.
  intros Hw Hi [x E]. cbn [path_resolve_default]. change (negb (isArray (MkValue (d_array m) c))) with false.
  cbv iota. unfold isValidIndex. rewrite size_array, !bind_ret_l by done. apply wf_array in Hw as (_ & Hm & _).
  apply map_find_Some_in in E. pose proof (index_below _ _ _ Hm E). by replace (i <? top m) with true by lia.
Qed.

(** ** Making *)

Lemma make_from_ok args root node v : Forall arg_ok args -> deref root node = Some v -> wf v ->
  path_make_from args root node =
    if reaches args v then Ret (store root node (fun _ => put args v (found args v)), node ++ path_steps args) else Abort.
Proof.
  intros Ha. revert root node v. induction Ha as [|a args Hok Ha IH]; intros root node v E Hv.
  { cbn. unfold path_steps. cbn. rewrite app_nil_r. do 2 f_equal. symmetry. by apply store_same. }
  pose proof (element_wf v a Hv) as He. destruct a as [|i|k]; cbn [path_make_from make_step reaches arg_ok] in *.
  - rewrite bind_ret_l. by apply IH.
  - rewrite E. destruct (isArray v) eqn:Ht; cbn [andb].
    2:{ by destruct v as [[] c]. }
    rewrite index_ref_array, !bind_ret_l, s32_index by done. set (v1 := MkValue _ _).
    assert (Ed : deref (store root node (fun _ => v1)) (node ++ [Index i]) = Some (element_at v (ArgIndex i))).
    { rewrite deref_app, (deref_store _ _ _ _ E). cbn. by rewrite map_find_update. }
    rewrite (IH _ _ _ Ed He). case_match; [|done]. unfold path_steps. cbn [fmap list_fmap mjoin list_join arg_steps app].
    rewrite <- app_assoc. do 2 f_equal. rewrite store_app, (store_store _ _ _ _ _ E).
    apply (store_ext _ _ _ _ v); [done|]. cbn [store set_child value_ comments_ v1 put found element_at].
    rewrite map_update_update. do 2 f_equal. by apply map_update_ext.
  - rewrite E. destruct (isObject v) eqn:Ht; cbn [andb].
    2:{ by destruct v as [[] c]. }
    rewrite (resolve_object _ v k Hv), !bind_ret_l, upto_nul_id by done. set (v1 := MkValue _ _).
    assert (Ed : deref (store root node (fun _ => v1)) (node ++ [Member k]) = Some (element_at v (ArgKey k))).
    { rewrite deref_app, (deref_store _ _ _ _ E). cbn. by rewrite map_find_update. }
    rewrite (IH _ _ _ Ed He). case_match; [|done]. unfold path_steps. cbn [fmap list_fmap mjoin list_join arg_steps app].
    rewrite <- app_assoc. do 2 f_equal. rewrite store_app, (store_store _ _ _ _ _ E).
    apply (store_ext _ _ _ _ v); [done|]. cbn [store set_child value_ comments_ v1 put found element_at].
    rewrite map_update_update. do 2 f_equal. by apply map_update_ext.
Qed.

(** ** The text of a path *)

Definition name_char (c : Z) : bool := negb ((c =? 91) || (c =? 46) || (c =? 0)).

(** A name that can be spelled: no bracket, point or terminator, and not a
    percent sign in front. *)
Definition spelled (k : list Z) : Prop :=
  cstring k /\ Forall (fun c => name_char c = true) k /\ match k with c :: _ => c <> 37 | [] => False end.

Definition plain_arg (a : PathArgument) : Prop :=
  match a with ArgIndex i => 0 <= i < maxInt | ArgKey k => spelled k | ArgNone => False end.

Definition arg_text (a : PathArgument) : list Z :=
  match a with ArgIndex i => 91 :: dec i ++ [93] | ArgKey k => 46 :: k | ArgNone => [] end.

Definition path_text (args : list PathArgument) : list Z := mjoin (arg_text <$> args).

Lemma plain_arg_ok a : plain_arg a -> arg_ok a.
Proof. destruct a as [|i|k]; [done|done|]. by intros (H & _). Qed.

Lemma get_at (pre : list Z) c rest i : i = Z.of_nat (length pre) -> buf_get (pre ++ c :: rest) i = Ret c.
Proof. intros ->. apply buf_get_ok; [lia|]. by rewrite Nat2Z.id, list_lookup_middle. Qed.

(** A name ends at the end of the path or before a character that ends it. *)
Lemma name_loop_ok w : Forall (fun c => name_char c = true) w -> forall fuel pre rest finish,
  (length w < fuel)%nat -> Z.of_nat (length pre + length w) <= finish ->
  Z.of_nat (length pre + length w) = finish \/ (exists c r, rest = c :: r /\ name_char c = false) ->
  name_loop fuel (pre ++ w ++ rest) (Z.of_nat (length pre)) finish = Ret (Z.of_nat (length pre + length w)).
Proof.
  induction 1 as [|c w Hc Hw IH]; intros [|fuel] pre rest finish Hf Hl He; cbn [length app] in *; [lia| |lia|]; cbn [name_loop].
  - rewrite Nat.add_0_r in *. destruct (Z.eqb_spec (Z.of_nat (length pre)) finish); [done|].
    destruct He as [|(c & r & -> & Hc)]; [done|]. rewrite (get_at pre c r), bind_ret_l by done.
    unfold name_char in Hc. by rewrite Hc.
  - replace (Z.of_nat (length pre) =? finish) with false by lia. rewrite (get_at pre c), bind_ret_l by done.
    unfold name_char in Hc. rewrite Hc. specialize (IH fuel (pre ++ [c]) rest finish). rewrite length_app in IH. cbn in IH.
    rewrite <- app_assoc in IH. cbn [app] in IH.
    replace (Z.of_nat (length pre) + 1) with (Z.of_nat (length pre + 1)) by lia. rewrite IH; [f_equal; lia|lia|lia|].
    destruct He as [He|He]; [left; lia|by right].
Qed.

Lemma u32_digit a d : u32 (u32 (u32 a * 10) + u32 d) = u32 (a * 10 + d).
Proof. unfold u32. by rewrite <- Zplus_mod, Zplus_mod, Zmult_mod_idemp_l, <- Zplus_mod. Qed.

Lemma index_loop_ok ds : digits ds -> forall fuel pre rest finish a,
  (length ds < fuel)%nat -> Z.of_nat (length pre + length ds) < finish ->
  index_loop fuel (pre ++ ds ++ 93 :: rest) (Z.of_nat (length pre)) finish (u32 a)
    = Ret (u32 (foldl (fun a c => a * 10 + (c - 48)) a ds), Z.of_nat (length pre + length ds)).
Proof.
  induction 1 as [|c w Hc Hw IH]; intros [|fuel] pre rest finish a Hf Hl; cbn [length app foldl] in *; [lia| |lia|]; cbn [index_loop].
  - replace (Z.of_nat (length pre) =? finish) with false by lia.
    rewrite (get_at pre 93), bind_ret_l by done. cbn [Z.leb andb]. by rewrite Nat.add_0_r.
  - replace (Z.of_nat (length pre) =? finish) with false by lia. rewrite (get_at pre c), bind_ret_l by done.
    unfold isdigit in Hc. rewrite Hc, u32_digit. specialize (IH fuel (pre ++ [c]) rest finish (a * 10 + (c - 48))).
    rewrite length_app in IH. cbn in IH. rewrite <- app_assoc in IH. cbn [app] in IH.
    replace (Z.of_nat (length pre) + 1) with (Z.of_nat (length pre + 1)) by lia. rewrite IH by lia. do 2 f_equal. lia.
Qed.

Lemma path_text_cons a args : path_text (a :: args) = arg_text a ++ path_text args.
Proof. done. Qed.

Lemma path_text_head args : Forall plain_arg args -> args <> [] ->
  exists c r, path_text args = c :: r /\ name_char c = false.
Proof.
  intros Ha Hn. destruct Ha as [|a args Hp Ha]; [done|]. rewrite path_text_cons.
  destruct a as [|i|k]; [done|..]; eexists _, _; (split; [reflexivity|done]).
Qed.

(** The rounds for one argument. *)
Lemma index_round F pre i rest finish ins acc : 0 <= i < maxInt -> (length (dec i) < F)%nat ->
  Z.of_nat (length pre + length (dec i) + 2) <= finish ->
  path_step F (pre ++ (91 :: dec i ++ [93]) ++ rest) finish ins (Z.of_nat (length pre), acc)
    = Ret (Z.of_nat (length (pre ++ 91 :: dec i ++ [93])), acc ++ [ArgIndex i]).
Proof.
  intros Hi HF Hl. unfold path_step. cbn [app].
  rewrite (get_at pre 91 ((dec i ++ [93]) ++ rest) (Z.of_nat (length pre)) eq_refl), bind_ret_l.
  change (91 =? 91) with true. cbv iota zeta.
  destruct (dec i) as [|d ds] eqn:Ed; [by apply dec_nonnil in Ed|].
  pose proof (dec_is_digits i) as Hd. rewrite Ed in Hd. pose proof Hd as Hd'. apply Forall_cons in Hd' as [Hd1 _].
  assert (Et : pre ++ 91 :: ((d :: ds) ++ [93]) ++ rest = (pre ++ [91]) ++ d :: ds ++ 93 :: rest)
    by (by rewrite <- !app_assoc).
  rewrite Et, (get_at (pre ++ [91]) d), bind_ret_l by (rewrite length_app; cbn; lia).
  unfold isdigit in Hd1. replace (d =? 37) with false by lia.
  pose proof (index_loop_ok (d :: ds) Hd F (pre ++ [91]) rest finish 0) as E. rewrite length_app in E. cbn [length] in *.
  replace (Z.of_nat (length pre) + 1) with (Z.of_nat (length pre + 1)) by lia.
  change (u32 0) with 0 in E. change ((d :: ds) ++ 93 :: rest) with (d :: ds ++ 93 :: rest) in E. rewrite E, !bind_ret_l by lia.
  rewrite (proj2 (Z.eqb_neq (Z.of_nat (length pre + 1 + S (length ds))) finish)) by lia.
  replace ((pre ++ [91]) ++ d :: ds ++ 93 :: rest) with ((pre ++ 91 :: d :: ds) ++ 93 :: rest)
    by (rewrite <- !app_assoc; done).
  rewrite (get_at _ 93), bind_ret_l by (rewrite length_app; cbn; lia). unfold PathArgument_index. f_equal. f_equal.
  - rewrite !length_app. cbn [length]. rewrite length_app. cbn. lia.
  - do 3 f_equal. rewrite <- Ed. change (foldl _ 0 (dec i)) with (dec_value (dec i)).
    rewrite dec_value_dec by lia. apply u32_id. unfold is_u32, maxInt in *. lia.
Qed.

Lemma name_round F pre k rest finish ins acc : spelled k -> (length k < F)%nat ->
  Z.of_nat (length pre + length k) <= finish ->
  Z.of_nat (length pre + length k) = finish \/ (exists c r, rest = c :: r /\ name_char c = false) ->
  path_step F (pre ++ k ++ rest) finish ins (Z.of_nat (length pre), acc)
    = Ret (Z.of_nat (length (pre ++ k)), acc ++ [ArgKey k]).
Proof.
  intros (Hk & Hn & Hp) HF Hl He. destruct k as [|c k]; [done|]. unfold path_step. cbn [app].
  rewrite (get_at pre c (k ++ rest) _ eq_refl), bind_ret_l. pose proof Hn as Hn'. apply Forall_cons in Hn' as [Hc _].
  unfold name_char in Hc. replace (c =? 91) with false by lia. replace (c =? 37) with false by lia.
  replace (c =? 46) with false by lia. cbv zeta. change (c :: k ++ rest) with ((c :: k) ++ rest).
  rewrite (name_loop_ok (c :: k) Hn F pre rest finish), bind_ret_l by done.
  rewrite buf_read_ok by (rewrite ?length_app; lia).
  replace (Z.to_nat (Z.of_nat (length pre + length (c :: k)) - Z.of_nat (length pre))) with (length (c :: k)) by lia.
  rewrite Nat2Z.id, slice_middle, bind_ret_l. unfold PathArgument_key. rewrite upto_nul_id by done. by rewrite length_app.
Qed.

Lemma point_round F pre rest finish ins acc :
  path_step F (pre ++ 46 :: rest) finish ins (Z.of_nat (length pre), acc) = Ret (Z.of_nat (length (pre ++ [46])), acc).
Proof.
  unfold path_step. rewrite (get_at pre 46 rest _ eq_refl), bind_ret_l. cbn. rewrite length_app. cbn. do 2 f_equal. lia.
Qed.

(** A path that is printed is parsed again. *)
Lemma makePath_from args : Forall plain_arg args -> forall t fuel pre ins acc,
  t = pre ++ path_text args -> (length (path_text args) <= fuel)%nat ->
  cwhile fuel (fun st => negb (st.1 =? Z.of_nat (length t))) (path_step (S (length t)) (t ++ [0]) (Z.of_nat (length t)) ins)
      (Z.of_nat (length pre), acc)
    = Ret (Z.of_nat (length t), acc ++ args).
Proof.
  induction 1 as [|a args Ha Hs IH]; intros t fuel pre ins acc Et Hf.
  { rewrite Et, !app_nil_r. apply cwhile_stop. cbn. by rewrite Z.eqb_refl. }
  rewrite path_text_cons in *. pose proof (f_equal length Et) as El. rewrite !length_app in El. rewrite length_app in Hf.
  assert (Hn : forall n, (n < length t)%nat -> negb (Z.of_nat n =? Z.of_nat (length t)) = true) by (intros; lia).
  destruct a as [|i|k]; [done|..]; cbn [arg_text length] in *.
  - rewrite length_app in Hf. rewrite length_app in El. cbn [length] in *. destruct fuel as [|fuel]; [lia|].
    erewrite cwhile_step; [|apply Hn; lia|].
    2:{ replace (t ++ [0]) with (pre ++ (91 :: dec i ++ [93]) ++ path_text args ++ [0]) by (rewrite Et; by rewrite <- !app_assoc).
        apply index_round; [done|lia|lia]. }
    rewrite (IH t fuel) by (rewrite ?Et, <- ?app_assoc; done || lia). by rewrite <- app_assoc.
  - destruct Ha as (Hk & Hname & Hp). assert (Hk1 : (0 < length k)%nat) by (destruct k; [done|cbn; lia]).
    cbn [length] in *. destruct fuel as [|[|fuel]]; [lia..|].
    erewrite cwhile_step; [|apply Hn; lia|].
    2:{ replace (t ++ [0]) with (pre ++ 46 :: k ++ path_text args ++ [0]) by (rewrite Et; by rewrite <- !app_assoc).
        apply point_round. }
    erewrite cwhile_step; [|apply Hn; rewrite length_app; cbn; lia|].
    2:{ replace (t ++ [0]) with ((pre ++ [46]) ++ k ++ path_text args ++ [0]) by (rewrite Et; by rewrite <- !app_assoc).
        apply name_round; [done|lia|rewrite length_app; cbn; lia|]. rewrite length_app. cbn [length].
        destruct (decide (args = [])) as [->|Hne]; [left; cbn in El; lia|right].
        destruct (path_text_head args Hs Hne) as (c & r & -> & Hc). cbn. eauto. }
    rewrite (IH t fuel) by (rewrite ?Et, <- ?app_assoc; done || lia). by rewrite <- app_assoc.
Qed.

Lemma makePath_text args ins : Forall plain_arg args -> makePath (path_text args) ins = Ret args.
Proof.
  intros Ha. pose proof (makePath_from args Ha (path_text args) (S (length (path_text args))) [] ins [] eq_refl) as E.
  change (Z.of_nat (length [])) with 0 in E. unfold makePath. cbv zeta. by rewrite E by lia.
Qed.

(** C38: the text of a path of names and indices is parsed as those arguments.
    Resolving them in a well-formed value gives the node they lead to, null
    where an element is missing; [make] creates the missing elements and
    returns a reference to that node, and what is written through the reference
    is what resolving finds.  [make] changes nothing else: every place that is
    not on the way to the node holds what it held, nothing new beside the way
    appears, and what was on the way keeps its comments, and its type unless it
    was null.  Both abort exactly when a container on the way has another type. *)
Theorem paths_reach args a1 a2 a3 a4 a5 root y : Forall plain_arg args -> wf root -> wf y ->
  Path (path_text args) a1 a2 a3 a4 a5 = Ret args /\
  if reaches args root then
    exists root' node, path_resolve args root = Ret (found args root)
      /\ path_make args root = Ret (root', node) /\ wf root' /\ deref root' node = Some (found args root)
      /\ path_resolve args (store root' node (fun _ => y)) = Ret y
      /\ node = path_steps args
      /\ (forall p, ~ p `prefix_of` node -> deref root' p = deref root p)
      /\ (forall p x, deref root p = Some x -> exists x', deref root' p = Some x' /\ grown x x')
  else path_resolve args root = Abort /\ path_make args root = Abort.
Proof.
  intros Ha Hr Hy. split; [by apply makePath_text|].
  assert (Ho : Forall arg_ok args) by (eapply Forall_impl; [exact Ha|]; apply plain_arg_ok).
  rewrite resolve_ok by done. unfold path_make. rewrite (make_from_ok _ _ _ root) by done.
  destruct (reaches args root) eqn:E; [|done]. cbn [store app].
  eexists _, _. split; [done|]. split; [done|]. split; [by apply put_wf; [..|apply found_wf|]|].
  split; [by apply put_found|]. split.
  { rewrite store_put by done. destruct (put_found args root y E) as (H1 & H2 & _).
    rewrite resolve_ok by (done || by apply put_wf). by rewrite H1, H2. }
  split; [done|]. split; [intros p; by apply put_beside|intros p x; by apply put_grown].
Qed.

(** [.a[3].b] in an object that has [a] as an array already. *)
Definition sample_path : list PathArgument := [ArgKey (codes "a"); ArgIndex 3; ArgKey (codes "b")].
Definition sample_root : Value := plain (d_object [(codes "a", plain (d_array [(0, Value_int 5)]))]).

Lemma paths_reach_witness : path_text sample_path = codes ".a[3].b" /\
  Path (path_text sample_path) ArgNone ArgNone ArgNone ArgNone ArgNone = Ret sample_path /\
  exists root' node, path_make sample_path sample_root = Ret (root', node) /\
    path_resolve sample_path (store root' node (fun _ => Value_int 7)) = Ret (Value_int 7) /\
    deref root' [Member (codes "a"); Index 0] = Some (Value_int 5).
Proof.
  split; [reflexivity|].
  assert (Ha : Forall plain_arg sample_path).
  { repeat constructor; unfold maxInt; try lia; try done; try (cbn; lia). }
  destruct (paths_reach sample_path ArgNone ArgNone ArgNone ArgNone ArgNone sample_root (Value_int 7) Ha) as [H1 H2];
    [by apply wfb_wf|by apply wfb_wf|].
  split; [exact H1|]. change (reaches sample_path sample_root) with true in H2. cbv iota in H2.
  destruct H2 as (root' & node & _ & E1 & _ & _ & E2 & E3 & E4 & _). exists root', node.
  split; [exact E1|split; [exact E2|]]. rewrite E4; [reflexivity|]. rewrite E3. intros [k Hk]. discriminate Hk.
Defined.

(** After [%] in brackets the closing bracket is taken for a name. *)
Lemma bracket_taken_for_a_name i a2 a3 a4 a5 :
  Path (codes "[%].x") (ArgIndex i) a2 a3 a4 a5 = Ret [ArgIndex i; ArgKey (codes "]"); ArgKey (codes "x")].
Proof. reflexivity. Qed.

(** Every percent sign takes the first argument. *)
Lemma percent_takes_the_first k a2 a3 a4 a5 :
  Path (codes ".%.%") (ArgKey k) a2 a3 a4 a5 = Ret [ArgKey k; ArgKey k].
Proof. reflexivity. Qed.

(** A terminator inside a path is never passed: the loop goes on for ever. *)
Lemma nul_in_path_loops ins fuel args :
  cwhile fuel (fun st => negb (st.1 =? 1)) (path_step 2 [0; 0] 1 ins) (0, args) = NoFuel.
Proof.
  revert args. induction fuel as [|f IH]; intros args; [done|].
  erewrite cwhile_step; [apply IH|done|]. reflexivity.
Qed.
