(* ===== verification/JsonBatch.v ===== *)
(** * The batch allocator (src/public/json/json_batchallocator.h)

    The class template [BatchAllocator]: objects of [objectPerAllocation] cells
    are cut from pages, and the released ones form a list threaded through
    their own memory.  An address is a page and the cell in it; [links_] is the
    pointer stored at the start of an object, which its owner may overwrite. *)
From S2P Require Import Prelude Words.

Definition address : Type := (nat * Z)%type.

(** A page: the next one of the list, two pointers into its buffer as numbers
    of cells, and the bytes that [malloc] was asked for. *)
Record BatchInfo := { next_ : option nat; used_ : Z; end_ : Z; bytes_ : Z }.

Record BatchAllocator := {
  pages_ : list BatchInfo;
  batches_ : nat;
  currentBatch_ : nat;
  freeHead_ : option address;
  links_ : gmap address (option address)
}.

Section allocator.
(** The sizes of a cell, of a pointer and of the class [BatchInfo], which ends
    with the buffer of one object, the offset of this buffer, and the two counts. *)
Variables (size_of_type size_of_pointer size_of_BatchInfo buffer_at objectPerAllocation objectsPerPage_ : Z).
(** Whether [malloc] succeeds for the n-th page. *)
Variable malloc_ok : nat -> bool.

(** The size is computed in [size_t] and stored in an [unsigned int]. *)
Definition mallocSize (objectsPerPage : Z) : Z :=
  u32 (size_of_BatchInfo - size_of_type * objectPerAllocation + size_of_type * objectPerAllocation * objectsPerPage).

(** [allocateBatch], with [next_] set by the caller; the fields before the
    buffer are written, so the block must hold them. *)
Definition allocateBatch (n : nat) (objectsPerPage : Z) (next : option nat) : cpp BatchInfo :=
  if malloc_ok n && (buffer_at <=? mallocSize objectsPerPage)
  then Ret {| next_ := next; used_ := 0; end_ := objectsPerPage; bytes_ := mallocSize objectsPerPage |}
  else Undef.

Definition make_allocator : cpp BatchAllocator :=
  cassert (size_of_pointer <=? size_of_type * objectPerAllocation) ;;
  cassert (16 <=? objectsPerPage_) ;;
  page ← allocateBatch 0 0 None;
  Ret {| pages_ := [page]; batches_ := 0; currentBatch_ := 0; freeHead_ := None; links_ := ∅ |}.

(** [while (currentBatch_ && used_ == end_) currentBatch_ = next_]. *)
Fixpoint next_batch (fuel : nat) (pages : list BatchInfo) (current : option nat) : cpp (option nat) :=
  match current with
  | None => Ret None
  | Some n =>
      match pages !! n with
      | None => Undef
      | Some b =>
          if used_ b =? end_ b then
            match fuel with O => NoFuel | S f => next_batch f pages (next_ b) end
          else Ret (Some n)
      end
  end.

(** The page to cut the next object from; a new one goes to the head of the list. *)
Definition find_batch (s : BatchAllocator) : cpp BatchAllocator :=
  match pages_ s !! currentBatch_ s with
  | None => Undef
  | Some b =>
      if used_ b =? end_ b then
        o ← next_batch (length (pages_ s)) (pages_ s) (next_ b);
        match o with
        | Some n =>
            Ret {| pages_ := pages_ s; batches_ := batches_ s; currentBatch_ := n;
                   freeHead_ := freeHead_ s; links_ := links_ s |}
        | None =>
            let n := length (pages_ s) in
            page ← allocateBatch n objectsPerPage_ (Some (batches_ s));
            Ret {| pages_ := pages_ s ++ [page]; batches_ := n; currentBatch_ := n;
                   freeHead_ := freeHead_ s; links_ := links_ s |}
        end
      else Ret s
  end.

Definition allocate (s : BatchAllocator) : cpp (address * BatchAllocator) :=
  match freeHead_ s with
  | Some object =>
      match links_ s !! object with
      | None => Undef
      | Some next =>
          Ret (object, {| pages_ := pages_ s; batches_ := batches_ s; currentBatch_ := currentBatch_ s;
                          freeHead_ := next; links_ := links_ s |})
      end
  | None =>
      s ← find_batch s;
      match pages_ s !! currentBatch_ s with
      | None => Undef
      | Some b =>
          let b' := {| next_ := next_ b; used_ := used_ b + objectPerAllocation; end_ := end_ b; bytes_ := bytes_ b |} in
          Ret ((currentBatch_ s, used_ b),
               {| pages_ := <[currentBatch_ s := b']> (pages_ s); batches_ := batches_ s;
                  currentBatch_ := currentBatch_ s; freeHead_ := freeHead_ s; links_ := links_ s |})
      end
  end.

Definition release (object : address) (s : BatchAllocator) : BatchAllocator :=
  {| pages_ := pages_ s; batches_ := batches_ s; currentBatch_ := currentBatch_ s;
     freeHead_ := Some object; links_ := <[object := freeHead_ s]> (links_ s) |}.

(** The destructor: the pages it frees, in order. *)
Fixpoint free_from (fuel : nat) (pages : list BatchInfo) (batch : option nat) : cpp (list nat) :=
  match batch with
  | None => Ret []
  | Some n =>
      match fuel, pages !! n with
      | O, _ => NoFuel
      | S f, Some b => rest ← free_from f pages (next_ b); Ret (n :: rest)
      | S f, None => Undef
      end
  end.
Definition destroy_allocator (s : BatchAllocator) : cpp (list nat) :=
  free_from (length (pages_ s)) (pages_ s) (Some (batches_ s)).

(** ** Histories

    The owners of objects allocate, release what they own and write to it,
    whatever pointer the first bytes then are. *)
Inductive batch_op := OpAllocate | OpRelease (i : nat) | OpWrite (i : nat) (x : option address).

Definition owner_writes (object : address) (x : option address) (s : BatchAllocator) : BatchAllocator :=
  {| pages_ := pages_ s; batches_ := batches_ s; currentBatch_ := currentBatch_ s;
     freeHead_ := freeHead_ s; links_ := <[object := x]> (links_ s) |}.

Definition batch_step (o : batch_op) (st : BatchAllocator * list address) : cpp (BatchAllocator * list address) :=
  let '(s, live) := st in
  match o with
  | OpAllocate => '(a, s) ← allocate s; Ret (s, a :: live)
  | OpRelease i =>
      match live !! i with Some a => Ret (release a s, delete i live) | None => Ret (s, live) end
  | OpWrite i x =>
      match live !! i with Some a => Ret (owner_writes a x s, live) | None => Ret (s, live) end
  end.

Fixpoint batch_run (ops : list batch_op) (st : BatchAllocator * list address) : cpp (BatchAllocator * list address) :=
  match ops with [] => Ret st | o :: ops => st ← batch_step o st; batch_run ops st end.

(** ** Correctness, when the pages hold a whole number of objects *)
Hypothesis sizes : 0 < objectPerAllocation /\ 16 <= objectsPerPage_ /\ size_of_pointer <= size_of_type * objectPerAllocation.
Hypothesis whole : (objectPerAllocation | objectsPerPage_).
Hypothesis layout : 0 < size_of_type /\ 0 <= buffer_at /\ buffer_at + size_of_type * objectPerAllocation <= size_of_BatchInfo.
Hypothesis fits :
  size_of_BatchInfo - size_of_type * objectPerAllocation + size_of_type * objectPerAllocation * objectsPerPage_ < 2 ^ 32.
Hypothesis malloc_succeeds : forall n, malloc_ok n = true.

Record page_ok (n : nat) (b : BatchInfo) : Prop := {
  page_next : next_ b = match n with O => None | S k => Some k end;
  page_used : 0 <= used_ b <= end_ b;
  page_end : buffer_at + size_of_type * end_ b <= bytes_ b;
  page_whole : (objectPerAllocation | used_ b) /\ (objectPerAllocation | end_ b)
}.

(** An object that was cut from its page. *)
Definition given (pages : list BatchInfo) (a : address) : Prop :=
  exists b, pages !! a.1 = Some b /\ 0 <= a.2 /\ a.2 + objectPerAllocation <= used_ b /\ (objectPerAllocation | a.2).

(** The objects of the free list. *)
Fixpoint chained (links : gmap address (option address)) (head : option address) (l : list address) : Prop :=
  match l with
  | [] => head = None
  | a :: r => head = Some a /\ exists next, links !! a = Some next /\ chained links next r
  end.

Record batch_inv (s : BatchAllocator) (live : list address) : Prop := {
  inv_pages : forall n b, pages_ s !! n = Some b -> page_ok n b;
  inv_batches : S (batches_ s) = length (pages_ s);
  inv_current : (currentBatch_ s < length (pages_ s))%nat;
  inv_free : exists free, chained (links_ s) (freeHead_ s) free /\ NoDup (live ++ free) /\
    Forall (given (pages_ s)) (live ++ free)
}.

Lemma mallocSize_ok n : n = 0 \/ n = objectsPerPage_ ->
  buffer_at <= mallocSize n /\ buffer_at + size_of_type * n <= mallocSize n.
Proof.
  intros Hn. assert (0 <= size_of_type * objectPerAllocation * objectsPerPage_) by nia.
  assert (size_of_type * n <= size_of_type * objectPerAllocation * n) by (destruct Hn; subst; nia).
  assert (0 <= size_of_type * n) by (destruct Hn; subst; nia).
  unfold mallocSize. rewrite u32_id; [destruct Hn; subst; lia|]. unfold is_u32. destruct Hn; subst; lia.
Qed.

Lemma allocateBatch_ok n k next : k = 0 \/ k = objectsPerPage_ -> allocateBatch n k next =
  Ret {| next_ := next; used_ := 0; end_ := k; bytes_ := mallocSize k |}.
Proof.
  intros Hk. unfold allocateBatch. rewrite malloc_succeeds. destruct (mallocSize_ok k Hk) as [H _].
  by rewrite (proj2 (Z.leb_le _ _) H).
Qed.

Lemma chained_insert links head l a x : a ∉ l -> chained links head l -> chained (<[a := x]> links) head l.
Proof.
  revert head. induction l as [|b l IH]; intros head Ha; [done|]. apply not_elem_of_cons in Ha as [Hn Ha].
  intros (-> & next & E & H). split; [done|]. exists next. split; [by rewrite lookup_insert_ne|by apply IH].
Qed.

Lemma next_batch_ok pages n fuel : (forall n b, pages !! n = Some b -> page_ok n b) ->
  match n with Some k => (k < length pages)%nat /\ (k < fuel)%nat | None => True end ->
  exists o, next_batch fuel pages n = Ret o /\
    match o with Some k => exists b, pages !! k = Some b /\ used_ b <> end_ b | None => True end.
Proof.
  intros Hp. revert n. induction fuel as [|f IH]; intros [k|] Hn; cbn [next_batch]; try lia; try (by eexists).
  destruct (lookup_lt_is_Some_2 pages k) as [b E]; [lia|]. rewrite E. destruct (Z.eqb_spec (used_ b) (end_ b)).
  - apply IH. rewrite (page_next _ _ (Hp _ _ E)). destruct k; [done|lia].
  - exists (Some k). split; [done|]. by exists b.
Qed.

Lemma given_mono pages pages' a : (forall n b, pages !! n = Some b -> exists b', pages' !! n = Some b' /\ used_ b <= used_ b') ->
  given pages a -> given pages' a.
Proof. intros H (b & E & H1 & H2 & H3). destruct (H _ _ E) as (b' & E' & Hu). exists b'. split_and!; try done. lia. Qed.

(** After [find_batch] the current page has room. *)
Lemma find_batch_ok s live : batch_inv s live -> exists s', find_batch s = Ret s' /\ batch_inv s' live
  /\ freeHead_ s' = freeHead_ s /\ exists b, pages_ s' !! currentBatch_ s' = Some b /\ used_ b <> end_ b.
Proof.
  intros [H1 H2 H3 H4]. unfold find_batch. destruct (lookup_lt_is_Some_2 _ _ H3) as [b E]. rewrite E.
  destruct (Z.eqb_spec (used_ b) (end_ b)) as [Hf|Hf]; [|exists s; split; [done|]; split; [done|]; eauto].
  destruct (next_batch_ok (pages_ s) (next_ b) (length (pages_ s)) H1) as (o & Eo & Ho).
  { rewrite (page_next _ _ (H1 _ _ E)). destruct (currentBatch_ s); [done|lia]. }
  rewrite Eo, bind_ret_l. destruct o as [k|].
  - destruct Ho as (bk & Ek & Hk). eexists. split; [done|]. split; [|split; [done|by exists bk]].
    split; try done. cbn. by eapply lookup_lt_Some.
  - rewrite allocateBatch_ok, bind_ret_l by by right. eexists. split; [done|]. split; [|split; [done|]].
    + split; cbn.
      * intros n b' E'. apply lookup_app_Some in E' as [E'|[Hn E']]; [by apply H1|].
        apply list_lookup_singleton_Some in E' as [En <-]. split; cbn; [|lia|by apply mallocSize_ok; right|].
        -- destruct n as [|n]; [lia|]. f_equal. lia.
        -- split; [apply Z.divide_0_r|done].
      * rewrite length_app. cbn. lia.
      * rewrite length_app. cbn. lia.
      * destruct H4 as (free & Hc & Hd & Hg). exists free. split; [done|]. split; [done|].
        eapply Forall_impl; [exact Hg|]. intros a. apply given_mono. intros n b' E'. exists b'. split; [|lia].
        by apply lookup_app_l_Some.
    + cbn. rewrite list_lookup_middle by done. eexists. split; [done|]. cbn. lia.
Qed.

Lemma room b n : page_ok n b -> used_ b <> end_ b -> used_ b + objectPerAllocation <= end_ b.
Proof.
  intros [_ [H0 H1] _ [[x Hx] [y Hy]]] Hn. assert (x < y) by nia. nia.
Qed.

Lemma allocate_ok s live : batch_inv s live -> exists a s', allocate s = Ret (a, s') /\ batch_inv s' (a :: live).
Proof.
  intros Hi. unfold allocate. destruct (freeHead_ s) as [object|] eqn:Eh.
  - destruct Hi as [H1 H2 H3 (free & Hc & Hd & Hg)]. rewrite Eh in Hc. destruct free as [|a free]; [done|].
    destruct Hc as ([= ->] & next & El & Hc). rewrite El. eexists _, _. split; [done|].
    split; try done. exists free. cbn [links_ freeHead_ pages_]. split; [done|].
    assert (Hp : a :: live ++ free ≡ₚ live ++ a :: free) by apply Permutation_middle.
    split; [by rewrite <- app_comm_cons, Hp|]. rewrite <- app_comm_cons, Hp. done.
  - destruct (find_batch_ok s live Hi) as (s1 & E1 & [H1 H2 H3 (free & Hc & Hd & Hg)] & Ef & b & Eb & Hb).
    rewrite E1, bind_ret_l, Eb. eexists _, _. split; [done|]. pose proof (H1 _ _ Eb) as Hp.
    pose proof (room b _ Hp Hb) as Hr. destruct Hp as [P1 P2 P3 [P4 P5]].
    set (b' := {| next_ := next_ b; used_ := _; end_ := _; bytes_ := _ |}).
    assert (Hg' : forall a, given (pages_ s1) a -> given (<[currentBatch_ s1 := b']> (pages_ s1)) a).
    { intros a. apply given_mono. intros n b0 E0. destruct (decide (n = currentBatch_ s1)) as [->|Hn].
      - exists b'. rewrite list_lookup_insert_eq by done. split; [done|]. cbn. rewrite Eb in E0. injection E0 as <-. lia.
      - exists b0. rewrite list_lookup_insert_ne by done. split; [done|lia]. }
    split; cbn.
    + intros n b0 E0. destruct (decide (n = currentBatch_ s1)) as [->|Hn].
      * rewrite list_lookup_insert_eq in E0 by done. injection E0 as <-. split; cbn; try done; [lia|].
        split; [|done]. by apply Z.divide_add_r; [|exists 1; lia].
      * rewrite list_lookup_insert_ne in E0 by done. by apply H1.
    + by rewrite length_insert.
    + by rewrite length_insert.
    + exists free. split; [done|]. cbn [app]. split.
      * constructor; [|done]. intros Hin. rewrite Forall_forall in Hg. destruct (Hg _ Hin) as (b0 & E0 & _ & Hu & _).
        cbn in E0, Hu. rewrite Eb in E0. injection E0 as <-. lia.
      * constructor; [|eapply Forall_impl; [exact Hg|apply Hg']]. exists b'. cbn.
        rewrite list_lookup_insert_eq by done. split_and!; try done; cbn; lia.
Qed.

Lemma batch_step_ok o s live : batch_inv s live -> exists s' live', batch_step o (s, live) = Ret (s', live') /\ batch_inv s' live'.
Proof.
  intros Hi. destruct o as [|i|i x]; cbn [batch_step].
  - destruct (allocate_ok s live Hi) as (a & s' & -> & H). by eexists _, _.
  - destruct (live !! i) as [a|] eqn:E; [|by eexists _, _]. eexists _, _. split; [done|].
    destruct Hi as [H1 H2 H3 (free & Hc & Hd & Hg)]. split; try done. exists (a :: free). cbn [links_ freeHead_ release pages_].
    assert (Hp : delete i live ++ a :: free ≡ₚ live ++ free).
    { rewrite <- Permutation_middle, (app_comm_cons _ _ a). f_equiv. symmetry. by apply delete_Permutation. }
    split; [|by rewrite Hp]. split; [done|]. exists (freeHead_ s). rewrite lookup_insert_eq. split; [done|].
    apply chained_insert; [|done]. intros Hin. apply NoDup_app in Hd as (_ & Hd & _).
    apply (Hd a); [by eapply list_elem_of_lookup_2|done].
  - destruct (live !! i) as [a|] eqn:E; [|by eexists _, _]. eexists _, _. split; [done|].
    destruct Hi as [H1 H2 H3 (free & Hc & Hd & Hg)]. split; try done. exists free. cbn [links_ freeHead_ owner_writes pages_].
    split; [|done]. apply chained_insert; [|done]. intros Hin. apply NoDup_app in Hd as (_ & Hd & _).
    apply (Hd a); [by eapply list_elem_of_lookup_2|done].
Qed.

Lemma batch_run_ok ops s live : batch_inv s live ->
  exists s' live', batch_run ops (s, live) = Ret (s', live') /\ batch_inv s' live'.
Proof.
  revert s live. induction ops as [|o ops IH]; intros s live Hi; [by eexists _, _|]. cbn [batch_run].
  destruct (batch_step_ok o s live Hi) as (s1 & l1 & -> & H1). rewrite bind_ret_l. by apply IH.
Qed.

Lemma make_allocator_ok : exists s, make_allocator = Ret s /\ batch_inv s [].
Proof.
  unfold make_allocator. rewrite allocateBatch_ok by by left.
  replace (size_of_pointer <=? size_of_type * objectPerAllocation) with true by lia.
  replace (16 <=? objectsPerPage_) with true by lia. eexists. split; [done|]. split; cbn; [|lia..|].
  - intros [|n] b E; [|done]. injection E as <-. split; cbn; try done; [by apply mallocSize_ok; left|]. split; apply Z.divide_0_r.
  - exists []. split; [done|]. split; constructor.
Qed.

Lemma free_from_ok pages n fuel : (forall k b, pages !! k = Some b -> page_ok k b) -> (n < length pages)%nat -> (n < fuel)%nat ->
  free_from fuel pages (Some n) = Ret (reverse (seq 0 (S n))).
Proof.
  intros Hp. revert fuel. induction n as [|n IH]; intros [|fuel] Hn Hf; try lia; cbn [free_from];
    (destruct (lookup_lt_is_Some_2 pages _ Hn) as [b E]; rewrite E, (page_next _ _ (Hp _ _ E))).
  - by destruct fuel.
  - rewrite IH, bind_ret_l by lia. by rewrite (seq_S (S n)), reverse_snoc.
Qed.

(** Objects that are apart in memory. *)
Definition apart (a b : address) : Prop :=
  a.1 <> b.1 \/ a.2 + objectPerAllocation <= b.2 \/ b.2 + objectPerAllocation <= a.2.

Lemma given_apart pages a b : given pages a -> given pages b -> a <> b -> apart a b.
Proof.
  intros (ba & Ea & A1 & A2 & [x Hx]) (bb & Eb & B1 & B2 & [y Hy]) Hn. unfold apart.
  destruct (decide (a.1 = b.1)) as [E|E]; [right|by left]. destruct a as [p i], b as [q j]. cbn in *. subst q.
  destruct (Z.lt_trichotomy x y) as [H|[H|H]]; [left; nia| |right; nia]. subst. done.
Qed.
End allocator.

(** C40: when the pages hold a whole number of objects, [malloc] succeeds and
    the size of a page fits the [unsigned int] it is computed in, the owners can
    allocate, release and write in any order: no call fails, the objects they
    hold lie inside the bytes that [malloc] gave for their pages, behind the
    fields of the page, and do not overlap, whatever they write to them, and the
    destructor frees every page once. *)
Theorem allocations_apart st sp sb at_ opa opp malloc_ok ops :
  0 < opa /\ 16 <= opp /\ sp <= st * opa -> (opa | opp) ->
  0 < st /\ 0 <= at_ /\ at_ + st * opa <= sb -> sb - st * opa + st * opa * opp < 2 ^ 32 ->
  (forall n, malloc_ok n = true) ->
  exists s s' live, make_allocator st sp sb at_ opa opp malloc_ok = Ret s
    /\ batch_run st sb at_ opa opp malloc_ok ops (s, []) = Ret (s', live)
    /\ (forall a, a ∈ live -> exists b, pages_ s' !! a.1 = Some b /\ 0 <= a.2 /\ at_ + st * (a.2 + opa) <= bytes_ b)
    /\ (forall i j a b, live !! i = Some a -> live !! j = Some b -> i <> j -> apart opa a b)
    /\ destroy_allocator s' = Ret (reverse (seq 0 (length (pages_ s')))).
Proof.
  intros Hs Hw Hy Hz Hm. destruct (make_allocator_ok st sp sb at_ opa opp malloc_ok Hs Hy Hz Hm) as (s & E & Hi).
  destruct (batch_run_ok st sp sb at_ opa opp malloc_ok Hs Hw Hy Hz Hm ops s [] Hi)
    as (s' & live & E' & [H1 H2 H3 (free & _ & Hd & Hg)]).
  apply NoDup_app in Hd as (Hd & _ & _). apply Forall_app in Hg as [Hg _]. rewrite Forall_forall in Hg.
  exists s, s', live. split; [done|]. split; [done|]. split; [|split].
  - intros a (b & Eb & H0 & Hu & _)%Hg. exists b. split; [done|]. destruct (H1 _ _ Eb). split; [done|]. nia.
  - intros i j a b Ea Eb Hij. apply (given_apart st sp opa opp Hs (pages_ s')); [apply Hg; by eapply list_elem_of_lookup_2..|].
    intros ->. by apply Hij, (NoDup_lookup live i j b).
  - unfold destroy_allocator. rewrite (free_from_ok st at_ opa) by (done || lia). by rewrite H2.
Qed.

Definition sample_batch_ops : list batch_op :=
  [OpAllocate; OpAllocate; OpWrite 0 (Some (7%nat, 7)); OpRelease 1; OpAllocate; OpRelease 0; OpAllocate; OpAllocate].

Lemma allocations_apart_witness : exists s s' live, make_allocator 8 8 40 24 2 16 (fun _ => true) = Ret s
  /\ batch_run 8 40 24 2 16 (fun _ => true) sample_batch_ops (s, []) = Ret (s', live)
  /\ live = [(1%nat, 4); (1%nat, 0); (1%nat, 2)]
  /\ destroy_allocator s' = Ret [1%nat; 0%nat].
Proof.
  destruct (allocations_apart 8 8 40 24 2 16 (fun _ => true) sample_batch_ops) as (s & s' & live & E & E' & _ & _ & Hd);
    [lia|by exists 8|lia|lia|done|].
  exists s, s', live. split; [exact E|]. split; [exact E'|]. injection E as <-. vm_compute in E'.
  injection E' as <- <-. split; [done|exact Hd].
Defined.

(** A page of 16 in objects of three cells is never found full: the objects go
    past its end, here behind the 24 + 48 * 8 bytes of the page. *)
Lemma allocations_overflow : exists s s' live, make_allocator 8 8 48 24 3 16 (fun _ => true) = Ret s
  /\ batch_run 8 48 24 3 16 (fun _ => true) (replicate 17 OpAllocate) (s, []) = Ret (s', live)
  /\ head live = Some (1%nat, 48) /\ (bytes_ <$> pages_ s' !! 1%nat) = Some 408.
Proof. eexists _, _, _. split; [reflexivity|]. split; [vm_compute; reflexivity|]. by vm_compute. Qed.

(** A page of 2^20 objects of 4096 bytes needs 2^32 bytes and its fields; the
    size wraps to that of the fields, and the first object lies behind it. *)
Lemma page_size_wraps : exists s s', make_allocator 4096 8 4120 24 1 (2 ^ 20) (fun _ => true) = Ret s
  /\ batch_run 4096 4120 24 1 (2 ^ 20) (fun _ => true) [OpAllocate] (s, []) = Ret (s', [(1%nat, 0)])
  /\ (bytes_ <$> pages_ s' !! 1%nat) = Some 24.
Proof. eexists _, _. split; [reflexivity|]. split; [vm_compute; reflexivity|]. by vm_compute. Qed.
