(* ===== verification/Version.v ===== *)
(** * Identifiers and versions (src/public/astTask/astTask.cpp)

    [checkTid] tests a task identifier read from a file; [CmpVersion] compares
    two dotted version numbers, component by component, in two local buffers. *)
From S2P Require Import Prelude Words Buffers CString Decimal.

(** ** checkTid *)

(** A [char] is signed. *)
Definition char_value (c : Z) : Z := if c <? 128 then c else c - 256.

Definition tid_char (c : Z) : bool :=
  let c := char_value c in
  if (c <? 48) || (102 <? c) then false
  else if (57 <? c) && (c <? 65) then false
  else if (70 <? c) && (c <? 97) then false
  else true.

Definition checkTid (tid : list Z) : cpp bool :=
  nLen ← strlen tid;
  if nLen <? 10 then Ret false else Ret (forallb tid_char (take (Z.to_nat nLen) tid)).

(** ** CmpVersion *)

(** The offsets [p1], [p2] into the versions, [pT1], [pT2] into the buffers. *)
Record cmp_state := { p1 : Z; p2 : Z; pT1 : Z; pT2 : Z; cTmp1 : list Z; cTmp2 : list Z }.

(** The string a buffer holds. *)
Definition tmp_string (b : list Z) : cpp (list Z) := n ← strlen b; Ret (take (Z.to_nat n) b).

Definition compare_tmp (b1 b2 : list Z) : cpp Z :=
  s1 ← tmp_string b1; s2 ← tmp_string b2;
  n1 ← atoi s1; n2 ← atoi s2; int_checked (n1 - n2).

(** [*pT = *p == '.' ? '\0' : *p]. *)
Definition copy_char (ver : list Z) (p : Z) (tmp : list Z) (pT : Z) : cpp (Z * list Z) :=
  c ← buf_get ver p;
  let c := if c =? 46 then 0 else c in
  tmp ← buf_write tmp pT [c]; Ret (c, tmp).

Definition step_over (ver : list Z) (p : Z) : cpp Z := c ← buf_get ver p; Ret (if c =? 0 then p else p + 1).

(** One round of the loop: the next state, or the result. *)
Definition cmp_round (ver1 ver2 : list Z) (s : cmp_state) : cpp (cmp_state + Z) :=
  '(c1, b1) ← copy_char ver1 (p1 s) (cTmp1 s) (pT1 s);
  '(c2, b2) ← copy_char ver2 (p2 s) (cTmp2 s) (pT2 s);
  if (c1 =? 0) && (c2 =? 0) then
    nReturn ← compare_tmp b1 b2;
    if negb (nReturn =? 0) then Ret (inr nReturn)
    else
      q1 ← step_over ver1 (p1 s); q2 ← step_over ver2 (p2 s);
      Ret (inl {| p1 := q1; p2 := q2; pT1 := 0; pT2 := 0; cTmp1 := b1; cTmp2 := b2 |})
  else
    Ret (inl {| p1 := if c1 =? 0 then p1 s else p1 s + 1; p2 := if c2 =? 0 then p2 s else p2 s + 1;
                pT1 := if c1 =? 0 then pT1 s else pT1 s + 1; pT2 := if c2 =? 0 then pT2 s else pT2 s + 1;
                cTmp1 := b1; cTmp2 := b2 |}).

Fixpoint cmp_loop (fuel : nat) (ver1 ver2 : list Z) (s : cmp_state) : cpp Z :=
  c1 ← buf_get ver1 (p1 s);
  c2 ← buf_get ver2 (p2 s);
  if negb (c1 =? 0) || negb (c2 =? 0) then
    match fuel with
    | O => NoFuel
    | S f =>
        r ← cmp_round ver1 ver2 s;
        match r with inl s' => cmp_loop f ver1 ver2 s' | inr n => Ret n end
    end
  else
    b1 ← buf_write (cTmp1 s) (pT1 s) [c1];
    b2 ← buf_write (cTmp2 s) (pT2 s) [c2];
    compare_tmp b1 b2.

(** [j1] and [j2] are what the buffers hold before they are written. *)
Definition CmpVersion (j1 j2 ver1 ver2 : list Z) : cpp Z :=
  cmp_loop (length ver1 + length ver2) ver1 ver2
    {| p1 := 0; p2 := 0; pT1 := 0; pT2 := 0; cTmp1 := j1; cTmp2 := j2 |}.

(** ** The order of versions *)

(** The components between the dots. *)
Fixpoint components (s : list Z) : list (list Z) :=
  match s with
  | [] => [[]]
  | c :: r => if c =? 46 then [] :: components r
              else match components r with d :: ds => (c :: d) :: ds | [] => [[c]] end
  end.

(** The first difference of two lists of numbers, a missing one counting zero. *)
Fixpoint missing (b : list Z) : Z :=
  match b with [] => 0 | y :: b => if y =? 0 then missing b else - y end.
Fixpoint first_diff (a b : list Z) : Z :=
  match a, b with
  | [], _ => missing b
  | x :: a, [] => if x =? 0 then first_diff a [] else x
  | x :: a, y :: b => if x - y =? 0 then first_diff a b else x - y
  end.

Definition numbers (s : list Z) : list Z := dec_value <$> components s.

(** Digits and dots, every component a number that fits the buffers and [int]. *)
Definition version (s : list Z) : Prop :=
  Forall (fun c => isdigit c = true \/ c = 46) s
  /\ Forall (fun d => (length d < 256)%nat /\ dec_value d < 2 ^ 31) (components s).

(** ** One side of the comparison

    [side ver p c r tmp pT]: [r] is left of the version at [p] and the buffer
    holds the beginning [c] of the current component. *)

(** The components of [r], the first one continuing [c]. *)
Definition comps (c r : list Z) : list (list Z) :=
  match components r with d :: ds => (c ++ d) :: ds | [] => [] end.

Definition version_part (c r : list Z) : Prop :=
  digits c /\ Forall (fun c => isdigit c = true \/ c = 46) r
  /\ Forall (fun d => (length d < 256)%nat /\ dec_value d < 2 ^ 31) (comps c r).

Record side (ver : list Z) (p : Z) (c r : list Z) (tmp : list Z) (pT : Z) : Prop := {
  side_rest : exists pre, ver = pre ++ r ++ [0] /\ p = Z.of_nat (length pre);
  side_part : version_part c r;
  side_tmp : length tmp = 256%nat /\ take (length c) tmp = c /\ pT = Z.of_nat (length c)
}.

Lemma components_nonnil r : components r <> [].
Proof. destruct r as [|c r]; cbn [components]; [done|]. destruct (c =? 46); [done|]. by destruct (components r). Qed.

Lemma comps_digit c d r : isdigit d = true -> comps c (d :: r) = comps (c ++ [d]) r.
Proof.
  intros Hd. unfold comps. cbn [components]. replace (d =? 46) with false by (unfold isdigit in Hd; lia).
  pose proof (components_nonnil r). destruct (components r); [done|]. by rewrite <- app_assoc.
Qed.

Lemma comps_dot c r : comps c (46 :: r) = c :: comps [] r.
Proof.
  unfold comps. cbn [components]. change (46 =? 46) with true. cbv iota. rewrite app_nil_r.
  pose proof (components_nonnil r). by destruct (components r).
Qed.

Lemma comps_end c : comps c [] = [c].
Proof. unfold comps. cbn. by rewrite app_nil_r. Qed.

(** The character at [p]: the end, a dot or a digit. *)
Inductive next_char : list Z -> Z -> Prop :=
| next_end : next_char [] 0
| next_dot r : next_char (46 :: r) 46
| next_digit d r : isdigit d = true -> next_char (d :: r) d.

Lemma side_get ver p c r tmp pT : side ver p c r tmp pT -> exists x, buf_get ver p = Ret x /\ next_char r x.
Proof.
  intros [(pre & -> & ->) (_ & Hr & _) _]. destruct r as [|d r].
  - exists 0. split; [|constructor]. apply buf_get_ok; [lia|]. rewrite Nat2Z.id.
    rewrite lookup_app_r, Nat.sub_diag by done. done.
  - exists d. split.
    + apply buf_get_ok; [lia|]. rewrite Nat2Z.id. rewrite lookup_app_r, Nat.sub_diag by done. done.
    + apply Forall_cons in Hr as [[Hd| ->] _]; by constructor.
Qed.

Lemma dec_value_prefix c d : digits (c ++ d) -> 0 <= dec_value c <= dec_value (c ++ d).
Proof.
  intros Hd. assert (Hc : forall e, digits e -> 0 <= dec_value e).
  { intros e. induction e as [|x e IH] using rev_ind; [done|]. intros [He Hx]%digits_app. rewrite dec_value_snoc.
    apply Forall_cons in Hx as [Hx _]. unfold isdigit in Hx. specialize (IH He). lia. }
  split; [apply Hc; by apply digits_app in Hd as [? _]|].
  induction d as [|x d IH] using rev_ind; [by rewrite app_nil_r|]. rewrite app_assoc in *.
  apply digits_app in Hd as [Hd Hx]. rewrite dec_value_snoc. apply Forall_cons in Hx as [Hx _]. unfold isdigit in Hx.
  specialize (IH Hd). pose proof (Hc _ Hd). lia.
Qed.

Lemma components_digits r : Forall (fun c => isdigit c = true \/ c = 46) r -> Forall digits (components r).
Proof.
  induction r as [|c r IH]; intros Hr; [by repeat constructor|]. apply Forall_cons in Hr as [Hc Hr].
  specialize (IH Hr). cbn [components]. destruct (Z.eqb_spec c 46); [by constructor; [constructor|]|].
  destruct Hc as [Hc|]; [|done]. destruct (components r); [by repeat constructor|].
  apply Forall_cons in IH as [H1 H2]. constructor; [by constructor|done].
Qed.

Lemma side_bounds ver p c r tmp pT : side ver p c r tmp pT ->
  (length c < 256)%nat /\ digits c /\ 0 <= dec_value c < 2 ^ 31.
Proof.
  intros [_ (Hc & Hr & Hb) _]. apply components_digits in Hr. unfold comps in Hb.
  pose proof (components_nonnil r). destruct (components r) as [|d ds]; [done|].
  apply Forall_cons in Hr as [Hd _]. apply Forall_cons in Hb as [[Hl Hv] _].
  pose proof (dec_value_prefix c d ltac:(by apply digits_app)). rewrite length_app in Hl.
  split; [lia|]. split; [done|lia].
Qed.

(** Writing one character after [c] extends what the buffer holds. *)
Lemma side_write ver p c r tmp pT y : side ver p c r tmp pT ->
  exists rest, buf_write tmp pT [y] = Ret (c ++ y :: rest) /\ length (c ++ y :: rest) = 256%nat.
Proof.
  intros Hs. destruct (side_bounds _ _ _ _ _ _ Hs) as (Hl & _ & _). destruct Hs as [_ _ (Lt & Et & ->)].
  exists (drop (length c + 1) tmp).
  rewrite buf_write_ok by (cbn [length]; lia). rewrite Nat2Z.id. unfold splice. rewrite Et. cbn [length app].
  split; [done|]. rewrite length_app. cbn [length]. rewrite length_drop. lia.
Qed.

Lemma copy_char_ok ver p c r tmp pT x : side ver p c r tmp pT -> buf_get ver p = Ret x ->
  exists tmp', copy_char ver p tmp pT = Ret (if x =? 46 then 0 else x, tmp') /\ length tmp' = 256%nat
    /\ exists rest, tmp' = c ++ (if x =? 46 then 0 else x) :: rest.
Proof.
  intros Hs Ex. unfold copy_char. rewrite Ex, bind_ret_l.
  destruct (side_write _ _ _ _ _ _ (if x =? 46 then 0 else x) Hs) as (rest & -> & Hl). rewrite bind_ret_l.
  eexists. split; [done|]. split; [done|]. by exists rest.
Qed.

Lemma tmp_string_ok c rest : digits c -> tmp_string (c ++ 0 :: rest) = Ret c.
Proof.
  intros Hc. unfold tmp_string. rewrite strlen_ok, bind_ret_l.
  - by rewrite Nat2Z.id, take_app_length.
  - eapply Forall_impl; [exact Hc|]. intros x Hx. unfold isdigit in Hx. lia.
Qed.

Lemma atoi_ok c : digits c -> 0 <= dec_value c < 2 ^ 31 -> atoi c = Ret (dec_value c).
Proof.
  intros Hc Hv. unfold atoi. destruct c as [|d c]; [by apply int_checked_id|].
  rewrite <- (app_nil_r (d :: c)) at 1. rewrite text_number_digits by done. apply int_checked_id. unfold is_int. lia.
Qed.

Lemma compare_tmp_ok c1 r1 c2 r2 : digits c1 -> digits c2 -> 0 <= dec_value c1 < 2 ^ 31 -> 0 <= dec_value c2 < 2 ^ 31 ->
  compare_tmp (c1 ++ 0 :: r1) (c2 ++ 0 :: r2) = Ret (dec_value c1 - dec_value c2).
Proof.
  intros H1 H2 V1 V2. unfold compare_tmp. rewrite (tmp_string_ok c1), bind_ret_l, (tmp_string_ok c2), bind_ret_l by done.
  rewrite (atoi_ok c1), bind_ret_l, (atoi_ok c2), bind_ret_l by done. apply int_checked_id. unfold is_int. lia.
Qed.

(** At the end of a component the buffer holds it, and the next one begins. *)
Lemma side_stop ver p c r tmp pT x : side ver p c r tmp pT -> next_char r x -> isdigit x = false ->
  exists tmp' rest, copy_char ver p tmp pT = Ret (0, tmp') /\ tmp' = c ++ 0 :: rest /\ side ver p c r tmp' pT
    /\ exists p' r' T, step_over ver p = Ret p' /\ side ver p' [] r' tmp' 0 /\ r' = tail r
      /\ dec_value <$> comps c r = dec_value c :: T
      /\ (T = dec_value <$> comps [] r' \/ T = [] /\ dec_value <$> comps [] r' = [0]).
Proof.
  intros Hs Hn Hx. destruct (side_get _ _ _ _ _ _ Hs) as (x' & Ex & Hn').
  assert (x' = x) as -> by (destruct Hn; inversion Hn'; subst; try done; discriminate).
  destruct (copy_char_ok _ _ _ _ _ _ x Hs Ex) as (tmp' & Ec & Lt & rest & Et).
  assert (E0 : (if x =? 46 then 0 else x) = 0) by (destruct Hn; try done; congruence). rewrite E0 in *.
  exists tmp', rest. split; [done|]. split; [done|]. destruct Hs as [(pre & Ev & Ep) Hp (_ & _ & Epc)].
  split. { split; [by exists pre|done|]. split; [done|]. split; [|done]. by rewrite Et, take_app_length. }
  unfold step_over. rewrite Ex, bind_ret_l. destruct Hn as [|r|d r Hd]; [| |congruence].
  - exists p, [], []. split; [done|]. split; [|split; [done|]].
    + split; [by exists pre|by repeat constructor|done].
    + rewrite comps_end. split; [done|]. by right.
  - exists (p + 1), r, (dec_value <$> comps [] r). split; [done|]. split; [|split; [done|]].
    + destruct Hp as (_ & Hr & Hb). rewrite comps_dot in Hb. apply Forall_cons in Hr as [_ Hr]. apply Forall_cons in Hb as [_ Hb].
      split; [exists (pre ++ [46])| |done].
      * rewrite length_app, Ev, <- app_assoc. cbn [length]. split; [done|lia].
      * split; [constructor|by split].
    + rewrite comps_dot. split; [done|]. by left.
Qed.

Lemma side_digit ver p c d r tmp pT : side ver p c (d :: r) tmp pT -> isdigit d = true ->
  exists tmp', copy_char ver p tmp pT = Ret (d, tmp') /\ side ver (p + 1) (c ++ [d]) r tmp' (pT + 1).
Proof.
  intros Hs Hd. destruct (side_get _ _ _ _ _ _ Hs) as (x & Ex & Hn).
  assert (x = d) as -> by (inversion Hn; subst; done).
  destruct (copy_char_ok _ _ _ _ _ _ d Hs Ex) as (tmp' & Ec & Lt & rest & Et).
  replace (d =? 46) with false in * by (unfold isdigit in Hd; lia). exists tmp'. split; [done|].
  destruct Hs as [(pre & Ev & Ep) (Hc & Hr & Hb) (_ & _ & Epc)]. rewrite comps_digit in Hb by done.
  apply Forall_cons in Hr as [_ Hr]. split.
  - exists (pre ++ [d]). rewrite length_app, Ev, <- app_assoc. cbn [length]. split; [done|lia].
  - split; [apply digits_app; by repeat constructor|done].
  - rewrite length_app. cbn [length]. split; [done|]. split; [|lia].
    change (c ++ d :: rest) with (c ++ [d] ++ rest) in Et. rewrite app_assoc in Et. rewrite Et.
    replace (length c + 1)%nat with (length (c ++ [d])) by (rewrite length_app; done). apply take_app_length.
Qed.

(** ** The comparison *)

Lemma first_diff_missing b : first_diff [0] b = first_diff [] b.
Proof. destruct b as [|y b]; [done|]. cbn [first_diff missing]. destruct (Z.eqb_spec y 0) as [->|]; [done|].
  replace (0 - y =? 0) with false by lia. lia. Qed.

Lemma first_diff_zero a : first_diff a [0] = first_diff a [].
Proof. destruct a as [|x a]; [done|]. cbn [first_diff]. rewrite Z.sub_0_r. by destruct a; destruct (x =? 0). Qed.

(** The tail of the components, and those of what is left after the dot. *)
Definition tail_of (T V : list Z) : Prop := T = V \/ T = [] /\ V = [0].

Lemma first_diff_tails T1 V1 T2 V2 : tail_of T1 V1 -> tail_of T2 V2 -> first_diff T1 T2 = first_diff V1 V2.
Proof.
  intros [->|[-> ->]] [->|[-> ->]]; [done|by rewrite first_diff_zero|by rewrite first_diff_missing|done].
Qed.

Lemma next_stop r x : next_char r x -> isdigit x = false -> length (tail r) = pred (length r) /\ (x = 0 <-> r = []).
Proof. intros [|r'|d r' Hd] Hx; [done| |congruence]. cbn. split; [done|]. split; [lia|done]. Qed.

Lemma next_zero r x : next_char r x -> (x =? 0) = bool_decide (r = []).
Proof. intros [|r'|d r' Hd]; [done|done|]. unfold isdigit in Hd. rewrite bool_decide_false by done. lia. Qed.

Lemma digit_nonzero d : isdigit d = true -> (d =? 0) = false.
Proof. unfold isdigit. lia. Qed.

(** Both versions end: the last components decide. *)
Lemma cmp_finish ver1 ver2 q1 q2 c1 c2 t1 t2 u1 u2 x1 x2 X : side ver1 q1 c1 [] t1 u1 -> side ver2 q2 c2 [] t2 u2 ->
  next_char [] x1 -> next_char [] x2 ->
  (if negb (bool_decide (@nil Z = [])) || negb (bool_decide (@nil Z = [])) then X
   else b1 ← buf_write t1 u1 [x1]; b2 ← buf_write t2 u2 [x2]; compare_tmp b1 b2)
  = Ret (first_diff (dec_value <$> comps c1 []) (dec_value <$> comps c2 [])).
Proof.
  intros S1 S2 N1 N2. inversion N1; inversion N2; subst.
  destruct (side_bounds _ _ _ _ _ _ S1) as (_ & D1 & B1). destruct (side_bounds _ _ _ _ _ _ S2) as (_ & D2 & B2).
  cbn [negb orb bool_decide]. rewrite !bool_decide_true by done. cbn [negb orb].
  destruct (side_write _ _ _ _ _ _ 0 S1) as (r1 & -> & _). destruct (side_write _ _ _ _ _ _ 0 S2) as (r2 & -> & _).
  rewrite !bind_ret_l, compare_tmp_ok by done. rewrite !comps_end. cbn. f_equal.
  destruct (Z.eqb_spec (dec_value c1 - dec_value c2) 0); lia.
Qed.

Lemma cmp_loop_ok ver1 ver2 fuel : forall q1 c1 r1 t1 u1 q2 c2 r2 t2 u2,
  side ver1 q1 c1 r1 t1 u1 -> side ver2 q2 c2 r2 t2 u2 -> (length r1 + length r2 <= fuel)%nat ->
  cmp_loop fuel ver1 ver2 {| p1 := q1; p2 := q2; pT1 := u1; pT2 := u2; cTmp1 := t1; cTmp2 := t2 |} =
    Ret (first_diff (dec_value <$> comps c1 r1) (dec_value <$> comps c2 r2)).
Proof.
  induction fuel as [|fuel IH]; intros q1 c1 r1 t1 u1 q2 c2 r2 t2 u2 S1 S2 Hf;
    destruct (side_get _ _ _ _ _ _ S1) as (x1 & E1 & N1); destruct (side_get _ _ _ _ _ _ S2) as (x2 & E2 & N2);
    destruct (side_bounds _ _ _ _ _ _ S1) as (_ & D1 & B1); destruct (side_bounds _ _ _ _ _ _ S2) as (_ & D2 & B2);
    cbn [cmp_loop p1 p2 pT1 pT2 cTmp1 cTmp2]; rewrite E1, bind_ret_l, E2, bind_ret_l, (next_zero _ _ N1), (next_zero _ _ N2);
    (destruct (decide (r1 = [] /\ r2 = [])) as [[-> ->]|Hn]; [by apply (cmp_finish ver1 ver2 q1 q2)|]).
  { destruct r1, r2; cbn in Hf; try lia. by destruct Hn. }
  assert (Eb : negb (bool_decide (r1 = [])) || negb (bool_decide (r2 = [])) = true).
  { destruct (decide (r1 = [])), (decide (r2 = [])); rewrite ?bool_decide_true, ?bool_decide_false by done; tauto || done. }
  rewrite Eb. unfold cmp_round. cbn [p1 p2 pT1 pT2 cTmp1 cTmp2].
  destruct (isdigit x1) eqn:I1, (isdigit x2) eqn:I2.
  - destruct N1 as [|?|d1 r1 _]; [discriminate I1..|]. destruct N2 as [|?|d2 r2 _]; [discriminate I2..|].
    destruct (side_digit _ _ _ _ _ _ _ S1 I1) as (t1' & -> & S1'). destruct (side_digit _ _ _ _ _ _ _ S2 I2) as (t2' & -> & S2').
    rewrite !bind_ret_l, !digit_nonzero by done. cbn [andb]. rewrite bind_ret_l, !comps_digit by done.
    apply IH; [done..|]. cbn [length] in Hf. lia.
  - destruct N1 as [|?|d1 r1 _]; [discriminate I1..|].
    destruct (side_digit _ _ _ _ _ _ _ S1 I1) as (t1' & -> & S1').
    destruct (side_stop _ _ _ _ _ _ _ S2 N2 I2) as (t2' & rest2 & -> & _ & S2' & _).
    rewrite !bind_ret_l, digit_nonzero by done. cbn [andb]. rewrite bind_ret_l, comps_digit by done.
    apply IH; [done..|]. cbn [length] in Hf. lia.
  - destruct N2 as [|?|d2 r2 _]; [discriminate I2..|].
    destruct (side_digit _ _ _ _ _ _ _ S2 I2) as (t2' & -> & S2').
    destruct (side_stop _ _ _ _ _ _ _ S1 N1 I1) as (t1' & rest1 & -> & _ & S1' & _).
    rewrite !bind_ret_l, (digit_nonzero d2) by done. cbn [andb Z.eqb]. rewrite bind_ret_l, comps_digit by done.
    apply IH; [done..|]. cbn [length] in Hf. lia.
  - destruct (side_stop _ _ _ _ _ _ _ S1 N1 I1) as (t1' & rest1 & -> & Et1 & _ & q1' & r1' & T1 & W1 & S1' & R1 & V1 & X1).
    destruct (side_stop _ _ _ _ _ _ _ S2 N2 I2) as (t2' & rest2 & -> & Et2 & _ & q2' & r2' & T2 & W2 & S2' & R2 & V2 & X2).
    rewrite !bind_ret_l. cbn [andb Z.eqb]. rewrite V1, V2, Et1, Et2. rewrite compare_tmp_ok, bind_ret_l by done.
    rewrite <- Et1, <- Et2. cbn [first_diff].
    destruct (dec_value c1 - dec_value c2 =? 0); cbn [negb]; [|done].
    rewrite W1, bind_ret_l, W2, bind_ret_l, bind_ret_l. rewrite (first_diff_tails _ _ _ _ X1 X2). apply IH; [done..|].
    rewrite R1, R2. destruct r1, r2; cbn [length tail] in *; lia || by destruct Hn.
Qed.

(** C29: versions of numbers separated by dots are compared by their numbers,
    from the left, a missing number counting zero: the result is the first
    difference.  The buffers, whatever they hold before, are large enough for
    components below 256 digits, and the loop ends. *)
Theorem cmp_version_order j1 j2 v1 v2 : version v1 -> version v2 -> length j1 = 256%nat -> length j2 = 256%nat ->
  CmpVersion j1 j2 (v1 ++ [0]) (v2 ++ [0]) = Ret (first_diff (numbers v1) (numbers v2)).
Proof.
  intros [H1 H2] [H3 H4] L1 L2. unfold CmpVersion.
  assert (Hc : forall r, comps [] r = components r).
  { intros r. unfold comps. pose proof (components_nonnil r). by destruct (components r). }
  rewrite (cmp_loop_ok (v1 ++ [0]) (v2 ++ [0]) _ 0 [] v1 j1 0 0 [] v2 j2 0).
  - unfold numbers. by rewrite !Hc.
  - split; [by exists []|split; [constructor|]; by rewrite Hc|done].
  - split; [by exists []|split; [constructor|]; by rewrite Hc|done].
  - rewrite !length_app. lia.
Qed.

Lemma cmp_version_order_witness :
  CmpVersion (replicate 256 7) (replicate 256 7) (codes "1.10" ++ [0]) (codes "1.9.3" ++ [0]) = Ret 1.
Proof.
  apply (cmp_version_order (replicate 256 7) (replicate 256 7) (codes "1.10") (codes "1.9.3"));
    [split; eval_decide|split; eval_decide|done|done].
Defined.
