(* ===== verification/TaskHead.v ===== *)
(** * Task heads and their shared blocks (src/public/astTask/astTask.h)

    A [TASKHEAD] owns its task through a reference-counted block [_atpr]: the
    copy constructor and the assignment share the block, the destructor of the
    last owner frees it.  The store holds the live blocks; using a block that
    was freed is undefined.  The vector operations of the task list copy,
    assign and destroy heads the way the library does. *)
From stdpp Require Import gmap sorting.
From S2P Require Import Prelude Words Buffers CString Decimal.

Section heads.
(** What the pointer [task] points to. *)
Context {T : Type}.

Record block := { ref : Z; task : option T }.

(** The live blocks; [new] takes the next address.  [task] is a [void *]: a
    delete of it is undefined by the standard and runs no destructor in the
    compilers, which only return the memory of the object itself.  The store
    keeps the tasks that were deleted in this way in [undestroyed]. *)
Record store := { live : gmap nat block; next : nat; undestroyed : list T }.

Definition set_block (l : nat) (b : block) (h : store) : store := 
  {| live := <[l := b]> (live h); next := next h; undestroyed := undestroyed h |}.

(** [if(atpr->task != NULL) delete atpr->task; delete atpr;]. *)
Definition free_block (l : nat) (b : block) (h : store) : store :=
  {| live := delete l (live h); next := next h; undestroyed := option_list (task b) ++ undestroyed h |}.

(** Reading through [atpr]. *)
Definition load (h : store) (l : nat) : cpp block :=
  match live h !! l with Some b => Ret b | None => Undef end.

Record TASKHEAD := {
  tid : list Z;
  cycle : Z;
  type : Z;
  lasttime : list Z;
  invalid : Z;
  ftime : Z;
  atpr : nat
}.

(** [atpr = new _atpr] with one reference and no task. *)
Definition new_atpr (h : store) : nat * store :=
  (next h, {| live := <[next h := {| ref := 1; task := None |}]> (live h); next := S (next h);
             undestroyed := undestroyed h |}).

Definition zero_time : list Z := codes "0000-00-00-00-00-00".

(** [taskhead()]; [jt] and [jl] are what the character arrays hold before. *)
Definition new_taskhead (jt jl : list Z) (h : store) : cpp (TASKHEAD * store) :=
  t ← buf_write jt 0 [0];
  l ← sprintf_text jl 0 zero_time;
  let '(p, h) := new_atpr h in
  Ret ({| tid := t; cycle := 0; type := 0; lasttime := l; invalid := 0; ftime := 0; atpr := p |}, h).

(** [taskhead(ntid, ncycle, ntype)]. *)
Definition make_taskhead (jt jl ntid : list Z) (ncycle ntype : Z) (h : store) : cpp (TASKHEAD * store) :=
  t ← memcpy jt 0 ntid 0 30;
  l ← sprintf_text jl 0 zero_time;
  let '(p, h) := new_atpr h in
  Ret ({| tid := t; cycle := ncycle; type := ntype; lasttime := l; invalid := 0; ftime := 0; atpr := p |}, h).

(** [atpr->ref++]. *)
Definition retain (l : nat) (h : store) : cpp store :=
  b ← load h l; n ← int_checked (ref b + 1); Ret (set_block l {| ref := n; task := task b |} h).

(** [atpr->ref--], and when no reference is left the task is deleted through the
    [void *] and then the block. *)
Definition release (l : nat) (h : store) : cpp store :=
  b ← load h l; n ← int_checked (ref b - 1);
  if n <=? 0 then Ret (free_block l b h) else Ret (set_block l {| ref := n; task := task b |} h).

(** The fields the copy constructor and the assignment copy into [t] and [l]. *)
Definition copy_fields (t l : list Z) (old : TASKHEAD) : cpp TASKHEAD :=
  t ← memcpy t 0 (tid old) 0 30;
  l ← memcpy l 0 (lasttime old) 0 23;
  Ret {| tid := t; cycle := cycle old; type := type old; lasttime := l; invalid := invalid old;
         ftime := ftime old; atpr := atpr old |}.

(** [taskhead(const taskhead &old)]. *)
Definition copy_taskhead (jt jl : list Z) (old : TASKHEAD) (h : store) : cpp (TASKHEAD * store) :=
  h ← retain (atpr old) h;
  x ← copy_fields jt jl old;
  Ret (x, h).

(** [~taskhead()]. *)
Definition destroy_taskhead (x : TASKHEAD) (h : store) : cpp store := release (atpr x) h.

(** [operator=]: the own block is released before the other one is retained. *)
Definition assign_taskhead (this old : TASKHEAD) (h : store) : cpp (TASKHEAD * store) :=
  h ← release (atpr this) h;
  h ← retain (atpr old) h;
  x ← copy_fields (tid this) (lasttime this) old;
  Ret (x, h).

(** [x.atpr->task = t]. *)
Definition put_task (x : TASKHEAD) (t : T) (h : store) : cpp store :=
  b ← load h (atpr x); Ret (set_block (atpr x) {| ref := ref b; task := Some t |} h).

(** ** std::vector<TASKHEAD> *)

(** Copies of the elements, in order, into fresh memory [j]. *)
Fixpoint copy_all (j : list Z * list Z) (v : list TASKHEAD) (h : store) : cpp (list TASKHEAD * store) :=
  match v with
  | [] => Ret ([], h)
  | x :: r =>
      '(y, h) ← copy_taskhead j.1 j.2 x h;
      '(r', h) ← copy_all j r h;
      Ret (y :: r', h)
  end.

Fixpoint destroy_all (v : list TASKHEAD) (h : store) : cpp store :=
  match v with
  | [] => Ret h
  | x :: r => h ← destroy_taskhead x h; destroy_all r h
  end.

(** [v.insert(v.end(), x)]: at the end, or with all elements in a larger array
    when [grow], the capacity being used up. *)
Definition vector_append (grow : bool) (j : list Z * list Z) (v : list TASKHEAD) (x : TASKHEAD) (h : store)
    : cpp (list TASKHEAD * store) :=
  '(y, h) ← copy_taskhead j.1 j.2 x h;
  if grow then
    '(v', h) ← copy_all j v h;
    h ← destroy_all v h;
    Ret (v' ++ [y], h)
  else Ret (v ++ [y], h).

(** The elements after [x] move down by assignment and the last one dies. *)
Fixpoint shift_down (x : TASKHEAD) (r : list TASKHEAD) (h : store) : cpp (list TASKHEAD * store) :=
  match r with
  | [] => h ← destroy_taskhead x h; Ret ([], h)
  | y :: r =>
      '(x', h) ← assign_taskhead x y h;
      '(v, h) ← shift_down y r h;
      Ret (x' :: v, h)
  end.

(** [v.erase(v.begin() + i)]. *)
Fixpoint vector_erase (v : list TASKHEAD) (i : nat) (h : store) : cpp (list TASKHEAD * store) :=
  match v, i with
  | [], _ => Undef
  | x :: r, O => shift_down x r h
  | x :: r, S i => '(r, h) ← vector_erase r i h; Ret (x :: r, h)
  end.

Definition vector_clear (v : list TASKHEAD) (h : store) : cpp (list TASKHEAD * store) :=
  h ← destroy_all v h; Ret ([], h).

(** ** The invariant of the store

    Every live block counts the heads that point to it, and every head points
    to a live block. *)
Implicit Types (h : store) (hs : list TASKHEAD).

Definition count (l : nat) hs : nat := length (filter (fun x => atpr x = l) hs).

#[local] Arguments count : simpl never.

Record counted (h : store) (hs : list TASKHEAD) : Prop := {
  counted_live l b : live h !! l = Some b -> ref b = Z.of_nat (count l hs) /\ (0 < count l hs)%nat;
  counted_dead l : live h !! l = None -> count l hs = 0%nat;
  counted_next l : (next h <= l)%nat -> live h !! l = None
}.

(** The tasks of the blocks that are still live are unchanged; those of the
    others have been deleted without their destructor. *)
Record keeps (h h' : store) : Prop := {
  keeps_live l b' : live h' !! l = Some b' -> exists b, live h !! l = Some b /\ task b = task b';
  keeps_freed l b t : live h !! l = Some b -> task b = Some t -> is_Some (live h' !! l) \/ t ∈ undestroyed h';
  keeps_deleted t : t ∈ undestroyed h -> t ∈ undestroyed h'
}.

(** The arrays have their sizes and end inside the part that is copied. *)
Record head_ok (x : TASKHEAD) : Prop := {
  ok_tid : length (tid x) = 32%nat /\ 0 ∈ take 30 (tid x);
  ok_time : length (lasttime x) = 24%nat /\ 0 ∈ take 23 (lasttime x)
}.

Definition text_of (b : list Z) : list Z := (span (fun c => negb (c =? 0)) b).1.

(** What a head says. *)
Record task_view := {
  v_tid : list Z; v_cycle : Z; v_type : Z; v_lasttime : list Z; v_invalid : Z; v_ftime : Z; v_task : option T
}.

Definition view (h : store) (x : TASKHEAD) : option task_view :=
  b ← live h !! atpr x;
  Some {| v_tid := text_of (tid x); v_cycle := cycle x; v_type := type x; v_lasttime := text_of (lasttime x);
          v_invalid := invalid x; v_ftime := ftime x; v_task := task b |}.

Lemma count_cons l x hs : count l (x :: hs) = ((if decide (atpr x = l) then 1 else 0) + count l hs)%nat.
Proof. unfold count. rewrite filter_cons. by case_decide. Qed.

Lemma count_app l a b : count l (a ++ b) = (count l a + count l b)%nat.
Proof. unfold count. by rewrite filter_app, length_app. Qed.

Lemma count_le l hs : (count l hs <= length hs)%nat.
Proof. apply length_filter. Qed.

Lemma count_elem x hs : x ∈ hs -> (0 < count (atpr x) hs)%nat.
Proof.
  intros Hx. apply elem_of_Permutation in Hx as [r Hr]. unfold count. rewrite Hr, filter_cons, decide_True by done.
  cbn. lia.
Qed.

#[global] Instance count_perm l : Proper ((≡ₚ) ==> eq) (count l).
Proof. intros a b E. unfold count. by rewrite E. Qed.

Lemma counted_perm h a b : a ≡ₚ b -> counted h a -> counted h b.
Proof.
  intros E [H1 H2 H3]. split; [|intros l Hl; rewrite <- E; auto|done].
  intros l bl Hl. rewrite <- E. auto.
Qed.

Lemma keeps_refl h : keeps h h.
Proof. split; [eauto|eauto|done]. Qed.

Lemma keeps_trans h1 h2 h3 : keeps h1 h2 -> keeps h2 h3 -> keeps h1 h3.
Proof.
  intros [K1 F1 D1] [K2 F2 D2]. split; [| |auto].
  - intros l b3 Hb. destruct (K2 l b3 Hb) as (b2 & Hb2 & E2). destruct (K1 l b2 Hb2) as (b1 & Hb1 & E1).
    exists b1. split; congruence.
  - intros l b t Hb Ht. destruct (F1 l b t Hb Ht) as [[b2 Hb2]|]; [|auto]. apply (F2 l b2 t Hb2).
    destruct (K1 _ _ Hb2) as (b1 & Hb1 & E1). congruence.
Qed.

Lemma counted_load h hs x : counted h hs -> x ∈ hs -> exists b, live h !! atpr x = Some b.
Proof.
  intros Hc Hx. destruct (live h !! atpr x) as [b|] eqn:E; [eauto|].
  apply (counted_dead _ _ Hc) in E. apply count_elem in Hx. lia.
Qed.

(** A view survives as long as its head is counted. *)
Lemma view_keeps h h' hs x : keeps h h' -> counted h' hs -> x ∈ hs -> view h' x = view h x.
Proof.
  intros K Hc Hx. unfold view. destruct (counted_load _ _ _ Hc Hx) as [b' Hb'].
  destruct (keeps_live _ _ K _ _ Hb') as (b & Hb & E). rewrite Hb, Hb'. cbn. by rewrite E.
Qed.

Lemma set_block_keeps h l b n : live h !! l = Some b -> keeps h (set_block l {| ref := n; task := task b |} h).
Proof.
  intros Hb. split; cbn; [| |done].
  - intros l' b' Hl. destruct (decide (l = l')) as [<-|Hd].
    + rewrite lookup_insert_eq in Hl. injection Hl as <-. by exists b.
    + rewrite lookup_insert_ne in Hl by done. by exists b'.
  - intros l' b' t Hl _. left. destruct (decide (l = l')) as [<-|Hd].
    + rewrite lookup_insert_eq. by eexists.
    + rewrite lookup_insert_ne by done. by eexists.
Qed.

Lemma free_block_keeps h l b : live h !! l = Some b -> keeps h (free_block l b h).
Proof.
  intros Hb. split; cbn.
  - intros l' b' Hl. destruct (decide (l = l')) as [<-|Hd]; [by rewrite lookup_delete_eq in Hl|].
    rewrite lookup_delete_ne in Hl by done. by exists b'.
  - intros l' b' t Hl Ht. destruct (decide (l = l')) as [<-|Hd].
    + right. simplify_eq. rewrite Ht. apply elem_of_app. left. by apply list_elem_of_here.
    + left. rewrite lookup_delete_ne by done. by eexists.
  - intros t Ht. apply elem_of_app. by right.
Qed.

(** One reference more, one less. *)
Lemma retain_ok h hs x y : counted h hs -> x ∈ hs -> atpr y = atpr x -> Z.of_nat (length hs) < 2 ^ 31 - 1 ->
  exists h', retain (atpr x) h = Ret h' /\ counted h' (y :: hs) /\ keeps h h'.
Proof.
  intros Hc Hx Ey Hn. destruct (counted_load _ _ _ Hc Hx) as [b Hb]. unfold retain, load. rewrite Hb, bind_ret_l.
  destruct (counted_live _ _ Hc _ _ Hb) as [Er Hp]. pose proof (count_le (atpr x) hs).
  rewrite int_checked_id, bind_ret_l by (unfold is_int; lia). eexists. split; [done|]. split; [split|]; cbn.
  - intros l b' Hl. rewrite count_cons, Ey. destruct (decide (atpr x = l)) as [<-|Hd].
    + rewrite lookup_insert_eq in Hl. injection Hl as <-. cbn. lia.
    + rewrite lookup_insert_ne in Hl by done. by apply (counted_live _ _ Hc).
  - intros l Hl. rewrite count_cons, Ey. destruct (decide (atpr x = l)) as [<-|Hd].
    + by rewrite lookup_insert_eq in Hl.
    + rewrite lookup_insert_ne in Hl by done. by apply (counted_dead _ _ Hc).
  - intros l Hl. pose proof (counted_next _ _ Hc l Hl) as E. rewrite lookup_insert_ne; congruence.
  - by apply set_block_keeps.
Qed.

Lemma release_ok h hs x : counted h (x :: hs) -> Z.of_nat (length hs) < 2 ^ 31 - 1 ->
  exists h', release (atpr x) h = Ret h' /\ counted h' hs /\ keeps h h'.
Proof.
  intros Hc Hn. destruct (counted_load _ _ x Hc (list_elem_of_here _ _)) as [b Hb]. unfold release, load.
  rewrite Hb, bind_ret_l. destruct (counted_live _ _ Hc _ _ Hb) as [Er Hp]. rewrite count_cons, decide_True in Er by done.
  pose proof (count_le (atpr x) hs). rewrite int_checked_id, bind_ret_l by (unfold is_int; lia).
  destruct (Z.leb_spec (ref b - 1) 0) as [H0|H0]; (eexists; split; [done|]; split; [split|]); cbn.
  - intros l b' Hl. destruct (decide (atpr x = l)) as [<-|Hd]; [by rewrite lookup_delete_eq in Hl|].
    rewrite lookup_delete_ne in Hl by done. apply (counted_live _ _ Hc) in Hl. by rewrite count_cons, decide_False in Hl.
  - intros l Hl. destruct (decide (atpr x = l)) as [<-|Hd]; [lia|].
    rewrite lookup_delete_ne in Hl by done. apply (counted_dead _ _ Hc) in Hl. by rewrite count_cons, decide_False in Hl.
  - intros l Hl. apply lookup_delete_None. right. by apply (counted_next _ _ Hc).
  - by apply free_block_keeps.
  - intros l b' Hl. destruct (decide (atpr x = l)) as [<-|Hd].
    + rewrite lookup_insert_eq in Hl. injection Hl as <-. cbn. lia.
    + rewrite lookup_insert_ne in Hl by done. apply (counted_live _ _ Hc) in Hl. by rewrite count_cons, decide_False in Hl.
  - intros l Hl. destruct (decide (atpr x = l)) as [<-|Hd]; [by rewrite lookup_insert_eq in Hl|].
    rewrite lookup_insert_ne in Hl by done. apply (counted_dead _ _ Hc) in Hl. by rewrite count_cons, decide_False in Hl.
  - intros l Hl. pose proof (counted_next _ _ Hc l Hl) as E. rewrite lookup_insert_ne; congruence.
  - by apply set_block_keeps.
Qed.

(** ** Copying, assigning and destroying heads *)

Lemma text_of_app a b : 0 ∈ a -> text_of (a ++ b) = text_of a.
Proof.
  unfold text_of. induction a as [|c a IH]; intros H0; [by apply not_elem_of_nil in H0|]. cbn [app span].
  destruct (Z.eqb_spec c 0) as [->|Hc]; [done|]. cbn [negb]. apply elem_of_cons in H0 as [?|H0]; [done|].
  specialize (IH H0). destruct (span _ (a ++ b)), (span _ a). cbn in *. by f_equal.
Qed.

Lemma text_of_text s r : Forall (fun c => c <> 0) s -> text_of (s ++ 0 :: r) = s.
Proof.
  unfold text_of. induction 1 as [|c s Hc Hs IH]; [done|]. cbn [app span]. rewrite (proj2 (Z.eqb_neq _ _) Hc).
  cbn [negb]. destruct (span _ (s ++ 0 :: r)). cbn in *. by f_equal.
Qed.

(** The array [lasttime] of a new head. *)
Lemma zero_time_array (jl : list Z) : length jl = 24%nat ->
  exists l, sprintf_text jl 0 zero_time = Ret l /\ length l = 24%nat /\ 0 ∈ take 23 l /\ text_of l = zero_time.
Proof.
  intros Hj. exists (splice jl 0 (zero_time ++ [0])).
  assert (El : length (zero_time ++ [0]) = 20%nat) by done.
  unfold sprintf_text, buf_write. rewrite El, Hj, decide_True by lia. split; [done|].
  split; [rewrite length_splice; rewrite ?El; lia|]. unfold splice. change (take 0 jl) with (@nil Z). cbn [app]. split.
  - rewrite take_app_ge by (rewrite El; lia). apply elem_of_app. left. apply elem_of_app. right. by left.
  - rewrite <- app_assoc. apply text_of_text. apply (bool_decide_unpack _). by vm_compute.
Qed.

(** [y] shares the block of [x] and says the same. *)
Record like (y x : TASKHEAD) : Prop := {
  like_atpr : atpr y = atpr x;
  like_view h : view h y = view h x;
  like_ok : head_ok y
}.

(** Fresh memory of the sizes of the arrays. *)
Definition fresh_memory (j : list Z * list Z) : Prop := length j.1 = 32%nat /\ length j.2 = 24%nat.

Lemma copied_array (t b : list Z) n : (n <= length b)%nat -> (n <= length t)%nat -> 0 ∈ take n b ->
  exists t', memcpy t 0 b 0 (Z.of_nat n) = Ret t' /\ length t' = length t /\ take n t' = take n b /\ text_of t' = text_of b.
Proof.
  intros Hn Ht H0. exists (splice t 0 (take n b)).
  assert (El : length (take n b) = n) by (rewrite length_take; lia).
  rewrite memcpy_ok by lia. rewrite Nat2Z.id. split; [done|]. rewrite length_splice by lia. split; [done|].
  unfold splice. cbn [take app]. change (take 0 t) with (@nil Z). cbn [app]. split; [by apply take_app_length'|].
  rewrite text_of_app by done. by rewrite <- (take_drop n b) at 2; rewrite text_of_app.
Qed.

Lemma copy_fields_ok t l x : length t = 32%nat -> length l = 24%nat -> head_ok x ->
  exists y, copy_fields t l x = Ret y /\ like y x.
Proof.
  intros Ht Hl [[L1 Z1] [L2 Z2]]. unfold copy_fields.
  destruct (copied_array t (tid x) 30) as (t' & E1 & E2 & E3 & E4); [lia..|done|].
  destruct (copied_array l (lasttime x) 23) as (l' & F1 & F2 & F3 & F4); [lia..|done|].
  change 30 with (Z.of_nat 30). rewrite E1, bind_ret_l. change 23 with (Z.of_nat 23). rewrite F1, bind_ret_l.
  eexists. split; [done|]. split; [done| |].
  - intros h. unfold view. cbn [atpr tid cycle type lasttime invalid ftime]. by rewrite E4, F4.
  - split; cbn; [rewrite E3|rewrite F3]; split; congruence || done.
Qed.

Lemma copy_ok j h hs x : fresh_memory j -> counted h hs -> x ∈ hs -> head_ok x -> Z.of_nat (length hs) < 2 ^ 31 - 1 ->
  exists y h', copy_taskhead j.1 j.2 x h = Ret (y, h') /\ like y x /\ counted h' (y :: hs) /\ keeps h h'.
Proof.
  intros [J1 J2] Hc Hx Ho Hn. destruct (copy_fields_ok j.1 j.2 x J1 J2 Ho) as (y & Ey & Hy).
  destruct (retain_ok h hs x y Hc Hx (like_atpr _ _ Hy) Hn) as (h' & Eh & Hc' & K).
  exists y, h'. unfold copy_taskhead. by rewrite Eh, bind_ret_l, Ey, bind_ret_l.
Qed.

Lemma assign_ok h hs x y : counted h (x :: hs) -> y ∈ hs -> head_ok x -> head_ok y -> Z.of_nat (length hs) < 2 ^ 31 - 1 ->
  exists x' h', assign_taskhead x y h = Ret (x', h') /\ like x' y /\ counted h' (x' :: hs) /\ keeps h h'.
Proof.
  intros Hc Hy Hx Hoy Hn. destruct (release_ok h hs x Hc Hn) as (h1 & E1 & Hc1 & K1).
  destruct (copy_fields_ok (tid x) (lasttime x) y) as (x' & Ex & Hl); [apply Hx..|done|].
  destruct (retain_ok h1 hs y x' Hc1 Hy (like_atpr _ _ Hl) Hn) as (h2 & E2 & Hc2 & K2).
  exists x', h2. unfold assign_taskhead. rewrite E1, bind_ret_l, E2, bind_ret_l, Ex, bind_ret_l.
  split; [done|]. split; [done|]. split; [done|by eapply keeps_trans].
Qed.

(** ** The vector operations *)

Lemma destroy_all_ok v : forall h hs, counted h (v ++ hs) -> Z.of_nat (length (v ++ hs)) < 2 ^ 31 - 1 ->
  exists h', destroy_all v h = Ret h' /\ counted h' hs /\ keeps h h'.
Proof.
  induction v as [|x v IH]; intros h hs Hc Hn; [exists h; split; [done|]; split; [done|apply keeps_refl]|].
  cbn [app length] in *. destruct (release_ok h (v ++ hs) x Hc) as (h1 & E1 & Hc1 & K1); [lia|].
  destruct (IH h1 hs Hc1) as (h2 & E2 & Hc2 & K2); [lia|]. exists h2. cbn [destroy_all].
  unfold destroy_taskhead. rewrite E1, bind_ret_l. split; [done|]. split; [done|by eapply keeps_trans].
Qed.

Lemma copy_all_ok j v : forall h hs, fresh_memory j -> counted h hs -> (forall x, x ∈ v -> x ∈ hs) -> Forall head_ok v ->
  Z.of_nat (length v + length hs) < 2 ^ 31 - 1 ->
  exists v' h', copy_all j v h = Ret (v', h') /\ Forall2 like v' v /\ counted h' (v' ++ hs) /\ keeps h h'.
Proof.
  induction v as [|x v IH]; intros h hs Hj Hc Hin Hok Hn.
  - exists [], h. split; [done|]. split; [constructor|]. split; [done|apply keeps_refl].
  - apply Forall_cons in Hok as [Hx Hok]. cbn [length] in Hn.
    destruct (copy_ok j h hs x) as (y & h1 & E1 & Hy & Hc1 & K1); [done|done|apply Hin; by left|done|lia|].
    destruct (IH h1 (y :: hs)) as (v' & h2 & E2 & Hv & Hc2 & K2); [done|done| |done|cbn [length]; lia|].
    { intros z Hz. right. apply Hin. by right. }
    exists (y :: v'), h2. cbn [copy_all]. rewrite E1, bind_ret_l, E2, bind_ret_l.
    split; [done|]. split; [by constructor|]. split; [|by eapply keeps_trans].
    eapply counted_perm; [|exact Hc2]. symmetry. apply Permutation_middle.
Qed.

Lemma like_refl x : head_ok x -> like x x.
Proof. done. Qed.

Lemma Forall2_like_refl v : Forall head_ok v -> Forall2 like v v.
Proof. induction 1; constructor; auto using like_refl. Qed.

Lemma Forall2_one (R : TASKHEAD -> TASKHEAD -> Prop) x y : R x y -> Forall2 R [x] [y].
Proof. intros Hr. by constructor. Qed.

Lemma append_ok grow j v x h hs : fresh_memory j -> counted h (v ++ hs) -> x ∈ v ++ hs -> Forall head_ok v -> head_ok x ->
  Z.of_nat (length v + length v + length hs + 1) < 2 ^ 31 - 1 ->
  exists v' h', vector_append grow j v x h = Ret (v', h') /\ Forall2 like v' (v ++ [x]) /\ counted h' (v' ++ hs) /\ keeps h h'.
Proof.
  intros Hj Hc Hin Hok Hx Hn. unfold vector_append.
  destruct (copy_ok j h (v ++ hs) x) as (y & h1 & E1 & Hy & Hc1 & K1); [done..|rewrite length_app; lia|].
  rewrite E1, bind_ret_l. destruct grow.
  - destruct (copy_all_ok j v h1 (y :: v ++ hs)) as (v' & h2 & E2 & Hv & Hc2 & K2); [done|done| |done| |].
    { intros z Hz. right. apply elem_of_app. by left. } { cbn [length]. rewrite length_app. lia. }
    rewrite E2, bind_ret_l. pose proof (Forall2_length _ _ _ Hv) as El.
    destruct (destroy_all_ok v h2 (v' ++ y :: hs)) as (h3 & E3 & Hc3 & K3).
    { eapply counted_perm; [|exact Hc2]. rewrite !app_assoc, (Permutation_app_comm v v').
      rewrite <- !app_assoc. f_equiv. apply Permutation_middle. }
    { rewrite !length_app. cbn [length]. lia. }
    rewrite E3, bind_ret_l. exists (v' ++ [y]), h3. split; [done|]. split; [apply Forall2_app; [done|by apply Forall2_one]|].
    split; [by rewrite <- app_assoc|]. exact (keeps_trans _ _ _ K1 (keeps_trans _ _ _ K2 K3)).
  - exists (v ++ [y]), h1. split; [done|].
    split; [apply Forall2_app; [by apply Forall2_like_refl|by apply Forall2_one]|]. split; [|done].
    eapply counted_perm; [|exact Hc1]. rewrite <- app_assoc. apply Permutation_middle.
Qed.

Lemma shift_down_ok r : forall x h hs, counted h (x :: r ++ hs) -> Forall head_ok (x :: r) ->
  Z.of_nat (length r + length hs) < 2 ^ 31 - 1 ->
  exists v h', shift_down x r h = Ret (v, h') /\ Forall2 like v r /\ counted h' (v ++ hs) /\ keeps h h'.
Proof.
  induction r as [|y r IH]; intros x h hs Hc Hok Hn; cbn [shift_down].
  - destruct (release_ok h hs x Hc) as (h1 & E1 & Hc1 & K1); [cbn [length] in Hn; lia|].
    unfold destroy_taskhead. rewrite E1, bind_ret_l. exists [], h1. split; [done|]. split; [constructor|]. by split.
  - apply Forall_cons in Hok as [Hx Hok]. apply Forall_cons in Hok as Hoy. destruct Hoy as [Hy _]. cbn [length app] in *.
    destruct (assign_ok h (y :: r ++ hs) x y) as (x' & h1 & E1 & Hl & Hc1 & K1); [done|by left|done|done| |].
    { cbn [length]. rewrite length_app. lia. }
    rewrite E1, bind_ret_l. destruct (IH y h1 (x' :: hs)) as (v & h2 & E2 & Hv & Hc2 & K2); [|done|cbn [length]; lia|].
    { eapply counted_perm; [|exact Hc1]. rewrite Permutation_swap. f_equiv. apply Permutation_middle. }
    rewrite E2, bind_ret_l. exists (x' :: v), h2. split; [done|]. split; [by constructor|].
    split; [|by eapply keeps_trans]. eapply counted_perm; [|exact Hc2]. symmetry. apply Permutation_middle.
Qed.

Lemma erase_ok v : forall i h hs, (i < length v)%nat -> counted h (v ++ hs) -> Forall head_ok v ->
  Z.of_nat (length v + length hs) < 2 ^ 31 - 1 ->
  exists v' h', vector_erase v i h = Ret (v', h') /\ Forall2 like v' (delete i v) /\ counted h' (v' ++ hs) /\ keeps h h'.
Proof.
  induction v as [|x v IH]; intros i h hs Hi Hc Hok Hn; [cbn in Hi; lia|]. destruct i as [|i]; cbn [vector_erase].
  - cbn [length] in Hn. destruct (shift_down_ok v x h hs Hc Hok) as (v' & h' & E); [lia|]. eauto.
  - apply Forall_cons in Hok as [Hx Hok]. cbn [length app] in *.
    destruct (IH i h (x :: hs)) as (v' & h1 & E1 & Hv & Hc1 & K1); [lia| |done|cbn [length]; lia|].
    { eapply counted_perm; [|exact Hc]. apply Permutation_middle. }
    rewrite E1, bind_ret_l. exists (x :: v'), h1. split; [done|]. split; [by constructor|]. split; [|done].
    eapply counted_perm; [|exact Hc1]. symmetry. apply Permutation_middle.
Qed.
End heads.
Arguments block : clear implicits.
Arguments store : clear implicits.
Arguments count : simpl never.
