(* ===== verification/TaskList.v ===== *)
(** * The task list (src/public/astTask/astTask.cpp)

    [CTaskList] keeps a vector of task heads, the position of a cursor and a
    lock flag.  The operations on the heads are those of [TaskHead].  An
    iterator is an offset; [None] is an iterator that may not be used: the
    cursor before it is first set, and after an erasure at or before it. *)
From stdpp Require Import gmap sorting.
From S2P Require Import Prelude Words Buffers CString Decimal TaskHead Version.

Section tasks.
Context {T : Type}.
Implicit Types (h : store T) (v : list TASKHEAD).

Record CTaskList := { m_TaskList : list TASKHEAD; m_iCurrent : option nat; m_bLock : bool }.

Definition new_CTaskList : CTaskList := {| m_TaskList := []; m_iCurrent := None; m_bLock := false |}.

Definition set_list v (l : CTaskList) : CTaskList :=
  {| m_TaskList := v; m_iCurrent := m_iCurrent l; m_bLock := m_bLock l |}.
Definition set_cursor (i : option nat) (l : CTaskList) : CTaskList :=
  {| m_TaskList := m_TaskList l; m_iCurrent := i; m_bLock := m_bLock l |}.
Definition set_lock (b : bool) (l : CTaskList) : CTaskList :=
  {| m_TaskList := m_TaskList l; m_iCurrent := m_iCurrent l; m_bLock := b |}.

(** ** The lock, as the only thread sees it *)

(** The flag does not change while this thread waits; a wait without end is
    not a behaviour the language defines. *)
Definition Lock (timeouts : Z) (l : CTaskList) : cpp (Z * CTaskList) :=
  if timeouts =? 0 then (if m_bLock l then Undef else Ret (0, set_lock true l))
  else if (0 <? timeouts) && negb (m_bLock l) then Ret (0, set_lock true l) else Ret (1, l).

Definition UnLock (l : CTaskList) : CTaskList := set_lock false l.

(** ** The cursor *)

Definition Begin (l : CTaskList) : Z * CTaskList :=
  let l := set_cursor (Some 0%nat) l in
  if bool_decide (m_TaskList l = []) then (1, l) else (0, l).

Definition Next (l : CTaskList) : cpp (Z * CTaskList) :=
  match m_iCurrent l with
  | None => Undef
  | Some i =>
      if Nat.eqb i (length (m_TaskList l)) then Ret (2, l)
      else if (length (m_TaskList l) <? i)%nat then Undef
      else
        let l := set_cursor (Some (S i)) l in
        Ret (if Nat.eqb (S i) (length (m_TaskList l)) then 1 else 0, l)
  end.

Definition GetCurrent (l : CTaskList) : option nat := m_iCurrent l.
Definition IsEmpty (l : CTaskList) : bool := bool_decide (m_TaskList l = []).

Definition TaskClear (l : CTaskList) h : cpp (CTaskList * store T) :=
  '(v, h) ← vector_clear (m_TaskList l) h;
  Ret (set_cursor (Some 0%nat) (set_list v l), h).

(** ** Searching *)

(** [for (it = begin; it != end; it++) if (test) break;]: the offset of [it]. *)
Fixpoint first_entry (test : TASKHEAD -> cpp bool) v : cpp (option nat) :=
  match v with
  | [] => Ret None
  | x :: r => b ← test x; if (b : bool) then Ret (Some O) else o ← first_entry test r; Ret (option_map S o)
  end.

(** [strcmp(s, t) == 0]. *)
Definition strcmp_zero (s t : list Z) : cpp bool :=
  s ← tmp_string s; t ← tmp_string t; Ret (bool_decide (s = t)).

Definition FindTask (l : CTaskList) (taskid : list Z) : cpp (option nat) :=
  first_entry (fun x => strcmp_zero taskid (tid x)) (m_TaskList l).

Definition FindFirst (l : CTaskList) (ty : Z) : cpp (option nat) :=
  first_entry (fun x => Ret ((type x =? ty) && (invalid x =? 0))) (m_TaskList l).

Definition disable (x : TASKHEAD) : TASKHEAD :=
  {| tid := tid x; cycle := cycle x; type := type x; lasttime := lasttime x; invalid := 1; ftime := ftime x; atpr := atpr x |}.

Definition InvalidTask (l : CTaskList) (ty : Z) : Z * CTaskList :=
  (Z.of_nat (length (filter (fun x => type x = ty) (m_TaskList l))),
   set_list ((fun x => if type x =? ty then disable x else x) <$> m_TaskList l) l).

(** ** Adding and deleting *)

(** What the library and the compiler choose: whether the vector grows, and
    the memory of the new element and of a temporary. *)
Record memory := { grows : bool; elem_memory : list Z * list Z; temp_memory : list Z * list Z }.

(** [v.insert(v.end(), (TASKHEAD)task)]. *)
Definition insert_copy (m : memory) v (task : TASKHEAD) h : cpp (list TASKHEAD * store T) :=
  '(tmp, h) ← copy_taskhead (temp_memory m).1 (temp_memory m).2 task h;
  '(v, h) ← vector_append (grows m) (elem_memory m) v tmp h;
  h ← destroy_taskhead tmp h;
  Ret (v, h).

Definition _AddTask (m : memory) (l : CTaskList) (task : TASKHEAD) h : cpp (Z * CTaskList * store T) :=
  o ← first_entry (fun x => b ← strcmp_zero (tid task) (tid x);
                            if (b : bool) then Ret true else Ret (invalid x =? 1)) (m_TaskList l);
  '(v, h) ← match o with Some i => vector_erase (m_TaskList l) i h | None => Ret (m_TaskList l, h) end;
  '(v, h) ← insert_copy m v task h;
  Ret (0, set_cursor (Some 0%nat) (set_list v l), h).

Definition AddTask (m : memory) (l : CTaskList) (task : TASKHEAD) h : cpp (Z * CTaskList * store T) :=
  '(nError, l) ← Lock 60 l;
  if negb (nError =? 0) then Ret (3, l, h)
  else
    '(nError, l, h) ← _AddTask m l task h;
    Ret (nError, UnLock l, h).

(** [Copy(out)], with the memory of every insertion. *)
Fixpoint copy_tasks (m : nat -> memory) (i : nat) v out h : cpp (list TASKHEAD * store T) :=
  match v with
  | [] => Ret (out, h)
  | x :: r => '(out, h) ← insert_copy (m i) out x h; copy_tasks m (S i) r out h
  end.

Definition Copy (m : nat -> memory) (l : CTaskList) (out : list TASKHEAD) h
    : cpp (Z * CTaskList * list TASKHEAD * store T) :=
  '(nError, l) ← Lock 60 l;
  if negb (nError =? 0) then Ret (3, l, out, h)
  else
    '(out, h) ← vector_clear out h;
    '(out, h) ← copy_tasks m 0 (m_TaskList l) out h;
    Ret (nError, UnLock l, out, h).

(** Erasing the element at [i] invalidates the iterators from there on. *)
Definition invalidate (i : nat) (c : option nat) : option nat :=
  match c with Some j => if (j <? i)%nat then Some j else None | None => None end.

Definition DelTask (l : CTaskList) (taskid : option (list Z)) h : cpp (Z * CTaskList * store T) :=
  match taskid with
  | None => Ret (1, l, h)
  | Some taskid =>
      '(nError, l) ← Lock 60 l;
      if negb (nError =? 0) then Ret (3, l, h)
      else
        o ← first_entry (fun x => strcmp_zero taskid (tid x)) (m_TaskList l);
        '(l, h) ← match o with
          | Some i =>
              let bEnd := Nat.eqb (S i) (length (m_TaskList l)) in
              '(v, h) ← vector_erase (m_TaskList l) i h;
              let l := set_cursor (invalidate i (m_iCurrent l)) (set_list v l) in
              Ret (if bEnd then set_cursor (Some 0%nat) l else l, h)
          | None => Ret (l, h)
          end;
        Ret (if bool_decide (m_TaskList l = []) then 1 else 0, UnLock l, h)
  end.

(** ** The list as a list of tasks *)

(** [add_view] replaces one entry, the first that has the same identifier or
    is disabled, and puts the task at the end. *)
Definition replaced (t x : @task_view T) : Prop := v_tid x = v_tid t \/ v_invalid x = 1.
#[global] Instance replaced_dec t x : Decision (replaced t x).
Proof. unfold replaced. apply _. Defined.

Definition drop_first {A} (P : A -> Prop) `{forall x, Decision (P x)} (l : list A) : list A :=
  match list_find P l with Some (i, _) => delete i l | None => l end.

Definition add_view (t : task_view) (l : list (@task_view T)) : list task_view := drop_first (replaced t) l ++ [t].
Definition del_view (id : list Z) (l : list (@task_view T)) : list task_view := drop_first (fun x => v_tid x = id) l.
Definition disable_view (ty : Z) (x : @task_view T) : task_view :=
  {| v_tid := v_tid x; v_cycle := v_cycle x; v_type := v_type x; v_lasttime := v_lasttime x;
     v_invalid := if v_type x =? ty then 1 else v_invalid x; v_ftime := v_ftime x; v_task := v_task x |}.

(** The heads [v] are well formed and say [ts]. *)
Record agree h v (ts : list (@task_view T)) : Prop := {
  agree_ok : Forall head_ok v;
  agree_view : Forall2 (fun x t => view h x = Some t) v ts
}.

Lemma agree_length h v ts : agree h v ts -> length v = length ts.
Proof. intros [_ A]. by eapply Forall2_length. Qed.

Lemma agree_nil h : agree h [] [].
Proof. split; constructor. Qed.

Lemma agree_app h v1 v2 t1 t2 : agree h v1 t1 -> agree h v2 t2 -> agree h (v1 ++ v2) (t1 ++ t2).
Proof. intros [] []. split; [by apply Forall_app|by apply Forall2_app]. Qed.

Lemma agree_app_inv h v1 v2 ts : agree h (v1 ++ v2) ts ->
  exists t1 t2, ts = t1 ++ t2 /\ agree h v1 t1 /\ agree h v2 t2.
Proof.
  intros [Ho Hv]. apply Forall_app in Ho as [O1 O2]. apply Forall2_app_inv_l in Hv as (t1 & t2 & V1 & V2 & ->).
  exists t1, t2. by repeat split.
Qed.

Lemma agree_one h x t : head_ok x -> view h x = Some t -> agree h [x] [t].
Proof. intros Ho Hv. split; [by apply Forall_singleton|]. by constructor. Qed.

Lemma agree_lookup h v ts i x : agree h v ts -> v !! i = Some x -> head_ok x /\ exists t, ts !! i = Some t /\ view h x = Some t.
Proof.
  intros [Ho Hv] Hx. split; [by eapply Forall_lookup_1|].
  destruct (Forall2_lookup_l _ _ _ _ _ Hv Hx) as (t & Ht & E). eauto.
Qed.

Lemma agree_delete h v ts i : agree h v ts -> agree h (delete i v) (delete i ts).
Proof. intros [Ho Hv]. split; [by apply Forall_delete|by apply Forall2_delete]. Qed.

(** Heads like [v] in a later store say the same. *)
Lemma agree_like h h' hs v v' ts : agree h v ts -> Forall2 (like (T:=T)) v' v -> keeps h h' -> counted h' hs ->
  (forall x, x ∈ v' -> x ∈ hs) -> agree h' v' ts.
Proof.
  intros [_ Hv] Hl K Hc Hin. split.
  - clear -Hl. induction Hl as [|y x ?? Hy]; constructor; [apply Hy|done].
  - revert ts Hv. induction Hl as [|y x v' v Hy Hl IH]; intros ts Hv; inversion Hv; subst; constructor.
    + rewrite (view_keeps h h' hs) by (done || apply Hin; by left). by rewrite (like_view _ _ Hy).
    + apply IH; [|done]. intros z Hz. apply Hin. by right.
Qed.

Lemma agree_keeps h h' hs v ts : agree h v ts -> keeps h h' -> counted h' hs -> (forall x, x ∈ v -> x ∈ hs) -> agree h' v ts.
Proof. intros A. eapply agree_like; [done|]. apply Forall2_like_refl, A. Qed.

(** ** Searching, abstractly *)

Lemma strlen_total b : 0 ∈ b -> exists n : nat, strlen b = Ret (Z.of_nat n).
Proof.
  induction b as [|c b IH]; intros H0; [by apply not_elem_of_nil in H0|]. cbn [strlen].
  destruct (Z.eqb_spec c 0) as [->|Hc]; [by exists 0%nat|]. apply elem_of_cons in H0 as [?|H0]; [done|].
  destruct (IH H0) as [n En]. exists (S n). rewrite En, bind_ret_l. f_equal. lia.
Qed.

Lemma tmp_string_text b : 0 ∈ b -> tmp_string b = Ret (text_of b).
Proof.
  unfold tmp_string, text_of. induction b as [|c b IH]; intros H0; [by apply not_elem_of_nil in H0|]. cbn [strlen span].
  destruct (Z.eqb_spec c 0) as [->|Hc]; [done|]. cbn [negb]. apply elem_of_cons in H0 as [?|H0]; [done|].
  specialize (IH H0). destruct (strlen_total b H0) as [n En]. rewrite En in *. rewrite !bind_ret_l in *.
  injection IH as IH. replace (Z.to_nat (Z.of_nat n + 1)) with (S n) by lia. rewrite Nat2Z.id in IH. cbn [take].
  rewrite IH. by destruct (span _ b).
Qed.

Lemma first_entry_find h test v ts (P : task_view -> Prop) `{forall t, Decision (P t)} :
  agree h v ts ->
  (forall x t, head_ok x -> view h x = Some t -> test x = Ret (bool_decide (P t))) ->
  first_entry test v = Ret (fst <$> list_find P ts).
Proof.
  intros [Ho Hv] Ht. induction Hv as [|x t v ts Hx Hv IH]; [done|]. apply Forall_cons in Ho as [Hox Ho].
  cbn [first_entry list_find]. rewrite (Ht x t Hox Hx), bind_ret_l. case_bool_decide as Hp.
  - by rewrite decide_True.
  - rewrite decide_False, (IH Ho), bind_ret_l by done. by destruct (list_find P ts) as [[]|].
Qed.

Lemma strcmp_zero_text a b : 0 ∈ a -> 0 ∈ b -> strcmp_zero a b = Ret (bool_decide (text_of a = text_of b)).
Proof. intros Ha Hb. unfold strcmp_zero. by rewrite !tmp_string_text, !bind_ret_l by done. Qed.

Lemma head_tid x : head_ok x -> 0 ∈ tid x.
Proof. intros [[_ H0] _]. rewrite <- (take_drop 30 (tid x)). apply elem_of_app. by left. Qed.

Lemma view_fields h x t : view h x = Some t ->
  v_tid t = text_of (tid x) /\ v_type t = type x /\ v_invalid t = invalid x.
Proof. unfold view. intros E. destruct (live h !! atpr x); [|done]. cbn in E. by injection E as <-. Qed.

Lemma has_id_spec id : 0 ∈ id -> forall h x t, head_ok x -> view h x = Some t ->
  strcmp_zero id (tid x) = Ret (bool_decide (v_tid t = text_of id)).
Proof.
  intros H0 h x t Ho Hv. apply view_fields in Hv as (-> & _ & _). rewrite strcmp_zero_text by (done || by apply head_tid).
  f_equal. by apply bool_decide_ext.
Qed.

(** ** The operations refine those on lists of tasks *)

(** [l'] and [h'] hold the tasks [ts] beside the heads [hs]. *)
Record holds (l : CTaskList) h hs (ts : list (@task_view T)) : Prop := {
  holds_agree : agree h (m_TaskList l) ts;
  holds_counted : counted h (m_TaskList l ++ hs);
  holds_free : m_bLock l = false
}.

Definition fresh_insert (m : memory) : Prop := fresh_memory (elem_memory m) /\ fresh_memory (temp_memory m).

Lemma insert_copy_ok m v task h hs : fresh_insert m -> counted h (v ++ hs) -> task ∈ v ++ hs -> Forall head_ok v ->
  head_ok task -> Z.of_nat (length v + length v + length hs + 2) < 2 ^ 31 - 1 ->
  exists v' h', insert_copy m v task h = Ret (v', h') /\ Forall2 (like (T:=T)) v' (v ++ [task]) /\ counted h' (v' ++ hs) /\ keeps h h'.
Proof.
  intros [He Hm] Hc Hin Hok Ho Hn. unfold insert_copy.
  destruct (copy_ok (temp_memory m) h (v ++ hs) task) as (tmp & h1 & E1 & Hl & Hc1 & K1); [done..|rewrite length_app; lia|].
  rewrite E1, bind_ret_l.
  destruct (append_ok (grows m) (elem_memory m) v tmp h1 (tmp :: hs)) as (v' & h2 & E2 & Hv & Hc2 & K2);
    [done| | |done|apply Hl|cbn [length]; lia|].
  { eapply counted_perm; [|exact Hc1]. apply Permutation_middle. }
  { apply elem_of_app. right. by left. }
  rewrite E2, bind_ret_l.
  assert (Hlen : length v' = S (length v)) by (rewrite (Forall2_length _ _ _ Hv), length_app; cbn; lia).
  destruct (release_ok h2 (v' ++ hs) tmp) as (h3 & E3 & Hc3 & K3).
  { eapply counted_perm; [|exact Hc2]. symmetry. apply Permutation_middle. } { rewrite length_app. lia. }
  unfold destroy_taskhead. rewrite E3, bind_ret_l. exists v', h3. split; [done|]. split; [|split; [done|]].
  - apply Forall2_app_inv_r in Hv as (a & b & Ha & Hb & ->). apply Forall2_app; [done|].
    inversion Hb as [|y z b' ? Hy Hnil]; subst. inversion Hnil; subst. apply Forall2_one.
    destruct Hy as [A B C], Hl as [A' B' C']. split; [congruence|intros; by rewrite B, B'|done].
  - exact (keeps_trans _ _ _ K1 (keeps_trans _ _ _ K2 K3)).
Qed.

(** Erasing the first entry with a property, when there is one. *)
Definition erase_first v (o : option nat) h : cpp (list TASKHEAD * store T) :=
  match o with Some i => vector_erase v i h | None => Ret (v, h) end.

Lemma erase_first_ok v h hs ts (P : task_view -> Prop) `{forall t, Decision (P t)} :
  agree h v ts -> counted h (v ++ hs) -> Z.of_nat (length v + length hs) < 2 ^ 31 - 1 ->
  exists v' h', erase_first v (fst <$> list_find P ts) h = Ret (v', h') /\ agree h' v' (drop_first P ts) /\
    counted h' (v' ++ hs) /\ keeps h h' /\ (length v' <= length v)%nat.
Proof.
  intros A Hc Hn. unfold erase_first, drop_first. destruct (list_find P ts) as [[i t]|] eqn:Ef; cbn.
  - apply list_find_Some in Ef as (Hi & _ & _). apply lookup_lt_Some in Hi. rewrite <- (agree_length _ _ _ A) in Hi.
    destruct (erase_ok v i h hs Hi Hc (agree_ok _ _ _ A) Hn) as (v' & h' & E & Hl & Hc' & K).
    exists v', h'. split; [done|]. split; [|split; [done|split; [done|]]].
    + eapply agree_like; [by apply agree_delete|done|done|done|]. intros x Hx. apply elem_of_app. by left.
    + rewrite (Forall2_length _ _ _ Hl), length_delete by (by apply lookup_lt_is_Some_2). lia.
  - exists v, h. split; [done|]. split; [done|]. split; [done|]. split; [apply keeps_refl|done].
Qed.

(** A new head whose task was set, beside the others. *)
Lemma fresh_block_ok x t h hs : counted h hs -> atpr x = next h ->
  exists h', put_task x t (new_atpr h).2 = Ret h' /\ counted h' (x :: hs) /\
    live h' !! atpr x = Some {| ref := 1; task := Some t |} /\
    (forall v ts, (forall y, y ∈ v -> y ∈ hs) -> agree h v ts -> agree h' v ts).
Proof.
  intros Hc Hx. unfold put_task, load, new_atpr. cbn [snd live]. rewrite Hx, lookup_insert_eq, bind_ret_l.
  eexists. split; [done|]. split; [split; cbn; rewrite ?Hx|split; [cbn; by rewrite lookup_insert_eq|]].
  - intros k b. destruct (decide (next h = k)) as [<-|Hk].
    + rewrite lookup_insert_eq. intros E. injection E as <-. rewrite count_cons, decide_True by done.
      rewrite (counted_dead _ _ Hc) by by apply (counted_next _ _ Hc). cbn. lia.
    + rewrite !lookup_insert_ne, count_cons, decide_False by congruence. apply (counted_live _ _ Hc).
  - intros k. destruct (decide (next h = k)) as [<-|Hk]; [by rewrite lookup_insert_eq|].
    rewrite !lookup_insert_ne, count_cons, decide_False by congruence. apply (counted_dead _ _ Hc).
  - intros k Hk. rewrite !lookup_insert_ne by lia. apply (counted_next _ _ Hc). lia.
  - intros v ts Hin [Ho Hv]. split; [done|]. clear Ho. revert Hin.
    induction Hv as [|y u v ts Hy Hv IH]; intros Hin; constructor.
    + rewrite <- Hy. unfold view. cbn. destruct (counted_load _ _ y Hc) as [b Hb]; [apply Hin; by left|].
      rewrite !lookup_insert_ne; [done|..]; intros E; rewrite <- E, (counted_next _ _ Hc) in Hb; done || lia.
    + apply IH. intros z Hz. apply Hin. by right.
Qed.

Lemma _AddTask_ok m l task t h hs ts : fresh_insert m -> agree h (m_TaskList l) ts -> counted h (m_TaskList l ++ hs) ->
  task ∈ hs -> head_ok task -> view h task = Some t -> Z.of_nat (length ts + length ts + length hs + 2) < 2 ^ 31 - 1 ->
  exists v h', _AddTask m l task h = Ret (0, set_cursor (Some 0%nat) (set_list v l), h') /\ agree h' v (add_view t ts) /\
    counted h' (v ++ hs) /\ keeps h h'.
Proof.
  intros Hm A Hc Hin Ho Hv Hn. pose proof (agree_length _ _ _ A) as El. unfold _AddTask.
  rewrite (first_entry_find h _ _ ts (replaced t)); [|done|].
  2: { intros x u Hox Hu. apply view_fields in Hu as (Eu & _ & Ei). apply view_fields in Hv as (Et & _ & _).
       rewrite strcmp_zero_text, bind_ret_l by by apply head_tid. rewrite <- Et, <- Eu, <- Ei.
       destruct (decide (v_tid t = v_tid u)) as [Hid|Hid]; [by rewrite !bool_decide_eq_true_2 by (done || by left)|].
       rewrite (bool_decide_eq_false_2 (v_tid t = v_tid u)) by done. f_equal. symmetry.
       destruct (Z.eqb_spec (v_invalid u) 1) as [E1|E1]; [apply bool_decide_eq_true_2; by right|].
       apply bool_decide_eq_false_2. by intros [?|?]. }
  rewrite bind_ret_l. destruct (erase_first_ok _ h hs ts (replaced t) A Hc) as (v1 & h1 & E1 & A1 & Hc1 & K1 & L1); [lia|].
  unfold erase_first in E1. rewrite E1, bind_ret_l.
  destruct (insert_copy_ok m v1 task h1 hs) as (v2 & h2 & E2 & Hl & Hc2 & K2); try done;
    [apply elem_of_app; by right|apply A1|lia|].
  rewrite E2, bind_ret_l. exists v2, h2. split; [done|]. split; [|split; [done|by eapply keeps_trans]].
  unfold add_view. eapply agree_like; [|done|done|done|].
  - apply agree_app; [done|]. apply agree_one; [done|]. by rewrite (view_keeps h h1 (v1 ++ hs)); [..|apply elem_of_app; right].
  - intros x Hx. apply elem_of_app. by left.
Qed.

Lemma AddTask_ok m l task t h hs ts : fresh_insert m -> holds l h hs ts -> task ∈ hs -> head_ok task -> view h task = Some t ->
  Z.of_nat (length ts + length ts + length hs + 2) < 2 ^ 31 - 1 ->
  exists l' h', AddTask m l task h = Ret (0, l', h') /\ holds l' h' hs (add_view t ts) /\ keeps h h'.
Proof.
  intros Hm [A Hc Hf] Hin Ho Hv Hn. unfold AddTask, Lock. rewrite Hf. cbn -[_AddTask].
  destruct (_AddTask_ok m (set_lock true l) task t h hs ts) as (v & h' & E & A' & Hc' & K); try done.
  rewrite E, bind_ret_l. eexists _, _. split; [reflexivity|]. split; [|done]. by split.
Qed.

Lemma DelTask_ok l id h hs ts : holds l h hs ts -> 0 ∈ id -> Z.of_nat (length ts + length hs) < 2 ^ 31 - 1 ->
  exists l' h', DelTask l (Some id) h = Ret (if bool_decide (del_view (text_of id) ts = []) then 1 else 0, l', h') /\
    holds l' h' hs (del_view (text_of id) ts) /\ keeps h h'.
Proof.
  intros [A Hc Hf] H0 Hn. pose proof (agree_length _ _ _ A) as El. unfold DelTask, Lock. rewrite Hf. cbn -[first_entry Nat.eqb].
  rewrite (first_entry_find h _ _ ts (fun x => v_tid x = text_of id)); [|done|by apply has_id_spec].
  rewrite bind_ret_l.
  destruct (erase_first_ok _ h hs ts (fun x => v_tid x = text_of id) A Hc) as (v1 & h1 & E1 & A1 & Hc1 & K1 & L1); [lia|].
  fold (del_view (text_of id) ts) in A1. pose proof (agree_length _ _ _ A1) as El1.
  assert (Eb : bool_decide (v1 = []) = bool_decide (del_view (text_of id) ts = [])).
  { apply bool_decide_ext. by rewrite <- !length_zero_iff_nil, El1. }
  unfold erase_first in E1. destruct (list_find _ ts) as [[i t]|]; cbn [fmap option_fmap option_map fst] in *.
  - rewrite E1, !bind_ret_l. destruct (S i =? _)%nat; cbn [m_TaskList set_cursor set_list]; rewrite Eb; (eexists _, _; split; [reflexivity|]; split; [|done]; by split).
  - injection E1 as <- <-. rewrite bind_ret_l. cbn [m_TaskList set_lock]. rewrite Eb.
    eexists _, _. split; [reflexivity|]. split; [|done]. by split.
Qed.

Lemma counted_map h v hs (f : TASKHEAD -> TASKHEAD) : (forall x, atpr (f x) = atpr x) -> counted h (v ++ hs) ->
  counted h ((f <$> v) ++ hs).
Proof.
  intros Hf [H1 H2 H3].
  assert (E : forall l, count l ((f <$> v) ++ hs) = count l (v ++ hs)).
  { intros l. rewrite !count_app. f_equal. clear -Hf. induction v as [|x v IH]; [done|]. cbn [fmap list_fmap].
    rewrite !count_cons, Hf. by f_equal. }
  split; [intros l b; rewrite E; auto|intros l; rewrite E; auto|done].
Qed.

Lemma InvalidTask_ok l ty h hs ts : holds l h hs ts ->
  (InvalidTask l ty).1 = Z.of_nat (length (filter (fun x => v_type x = ty) ts)) /\
  holds (InvalidTask l ty).2 h hs (disable_view ty <$> ts).
Proof.
  intros [[Ho Hv] Hc Hf]. unfold InvalidTask. cbn [fst snd]. split.
  - f_equal. clear -Hv. induction Hv as [|x t v ts Hx Hv IH]; [done|]. rewrite !filter_cons.
    apply view_fields in Hx as (_ & -> & _). case_decide; cbn; by rewrite IH.
  - split; cbn; [|apply counted_map; [intros x; by destruct (type x =? ty)|done]|done]. split.
    + apply Forall_fmap. eapply Forall_impl; [exact Ho|]. intros x Hx. cbn. by destruct (type x =? ty); [destruct Hx|].
    + apply Forall2_fmap. eapply Forall2_impl; [exact Hv|]. intros x t Hx. cbn. revert Hx. unfold view.
      destruct (Z.eqb_spec (type x) ty) as [E|E]; cbn; destruct (live h !! atpr x); try done; cbn; intros Hx; injection Hx as <-;
        unfold disable_view; cbn;
        [by rewrite (proj2 (Z.eqb_eq _ _) E)|by rewrite (proj2 (Z.eqb_neq _ _) E)].
Qed.

Lemma TaskClear_ok l h hs ts : holds l h hs ts -> Z.of_nat (length ts + length hs) < 2 ^ 31 - 1 ->
  exists l' h', TaskClear l h = Ret (l', h') /\ holds l' h' hs [] /\ keeps h h'.
Proof.
  intros [A Hc Hf] Hn. unfold TaskClear, vector_clear.
  destruct (destroy_all_ok _ h hs Hc) as (h' & E & Hc' & K); [rewrite length_app, (agree_length _ _ _ A); lia|].
  rewrite E, !bind_ret_l. eexists _, _. split; [done|]. split; [split; cbn; [apply agree_nil|done|done]|done].
Qed.

Lemma copy_tasks_ok m v : (forall i, fresh_insert (m i)) -> forall i out h hs ts us,
  agree h v ts -> agree h out us -> counted h (out ++ hs) -> (forall x, x ∈ v -> x ∈ hs) ->
  Z.of_nat (2 * length v + 2 * length out + length hs + 2) < 2 ^ 31 - 1 ->
  exists out' h', copy_tasks m i v out h = Ret (out', h') /\ agree h' out' (us ++ ts) /\ counted h' (out' ++ hs) /\ keeps h h'.
Proof.
  intros Hm. induction v as [|x v IH]; intros i out h hs ts us A Au Hc Hin Hn.
  - apply agree_length in A as El. destruct ts; [|done]. rewrite app_nil_r. exists out, h.
    split; [done|]. split; [done|]. split; [done|apply keeps_refl].
  - cbn [copy_tasks length] in *. apply (agree_app_inv h [x] v) in A as (t1 & t2 & -> & A1 & A2).
    destruct (insert_copy_ok (m i) out x h hs) as (o1 & h1 & E1 & Hl & Hc1 & K1); [auto|done| |apply Au| |lia|].
    { apply elem_of_app. right. apply Hin. by left. } { apply (Forall_inv (agree_ok _ _ _ A1)). }
    rewrite E1, bind_ret_l. pose proof (Forall2_length _ _ _ Hl) as El. rewrite length_app in El. cbn [length] in El.
    assert (Hv : forall z, z ∈ v -> z ∈ hs) by (intros z Hz; apply Hin; by right).
    destruct (IH (S i) o1 h1 hs t2 (us ++ t1)) as (o2 & h2 & E2 & A3 & Hc2 & K2); [| |done|done|lia|].
    { eapply agree_keeps; [done..|]. intros z Hz. apply elem_of_app. auto. }
    { eapply agree_like; [by apply agree_app|done..|]. intros z Hz. apply elem_of_app. by left. }
    exists o2, h2. rewrite (app_assoc us t1 t2). split; [done|]. split; [done|]. split; [done|by eapply keeps_trans].
Qed.

Lemma Copy_ok m l out h hs ts us : (forall i, fresh_insert (m i)) -> holds l h (out ++ hs) ts -> agree h out us ->
  Z.of_nat (3 * length ts + length us + length hs + 2) < 2 ^ 31 - 1 ->
  exists l' out' h', Copy m l out h = Ret (0, l', out', h') /\ holds l' h' (out' ++ hs) ts /\ agree h' out' ts /\ keeps h h'.
Proof.
  intros Hm [A Hc Hf] Au Hn. pose proof (agree_length _ _ _ A) as El. pose proof (agree_length _ _ _ Au) as Eu.
  unfold Copy, Lock, vector_clear. rewrite Hf. cbn -[copy_tasks].
  destruct (destroy_all_ok out h (m_TaskList l ++ hs)) as (h1 & E1 & Hc1 & K1).
  { eapply counted_perm; [|exact Hc]. rewrite !app_assoc. f_equiv. apply Permutation_app_comm. }
  { rewrite !length_app. lia. }
  rewrite E1, !bind_ret_l.
  assert (A1 : agree h1 (m_TaskList l) ts).
  { eapply agree_keeps; [done..|]. intros x Hx. apply elem_of_app. by left. }
  destruct (copy_tasks_ok m (m_TaskList l) Hm 0 [] h1 (m_TaskList l ++ hs) ts []) as (o2 & h2 & E2 & A2 & Hc2 & K2);
    [done|apply agree_nil|done| |rewrite length_app; cbn [length]; lia|].
  { intros x Hx. apply elem_of_app. by left. }
  rewrite E2, bind_ret_l. eexists _, _, _. split; [done|]. split; [split; cbn|]; [..|done|].
  - eapply agree_keeps; [done..|]. intros x Hx. rewrite !elem_of_app. auto.
  - eapply counted_perm; [|exact Hc2]. rewrite !app_assoc. f_equiv. apply Permutation_app_comm.
  - split; [done|by eapply keeps_trans].
Qed.
End tasks.
