(* ===== verification/TaskHistory.v ===== *)
(** * Histories of task lists (src/public/astTask)

    A program that creates task heads, hands them to a [CTaskList], searches,
    disables, deletes and copies tasks and drops its own heads, in any order.
    The list behaves as a plain list of tasks, and the reference counts of the
    shared blocks are exact, so that no block is used after it was freed and
    none is left when the last head is gone.  The tasks the blocks held are then
    all deleted without a destructor. *)
From stdpp Require Import gmap sorting.
From S2P Require Import Prelude Words Buffers CString Decimal TaskHead TaskList.

Section history.
Context {T : Type}.
Implicit Types (h : store T) (v : list TASKHEAD) (ts : list (@task_view T)).

(** The blocks, a list, the vector its copies go to, and the other heads. *)
Record world := { w_store : store T; w_list : CTaskList; w_out : list TASKHEAD; w_heads : list TASKHEAD }.

Definition start : world := {| w_store := {| live := ∅; next := 0; undestroyed := [] |}; w_list := new_CTaskList; w_out := []; w_heads := [] |}.

(** The calls; [j] and [m] are the memory that is not initialised. *)
Inductive op :=
| NewTask (j : list Z * list Z) (id : list Z) (c ty : Z) (t : T)
| DropTask (i : nat)
| CallAddTask (m : memory) (i : nat)
| CallDelTask (id : list Z)
| CallInvalidTask (ty : Z)
| CallTaskClear
| CallCopy (m : nat -> memory)
| CallFindTask (id : list Z)
| CallFindFirst (ty : Z).

Inductive answer := Code (n : Z) | Entry (o : option nat).

Definition run_op (o : op) (w : world) : cpp (answer * world) :=
  let '{| w_store := h; w_list := l; w_out := out; w_heads := hd |} := w in
  match o with
  | NewTask j id c ty t =>
      '(x, h) ← make_taskhead j.1 j.2 id c ty h;
      h ← put_task x t h;
      Ret (Code 0, {| w_store := h; w_list := l; w_out := out; w_heads := x :: hd |})
  | DropTask i =>
      match hd !! i with
      | Some x => h ← destroy_taskhead x h;
                  Ret (Code 0, {| w_store := h; w_list := l; w_out := out; w_heads := delete i hd |})
      | None => Undef
      end
  | CallAddTask m i =>
      match hd !! i with
      | Some x => '(n, l, h) ← AddTask m l x h;
                  Ret (Code n, {| w_store := h; w_list := l; w_out := out; w_heads := hd |})
      | None => Undef
      end
  | CallDelTask id =>
      '(n, l, h) ← DelTask l (Some id) h;
      Ret (Code n, {| w_store := h; w_list := l; w_out := out; w_heads := hd |})
  | CallInvalidTask ty =>
      let '(n, l) := InvalidTask l ty in
      Ret (Code n, {| w_store := h; w_list := l; w_out := out; w_heads := hd |})
  | CallTaskClear =>
      '(l, h) ← TaskClear l h;
      Ret (Code 0, {| w_store := h; w_list := l; w_out := out; w_heads := hd |})
  | CallCopy m =>
      '(n, l, out, h) ← Copy m l out h;
      Ret (Code n, {| w_store := h; w_list := l; w_out := out; w_heads := hd |})
  | CallFindTask id => r ← FindTask l id; Ret (Entry r, w)
  | CallFindFirst ty => r ← FindFirst l ty; Ret (Entry r, w)
  end.

Fixpoint run (os : list op) (w : world) : cpp (list answer * world) :=
  match os with
  | [] => Ret ([], w)
  | o :: r => '(a, w) ← run_op o w; '(l, w) ← run r w; Ret (a :: l, w)
  end.

(** ** The same on plain lists of tasks *)

Record tasks := { t_list : list (@task_view T); t_out : list (@task_view T); t_heads : list (@task_view T) }.

Definition new_view (id : list Z) (c ty : Z) (t : T) : task_view :=
  {| v_tid := text_of id; v_cycle := c; v_type := ty; v_lasttime := zero_time; v_invalid := 0; v_ftime := 0; v_task := Some t |}.

Definition spec_op (o : op) (s : tasks) : option (answer * tasks) :=
  let '{| t_list := l; t_out := out; t_heads := hd |} := s in
  match o with
  | NewTask _ id c ty t => Some (Code 0, {| t_list := l; t_out := out; t_heads := new_view id c ty t :: hd |})
  | DropTask i => _ ← hd !! i; Some (Code 0, {| t_list := l; t_out := out; t_heads := delete i hd |})
  | CallAddTask _ i => t ← hd !! i; Some (Code 0, {| t_list := add_view t l; t_out := out; t_heads := hd |})
  | CallDelTask id =>
      let l := del_view (text_of id) l in
      Some (Code (if bool_decide (l = []) then 1 else 0), {| t_list := l; t_out := out; t_heads := hd |})
  | CallInvalidTask ty =>
      Some (Code (Z.of_nat (length (filter (fun x => v_type x = ty) l))),
            {| t_list := disable_view ty <$> l; t_out := out; t_heads := hd |})
  | CallTaskClear => Some (Code 0, {| t_list := []; t_out := out; t_heads := hd |})
  | CallCopy _ => Some (Code 0, {| t_list := l; t_out := l; t_heads := hd |})
  | CallFindTask id => Some (Entry (fst <$> list_find (fun x => v_tid x = text_of id) l), s)
  | CallFindFirst ty => Some (Entry (fst <$> list_find (fun x => v_type x = ty /\ v_invalid x = 0) l), s)
  end.

Fixpoint spec_run (os : list op) (s : tasks) : option (list answer * tasks) :=
  match os with
  | [] => Some ([], s)
  | o :: r => '(a, s) ← spec_op o s; '(l, s) ← spec_run r s; Some (a :: l, s)
  end.

Definition no_tasks : tasks := {| t_list := []; t_out := []; t_heads := [] |}.

(** An identifier is a string that ends within the 30 bytes that are copied. *)
Definition tid_text (id : list Z) : Prop := (30 <= length id)%nat /\ 0 ∈ take 30 id.

Definition op_ok (o : op) : Prop :=
  match o with
  | NewTask j id _ _ _ => fresh_memory j /\ tid_text id
  | CallAddTask m _ => fresh_insert m
  | CallCopy m => forall i, fresh_insert (m i)
  | CallDelTask id | CallFindTask id => 0 ∈ id
  | _ => True
  end.

(** ** The simulation *)

Definition heads_of (w : world) : list TASKHEAD := m_TaskList (w_list w) ++ w_out w ++ w_heads w.

Record simulates (w : world) (s : tasks) : Prop := {
  sim_list : holds (w_list w) (w_store w) (w_out w ++ w_heads w) (t_list s);
  sim_out : agree (w_store w) (w_out w) (t_out s);
  sim_heads : agree (w_store w) (w_heads w) (t_heads s)
}.

Definition small (n : nat) (s : tasks) : Prop :=
  (length (t_list s) <= n /\ length (t_out s) <= n /\ length (t_heads s) <= n)%nat.

Lemma new_head_ok j id c ty t h hs : fresh_memory j -> tid_text id -> counted h hs ->
  exists x h' h'', make_taskhead j.1 j.2 id c ty h = Ret (x, h') /\ put_task x t h' = Ret h'' /\ counted h'' (x :: hs) /\
    agree h'' [x] [new_view id c ty t] /\
    (forall v ts, (forall y, y ∈ v -> y ∈ hs) -> agree h v ts -> agree h'' v ts).
Proof.
  intros [J1 J2] [I1 I2] Hc. unfold make_taskhead.
  destruct (copied_array j.1 id 30) as (a & Ea & La & Ta & Xa); [lia..|done|]. change 30 with (Z.of_nat 30).
  rewrite Ea, bind_ret_l. destruct (zero_time_array j.2 J2) as (l & El & Ll & Zl & Xl). rewrite El, bind_ret_l.
  destruct (fresh_block_ok {| tid := a; cycle := c; type := ty; lasttime := l; invalid := 0; ftime := 0; atpr := next h |}
    t h hs Hc eq_refl) as (h' & E & Hc' & Hb & Hf).
  eexists _, _, h'. split; [reflexivity|]. split; [exact E|]. split; [done|]. split; [|done]. apply agree_one.
  - split; cbn; [rewrite Ta|]; split; done || lia.
  - unfold view. cbn [atpr] in *. rewrite Hb. cbn. by rewrite Xa, Xl.
Qed.

Lemma FindTask_ok l id h hs ts : holds l h hs ts -> 0 ∈ id ->
  FindTask l id = Ret (fst <$> list_find (fun x => v_tid x = text_of id) ts).
Proof. intros [A _ _] H0. unfold FindTask. eapply first_entry_find; [done|]. by apply has_id_spec. Qed.

Lemma FindFirst_ok l ty h hs ts : holds l h hs ts ->
  FindFirst l ty = Ret (fst <$> list_find (fun x => v_type x = ty /\ v_invalid x = 0) ts).
Proof.
  intros [A _ _]. unfold FindFirst. eapply first_entry_find; [done|]. intros x t _ Hv.
  apply view_fields in Hv as (_ & -> & ->). f_equal. apply eq_true_iff_eq.
  rewrite andb_true_iff, !Z.eqb_eq. symmetry. apply bool_decide_eq_true.
Qed.

Lemma agree_in_frame h h' v hs1 hs2 hs ts : agree h hs1 ts -> keeps h h' -> counted h' (v ++ hs) ->
  hs1 ++ hs2 ⊆+ hs -> agree h' hs1 ts.
Proof.
  intros A K Hc Hin. eapply agree_keeps; [done..|]. intros x Hx. apply elem_of_app. right.
  eapply elem_of_submseteq; [|done]. apply elem_of_app. by left.
Qed.

(** A step that changes the list only. *)
Lemma simulates_list w s l' h' ts : simulates w s -> holds l' h' (w_out w ++ w_heads w) ts -> keeps (w_store w) h' ->
  simulates {| w_store := h'; w_list := l'; w_out := w_out w; w_heads := w_heads w |}
            {| t_list := ts; t_out := t_out s; t_heads := t_heads s |}.
Proof.
  intros [_ So Sh] Hl K. pose proof (holds_counted _ _ _ _ Hl) as Hc. split; cbn; [done|..].
  - eapply agree_keeps; [done..|]. intros x Hx. rewrite !elem_of_app. auto.
  - eapply agree_keeps; [done..|]. intros x Hx. rewrite !elem_of_app. auto.
Qed.

Lemma length_drop_first {A} (P : A -> Prop) `{forall x, Decision (P x)} (l : list A) : (length (drop_first P l) <= length l)%nat.
Proof.
  unfold drop_first. destruct (list_find P l) as [[i x]|] eqn:E; [|done]. apply list_find_Some in E as (E & _).
  rewrite length_delete by eauto. lia.
Qed.

(** Every call does to the tasks what it does to the plain lists. *)
Lemma op_simulates n o w s a s' : op_ok o -> simulates w s -> small n s -> Z.of_nat n < 2 ^ 28 ->
  spec_op o s = Some (a, s') -> exists w', run_op o w = Ret (a, w') /\ simulates w' s' /\ small (S n) s'.
Proof.
  intros Ho Hs Hn Hb Hr. pose proof Hs as [Sl So Sh]. destruct w as [h l out hd], s as [tl to th]. unfold small in *. cbn [t_list t_out t_heads w_store w_list w_out w_heads] in *.
  pose proof (agree_length _ _ _ So) as Eo. pose proof (agree_length _ _ _ Sh) as Eh.
  assert (Ef : length (out ++ hd) = (length to + length th)%nat) by (rewrite length_app; lia).
  destruct o as [j id c ty t|i|m i|id|ty| |m|id|ty]; cbn [run_op spec_op op_ok] in *.
  - injection Hr as <- <-. destruct Ho as [Hj Hi].
    destruct (new_head_ok j id c ty t h _ Hj Hi (holds_counted _ _ _ _ Sl)) as (x & h1 & h2 & E1 & E2 & Hc & A & Hk).
    rewrite E1, bind_ret_l, E2, bind_ret_l. eexists. split; [done|]. split; [|cbn; lia]. destruct Sl as [Al _ Fl].
    split; cbn; [split; [|eapply counted_perm; [|exact Hc]|done]|..].
    + apply Hk; [|done]. intros y Hy. apply elem_of_app. by left.
    + rewrite !app_assoc. apply Permutation_middle.
    + apply Hk; [|done]. intros y Hy. rewrite !elem_of_app. auto.
    + apply (agree_app h2 [x] hd [_] th); [done|]. apply Hk; [|done]. intros y Hy. rewrite !elem_of_app. auto.
  - destruct (th !! i) as [t|] eqn:Ei; [|done]. cbn in Hr. injection Hr as <- <-.
    assert (Hi : (i < length hd)%nat) by (rewrite Eh; by eapply lookup_lt_Some).
    apply lookup_lt_is_Some_2 in Hi as [x Hx]. rewrite Hx. destruct Sl as [Al Cl Fl].
    assert (Hp : m_TaskList l ++ out ++ hd ≡ₚ x :: m_TaskList l ++ out ++ delete i hd).
    { rewrite (delete_Permutation hd i x) at 1 by done. rewrite !app_assoc. symmetry. apply Permutation_middle. }
    destruct (release_ok h (m_TaskList l ++ out ++ delete i hd) x) as (h1 & E1 & Hc & K).
    { by eapply counted_perm. } { rewrite !length_app, length_delete by eauto. rewrite (agree_length _ _ _ Al). lia. }
    unfold destroy_taskhead. rewrite E1, bind_ret_l. eexists. split; [done|].
    split; [|cbn; rewrite length_delete by eauto; lia]. split; cbn; [split; [|done|done]|..];
      (eapply agree_keeps; [by try apply agree_delete|done|done|]; intros y Hy; rewrite !elem_of_app; auto).
  - destruct (th !! i) as [t|] eqn:Ei; [|done]. cbn in Hr. injection Hr as <- <-.
    assert (Hi : (i < length hd)%nat) by (rewrite Eh; by eapply lookup_lt_Some).
    apply lookup_lt_is_Some_2 in Hi as [x Hx]. rewrite Hx. destruct (agree_lookup _ _ _ _ _ Sh Hx) as (Hx1 & t' & Et & Hx2).
    rewrite Ei in Et. injection Et as <-.
    destruct (AddTask_ok m l x t h (out ++ hd) tl) as (l' & h' & E & Hl & K); try done; [|lia|].
    { apply elem_of_app. right. by eapply list_elem_of_lookup_2. }
    rewrite E, bind_ret_l. eexists. split; [done|]. split; [by apply (simulates_list _ _ _ _ _ Hs)|]. cbn.
    unfold add_view. rewrite length_app. pose proof (length_drop_first (replaced t) tl). cbn [length]. lia.
  - injection Hr as <- <-. destruct (DelTask_ok l id h (out ++ hd) tl) as (l' & h' & E & Hl & K); [done|done|lia|].
    rewrite E, bind_ret_l. eexists. split; [done|]. split; [by apply (simulates_list _ _ _ _ _ Hs)|]. cbn.
    pose proof (length_drop_first (fun x => v_tid x = text_of id) tl). unfold del_view. lia.
  - injection Hr as <- <-. destruct (InvalidTask_ok l ty h (out ++ hd) tl Sl) as [E1 E2].
    destruct (InvalidTask l ty) as [k l']. cbn in E1, E2. subst k. eexists. split; [done|].
    split; [apply (simulates_list _ _ _ _ _ Hs); [done|apply keeps_refl]|]. cbn. rewrite length_fmap. lia.
  - injection Hr as <- <-. destruct (TaskClear_ok l h (out ++ hd) tl) as (l' & h' & E & Hl & K); [done|lia|].
    rewrite E, bind_ret_l. eexists. split; [done|]. split; [by apply (simulates_list _ _ _ _ _ Hs)|]. cbn. lia.
  - injection Hr as <- <-. destruct (Copy_ok m l out h hd tl to) as (l' & out' & h' & E & Hl & A & K); [done..|lia|].
    rewrite E, bind_ret_l. eexists. split; [done|]. split; [|cbn; lia]. split; cbn; [done..|].
    eapply agree_keeps; [done|done|apply (holds_counted _ _ _ _ Hl)|]. intros x Hx. rewrite !elem_of_app. auto.
  - injection Hr as <- <-. rewrite (FindTask_ok _ _ _ _ _ Sl Ho), bind_ret_l. eexists. split; [done|]. split; [done|cbn; lia].
  - injection Hr as <- <-. rewrite (FindFirst_ok _ _ _ _ _ Sl), bind_ret_l. eexists. split; [done|]. split; [done|cbn; lia].
Qed.

Lemma run_simulates os : forall n w s rs s', Forall op_ok os -> simulates w s -> small n s -> Z.of_nat (n + length os) < 2 ^ 28 ->
  spec_run os s = Some (rs, s') -> exists w', run os w = Ret (rs, w') /\ simulates w' s' /\ small (n + length os) s'.
Proof.
  induction os as [|o os IH]; intros n w s rs s' Ho Hs Hn Hb Hr; cbn [run spec_run length] in *.
  - injection Hr as <- <-. exists w. rewrite Nat.add_0_r. done.
  - apply Forall_cons in Ho as [Ho Hos]. destruct (spec_op o s) as [[a s1]|] eqn:E1; [|done]. cbn in Hr.
    destruct (op_simulates n o w s a s1) as (w1 & Ew & Hs1 & Hn1); try done; [lia|]. rewrite Ew, bind_ret_l.
    destruct (spec_run os s1) as [[l s2]|] eqn:E2; [|done]. cbn in Hr. injection Hr as <- <-.
    destruct (IH (S n) w1 s1 l s2) as (w2 & Ew2 & Hs2 & Hn2); try done; [lia|]. rewrite Ew2, bind_ret_l.
    exists w2. rewrite Nat.add_succ_r. done.
Qed.

Lemma start_simulates : simulates start no_tasks.
Proof.
  split; cbn; [split; cbn|..]; try apply agree_nil; [|done]. split; cbn; [intros l b Hl; by rewrite lookup_empty in Hl|done..].
Qed.

(** C23: through any history of calls the task list answers and holds what a plain list of tasks would: [AddTask] puts a
    task at the end in place of the first one that has its identifier or is disabled, [DelTask] removes the first task
    of an identifier and reports an empty list, [InvalidTask] disables and counts the tasks of a type, [Copy] gives an
    equal list, and the two searches find the first task of an identifier and the first enabled one of a type. *)
Theorem task_list_refinement (os : list op) rs s : Forall op_ok os -> Z.of_nat (length os) < 2 ^ 28 ->
  spec_run os no_tasks = Some (rs, s) ->
  exists w, run os start = Ret (rs, w) /\ agree (w_store w) (m_TaskList (w_list w)) (t_list s) /\
    agree (w_store w) (w_out w) (t_out s) /\ agree (w_store w) (w_heads w) (t_heads s) /\ m_bLock (w_list w) = false.
Proof.
  intros Ho Hn Hr.
  destruct (run_simulates os 0 start no_tasks rs s Ho start_simulates) as (w & E & Hs & _); [unfold small; cbn; lia|done|done|].
  exists w. split; [done|]. destruct Hs as [[Al _ Fl] So Sh]. done.
Qed.

(** C22: after any history of calls the reference count of every live block is the number of heads that share it, and
    destroying the remaining heads frees every counting block: no block is used after it was freed, and none stays.  The
    tasks are another matter: they are deleted through a [void *], which the standard leaves undefined and the compilers
    do without running a destructor, and every task that a live block held ends like this. *)
Theorem task_blocks_counted (os : list op) rs s : Forall op_ok os -> Z.of_nat (length os) < 2 ^ 28 ->
  spec_run os no_tasks = Some (rs, s) ->
  exists w, run os start = Ret (rs, w) /\ counted (w_store w) (heads_of w) /\
    exists h, destroy_all (heads_of w) (w_store w) = Ret h /\ live h = ∅ /\
      forall l b t, live (w_store w) !! l = Some b -> task b = Some t -> t ∈ undestroyed h.
Proof.
  intros Ho Hn Hr.
  destruct (run_simulates os 0 start no_tasks rs s Ho start_simulates) as (w & E & [[Al Hc Fl] So Sh] & Hsm);
    [unfold small; cbn; lia|done|done|].
  exists w. split; [done|]. split; [done|]. unfold small in Hsm. unfold heads_of.
  destruct (destroy_all_ok (heads_of w) (w_store w) []) as (h & Eh & Hh & K).
  { by rewrite app_nil_r. }
  { unfold heads_of. rewrite app_nil_r, !length_app, (agree_length _ _ _ Al), (agree_length _ _ _ So), (agree_length _ _ _ Sh). lia. }
  exists h. split; [done|]. assert (He : forall l, live h !! l = None).
  { intros l. destruct (live h !! l) as [b|] eqn:El; [|done].
    apply (counted_live _ _ Hh) in El as [_ Hp]. by apply Nat.lt_irrefl in Hp. }
  split; [by apply map_empty|]. intros l b t Hb Ht.
  destruct (keeps_freed _ _ K l b t Hb Ht) as [[b' Hb']|]; [|done]. by rewrite He in Hb'.
Qed.
End history.

(** ** A history *)

Definition memory0 : list Z * list Z := (replicate 32 170, replicate 24 85).
Definition insert0 (g : bool) : memory := {| grows := g; elem_memory := memory0; temp_memory := memory0 |}.
Definition id32 (s : string) : list Z := take 32 (codes s ++ replicate 32 0).

(** Two tasks are added, the first one again with another payload, the type of
    the other is disabled and it is replaced by a third one; then the list is
    searched, copied, and the third task deleted. *)
Definition demo : list (op (T:=nat)) :=
  [NewTask memory0 (id32 "aaaaaaaaaa01") 1 0 7%nat; CallAddTask (insert0 true) 0;
   NewTask memory0 (id32 "aaaaaaaaaa02") 1 2 8%nat; CallAddTask (insert0 true) 0;
   NewTask memory0 (id32 "aaaaaaaaaa01") 1 0 9%nat; CallAddTask (insert0 false) 0;
   CallInvalidTask 2;
   NewTask memory0 (id32 "aaaaaaaaaa03") 1 4 10%nat; CallAddTask (insert0 false) 0; DropTask 0;
   CallFindTask (id32 "aaaaaaaaaa03"); CallFindTask (id32 "aaaaaaaaaa02"); CallFindFirst 0;
   CallCopy (fun _ => insert0 true); CallDelTask (id32 "aaaaaaaaaa03")].

Definition demo_answers : list answer :=
  replicate 6 (Code 0) ++ [Code 1; Code 0; Code 0; Code 0; Entry (Some 1%nat); Entry None; Entry (Some 0%nat); Code 0; Code 0].

Definition demo_tasks : tasks (T:=nat) := default no_tasks (snd <$> spec_run demo no_tasks).

Lemma demo_ok : Forall op_ok demo.
Proof.
  repeat (apply Forall_cons; split); try apply Forall_nil; try done; cbn [op_ok];
    try split; done || (apply (bool_decide_unpack _); by vm_compute) || idtac.
Qed.

Lemma task_list_refinement_witness : spec_run demo no_tasks = Some (demo_answers, demo_tasks) /\
  v_task <$> t_list demo_tasks = [Some 9%nat] /\ v_task <$> t_out demo_tasks = [Some 9%nat; Some 10%nat] /\
  exists w, run demo start = Ret (demo_answers, w) /\ agree (w_store w) (m_TaskList (w_list w)) (t_list demo_tasks) /\
    agree (w_store w) (w_out w) (t_out demo_tasks) /\ agree (w_store w) (w_heads w) (t_heads demo_tasks) /\
    m_bLock (w_list w) = false.
Proof.
  split; [by vm_compute|]. split; [by vm_compute|]. split; [by vm_compute|].
  apply (task_list_refinement demo demo_answers demo_tasks); [apply demo_ok|done|by vm_compute].
Defined.

Lemma task_blocks_counted_witness :
  exists w, run demo start = Ret (demo_answers, w) /\ counted (w_store w) (heads_of w) /\
    exists h, destroy_all (heads_of w) (w_store w) = Ret h /\ live h = ∅ /\
      forall l b t, live (w_store w) !! l = Some b -> task b = Some t -> t ∈ undestroyed h.
Proof. apply (task_blocks_counted demo demo_answers demo_tasks); [apply demo_ok|done|by vm_compute]. Defined.
