(* ===== verification/TaskExam.v ===== *)
(** * Health check tasks (src/public/astTask/astTask.cpp)

    [CTaskExam] keeps the items of a health check.  [FinishInit] turns their
    scores into percentages: each item gets its share of 100, at least one
    point, and what is missing or left over is spread over the items of the
    highest scores.  [CTaskCmd::GetType] names the kinds of commands. *)
From stdpp Require Import sorting.
From Stdlib Require Import SpecFloat.
From S2P Require Import Prelude Words Buffers CString Decimal Double DoubleArith.

(** ** CTaskCmd::GetType; PORT_CONTROL is not defined *)

Definition TYPE_CMD_LOG : Z := 0.
Definition TYPE_CMD_VIRUS : Z := 1.
Definition TYPE_CMD_AV : Z := 2.
Definition TYPE_CMD_SCRIPT : Z := 3.

Definition GetType (strjson : list Z) : Z :=
  if bool_decide (strjson = codes "extractLog") then TYPE_CMD_LOG
  else if bool_decide (strjson = codes "virusSamples") then TYPE_CMD_VIRUS
  else if bool_decide (strjson = codes "virusDatabase") then TYPE_CMD_AV
  else if bool_decide (strjson = codes "executionScript") then TYPE_CMD_SCRIPT
  else TYPE_CMD_LOG.

(** ** CTaskExam *)

Record TASK_EXAM_DATA := {
  name : list Z;
  path : list Z;
  desc : list Z;
  score : Z;
  method : list Z;
  percent : Z;
  type : Z;
  methodValue : list Z
}.

Definition set_percent (p : Z) (x : TASK_EXAM_DATA) : TASK_EXAM_DATA :=
  {| name := name x; path := path x; desc := desc x; score := score x; method := method x; percent := p;
     type := type x; methodValue := methodValue x |}.

(** The cursor is an offset, or [None] when it may not be used. *)
Record CTaskExam := { m_CheckItemList : list TASK_EXAM_DATA; m_iCurrent : option nat }.

Definition new_CTaskExam : CTaskExam := {| m_CheckItemList := []; m_iCurrent := None |}.

(** Inserting at the end invalidates the past-the-end iterator, and all of them
    when the vector [grow]s. *)
Definition InsertItem (grow : bool) (e : CTaskExam) (item : TASK_EXAM_DATA) : Z * CTaskExam :=
  (0, {| m_CheckItemList := m_CheckItemList e ++ [item];
         m_iCurrent := match m_iCurrent e with
                       | Some i => if grow || Nat.eqb i (length (m_CheckItemList e)) then None else Some i
                       | None => None
                       end |}).

(** The other [InsertItem]: [type] is not set, so that it is what the memory
    of [item] held, [junk]. *)
Definition InsertItem_fields (junk : Z) (grow : bool) (e : CTaskExam) (name path method : list Z) (score : Z) (desc : list Z)
    : Z * CTaskExam :=
  InsertItem grow e {| name := name; path := path; desc := desc; score := score; method := method; percent := 0;
                       type := junk; methodValue := [] |}.

Definition Begin (e : CTaskExam) : Z * CTaskExam :=
  (if bool_decide (m_CheckItemList e = []) then 1 else 0,
   {| m_CheckItemList := m_CheckItemList e; m_iCurrent := Some 0%nat |}).

Definition Next (e : CTaskExam) : cpp (Z * CTaskExam) :=
  match m_iCurrent e with
  | None => Undef
  | Some i =>
      let n := length (m_CheckItemList e) in
      let i := if Nat.eqb i n then i else S i in
      Ret (if Nat.eqb i n then 1 else 0, {| m_CheckItemList := m_CheckItemList e; m_iCurrent := Some i |})
  end.

Definition GetCurrent (e : CTaskExam) : option nat := m_iCurrent e.

(** ** FinishInit *)

Implicit Types (items : list TASK_EXAM_DATA) (x : TASK_EXAM_DATA).

Fixpoint total_score items (nTotal : Z) : cpp Z :=
  match items with [] => Ret nTotal | x :: r => n ← int_checked (nTotal + score x); total_score r n end.

(** [dP = (double)score*100/(double)nTotal; percent = (int)dP]. *)
Definition share_of (nTotal : Z) x : cpp Z :=
  let dP := SFdiv 53 1024 (SFmul 53 1024 (dbl_of_Z (score x)) (dbl_of_Z 100)) (dbl_of_Z nTotal) in
  p ← dbl_trunc dP; p ← int_checked p;
  if p =? 0 then int_checked (p + 1) else Ret p.

Fixpoint set_shares (nTotal : Z) items (nC : Z) : cpp (list TASK_EXAM_DATA * Z) :=
  match items with
  | [] => Ret ([], nC)
  | x :: r =>
      p ← share_of nTotal x;
      nC ← int_checked (nC + p);
      '(r, nC) ← set_shares nTotal r nC;
      Ret (set_percent p x :: r, nC)
  end.

Definition score_at items (i : nat) : cpp Z := match items !! i with Some x => Ret (score x) | None => Undef end.

(** The offset goes before the first one of a smaller score. *)
Fixpoint insert_off items (off : nat) (vmax : list nat) : cpp (list nat) :=
  match vmax with
  | [] => Ret [off]
  | n :: r =>
      a ← score_at items off; b ← score_at items n;
      if b <? a then Ret (off :: n :: r) else v ← insert_off items off r; Ret (n :: v)
  end.

Fixpoint sort_off items (offs : list nat) (vmax : list nat) : cpp (list nat) :=
  match offs with
  | [] => Ret vmax
  | off :: r => v ← insert_off items off vmax; sort_off items r v
  end.

Fixpoint pad_items (vmax : list nat) (nLoop nPad : Z) items : cpp (list TASK_EXAM_DATA) :=
  match vmax with
  | [] => Ret items
  | off :: r =>
      if 0 <? nLoop then
        match items !! off with
        | Some x =>
            p ← int_checked (if nPad <? 0 then percent x - 1 else percent x + 1);
            pad_items r (nLoop - 1) nPad (<[off := set_percent p x]> items)
        | None => Undef
        end
      else Ret items
  end.

Definition FinishInit (e : CTaskExam) : cpp CTaskExam :=
  nTotal ← total_score (m_CheckItemList e) 0;
  '(items, nC) ← set_shares nTotal (m_CheckItemList e) 0;
  items ← (if negb (nC =? 100) then
             nPad ← int_checked (100 - nC);
             nLoop ← (if nPad <? 0 then int_checked (0 - nPad) else Ret nPad);
             vmax ← sort_off items (seq 0 (length items)) [];
             pad_items vmax nLoop nPad items
           else Ret items);
  Ret {| m_CheckItemList := items; m_iCurrent := Some 0%nat |}.

(** ** What the percentages are *)

Definition total items : Z := foldr (fun x n => score x + n) 0 items.
Definition points items : Z := foldr (fun x n => percent x + n) 0 items.

(** The share of an item before the rest is spread. *)
Definition share (t : Z) x : Z := Z.max 1 (score x * 100 / t).

Definition with_shares (t : Z) items : list TASK_EXAM_DATA := (fun x => set_percent (share t x) x) <$> items.

(** Everything but the percentage. *)
Definition unscored x : TASK_EXAM_DATA := set_percent 0 x.

Definition score_ok x : Prop := 0 <= score x < 2 ^ 31.

Lemma total_cons x r : total (x :: r) = score x + total r.
Proof. done. Qed.

Lemma total_nonneg items : Forall score_ok items -> 0 <= total items.
Proof. induction 1 as [|x r Hx Hr IH]; [done|]. unfold score_ok in Hx. rewrite total_cons. lia. Qed.

Lemma total_score_ok items : forall n, Forall score_ok items -> 0 <= n -> n + total items < 2 ^ 31 ->
  total_score items n = Ret (n + total items).
Proof.
  induction items as [|x r IH]; intros n Ho Hn Ht; cbn [total_score]; [by rewrite Z.add_0_r|]. rewrite total_cons in *.
  apply Forall_cons in Ho as [Hx Hr]. pose proof (total_nonneg r Hr). unfold score_ok in Hx.
  rewrite int_checked_id, bind_ret_l by (unfold is_int; lia). rewrite IH by (done || lia). f_equal. lia.
Qed.

Lemma share_of_ok t x : score_ok x -> 0 < t < 2 ^ 31 -> score x <= t -> share_of t x = Ret (share t x) /\ 1 <= share t x <= 100.
Proof.
  intros Hx Ht Hle. unfold score_ok in Hx. unfold share_of, share. rewrite dbl_muldiv, bind_ret_l by lia.
  assert (0 <= score x * 100 / t) by (apply Z.div_pos; lia).
  assert (score x * 100 / t <= 100) by (apply Z.div_le_upper_bound; lia).
  rewrite int_checked_id, bind_ret_l by (unfold is_int; lia). split; [|lia].
  destruct (Z.eqb_spec (score x * 100 / t) 0) as [E|E]; [rewrite E, int_checked_id by (unfold is_int; lia); done|].
  f_equal. lia.
Qed.

Lemma points_cons x r : points (x :: r) = percent x + points r.
Proof. done. Qed.

Lemma shares_bounds t items : Forall (fun x => 1 <= share t x <= 100) items ->
  0 <= points (with_shares t items) <= 100 * Z.of_nat (length items).
Proof.
  induction 1 as [|x r Hx Hr IH]; cbn [with_shares fmap list_fmap length]; [cbn; lia|]. rewrite points_cons. cbn [percent set_percent].
  unfold with_shares in IH. lia.
Qed.

Lemma set_shares_ok t items : forall n, Forall (fun x => score_ok x /\ score x <= t) items -> 0 < t < 2 ^ 31 -> 0 <= n ->
  n + 100 * Z.of_nat (length items) < 2 ^ 31 ->
  set_shares t items n = Ret (with_shares t items, n + points (with_shares t items)).
Proof.
  induction items as [|x r IH]; intros n Ho Ht Hn Hb; cbn [set_shares length] in *; [cbn; by rewrite Z.add_0_r|].
  apply Forall_cons in Ho as [[Hx Hle] Hr]. destruct (share_of_ok t x Hx Ht Hle) as [E Hs]. rewrite E, bind_ret_l.
  rewrite int_checked_id, bind_ret_l by (unfold is_int; lia). rewrite IH by (done || lia). rewrite bind_ret_l.
  cbn [with_shares fmap list_fmap]. rewrite points_cons. cbn [percent set_percent]. f_equal. f_equal. unfold with_shares. lia.
Qed.

(** The shares miss 100 by no more than the number of items. *)
Lemma shares_near t items : 0 < t -> Forall score_ok items ->
  100 * total items - Z.of_nat (length items) * (t - 1) <= t * points (with_shares t items) <=
  100 * total items + t * Z.of_nat (length items).
Proof.
  intros Ht. induction 1 as [|x r Hx Hr IH]; [cbn; lia|]. cbn [length with_shares fmap list_fmap].
  rewrite total_cons. fold (with_shares t r). rewrite points_cons. cbn [percent set_percent]. rewrite Nat2Z.inj_succ.
  pose proof (Z_div_mod_eq_full (score x * 100) t). pose proof (Z.mod_pos_bound (score x * 100) t Ht).
  unfold score_ok in Hx. assert (0 <= score x * 100 / t) by (apply Z.div_pos; lia). unfold share. nia.
Qed.

Lemma shares_pad t items : 0 < t -> Forall score_ok items -> total items = t ->
  - Z.of_nat (length items) <= 100 - points (with_shares t items) <= Z.of_nat (length items).
Proof. intros Ht Ho <-. pose proof (shares_near _ _ Ht Ho). nia. Qed.

(** ** The order of the offsets *)

Definition score_of items (i : nat) : Z := match items !! i with Some x => score x | None => 0 end.

Definition higher items (i j : nat) : Prop := score_of items j <= score_of items i.

Lemma score_at_ok items i : (i < length items)%nat -> score_at items i = Ret (score_of items i).
Proof. intros Hi. apply lookup_lt_is_Some_2 in Hi as [x Hx]. unfold score_at, score_of. by rewrite Hx. Qed.

Lemma insert_off_ok items off v : (off < length items)%nat -> Forall (fun i => i < length items)%nat v ->
  StronglySorted (higher items) v ->
  exists v', insert_off items off v = Ret v' /\ v' ≡ₚ off :: v /\ StronglySorted (higher items) v'.
Proof.
  intros Ho Hv Hs. induction v as [|n r IH]; cbn [insert_off].
  - exists [off]. split; [done|]. split; [done|]. repeat constructor.
  - apply Forall_cons in Hv as [Hn Hr]. apply StronglySorted_inv in Hs as [Hs Hall].
    rewrite !score_at_ok, !bind_ret_l by done. destruct (Z.ltb_spec (score_of items n) (score_of items off)) as [Hl|Hl].
    + exists (off :: n :: r). split; [done|]. split; [done|]. constructor; [by constructor|]. constructor; [unfold higher; lia|].
      eapply Forall_impl; [exact Hall|]. unfold higher. intros i Hi. cbn in *. lia.
    + destruct (IH Hr Hs) as (v' & E & Hp & Hs'). rewrite E, bind_ret_l. exists (n :: v'). split; [done|].
      split; [rewrite Hp; apply Permutation_swap|]. constructor; [done|]. rewrite Hp. by constructor.
Qed.

Lemma sort_off_ok items offs : forall v, Forall (fun i => i < length items)%nat offs -> Forall (fun i => i < length items)%nat v ->
  StronglySorted (higher items) v ->
  exists v', sort_off items offs v = Ret v' /\ v' ≡ₚ offs ++ v /\ StronglySorted (higher items) v'.
Proof.
  induction offs as [|o r IH]; intros v Ho Hv Hs; cbn [sort_off]; [by exists v|].
  apply Forall_cons in Ho as [Ho Hr]. destruct (insert_off_ok items o v Ho Hv Hs) as (v1 & E1 & Hp1 & Hs1).
  rewrite E1, bind_ret_l. destruct (IH v1 Hr) as (v2 & E2 & Hp2 & Hs2); [rewrite Hp1; by constructor|done|].
  exists v2. split; [done|]. split; [|done]. rewrite Hp2, Hp1. symmetry. apply Permutation_middle.
Qed.

(** ** Spreading the rest *)

Definition step_of (nPad : Z) : Z := if nPad <? 0 then -1 else 1.

Definition add_percent (d : Z) x : TASK_EXAM_DATA := set_percent (percent x + d) x.

(** [d] is added to the percentages of the items at the offsets [v]. *)
Definition bumped (v : list nat) (d : Z) items : list TASK_EXAM_DATA :=
  imap (fun i x => if bool_decide (i ∈ v) then add_percent d x else x) items.

Lemma bumped_nil d items : bumped [] d items = items.
Proof.
  unfold bumped. apply list_eq. intros i. rewrite list_lookup_imap. destruct (items !! i); [|done]. cbn.
  by rewrite bool_decide_eq_false_2 by apply not_elem_of_nil.
Qed.

Lemma bumped_cons o v d items x : o ∉ v -> items !! o = Some x ->
  bumped v d (<[o := add_percent d x]> items) = bumped (o :: v) d items.
Proof.
  intros Hn Hx. unfold bumped. apply list_eq. intros i. rewrite !list_lookup_imap.
  destruct (decide (i = o)) as [->|Hi].
  - rewrite list_lookup_insert_eq by by eapply lookup_lt_Some. rewrite Hx. cbn.
    rewrite bool_decide_eq_false_2, bool_decide_eq_true_2 by (done || by left). done.
  - rewrite list_lookup_insert_ne by done. destruct (items !! i); [|done]. cbn. f_equal.
    assert (E : i ∈ v <-> i ∈ o :: v) by (split; [by right|by intros [?|?]%elem_of_cons]). by rewrite (bool_decide_ext _ _ E).
Qed.

Lemma points_insert items o x d : items !! o = Some x -> points (<[o := add_percent d x]> items) = points items + d.
Proof.
  revert o. induction items as [|y r IH]; intros [|o] Hx; try done.
  - injection Hx as ->. change (percent x + d + points r = percent x + points r + d). lia.
  - change (percent y + points (<[o := add_percent d x]> r) = percent y + points r + d). rewrite (IH o Hx). lia.
Qed.

Definition small_percent items (i : nat) : Prop := exists x, items !! i = Some x /\ 0 <= percent x <= 100.

Lemma pad_items_ok v nPad : forall items k, NoDup v -> Forall (small_percent items) v -> (k <= length v)%nat ->
  pad_items v (Z.of_nat k) nPad items = Ret (bumped (take k v) (step_of nPad) items) /\
  points (bumped (take k v) (step_of nPad) items) = points items + step_of nPad * Z.of_nat k.
Proof.
  induction v as [|o v IH]; intros items k Hnd Hv Hk; cbn [pad_items length] in *.
  - rewrite take_nil, bumped_nil. destruct k; [|lia]. rewrite Z.mul_0_r, Z.add_0_r. done.
  - destruct k as [|k]; [change (take 0 (o :: v)) with (@nil nat); rewrite bumped_nil, Z.mul_0_r, Z.add_0_r; done|].
    cbn [take]. apply NoDup_cons in Hnd as [Hn Hnd]. apply Forall_cons in Hv as [(x & Hx & Hp) Hv].
    replace (0 <? Z.of_nat (S k)) with true by (symmetry; apply Z.ltb_lt; lia). rewrite Hx.
    replace (if nPad <? 0 then percent x - 1 else percent x + 1) with (percent x + step_of nPad)
      by (unfold step_of; destruct (nPad <? 0); lia).
    rewrite int_checked_id, bind_ret_l by (unfold is_int, step_of; destruct (nPad <? 0); lia).
    replace (Z.of_nat (S k) - 1) with (Z.of_nat k) by lia. fold (add_percent (step_of nPad) x).
    assert (Ht : o ∉ take k v) by (intros Hin; apply Hn; by eapply subseteq_take, Hin).
    destruct (IH (<[o := add_percent (step_of nPad) x]> items) k Hnd) as [E1 E2]; [|lia|].
    + rewrite Forall_forall in Hv |- *. intros i Hi. destruct (Hv i Hi) as (y & Hy & Hb). exists y. rewrite list_lookup_insert_ne; [done|congruence].
    + rewrite (bumped_cons _ _ _ _ _ Ht Hx) in *. split; [done|]. rewrite E2, (points_insert _ _ _ _ Hx). lia.
Qed.

(** ** FinishInit *)

Lemma lookup_with_shares t items i : with_shares t items !! i = (fun x => set_percent (share t x) x) <$> items !! i.
Proof. apply list_lookup_fmap. Qed.

Lemma lookup_bumped v d items i : bumped v d items !! i = (fun x => if bool_decide (i ∈ v) then add_percent d x else x) <$> items !! i.
Proof. unfold bumped. by rewrite list_lookup_imap. Qed.

Lemma higher_top items v k i j : StronglySorted (higher items) v -> i ∈ take k v -> j ∈ v -> j ∉ take k v -> higher items i j.
Proof.
  intros Hs Hi Hj Hn. rewrite <- (take_drop k v) in Hs, Hj. apply elem_of_app in Hj as [Hj|Hj]; [done|].
  revert Hs Hi Hj. generalize (take k v) (drop k v). intros a b Hs Hi Hj. clear Hn v k.
  induction a as [|c a IH]; [by apply not_elem_of_nil in Hi|]. cbn in Hs. apply StronglySorted_inv in Hs as [Hs Hall].
  apply elem_of_cons in Hi as [->|Hi]; [|by apply IH]. rewrite Forall_forall in Hall. apply Hall. apply elem_of_app. by right.
Qed.

(** What [FinishInit] makes of the items: the shares, with a point more or less
    for those at the offsets [top]. *)
Record finished items items' : Prop := {
  fin_fields : unscored <$> items' = unscored <$> items;
  fin_points : points items' = 100;
  fin_each i x : items' !! i = Some x -> 0 <= percent x <= 100 /\ share (total items) x - 1 <= percent x <= share (total items) x + 1;
  fin_top i j x y : items' !! i = Some x -> items' !! j = Some y -> percent x <> share (total items) x ->
    percent y = share (total items) y -> score y <= score x
}.

Lemma percent_bound items : Forall (fun x => 0 <= percent x) items -> forall i x, items !! i = Some x -> percent x <= points items.
Proof.
  induction 1 as [|y r Hy Hr IH]; intros i x Hx; [done|]. rewrite points_cons.
  assert (0 <= points r) by (clear -Hr; induction Hr; [done|rewrite points_cons; lia]).
  destruct i as [|i]; [injection Hx as ->; lia|]. specialize (IH i x Hx). lia.
Qed.

Lemma score_le_total items i x : Forall score_ok items -> items !! i = Some x -> score x <= total items.
Proof.
  intros Ho. revert i. induction Ho as [|y r Hy Hr IH]; intros i Hx; [done|]. rewrite total_cons. pose proof (total_nonneg r Hr).
  unfold score_ok in Hy. destruct i as [|i]; [injection Hx as ->; lia|]. specialize (IH i Hx). lia.
Qed.

Lemma bumped_finished items v d : let t := total items in
  Forall score_ok items -> 0 < t < 2 ^ 31 -> d = 1 \/ d = -1 -> points (bumped v d (with_shares t items)) = 100 ->
  (forall i j, i ∈ v -> j ∉ v -> (j < length items)%nat -> higher items i j) ->
  finished items (bumped v d (with_shares t items)).
Proof.
  intros t Ho Ht Hd Hp Hv.
  assert (Hl : forall i y, bumped v d (with_shares t items) !! i = Some y -> exists x, items !! i = Some x /\
    y = set_percent (share t x + if bool_decide (i ∈ v) then d else 0) x /\ 1 <= share t x <= 100).
  { intros i y Hy. rewrite lookup_bumped, lookup_with_shares in Hy. destruct (items !! i) as [x|] eqn:Ex; [|done].
    exists x. split; [done|]. pose proof (score_le_total _ _ _ Ho Ex). assert (Hx : score_ok x) by by eapply Forall_lookup_1.
    split; [|by apply (share_of_ok t x)]. cbn in Hy. injection Hy as <-. case_bool_decide; [done|]. by rewrite Z.add_0_r. }
  assert (Hs : forall p x, share t (set_percent p x) = share t x) by done.
  split; [|done|..].
  - apply list_eq. intros i. rewrite !list_lookup_fmap, lookup_bumped, lookup_with_shares.
    destruct (items !! i); [|done]. cbn. by case_bool_decide.
  - fold t. assert (Hnn : Forall (fun x => 0 <= percent x) (bumped v d (with_shares t items))).
    { apply Forall_lookup_2. intros i y Hy. destruct (Hl i y Hy) as (x & _ & -> & Hb). cbn. case_bool_decide; lia. }
    intros i y Hy. pose proof (percent_bound _ Hnn i y Hy) as Hle. rewrite Hp in Hle.
    destruct (Hl i y Hy) as (x & _ & -> & Hb). rewrite Hs. cbn in *. case_bool_decide; lia.
  - fold t. intros i j y z Hy Hz. destruct (Hl i y Hy) as (x & Ex & -> & _). destruct (Hl j z Hz) as (w & Ew & -> & _).
    rewrite !Hs. cbn. intros H1 H2. assert (Hij : higher items i j).
    { apply Hv; [..|by eapply lookup_lt_Some].
      - destruct (decide (i ∈ v)); [done|]. rewrite bool_decide_eq_false_2 in H1 by done. lia.
      - intros Hj. rewrite bool_decide_eq_true_2 in H2 by done. lia. }
    unfold higher, score_of in Hij. by rewrite Ex, Ew in Hij.
Qed.

(** C24: [FinishInit] of items with scores that are not negative and not all zero ends: the percentages add up to exactly
    100, each lies between 0 and 100 and within a point of the item's share, which is the whole number of hundredths of
    the total but at least one; only items of the highest scores deviate from their share; the other fields, and the
    order of the items, are unchanged and the cursor is at the first item. *)
Theorem finish_percentages (e : CTaskExam) :
  let items := m_CheckItemList e in
  Forall score_ok items -> 0 < total items < 2 ^ 31 -> Z.of_nat (length items) < 2 ^ 24 ->
  exists items', FinishInit e = Ret {| m_CheckItemList := items'; m_iCurrent := Some 0%nat |} /\ finished items items'.
Proof.
  intros items Ho Ht Hn. set (t := total items) in *.
  assert (Hc : Forall (fun x => score_ok x /\ score x <= t) items).
  { apply Forall_lookup_2. intros i x Hx. split; [by eapply Forall_lookup_1|by eapply score_le_total]. }
  unfold FinishInit. fold items. rewrite total_score_ok, Z.add_0_l, bind_ret_l by (done || lia).
  fold t. rewrite set_shares_ok, Z.add_0_l, bind_ret_l by (done || lia).
  destruct (shares_pad t items) as [P1 P2]; [lia|done|done|]. set (N := points (with_shares t items)) in *.
  destruct (Z.eqb_spec N 100) as [E|E]; cbn [negb].
  - rewrite bind_ret_l. eexists. split; [done|]. rewrite <- (bumped_nil 1 (with_shares t items)).
    apply bumped_finished; [done|done|by left|by rewrite bumped_nil|]. intros i j Hi. by apply not_elem_of_nil in Hi.
  - rewrite int_checked_id, bind_ret_l by (unfold is_int; lia).
    replace (if 100 - N <? 0 then int_checked (0 - (100 - N)) else Ret (100 - N)) with (Ret (Z.of_nat (Z.to_nat (Z.abs (100 - N)))) : cpp Z).
    2: { destruct (Z.ltb_spec (100 - N) 0); [rewrite int_checked_id by (unfold is_int; lia)|]; f_equal; lia. }
    rewrite bind_ret_l. set (k := Z.to_nat (Z.abs (100 - N))).
    assert (El : length (with_shares t items) = length items) by apply length_fmap.
    destruct (sort_off_ok (with_shares t items) (seq 0 (length (with_shares t items))) []) as (v & Ev & Hp & Hs);
      [apply Forall_forall; intros i Hi; apply elem_of_seq in Hi; lia|constructor|constructor|].
    rewrite Ev, bind_ret_l. rewrite app_nil_r in Hp.
    destruct (pad_items_ok v (100 - N) (with_shares t items) k) as [E1 E2].
    { rewrite Hp. apply NoDup_seq. }
    { rewrite Hp. apply Forall_forall. intros i Hi. apply elem_of_seq in Hi. rewrite El in Hi.
      destruct (lookup_lt_is_Some_2 items i) as [x Hx]; [lia|]. exists (set_percent (share t x) x).
      rewrite lookup_with_shares, Hx. split; [done|]. rewrite Forall_forall in Hc.
      destruct (Hc x) as [Hx1 Hx2]; [by eapply list_elem_of_lookup_2|]. destruct (share_of_ok t x Hx1 Ht Hx2). cbn. lia. }
    { rewrite Hp, length_seq, El. lia. }
    rewrite E1, bind_ret_l. eexists. split; [done|]. apply bumped_finished; [done|done| | |].
    + unfold step_of. destruct (100 - N <? 0); auto.
    + fold t. rewrite E2. fold N. unfold step_of, k. destruct (Z.ltb_spec (100 - N) 0); lia.
    + intros i j Hi Hj Hlt. assert (Hjv : j ∈ v) by (rewrite Hp; apply elem_of_seq; lia).
      pose proof (higher_top _ _ _ _ _ Hs Hi Hjv Hj) as Hh. unfold higher, score_of in *.
      rewrite !lookup_with_shares in Hh. by destruct (items !! i), (items !! j).
Qed.

Definition exam_demo : CTaskExam :=
  {| m_CheckItemList := (fun s => {| name := codes "n"; path := []; desc := []; score := s; method := []; percent := 0;
                                     type := 1; methodValue := [] |}) <$> [1; 1; 0; 1; 200];
     m_iCurrent := None |}.

Lemma finish_percentages_witness : exists items',
  FinishInit exam_demo = Ret {| m_CheckItemList := items'; m_iCurrent := Some 0%nat |} /\
  percent <$> items' = [0; 1; 1; 1; 97] /\ finished (m_CheckItemList exam_demo) items'.
Proof.
  destruct (finish_percentages exam_demo) as (items' & E & F).
  - apply (bool_decide_unpack (Forall (fun x => 0 <= score x < 2 ^ 31) _)). by vm_compute.
  - done.
  - done.
  - exists items'. split; [exact E|]. split; [|exact F]. vm_compute in E. by injection E as <-.
Defined.

(** Scores that are all zero divide zero by zero. *)
Lemma zero_total_undefined x r grow : score x = 0 -> Forall (fun y => score y = 0) r ->
  FinishInit {| m_CheckItemList := x :: r; m_iCurrent := grow |} = Undef.
Proof.
  intros Hx Hr. unfold FinishInit. cbn [m_CheckItemList].
  assert (E : total_score (x :: r) 0 = Ret 0).
  { cbn [total_score]. rewrite Hx. cbn. clear -Hr. induction Hr as [|y r Hy Hr IH]; [done|]. cbn [total_score]. by rewrite Hy. }
  rewrite E, bind_ret_l. cbn [set_shares]. unfold share_of. by rewrite Hx.
Qed.
