(* ===== verification/TaskFile.v ===== *)
(** * Saving and loading the task list (src/public/astTask/astTask.cpp)

    [Save] prints the enabled health checks of a task list as lines of text,
    [Load] reads them with [fscanf] and [fgets].  A stream that is read is the
    bytes that are left; a file that is written is the text put together. *)
From stdpp Require Import gmap sorting.
From S2P Require Import Prelude Words Buffers CString Decimal Double Ini TaskHead TaskList TaskExam Version.

(** ** <stdio.h> *)

(** [fscanf(fp, "%d\n", &n)]: result, [n] and what is left to read. *)
Definition fscanf_d (s : list Z) (n : Z) : cpp (Z * Z * list Z) :=
  match skip_spaces s with
  | [] => Ret (-1, n, [])
  | s =>
      let '(neg, s) := scan_sign s in
      let '(ds, r) := span isdigit s in
      if bool_decide (ds = []) then Ret (0, n, s)
      else n ← int_checked (if neg : bool then - dec_value ds else dec_value ds); Ret (1, n, skip_spaces r)
  end.

(** [fscanf(fp, "%s\n", b)]: nothing bounds what is written to [b]. *)
Definition fscanf_s (s b : list Z) : cpp (Z * list Z * list Z) :=
  match skip_spaces s with
  | [] => Ret (-1, b, [])
  | s =>
      let '(w, r) := span (fun c => negb (isspace c)) s in
      b ← sprintf_text b 0 w; Ret (1, b, skip_spaces r)
  end.

(** The next line with its end, but no more than [n] characters. *)
Fixpoint line_of (n : nat) (s : list Z) : list Z * list Z :=
  match n, s with
  | S n, c :: s => if c =? 10 then ([c], s) else let '(l, r) := line_of n s in (c :: l, r)
  | _, _ => ([], s)
  end.

(** [fgets(b, 1024, fp)]. *)
Definition fgets (s b : list Z) : cpp (list Z * list Z) :=
  match s with
  | [] => Ret (b, [])
  | s => let '(l, r) := line_of 1023 s in b ← sprintf_text b 0 l; Ret (b, r)
  end.

(** [fprintf(fp, "%d\n", n)] and [fprintf(fp, "%s\n", s)]. *)
Definition line_d (n : Z) : list Z := print_int n ++ [10].
Definition line_s (s : list Z) : list Z := s ++ [10].

Section file.
(** The objects of tasks that are not health checks. *)
Context {other : Type}.
#[local] Abbreviation T := (CTaskExam + other)%type.
Implicit Types (h : store T) (s : list Z).

(** ** Save *)

(** [c_str()] of a string ends at its first zero. *)
Definition print_item (x : TASK_EXAM_DATA) : list Z :=
  line_s (text_of (name x)) ++ line_s (text_of (path x)) ++ line_s (text_of (desc x)) ++ line_d (score x) ++
  line_s (text_of (method x)) ++ line_d (percent x) ++ line_d (TaskExam.type x) ++ line_s (text_of (methodValue x)).

(** [size()] printed as an [int]. *)
Definition print_size (n : nat) : list Z := line_d (s32 (Z.of_nat n)).

(** A task that is not a [CTaskExam] may not be used as one. *)
Definition SaveExamTask (node : TASKHEAD) h : cpp (Z * list Z) :=
  if invalid node =? 0 then
    id ← tmp_string (tid node);
    t ← tmp_string (lasttime node);
    b ← load h (atpr node);
    match task b with
    | Some (inl pitem) =>
        Ret (0, line_s id ++ line_d (cycle node) ++ line_d (TaskHead.type node) ++ line_s t ++ line_d (invalid node) ++
                line_d (ftime node) ++ print_size (length (m_CheckItemList pitem)) ++
                concat (print_item <$> m_CheckItemList pitem))
    | _ => Undef
    end
  else Ret (0, []).

Definition TYPE_EXAM_HEALTH : Z := 0.

Definition SaveTask (node : TASKHEAD) h : cpp (Z * list Z) :=
  if TaskHead.type node =? TYPE_EXAM_HEALTH then '(_, t) ← SaveExamTask node h; Ret (0, t) else Ret (0, []).

Definition saved (x : TASKHEAD) : bool := (invalid x =? 0) && (TaskHead.type x =? TYPE_EXAM_HEALTH).

Fixpoint save_tasks (v : list TASKHEAD) h : cpp (list Z) :=
  match v with
  | [] => Ret []
  | x :: r => t ← (if saved x then '(_, t) ← SaveTask x h; Ret t else Ret []); u ← save_tasks r h; Ret (t ++ u)
  end.

(** The results of writing are ignored. *)
Definition Save (d : disk) (fs : files) (l : CTaskList) (filename : list Z) h : cpp (Z * CTaskList * files) :=
  '(nLock, l) ← Lock 60 l;
  if negb (nLock =? 0) then Ret (3, l, fs)
  else
    match d with
    | OpenFails => Ret (2, UnLock l, fs)
    | _ =>
        let nTaskCount := Z.of_nat (length (List.filter saved (m_TaskList l))) in
        t ← save_tasks (m_TaskList l) h;
        let text := line_d nTaskCount ++ t in
        Ret (0, UnLock l, <[filename := match d with PutsFails kept => take kept text | _ => text end]> fs)
    end.

(** ** Load *)

(** [fgets(cTmp, 1024, fp); cTmp[strlen(cTmp)-1] = '\0';] and the string then
    taken from [cTmp]: string, buffer and what is left. *)
Definition read_field s (cTmp : list Z) : cpp (list Z * list Z * list Z) :=
  '(cTmp, s) ← fgets s cTmp;
  n ← strlen cTmp;
  cTmp ← buf_write cTmp (n - 1) [0];
  f ← tmp_string cTmp;
  Ret (f, cTmp, s).

Definition read_number s (cTmp : list Z) : cpp (Z * list Z * list Z) :=
  '(f, cTmp, s) ← read_field s cTmp; n ← atoi f; Ret (n, cTmp, s).

Definition read_item s (cTmp : list Z) : cpp (TASK_EXAM_DATA * list Z * list Z) :=
  '(nm, cTmp, s) ← read_field s cTmp;
  '(pa, cTmp, s) ← read_field s cTmp;
  '(de, cTmp, s) ← read_field s cTmp;
  '(sc, cTmp, s) ← read_number s cTmp;
  '(me, cTmp, s) ← read_field s cTmp;
  '(pe, cTmp, s) ← read_number s cTmp;
  '(ty, cTmp, s) ← read_number s cTmp;
  '(mv, cTmp, s) ← read_field s cTmp;
  Ret ({| name := nm; path := pa; desc := de; score := sc; method := me; percent := pe; TaskExam.type := ty;
          methodValue := mv |}, cTmp, s).

(** [n] items; [g] says when the vector of items grows. *)
Fixpoint read_items (g : nat -> bool) (n : nat) s (cTmp : list Z) (e : CTaskExam) : cpp (CTaskExam * list Z) :=
  match n with
  | O => Ret (e, s)
  | S n =>
      '(item, cTmp, s) ← read_item s cTmp;
      let '(_, e) := InsertItem (g n) e item in
      read_items g n s cTmp e
  end.

(** What is not initialised while a task is read. *)
Record load_memory := { head_memory : list Z * list Z; add_memory : memory; line_memory : list Z; item_grows : nat -> bool }.

(** The new object is attached to the task before it is filled; nothing looks
    at it until it is complete. *)
Definition LoadExamTask (m : load_memory) s (node : TASKHEAD) h : cpp (Z * list Z * store T) :=
  '(_, nNum, s) ← fscanf_d s 0;
  '(pitem, s) ← read_items (item_grows m) (Z.to_nat nNum) s (line_memory m) new_CTaskExam;
  pitem ← FinishInit pitem;
  h ← put_task node (inl pitem) h;
  Ret (0, s, h).

Definition LoadTask (m : load_memory) s (node : TASKHEAD) h : cpp (Z * TASKHEAD * list Z * store T) :=
  '(nError, id, s) ← fscanf_s s (tid node);
  let node := {| tid := id; cycle := cycle node; TaskHead.type := TaskHead.type node; lasttime := lasttime node;
                 invalid := invalid node; ftime := ftime node; atpr := atpr node |} in
  if nError <? 0 then Ret (nError, node, s, h)
  else
    ok ← checkTid (tid node);
    if negb ok then Ret (1, node, s, h)
    else
      '(_, cy, s) ← fscanf_d s (cycle node);
      '(_, ty, s) ← fscanf_d s (TaskHead.type node);
      '(_, la, s) ← fscanf_s s (lasttime node);
      '(_, iv, s) ← fscanf_d s (invalid node);
      '(_, ft, s) ← fscanf_d s (ftime node);
      let iv := if iv =? 3 then 0 else iv in
      let node := {| tid := tid node; cycle := cy; TaskHead.type := ty; lasttime := la; invalid := iv; ftime := ft;
                     atpr := atpr node |} in
      '(s, h) ← (if ty =? TYPE_EXAM_HEALTH then '(_, s, h) ← LoadExamTask m s node h; Ret (s, h) else Ret (s, h));
      Ret (0, node, s, h).

(** [for(int i = 0; i < nNum; )]: a round that meets no task does not count. *)
Fixpoint load_loop (fuel : nat) (m : nat -> load_memory) (k : nat) (i nNum : Z) s (l : CTaskList) h
    : cpp (CTaskList * store T) :=
  if i <? nNum then
    match fuel with
    | O => NoFuel
    | S f =>
        '(iTask, h) ← new_taskhead (head_memory (m k)).1 (head_memory (m k)).2 h;
        '(nError, iTask, s, h) ← LoadTask (m k) s iTask h;
        if nError <? 0 then h ← destroy_taskhead iTask h; Ret (l, h)
        else if negb (nError =? 0) then h ← destroy_taskhead iTask h; load_loop f m (S k) i nNum s l h
        else
          '(_, l, h) ← _AddTask (add_memory (m k)) l iTask h;
          h ← destroy_taskhead iTask h;
          load_loop f m (S k) (i + 1) nNum s l h
    end
  else Ret (l, h).

(** [junk] is the value of the [nNum] that is not initialised. *)
Definition Load (m : nat -> load_memory) (junk : Z) (fs : files) (l : CTaskList) (filename : list Z) h
    : cpp (Z * CTaskList * store T) :=
  '(nLock, l) ← Lock 60 l;
  if negb (nLock =? 0) then Ret (3, l, h)
  else
    match fs !! filename with
    | None => Ret (1, UnLock l, h)
    | Some s =>
        '(l, h) ← (if bool_decide (m_TaskList l = []) then Ret (l, h)
                   else '(v, h) ← vector_clear (m_TaskList l) h; Ret (set_cursor None (set_list v l), h));
        '(_, nNum, s) ← fscanf_d s junk;
        '(l, h) ← load_loop (S (length s)) m 0 0 nNum s l h;
        Ret (0, UnLock l, h)
    end.

(** ** Reading back what was printed *)

Lemma skip_spaces_id c r : isspace c = false -> skip_spaces (c :: r) = c :: r.
Proof. intros E. cbn. by rewrite E. Qed.

Lemma span_until (p : Z -> bool) w c r : Forall (fun d => p d = true) w -> p c = false -> span p (w ++ c :: r) = (w, c :: r).
Proof. intros Hw Hc. by apply span_all. Qed.

Lemma digit_head ds : ds <> [] -> digits ds -> exists d r, ds = d :: r /\ isdigit d = true.
Proof. intros Hn Hd. destruct Hd as [|d r]; [done|]. eauto. Qed.

Lemma digit_range d : isdigit d = true -> 48 <= d <= 57.
Proof. unfold isdigit. lia. Qed.

Lemma digit_not_space d : isdigit d = true -> isspace d = false.
Proof. intros Hd%digit_range. unfold isspace. lia. Qed.

Lemma fscanf_d_line n j r : is_int n -> fscanf_d (line_d n ++ r) j = Ret (1, n, skip_spaces r).
Proof.
  intros Hn. unfold line_d. rewrite <- app_assoc. cbn [app]. unfold fscanf_d, print_int.
  destruct (Z.ltb_spec n 0) as [Hl|Hl].
  - cbn [app]. rewrite skip_spaces_id by done. cbn [scan_sign]. change (45 =? 45) with true. cbv iota.
    rewrite (span_until isdigit _ 10 r (dec_is_digits _)) by done. rewrite bool_decide_eq_false_2 by apply dec_nonnil.
    rewrite dec_value_dec by lia. rewrite int_checked_id by (unfold is_int in *; lia). rewrite bind_ret_l.
    cbn [skip_spaces]. change (isspace 10) with true. cbv iota. f_equal. f_equal. f_equal. lia.
  - destruct (digit_head (dec n) (dec_nonnil n) (dec_is_digits n)) as (d & w & E & Hd). rewrite E. cbn [app].
    rewrite skip_spaces_id by by apply digit_not_space. cbn [scan_sign]. apply digit_range in Hd as Hr.
    rewrite (proj2 (Z.eqb_neq d 45)), (proj2 (Z.eqb_neq d 43)) by lia. cbv iota.
    change (d :: w ++ 10 :: r) with ((d :: w) ++ 10 :: r). rewrite <- E.
    rewrite (span_until isdigit _ 10 r (dec_is_digits _)) by done. rewrite bool_decide_eq_false_2 by apply dec_nonnil.
    rewrite dec_value_dec by lia. rewrite int_checked_id by done. done.
Qed.

Lemma fscanf_s_line w b r : w <> [] -> Forall (fun c => isspace c = false) w -> (length w < length b)%nat ->
  fscanf_s (line_s w ++ r) b = Ret (1, splice b 0 (w ++ [0]), skip_spaces r).
Proof.
  intros Hn Hw Hl. unfold line_s. rewrite <- app_assoc. cbn [app]. unfold fscanf_s.
  destruct w as [|c w]; [done|]. pose proof (Forall_inv Hw) as Hc. cbn beta in Hc. cbn [app].
  rewrite skip_spaces_id by done. change (c :: w ++ 10 :: r) with ((c :: w) ++ 10 :: r).
  rewrite (span_until _ _ 10 r) by (done || (eapply Forall_impl; [exact Hw|]; intros d Hd; cbn; by rewrite Hd)).
  unfold sprintf_text, buf_write. rewrite decide_True by (rewrite length_app; cbn [length] in *; lia). done.
Qed.

Lemma text_written b w : (length w < length b)%nat -> Forall (fun c => c <> 0) w -> text_of (splice b 0 (w ++ [0])) = w.
Proof.
  intros Hl Hw. unfold splice. change (take 0 b) with (@nil Z). cbn [app]. rewrite <- app_assoc. by apply text_of_text.
Qed.

(** ** Lines *)

Definition field_ok (f : list Z) : Prop := Forall (fun c => c <> 10 /\ c <> 0) f /\ (length f <= 1022)%nat.

Lemma line_of_line n f r : Forall (fun c => c <> 10) f -> (length f < n)%nat -> line_of n (line_s f ++ r) = (line_s f, r).
Proof.
  revert n. induction f as [|c f IH]; intros n Hf Hl; (destruct n as [|n]; [cbn in Hl; lia|]); [done|].
  apply Forall_cons in Hf as [Hc Hf]. cbn in Hl. cbn [line_s app line_of].
  change ((f ++ [10]) ++ r) with (line_s f ++ r). rewrite (proj2 (Z.eqb_neq _ _) Hc), IH by (done || lia). done.
Qed.

Lemma read_field_line f r b : field_ok f -> length b = 1024%nat ->
  exists b', read_field (line_s f ++ r) b = Ret (f, b', r) /\ length b' = 1024%nat.
Proof.
  intros [Hf Hl] Hb. unfold read_field, fgets.
  destruct (line_s f ++ r) as [|c s] eqn:E; [by destruct f|]. rewrite <- E. clear E c s.
  rewrite line_of_line by (lia || (eapply Forall_impl; [exact Hf|]; intros c Hc; apply Hc)).
  unfold sprintf_text, buf_write. assert (El : length (line_s f) = S (length f)) by (unfold line_s; rewrite length_app; cbn; lia).
  rewrite decide_True by (rewrite length_app; cbn [length]; lia). rewrite !bind_ret_l.
  assert (E0 : splice b (Z.to_nat 0) (line_s f ++ [0]) = line_s f ++ 0 :: drop (S (S (length f))) b).
  { unfold splice. change (take (Z.to_nat 0) b) with (@nil Z). cbn [app]. rewrite <- app_assoc. cbn [app].
    f_equal. f_equal. f_equal. rewrite length_app, El. cbn [length]. lia. }
  rewrite E0. rewrite strlen_ok by (apply Forall_app; split; [eapply Forall_impl; [exact Hf|]; intros c Hc; apply Hc|by repeat constructor]).
  rewrite bind_ret_l, El. replace (Z.of_nat (S (length f)) - 1) with (Z.of_nat (length f)) by lia.
  assert (Ld : length (drop (S (S (length f))) b) = (1022 - length f)%nat) by (rewrite length_drop; lia).
  rewrite decide_True by (rewrite length_app; cbn [length]; rewrite ?Ld; lia). rewrite bind_ret_l, Nat2Z.id.
  assert (E1 : splice (line_s f ++ 0 :: drop (S (S (length f))) b) (length f) [0] = f ++ 0 :: 0 :: drop (S (S (length f))) b).
  { unfold splice, line_s. rewrite <- app_assoc. rewrite take_app_length. cbn [app length].
    replace (length f + 1)%nat with (length (f ++ [10])) by (rewrite length_app; done).
    rewrite (cons_middle 10 f (0 :: _)). rewrite (app_assoc f [10]). by rewrite drop_app_length. }
  rewrite E1, tmp_string_text by (apply elem_of_app; right; by left). rewrite bind_ret_l, text_of_text.
  - eexists. split; [done|]. rewrite length_app. cbn [length]. rewrite Ld. lia.
  - eapply Forall_impl; [exact Hf|]. intros c Hc. apply Hc.
Qed.

Lemma print_int_chars n : Forall (fun c => c = 45 \/ isdigit c = true) (print_int n).
Proof.
  assert (Hd : forall m, Forall (fun c => c = 45 \/ isdigit c = true) (dec m)).
  { intros m. eapply Forall_impl; [apply dec_is_digits|]. auto. }
  unfold print_int. destruct (n <? 0); [constructor; [by left|]|]; apply Hd.
Qed.

Lemma print_int_field n : is_int n -> field_ok (print_int n).
Proof.
  intros Hn. split.
  - eapply Forall_impl; [apply print_int_chars|]. intros c [->|Hc%digit_range]; lia.
  - unfold is_int in Hn. unfold print_int. destruct (Z.ltb_spec n 0); cbn [length].
    + pose proof (dec_length (- n) 9). change (10 ^ (Z.of_nat 9 + 1)) with (10 ^ 10) in *. lia.
    + pose proof (dec_length n 9). change (10 ^ (Z.of_nat 9 + 1)) with (10 ^ 10) in *. lia.
Qed.

Lemma read_number_line n r b : is_int n -> length b = 1024%nat ->
  exists b', read_number (line_d n ++ r) b = Ret (n, b', r) /\ length b' = 1024%nat.
Proof.
  intros Hn Hb. destruct (read_field_line (print_int n) r b (print_int_field n Hn) Hb) as (b' & E & Hb').
  exists b'. split; [|done]. unfold read_number. change (line_d n) with (line_s (print_int n)).
  by rewrite E, bind_ret_l, atoi_print_int, bind_ret_l.
Qed.

Record item_ok (x : TASK_EXAM_DATA) : Prop := {
  ok_name : field_ok (name x); ok_path : field_ok (path x); ok_desc : field_ok (desc x); ok_method : field_ok (method x);
  ok_value : field_ok (methodValue x);
  ok_numbers : is_int (score x) /\ is_int (percent x) /\ is_int (TaskExam.type x)
}.

Lemma field_text f : field_ok f -> text_of f = f.
Proof.
  intros [Hf _]. unfold text_of. induction Hf as [|c f [_ Hc] Hf IH]; [done|]. cbn [span]. rewrite (proj2 (Z.eqb_neq _ _) Hc).
  cbn [negb]. destruct (span _ f). cbn in *. by f_equal.
Qed.

Lemma read_item_print x r b : item_ok x -> length b = 1024%nat ->
  exists b', read_item (print_item x ++ r) b = Ret (x, b', r) /\ length b' = 1024%nat.
Proof.
  intros [H1 H2 H3 H4 H5 (N1 & N2 & N3)] Hb. unfold print_item, read_item. rewrite !field_text by done.
  repeat rewrite <- app_assoc.
  destruct (read_field_line (name x) (line_s (path x) ++ line_s (desc x) ++ line_d (score x) ++ line_s (method x) ++
    line_d (percent x) ++ line_d (TaskExam.type x) ++ line_s (methodValue x) ++ r) b H1 Hb) as (b1 & -> & B1). rewrite bind_ret_l.
  destruct (read_field_line (path x) (line_s (desc x) ++ line_d (score x) ++ line_s (method x) ++ line_d (percent x) ++
    line_d (TaskExam.type x) ++ line_s (methodValue x) ++ r) b1 H2 B1) as (b2 & -> & B2). rewrite bind_ret_l.
  destruct (read_field_line (desc x) (line_d (score x) ++ line_s (method x) ++ line_d (percent x) ++
    line_d (TaskExam.type x) ++ line_s (methodValue x) ++ r) b2 H3 B2) as (b3 & -> & B3). rewrite bind_ret_l.
  destruct (read_number_line (score x) (line_s (method x) ++ line_d (percent x) ++ line_d (TaskExam.type x) ++
    line_s (methodValue x) ++ r) b3 N1 B3) as (b4 & -> & B4). rewrite bind_ret_l.
  destruct (read_field_line (method x) (line_d (percent x) ++ line_d (TaskExam.type x) ++ line_s (methodValue x) ++ r) b4 H4 B4)
    as (b5 & -> & B5). rewrite bind_ret_l.
  destruct (read_number_line (percent x) (line_d (TaskExam.type x) ++ line_s (methodValue x) ++ r) b5 N2 B5) as (b6 & -> & B6).
  rewrite bind_ret_l.
  destruct (read_number_line (TaskExam.type x) (line_s (methodValue x) ++ r) b6 N3 B6) as (b7 & -> & B7). rewrite bind_ret_l.
  destruct (read_field_line (methodValue x) r b7 H5 B7) as (b8 & -> & B8). rewrite bind_ret_l.
  exists b8. split; [|done]. by destruct x.
Qed.

Lemma read_items_print g xs : forall e r b, Forall item_ok xs -> length b = 1024%nat ->
  exists e', read_items g (length xs) (concat (print_item <$> xs) ++ r) b e = Ret (e', r) /\
    m_CheckItemList e' = m_CheckItemList e ++ xs.
Proof.
  induction xs as [|x xs IH]; intros e r b Hx Hb; cbn [read_items length fmap list_fmap concat].
  - exists e. by rewrite app_nil_r.
  - apply Forall_cons in Hx as [Hx Hxs]. rewrite <- app_assoc.
    destruct (read_item_print x (concat (print_item <$> xs) ++ r) b Hx Hb) as (b' & -> & Hb'). rewrite bind_ret_l.
    cbn [InsertItem].
    destruct (IH (InsertItem (g (length xs)) e x).2 r b' Hxs Hb') as (e' & E & Hm). unfold InsertItem in E at 1. cbn [snd] in E.
    exists e'. split; [exact E|]. rewrite Hm. cbn. by rewrite <- app_assoc.
Qed.

(** ** FinishInit looks at the items only *)

Lemma FinishInit_items e e' : m_CheckItemList e = m_CheckItemList e' -> FinishInit e = FinishInit e'.
Proof. unfold FinishInit. by intros ->. Qed.

(** ** Tasks *)

(** A health check that reads back: its strings are single lines, [FinishInit]
    has been called, and the first line does not start with a space, which the
    conversion before it would skip. *)
Record exam_ok (e : CTaskExam) : Prop := {
  exam_items : Forall item_ok (m_CheckItemList e);
  exam_finished : FinishInit e = Ret e;
  exam_first : match m_CheckItemList e with
               | x :: _ => match name x with c :: _ => isspace c = false | [] => False end
               | [] => True
               end;
  exam_count : Z.of_nat (length (m_CheckItemList e)) < 2 ^ 31
}.

(** A task that reads back. *)
Record saved_ok (t : @task_view T) : Prop := {
  sv_tid : Forall (fun c => tid_char c = true) (v_tid t) /\ (10 <= length (v_tid t) <= 29)%nat;
  sv_time : Forall (fun c => isspace c = false /\ c <> 0) (v_lasttime t) /\ (0 < length (v_lasttime t) <= 22)%nat;
  sv_ints : is_int (v_cycle t) /\ is_int (v_ftime t);
  sv_kind : v_type t = 0 /\ v_invalid t = 0;
  sv_task : exists e, v_task t = Some (inl e) /\ exam_ok e
}.

Definition print_exam (e : CTaskExam) : list Z :=
  print_size (length (m_CheckItemList e)) ++ concat (print_item <$> m_CheckItemList e).

Definition print_view (t : @task_view T) : list Z :=
  line_s (v_tid t) ++ line_d (v_cycle t) ++ line_d (v_type t) ++ line_s (v_lasttime t) ++ line_d (v_invalid t) ++
  line_d (v_ftime t) ++ match v_task t with Some (inl e) => print_exam e | _ => [] end.

Lemma tid_char_plain c : tid_char c = true -> isspace c = false /\ c <> 0 /\ c <> 10.
Proof.
  unfold tid_char, char_value, isspace. destruct (Z.ltb_spec c 128), (Z.ltb_spec (if c <? 128 then c else c - 256) 48);
    repeat case_match; intros; try done; lia.
Qed.

Lemma LoadExamTask_print m e r node h h' : exam_ok e -> skip_spaces r = r -> length (line_memory m) = 1024%nat ->
  put_task node (inl e) h = Ret h' -> LoadExamTask m (print_exam e ++ r) node h = Ret (0, r, h').
Proof.
  intros [Hi Hf Hn Hc] Hr Hm Hp. unfold LoadExamTask, print_exam, print_size. rewrite <- app_assoc.
  assert (Es : s32 (Z.of_nat (length (m_CheckItemList e))) = Z.of_nat (length (m_CheckItemList e))).
  { unfold s32. rewrite Z.mod_small by lia. lia. }
  rewrite Es, fscanf_d_line, bind_ret_l by (unfold is_int; lia). rewrite Nat2Z.id.
  replace (skip_spaces _) with (concat (print_item <$> m_CheckItemList e) ++ r).
  2: { destruct (m_CheckItemList e) as [|x xs]; [done|]. destruct (name x) as [|c w] eqn:Ex; [done|].
       pose proof (ok_name _ (Forall_inv Hi)) as Hx. cbn [fmap list_fmap concat].
       assert (exists z, print_item x = c :: z) as [z ->]; [|cbn [app]; by rewrite skip_spaces_id].
       unfold print_item. rewrite field_text, Ex by done. eexists. reflexivity. }
  destruct (read_items_print (item_grows m) (m_CheckItemList e) new_CTaskExam r (line_memory m) Hi Hm) as (e' & -> & He).
  rewrite bind_ret_l. rewrite (FinishInit_items e' e), Hf, bind_ret_l by done. by rewrite Hp, bind_ret_l.
Qed.

Lemma skip_line_d n r : skip_spaces (line_d n ++ r) = line_d n ++ r.
Proof.
  unfold line_d, print_int. rewrite <- app_assoc. destruct (n <? 0); [done|].
  destruct (digit_head (dec n) (dec_nonnil n) (dec_is_digits n)) as (d & w & -> & Hd).
  apply skip_spaces_id. by apply digit_not_space.
Qed.

Lemma skip_line_s w r : w <> [] -> Forall (fun c => isspace c = false) w -> skip_spaces (line_s w ++ r) = line_s w ++ r.
Proof. intros Hn Hw. destruct w as [|c w]; [done|]. unfold line_s. apply skip_spaces_id. by apply Forall_inv in Hw. Qed.

Lemma head_array b w (n : nat) : (length w < n)%nat -> (n <= length b)%nat -> 0 ∈ take n (splice b 0 (w ++ [0])).
Proof.
  intros Hw Hb. unfold splice. change (take 0 b) with (@nil Z). cbn [app]. rewrite take_app_ge by (rewrite length_app; cbn; lia).
  apply elem_of_app. left. apply elem_of_app. right. by left.
Qed.

(** Reading a task back into a new head. *)
Lemma LoadTask_print m t e r node h h' : saved_ok t -> v_task t = Some (inl e) -> exam_ok e -> skip_spaces r = r ->
  length (line_memory m) = 1024%nat -> length (tid node) = 32%nat -> length (lasttime node) = 24%nat ->
  (forall n, atpr n = atpr node -> put_task n (inl e) h = Ret h') ->
  exists node', LoadTask m (print_view t ++ r) node h = Ret (0, node', r, h') /\ head_ok node' /\ atpr node' = atpr node /\
    forall k, live k !! atpr node' = Some {| ref := 1; task := Some (inl e) |} -> view k node' = Some t.
Proof.
  intros [[Ht1 Ht2] [Hl1 Hl2] [Hc Hf] [Ek Ei] _] Ee He Hr Hm Ltid Ltime Hp. unfold print_view, LoadTask. rewrite Ee.
  repeat rewrite <- app_assoc.
  assert (Ht : Forall (fun c => isspace c = false) (v_tid t)) by (eapply Forall_impl; [exact Ht1|]; intros c Hx; by apply tid_char_plain).
  assert (Ht0 : Forall (fun c => c <> 0) (v_tid t)) by (eapply Forall_impl; [exact Ht1|]; intros c Hx; by apply tid_char_plain).
  rewrite fscanf_s_line by (done || lia || (intros E; rewrite E in Ht2; cbn in Ht2; lia)). rewrite bind_ret_l. cbn [tid].
  replace (1 <? 0) with false by done.
  set (id := splice (tid node) 0 (v_tid t ++ [0])).
  assert (Eid : exists q, id = v_tid t ++ 0 :: q).
  { unfold id, splice. change (take 0 (tid node)) with (@nil Z). cbn [app]. rewrite <- app_assoc. eauto. }
  assert (Ecid : checkTid id = Ret true).
  { destruct Eid as [q ->]. unfold checkTid. rewrite strlen_ok by done. rewrite bind_ret_l.
    rewrite (proj2 (Z.ltb_ge _ _)) by lia. rewrite Nat2Z.id, take_app_length. f_equal. apply forallb_forall.
    intros c Hx%list_elem_of_In. by rewrite Forall_forall in Ht1; apply Ht1. }
  rewrite Ecid, bind_ret_l. cbn [negb]. rewrite skip_line_d, fscanf_d_line, bind_ret_l by done.
  rewrite skip_line_d, fscanf_d_line, bind_ret_l by (rewrite Ek; unfold is_int; lia).
  assert (Hl : Forall (fun c => isspace c = false) (v_lasttime t)) by (eapply Forall_impl; [exact Hl1|]; intros c Hx; apply Hx).
  assert (Hl0 : Forall (fun c => c <> 0) (v_lasttime t)) by (eapply Forall_impl; [exact Hl1|]; intros c Hx; apply Hx).
  assert (Hne : v_lasttime t <> []) by (intros E; rewrite E in Hl2; cbn in Hl2; lia).
  rewrite skip_line_s by done. cbn [lasttime invalid ftime atpr cycle tid].
  rewrite fscanf_s_line, bind_ret_l by (done || lia).
  rewrite skip_line_d, fscanf_d_line, bind_ret_l by (rewrite Ei; unfold is_int; lia).
  rewrite skip_line_d, fscanf_d_line, bind_ret_l by done. rewrite Ek, Ei. change (0 =? 3) with false. cbv iota.
  change (0 =? TYPE_EXAM_HEALTH) with true. cbv iota.
  replace (skip_spaces (print_exam e ++ r)) with (print_exam e ++ r) by (unfold print_exam, print_size; by rewrite <- app_assoc, skip_line_d).
  erewrite LoadExamTask_print; [|done..|by apply Hp]. rewrite !bind_ret_l. eexists. split; [reflexivity|].
  set (la := splice (lasttime node) 0 (v_lasttime t ++ [0])).
  assert (L1 : length id = 32%nat) by (unfold id; rewrite length_splice; rewrite ?length_app; cbn [length]; lia).
  assert (L2 : length la = 24%nat) by (unfold la; rewrite length_splice; rewrite ?length_app; cbn [length]; lia).
  split; [split; cbn; (split; [done|apply head_array; lia])|]. split; [done|]. intros k Hk. unfold view. cbn in *. rewrite Hk. cbn.
  unfold id, la. rewrite !text_written by (done || lia). f_equal. destruct t; cbn in *. by subst.
Qed.

(** ** The whole list *)

(** What is saved of a list: the enabled health checks. *)
Definition kept (t : @task_view T) : Prop := v_invalid t = 0 /\ v_type t = TYPE_EXAM_HEALTH.
#[global] Instance kept_dec t : Decision (kept t).
Proof. unfold kept. apply _. Defined.

Definition print_tasks (ts : list (@task_view T)) : list Z := concat (print_view <$> ts).

Lemma saved_view h x t : view h x = Some t -> saved x = bool_decide (kept t).
Proof.
  intros (_ & Ek & Ei)%view_fields. unfold saved, kept. apply eq_true_iff_eq. rewrite andb_true_iff, !Z.eqb_eq, <- Ek, <- Ei.
  symmetry. apply bool_decide_eq_true.
Qed.

Lemma SaveTask_print h x t : head_ok x -> view h x = Some t -> kept t -> saved_ok t -> SaveTask x h = Ret (0, print_view t).
Proof.
  intros Ho Hv [Hi Hk] [_ _ _ _ (e & Ee & He)]. unfold view in Hv. destruct (live h !! atpr x) as [b|] eqn:Eb; [|done].
  cbn in Hv. injection Hv as <-. cbn in *. unfold SaveTask, SaveExamTask. rewrite Hk, Hi.
  change (TYPE_EXAM_HEALTH =? TYPE_EXAM_HEALTH) with true. change (0 =? 0) with true. cbv iota.
  destruct Ho as [[_ Z1] [_ Z2]]. rewrite !tmp_string_text, !bind_ret_l by by eapply elem_of_submseteq, submseteq_take.
  unfold load. rewrite Eb, bind_ret_l, Ee, bind_ret_l. done.
Qed.

Lemma save_tasks_print h v ts : agree h v ts -> Forall (fun t => kept t -> saved_ok t) ts ->
  save_tasks v h = Ret (print_tasks (filter kept ts)) /\ length (List.filter saved v) = length (filter kept ts).
Proof.
  intros [Ho Hv]. induction Hv as [|x t v ts Hx Hv IH]; intros Hs; [done|]. apply Forall_cons in Ho as [Hox Ho].
  apply Forall_cons in Hs as [Hst Hs]. destruct (IH Ho Hs) as [E1 E2]. cbn [save_tasks List.filter].
  rewrite (saved_view _ _ _ Hx), filter_cons. destruct (decide (kept t)) as [Hk|Hk].
  - rewrite bool_decide_eq_true_2, (SaveTask_print h x t), !bind_ret_l, E1, bind_ret_l by auto. split; [done|]. cbn. by rewrite E2.
  - rewrite bool_decide_eq_false_2, !bind_ret_l, E1, bind_ret_l by done. by split.
Qed.

Lemma print_tasks_skip ts : Forall saved_ok ts -> skip_spaces (print_tasks ts) = print_tasks ts.
Proof.
  intros Hs. destruct Hs as [|t ts [[Ht Hl] _ _ _ _] Hs]; [done|]. unfold print_tasks. cbn [fmap list_fmap concat].
  unfold print_view at 1 3. rewrite <- app_assoc. apply skip_line_s.
  - intros E. rewrite E in Hl. cbn in Hl. lia.
  - eapply Forall_impl; [exact Ht|]. intros c Hx. by apply tid_char_plain.
Qed.

Lemma put_task_atpr (x y : TASKHEAD) (t : T) h : atpr x = atpr y -> put_task x t h = put_task y t h.
Proof. unfold put_task. by intros ->. Qed.

Lemma add_view_new (t : @task_view T) ts : Forall (fun u => v_tid u <> v_tid t /\ v_invalid u = 0) ts -> add_view t ts = ts ++ [t].
Proof.
  intros Hf. unfold add_view, drop_first. destruct (list_find (replaced t) ts) as [[i u]|] eqn:E; [|done].
  apply list_find_Some in E as (Hu & Hr & _). apply list_elem_of_lookup_2 in Hu. rewrite Forall_forall in Hf.
  destruct (Hf u Hu) as [H1 H2]. destruct Hr as [Hr|Hr]; [done|]. rewrite H2 in Hr. done.
Qed.

Definition load_memory_ok (m : load_memory) : Prop :=
  fresh_memory (head_memory m) /\ fresh_insert (add_memory m) /\ length (line_memory m) = 1024%nat.

Lemma load_loop_print m ts : (forall k, load_memory_ok (m k)) -> forall fuel k i l h hs done,
  Forall saved_ok ts -> NoDup (v_tid <$> done ++ ts) -> Forall (fun t => v_invalid t = 0) done ->
  agree h (m_TaskList l) done -> counted h (m_TaskList l ++ hs) -> (length ts <= fuel)%nat ->
  Z.of_nat (2 * length done + 2 * length ts + length hs + 4) < 2 ^ 31 - 1 ->
  exists l' h', load_loop fuel m k i (i + Z.of_nat (length ts)) (print_tasks ts) l h = Ret (l', h') /\
    agree h' (m_TaskList l') (done ++ ts) /\ counted h' (m_TaskList l' ++ hs).
Proof.
  intros Hm. induction ts as [|t ts IH]; intros fuel k i l h hs don Hs Hnd Hv A Hc Hfu Hn.
  { exists l, h. rewrite app_nil_r. split; [|done]. replace (i + Z.of_nat (length [])) with i by (cbn; lia).
    destruct fuel; cbn [load_loop]; by rewrite Z.ltb_irrefl. }
  destruct fuel as [|fuel]; [cbn in Hfu; lia|]. cbn [load_loop length] in *.
  rewrite (proj2 (Z.ltb_lt i _)) by lia. apply Forall_cons in Hs as [Ht Hs]. destruct (Hm k) as ([J1 J2] & Hi & Hl).
  pose proof (sv_task _ Ht) as (e & Ee & He).
  unfold new_taskhead, buf_write. rewrite decide_True by (cbn [length]; lia). rewrite bind_ret_l.
  destruct (zero_time_array (head_memory (m k)).2 J2) as (la & Ela & Lla & _). rewrite Ela, bind_ret_l.
  destruct (new_atpr h) as [p h1] eqn:En.
  set (x := {| tid := _; cycle := 0; TaskHead.type := 0; lasttime := la; invalid := 0; ftime := 0; atpr := p |}).
  assert (Ep : atpr x = next h) by (unfold new_atpr in En; by injection En as <- _).
  destruct (fresh_block_ok x (inl e : T) h (m_TaskList l ++ hs) Hc Ep) as (h2 & E2 & _ & Hb & Hfr).
  rewrite En in E2. cbn [snd] in E2. rewrite bind_ret_l.
  destruct (LoadTask_print (m k) t e (print_tasks ts) x h1 h2 Ht Ee He) as (y & Ey & Hoy & Eya & Hvy);
    [by apply print_tasks_skip|done|cbn; rewrite length_splice; cbn; lia|done|intros n Ha; by rewrite (put_task_atpr n x)|].
  change (print_tasks (t :: ts)) with (print_view t ++ print_tasks ts). rewrite Ey, bind_ret_l. cbn [Z.ltb Z.eqb negb Z.compare].
  specialize (Hvy h2). rewrite Eya in Hvy. specialize (Hvy Hb).
  destruct (fresh_block_ok y (inl e : T) h (m_TaskList l ++ hs) Hc) as (h2' & E2' & Hc2 & _ & _); [congruence|].
  rewrite En in E2'. cbn [snd] in E2'. rewrite (put_task_atpr y x), E2 in E2' by done. injection E2' as <-.
  assert (A2 : agree h2 (m_TaskList l) don) by (apply Hfr; [intros z Hz; apply elem_of_app; by left|done]).
  destruct (_AddTask_ok (add_memory (m k)) l y t h2 (y :: hs) don) as (v & h3 & E3 & A3 & Hc3 & K3); try done.
  { eapply counted_perm; [|exact Hc2]. apply Permutation_middle. } { by left. } { cbn [length]. lia. }
  rewrite E3, bind_ret_l. rewrite add_view_new in A3.
  2: { rewrite fmap_app in Hnd. apply NoDup_app in Hnd as (_ & Hd & _). apply Forall_forall. intros u Hu. split.
       - intros E. apply (Hd (v_tid u)); [by apply list_elem_of_fmap_2|]. rewrite E. apply list_elem_of_fmap_2. by left.
       - rewrite Forall_forall in Hv. by apply Hv. }
  destruct (release_ok h3 (v ++ hs) y) as (h4 & E4 & Hc4 & K4).
  { eapply counted_perm; [|exact Hc3]. symmetry. apply Permutation_middle. }
  { rewrite length_app, (agree_length _ _ _ A3), length_app. cbn [length]. lia. }
  unfold destroy_taskhead. rewrite E4, bind_ret_l.
  replace (i + Z.of_nat (S (length ts))) with (i + 1 + Z.of_nat (length ts)) by lia.
  destruct (IH fuel (S k) (i + 1) (set_cursor (Some 0%nat) (set_list v l)) h4 hs (don ++ [t])) as (l' & h' & E' & A' & Hc');
    [done|by rewrite <- app_assoc|apply Forall_app; split; [done|]; apply Forall_singleton, Ht| |done|lia| |].
  { eapply agree_keeps; [done..|]. intros z Hz. apply elem_of_app. by left. }
  { rewrite length_app. cbn [length]. lia. }
  exists l', h'. split; [exact E'|]. rewrite <- app_assoc in A'. done.
Qed.

Lemma print_tasks_length ts : (length ts <= length (print_tasks ts))%nat.
Proof.
  induction ts as [|t ts IH]; [done|]. unfold print_tasks in *. cbn [fmap list_fmap concat length]. rewrite length_app.
  assert (0 < length (print_view t))%nat; [|lia]. unfold print_view, line_s. rewrite !length_app. cbn. lia.
Qed.

(** The list that [Load] starts from: its tasks are gone. *)
Lemma clear_list l h hs ts : holds l h hs ts -> Z.of_nat (length ts + length hs) < 2 ^ 31 - 1 ->
  exists l' h', (if bool_decide (m_TaskList l = []) then Ret (set_lock true l, h)
                 else '(v, h) ← vector_clear (m_TaskList l) h; Ret (set_cursor None (set_list v (set_lock true l)), h)) = Ret (l', h') /\
    m_TaskList l' = [] /\ counted h' hs.
Proof.
  intros [A Hc _] Hn. case_bool_decide as E.
  - eexists _, _. split; [reflexivity|]. split; [done|]. by rewrite E in Hc.
  - destruct (destroy_all_ok (m_TaskList l) h hs Hc) as (h' & Eh & Hc' & _); [rewrite length_app, (agree_length _ _ _ A); lia|].
    unfold vector_clear. rewrite Eh, !bind_ret_l. eexists _, _. split; [reflexivity|]. done.
Qed.

(** C25: the enabled health checks of a task list that [Save] writes are loaded again by [Load] into any list, in their order,
    with their identifiers, times, cycles, items and percentages, whatever that list held before and whatever the memory
    holds that is not initialised; both return 0 and leave the lists unlocked, and nothing is leaked. *)
Theorem save_then_load (m : nat -> load_memory) (junk : Z) (fs : files) (file : list Z) l h hs ts l2 h2 hs2 ts2 :
  holds l h hs ts -> Forall (fun t => kept t -> saved_ok t) ts -> NoDup (v_tid <$> filter kept ts) ->
  holds l2 h2 hs2 ts2 -> (forall k, load_memory_ok (m k)) ->
  Z.of_nat (2 * length ts + length ts2 + length hs2 + 4) < 2 ^ 31 - 1 ->
  exists fs' l2' h2', Save DiskOk fs l file h = Ret (0, l, fs') /\
    fs' = <[file := line_d (Z.of_nat (length (filter kept ts))) ++ print_tasks (filter kept ts)]> fs /\
    Load m junk fs' l2 file h2 = Ret (0, l2', h2') /\ holds l2' h2' hs2 (filter kept ts).
Proof.
  intros Hl Hs Hnd Hl2 Hm Hn. destruct (save_tasks_print h (m_TaskList l) ts (holds_agree _ _ _ _ Hl) Hs) as [E1 E2].
  pose proof (length_filter kept ts) as Lf.
  set (ks := filter kept ts) in *. exists (<[file := line_d (Z.of_nat (length ks)) ++ print_tasks ks]> fs).
  assert (Hk : Forall saved_ok ks).
  { apply Forall_forall. intros t Ht. apply list_elem_of_filter in Ht as [Hk Ht]. rewrite Forall_forall in Hs. by apply Hs. }
  destruct (clear_list l2 h2 hs2 ts2 Hl2) as (l3 & h3 & E3 & Em & Hc3); [lia|].
  destruct (load_loop_print m ks Hm (S (length (print_tasks ks))) 0 0 l3 h3 hs2 []) as (l4 & h4 & E4 & A4 & Hc4); try done.
  { rewrite Em. apply agree_nil. } { by rewrite Em. } { pose proof (print_tasks_length ks). lia. } { cbn [length]. lia. }
  rewrite Z.add_0_l in E4. exists (UnLock l4), h4. split; [|split; [done|split; [|by split]]].
  - unfold Save, Lock. rewrite (holds_free _ _ _ _ Hl). change (60 =? 0) with false. change (0 <? 60) with true. cbn [andb negb].
    rewrite bind_ret_l. change (negb (0 =? 0)) with false. cbv iota. cbn [m_TaskList set_lock].
    rewrite E1, bind_ret_l, E2. f_equal. f_equal. f_equal. destruct Hl as [_ _ Hf]. destruct l. cbn in *. by subst.
  - unfold Load, Lock. rewrite (holds_free _ _ _ _ Hl2). change (60 =? 0) with false. change (0 <? 60) with true. cbn [andb negb].
    rewrite bind_ret_l. change (negb (0 =? 0)) with false. cbv iota.
    replace (_ !! file) with (Some (line_d (Z.of_nat (length ks)) ++ print_tasks ks)) by (symmetry; apply lookup_insert_eq).
    cbn [m_TaskList set_lock]. rewrite E3, bind_ret_l, fscanf_d_line, bind_ret_l by (unfold is_int; lia). rewrite print_tasks_skip by done.
    by rewrite E4, bind_ret_l.
Qed.
End file.

(** ** A list that is saved and loaded *)

Definition demo_exam : CTaskExam :=
  match FinishInit {| m_CheckItemList := (fun s => {| name := codes "disk space"; path := codes "/, /home"; desc := []; score := s;
      method := codes "m"; percent := 0; TaskExam.type := 3; methodValue := codes "10" |}) <$> [2; 1]; m_iCurrent := None |}
  with Ret e => e | _ => new_CTaskExam end.

Definition demo_head : TASKHEAD :=
  {| tid := take 32 (codes "0123456789abcdef" ++ replicate 32 0); cycle := 1; TaskHead.type := 0;
     lasttime := take 24 (zero_time ++ replicate 24 0); invalid := 0; ftime := 1700000000; atpr := 0 |}.

Definition demo_store : store (CTaskExam + unit) := {| live := {[ 0%nat := {| ref := 1; task := Some (inl demo_exam) |} ]}; next := 1; undestroyed := [] |}.
Definition demo_list : CTaskList := {| m_TaskList := [demo_head]; TaskList.m_iCurrent := Some 0%nat; m_bLock := false |}.
Definition demo_view : @task_view (CTaskExam + unit) :=
  {| v_tid := codes "0123456789abcdef"; v_cycle := 1; v_type := 0; v_lasttime := zero_time; v_invalid := 0;
     v_ftime := 1700000000; v_task := Some (inl demo_exam) |}.
Definition demo_memory : load_memory :=
  let j := (replicate 32 170, replicate 24 85) in
  {| head_memory := j; add_memory := {| grows := true; elem_memory := j; temp_memory := j |};
     line_memory := replicate 1024 204; item_grows := fun _ => true |}.

Lemma demo_holds : holds demo_list demo_store [] [demo_view].
Proof.
  split; [apply agree_one|split|done].
  - split; split; done || (apply (bool_decide_unpack _); by vm_compute).
  - by vm_compute.
  - intros l b Hl. unfold demo_store in Hl. cbn [live] in Hl. apply lookup_singleton_Some in Hl as [<- <-].
    split; [by vm_compute|vm_compute; lia].
  - intros l Hl. unfold demo_store in Hl. cbn [live] in Hl. apply lookup_singleton_None in Hl. cbn [app m_TaskList demo_list].
    by rewrite count_cons, decide_False.
  - intros l Hl. unfold demo_store. cbn [live next] in *. apply lookup_singleton_None. intros <-. by apply Nat.nle_succ_0 in Hl.
Qed.

Lemma demo_saved : saved_ok demo_view.
Proof.
  split; cbn [demo_view v_tid v_lasttime v_cycle v_ftime v_type v_invalid v_task].
  - split; [apply (bool_decide_unpack _); by vm_compute|vm_compute; lia].
  - split; [apply (bool_decide_unpack _); by vm_compute|vm_compute; lia].
  - unfold is_int. lia.
  - done.
  - exists demo_exam. split; [done|]. split; [|by vm_compute..]. apply Forall_forall. intros x Hx.
    assert (Hf : forall f, bool_decide (Forall (fun c => c <> 10 /\ c <> 0) f /\ (length f <= 1022)%nat) = true -> field_ok f)
      by (intros f Hf; by apply bool_decide_eq_true in Hf).
    vm_compute in Hx. repeat (apply elem_of_cons in Hx as [->|Hx]; [split; first [by apply Hf; vm_compute|cbn [score percent TaskExam.type]; unfold is_int; lia]|]).
    by apply not_elem_of_nil in Hx.
Qed.

Lemma save_then_load_witness : exists fs' l2' h2',
  Save DiskOk ∅ demo_list (codes "tasks") demo_store = Ret (0, demo_list, fs') /\
  Load (fun _ => demo_memory) 7 fs' new_CTaskList (codes "tasks") {| live := ∅; next := 0; undestroyed := [] |} = Ret (0, l2', h2') /\
  holds l2' h2' [] [demo_view].
Proof.
  destruct (save_then_load (fun _ => demo_memory) 7 ∅ (codes "tasks") demo_list demo_store [] [demo_view] new_CTaskList
    {| live := ∅; next := 0; undestroyed := [] |} [] []) as (fs' & l2' & h2' & E1 & _ & E2 & H2).
  - apply demo_holds.
  - apply Forall_singleton. intros _. apply demo_saved.
  - apply (bool_decide_unpack _). by vm_compute.
  - split; [apply agree_nil|split; cbn; [intros l b Hl; by rewrite lookup_empty in Hl|done..]|done].
  - intros k. split; [by split|]. split; [by repeat split|done].
  - done.
  - exists fs', l2', h2'. split; [exact E1|]. split; [exact E2|exact H2].
Defined.
