(* ===== verification/TaskStores.v ===== *)
(** * The stores of software and patches (src/public/astTask/astTask.cpp)

    [CTaskSoft] keeps the offered software by file name, [CTaskPatch] the
    patches by KB number with their state of installation.  Both are vectors
    that are searched from the front, under a lock flag.  The counts and
    positions that the code keeps in an [int] are unbounded here: the lists are
    taken to be shorter than 2^31. *)
From stdpp Require Import gmap sorting.
From S2P Require Import Prelude Words Buffers CString Decimal TaskHead TaskList.

Record TASK_RESOURCE_DATA := { ftpsrv : list Z; user : list Z; pass : list Z }.

(** [while(flag) sleep(1); flag = true;]: a set flag is waited for without end
    by the only thread. *)
Definition wait_flag (flag : bool) : cpp bool := if flag then NoFuel else Ret true.

(** The offset of the first element with a property. *)
Definition position {A} (P : A -> Prop) `{forall x, Decision (P x)} (l : list A) : option nat := fst <$> list_find P l.

(** ** CTaskSoft *)

Record TASK_SOFT_DATA := {
  btSoftFlag : bool;
  sTid : list Z;
  s_name : list Z;
  s_torrentname : list Z;
  s_resource : TASK_RESOURCE_DATA;
  s_path : list Z;
  s_size : Z;
  s_speed : Z;
  s_desc : list Z;
  strRecvTime : list Z
}.

Record CTaskSoft := {
  m_SoftList : list TASK_SOFT_DATA;
  m_SingleSoftList : list TASK_SOFT_DATA;
  m_delSoftList : list (list Z);
  m_bSoftLock : bool
}.

(** The constructor leaves the lock flag as the memory has it. *)
Definition new_CTaskSoft (junk : bool) : CTaskSoft := {| m_SoftList := []; m_SingleSoftList := []; m_delSoftList := []; m_bSoftLock := junk |}.

Definition set_softs (l : list TASK_SOFT_DATA) (c : CTaskSoft) : CTaskSoft :=
  {| m_SoftList := l; m_SingleSoftList := m_SingleSoftList c; m_delSoftList := m_delSoftList c; m_bSoftLock := m_bSoftLock c |}.
Definition set_soft_lock (b : bool) (c : CTaskSoft) : CTaskSoft :=
  {| m_SoftList := m_SoftList c; m_SingleSoftList := m_SingleSoftList c; m_delSoftList := m_delSoftList c; m_bSoftLock := b |}.

Definition SoftLock (c : CTaskSoft) : cpp CTaskSoft := b ← wait_flag (m_bSoftLock c); Ret (set_soft_lock b c).
Definition SoftUnLock (c : CTaskSoft) : CTaskSoft := set_soft_lock false c.

(** A [char *] is compared up to its terminator. *)
Definition FindSoft (c : CTaskSoft) (name : list Z) : option nat := position (fun x => s_name x = text_of name) (m_SoftList c).

Definition InsertSoft (c : CTaskSoft) (soft : TASK_SOFT_DATA) : Z * CTaskSoft := (0, set_softs (m_SoftList c ++ [soft]) c).

Definition update_soft (soft p : TASK_SOFT_DATA) : TASK_SOFT_DATA :=
  {| btSoftFlag := btSoftFlag p; sTid := sTid p; s_name := s_name p; s_torrentname := s_torrentname p;
     s_resource := {| ftpsrv := ftpsrv (s_resource soft); user := user (s_resource soft); pass := pass (s_resource soft) |};
     s_path := s_path soft; s_size := s_size soft; s_speed := s_speed soft; s_desc := s_desc soft; strRecvTime := strRecvTime p |}.

Definition AddSoft (c : CTaskSoft) (soft : TASK_SOFT_DATA) : cpp (Z * CTaskSoft) :=
  c ← SoftLock c;
  match FindSoft c (s_name soft) with
  | Some i => Ret (1, SoftUnLock (set_softs (alter (update_soft soft) i (m_SoftList c)) c))
  | None => let '(n, c) := InsertSoft c soft in Ret (n, SoftUnLock c)
  end.

(** Here it is the name in the list that is compared up to its terminator. *)
Definition delete_soft (d : list Z) (l : list TASK_SOFT_DATA) : list TASK_SOFT_DATA :=
  match position (fun x => d = text_of (s_name x)) l with Some i => delete i l | None => l end.

Definition DeleteSoft (c : CTaskSoft) (dellist : list (list Z)) : cpp (Z * CTaskSoft) :=
  c ← SoftLock c;
  Ret (0, SoftUnLock (set_softs (foldl (fun l d => delete_soft d l) (m_SoftList c) dellist) c)).

(** ** CTaskPatch *)

Record TASK_PATCH_DATA := {
  btPatchFlag : bool;
  p_name : list Z;
  p_torrentname : list Z;
  kbnumber : list Z;
  p_resource : TASK_RESOURCE_DATA;
  p_path : list Z;
  p_size : Z;
  p_speed : Z;
  status : Z;
  p_desc : list Z
}.

Record CTaskPatch := {
  m_PatchList : list TASK_PATCH_DATA;
  m_LocalPList : list (list Z);
  m_NeedPList : list (list Z);
  m_HassNoPList : list (list Z);
  m_NoUse : Z;
  m_bPatchLock : bool
}.

Definition new_CTaskPatch (junk : Z) : CTaskPatch :=
  {| m_PatchList := []; m_LocalPList := []; m_NeedPList := []; m_HassNoPList := []; m_NoUse := junk; m_bPatchLock := false |}.

Definition set_patches (l : list TASK_PATCH_DATA) (c : CTaskPatch) : CTaskPatch :=
  {| m_PatchList := l; m_LocalPList := m_LocalPList c; m_NeedPList := m_NeedPList c; m_HassNoPList := m_HassNoPList c;
     m_NoUse := m_NoUse c; m_bPatchLock := m_bPatchLock c |}.
Definition set_nouse (n : Z) (c : CTaskPatch) : CTaskPatch :=
  {| m_PatchList := m_PatchList c; m_LocalPList := m_LocalPList c; m_NeedPList := m_NeedPList c; m_HassNoPList := m_HassNoPList c;
     m_NoUse := n; m_bPatchLock := m_bPatchLock c |}.
Definition set_missing (l : list (list Z)) (c : CTaskPatch) : CTaskPatch :=
  {| m_PatchList := m_PatchList c; m_LocalPList := m_LocalPList c; m_NeedPList := m_NeedPList c; m_HassNoPList := l;
     m_NoUse := m_NoUse c; m_bPatchLock := m_bPatchLock c |}.
Definition set_patch_lock (b : bool) (c : CTaskPatch) : CTaskPatch :=
  {| m_PatchList := m_PatchList c; m_LocalPList := m_LocalPList c; m_NeedPList := m_NeedPList c; m_HassNoPList := m_HassNoPList c;
     m_NoUse := m_NoUse c; m_bPatchLock := b |}.

Definition PatchLock (c : CTaskPatch) : cpp CTaskPatch := b ← wait_flag (m_bPatchLock c); Ret (set_patch_lock b c).
Definition PatchUnLock (c : CTaskPatch) : CTaskPatch := set_patch_lock false c.

Definition set_status (n : Z) (x : TASK_PATCH_DATA) : TASK_PATCH_DATA :=
  {| btPatchFlag := btPatchFlag x; p_name := p_name x; p_torrentname := p_torrentname x; kbnumber := kbnumber x;
     p_resource := p_resource x; p_path := p_path x; p_size := p_size x; p_speed := p_speed x; status := n; p_desc := p_desc x |}.

Definition find_patch (kb : list Z) (l : list TASK_PATCH_DATA) : option nat := position (fun x => kbnumber x = text_of kb) l.
Definition FindPatch (c : CTaskPatch) (kb : list Z) : option nat := find_patch kb (m_PatchList c).
Definition InsertPatch (c : CTaskPatch) (patch : TASK_PATCH_DATA) : Z * CTaskPatch := (0, set_patches (m_PatchList c ++ [patch]) c).

(** [pP = FindPatch(kb); if(pP != NULL) pP->status = n;] *)
Definition mark_patch (n : Z) (l : list TASK_PATCH_DATA) (kb : list Z) : list TASK_PATCH_DATA :=
  match find_patch kb l with Some i => alter (set_status n) i l | None => l end.

Definition CheckNoUse (c : CTaskPatch) : Z * CTaskPatch :=
  let n := Z.of_nat (length (filter (fun x => status x = 0) (m_PatchList c))) in (n, set_nouse n c).

Definition GetNoUse (c : CTaskPatch) (list_kb : list (list Z)) : Z * CTaskPatch * list (list Z) :=
  let l := filter (fun x => status x = 0) (m_PatchList c) in
  (Z.of_nat (length l), set_nouse (Z.of_nat (length l)) c, list_kb ++ (kbnumber <$> l)).

Definition reset_status (x : TASK_PATCH_DATA) : TASK_PATCH_DATA := if status x <? 0 then set_status 0 x else x.

Definition CheckHotFixNoLock (c : CTaskPatch) (localkb : list (list Z)) : Z * CTaskPatch :=
  (0, set_patches (foldl (mark_patch 1) (reset_status <$> m_PatchList c) localkb) c).

Definition CheckHotFix (c : CTaskPatch) (localkb : list (list Z)) : cpp (Z * CTaskPatch) :=
  c ← PatchLock c; let '(n, c) := CheckHotFixNoLock c localkb in Ret (n, PatchUnLock c).

Definition GetNeedKb (c : CTaskPatch) : Z * CTaskPatch :=
  let l := filter (fun kb => kb ∉ m_LocalPList c) (m_NeedPList c) in
  (Z.of_nat (length l), set_missing (m_HassNoPList c ++ l) c).

Definition Clear (c : CTaskPatch) : cpp CTaskPatch := c ← PatchLock c; Ret (PatchUnLock (set_patches [] c)).

(** [for(int i = size()-1; i>=0; i--)]: [n] is [i+1]. *)
Fixpoint remove_marked (n : nat) (l : list TASK_PATCH_DATA) : list TASK_PATCH_DATA :=
  match n with
  | O => l
  | S i => remove_marked i (match l !! i with Some x => if status x =? 2 then delete i l else l | None => l end)
  end.

Definition RemoveDelPatch (c : CTaskPatch) : Z * CTaskPatch :=
  (0, set_patches (remove_marked (length (m_PatchList c)) (m_PatchList c)) c).

Definition DeletePatch (c : CTaskPatch) (dellist : list (list Z)) : cpp (Z * CTaskPatch) :=
  c ← PatchLock c;
  let c := set_patches (foldl (mark_patch 2) (m_PatchList c) dellist) c in
  let '(_, c) := RemoveDelPatch c in
  Ret (0, PatchUnLock c).

Definition update_patch (patch p : TASK_PATCH_DATA) : TASK_PATCH_DATA :=
  {| btPatchFlag := btPatchFlag p; p_name := p_name patch; p_torrentname := p_torrentname p; kbnumber := kbnumber p;
     p_resource := {| ftpsrv := ftpsrv (p_resource patch); user := user (p_resource patch); pass := pass (p_resource patch) |};
     p_path := p_path patch; p_size := p_size patch; p_speed := p_speed patch; status := status patch; p_desc := p_desc patch |}.

Definition AddPatch (c : CTaskPatch) (patch : TASK_PATCH_DATA) : cpp (Z * CTaskPatch) :=
  c ← PatchLock c;
  match FindPatch c (kbnumber patch) with
  | Some i => Ret (1, PatchUnLock (set_patches (alter (update_patch patch) i (m_PatchList c)) c))
  | None => let '(n, c) := InsertPatch c patch in Ret (n, PatchUnLock c)
  end.

(** ** The patches as a map from KB numbers *)

Implicit Types (l : list TASK_PATCH_DATA) (x : TASK_PATCH_DATA) (m : gmap (list Z) TASK_PATCH_DATA).

Definition kbs l : list (list Z) := kbnumber <$> l.
Definition as_map l : gmap (list Z) TASK_PATCH_DATA := list_to_map ((fun x => (kbnumber x, x)) <$> l).

Lemma as_map_lookup l k x : NoDup (kbs l) -> as_map l !! k = Some x <-> x ∈ l /\ kbnumber x = k.
Proof.
  intros Hn. unfold as_map. rewrite <- elem_of_list_to_map.
  - rewrite list_elem_of_fmap. split; [intros (y & E & Hy); injection E as -> <-; done|intros [Hx <-]; eauto].
  - rewrite <- list_fmap_compose. exact Hn.
Qed.

Lemma as_map_absent l k : NoDup (kbs l) -> as_map l !! k = None <-> k ∉ kbs l.
Proof.
  intros Hn. unfold as_map. rewrite <- not_elem_of_list_to_map, <- list_fmap_compose. done.
Qed.

Lemma as_map_fmap (f : TASK_PATCH_DATA -> TASK_PATCH_DATA) l : (forall x, kbnumber (f x) = kbnumber x) ->
  kbs (f <$> l) = kbs l /\ as_map (f <$> l) = f <$> as_map l.
Proof.
  intros Hf. split.
  - unfold kbs. rewrite <- list_fmap_compose. apply list_fmap_ext. intros i x _. apply Hf.
  - unfold as_map. rewrite <- list_to_map_fmap, <- !list_fmap_compose. f_equal. apply list_fmap_ext. intros i x _.
    cbn. by rewrite Hf.
Qed.

Lemma find_patch_spec kb l : NoDup (kbs l) ->
  match find_patch kb l with
  | Some i => exists x, l !! i = Some x /\ as_map l !! text_of kb = Some x
  | None => as_map l !! text_of kb = None
  end.
Proof.
  intros Hn. unfold find_patch, position. destruct (list_find _ l) as [[i x]|] eqn:E; cbn.
  - apply list_find_Some in E as (Hx & Hk & _). exists x. split; [done|]. apply as_map_lookup; [done|].
    split; [by eapply list_elem_of_lookup_2|done].
  - apply list_find_None in E. apply as_map_absent; [done|]. intros Hin. apply list_elem_of_fmap in Hin as (x & Hx & Hi).
    rewrite Forall_forall in E. by apply (E x Hi).
Qed.

Lemma alter_patch f l i x : (forall x, kbnumber (f x) = kbnumber x) -> NoDup (kbs l) -> l !! i = Some x ->
  kbs (alter f i l) = kbs l /\ as_map (alter f i l) = <[kbnumber x := f x]> (as_map l).
Proof.
  intros Hf Hn Hx. assert (Ek : kbs (alter f i l) = kbs l).
  { unfold kbs. apply list_eq. intros j. rewrite !list_lookup_fmap. destruct (decide (i = j)) as [<-|Hj].
    - rewrite list_lookup_alter_eq, Hx. cbn. by rewrite Hf.
    - by rewrite list_lookup_alter_ne. }
  split; [done|]. apply map_eq. intros k. apply option_eq. intros y. rewrite as_map_lookup by by rewrite Ek.
  destruct (decide (kbnumber x = k)) as [<-|Hk].
  - rewrite lookup_insert_eq. split.
    + intros [Hy E]. apply list_elem_of_lookup in Hy as [j Hj].
      assert (j = i) as ->; [|rewrite list_lookup_alter_eq, Hx in Hj; done].
      rewrite <- Ek in Hn. apply (NoDup_lookup _ _ _ (kbnumber y) Hn); unfold kbs; rewrite list_lookup_fmap; [by rewrite Hj|].
      rewrite list_lookup_alter_eq, Hx. cbn. by rewrite Hf, E.
    + intros E. injection E as <-. split; [|apply Hf]. apply (list_elem_of_lookup_2 _ i). by rewrite list_lookup_alter_eq, Hx.
  - rewrite lookup_insert_ne, as_map_lookup by done. split; intros [Hy E]; (split; [|done]); apply list_elem_of_lookup in Hy as [j Hj].
    + destruct (decide (i = j)) as [<-|Hij].
      * rewrite list_lookup_alter_eq, Hx in Hj. injection Hj as <-. by rewrite Hf in E.
      * rewrite list_lookup_alter_ne in Hj by done. by eapply list_elem_of_lookup_2.
    + apply (list_elem_of_lookup_2 _ j). rewrite list_lookup_alter_ne; [done|]. intros <-. congruence.
Qed.

Lemma mark_patch_map n l kb : NoDup (kbs l) ->
  kbs (mark_patch n l kb) = kbs l /\ as_map (mark_patch n l kb) = alter (set_status n) (text_of kb) (as_map l).
Proof.
  intros Hn. unfold mark_patch. pose proof (find_patch_spec kb l Hn) as H. destruct (find_patch kb l) as [i|].
  - destruct H as (x & Hx & E). destruct (alter_patch (set_status n) l i x) as [E1 E2]; [done..|]. split; [done|].
    rewrite E2. apply as_map_lookup in E as E'; [|done]. destruct E' as [_ Ek]. rewrite Ek. apply map_eq. intros k.
    destruct (decide (text_of kb = k)) as [<-|Hk]; [by rewrite lookup_insert_eq, lookup_alter_eq, E|].
    by rewrite lookup_insert_ne, lookup_alter_ne.
  - split; [done|]. apply map_eq. intros k. destruct (decide (text_of kb = k)) as [<-|Hk]; [by rewrite lookup_alter_eq, H|].
    by rewrite lookup_alter_ne.
Qed.

(** The patches of the numbers [ks] get the status [n]. *)
Definition marked (n : Z) (ks : list (list Z)) (m : gmap (list Z) TASK_PATCH_DATA) : gmap (list Z) TASK_PATCH_DATA :=
  map_imap (fun k x => Some (if bool_decide (k ∈ text_of <$> ks) then set_status n x else x)) m.

Lemma lookup_marked n ks m k :
  marked n ks m !! k = (fun x => if bool_decide (k ∈ text_of <$> ks) then set_status n x else x) <$> m !! k.
Proof. unfold marked. rewrite map_lookup_imap. by destruct (m !! k). Qed.

Lemma mark_all n ks : forall l, NoDup (kbs l) ->
  kbs (foldl (mark_patch n) l ks) = kbs l /\ as_map (foldl (mark_patch n) l ks) = marked n ks (as_map l).
Proof.
  induction ks as [|kb ks IH]; intros l Hn; cbn [foldl].
  - split; [done|]. apply map_eq. intros k. rewrite lookup_marked. by destruct (as_map l !! k).
  - destruct (mark_patch_map n l kb Hn) as [E1 E2]. destruct (IH (mark_patch n l kb)) as [E3 E4]; [by rewrite E1|].
    split; [by rewrite E3|]. rewrite E4, E2. apply map_eq. intros k. rewrite !lookup_marked. cbn [fmap list_fmap].
    destruct (decide (text_of kb = k)) as [<-|Hk].
    + rewrite lookup_alter_eq. destruct (as_map l !! text_of kb) as [x|]; [|done]. cbn.
      rewrite (bool_decide_eq_true_2 (_ ∈ _ :: _)) by by left. by case_bool_decide.
    + rewrite lookup_alter_ne by done. destruct (as_map l !! k) as [x|]; [|done]. cbn.
      assert (E : k ∈ text_of <$> ks <-> k ∈ text_of kb :: (text_of <$> ks)) by (split; [by right|by intros [?|?]%elem_of_cons]).
      by rewrite (bool_decide_ext _ _ E).
Qed.

(** The loop from the end removes what is marked. *)
Lemma remove_marked_filter n l : (n <= length l)%nat ->
  remove_marked n l = filter (fun x => status x <> 2) (take n l) ++ drop n l.
Proof.
  revert l. induction n as [|i IH]; intros l Hl; [done|]. cbn [remove_marked].
  destruct (lookup_lt_is_Some_2 l i) as [x Hx]; [lia|]. rewrite Hx.
  rewrite (take_S_r _ _ _ Hx), filter_app, filter_cons, filter_nil. destruct (Z.eqb_spec (status x) 2) as [E|E].
  - rewrite IH by (rewrite length_delete by eauto; lia). rewrite decide_False by (intros H; by apply H). rewrite app_nil_r.
    rewrite delete_take_drop. rewrite take_app_le, take_take by (rewrite length_take; lia). rewrite Nat.min_id.
    f_equal. by rewrite drop_app_length' by (rewrite length_take; lia).
  - rewrite IH by lia. rewrite decide_True by done. rewrite <- app_assoc. f_equal. by apply drop_S.
Qed.

Lemma kbs_filter (P : TASK_PATCH_DATA -> Prop) `{forall x, Decision (P x)} l : NoDup (kbs l) -> NoDup (kbs (filter P l)).
Proof.
  unfold kbs. induction l as [|x l IH]; [done|]. rewrite filter_cons. cbn [fmap list_fmap]. intros [Hx Hn]%NoDup_cons.
  case_decide; [|auto]. cbn [fmap list_fmap]. apply NoDup_cons. split; [|auto]. intros Hin. apply Hx.
  apply list_elem_of_fmap in Hin as (y & -> & Hy). apply list_elem_of_filter in Hy as [_ Hy]. by apply list_elem_of_fmap_2.
Qed.

Lemma as_map_filter (P : TASK_PATCH_DATA -> Prop) `{forall x, Decision (P x)} l : NoDup (kbs l) ->
  as_map (filter P l) = filter (fun kv => P kv.2) (as_map l).
Proof.
  intros Hn. apply map_eq. intros k. apply option_eq. intros x.
  rewrite as_map_lookup, list_elem_of_filter by by apply kbs_filter. rewrite map_lookup_filter_Some, as_map_lookup by done.
  cbn. tauto.
Qed.

Lemma as_map_size l : NoDup (kbs l) -> size (as_map l) = length l.
Proof.
  intros Hn. unfold as_map. rewrite map_size_list_to_map; [by rewrite length_fmap|].
  rewrite <- list_fmap_compose. exact Hn.
Qed.

(** ** Histories of a patch store *)

Inductive patch_op :=
| CallAddPatch (x : TASK_PATCH_DATA)
| CallDeletePatch (ks : list (list Z))
| CallCheckHotFix (ks : list (list Z))
| CallClear
| CallCheckNoUse
| CallGetNoUse.

(** The result of a call and the numbers it lists. *)
Definition patch_answer : Type := Z * gset (list Z).

Definition run_patch_op (o : patch_op) (c : CTaskPatch) : cpp (patch_answer * CTaskPatch) :=
  match o with
  | CallAddPatch x => '(n, c) ← AddPatch c x; Ret ((n, ∅), c)
  | CallDeletePatch ks => '(n, c) ← DeletePatch c ks; Ret ((n, ∅), c)
  | CallCheckHotFix ks => '(n, c) ← CheckHotFix c ks; Ret ((n, ∅), c)
  | CallClear => c ← Clear c; Ret ((0, ∅), c)
  | CallCheckNoUse => let '(n, c) := CheckNoUse c in Ret ((n, ∅), c)
  | CallGetNoUse => let '(n, c, ks) := GetNoUse c [] in Ret ((n, list_to_set ks), c)
  end.

Fixpoint run_patches (os : list patch_op) (c : CTaskPatch) : cpp (list patch_answer * CTaskPatch) :=
  match os with
  | [] => Ret ([], c)
  | o :: r => '(a, c) ← run_patch_op o c; '(l, c) ← run_patches r c; Ret (a :: l, c)
  end.

Definition unused m : gmap (list Z) TASK_PATCH_DATA := filter (fun kv => status kv.2 = 0) m.

Definition spec_patch_op (o : patch_op) m : patch_answer * gmap (list Z) TASK_PATCH_DATA :=
  match o with
  | CallAddPatch x =>
      match m !! kbnumber x with
      | Some p => ((1, ∅), <[kbnumber x := update_patch x p]> m)
      | None => ((0, ∅), <[kbnumber x := x]> m)
      end
  | CallDeletePatch ks => ((0, ∅), filter (fun kv => status kv.2 <> 2) (marked 2 ks m))
  | CallCheckHotFix ks => ((0, ∅), marked 1 ks (reset_status <$> m))
  | CallClear => ((0, ∅), ∅)
  | CallCheckNoUse => ((Z.of_nat (size (unused m)), ∅), m)
  | CallGetNoUse => ((Z.of_nat (size (unused m)), dom (unused m)), m)
  end.

Fixpoint spec_patches (os : list patch_op) m : list patch_answer * gmap (list Z) TASK_PATCH_DATA :=
  match os with
  | [] => ([], m)
  | o :: r => let '(a, m) := spec_patch_op o m in let '(l, m) := spec_patches r m in (a :: l, m)
  end.

(** An added number has no terminator inside. *)
Definition patch_op_ok (o : patch_op) : Prop :=
  match o with CallAddPatch x => text_of (kbnumber x) = kbnumber x | _ => True end.

(** The list holds the map [m], one patch for a number, and is not locked. *)
Definition stores (c : CTaskPatch) m : Prop := NoDup (kbs (m_PatchList c)) /\ as_map (m_PatchList c) = m /\ m_bPatchLock c = false.

Lemma unused_list l : NoDup (kbs l) -> unused (as_map l) = as_map (filter (fun x => status x = 0) l).
Proof. intros Hn. symmetry. exact (as_map_filter _ _ Hn). Qed.

Lemma as_map_dom l : dom (as_map l) = list_to_set (kbs l).
Proof. unfold as_map. by rewrite dom_list_to_map_L, <- list_fmap_compose. Qed.

Lemma patch_op_refines o c m : patch_op_ok o -> stores c m ->
  exists c', run_patch_op o c = Ret ((spec_patch_op o m).1, c') /\ stores c' (spec_patch_op o m).2.
Proof.
  intros Ho (Hn & <- & Hl). destruct o as [x|ks|ks| | |]; cbn [run_patch_op spec_patch_op patch_op_ok fst snd] in *.
  - unfold AddPatch, PatchLock. rewrite Hl. cbn [wait_flag]. rewrite !bind_ret_l. unfold FindPatch. cbn [m_PatchList set_patch_lock].
    pose proof (find_patch_spec (kbnumber x) (m_PatchList c) Hn) as H. rewrite Ho in H.
    destruct (find_patch (kbnumber x) (m_PatchList c)) as [i|].
    + destruct H as (p & Hp & E). rewrite E. rewrite bind_ret_l. eexists. split; [reflexivity|]. unfold stores; cbn [m_PatchList m_bPatchLock set_patches PatchUnLock set_patch_lock].
      destruct (alter_patch (update_patch x) (m_PatchList c) i p) as [E1 E2]; [done..|]. rewrite E1, E2.
      apply as_map_lookup in E as [_ Ek]; [|done]. by rewrite Ek.
    + rewrite H. cbn. eexists. split; [reflexivity|]. unfold stores; cbn [m_PatchList m_bPatchLock set_patches PatchUnLock set_patch_lock]. apply as_map_absent in H; [|done].
      assert (Hn' : NoDup (kbs (m_PatchList c ++ [x]))).
      { unfold kbs. rewrite fmap_app. apply NoDup_app. split; [done|]. split; [|apply NoDup_singleton].
        intros k Hk Hin. apply list_elem_of_singleton in Hin as ->. done. }
      split; [done|]. split; [|done]. apply map_eq. intros k. apply option_eq. intros y. rewrite as_map_lookup by done.
      rewrite elem_of_app, list_elem_of_singleton. destruct (decide (kbnumber x = k)) as [<-|Hk].
      * rewrite lookup_insert_eq. split; [|intros E; injection E as ->; auto]. intros [[Hy| ->] E]; [|done].
        exfalso. apply H. rewrite <- E. by apply list_elem_of_fmap_2.
      * rewrite lookup_insert_ne, as_map_lookup by done. split; [|intros [Hy E]; auto]. by intros [[Hy| ->] E].
  - unfold DeletePatch, PatchLock. rewrite Hl. cbn [wait_flag]. rewrite !bind_ret_l. cbn [RemoveDelPatch m_PatchList set_patches set_patch_lock].
    rewrite bind_ret_l. eexists. split; [reflexivity|]. unfold stores; cbn [m_PatchList m_bPatchLock set_patches PatchUnLock set_patch_lock].
    destruct (mark_all 2 ks (m_PatchList c) Hn) as [E1 E2]. rewrite remove_marked_filter by done.
    rewrite firstn_all, drop_all, app_nil_r. rewrite <- E2.
    split; [apply kbs_filter; by rewrite E1|]. split; [apply as_map_filter; by rewrite E1|done].
  - unfold CheckHotFix, PatchLock. rewrite Hl. cbn [wait_flag]. rewrite !bind_ret_l. cbn [CheckHotFixNoLock].
    rewrite bind_ret_l. eexists. split; [reflexivity|]. unfold stores; cbn [m_PatchList m_bPatchLock set_patches PatchUnLock set_patch_lock].
    destruct (as_map_fmap reset_status (m_PatchList c)) as [E1 E2]; [intros x; unfold reset_status; by destruct (status x <? 0)|].
    destruct (mark_all 1 ks (reset_status <$> m_PatchList c)) as [E3 E4]; [by rewrite E1|]. by rewrite E3, E4, E1, E2.
  - unfold Clear, PatchLock. rewrite Hl. cbn. eexists. split; [reflexivity|]. split; [constructor|done].
  - unfold CheckNoUse. rewrite unused_list, as_map_size by (done || by apply kbs_filter).
    eexists. split; [reflexivity|by split].
  - unfold GetNoUse. rewrite unused_list, as_map_size, as_map_dom by (done || by apply kbs_filter).
    eexists. split; [reflexivity|by split].
Qed.

Lemma patches_refine os : forall c m, Forall patch_op_ok os -> stores c m ->
  exists c', run_patches os c = Ret ((spec_patches os m).1, c') /\ stores c' (spec_patches os m).2.
Proof.
  induction os as [|o os IH]; intros c m Ho Hs; cbn [run_patches spec_patches]; [by exists c|].
  apply Forall_cons in Ho as [Ho Hos]. destruct (patch_op_refines o c m Ho Hs) as (c1 & E1 & S1). rewrite E1, bind_ret_l.
  destruct (spec_patch_op o m) as [a m1]. cbn [fst snd] in *. destruct (IH c1 m1 Hos S1) as (c2 & E2 & S2). rewrite E2, bind_ret_l.
  destruct (spec_patches os m1) as [r m2]. by exists c2.
Qed.

(** C28: through any history of calls a patch store answers and holds what a map from KB numbers to patches would: it keeps
    one patch for a number, [AddPatch] inserts it or updates the one that is there, [DeletePatch] removes the named ones,
    [CheckHotFix] marks the installed ones, the counts and lists are those of the patches that are not installed, and
    every call releases the lock. *)
Theorem patch_store_refinement (os : list patch_op) (junk : Z) : Forall patch_op_ok os ->
  exists c, run_patches os (new_CTaskPatch junk) = Ret ((spec_patches os ∅).1, c) /\
    NoDup (kbs (m_PatchList c)) /\ as_map (m_PatchList c) = (spec_patches os ∅).2 /\ m_bPatchLock c = false.
Proof.
  intros Ho. apply patches_refine; [done|]. split; [constructor|done].
Qed.

Definition demo_patch (kb : string) (st : Z) : TASK_PATCH_DATA :=
  {| btPatchFlag := false; p_name := codes "patch"; p_torrentname := []; kbnumber := codes kb;
     p_resource := {| ftpsrv := []; user := []; pass := [] |}; p_path := []; p_size := 1; p_speed := 0; status := st; p_desc := [] |}.

Definition demo_ops : list patch_op :=
  [CallAddPatch (demo_patch "KB1" (-1)); CallAddPatch (demo_patch "KB2" (-1)); CallAddPatch (demo_patch "KB3" (-1));
   CallCheckHotFix [codes "KB2"]; CallGetNoUse; CallAddPatch (demo_patch "KB2" 0); CallDeletePatch [codes "KB1"]; CallCheckNoUse].

Lemma patch_store_refinement_witness : exists c, run_patches demo_ops (new_CTaskPatch 5) = Ret ((spec_patches demo_ops ∅).1, c) /\
  (spec_patches demo_ops ∅).1.*1 = [0; 0; 0; 0; 2; 1; 0; 2] /\
  NoDup (kbs (m_PatchList c)) /\ as_map (m_PatchList c) = (spec_patches demo_ops ∅).2 /\ m_bPatchLock c = false.
Proof.
  destruct (patch_store_refinement demo_ops 5) as (c & E & Hc).
  - repeat (apply Forall_cons; split); try apply Forall_nil; done.
  - exists c. split; [exact E|]. split; [by vm_compute|exact Hc].
Defined.
