(* ===== verification/TaskLock.v ===== *)
(** * The lock flag of the task list between threads (src/public/astTask/astTask.cpp)

    [CTaskList::Lock] tests the flag [m_bLock] and then sets it.  A thread is
    between the reads and writes of the flag; a step of the system is the next
    access of one thread, in any order the scheduler likes. *)
From stdpp Require Import relations list.
From S2P Require Import Prelude TaskHead TaskList.

(** Where a thread is in [Lock(timeouts)] and [UnLock()]. *)
Inductive thread :=
| Outside
| Testing (i : nat)
| Setting
| Holding
| Refused.

#[global] Instance thread_eq_dec : EqDecision thread.
Proof. solve_decision. Defined.

(** The next access of a thread: the test of round [i] of the loop, the
    assignment after a test that saw the flag clear, the return of 1 after
    [timeouts] rounds, or [UnLock].  With [timeouts] zero the test is repeated
    without end. *)
Definition lock_step (timeouts : nat) (s : thread) (m_bLock : bool) : thread * bool :=
  match s with
  | Outside => (Testing 0, m_bLock)
  | Testing i =>
      if decide (timeouts = 0)%nat then (if m_bLock then (Testing i, m_bLock) else (Setting, m_bLock))
      else if decide (i < timeouts)%nat then (if m_bLock then (Testing (S i), m_bLock) else (Setting, m_bLock))
      else (Refused, m_bLock)
  | Setting => (Holding, true)
  | Holding => (Outside, false)
  | Refused => (Outside, m_bLock)
  end.

Record system := { flag : bool; threads : list thread }.

(** Thread [t] makes its next access. *)
Inductive step (timeouts : nat) : nat -> system -> system -> Prop :=
| step_thread t m ts s s' m' : ts !! t = Some s -> lock_step timeouts s m = (s', m') ->
    step timeouts t {| flag := m; threads := ts |} {| flag := m'; threads := <[t := s']> ts |}.

Definition any_step (timeouts : nat) (a b : system) : Prop := exists t, step timeouts t a b.

(** A thread that has seen the flag clear is not interrupted before it sets it. *)
Definition atomic_step (timeouts : nat) (a b : system) : Prop :=
  exists t, step timeouts t a b /\ forall u, threads a !! u = Some Setting -> u = t.

Definition all_outside (n : nat) : system := {| flag := false; threads := replicate n Outside |}.

(** The executions of a schedule. *)
Fixpoint run_schedule (timeouts : nat) (sched : list nat) (m : bool) (ts : list thread) : bool * list thread :=
  match sched with
  | [] => (m, ts)
  | t :: r =>
      match ts !! t with
      | Some s => let '(s', m') := lock_step timeouts s m in run_schedule timeouts r m' (<[t := s']> ts)
      | None => run_schedule timeouts r m ts
      end
  end.

Lemma run_schedule_steps timeouts sched : forall m ts,
  rtc (any_step timeouts) {| flag := m; threads := ts |}
    {| flag := (run_schedule timeouts sched m ts).1; threads := (run_schedule timeouts sched m ts).2 |}.
Proof.
  induction sched as [|t r IH]; intros m ts; cbn [run_schedule]; [done|]. destruct (ts !! t) as [s|] eqn:Es; [|done].
  destruct (lock_step timeouts s m) as [s' m'] eqn:El. eapply rtc_l; [|apply IH]. exists t. by econstructor.
Qed.

Definition one_holder (a : system) : Prop :=
  forall t u, threads a !! t = Some Holding -> threads a !! u = Some Holding -> t = u.

(** What excludes: only the thread that sets or holds, and the flag is set
    exactly when a thread holds. *)
Definition exclusive (a : system) : Prop :=
  one_holder a /\
  (forall t u, threads a !! t = Some Holding -> threads a !! u = Some Setting -> False) /\
  (forall t u, threads a !! t = Some Setting -> threads a !! u = Some Setting -> t = u) /\
  (flag a = true <-> exists t, threads a !! t = Some Holding).

Lemma atomic_exclusive timeouts a b : atomic_step timeouts a b -> exclusive a -> exclusive b.
Proof.
  intros (t & Hs & Ha) (E1 & E2 & E3 & E4). unfold exclusive. destruct Hs as [t m ts s s' m' Es El]. unfold one_holder in *. cbn [threads flag] in *.
  assert (Hl : forall u r, <[t := s']> ts !! u = Some r -> (u = t /\ r = s') \/ (u <> t /\ ts !! u = Some r)).
  { intros u r Hu. destruct (decide (u = t)) as [->|Hn].
    - rewrite list_lookup_insert_eq in Hu by by eapply lookup_lt_Some. injection Hu as <-. auto.
    - rewrite list_lookup_insert_ne in Hu by done. auto. }
  assert (Ht : <[t := s']> ts !! t = Some s') by (apply list_lookup_insert_eq; by eapply lookup_lt_Some).
  assert (Hk : forall u, u <> t -> <[t := s']> ts !! u = ts !! u) by (intros u Hu; by rewrite list_lookup_insert_ne).
  assert (Hm : (m' = true <-> exists u, <[t := s']> ts !! u = Some Holding) /\
    (s' = Holding -> forall u, u <> t -> ts !! u <> Some Holding /\ ts !! u <> Some Setting) /\
    (s' = Setting -> forall u, u <> t -> ts !! u <> Some Holding /\ ts !! u <> Some Setting)).
  { assert (Hout : s <> Holding -> s' <> Holding -> m' = m -> m' = true <-> exists u, <[t := s']> ts !! u = Some Holding).
    { intros N1 N2 ->. rewrite E4. split; intros [u Hu].
      - exists u. rewrite Hk; [done|]. intros ->. congruence.
      - destruct (Hl u Holding Hu) as [[-> ?]|[? ?]]; [congruence|]. eauto. }
    destruct s as [|i| | |]; cbn in El.
    - injection El as <- <-. split; [by apply Hout|done].
    - destruct (decide (timeouts = 0)%nat), (decide (i < timeouts)%nat), m; injection El as <- <-; (split; [by apply Hout|]); (split; [done|]); try done;
      intros _ u Hu; (split; [intros Hh; by assert (false = true) by (apply E4; eauto)|intros Hh; by apply Hu, Ha]).
    - injection El as <- <-. split; [split; [eauto|done]|]. split; [|done]. intros _ u Hu. split; [intros Hh; by eapply E2|].
      intros Hh. by apply Hu, Ha.
    - injection El as <- <-. split; [|done]. split; [done|]. intros [u Hu].
      destruct (Hl u Holding Hu) as [[_ ?]|[Hn Hh]]; [done|]. exfalso. by apply Hn, (E1 u t).
    - injection El as <- <-. split; [by apply Hout|done]. }
  destruct Hm as (Hm & Hh & Hs). split; [|split; [|split; [|exact Hm]]]; intros u w Hu Hw;
    destruct (Hl u _ Hu) as [[-> Ru]|[Nu Ru]], (Hl w _ Hw) as [[-> Rw]|[Nw Rw]]; try done; try congruence; eauto.
  all: first [by destruct (Hh (eq_sym Ru) w Nw)|by destruct (Hh (eq_sym Rw) u Nu)|by destruct (Hs (eq_sym Ru) w Nw)
             |by destruct (Hs (eq_sym Rw) u Nu)].
Qed.

Lemma start_exclusive n : exclusive (all_outside n).
Proof.
  assert (Hn : forall u s, replicate n Outside !! u = Some s -> s = Outside) by (intros u s Hu; by apply lookup_replicate in Hu as [-> _]).
  unfold exclusive, one_holder, all_outside. cbn [flag threads]. split; [|split; [|split]].
  - intros t u Hu. by apply Hn in Hu.
  - intros t u Hu. by apply Hn in Hu.
  - intros t u Hu. by apply Hn in Hu.
  - split; [done|]. intros [t Ht]. by apply Hn in Ht.
Qed.

(** C26: as long as no thread is interrupted between the test that finds the lock flag clear and the assignment that sets
    it, two threads are never both past [Lock], whatever the order of their other steps, and the flag is set exactly
    while a thread is. *)
Theorem lock_excludes_uninterrupted (timeouts n : nat) a : rtc (atomic_step timeouts) (all_outside n) a ->
  one_holder a /\ (flag a = true <-> exists t, threads a !! t = Some Holding).
Proof.
  intros Hr. assert (He : exclusive a); [|destruct He as (E1 & _ & _ & E4); done].
  pose proof (start_exclusive n) as Hs. induction Hr as [|a b c Hab Hbc IH]; [done|]. apply IH. by eapply atomic_exclusive.
Qed.

(** In general the lock does not exclude: with any number of rounds, two threads that both test the clear flag before
    either sets it are both past [Lock], and the first [UnLock] clears the flag while the other thread still holds. *)
Theorem lock_does_not_exclude (timeouts : nat) :
  exists a b, rtc (any_step timeouts) (all_outside 2) a /\ threads a = [Holding; Holding] /\ any_step timeouts a b /\ flag b = false /\ threads b !! 1%nat = Some Holding.
Proof.
  assert (E : forall m ts, run_schedule timeouts [0; 1; 0; 1; 0; 1]%nat false [Outside; Outside] = (m, ts) ->
    rtc (any_step timeouts) (all_outside 2) {| flag := m; threads := ts |}).
  { intros m ts E. pose proof (run_schedule_steps timeouts [0; 1; 0; 1; 0; 1]%nat false [Outside; Outside]) as Hr. by rewrite E in Hr. }
  exists {| flag := true; threads := [Holding; Holding] |}, {| flag := false; threads := [Outside; Holding] |}.
  split; [|split; [done|split; [|done]]].
  - apply E. cbn. destruct (decide (timeouts = 0)%nat); [done|]. by rewrite !decide_True by lia.
  - exists 0%nat. by apply (step_thread timeouts 0 true [Holding; Holding] Holding Outside false).
Qed.

(** ** A call of Lock ends *)

Definition returned (s : thread) : Prop := s = Holding \/ s = Refused.

(** The own steps a thread still needs before [Lock] returns. *)
Definition needs (timeouts : nat) (s : thread) : nat :=
  match s with Outside => timeouts + 2 | Testing i => S (timeouts - i) | Setting => 1 | _ => 0 end.

Lemma needs_step timeouts s m : (0 < timeouts)%nat -> ~ returned s -> (needs timeouts (lock_step timeouts s m).1 < needs timeouts s)%nat.
Proof.
  intros Ht Hr. destruct s as [|i| | |]; cbn; [lia| |lia|exfalso; apply Hr; by left|exfalso; apply Hr; by right].
  rewrite decide_False by lia. destruct (decide (i < timeouts)%nat); [destruct m|]; cbn; lia.
Qed.

#[global] Instance returned_dec s : Decision (returned s).
Proof. unfold returned. apply _. Defined.

Lemma needs_zero timeouts s : needs timeouts s = 0%nat -> returned s.
Proof. unfold returned. destruct s; cbn; auto; lia. Qed.

(** C27: a call of [Lock] ends: under every schedule, whatever the other threads do to the flag in between, a thread inside
    [Lock(timeouts)], [timeouts] not zero, has returned from it, with the lock or with 1, by its own step number [timeouts + 2]. *)
Theorem lock_call_ends (timeouts : nat) (sched : list nat) (t : nat) (m : bool) (ts : list thread) s :
  (0 < timeouts)%nat -> ts !! t = Some s -> (needs timeouts s <= length (filter (eq t) sched))%nat ->
  exists p q s', sched = p ++ q /\ (run_schedule timeouts p m ts).2 !! t = Some s' /\ returned s' /\
    (length (filter (eq t) p) <= timeouts + 2)%nat.
Proof.
  intros Ht Hs Hn.
  cut (exists p q s', sched = p ++ q /\ (run_schedule timeouts p m ts).2 !! t = Some s' /\ returned s' /\
    (length (filter (eq t) p) <= needs timeouts s)%nat).
  { intros (p & q & s' & E & E1 & E2 & E3). exists p, q, s'. split; [done|]. split; [done|]. split; [done|].
    assert (needs timeouts s <= timeouts + 2)%nat by (destruct s; cbn; lia). lia. }
  revert m ts s Hs Hn. induction sched as [|u r IH]; intros m ts s Hs Hn.
  - exists [], [], s. split; [done|]. split; [done|]. split; [|cbn; lia]. apply (needs_zero timeouts). cbn in Hn. lia.
  - destruct (decide (returned s)) as [Hr|Hr].
    { exists [], (u :: r), s. split; [done|]. split; [done|]. split; [done|cbn; lia]. }
    destruct (ts !! u) as [s1|] eqn:Eu.
    + destruct (lock_step timeouts s1 m) as [s2 m2] eqn:El. rewrite filter_cons in Hn. destruct (decide (t = u)) as [<-|Hu].
      * rewrite Hs in Eu. injection Eu as <-. pose proof (needs_step timeouts s m Ht Hr) as Hlt. rewrite El in Hlt. cbn [fst] in Hlt.
        destruct (IH m2 (<[t := s2]> ts) s2) as (p & q & s' & -> & E & Hr' & Hc).
        { apply list_lookup_insert_eq. by eapply lookup_lt_Some. } { cbn [length] in Hn. lia. }
        exists (t :: p), q, s'. split; [done|]. cbn [run_schedule]. rewrite Hs, El. split; [done|]. split; [done|].
        rewrite filter_cons, decide_True by done. cbn [length]. lia.
      * destruct (IH m2 (<[u := s2]> ts) s) as (p & q & s' & -> & E & Hr' & Hc); [by rewrite list_lookup_insert_ne|done|].
        exists (u :: p), q, s'. split; [done|]. cbn [run_schedule]. rewrite Eu, El. split; [done|]. split; [done|].
        by rewrite filter_cons, decide_False.
    + rewrite filter_cons, decide_False in Hn by (intros ->; congruence).
      destruct (IH m ts s Hs Hn) as (p & q & s' & -> & E & Hr' & Hc). exists (u :: p), q, s'. split; [done|].
      cbn [run_schedule]. rewrite Eu. split; [done|]. split; [done|]. rewrite filter_cons, decide_False; [done|intros ->; congruence].
Qed.

(** ** Witnesses *)

Lemma lock_excludes_uninterrupted_witness :
  let a := {| flag := true; threads := [Testing 1; Holding] |} in
  rtc (atomic_step 60) (all_outside 2) a /\ one_holder a /\ (flag a = true <-> exists t, threads a !! t = Some Holding).
Proof.
  cbn zeta. split; [|apply (lock_excludes_uninterrupted 60 2)].
  all: eapply (rtc_l _ _ {| flag := false; threads := [Outside; Testing 0] |});
    [exists 1%nat; split; [by apply (step_thread 60 1 false [Outside; Outside] Outside)|by intros [|[|u]] Hu]|].
  all: eapply (rtc_l _ _ {| flag := false; threads := [Outside; Setting] |});
    [exists 1%nat; split; [by apply (step_thread 60 1 false [Outside; Testing 0] (Testing 0))|by intros [|[|u]] Hu]|].
  all: eapply (rtc_l _ _ {| flag := true; threads := [Outside; Holding] |});
    [exists 1%nat; split; [by apply (step_thread 60 1 false [Outside; Setting] Setting)|by intros [|[|u]] Hu]|].
  all: eapply (rtc_l _ _ {| flag := true; threads := [Testing 0; Holding] |});
    [exists 0%nat; split; [by apply (step_thread 60 0 true [Outside; Holding] Outside)|by intros [|[|u]] Hu]|].
  all: eapply (rtc_l _ _ {| flag := true; threads := [Testing 1; Holding] |});
    [exists 0%nat; split; [by apply (step_thread 60 0 true [Testing 0; Holding] (Testing 0))|by intros [|[|u]] Hu]|apply rtc_refl].
Defined.


Lemma lock_call_ends_witness : exists p q s', [0; 1; 0; 1; 1; 0; 0; 0]%nat = p ++ q /\
  (run_schedule 2 p true [Outside; Holding]).2 !! 0%nat = Some s' /\ returned s' /\
  (length (filter (eq 0%nat) p) <= 2 + 2)%nat.
Proof. apply (lock_call_ends 2 [0; 1; 0; 1; 1; 0; 0; 0]%nat 0 true [Outside; Holding] Outside); [lia|done|vm_compute; lia]. Defined.
