(* ===== verification/Socket.v ===== *)
(** * Sockets (src/public/zsocket.h)

    [CSocket] wraps a file descriptor; [sendv] and [recvv] repeat the calls of
    the system until everything is transferred.  The system is not part of the
    program: [System] is the interface of its calls, [Connection] what a live
    connection promises, against which the theorems are proved. *)
From S2P Require Import Prelude Words Buffers CString.

(** ** The calls of the system

    An address is given as its text and its port.  A call returns its result, the [errno] it leaves when it fails, and the
    next state of the outside world. *)
Class System (W : Type) := {
  sys_socket : W -> Z * W;
  sys_dgram : W -> Z * W;
  sys_close : W -> Z -> Z * W;
  sys_bind : W -> Z -> list Z -> Z -> Z * W;
  sys_connect : W -> Z -> list Z -> Z -> Z * Z * W;
  sys_listen : W -> Z -> Z -> Z * W;
  sys_accept : W -> Z -> Z * Z * W;
  sys_setsockopt : W -> Z -> Z -> Z -> list Z -> Z * W;
  sys_getsockname : W -> Z -> Z * list Z * W;
  sys_send : W -> Z -> list Z -> Z * Z * W;
  sys_recv : W -> Z -> Z -> list Z * Z * Z * W;
  sys_select : W -> Z -> bool -> Z * Z -> Z * Z * W;
  sys_so_error : W -> Z -> Z * W;
  sys_getfl : W -> Z -> Z * W;
  sys_setfl : W -> Z -> Z -> Z * W
}.

(** The numbers Linux gives them. *)
Definition EINTR : Z := 4.
Definition EWOULDBLOCK : Z := 11.
Definition ETIME : Z := 62.
Definition ECONNABORTED : Z := 103.
Definition EINPROGRESS : Z := 115.
Definition O_NONBLOCK : Z := 2048.
Definition IPPROTO_TCP : Z := 6.
Definition TCP_NODELAY : Z := 1.
Definition SOL_SOCKET : Z := 1.
Definition SO_REUSEADDR : Z := 2.
Definition SO_RCVTIMEO : Z := 20.
Definition SO_SNDTIMEO : Z := 21.

Section socket.
Context {W : Type} `{!System W}.

(** The world and the [errno] of the thread. *)
Record os := { world : W; errno : Z }.

Definition set_errno (e : Z) (o : os) : os := {| world := world o; errno := e |}.
Definition set_world (w : W) (o : os) : os := {| world := w; errno := errno o |}.

(** A failed call leaves its [errno]. *)
Definition after (ret e : Z) (w : W) (o : os) : os := {| world := w; errno := if ret <? 0 then e else errno o |}.

(** [m_fd] is the state of the class. *)
Definition close (m_fd : Z) (o : os) : Z * Z * os :=
  if m_fd =? -1 then (0, m_fd, o) else let '(ret, w) := sys_close (world o) m_fd in (ret, -1, set_world w o).

Definition build_stream (o : os) : Z * os := let '(fd, w) := sys_socket (world o) in (fd, set_world w o).

Definition build_dgram (o : os) : Z * os := let '(fd, w) := sys_dgram (world o) in (fd, set_world w o).

(** [attach] and [detach] return the old descriptor, then the new one. *)
Definition attach (m_fd fd : Z) : Z * Z := (m_fd, fd).
Definition detach (m_fd : Z) : Z * Z := (m_fd, -1).

Definition listen (m_fd backlog : Z) (o : os) : Z * os :=
  let '(ret, w) := sys_listen (world o) m_fd backlog in (ret, set_world w o).

(** Options are the integers of the structure passed. *)
Definition setoption (m_fd level name : Z) (opt : list Z) (o : os) : Z * os :=
  let '(ret, w) := sys_setsockopt (world o) m_fd level name opt in (ret, set_world w o).
Definition setnodelay (m_fd : Z) (nodelay : bool) (o : os) : Z * os :=
  setoption m_fd IPPROTO_TCP TCP_NODELAY [if nodelay then 1 else 0] o.
Definition setreuseaddr (m_fd : Z) (reuse : bool) (o : os) : Z * os :=
  setoption m_fd SOL_SOCKET SO_REUSEADDR [if reuse then 1 else 0] o.
Definition setrecvtimeo (m_fd tmout_ms : Z) (o : os) : Z * os :=
  setoption m_fd SOL_SOCKET SO_RCVTIMEO [Z.quot tmout_ms 1000; Z.rem tmout_ms 1000 * 1000] o.
Definition setsendtimeo (m_fd tmout_ms : Z) (o : os) : Z * os :=
  setoption m_fd SOL_SOCKET SO_SNDTIMEO [Z.quot tmout_ms 1000; Z.rem tmout_ms 1000 * 1000] o.

Definition bind (m_fd : Z) (ip : list Z) (port : Z) (o : os) : Z * os :=
  let '(ret, w) := sys_bind (world o) m_fd ip port in (ret, set_world w o).

(** [send] and [recv] return [unsigned int], which is converted back. *)
Definition send (m_fd : Z) (b : list Z) (o : os) : Z * os :=
  let '(ret, e, w) := sys_send (world o) m_fd b in (s32 (u32 ret), after ret e w o).
Definition recv (m_fd len : Z) (o : os) : list Z * Z * os :=
  let '(bytes, ret, e, w) := sys_recv (world o) m_fd len in (bytes, s32 (u32 ret), after ret e w o).

(** [b] is 0, 1 or -1; the flag is compared with [b] as an [int]. *)
Definition setblocking (m_fd b : Z) (o : os) : Z * os :=
  let '(opts, w) := sys_getfl (world o) m_fd in
  let o := set_world w o in
  if opts <? 0 then (-1, o)
  else if b =? (if Z.land opts O_NONBLOCK =? 0 then 1 else 0) then (0, o)
  else
    let opts := if b =? 0 then Z.lor opts O_NONBLOCK else Z.lxor opts O_NONBLOCK in
    let '(ret, w) := sys_setfl (world o) m_fd opts in
    (if ret <? 0 then -1 else 0, set_world w o).

(** ** Timeouts *)

(** Seconds and the fraction of a [timeval]. *)
Definition timeval : Type := Z * Z.

(** [ts] starts at zero; the clock is not read. *)
Definition mk_final_time (timeout_ms : Z) : timeval :=
  let ts := (Z.quot timeout_ms 1000, Z.rem timeout_ms 1000 * 1000 * 1000) in
  if Z.quot ts.2 1000000000 =? 0 then ts else (ts.1 + Z.quot ts.2 1000000000, Z.rem ts.2 1000000000).

(** [while(usec<0) { --sec; usec+=1000000; }] *)
Fixpoint borrow (fuel : nat) (sec usec : Z) : cpp timeval :=
  if usec <? 0 then match fuel with O => NoFuel | S f => borrow f (sec - 1) (usec + 1000000) end else Ret (sec, usec).

(** [now] is zero. *)
Definition time_left (final : timeval) : cpp timeval :=
  '(sec, usec) ← borrow (Z.to_nat (Z.abs final.1)) final.1 (Z.quot final.1 1000);
  Ret (if sec <? 0 then (0, 0) else (sec, usec)).

Fixpoint select_loop (fuel : nat) (m_fd : Z) (final : timeval) (wait_write : bool) (o : os) : cpp (Z * os) :=
  match fuel with
  | O => NoFuel
  | S f =>
      tv ← time_left final;
      let '(ret, e, w) := sys_select (world o) m_fd wait_write tv in
      let o := after ret e w o in
      if (ret <? 0) && (errno o =? EINTR) then select_loop f m_fd final wait_write o
      else if 0 <? ret then
        let '(error, w) := sys_so_error (world o) m_fd in
        Ret (if error =? 0 then 0 else -1, {| world := w; errno := error |})
      else Ret (-1, if ret =? 0 then set_errno ETIME o else o)
  end.

Definition select_wait_to (fuel : nat) (m_fd : Z) (final : timeval) (wait_write : bool) (o : os) : cpp (Z * os) :=
  select_loop fuel m_fd final wait_write (set_errno 0 o).

Definition select_wait (fuel : nat) (m_fd timeout_ms : Z) (wait_write : bool) (o : os) : cpp (Z * os) :=
  select_wait_to fuel m_fd (mk_final_time timeout_ms) wait_write o.

(** [connect(ip, port, timeout_ms)]. *)
Definition connect (fuel : nat) (m_fd : Z) (ip : list Z) (port timeout_ms : Z) (o : os) : cpp (Z * os) :=
  let '(ret, e, w) := sys_connect (world (set_errno 0 o)) m_fd ip port in
  let o := after ret e w (set_errno 0 o) in
  if (ret =? -1) && (errno o =? EINPROGRESS) then select_wait fuel m_fd timeout_ms true o else Ret (ret, o).

(** ** Complete transfers *)

(** The argument of [setblocking] without and with a timeout. *)
Definition blocking_arg (final_time : option timeval) (b : Z) : Z := match final_time with None => -1 | Some _ => b end.

(** The loop of [sendv_impl]: [b] are the bytes the pointer points to. *)
Fixpoint send_loop (fuel : nat) (m_fd : Z) (b : list Z) (sent len : Z) (final_time : option timeval) (o : os) : cpp (Z * os) :=
  if 0 <? len then
    match fuel with
    | O => NoFuel
    | S f =>
        d ← buf_read b sent len;
        let '(ret, o) := send m_fd d o in
        if ret <? 0 then
          if errno o =? EINTR then send_loop f m_fd b sent len final_time o
          else
            match final_time with
            | None => let '(_, o) := setblocking m_fd (-1) o in Ret (-1, o)
            | Some t =>
                if errno o =? EWOULDBLOCK then
                  '(r, o) ← select_wait_to f m_fd t true o;
                  if negb (r =? 0) then let '(_, o) := setblocking m_fd 0 o in Ret (-1, o)
                  else send_loop f m_fd b sent len final_time o
                else Ret (-1, o)
            end
        else
          sent ← int_checked (sent + ret);
          send_loop f m_fd b sent (len - ret) final_time o
    end
  else Ret (sent, o).

Definition sendv_impl (fuel : nat) (m_fd : Z) (b : list Z) (len : Z) (final_time : option timeval) (o : os) : cpp (Z * os) :=
  let '(_, o) := setblocking m_fd (blocking_arg final_time 1) o in send_loop fuel m_fd b 0 len final_time o.

Definition final_time (timeout_ms : Z) : option timeval := if timeout_ms =? 0 then None else Some (mk_final_time timeout_ms).

(** [len] is converted to [size_t]. *)
Definition sendv (fuel : nat) (m_fd : Z) (b : list Z) (len timeout_ms : Z) (o : os) : cpp (Z * os) :=
  sendv_impl fuel m_fd b (len mod 2 ^ 64) (final_time timeout_ms) o.

(** The loop of [recvv_impl] into [buf] at [off]. *)
Fixpoint recv_loop (fuel : nat) (m_fd : Z) (buf : list Z) (off recved len : Z) (final_time : option timeval) (o : os)
    : cpp (Z * list Z * os) :=
  if 0 <? len then
    match fuel with
    | O => NoFuel
    | S f =>
        let '(bytes, ret, o) := recv m_fd len o in
        buf ← buf_write buf (off + recved) bytes;
        if ret =? 0 then Ret (0, buf, o)
        else if ret <? 0 then
          if errno o =? EINTR then recv_loop f m_fd buf off recved len final_time o
          else
            match final_time with
            | None => let '(_, o) := setblocking m_fd (-1) o in Ret (-1, buf, o)
            | Some t =>
                if errno o =? EWOULDBLOCK then
                  '(r, o) ← select_wait_to f m_fd t false o;
                  if negb (r =? 0) then let '(_, o) := setblocking m_fd 0 o in Ret (-1, buf, o)
                  else recv_loop f m_fd buf off recved len final_time o
                else Ret (-1, buf, o)
            end
        else
          recved ← int_checked (recved + ret);
          recv_loop f m_fd buf off recved (len - ret) final_time o
    end
  else Ret (recved, buf, o).

(** [recvv(&buf[off], len, timeout_ms)], [len] being converted to [size_t]. *)
Definition recvv (fuel : nat) (m_fd : Z) (buf : list Z) (off len timeout_ms : Z) (o : os) : cpp (Z * list Z * os) :=
  let t := final_time timeout_ms in
  let '(_, o) := setblocking m_fd (blocking_arg t 1) o in
  recv_loop fuel m_fd buf off 0 (len mod 2 ^ 64) t o.

(** ** Servers and single reads *)

(** The loop of [accept()]. *)
Fixpoint accept (fuel : nat) (m_fd : Z) (o : os) : cpp (Z * os) :=
  match fuel with
  | O => NoFuel
  | S f =>
      let '(fd, e, w) := sys_accept (world o) m_fd in
      let o := after fd e w o in
      if (fd <? 0) && ((errno o =? EINTR) || (errno o =? EWOULDBLOCK) || (errno o =? ECONNABORTED)) then accept f m_fd o
      else Ret (fd, o)
  end.

Fixpoint accept_loop (fuel : nat) (m_fd : Z) (final_time : option timeval) (o : os) : cpp (Z * os) :=
  match fuel with
  | O => NoFuel
  | S f =>
      let '(fd, e, w) := sys_accept (world o) m_fd in
      let o := after fd e w o in
      if fd <? 0 then
        if (errno o =? EINTR) || (errno o =? ECONNABORTED) then accept_loop f m_fd final_time o
        else if errno o =? EWOULDBLOCK then
          match final_time with
          | None => accept_loop f m_fd final_time o
          | Some t =>
              '(r, o) ← select_wait_to f m_fd t false o;
              if negb (r =? 0) then Ret (-1, o) else accept_loop f m_fd final_time o
          end
        else Ret (fd, o)
      else Ret (fd, o)
  end.

(** [blocking_auto]: around [body] the socket does not block. *)
Definition blocking_auto {A} (m_fd : Z) (body : os -> cpp (A * os)) (o : os) : cpp (A * os) :=
  let '(_, o) := setblocking m_fd 0 o in
  '(x, o) ← body o;
  let '(_, o) := setblocking m_fd 1 o in Ret (x, o).

Definition accept_impl (fuel : nat) (m_fd : Z) (final_time : option timeval) (o : os) : cpp (Z * os) :=
  match final_time with
  | None => accept_loop fuel m_fd None o
  | Some _ => blocking_auto m_fd (accept_loop fuel m_fd final_time) o
  end.

Definition acceptv (fuel : nat) (m_fd timeout_ms : Z) (o : os) : cpp (Z * os) :=
  accept_impl fuel m_fd (final_time timeout_ms) o.

(** The loop of [recv_some]: the result of [::recv] is converted to [int]. *)
Fixpoint some_loop (fuel : nat) (m_fd : Z) (buf : list Z) (len : Z) (o : os) : cpp (Z * list Z * os) :=
  match fuel with
  | O => NoFuel
  | S f =>
      let '(bytes, ret, e, w) := sys_recv (world o) m_fd len in
      let o := after ret e w o in
      buf ← buf_write buf 0 bytes;
      let ret := s32 ret in
      if ret =? 0 then Ret (-1, buf, o)
      else if ret <? 0 then if errno o =? EINTR then some_loop f m_fd buf len o else Ret (-1, buf, o)
      else Ret (ret, buf, o)
  end.

Definition recv_some (fuel : nat) (m_fd : Z) (buf : list Z) (len timeout_ms : Z) (o : os) : cpp (Z * list Z * os) :=
  blocking_auto m_fd
    (fun o =>
       '(ret, o) ← select_wait fuel m_fd timeout_ms false o;
       if ret <? 0 then Ret (if errno o =? ETIME then 0 else -1, buf, o) else some_loop fuel m_fd buf len o) o.
End socket.
Arguments os : clear implicits.

(** ** What a live connection promises

    [incoming] are the bytes the peer has sent and will send, [outgoing] those
    it was sent.  While the connection is [alive], a transfer moves at least
    one byte and no more than was asked for, or is interrupted or not ready;
    the second can happen only [patience] times.  A wait of at least a second
    ends with readiness or an interruption. *)
Class Connection (W : Type) `{!System W} (m_fd : Z) := {
  incoming : W -> list Z;
  outgoing : W -> list Z;
  patience : W -> nat;
  alive : W -> Prop;
  same_streams (w w' : W) : Prop :=
    incoming w' = incoming w /\ outgoing w' = outgoing w /\ (patience w' <= patience w)%nat /\ alive w';
  getfl_law w : alive w -> same_streams w (sys_getfl w m_fd).2;
  setfl_law w opts : alive w -> same_streams w (sys_setfl w m_fd opts).2;
  so_error_law w : alive w -> (sys_so_error w m_fd).1 = 0 /\ same_streams w (sys_so_error w m_fd).2;
  select_law w b tv : alive w -> 1 <= tv.1 ->
    let '(ret, e, w') := sys_select w m_fd b tv in
    same_streams w w' /\ (0 < ret \/ (ret = -1 /\ e = EINTR /\ (patience w' < patience w)%nat));
  send_law w d : alive w -> d <> [] ->
    let '(ret, e, w') := sys_send w m_fd d in
    alive w' /\ incoming w' = incoming w /\
    ((0 < ret <= Z.of_nat (length d) /\ outgoing w' = outgoing w ++ take (Z.to_nat ret) d /\ (patience w' <= patience w)%nat) \/
     (ret = -1 /\ (e = EINTR \/ e = EWOULDBLOCK) /\ outgoing w' = outgoing w /\ (patience w' < patience w)%nat));
  recv_law w n : alive w -> 0 < n -> incoming w <> [] ->
    let '(bytes, ret, e, w') := sys_recv w m_fd n in
    alive w' /\ outgoing w' = outgoing w /\ incoming w = bytes ++ incoming w' /\
    ((bytes <> [] /\ ret = Z.of_nat (length bytes) /\ ret <= n /\ (patience w' <= patience w)%nat) \/
     (bytes = [] /\ ret = -1 /\ (e = EINTR \/ e = EWOULDBLOCK) /\ (patience w' < patience w)%nat))
}.

Section transfers.
Context {W : Type} `{!System W} (m_fd : Z) `{!Connection W m_fd}.
Implicit Types (o : os W).

Lemma same_trans (w1 w2 w3 : W) : same_streams w1 w2 -> same_streams w2 w3 -> same_streams w1 w3.
Proof. intros (I1 & O1 & P1 & A1) (I2 & O2 & P2 & A2). repeat split; [congruence|congruence|lia|done]. Qed.

Lemma setblocking_same b o : alive (world o) -> same_streams (world o) (world (setblocking m_fd b o).2).
Proof.
  intros Ha. unfold setblocking. pose proof (getfl_law (world o) Ha) as Hg. destruct (sys_getfl (world o) m_fd) as [opts w].
  cbn in Hg. destruct (opts <? 0); [done|]. destruct (b =? _); [done|]. cbn [world set_world].
  match goal with |- context [sys_setfl w m_fd ?x] => pose proof (setfl_law w x) as Hs; destruct (sys_setfl w m_fd x) end.
  cbn in *. eapply same_trans; [done|]. apply Hs, Hg.
Qed.

(** A timeout that waits at least a second. *)
Definition timeout_ok (t : timeval) : Prop := 1 <= t.1.

Lemma time_left_ok t : timeout_ok t -> exists tv, time_left t = Ret tv /\ 1 <= tv.1.
Proof.
  unfold timeout_ok. intros Ht. unfold time_left. assert (0 <= Z.quot t.1 1000) by (apply Z.quot_pos; lia).
  destruct (Z.to_nat (Z.abs t.1)); cbn [borrow]; rewrite (proj2 (Z.ltb_ge _ _)), bind_ret_l by done;
    rewrite (proj2 (Z.ltb_ge t.1 0)) by lia; eauto.
Qed.

Lemma select_wait_ok fuel t b o : timeout_ok t -> alive (world o) -> (patience (world o) < fuel)%nat ->
  exists o', select_wait_to fuel m_fd t b o = Ret (0, o') /\ same_streams (world o) (world o').
Proof.
  intros Ht. unfold select_wait_to. change (world o) with (world (set_errno 0 o)). generalize (set_errno 0 o). clear o.
  induction fuel as [|f IH]; intros o Ha Hp; [lia|]. cbn [select_loop]. destruct (time_left_ok t Ht) as (tv & -> & Htv).
  rewrite bind_ret_l. pose proof (select_law (world o) b tv Ha Htv) as Hs.
  destruct (sys_select (world o) m_fd b tv) as [[ret e] w]. destruct Hs as [Hsame [Hr|(-> & -> & Hlt)]].
  - rewrite (proj2 (Z.ltb_ge ret 0)) by lia. cbn [andb]. rewrite (proj2 (Z.ltb_lt 0 ret)) by done. cbn [world after].
    destruct Hsame as (I & O & P & A). pose proof (so_error_law w A) as [E Hso]. destruct (sys_so_error w m_fd) as [error w'].
    cbn in E, Hso. subst error. eexists. split; [reflexivity|]. cbn [world]. eapply same_trans; [|exact Hso]. by repeat split.
  - cbn [Z.ltb Z.compare andb]. unfold after at 1. cbn [errno Z.ltb Z.compare]. change (EINTR =? EINTR) with true. cbv iota.
    destruct (IH (after (-1) EINTR w o)) as (o' & E & Hsame'); [apply Hsame|cbn [world after]; lia|]. exists o'. split; [done|].
    eapply same_trans; [exact Hsame|exact Hsame'].
Qed.

Lemma ret_id ret : -1 <= ret < 2 ^ 31 -> s32 (u32 ret) = ret.
Proof.
  intros Hr. unfold s32, u32. rewrite Zplus_mod_idemp_l, Z.mod_small by lia. lia.
Qed.

Lemma length_slice_le (b : list Z) s n : (length (slice s n b) <= n)%nat.
Proof. unfold slice. rewrite length_take. lia. Qed.

Lemma after_neg e w o : after (-1) e w o = {| world := w; errno := e |}.
Proof. done. Qed.

Lemma send_loop_ok fuel t b : timeout_ok t -> Z.of_nat (length b) < 2 ^ 31 -> forall n s o,
  alive (world o) -> (s + n <= length b)%nat -> (n + patience (world o) < fuel)%nat ->
  exists o', send_loop fuel m_fd b (Z.of_nat s) (Z.of_nat n) (Some t) o = Ret (Z.of_nat (s + n), o') /\
    outgoing (world o') = outgoing (world o) ++ slice s n b /\ incoming (world o') = incoming (world o) /\
    alive (world o') /\ (patience (world o') <= patience (world o))%nat.
Proof.
  intros Ht Hb. induction fuel as [|f IH]; intros n s o Ha Hn Hf; [lia|]. cbn [send_loop].
  destruct n as [|n].
  { cbn [Z.of_nat Z.ltb Z.compare]. exists o. rewrite Nat.add_0_r. unfold slice. by rewrite take_0, app_nil_r. }
  rewrite (proj2 (Z.ltb_lt 0 _)) by lia. rewrite buf_read_ok, bind_ret_l by lia. rewrite !Nat2Z.id.
  assert (Hl : length (slice s (S n) b) = S n) by (unfold slice; rewrite length_take, length_drop; lia).
  unfold send. pose proof (send_law (world o) (slice s (S n) b) Ha) as Hs.
  destruct (sys_send (world o) m_fd (slice s (S n) b)) as [[ret e] w].
  destruct Hs as (Aw & Iw & Hs); [intros E; by rewrite E in Hl|]. rewrite Hl in Hs.
  destruct Hs as [(Hr & Ow & Pw)|(-> & He & Ow & Pw)].
  - rewrite ret_id by lia. rewrite (proj2 (Z.ltb_ge ret 0)) by lia. rewrite int_checked_id, bind_ret_l by (unfold is_int; lia).
    assert (exists k, ret = Z.of_nat (S k)) as [k ->] by (exists (pred (Z.to_nat ret)); lia).
    replace (Z.of_nat s + Z.of_nat (S k)) with (Z.of_nat (s + S k)) by lia.
    replace (Z.of_nat (S n) - Z.of_nat (S k)) with (Z.of_nat (S n - S k)) by lia.
    destruct (IH (S n - S k)%nat (s + S k)%nat (after (Z.of_nat (S k)) e w o)) as (o' & E & O' & I' & A' & P');
      [done|lia|cbn [world after]; lia|]. cbn [world after] in *.
    exists o'. split; [rewrite E; f_equal; f_equal; lia|]. split; [|split; [congruence|split; [done|lia]]].
    rewrite O', Ow, <- app_assoc. f_equal. rewrite Nat2Z.id. unfold slice. rewrite take_take, Nat.min_l by lia.
    replace (S n) with (S k + (S n - S k))%nat at 2 by lia. rewrite <- take_take_drop, drop_drop. done.
  - rewrite ret_id by lia. cbn [Z.ltb Z.compare]. rewrite after_neg. cbn [errno].
    destruct (Z.eqb_spec e EINTR) as [E1|E1].
    + destruct (IH (S n) s {| world := w; errno := e |}) as (o' & E & O' & I' & A' & P'); [done|lia|cbn [world]; lia|].
      cbn [world] in *. exists o'. split; [done|]. split; [congruence|]. split; [congruence|]. split; [done|lia].
    + destruct He as [He| ->]; [done|]. rewrite Z.eqb_refl.
      destruct (select_wait_ok f t true {| world := w; errno := EWOULDBLOCK |} Ht) as (o1 & E2 & I1 & O1 & P1 & A1);
        [done|cbn [world]; lia|]. rewrite E2, bind_ret_l. change (negb (0 =? 0)) with false. cbv iota. cbn [world] in *.
      destruct (IH (S n) s o1) as (o' & E & O' & I' & A' & P'); [done|lia|lia|].
      exists o'. split; [done|]. split; [congruence|]. split; [congruence|]. split; [done|lia].
Qed.

Lemma recv_loop_ok fuel t : timeout_ok t -> forall n r buf off o,
  Z.of_nat (length buf) < 2 ^ 31 -> alive (world o) -> (n <= length (incoming (world o)))%nat ->
  (off + r + n <= length buf)%nat -> (n + patience (world o) < fuel)%nat ->
  exists o', recv_loop fuel m_fd buf (Z.of_nat off) (Z.of_nat r) (Z.of_nat n) (Some t) o =
      Ret (Z.of_nat (r + n), splice buf (off + r) (take n (incoming (world o))), o') /\
    incoming (world o') = drop n (incoming (world o)) /\ outgoing (world o') = outgoing (world o) /\
    alive (world o') /\ (patience (world o') <= patience (world o))%nat.
Proof.
  intros Ht. induction fuel as [|f IH]; intros n r buf off o Hb Ha Hi Hn Hf; [lia|]. cbn [recv_loop].
  destruct n as [|n].
  { cbn [Z.of_nat Z.ltb Z.compare]. exists o. rewrite Nat.add_0_r. rewrite take_0, drop_0. by rewrite splice_nil by lia. }
  rewrite (proj2 (Z.ltb_lt 0 _)) by lia. unfold recv. pose proof (recv_law (world o) (Z.of_nat (S n)) Ha) as Hr.
  destruct (sys_recv (world o) m_fd (Z.of_nat (S n))) as [[[bytes ret] e] w].
  destruct Hr as (Aw & Ow & Iw & Hr); [lia|intros E; rewrite E in Hi; cbn in Hi; lia|].
  destruct Hr as [(Hne & -> & Hle & Pw)|(-> & -> & He & Pw)].
  - rewrite ret_id by lia. assert (Hk : (0 < length bytes)%nat) by (destruct bytes; [done|cbn; lia]).
    rewrite buf_write_ok, bind_ret_l by lia. rewrite (proj2 (Z.eqb_neq _ 0)), (proj2 (Z.ltb_ge _ 0)) by lia.
    rewrite int_checked_id, bind_ret_l by (unfold is_int; lia). set (k := length bytes) in *.
    replace (Z.of_nat r + Z.of_nat k) with (Z.of_nat (r + k)) by lia.
    replace (Z.of_nat (S n) - Z.of_nat k) with (Z.of_nat (S n - k)) by lia.
    replace (Z.to_nat (Z.of_nat off + Z.of_nat r)) with (off + r)%nat by lia.
    assert (Hl : length (splice buf (off + r) bytes) = length buf) by (apply length_splice; fold k; lia).
    assert (Hiw : length (incoming (world o)) = (k + length (incoming w))%nat) by (rewrite Iw, length_app; done).
    destruct (IH (S n - k)%nat (r + k)%nat (splice buf (off + r) bytes) off (after (Z.of_nat k) e w o))
      as (o' & E & I' & O' & A' & P'); cbn [world after] in *; [lia|done|lia|lia|lia|].
    exists o'. split; [|split; [|split; [congruence|split; [done|lia]]]].
    + rewrite E. replace (r + k + (S n - k))%nat with (r + S n)%nat by lia. f_equal. f_equal. f_equal.
      rewrite splice_append; [|fold k; lia|fold k; rewrite length_take; lia]. f_equal.
      rewrite Iw, take_app_ge by (fold k; lia). done.
    + rewrite I', Iw, drop_app_ge by (fold k; lia). done.
  - rewrite ret_id by lia. cbn [app] in Iw. rewrite buf_write_ok, bind_ret_l by (cbn [length]; lia).
    rewrite splice_nil by lia. cbn [Z.eqb Z.ltb Z.compare]. rewrite after_neg. cbn [errno].
    destruct (Z.eqb_spec e EINTR) as [E1|E1].
    + destruct (IH (S n) r buf off {| world := w; errno := e |}) as (o' & E & I' & O' & A' & P'); cbn [world] in *;
        [done|done|by rewrite <- Iw|lia|lia|]. rewrite <- Iw in *.
      exists o'. split; [done|]. split; [done|]. split; [congruence|]. split; [done|lia].
    + destruct He as [He| ->]; [done|]. rewrite Z.eqb_refl.
      destruct (select_wait_ok f t false {| world := w; errno := EWOULDBLOCK |} Ht) as (o1 & E2 & I1 & O1 & P1 & A1);
        [done|cbn [world]; lia|]. rewrite E2, bind_ret_l. change (negb (0 =? 0)) with false. cbv iota. cbn [world] in *.
      destruct (IH (S n) r buf off o1) as (o' & E & I' & O' & A' & P');
        [done|done|by rewrite I1, <- Iw|lia|lia|]. rewrite I1, <- Iw in *.
      exists o'. split; [done|]. split; [done|]. split; [congruence|]. split; [done|lia].
Qed.

Lemma final_time_some timeout_ms : 1000 <= timeout_ms -> exists t, final_time timeout_ms = Some t /\ timeout_ok t.
Proof.
  intros Ht. unfold final_time. rewrite (proj2 (Z.eqb_neq _ _)) by lia. eexists. split; [reflexivity|].
  unfold timeout_ok, mk_final_time. assert (1 <= Z.quot timeout_ms 1000) by (apply Z.quot_le_lower_bound; lia).
  assert (0 <= Z.rem timeout_ms 1000) by (apply Z.rem_nonneg; lia).
  assert (0 <= Z.quot (Z.rem timeout_ms 1000 * 1000 * 1000) 1000000000) by (apply Z.quot_pos; lia).
  cbn [fst snd]. destruct (_ =? 0); cbn [fst]; lia.
Qed.

Lemma sendv_ok fuel b n timeout_ms o : 1000 <= timeout_ms -> Z.of_nat (length b) < 2 ^ 31 -> alive (world o) ->
  (n <= length b)%nat -> (n + patience (world o) < fuel)%nat ->
  exists o', sendv fuel m_fd b (Z.of_nat n) timeout_ms o = Ret (Z.of_nat n, o') /\
    outgoing (world o') = outgoing (world o) ++ take n b /\ incoming (world o') = incoming (world o) /\
    alive (world o') /\ (patience (world o') <= patience (world o))%nat.
Proof.
  intros Ht Hb Ha Hn Hf. unfold sendv, sendv_impl. destruct (final_time_some timeout_ms Ht) as (t & -> & Hok).
  pose proof (setblocking_same (blocking_arg (Some t) 1) o Ha) as (I & O & P & A).
  destruct (setblocking m_fd (blocking_arg (Some t) 1) o) as [z o1]. cbn [snd] in *. rewrite Z.mod_small by lia.
  destruct (send_loop_ok fuel t b Hok Hb n 0 o1) as (o' & E & O' & I' & A' & P'); [done|lia|lia|].
  exists o'. split; [exact E|]. split; [by rewrite O', O|]. split; [congruence|]. split; [done|lia].
Qed.

Lemma recvv_ok fuel buf off n timeout_ms o : 1000 <= timeout_ms -> Z.of_nat (length buf) < 2 ^ 31 -> alive (world o) ->
  (n <= length (incoming (world o)))%nat -> (off + n <= length buf)%nat -> (n + patience (world o) < fuel)%nat ->
  exists o', recvv fuel m_fd buf (Z.of_nat off) (Z.of_nat n) timeout_ms o =
      Ret (Z.of_nat n, splice buf off (take n (incoming (world o))), o') /\
    incoming (world o') = drop n (incoming (world o)) /\ outgoing (world o') = outgoing (world o) /\
    alive (world o') /\ (patience (world o') <= patience (world o))%nat.
Proof.
  intros Ht Hb Ha Hi Hn Hf. unfold recvv. destruct (final_time_some timeout_ms Ht) as (t & -> & Hok).
  pose proof (setblocking_same (blocking_arg (Some t) 1) o Ha) as (I & O & P & A).
  destruct (setblocking m_fd (blocking_arg (Some t) 1) o) as [z o1]. cbn [snd] in *. rewrite Z.mod_small by lia.
  destruct (recv_loop_ok fuel t Hok n 0 buf off o1) as (o' & E & I' & O' & A' & P'); [done|done|by rewrite I|lia|lia|].
  rewrite I in *. rewrite Nat.add_0_r in E. exists o'. split; [exact E|]. split; [done|]. split; [congruence|]. split; [done|lia].
Qed.

(** More than the buffer takes: a transfer of a length that is not smaller than
    what is coming in leaves the buffer. *)
Lemma recv_loop_overflow fuel t : timeout_ok t -> forall r len buf off o,
  Z.of_nat (length buf) < 2 ^ 31 -> alive (world o) -> (off + r <= length buf)%nat ->
  (length buf < off + r + length (incoming (world o)))%nat -> Z.of_nat (length (incoming (world o))) <= len ->
  (length buf - (off + r) + patience (world o) < fuel)%nat ->
  recv_loop fuel m_fd buf (Z.of_nat off) (Z.of_nat r) len (Some t) o = Undef.
Proof.
  intros Ht. induction fuel as [|f IH]; intros r len buf off o Hb Ha Hr Hover Hlen Hf; [lia|]. cbn [recv_loop].
  rewrite (proj2 (Z.ltb_lt 0 _)) by lia. unfold recv. pose proof (recv_law (world o) len Ha) as Hs.
  destruct (sys_recv (world o) m_fd len) as [[[bytes ret] e] w].
  destruct Hs as (Aw & Ow & Iw & Hs); [lia|intros E; rewrite E in Hover; cbn in Hover; lia|].
  assert (Hiw : length (incoming (world o)) = (length bytes + length (incoming w))%nat) by (rewrite Iw, length_app; done).
  destruct (decide (off + r + length bytes <= length buf)%nat) as [Hk|Hk].
  2: { unfold buf_write. rewrite decide_False by lia. done. }
  rewrite buf_write_ok, bind_ret_l by lia.
  destruct Hs as [(Hne & -> & Hle & Pw)|(-> & -> & He & Pw)].
  - rewrite ret_id by lia. assert (Hp : (0 < length bytes)%nat) by (destruct bytes; [done|cbn; lia]).
    rewrite (proj2 (Z.eqb_neq _ 0)), (proj2 (Z.ltb_ge _ 0)) by lia. rewrite int_checked_id, bind_ret_l by (unfold is_int; lia).
    replace (Z.of_nat r + Z.of_nat (length bytes)) with (Z.of_nat (r + length bytes)) by lia.
    replace (Z.to_nat (Z.of_nat off + Z.of_nat r)) with (off + r)%nat by lia.
    assert (Hl : length (splice buf (off + r) bytes) = length buf) by (apply length_splice; lia).
    apply IH; cbn [world after]; lia || done.
  - rewrite ret_id by lia. cbn [app] in Iw. rewrite splice_nil by lia. cbn [Z.eqb Z.ltb Z.compare]. rewrite after_neg. cbn [errno].
    destruct (Z.eqb_spec e EINTR) as [E1|E1].
    + apply IH; cbn [world]; try done; rewrite <- ?Iw; done || lia.
    + destruct He as [He| ->]; [done|]. rewrite Z.eqb_refl.
      destruct (select_wait_ok f t false {| world := w; errno := EWOULDBLOCK |} Ht) as (o1 & E2 & I1 & O1 & P1 & A1);
        [done|cbn [world]; lia|]. rewrite E2, bind_ret_l. change (negb (0 =? 0)) with false. cbv iota. cbn [world] in *.
      apply IH; try done; rewrite ?I1, <- ?Iw; done || lia.
Qed.
End transfers.

(** ** A scripted peer

    The bytes that come in, those that went out, and what the next calls meet:
    at most so many bytes, an interruption, or a wait. *)
Inductive event := Move (n : nat) | Interrupt | NotReady.

Record peer := { coming : list Z; gone : list Z; script : list event }.

Definition peer_send (w : peer) (d : list Z) : Z * Z * peer :=
  match script w with
  | [] => (Z.of_nat (length d), 0, {| coming := coming w; gone := gone w ++ d; script := [] |})
  | Move n :: r => let d := take (S n) d in (Z.of_nat (length d), 0, {| coming := coming w; gone := gone w ++ d; script := r |})
  | Interrupt :: r => (-1, EINTR, {| coming := coming w; gone := gone w; script := r |})
  | NotReady :: r => (-1, EWOULDBLOCK, {| coming := coming w; gone := gone w; script := r |})
  end.

Definition peer_recv (w : peer) (n : Z) : list Z * Z * Z * peer :=
  match script w with
  | Interrupt :: r => ([], -1, EINTR, {| coming := coming w; gone := gone w; script := r |})
  | NotReady :: r => ([], -1, EWOULDBLOCK, {| coming := coming w; gone := gone w; script := r |})
  | _ =>
      let k := Z.to_nat (match script w with Move m :: _ => Z.min n (Z.of_nat (S m)) | _ => n end) in
      (take k (coming w), Z.of_nat (length (take k (coming w))), 0,
       {| coming := drop k (coming w); gone := gone w; script := tail (script w) |})
  end.

Definition peer_select (w : peer) : Z * Z * peer :=
  match script w with
  | Interrupt :: r => (-1, EINTR, {| coming := coming w; gone := gone w; script := r |})
  | _ => (1, 0, w)
  end.

#[global] Instance peer_system : System peer := {
  sys_socket w := (3, w);
  sys_dgram w := (3, w);
  sys_listen w _ _ := (0, w);
  sys_accept w _ := (4, 0, w);
  sys_setsockopt w _ _ _ _ := (0, w);
  sys_close w _ := (0, w);
  sys_bind w _ _ _ := (0, w);
  sys_connect w _ _ _ := (0, 0, w);
  sys_getsockname w _ := (0, codes "10.0.0.2", w);
  sys_send w _ d := peer_send w d;
  sys_recv w _ n := peer_recv w n;
  sys_select w _ _ _ := peer_select w;
  sys_so_error w _ := (0, w);
  sys_getfl w _ := (2, w);
  sys_setfl w _ _ := (0, w)
}.

#[global, refine] Instance peer_connection m_fd : Connection peer m_fd := {
  incoming := coming;
  outgoing := gone;
  patience w := length (script w);
  alive w := True
}.
Proof.
  - intros w _. by repeat split.
  - intros w opts _. by repeat split.
  - intros w _. by repeat split.
  - intros w b tv _ _. cbn. unfold peer_select. destruct (script w) as [|[n| |] r] eqn:E; cbn; rewrite ?E; cbn;
      split; auto; try (repeat split; lia || done).
  - intros w d _ Hd. cbn. unfold peer_send. assert (0 < length d)%nat by (destruct d; [done|cbn; lia]).
    destruct (script w) as [|[n| |] r] eqn:E; cbn; (split; [done|]); (split; [done|]).
    + left. rewrite Nat2Z.id, firstn_all. split; [lia|]. split; [done|lia].
    + left. rewrite Nat2Z.id. change (take (S n) d) with (take (S n) d). rewrite length_take.
      split; [lia|]. split; [|lia]. f_equal. destruct (Nat.min_spec (S n) (length d)) as [[? ->]|[? ->]]; [done|].
      by rewrite firstn_all, take_ge by lia.
    + right. split; [done|]. split; [auto|]. split; [done|lia].
    + right. split; [done|]. split; [auto|]. split; [done|lia].
  - intros w n _ Hn Hne. cbn. unfold peer_recv. assert (0 < length (coming w))%nat by (destruct (coming w); [done|cbn; lia]).
    destruct (script w) as [|[m| |] r] eqn:E; cbn [tail coming gone script]; (split; [done|]); (split; [done|]).
    + split; [by rewrite take_drop|]. left. split; [|split; [done|rewrite length_take; cbn [length]; lia]].
      intros E0. apply (f_equal length) in E0. rewrite length_take in E0. cbn in E0. lia.
    + split; [by rewrite take_drop|]. left. split; [|split; [done|rewrite length_take; cbn [length]; lia]].
      intros E0. apply (f_equal length) in E0. rewrite length_take in E0. cbn [length] in E0. lia.
    + split; [done|]. right. cbn [length]. split; [done|]. split; [done|]. split; [auto|lia].
    + split; [done|]. right. cbn [length]. split; [done|]. split; [done|]. split; [auto|lia].
Defined.

(** C34: on a live connection, with a timeout of at least a second, [sendv] hands all the bytes to the system in their order and [recvv] fills the
    buffer with exactly the bytes that come in next, however the system cuts the transfers and interrupts or delays them;
    both return the number asked for, within a number of calls bounded by that number and the connection's patience. *)
Theorem transfers_complete {W : Type} `{!System W} (m_fd : Z) `{!Connection W m_fd} (fuel : nat) (b buf : list Z)
    (off k n : nat) (timeout_ms : Z) (o : os W) :
  1000 <= timeout_ms -> Z.of_nat (length b) < 2 ^ 31 -> Z.of_nat (length buf) < 2 ^ 31 -> alive (world o) ->
  (k <= length b)%nat -> (n <= length (incoming (world o)))%nat -> (off + n <= length buf)%nat ->
  (k + n + patience (world o) < fuel)%nat ->
  exists o1 o2, sendv fuel m_fd b (Z.of_nat k) timeout_ms o = Ret (Z.of_nat k, o1) /\
    outgoing (world o1) = outgoing (world o) ++ take k b /\
    recvv fuel m_fd buf (Z.of_nat off) (Z.of_nat n) timeout_ms o1 =
      Ret (Z.of_nat n, splice buf off (take n (incoming (world o))), o2) /\
    incoming (world o2) = drop n (incoming (world o)) /\ outgoing (world o2) = outgoing (world o1).
Proof.
  intros Ht Hb Hbuf Ha Hk Hn Hoff Hf.
  destruct (sendv_ok m_fd fuel b k timeout_ms o) as (o1 & E1 & O1 & I1 & A1 & P1); [done..|lia|].
  destruct (recvv_ok m_fd fuel buf off n timeout_ms o1) as (o2 & E2 & I2 & O2 & A2 & P2); try done; [by rewrite I1|lia|].
  rewrite I1 in *. exists o1, o2. done.
Qed.

Lemma transfers_complete_witness :
  let o := {| world := {| coming := codes "abcdefgh"; gone := []; script := [Move 1; NotReady; Interrupt; Move 0; Interrupt; Move 2] |};
              errno := 0 |} in
  exists o1 o2, sendv 20 3 (codes "hello") 5 1000 o = Ret (5, o1) /\ gone (world o1) = codes "hello" /\
    recvv 20 3 (replicate 10 0) 2 6 1000 o1 = Ret (6, [0; 0] ++ codes "abcdef" ++ [0; 0], o2) /\
    coming (world o2) = codes "gh" /\ gone (world o2) = gone (world o1).
Proof.
  intros o. destruct (transfers_complete 3 20 (codes "hello") (replicate 10 0) 2 5 6 1000 o) as (o1 & o2 & E1 & O1 & E2 & I2 & O2).
  - lia.
  - done.
  - done.
  - done.
  - vm_compute; lia.
  - vm_compute; lia.
  - vm_compute; lia.
  - vm_compute; lia.
  - exists o1, o2. split; [exact E1|]. split; [exact O1|]. split; [exact E2|]. split; [exact I2|exact O2].
Defined.

(** The fraction of a second of a timeout is lost: a wait of less than a second
    does not wait. *)
Lemma short_timeouts_do_not_wait timeout_ms : 0 < timeout_ms < 1000 -> time_left (mk_final_time timeout_ms) = Ret (0, 0).
Proof.
  intros Ht. unfold mk_final_time. rewrite (Z.quot_small timeout_ms 1000), (Z.rem_small timeout_ms 1000) by lia.
  cbn [fst snd]. rewrite (Z.quot_small (timeout_ms * 1000 * 1000)) by lia. done.
Qed.

(** With a negative argument [setblocking] toggles the flag. *)
Lemma negative_argument_toggles {W : Type} `{!System W} m_fd (o : os W) opts w :
  sys_getfl (world o) m_fd = (opts, w) -> 0 <= opts ->
  world (setblocking m_fd (-1) o).2 = (sys_setfl w m_fd (Z.lxor opts O_NONBLOCK)).2.
Proof.
  intros E Ho. unfold setblocking. rewrite E, (proj2 (Z.ltb_ge _ _)) by done.
  destruct (Z.land opts O_NONBLOCK =? 0); change (-1 =? 1) with false; change (-1 =? 0) with false; cbv iota;
    cbn [world set_world]; by destruct (sys_setfl w m_fd (Z.lxor opts O_NONBLOCK)).
Qed.
