(* ===== verification/AstClient.v ===== *)
(** * The client (src/public/astclient.cpp)

    [CAstClient] sends a request and reads the reply: the first eight bytes,
    whose second half is the length of the packet, and then the rest.  The
    socket is that of [Socket]; the packets are those of [AstPackage]. *)
From S2P Require Import Prelude Words Buffers CString Decimal AstPackage Socket.

Record CAstClient := {
  m_Error : list Z;
  m_fd : Z;
  m_bChangeIp : bool;
  m_ip : list Z;
  m_port : Z;
  m_timeout : Z;
  m_clientip : list Z;
  m_clientport : Z
}.

(** The numbers the constructors do not set are what the memory holds. *)
Definition new_CAstClient (b : bool) (port timeout cport : Z) : CAstClient :=
  {| m_Error := []; m_fd := -1; m_bChangeIp := b; m_ip := []; m_port := port; m_timeout := timeout; m_clientip := [];
     m_clientport := cport |}.

Definition make_CAstClient (b : bool) (cport : Z) (ip : list Z) (port timeout : Z) : CAstClient :=
  {| m_Error := []; m_fd := -1; m_bChangeIp := b; m_ip := ip; m_port := port; m_timeout := timeout; m_clientip := [];
     m_clientport := cport |}.

Definition set_error (e : list Z) (c : CAstClient) : CAstClient :=
  {| m_Error := e; m_fd := m_fd c; m_bChangeIp := m_bChangeIp c; m_ip := m_ip c; m_port := m_port c; m_timeout := m_timeout c;
     m_clientip := m_clientip c; m_clientport := m_clientport c |}.
Definition set_fd (fd : Z) (c : CAstClient) : CAstClient :=
  {| m_Error := m_Error c; m_fd := fd; m_bChangeIp := m_bChangeIp c; m_ip := m_ip c; m_port := m_port c; m_timeout := m_timeout c;
     m_clientip := m_clientip c; m_clientport := m_clientport c |}.
Definition set_change (b : bool) (c : CAstClient) : CAstClient :=
  {| m_Error := m_Error c; m_fd := m_fd c; m_bChangeIp := b; m_ip := m_ip c; m_port := m_port c; m_timeout := m_timeout c;
     m_clientip := m_clientip c; m_clientport := m_clientport c |}.
Definition set_clientip (ip : list Z) (c : CAstClient) : CAstClient :=
  {| m_Error := m_Error c; m_fd := m_fd c; m_bChangeIp := m_bChangeIp c; m_ip := m_ip c; m_port := m_port c;
     m_timeout := m_timeout c; m_clientip := ip; m_clientport := m_clientport c |}.

Definition InitServer (c : CAstClient) (ip : list Z) (port timeout : Z) : CAstClient :=
  {| m_Error := m_Error c; m_fd := m_fd c; m_bChangeIp := m_bChangeIp c; m_ip := ip; m_port := port; m_timeout := timeout;
     m_clientip := m_clientip c; m_clientport := m_clientport c |}.
Definition InitClient (c : CAstClient) (ip : list Z) (port : Z) : CAstClient :=
  {| m_Error := m_Error c; m_fd := m_fd c; m_bChangeIp := m_bChangeIp c; m_ip := m_ip c; m_port := m_port c;
     m_timeout := m_timeout c; m_clientip := ip; m_clientport := port |}.

Definition init_socket (c : CAstClient) : Z := 0.
Definition clean_socket (c : CAstClient) : Z := 0.

Section client.
Context {W : Type} `{!System W}.
Implicit Types (o : os W) (c : CAstClient).

(** ** Connecting *)

Definition build (c : CAstClient) o : CAstClient * os W := let '(fd, o) := build_stream o in (set_fd fd c, o).

Definition bindClientIP (c : CAstClient) (ip : list Z) (port : Z) o : Z * CAstClient * os W :=
  let '(c, o) := build c o in let '(r, o) := Socket.bind (m_fd c) ip port o in (r, c, o).

Definition connect_server (fuel : nat) (c : CAstClient) o : cpp (Z * os W) :=
  Socket.connect fuel (m_fd c) (m_ip c) (m_port c) (m_timeout c) o.

Definition connect (fuel : nat) (c : CAstClient) o : cpp (Z * CAstClient * os W) :=
  let built := m_fd c =? -1 in
  let '(c, o) := if built then build c o else (c, o) in
  if built && (m_fd c <? 0) then Ret (-1, c, o)
  else '(ret, o) ← connect_server fuel c o; Ret (if negb (ret =? 0) then -2 else 0, c, o).

(** The part of [connect(bool)] before the label. *)
Definition connect_first (fuel : nat) (bBindIp : bool) (c : CAstClient) o : cpp (Z * CAstClient * os W) :=
  if bBindIp then
    let '(c, o) := build c o in
    if m_fd c <? 0 then Ret (-1, c, o)
    else
      let '(r, c, o) := bindClientIP c (m_clientip c) (m_clientport c) o in
      if negb (r =? 0) then Ret (-2, c, o)
      else '(ret, o) ← connect_server fuel c o; Ret (if negb (ret =? 0) then -3 else 0, c, o)
  else connect fuel c o.

(** [EXIT_CONNECT]: without the address of the client. *)
Definition connect_again (fuel : nat) (c : CAstClient) o : cpp (Z * CAstClient * os W) :=
  let '(_, fd, o) := Socket.close (m_fd c) o in
  let '(c, o) := build (set_fd fd c) o in
  if m_fd c <? 0 then Ret (-3, c, o)
  else
    '(ret, o) ← connect_server fuel c o;
    if negb (ret =? 0) then Ret (-4, c, o)
    else
      let '(r, ip, w) := sys_getsockname (world o) (m_fd c) in
      let o := set_world w o in
      if negb (r =? 0) then Ret (-5, c, o) else Ret (0, set_change true (set_clientip ip c), o).

Definition connect_bind (fuel : nat) (bBindIp : bool) (c : CAstClient) o : cpp (Z * CAstClient * os W) :=
  '(ret, c, o) ← connect_first fuel bBindIp (set_change false c) o;
  if negb (ret =? 0) && bBindIp then connect_again fuel c o else Ret (ret, c, o).

Definition close (c : CAstClient) o : Z * CAstClient * os W :=
  let '(r, fd, o) := Socket.close (m_fd c) o in (r, set_fd fd c, o).

(** ** One request *)

(** What [run] leaves: the result, the buffer and its length, the number of
    bytes sent, the client and the world. *)
Record run_out := mk_run {
  r_result : Z; r_obuf : list Z; r_olen : Z; r_sent : Z; r_client : CAstClient; r_os : os W
}.

Definition run (fuel : nat) (c : CAstClient) (sbuf : list Z) (slen : Z) (obuf : option (list Z)) (olen : Z) o : cpp run_out :=
  '(sRealLen, o) ← sendv fuel (m_fd c) sbuf slen (m_timeout c) o;
  if negb (sRealLen =? slen) then Ret (mk_run (-3) (default [] obuf) 0 sRealLen c o)
  else
    match obuf with
    | None => Ret (mk_run (-1) [] 0 sRealLen c o)
    | Some obuf =>
        if olen <? 8 then Ret (mk_run (-1) obuf 0 sRealLen c o)
        else
          '(nHead, obuf, o) ← recvv fuel (m_fd c) obuf 0 8 (m_timeout c) o;
          if nHead =? 8 then
            w ← _GetBE32 obuf 4;
            let nLen := s32 w in
            if olen <? nLen then Ret (mk_run nLen obuf olen sRealLen c o)
            else
              n ← int_checked (nLen - 8);
              '(olen, obuf, o) ← recvv fuel (m_fd c) obuf 8 n (m_timeout c) o;
              if olen <=? 0 then
                Ret (mk_run (-4) obuf olen sRealLen
                       (set_error (codes "CAstClient::run: recvv data=" ++ print_int olen) c) o)
              else olen ← int_checked (olen + 8); Ret (mk_run 0 obuf olen sRealLen c o)
          else
            Ret (mk_run (-6) obuf nHead sRealLen (set_error (codes "CAstClient::run: recvv head=" ++ print_int nHead) c) o)
    end.

(** The rest of a packet for which the buffer of [run] was too small. *)
Definition runcontinue (fuel : nat) (c : CAstClient) (len : Z) (obuf : list Z) o : cpp (Z * list Z * os W) :=
  '(nLen, obuf, o) ← recvv fuel (m_fd c) obuf 0 len (m_timeout c) o;
  Ret (if nLen <=? 0 then -1 else 0, obuf, o).

(** ** Replies *)

(** A message that carries its own length. *)
Definition framed (pk : list Z) : Prop :=
  slice 4 4 pk = be_bytes (Z.of_nat (length pk)) /\ (8 < length pk)%nat /\ Z.of_nat (length pk) < 2 ^ 31.

Lemma packet_framed root m ver type flag sid aid : length sid = 4%nat -> length aid = 16%nat ->
  Z.of_nat (length m) + 64 < 2 ^ 31 -> framed (packet root m ver type flag sid aid).
Proof.
  intros Hs Ha Hm. pose proof (length_packet root m ver type flag sid aid Hs Ha) as Hl. pose proof (length_pad1 m) as Hp.
  split; [|split].
  - unfold packet in *. set (mac := if flag =? 0 then _ else _) in *. set (body := if flag =? 3 then _ else _) in *.
    assert (Lm : length mac = 4%nat) by (unfold mac; destruct (flag =? 0); [done|rewrite length_take, length_mac_of; done]).
    destruct (header_fields ver type flag (Z.of_nat (32 + length body)) aid sid mac body Ha Hs Lm) as (E & _). cbn zeta in E.
    rewrite E. do 2 f_equal. rewrite length_app, length_header, Hs, Ha, Lm. done.
  - rewrite Hl. lia.
  - rewrite Hl. destruct (flag =? 3); lia.
Qed.

Lemma head_slice (l obuf : list Z) : (8 <= length l)%nat -> (8 <= length obuf)%nat ->
  slice 4 4 (splice obuf 0 (take 8 l)) = slice 4 4 l.
Proof.
  intros Hl Ho. unfold slice, splice. change (take 0 obuf) with (@nil Z). cbn [app].
  assert (L8 : length (take 8 l) = 8%nat) by (rewrite length_take; lia).
  rewrite drop_app_le, take_app_le by (rewrite ?length_drop; lia). apply list_eq. intros i.
  destruct (decide (i < 4)%nat).
  - rewrite !lookup_take_lt, !lookup_drop, lookup_take_lt by lia. done.
  - by rewrite !lookup_take_ge by lia.
Qed.

(** The length that [run] reads from the first eight bytes. *)
Lemma head_length pk obuf : framed pk -> (8 <= length obuf)%nat ->
  _GetBE32 (splice obuf 0 (take 8 pk)) 4 = Ret (Z.of_nat (length pk)).
Proof.
  intros (Hs & Hl & Hb) Ho. assert (L8 : length (take 8 pk) = 8%nat) by (rewrite length_take; lia).
  rewrite GetBE32_ok by (rewrite ?length_splice; lia). f_equal. apply be_at_bytes; [unfold is_u32; lia|]. rewrite <- Hs.
  apply head_slice; lia.
Qed.

Section replies.
Context (c : CAstClient) `{!Connection W (m_fd c)}.
Hypothesis timed : 1000 <= m_timeout c.

(** Sending the request and reading the first eight bytes. *)
Lemma request_head fuel sbuf slen obuf olen o : Z.of_nat (length sbuf) < 2 ^ 31 -> (slen <= length sbuf)%nat ->
  Z.of_nat (length obuf) < 2 ^ 31 -> 8 <= olen -> (8 <= length obuf)%nat -> alive (world o) ->
  (8 <= length (incoming (world o)))%nat -> (slen + 8 + patience (world o) < fuel)%nat ->
  exists o1, run fuel c sbuf (Z.of_nat slen) (Some obuf) olen o =
    (let obuf := splice obuf 0 (take 8 (incoming (world o))) in
     w ← _GetBE32 obuf 4;
     let nLen := s32 w in
     if olen <? nLen then Ret (mk_run nLen obuf olen (Z.of_nat slen) c o1)
     else
       n ← int_checked (nLen - 8);
       '(olen, obuf, o) ← recvv fuel (m_fd c) obuf 8 n (m_timeout c) o1;
       if olen <=? 0 then
         Ret (mk_run (-4) obuf olen (Z.of_nat slen) (set_error (codes "CAstClient::run: recvv data=" ++ print_int olen) c) o)
       else olen ← int_checked (olen + 8); Ret (mk_run 0 obuf olen (Z.of_nat slen) c o)) /\
    incoming (world o1) = drop 8 (incoming (world o)) /\ outgoing (world o1) = outgoing (world o) ++ take slen sbuf /\
    alive (world o1) /\ (patience (world o1) <= patience (world o))%nat.
Proof.
  intros Hs Hsl Hob Hol Ho Ha Hi Hf. unfold run.
  destruct (sendv_ok (m_fd c) fuel sbuf slen (m_timeout c) o) as (o0 & E0 & O0 & I0 & A0 & P0); [done..|lia|].
  rewrite E0, bind_ret_l, Z.eqb_refl. cbn [negb]. rewrite (proj2 (Z.ltb_ge olen 8)) by done.
  destruct (recvv_ok (m_fd c) fuel obuf 0 8 (m_timeout c) o0) as (o1 & E1 & I1 & O1 & A1 & P1); try done; [by rewrite I0|lia|].
  change (Z.of_nat 0) with 0 in E1. change (Z.of_nat 8) with 8 in E1. rewrite E1, bind_ret_l, I0. change (8 =? 8) with true. cbv iota.
  exists o1. split; [done|]. rewrite I1, I0, O1, O0. split; [done|]. split; [done|]. split; [done|lia].
Qed.

Lemma take_app_head pk (rest : list Z) n : (n <= length pk)%nat -> take n (pk ++ rest) = take n pk.
Proof. intros Hn. by apply take_app_le. Qed.

(** A reply that fits. *)
Lemma run_ok fuel sbuf slen obuf olen pk rest o : Z.of_nat (length sbuf) < 2 ^ 31 -> (slen <= length sbuf)%nat ->
  Z.of_nat (length obuf) < 2 ^ 31 -> framed pk -> incoming (world o) = pk ++ rest -> alive (world o) ->
  Z.of_nat (length pk) <= olen -> (length pk <= length obuf)%nat -> (slen + length pk + patience (world o) < fuel)%nat ->
  exists o', run fuel c sbuf (Z.of_nat slen) (Some obuf) olen o =
      Ret (mk_run 0 (splice obuf 0 pk) (Z.of_nat (length pk)) (Z.of_nat slen) c o') /\
    incoming (world o') = rest /\ outgoing (world o') = outgoing (world o) ++ take slen sbuf /\ alive (world o').
Proof.
  intros Hs Hsl Hob Hfr Hin Ha Hol Hlen Hf. pose proof Hfr as (Hw & Hl8 & Hl31).
  destruct (request_head fuel sbuf slen obuf olen o) as (o1 & E & I1 & O1 & A1 & P1); try done; try lia;
    [rewrite Hin, length_app; lia|].
  rewrite E, Hin, take_app_head by lia. cbn zeta. rewrite head_length, bind_ret_l by (done || lia).
  rewrite s32_id by (unfold is_int; lia). rewrite (proj2 (Z.ltb_ge _ _)) by done.
  rewrite int_checked_id, bind_ret_l by (unfold is_int; lia).
  assert (L8 : length (take 8 pk) = 8%nat) by (rewrite length_take; lia).
  rewrite Hin, drop_app_le in I1 by lia.
  destruct (recvv_ok (m_fd c) fuel (splice obuf 0 (take 8 pk)) 8 (length pk - 8) (m_timeout c) o1) as (o2 & E2 & I2 & O2 & A2 & P2);
    try done; rewrite ?length_splice by lia; try lia; [rewrite I1, length_app, length_drop; lia|].
  change (Z.of_nat 8) with 8 in E2. replace (Z.of_nat (length pk - 8)) with (Z.of_nat (length pk) - 8) in E2 by lia.
  rewrite E2, bind_ret_l, (proj2 (Z.leb_gt _ 0)) by lia. rewrite int_checked_id, bind_ret_l by (unfold is_int; lia).
  rewrite I1, take_app_le, (take_ge (drop 8 pk)) by (rewrite length_drop; lia).
  rewrite splice_append by (rewrite ?L8, ?length_drop; lia). rewrite take_drop.
  exists o2. split; [f_equal; f_equal; lia|]. split; [|split; [congruence|done]].
  rewrite I2, I1, drop_app_ge by (rewrite length_drop; lia). rewrite length_drop. by replace (length pk - 8 - (length pk - 8))%nat with 0%nat by lia.
Qed.

(** A reply that does not fit: [run] answers with its length, and
    [runcontinue] reads what is left of it. *)
Lemma run_short_ok fuel sbuf slen obuf buf2 olen pk rest o : Z.of_nat (length sbuf) < 2 ^ 31 -> (slen <= length sbuf)%nat ->
  Z.of_nat (length obuf) < 2 ^ 31 -> Z.of_nat (length buf2) < 2 ^ 31 -> framed pk -> incoming (world o) = pk ++ rest ->
  alive (world o) -> 8 <= olen < Z.of_nat (length pk) -> (8 <= length obuf)%nat -> (length pk - 8 <= length buf2)%nat ->
  (slen + length pk + patience (world o) < fuel)%nat ->
  exists o1 o2, run fuel c sbuf (Z.of_nat slen) (Some obuf) olen o =
      Ret (mk_run (Z.of_nat (length pk)) (splice obuf 0 (take 8 pk)) olen (Z.of_nat slen) c o1) /\
    runcontinue fuel c (Z.of_nat (length pk) - 8) buf2 o1 = Ret (0, splice buf2 0 (drop 8 pk), o2) /\
    incoming (world o2) = rest.
Proof.
  intros Hs Hsl Hob Hb2 Hfr Hin Ha Hol Hlen Hl2 Hf. pose proof Hfr as (Hw & Hl8 & Hl31).
  destruct (request_head fuel sbuf slen obuf olen o) as (o1 & E & I1 & O1 & A1 & P1); try done; try lia;
    [rewrite Hin, length_app; lia|].
  rewrite E, Hin, take_app_head by lia. cbn zeta. rewrite head_length, bind_ret_l by (done || lia).
  rewrite s32_id by (unfold is_int; lia). rewrite (proj2 (Z.ltb_lt _ _)) by lia.
  rewrite Hin, drop_app_le in I1 by lia.
  destruct (recvv_ok (m_fd c) fuel buf2 0 (length pk - 8) (m_timeout c) o1) as (o2 & E2 & I2 & O2 & A2 & P2);
    try done; try lia; [rewrite I1, length_app, length_drop; lia|].
  exists o1, o2. split; [done|]. unfold runcontinue. change (Z.of_nat 0) with 0 in E2.
  replace (Z.of_nat (length pk - 8)) with (Z.of_nat (length pk) - 8) in E2 by lia.
  rewrite E2, bind_ret_l, (proj2 (Z.leb_gt _ 0)) by lia. rewrite I1, take_app_le, (take_ge (drop 8 pk)) by (rewrite length_drop; lia).
  split; [done|]. rewrite I2, I1, drop_app_ge by (rewrite length_drop; lia). rewrite length_drop.
  by replace (length pk - 8 - (length pk - 8))%nat with 0%nat by lia.
Qed.

End replies.

(** C33: a request and its reply.  Against a server that answers with a packet of [PutData], on a live connection and with a
    timeout of at least a second, [run] sends exactly the request, reads exactly the packet, whatever the cuts, interruptions and delays of
    the transfers, and returns 0 with its length; [GetData] of an agent with the same root key then recovers the fields
    and the text the server put in. *)
Theorem client_exchange (c : CAstClient) `{!Connection W (m_fd c)} fuel sbuf slen obuf rest o
    j j' p q m r ver type flag sid aid macindex out outlen g :
  let pk := packet (root_key p macindex) m ver type flag sid aid in
  1000 <= m_timeout c -> Z.of_nat (length sbuf) < 2 ^ 31 -> (slen <= length sbuf)%nat -> Z.of_nat (length obuf) < 2 ^ 31 ->
  alive (world o) -> incoming (world o) = pk ++ rest -> (length pk < length obuf)%nat ->
  (slen + length pk + patience (world o) < fuel)%nat ->
  junk_ok j -> junk_ok j' -> pkg_ok p -> pkg_ok q -> root_key q macindex = root_key p macindex ->
  flag_ok flag -> cstring m -> length sid = 4%nat -> length aid = 16%nat -> Forall is_u8 sid ->
  (macindex = 0 -> flag <> 3) -> (m_bInit p || m_bInit q = true -> macindex = 0) -> Z.of_nat (length m) + 64 < 2 ^ 31 ->
  Z.of_nat (length pk) <= outlen <= Z.of_nat (length out) -> outlen < 2 ^ 31 ->
  (4 <= length (g_sid g))%nat -> (16 <= length (g_aid g))%nat ->
  Z.of_nat (length m) + 16 < g_datalen g <= Z.of_nat (length (g_data g)) ->
  PutData j p (m ++ 0 :: r) ver type flag sid aid macindex out outlen = Ret (0, splice out 0 pk, Z.of_nat (length pk)) /\
  exists x, run fuel c sbuf (Z.of_nat slen) (Some obuf) (Z.of_nat (length obuf)) o = Ret x /\
    r_result x = 0 /\ r_olen x = Z.of_nat (length pk) /\ r_sent x = Z.of_nat slen /\
    outgoing (world (r_os x)) = outgoing (world o) ++ take slen sbuf /\ incoming (world (r_os x)) = rest /\
    exists msg, GetData j' q (r_obuf x) (r_olen x) macindex g =
      Ret (0, msg, mk_getdata_out ver type (splice (g_sid g) 0 sid) (splice (g_aid g) 0 aid)
                     (splice (g_data g) 0 (m ++ [0])) (Z.of_nat (length m))).
Proof.
  intros pk Ht Hs Hsl Hob Ha Hin Hlen Hf Hj Hj' Hp Hq Hroot Hflag Hm Lsid Laid Hsid Hmac Hinit Hml Ho Ho' Hgs Hga Hd.
  assert (Hfr : framed pk) by by apply packet_framed. split.
  - apply PutData_ok; auto. intros E. apply Hinit. by rewrite E.
  - destruct (run_ok c Ht fuel sbuf slen obuf (Z.of_nat (length obuf)) pk rest o) as (o' & E & I' & O' & A'); try done; try lia.
    eexists. split; [exact E|]. cbn [r_result r_olen r_sent r_obuf r_os]. do 5 (split; [done|]).
    destruct (splice_start obuf pk Hlen) as (b & t & ->).
    eexists. unfold pk in *. rewrite <- Hroot in *. pose proof (length_pad1 m). apply GetData_ok; auto; try lia.
    + eapply Forall_impl; [exact Hm|]. unfold is_u8. simpl. lia.
    + intros E0. apply Hinit. rewrite E0. by rewrite orb_true_r.
Qed.

(** A reply whose header claims a length below eight, or one with the sign bit set, and that carries more bytes than the
    buffer holds makes [run] write past the end of the buffer: the length is only compared with the room from above. *)
Theorem run_trusts_the_length (c : CAstClient) `{!Connection W (m_fd c)} fuel sbuf slen obuf olen o :
  1000 <= m_timeout c -> Z.of_nat (length sbuf) < 2 ^ 31 -> (slen <= length sbuf)%nat ->
  Z.of_nat (length obuf) < 2 ^ 31 -> 8 <= olen <= Z.of_nat (length obuf) -> alive (world o) ->
  s32 (be_at 4 (incoming (world o))) < 8 -> (length obuf < length (incoming (world o)))%nat ->
  Z.of_nat (length (incoming (world o))) < 2 ^ 62 -> (slen + length obuf + patience (world o) < fuel)%nat ->
  run fuel c sbuf (Z.of_nat slen) (Some obuf) olen o = Undef.
Proof.
  intros timed Hs Hsl Hob Hol Ha Hw Hi Hi62 Hf.
  destruct (request_head c timed fuel sbuf slen obuf olen o) as (o1 & E & I1 & O1 & A1 & P1); try done; try lia.
  rewrite E. cbn zeta. assert (L8 : length (take 8 (incoming (world o))) = 8%nat) by (rewrite length_take; lia).
  rewrite GetBE32_ok, bind_ret_l by (rewrite ?length_splice; lia).
  assert (Eb : be_at (Z.to_nat 4) (splice obuf 0 (take 8 (incoming (world o)))) = be_at 4 (incoming (world o)))
    by (unfold be_at; change (Z.to_nat 4) with 4%nat; by rewrite head_slice by lia).
  rewrite Eb. set (nLen := s32 _) in *. rewrite (proj2 (Z.ltb_ge _ _)) by lia.
  destruct (decide (is_int (nLen - 8))) as [Hint|Hint].
  2: { unfold int_checked. rewrite decide_False by exact Hint. done. }
  rewrite int_checked_id, bind_ret_l by done. unfold recvv.
  destruct (final_time_some (m_timeout c) timed) as (t & -> & Hok).
  pose proof (setblocking_same (m_fd c) (blocking_arg (Some t) 1) o1 A1) as (I & O & P & A).
  destruct (setblocking (m_fd c) (blocking_arg (Some t) 1) o1) as [z o2]. cbn [snd] in *.
  change 8 with (Z.of_nat 8) at 1. change 0 with (Z.of_nat 0).
  rewrite (recv_loop_overflow (m_fd c) fuel t Hok 0 _ _ 8 o2); [done|..]; rewrite ?length_splice by lia; rewrite ?I, ?I1, ?length_drop;
    try done; try lia. unfold is_int in Hint.
  rewrite <- (Z.mod_unique_pos (nLen - 8) (2 ^ 64) (-1) (nLen - 8 + 2 ^ 64)) by lia. lia.
Qed.
End client.
Arguments run_out : clear implicits.

Definition demo_client : CAstClient :=
  {| m_Error := []; m_fd := 3; m_bChangeIp := false; m_ip := codes "10.0.0.1"; m_port := 4433; m_timeout := 3000;
     m_clientip := []; m_clientport := 0 |}.

Definition demo_os (l : list Z) : os peer :=
  {| world := {| coming := l; gone := []; script := [NotReady; Move 2; Interrupt; Move 4; Move 30; NotReady] |}; errno := 0 |}.

Lemma client_exchange_witness :
  let pk := packet (replicate 32 6) (codes "hello") 1 2 3 [1; 2; 3; 4] (replicate 16 8) in
  exists x, run 200 demo_client (codes "ask") 3 (Some (replicate 64 0)) 64 (demo_os (pk ++ [77])) = Ret x /\
    r_result x = 0 /\ r_olen x = 48 /\ gone (world (r_os x)) = codes "ask" /\ coming (world (r_os x)) = [77] /\
    exists msg, GetData sample_junk sample_pkg (r_obuf x) (r_olen x) 1 sample_out =
      Ret (0, msg, mk_getdata_out 1 2 [1; 2; 3; 4] (replicate 16 8) (codes "hello" ++ replicate 1 0 ++ replicate 18 9) 5).
Proof.
  intros pk. assert (length pk = 48%nat) as Hl by (unfold pk; rewrite length_packet by reflexivity; reflexivity).
  destruct (client_exchange demo_client 200 (codes "ask") 3 (replicate 64 0) [77] (demo_os (pk ++ [77]))
    sample_junk sample_junk sample_pkg sample_pkg (codes "hello") [] 1 2 3 [1; 2; 3; 4] (replicate 16 8) 1 (replicate 50 9) 50
    sample_out) as (_ & x & E & R1 & R2 & R3 & R4 & R5 & msg & G);
    try (change (packet (root_key sample_pkg 1) (codes "hello") 1 2 3 [1; 2; 3; 4] (replicate 16 8)) with pk; rewrite Hl).
  1: vm_compute; discriminate.
  1: reflexivity.
  1: vm_compute; lia.
  1: reflexivity.
  1: exact I.
  1: reflexivity.
  1: vm_compute; lia.
  1: vm_compute; lia.
  1: exact sample_junk_ok.
  1: exact sample_junk_ok.
  1: exact sample_pkg_ok.
  1: exact sample_pkg_ok.
  1: reflexivity.
  1: right; right; reflexivity.
  1: eval_decide.
  1: reflexivity.
  1: reflexivity.
  1: eval_decide.
  1: discriminate.
  1: discriminate.
  1: reflexivity.
  1: change (Z.of_nat 48 <= 50 <= Z.of_nat 50); lia.
  1: reflexivity.
  1: eval_decide.
  1: eval_decide.
  1: eval_decide.
  change (packet (root_key sample_pkg 1) (codes "hello") 1 2 3 [1; 2; 3; 4] (replicate 16 8)) with pk in *. rewrite Hl in R2.
  exists x. split; [exact E|]. split; [exact R1|]. split; [exact R2|]. split; [exact R4|]. split; [exact R5|].
  exists msg. rewrite G. reflexivity.
Defined.

Lemma run_trusts_the_length_witness :
  run 200 demo_client (codes "ask") 3 (Some (replicate 16 0)) 16 (demo_os (replicate 20 0)) = Undef.
Proof.
  apply (run_trusts_the_length demo_client 200 (codes "ask") 3 (replicate 16 0) 16 (demo_os (replicate 20 0))).
  - vm_compute; discriminate.
  - reflexivity.
  - vm_compute; lia.
  - reflexivity.
  - vm_compute; split; discriminate.
  - exact I.
  - vm_compute; reflexivity.
  - vm_compute; lia.
  - reflexivity.
  - vm_compute; lia.
Defined.
