(* ===== verification/ServerCtrl.v ===== *)
(** * Registration at the server (src/public/astPackage/astserverctrl.cpp, define.h)

    The class [astServerCtrl] puts the other components together: it gathers
    what is known of the device, writes it as a JSON document, packs and sends
    it, reads the reply, and hands the key and the identifier of the reply to
    the packet codec.  What the collectors of the device find is a class of
    operations of the world; [malloc] is a parameter; the texts written to the
    console are not kept. *)
From Stdlib Require Import SpecFloat.
From S2P Require Import Prelude Words Buffers CString Base64 AstPackage StdMap Decimal Double JsonValue JsonOps JsonWriter JsonReader JsonGrammar JsonRead JsonFormat JsonText JsonRoundtrip Socket AstClient.

(** ** Data of define.h *)

Definition IP_LEN : Z := 32.
Definition MAC_LEN : Z := 32.
Definition MASK_LEN : Z := 32.

Record ST_IP_MAC := { cIp : list Z; cMac : list Z; cMask : list Z }.
Record ST_OS_INFO := {
  strOsName : list Z; strOsVersion : list Z; strOsLanguage : list Z; strLastUpTime : list Z; strArchitecture : list Z;
  strInstallTime : list Z
}.
Record ST_CPU_INFO := {
  strProcessorId : list Z; strVendorId : list Z; strCpuFamily : list Z; strModel : list Z; strModelName : list Z;
  nCpuMHZ : Z; nCacheSize : Z
}.
Record ST_MEM_INFO := { nMemSize : Z; nUsedSize : Z }.
Record ST_DISK_INFO := {
  strDiskId : list Z; strCaption : list Z; strType : list Z; strSerialNo : list Z; strManufauturer : list Z;
  disk_nSize : Z; strHotPlug : list Z
}.
Record ST_LOGICAL_DISK := { strDeviceId : list Z; strFileType : list Z; logical_nSize : Z; nFreeSize : Z }.
Record ST_DEV_INFO := {
  ipmac : ST_IP_MAC;
  strUserName : list Z;
  strPcName : list Z;
  strDomainName : list Z;
  stSystemInfo : ST_OS_INFO;
  stCpuInfo : ST_CPU_INFO;
  stMemInfo : ST_MEM_INFO;
  vecDiskInfo : list ST_DISK_INFO;
  vecLogicalDisk : list ST_LOGICAL_DISK
}.

Record ST_SERVER_INFO := { server_cIp : list Z; nPort : Z; nTimeout : Z }.
Definition ST_SERVER_INFO_init : ST_SERVER_INFO := {| server_cIp := replicate 32 0; nPort := 11000; nTimeout := 30000 |}.

(** ** What the collectors find

    One operation per object or call of the source, [None] when it throws; a
    [QString] is the bytes of its text. *)
Record ST_NETIPINFO := { qsIp : list Z; qsMac : list Z; qsMask : list Z }.
Record DiskHardInfo := {
  hard_qsName : list Z; hard_qsCaption : list Z; hard_qsFileSystemType : list Z; hard_qsSerialNo : list Z;
  hard_qsManufauturer : list Z; hard_qlSize : Z; hard_qsHotPlug : list Z
}.
Record Disk := {
  volume_name : list Z; volume_device : list Z; volume_fileSystemType : list Z; volume_size : Z; volume_free : Z; volume_used : Z
}.
Record system_texts := {
  getUsername : list Z; getHostname : list Z; osDescription : list Z; osVersion : list Z; lastUpTime : list Z;
  osLanguage : list Z; osInstallTime : list Z; getOsArchitecture : list Z
}.

Class Machine (W : Type) := {
  net_info : W -> option (list ST_NETIPINFO);
  system_info : W -> option system_texts;
  getCpuFamily : W -> option (list Z);
  getCpuModel : W -> option (list Z);
  getCpuModelName : W -> option (list Z);
  getCpuVendor : W -> option (list Z);
  getCpuMHZ : W -> option Z;
  getCpuCache : W -> option Z;
  mem_info : W -> option (Z * Z);
  m_stDiskHardInfo : W -> option (list DiskHardInfo);
  disks : W -> option (list Disk)
}.

(** ** The class *)

Record astServerCtrl := {
  m_clsAstPackage : astPackage;
  m_clsAstClient : CAstClient;
  m_stServerInfo : ST_SERVER_INFO;
  m_stDevInfo : ST_DEV_INFO;
  m_qsCurrentIp : list Z
}.

(** The members without a constructor hold what the memory held. *)
Definition new_astServerCtrl (p : astPackage) (c : CAstClient) (dev : ST_DEV_INFO) : astServerCtrl :=
  {| m_clsAstPackage := p; m_clsAstClient := c; m_stServerInfo := ST_SERVER_INFO_init; m_stDevInfo := dev; m_qsCurrentIp := [] |}.

Definition set_package (p : astPackage) (s : astServerCtrl) : astServerCtrl :=
  {| m_clsAstPackage := p; m_clsAstClient := m_clsAstClient s; m_stServerInfo := m_stServerInfo s;
     m_stDevInfo := m_stDevInfo s; m_qsCurrentIp := m_qsCurrentIp s |}.
Definition set_client (c : CAstClient) (s : astServerCtrl) : astServerCtrl :=
  {| m_clsAstPackage := m_clsAstPackage s; m_clsAstClient := c; m_stServerInfo := m_stServerInfo s;
     m_stDevInfo := m_stDevInfo s; m_qsCurrentIp := m_qsCurrentIp s |}.
Definition set_server (i : ST_SERVER_INFO) (s : astServerCtrl) : astServerCtrl :=
  {| m_clsAstPackage := m_clsAstPackage s; m_clsAstClient := m_clsAstClient s; m_stServerInfo := i;
     m_stDevInfo := m_stDevInfo s; m_qsCurrentIp := m_qsCurrentIp s |}.
Definition set_dev (d : ST_DEV_INFO) (s : astServerCtrl) : astServerCtrl :=
  {| m_clsAstPackage := m_clsAstPackage s; m_clsAstClient := m_clsAstClient s; m_stServerInfo := m_stServerInfo s;
     m_stDevInfo := d; m_qsCurrentIp := m_qsCurrentIp s |}.
Definition set_current_ip (ip : list Z) (s : astServerCtrl) : astServerCtrl :=
  {| m_clsAstPackage := m_clsAstPackage s; m_clsAstClient := m_clsAstClient s; m_stServerInfo := m_stServerInfo s;
     m_stDevInfo := m_stDevInfo s; m_qsCurrentIp := ip |}.

(** [qDebug(text)]: the text is the format, as that of [printf]. *)
Definition qDebug (b : list Z) : cpp unit := s ← c_str b; _ ← format_text s; Ret tt.

(** ** The reply to a registration *)

(** What the locals of [RegFinish] and [InitReg] hold at first. *)
Record reg_locals := {
  l_SID : list Z; l_AID : list Z; l_Aid : list Z; l_KA : list Z; l_MKA : list Z;
  l_Tmp : list Z; l_out : list Z; l_mac : list Z; l_get : junk; l_init : junk
}.

(** [cid = root["key"]]. *)
Definition take_member (root cid : Value) (key : list Z) : cpp (Value * Value) :=
  root ← resolveReference root key;
  Ret (root, assign cid (default null (child root (Member (upto_nul key))))).

(** [memcpy] of the text of [cid] and the two lines of the log. *)
Definition take_text (root cid : Value) (key : list Z) (array : list Z) : cpp (Value * Value * list Z) :=
  '(root, cid) ← take_member root cid key;
  t ← asString cid;
  array ← buf_write array 0 t;
  _ ← qDebug array;
  Ret (root, cid, array).

Definition RegAck (regmsg : list Z) (regmsglen : Z) : cpp Z := Undef.
Definition RetryRegAst : cpp Z := Undef.
Definition ReportTaskRecv (json : list Z) : cpp Z := Undef.
Definition SendExit : cpp Z := Undef.

Section control.
Variable malloc : Z -> option (list Z).

(** The body of the [try] block; a thrown [int] is the result. *)
Definition reg_fields (l : reg_locals) (p : astPackage) (pJson : list Z) (nJson : Z) (cSID : list Z) : cpp (Z * astPackage) :=
  _ ← qDebug pJson;
  '(_, reader) ← parse_range Features_all pJson nJson null false;
  '(root, cid) ← take_member (root_ reader) null (codes "cid");
  t ← asString cid;
  if negb (bool_decide (t = codes "1")) then Ret (5, p)
  else
    '(root, cid, cAid) ← take_text root cid (codes "aid") (l_Aid l);
    '(root, cid, cKA) ← take_text root cid (codes "ka") (l_KA l);
    '(root, cid, cMKA) ← take_text root cid (codes "mka") (l_MKA l);
    '(ret, p) ← InitReg (l_init l) (l_Tmp l) (l_out l) (l_mac l) p cAid cKA cMKA cSID 4;
    Ret (if negb (ret =? 0) then 6 + ret else 0, p).

(** The result, the message, which [GetData] terminates, and the codec. *)
Definition RegFinish (l : reg_locals) (p : astPackage) (regmsg : list Z) (regmsglen : Z) : cpp (Z * list Z * astPackage) :=
  nJson ← GetMsgLen regmsg regmsglen;
  if nJson <=? 0 then Ret (1, regmsg, p)
  else
    nJson ← int_checked (nJson + 1);
    match malloc nJson with
    | None => Ret (2, regmsg, p)
    | Some pJson =>
        pJson ← memset pJson 0 0 nJson;
        '(ret, regmsg, g) ← GetData (l_get l) p regmsg regmsglen 0
          {| g_ver := 0; g_type := 0; g_sid := l_SID l; g_aid := l_AID l; g_data := pJson; g_datalen := nJson |};
        if negb (ret =? 0) then Ret (3, regmsg, p)
        else
          sid ← buf_read (g_sid g) 0 4;
          if negb (bool_decide (sid = [0; 0; 0; 0])) then Ret (4, regmsg, p)
          else
            '(n, p) ← reg_fields l p (g_data g) (g_datalen g) (g_sid g);
            Ret (n, regmsg, p)
    end.

(** ** The device and the connection *)

Context {W : Type} `{!System W, !Machine W}.
Implicit Types (o : os W) (s : astServerCtrl) (w : W).

Definition set_ipmac (x : ST_IP_MAC) (d : ST_DEV_INFO) : ST_DEV_INFO :=
  {| ipmac := x; strUserName := strUserName d; strPcName := strPcName d; strDomainName := strDomainName d;
     stSystemInfo := stSystemInfo d; stCpuInfo := stCpuInfo d; stMemInfo := stMemInfo d; vecDiskInfo := vecDiskInfo d;
     vecLogicalDisk := vecLogicalDisk d |}.
Definition set_system (t : system_texts) (d : ST_DEV_INFO) : ST_DEV_INFO :=
  {| ipmac := ipmac d; strUserName := getUsername t; strPcName := getHostname t; strDomainName := strDomainName d;
     stSystemInfo := {| strOsName := osDescription t; strOsVersion := osVersion t; strOsLanguage := osLanguage t;
                        strLastUpTime := lastUpTime t; strArchitecture := getOsArchitecture t;
                        strInstallTime := osInstallTime t |};
     stCpuInfo := stCpuInfo d; stMemInfo := stMemInfo d; vecDiskInfo := vecDiskInfo d; vecLogicalDisk := vecLogicalDisk d |}.
Definition set_cpu (x : ST_CPU_INFO) (d : ST_DEV_INFO) : ST_DEV_INFO :=
  {| ipmac := ipmac d; strUserName := strUserName d; strPcName := strPcName d; strDomainName := strDomainName d;
     stSystemInfo := stSystemInfo d; stCpuInfo := x; stMemInfo := stMemInfo d; vecDiskInfo := vecDiskInfo d;
     vecLogicalDisk := vecLogicalDisk d |}.
Definition set_mem (x : ST_MEM_INFO) (d : ST_DEV_INFO) : ST_DEV_INFO :=
  {| ipmac := ipmac d; strUserName := strUserName d; strPcName := strPcName d; strDomainName := strDomainName d;
     stSystemInfo := stSystemInfo d; stCpuInfo := stCpuInfo d; stMemInfo := x; vecDiskInfo := vecDiskInfo d;
     vecLogicalDisk := vecLogicalDisk d |}.
Definition set_disks (x : list ST_DISK_INFO) (y : list ST_LOGICAL_DISK) (d : ST_DEV_INFO) : ST_DEV_INFO :=
  {| ipmac := ipmac d; strUserName := strUserName d; strPcName := strPcName d; strDomainName := strDomainName d;
     stSystemInfo := stSystemInfo d; stCpuInfo := stCpuInfo d; stMemInfo := stMemInfo d; vecDiskInfo := x;
     vecLogicalDisk := y |}.

(** [foreach] over the addresses, to the first that is the current one. *)
Fixpoint copy_address (current : list Z) (l : list ST_NETIPINFO) (m : ST_IP_MAC) : cpp ST_IP_MAC :=
  match l with
  | [] => Ret m
  | n :: l =>
      if bool_decide (qsIp n = current) then
        ip ← buf_write (cIp m) 0 (qsIp n);
        mac ← buf_write (cMac m) 0 (qsMac n);
        mask ← buf_write (cMask m) 0 (qsMask n);
        Ret {| cIp := ip; cMac := mac; cMask := mask |}
      else copy_address current l m
  end.

(** One statement of the [try] block: a value that is taken, or an exception. *)
Definition statement : Type := ST_DEV_INFO -> cpp (option ST_DEV_INFO).
Definition taken {A} (x : option A) (f : A -> ST_DEV_INFO -> ST_DEV_INFO) : statement :=
  fun d => Ret ((fun a => f a d) <$> x).
Fixpoint try_all (l : list statement) (d : ST_DEV_INFO) : cpp ST_DEV_INFO :=
  match l with
  | [] => Ret d
  | f :: l => r ← f d; match r with Some d => try_all l d | None => Ret d end
  end.

(** The copies of the two loops over disks. *)
Definition disk_of (h : DiskHardInfo) : ST_DISK_INFO :=
  {| strDiskId := []; strCaption := hard_qsName h; strType := hard_qsFileSystemType h; strSerialNo := hard_qsSerialNo h;
     strManufauturer := hard_qsManufauturer h; disk_nSize := hard_qlSize h; strHotPlug := hard_qsHotPlug h |}.
Definition logical_of (v : Disk) : ST_LOGICAL_DISK :=
  {| strDeviceId := volume_name v; strFileType := volume_fileSystemType v; logical_nSize := volume_size v;
     nFreeSize := volume_free v |}.

Definition cpu_with (f : ST_CPU_INFO -> ST_CPU_INFO) (d : ST_DEV_INFO) : ST_DEV_INFO := set_cpu (f (stCpuInfo d)) d.
Definition set_cpu_texts (vendor family model name : list Z) (c : ST_CPU_INFO) : ST_CPU_INFO :=
  {| strProcessorId := strProcessorId c; strVendorId := vendor; strCpuFamily := family; strModel := model;
     strModelName := name; nCpuMHZ := nCpuMHZ c; nCacheSize := nCacheSize c |}.
Definition set_cpu_numbers (mhz cache : Z) (c : ST_CPU_INFO) : ST_CPU_INFO :=
  {| strProcessorId := strProcessorId c; strVendorId := strVendorId c; strCpuFamily := strCpuFamily c; strModel := strModel c;
     strModelName := strModelName c; nCpuMHZ := mhz; nCacheSize := cache |}.

Definition dev_statements (current : list Z) w : list statement :=
  [ (fun d => match net_info w with
              | None => Ret None
              | Some l => m ← copy_address current l (ipmac d); Ret (Some (set_ipmac m d))
              end);
    taken (system_info w) set_system;
    taken (getCpuFamily w) (fun t => cpu_with (fun c => set_cpu_texts (strVendorId c) t (strModel c) (strModelName c) c));
    taken (getCpuModel w) (fun t => cpu_with (fun c => set_cpu_texts (strVendorId c) (strCpuFamily c) t (strModelName c) c));
    taken (getCpuModelName w) (fun t => cpu_with (fun c => set_cpu_texts (strVendorId c) (strCpuFamily c) (strModel c) t c));
    taken (getCpuVendor w) (fun t => cpu_with (fun c => set_cpu_texts t (strCpuFamily c) (strModel c) (strModelName c) c));
    taken (getCpuMHZ w) (fun n => cpu_with (fun c => set_cpu_numbers n (nCacheSize c) c));
    taken (getCpuCache w) (fun n => cpu_with (fun c => set_cpu_numbers (nCpuMHZ c) n c));
    taken (mem_info w) (fun '(size, used) => set_mem {| nMemSize := size; nUsedSize := used |});
    taken (m_stDiskHardInfo w) (fun l d => set_disks (vecDiskInfo d ++ (disk_of <$> l)) (vecLogicalDisk d) d);
    taken (disks w) (fun l d => set_disks (vecDiskInfo d) (vecLogicalDisk d ++ (logical_of <$> l)) d) ].

Definition GetDevInfo s w : cpp astServerCtrl :=
  d ← try_all (dev_statements (m_qsCurrentIp s) w) (m_stDevInfo s); Ret (set_dev d s).

Definition TryConnect (fuel : nat) s o : cpp (Z * astServerCtrl * os W) :=
  ip ← c_str (server_cIp (m_stServerInfo s));
  let c := InitServer (m_clsAstClient s) ip (nPort (m_stServerInfo s)) (nTimeout (m_stServerInfo s)) in
  '(nReturn, c, o) ← connect_bind fuel false c o;
  '(s, o) ←
    (if negb (nReturn =? 0) then Ret (s, o)
     else
       let '(r, localips, w) := sys_getsockname (world o) (m_fd c) in
       if negb (r =? 0) then Ret (s, set_world w o)
       else _ ← format_text localips; Ret (set_current_ip localips s, set_world w o));
  let '(_, c, o) := AstClient.close c o in
  Ret (nReturn, set_client c s, o).

Definition InitServerInfo (fuel : nat) (stServerInfo : ST_SERVER_INFO) s o : cpp (Z * astServerCtrl * os W) :=
  ip ← memcpy (server_cIp (m_stServerInfo s)) 0 (server_cIp stServerInfo) 0 IP_LEN;
  let i := {| server_cIp := ip; nPort := nPort stServerInfo; nTimeout := nTimeout stServerInfo |} in
  '(_, s, o) ← TryConnect fuel (set_server i s) o;
  Ret (0, s, o).

(** ** Registration *)

(** [root["key"] = text] in turn. *)
Fixpoint set_texts (root : Value) (l : list (list Z * list Z)) : cpp Value :=
  match l with
  | [] => Ret root
  | (key, text) :: l => root ← set_member root key (Value_string text); set_texts root l
  end.

Definition first_request (d : ST_DEV_INFO) : cpp Value :=
  ip ← c_str (cIp (ipmac d));
  mac ← c_str (cMac (ipmac d));
  mask ← c_str (cMask (ipmac d));
  set_texts null
    [ (codes "cid", codes "1"); (codes "ip", ip); (codes "port", codes "10086"); (codes "os", strOsName (stSystemInfo d));
      (codes "osType", codes "linux"); (codes "architecture", strArchitecture (stSystemInfo d)); (codes "mac", mac);
      (codes "ipMask", mask) ].

Definition second_request s (root : Value) (cRegCK : list Z) : cpp Value :=
  root ← clear root;
  mac ← c_str (cMac (ipmac (m_stDevInfo s)));
  mask ← c_str (cMask (ipmac (m_stDevInfo s)));
  regck ← c_str cRegCK;
  set_texts root
    [ (codes "cid", codes "1"); (codes "ip", m_qsCurrentIp s); (codes "mac", mac); (codes "ipMask", mask);
      (codes "regck", regck) ].

(** The document is copied into [cCmdBuf] without its terminator. *)
Definition copy_document (root : Value) (cCmdBuf : list Z) : cpp (list Z) :=
  text ← FastWriter.write false root; buf_write cCmdBuf 0 text.

(** A reply: [pSign], [olen] and the two places it may lie in. *)
Record reply := { pSign : list Z; r_len : Z; obuf_ : list Z; pData_ : option (list Z) }.

(** Connecting, one request, and the rest of a reply that does not fit; both
    exchanges of [RegAst].  The errors are the numbers of the exchange. *)
Definition talk (fuel : nat) (e_connect e_run : Z) (cbuf : list Z) (nLen : Z) (obuf : list Z) (pData : option (list Z)) s o
    : cpp (Z * reply * astServerCtrl * os W) :=
  let none := {| pSign := obuf; r_len := 4096; obuf_ := obuf; pData_ := pData |} in
  '(ret, c, o) ← connect_bind fuel true (InitClient (m_clsAstClient s) (m_qsCurrentIp s) 0) o;
  let s := set_client c s in
  if negb (ret =? 0) then Ret (e_connect, none, s, o)
  else
    s ← (if m_bChangeIp c then GetDevInfo (set_current_ip (m_clientip c) s) (world o) else Ret s);
    x ← run fuel c cbuf nLen (Some obuf) 4096 o;
    let s := set_client (r_client x) s in
    let ret := r_result x in
    let obuf := r_obuf x in
    if ret <? 0 then Ret (e_run, none, s, r_os x)
    else if 0 <? ret then
      let kept := match pData with Some b => if Z.of_nat (length b) <? ret then None else Some b | None => None end in
      match (match kept with Some b => Some b | None => malloc ret end) with
      | None => Undef
      | Some pData =>
          pData ← memcpy pData 0 obuf 0 8;
          '(_, tail, o) ← runcontinue fuel (r_client x) (ret - 8) (drop 8 pData) (r_os x);
          let pData := take 8 pData ++ tail in
          Ret (0, {| pSign := pData; r_len := ret; obuf_ := obuf; pData_ := Some pData |}, s, o)
      end
    else Ret (0, {| pSign := obuf; r_len := r_olen x; obuf_ := obuf; pData_ := pData |}, s, r_os x).

(** What the locals of [RegAst] hold at first. *)
Record ast_locals := { a_cbuf : list Z; a_obuf : list Z; a_put1 : junk; a_put2 : junk; a_reg : reg_locals }.

Definition zeros (n : nat) : list Z := replicate n 0.

(** From the first document to the key in the codec: the result, the arrays
    that are used again, the root and the memory of the reply. *)
Definition reg_first (fuel : nat) (l : ast_locals) s o
    : cpp (Z * list Z * list Z * Value * reply * astServerCtrl * os W) :=
  root ← first_request (m_stDevInfo s);
  cCmdBuf ← copy_document root (zeros 4096);
  '(ret, cbuf, nLen) ← PutData (a_put1 l) (m_clsAstPackage s) cCmdBuf 1 1 2 (zeros 4) (zeros 16) 0 (a_cbuf l) 1024;
  let none := {| pSign := a_obuf l; r_len := 4096; obuf_ := a_obuf l; pData_ := None |} in
  if negb (ret =? 0) then Ret (1, cCmdBuf, cbuf, root, none, s, o)
  else
    '(n, r, s, o) ← talk fuel 2 3 cbuf nLen (a_obuf l) None s o;
    if negb (n =? 0) then Ret (n, cCmdBuf, cbuf, root, r, s, o)
    else
      '(ret, _, p) ← RegFinish (a_reg l) (m_clsAstPackage s) (pSign r) (r_len r);
      Ret (if negb (ret =? 0) then 10 + ret else 0, cCmdBuf, cbuf, root, r, set_package p s, o).

(** The message that completes the registration, and its reply. *)
Definition reg_second (fuel : nat) (l : ast_locals) (cCmdBuf cbuf : list Z) (root : Value) (r : reply) s o
    : cpp (Z * astServerCtrl * os W) :=
  let '(_, c, o) := AstClient.close (m_clsAstClient s) o in
  let s := set_client c s in
  cAID ← ToAgentID (m_clsAstPackage s) (zeros 16);
  '(_, cMAC) ← MacByID (m_clsAstPackage s) cAID 12 (zeros 4) 4 1 (zeros 32);
  cRegCK ← encode cMAC 16 (zeros 64);
  root ← second_request s root cRegCK;
  cCmdBuf ← copy_document root cCmdBuf;
  '(ret, cbuf, nLen) ← PutData (a_put2 l) (m_clsAstPackage s) cCmdBuf 1 1 3 (zeros 4) cAID 1 cbuf 1024;
  if negb (ret =? 0) then Ret (4, s, o)
  else
    '(n, r, s, o) ← talk fuel 5 6 cbuf nLen (obuf_ r) (pData_ r) s o;
    if negb (n =? 0) then Ret (n, s, o)
    else
      ret ← RegAck (pSign r) (r_len r);
      Ret (if negb (ret =? 0) then (if 1000 <? ret then ret else 30 + ret) else 0, s, o).

(** [RegAst]; [EXIT_Reg] closes the connection. *)
Definition RegAst (fuel : nat) (l : ast_locals) s o : cpp (Z * astServerCtrl * os W) :=
  '(_, s, o) ← TryConnect fuel s o;
  s ← GetDevInfo s (world o);
  '(n, cCmdBuf, cbuf, root, r, s, o) ← reg_first fuel l s o;
  '(n, s, o) ← (if negb (n =? 0) then Ret (n, s, o) else reg_second fuel l cCmdBuf cbuf root r s o);
  let '(_, c, o) := AstClient.close (m_clsAstClient s) o in
  Ret (n, set_client c s, o).
End control.

(** ** Texts *)

(** A text that may be used as a format. *)
Definition printable (s : list Z) : Prop := Forall (fun c => 0 < c < 256 /\ c <> 37) s.

Lemma printable_nonzero s : printable s -> Forall (fun c => c <> 0) s.
Proof. intros Hs. eapply Forall_impl; [exact Hs|]. simpl. lia. Qed.
Lemma cstring_nonzero s : cstring s -> Forall (fun c => c <> 0) s.
Proof. intros Hs. eapply Forall_impl; [exact Hs|]. simpl. lia. Qed.
Lemma cstring_u8 s : cstring s -> Forall is_u8 s.
Proof. intros Hs. eapply Forall_impl; [exact Hs|]. unfold is_u8. simpl. lia. Qed.

Lemma qDebug_ok s r : printable s -> qDebug (s ++ 0 :: r) = Ret tt.
Proof.
  intros Hs. unfold qDebug. rewrite c_str_ok, bind_ret_l by by apply printable_nonzero.
  rewrite format_text_ok; [done|]. eapply Forall_impl; [exact Hs|]. simpl. lia.
Qed.

(** A directive in a received text is taken as a format. *)
Lemma received_format_undefined s c t r : printable s -> c <> 37 -> c <> 0 ->
  Forall (fun c => c <> 0) t -> qDebug ((s ++ 37 :: c :: t) ++ 0 :: r) = Undef.
Proof.
  intros Hs Hc H0 Ht. unfold qDebug. rewrite c_str_ok, bind_ret_l.
  - assert (E : format_text (s ++ 37 :: c :: t) = Undef); [|by rewrite E].
    induction Hs as [|d s [Hd Hd2] Hs IH]; cbn [app format_text].
    + change (37 =? 37) with true. cbv iota. by replace (c =? 37) with false by lia.
    + replace (d =? 37) with false by lia. by rewrite IH.
  - apply Forall_app_2; [by apply printable_nonzero|]. by repeat constructor.
Qed.

(** ** The members of the reply *)

Lemma take_member_ok m cm cid k x : upto_nul k = k -> map_find k m = Some x ->
  take_member (MkValue (d_object m) cm) cid k = Ret (MkValue (d_object m) cm, assign cid x).
Proof.
  intros Hk E. unfold take_member, resolveReference. change (become objectValue _) with (MkValue (d_object m) cm).
  cbn [value_ comments_]. rewrite Hk, (map_update_same k m x) by done. rewrite bind_ret_l. cbn [child value_]. by rewrite E.
Qed.

Lemma assign_value this x : value_ (assign this x) = value_ x.
Proof. done. Qed.

Lemma asString_assign this x : asString (assign this x) = asString x.
Proof. done. Qed.

(** An array that holds a zero right after the text copied into it. *)
Definition room_for (t array : list Z) : Prop := array !! length t = Some 0.

Lemma splice_room t array : room_for t array -> exists r, splice array 0 t = t ++ 0 :: r /\ (length t < length array)%nat.
Proof.
  intros E. pose proof (lookup_lt_Some _ _ _ E). exists (drop (S (length t)) array). split; [|done].
  unfold splice. change (take 0 array) with (@nil Z). cbn [app]. f_equal. rewrite Nat.add_0_l. by apply drop_S.
Qed.

Lemma take_text_ok m cm cid k x t array : upto_nul k = k -> map_find k m = Some x -> asString x = Ret t -> printable t ->
  room_for t array ->
  take_text (MkValue (d_object m) cm) cid k array = Ret (MkValue (d_object m) cm, assign cid x, splice array 0 t).
Proof.
  intros Hk E Es Ht Hr. unfold take_text. rewrite (take_member_ok m cm cid k x), bind_ret_l by done. cbv beta iota.
  rewrite asString_assign, Es, bind_ret_l. destruct (splice_room t array Hr) as (r & Er & Hl).
  rewrite buf_write_ok, bind_ret_l by lia. change (Z.to_nat 0) with 0%nat. rewrite Er, qDebug_ok by done. done.
Qed.

(** A document that registers: a member [cid] that reads ["1"] and the three texts. *)
Record registers (m : stdmap (list Z) Value) (aid ka mka : list Z) : Prop := {
  rg_cid : exists x, map_find (codes "cid") m = Some x /\ asString x = Ret (codes "1");
  rg_aid : exists x, map_find (codes "aid") m = Some x /\ asString x = Ret aid;
  rg_ka : exists x, map_find (codes "ka") m = Some x /\ asString x = Ret ka;
  rg_mka : exists x, map_find (codes "mka") m = Some x /\ asString x = Ret mka
}.

(** The arrays on the stack have their sizes, and happen to end the texts. *)
Record locals_ok (l : reg_locals) (aid ka mka : list Z) : Prop := {
  lo_sid : length (l_SID l) = 4%nat;
  lo_aid : length (l_AID l) = 16%nat;
  lo_ends : room_for aid (l_Aid l) /\ room_for ka (l_KA l) /\ room_for mka (l_MKA l);
  lo_tmp : (128 <= length (l_Tmp l))%nat;
  lo_out : (128 <= length (l_out l))%nat /\ Forall is_u8 (l_out l);
  lo_mac : length (l_mac l) = 32%nat;
  lo_junk : junk_ok (l_get l) /\ junk_ok (l_init l)
}.

Lemma spells_printable x : forall asc, spells asc x -> length asc = (2 * length x)%nat -> printable asc.
Proof.
  induction x as [|b x IH]; intros [|h [|l asc]] Hs Hl; simpl in Hl; try (lia || done); [constructor|].
  destruct Hs as (_ & Hh & Hlo & Hs). unfold is_hex in Hh, Hlo.
  constructor; [lia|]. constructor; [lia|]. apply IH; [done|lia].
Qed.
Lemma b64_printable x : Forall is_u8 x -> printable (b64 x).
Proof. intros Hx. eapply Forall_impl; [by apply b64_range|]. simpl. lia. Qed.

Section reply.
Variable p : astPackage.
Variables aid key mac asc : list Z.

Definition sid0 : list Z := [0; 0; 0; 0].
Definition session : list Z := derive (root_key p 0) sid0.
Definition ka_text : list Z := b64 (encrypted session key).
Definition mka_text : list Z := b64 mac.

(** What a server that holds the root key sends. *)
Record server_reply : Prop := {
  sr_key : length key = 32%nat /\ Forall is_u8 key;
  sr_mac : (length mac <= 32)%nat /\ Forall is_u8 mac;
  sr_aid : (length aid <= 64)%nat;
  sr_asc : spells asc aid /\ length asc = (2 * length aid)%nat
}.

(** The codec after the reply, and the result of [RegFinish]. *)
Definition accepted : bool := bool_decide (mac = take (length mac) (mac_of session key)).
Definition after_reply : Z * astPackage := if accepted then (0, registered p aid key) else (9, p).

Lemma reg_fields_ok l m kvs t w w' v tail :
  pkg_ok p -> server_reply -> m = w ++ t ++ w' -> spaces w -> spaces w' -> json_text v t -> value_ v = d_object kvs ->
  printable m -> Z.of_nat (length m) + 1 + Z.of_nat (length tail) < 2 ^ 31 ->
  registers kvs asc ka_text mka_text -> locals_ok l asc ka_text mka_text ->
  reg_fields l p (m ++ 0 :: tail) (Z.of_nat (length m)) sid0 = Ret after_reply.
Proof.
  intros Hp [[Hk Hku] [Hml Hmu] Haid [Hs Hsl]] Em Hw Hw' Ht Hv Hm Hl [(c & Ec & Sc) (a & Ea & Sa) (k & Ek & Sk) (x & Ex & Sx)]
    [Ls La (R1 & R2 & R3) Lt [Lo Lou] Lm [J1 J2]].
  unfold reg_fields. rewrite qDebug_ok, bind_ret_l by done.
  destruct (parse_range_ok Features_all v w t w' (0 :: tail) null false) as (r & E & Er & _); try done.
  { rewrite <- Em. cbn [length]. lia. }
  rewrite <- Em in E. rewrite E, bind_ret_l. cbv beta iota. rewrite Er.
  assert (Ev : assign null v = MkValue (d_object kvs) no_comments) by (unfold assign, swap, null, plain; cbn; by rewrite <- Hv).
  rewrite Ev, (take_member_ok kvs no_comments null _ c eq_refl Ec), bind_ret_l. cbv beta iota.
  rewrite asString_assign, Sc, bind_ret_l, bool_decide_eq_true_2 by done. cbn [negb].
  rewrite (take_text_ok kvs _ _ _ a asc) by (done || by eapply spells_printable). rewrite bind_ret_l. cbv beta iota.
  rewrite (take_text_ok kvs _ _ _ k ka_text) by (done || apply b64_printable, encrypted_u8). rewrite bind_ret_l. cbv beta iota.
  rewrite (take_text_ok kvs _ _ _ x mka_text) by (done || by apply b64_printable). rewrite bind_ret_l. cbv beta iota.
  destruct (splice_room _ _ R1) as (r1 & -> & _). destruct (splice_room _ _ R2) as (r2 & -> & _).
  destruct (splice_room _ _ R3) as (r3 & -> & _).
  rewrite (InitReg_ok (l_init l) (l_Tmp l) (l_out l) (l_mac l) p sid0 4 aid key mac); try done; try eval_decide.
  - rewrite bind_ret_l. change (derive (root_key p 0) (take (Z.to_nat 4) sid0)) with session. unfold after_reply, accepted.
    by destruct (bool_decide _).
  - split; try done; [by exists asc, r1|by exists r2|by exists r3].
Qed.
End reply.

(** ** [RegFinish] *)

Lemma GetMsgLen_ok msg n : (8 <= length msg)%nat -> slice 4 4 msg = be_bytes n -> 32 <= n < 2 ^ 31 ->
  GetMsgLen msg n = Ret n.
Proof.
  intros Hl Hs Hn. unfold GetMsgLen. rewrite GetBE32_ok, bind_ret_l by lia.
  rewrite (be_at_bytes _ msg n), s32_id by (done || unfold is_u32, is_int; lia). rewrite Z.eqb_refl. cbn [negb].
  rewrite size_t_small by lia. unfold sizeof_header. by replace (n <? 32) with false by lia.
Qed.

Lemma slice_prefix (pk rest : list Z) : (8 <= length pk)%nat -> slice 4 4 (pk ++ rest) = slice 4 4 pk.
Proof. intros Hl. apply slice_app_l. lia. Qed.

(** [malloc] finds room. *)
Definition roomy (malloc : Z -> option (list Z)) : Prop :=
  forall n, 0 < n < 2 ^ 31 -> exists b, malloc n = Some b /\ Z.of_nat (length b) = n.

Lemma splice_zeros n (m : list Z) : (length m < n)%nat -> exists r, splice (zeros n) 0 (m ++ [0]) = m ++ 0 :: r
  /\ (length m + 1 + length r = n)%nat.
Proof.
  intros Hl. exists (drop (length m + 1) (zeros n)). unfold splice, zeros. change (take 0 (replicate n 0)) with (@nil Z). cbn [app].
  rewrite length_app. cbn [length]. rewrite Nat.add_0_l. split; [by rewrite <- app_assoc|]. rewrite length_drop, length_replicate. lia.
Qed.

Lemma RegFinish_ok malloc l p aid key mac asc kvs v w t w' ver type flag aid0 b rest :
  let m := w ++ t ++ w' in let pk := packet (root_key p 0) m ver type flag sid0 aid0 in
  roomy malloc -> pkg_ok p -> server_reply aid key mac asc -> flag_ok flag -> length aid0 = 16%nat ->
  spaces w -> spaces w' -> json_text v t -> value_ v = d_object kvs -> printable m -> Z.of_nat (length m) + 128 < 2 ^ 31 ->
  registers kvs asc (ka_text p key) (mka_text mac) -> locals_ok l asc (ka_text p key) (mka_text mac) ->
  RegFinish malloc l p (pk ++ b :: rest) (Z.of_nat (length pk))
    = Ret ((after_reply p aid key mac).1, pk ++ 0 :: rest, (after_reply p aid key mac).2).
Proof.
  intros m pk Hm Hp Hr Hf Ha Hw Hw' Ht Hv Hpr Hl Hg Hlo.
  pose proof (length_packet (root_key p 0) m ver type flag sid0 aid0 eq_refl Ha) as Lp. fold pk in Lp.
  pose proof (length_pad1 m) as Lm.
  assert (Hfr : framed pk) by (apply packet_framed; done || lia). destruct Hfr as (Hs & Hl8 & Hl31).
  assert (Lpk : (32 + length m <= length pk <= 48 + length m)%nat) by (rewrite Lp; destruct (flag =? 3); lia).
  unfold RegFinish. rewrite (GetMsgLen_ok _ (Z.of_nat (length pk))), bind_ret_l;
    [|rewrite length_app; lia|by rewrite slice_prefix by lia|lia].
  rewrite (proj2 (Z.leb_gt _ 0)) by lia. rewrite int_checked_id, bind_ret_l by (unfold is_int; lia).
  destruct (Hm (Z.of_nat (length pk) + 1) ltac:(lia)) as (buf & -> & Lb).
  unfold memset. rewrite decide_True, buf_write_ok, bind_ret_l by (rewrite ?length_replicate; lia).
  rewrite splice_all by (rewrite length_replicate; lia). set (n := Z.to_nat _). fold (zeros n).
  destruct Hlo as [Ls La Lr Lt Lo Lm' [J1 J2]] eqn:Elo. clear Elo.
  pose proof (GetData_ok (l_get l) p m ver type flag sid0 aid0 0 b rest
    {| g_ver := 0; g_type := 0; g_sid := l_SID l; g_aid := l_AID l; g_data := zeros n; g_datalen := Z.of_nat (length pk) + 1 |}) as E.
  cbv zeta in E. fold pk in E. cbn [g_sid g_aid g_data g_datalen] in E. rewrite E; clear E; try done; try lia.
  - rewrite bind_ret_l. cbv beta iota. cbn [negb Z.eqb g_sid g_data g_datalen]. rewrite (splice_all (l_SID l)) by (by rewrite Ls).
    rewrite buf_read_ok, bind_ret_l by (cbn; lia). rewrite bool_decide_eq_true_2 by done. cbn [negb].
    destruct (splice_zeros n m) as (r & -> & Lr'); [lia|].
    rewrite (reg_fields_ok p aid key mac asc l m kvs t w w' v r); try done; try lia.
    rewrite bind_ret_l. by destruct (after_reply p aid key mac).
  - eapply Forall_impl; [exact Hpr|]. unfold is_u8. simpl. lia.
  - eval_decide.
  - unfold zeros. rewrite length_replicate. lia.
Qed.

(** The buffer of a reply that did not fit is as long as the reply, and
    [GetData] writes one more byte. *)
Lemma exact_buffer_overflows malloc l p msg : roomy malloc -> (8 <= length msg)%nat -> 32 <= Z.of_nat (length msg) < 2 ^ 31 - 1 ->
  slice 4 4 msg = be_bytes (Z.of_nat (length msg)) -> RegFinish malloc l p msg (Z.of_nat (length msg)) = Undef.
Proof.
  intros Hm Hl Hn Hs. unfold RegFinish. rewrite GetMsgLen_ok, bind_ret_l by (done || lia).
  rewrite (proj2 (Z.leb_gt _ 0)) by lia. rewrite int_checked_id, bind_ret_l by (unfold is_int; lia).
  destruct (Hm (Z.of_nat (length msg) + 1) ltac:(lia)) as (buf & -> & Lb).
  unfold memset. rewrite decide_True, buf_write_ok, bind_ret_l by (rewrite ?length_replicate; lia).
  unfold GetData. rewrite andb_false_r. unfold buf_write at 1.
  destruct (decide _) as [H|H]; [|done]. cbn [length] in H. lia.
Qed.

(** ** The document of the request *)

Definition quoted (s : list Z) : list Z := 34 :: mjoin (escape_char <$> s) ++ [34].

Lemma escape_none s : existsb needs_escape s = false -> containsControlCharacter s = false -> mjoin (escape_char <$> s) = s.
Proof.
  induction s as [|c s IH]; [done|]. cbn [existsb]. intros [Hc Hs]%orb_false_iff [Hd Ht]%orb_false_iff.
  change (mjoin (escape_char <$> c :: s)) with (escape_char c ++ mjoin (escape_char <$> s)). rewrite IH by done. unfold needs_escape in Hc. apply bool_decide_eq_false in Hc.
  rewrite !not_elem_of_cons in Hc. destruct Hc as (? & ? & ? & ? & ? & ? & ? & _). unfold escape_char. rewrite Hd.
  repeat (rewrite (proj2 (Z.eqb_neq _ _)) by done). done.
Qed.

Lemma valueToQuotedString_quoted s : valueToQuotedString (Some s) = Ret (quoted s).
Proof.
  unfold valueToQuotedString, quoted. destruct (existsb needs_escape s) eqn:E1; [done|].
  destruct (containsControlCharacter s) eqn:E2; [done|]. by rewrite escape_none.
Qed.

(** An object of texts and its compact document. *)
Definition text_members (kvs : list (list Z * list Z)) : stdmap (list Z) Value := (fun '(k, t) => (k, Value_string t)) <$> kvs.
Fixpoint member_texts (more : bool) (kvs : list (list Z * list Z)) : list Z :=
  match kvs with
  | [] => []
  | (k, t) :: r => comma more ++ quoted k ++ [58] ++ quoted t ++ member_texts true r
  end.
Definition texts_document (kvs : list (list Z * list Z)) : list Z := 123 :: member_texts false kvs ++ [125; 10].

Lemma write_text f yaml t doc : cstring t -> FastWriter.writeValue (S f) yaml (Value_string t) doc = Ret (doc ++ quoted t).
Proof.
  intros Ht. cbn [FastWriter.writeValue]. change (type_ (Value_string t)) with stringValue. cbv iota.
  unfold Value_string. cbn [asCString plain value_]. rewrite bind_ret_l, (upto_nul_id t) by done.
  by rewrite valueToQuotedString_quoted, bind_ret_l.
Qed.

Lemma texts_written kvs : map_sorted (text_members kvs) -> Forall (fun '(k, t) => cstring k /\ cstring t) kvs ->
  FastWriter.write false (plain (d_object (text_members kvs))) = Ret (texts_document kvs).
Proof.
  intros Hs Hk. unfold FastWriter.write. set (m := text_members kvs) in *. cbn [height plain value_].
  change (FastWriter.writeValue (S ?n) false _ []) with (FastWriter.writeValue (S n) false (MkValue (d_object m) no_comments) []).
  cbn [FastWriter.writeValue type_ value_ getMemberNames]. rewrite bind_ret_l, app_doc_ok, bind_ret_l.
  assert (H : forall r i doc, (forall k t, (k, t) ∈ r -> (k, t) ∈ kvs) ->
    cfold (fun i name document =>
      document ← (if 0 <? Z.of_nat i then FastWriter.app_doc (codes ",") document else Ret document);
      t ← valueToQuotedString (Some name);
      document ← FastWriter.app_doc t document;
      document ← FastWriter.app_doc (codes ":") document;
      child ← member_get (MkValue (d_object m) no_comments) name;
      FastWriter.writeValue (foldr (fun '(_, c) n => Nat.max (height c) n) O m) false (default null child) document)
      i r.*1 doc = Ret (doc ++ member_texts (0 <? Z.of_nat i) r)).
  { induction r as [|[k t] r IH]; intros i doc Hr; [by rewrite app_nil_r|]. cbn [fmap list_fmap cfold fst].
    assert (Hin : (k, t) ∈ kvs) by (apply Hr; left). rewrite Forall_forall in Hk. destruct (Hk _ Hin) as [Ck Ct].
    assert (Hm : (k, Value_string t) ∈ m) by (apply list_elem_of_fmap; by exists (k, t)).
    rewrite fast_comma, bind_ret_l, valueToQuotedString_quoted, bind_ret_l, !app_doc_ok, bind_ret_l, app_doc_ok, bind_ret_l,
      (member_found m _ k (Value_string t)), bind_ret_l by done. cbn [default from_option].
    pose proof (height_in m k _ Hm) as Hh. destruct (foldr _ O m) as [|f] eqn:Ef; [change (height (Value_string t)) with 1%nat in Hh; lia|].
    change (id ?x) with x. rewrite write_text, bind_ret_l by done. rewrite <- Ef in *. rewrite IH by (intros; apply Hr; by right). cbn [member_texts].
    assert (Hi : (0 <? Z.of_nat (S i)) = true) by (apply Z.ltb_lt; lia). rewrite Hi. f_equal. rewrite <- !app_assoc. done. }
  change (m.*1) with ((text_members kvs).*1). unfold text_members at 1. rewrite <- list_fmap_compose.
  rewrite (list_fmap_ext _ fst) by (by intros ? [] _). rewrite H, bind_ret_l by auto.
  by rewrite app_doc_ok, bind_ret_l, app_doc_ok, <- !app_assoc.
Qed.

Lemma escape_char_bytes c : 0 < c < 256 -> cstring (escape_char c).
Proof.
  intros Hc. assert (H : forallb (fun c => forallb (fun d => (0 <? d) && (d <? 256)) (escape_char c)) (seqZ 1 255) = true)
    by (vm_compute; reflexivity).
  rewrite forallb_forall in H. specialize (H c ltac:(apply list_elem_of_In, elem_of_seqZ; lia)).
  apply Forall_forall. intros d Hd. rewrite forallb_forall in H. specialize (H d ltac:(by apply list_elem_of_In)). lia.
Qed.

Lemma quoted_bytes s : cstring s -> cstring (quoted s).
Proof.
  intros Hs. unfold quoted. constructor; [lia|]. apply Forall_app_2; [|repeat constructor].
  induction Hs as [|c s Hc Hs IH]; [constructor|].
  change (mjoin (escape_char <$> c :: s)) with (escape_char c ++ mjoin (escape_char <$> s)).
  apply Forall_app_2; [by apply escape_char_bytes|done].
Qed.

Lemma texts_bytes kvs : Forall (fun '(k, t) => cstring k /\ cstring t) kvs -> cstring (texts_document kvs).
Proof.
  intros Hk. unfold texts_document. constructor; [lia|]. apply Forall_app_2; [|repeat constructor].
  generalize false. induction Hk as [|[k t] r [Ck Ct] _ IH]; intros more; cbn [member_texts]; [constructor|].
  repeat apply Forall_app_2; try (by apply quoted_bytes); [destruct more| |apply IH]; repeat constructor.
Qed.

(** The reader takes the document as the object. *)
Lemma texts_spelled kvs : map_sorted (text_members kvs) -> Forall (fun '(k, t) => cstring k /\ cstring t) kvs ->
  json_text (plain (d_object (text_members kvs))) (123 :: member_texts false kvs ++ [125]).
Proof.
  intros Hs Hk. set (v := plain (d_object (text_members kvs))).
  assert (Hin : forall k x, (k, x) ∈ text_members kvs -> exists t, x = Value_string t /\ cstring k /\ cstring t).
  { intros k x ([k' t] & [= -> ->] & Hi)%list_elem_of_fmap. rewrite Forall_forall in Hk. exists t. by destruct (Hk _ Hi). }
  pose proof no_comments_ok as Hn.
  assert (Hw : wf v).
  { apply wf_object. split; [done|]. split; [done|]. apply Forall_forall. intros [k x] Hi.
    destruct (Hin k x Hi) as (t & -> & Hc & Ht). split; [done|]. split; [done|]. cbn. by rewrite upto_nul_id. }
  assert (Hr : writable v).
  { apply all_Forall, Forall_forall. intros [k x] Hi. destruct (Hin k x Hi) as (t & -> & _). by eexists. }
  assert (Hd : settled v).
  { split; [done|]. apply all_Forall, Forall_forall. intros [k x] Hi. by destruct (Hin k x Hi) as (t & -> & _). }
  destruct (fast_write (height v) false v []) as (t & E & Ht); [by split|].
  rewrite norm_settled in Ht by done. pose proof (texts_written kvs Hs Hk) as Ew. unfold FastWriter.write in Ew. fold v in Ew.
  rewrite E, bind_ret_l, app_doc_ok in Ew. injection Ew as Ew. cbn [app] in Ew. unfold texts_document in Ew.
  assert (Et : t ++ [10] = (123 :: member_texts false kvs ++ [125]) ++ [10]) by (rewrite Ew; cbn [app]; by rewrite <- app_assoc).
  apply app_inj_tail in Et as [-> _]. done.
Qed.

Lemma texts_parsed features kvs : map_sorted (text_members kvs) -> Forall (fun '(k, t) => cstring k /\ cstring t) kvs ->
  Z.of_nat (length (texts_document kvs)) < 2 ^ 31 - 1 ->
  exists r, parse features (texts_document kvs) null false = Ret (true, r) /\ root_ r = plain (d_object (text_members kvs)).
Proof.
  intros Hs Hk Hl. pose proof (texts_spelled kvs Hs Hk) as Ht.
  assert (E : texts_document kvs = [] ++ (123 :: member_texts false kvs ++ [125]) ++ [10])
    by (unfold texts_document; cbn [app]; by rewrite <- app_assoc).
  rewrite E in *. destruct (parse_ok features _ [] _ [10] null false Ht) as (r & Er & Hr & _); [constructor|by repeat constructor|done|].
  exists r. split; [|exact Hr]. rewrite Er. unfold root_allowed. by destruct (strictRoot_ features).
Qed.

(** The members of the request, in the order of their names. *)
Definition request_members (ip mac mask os_name arch : list Z) : list (list Z * list Z) :=
  [ (codes "architecture", arch); (codes "cid", codes "1"); (codes "ip", ip); (codes "ipMask", mask); (codes "mac", mac);
    (codes "os", os_name); (codes "osType", codes "linux"); (codes "port", codes "10086") ].

(** A device whose address, hardware address and mask end in their arrays. *)
Record device (d : ST_DEV_INFO) (ip mac mask os_name arch : list Z) : Prop := {
  dv_ip : exists r, cIp (ipmac d) = ip ++ 0 :: r;
  dv_mac : exists r, cMac (ipmac d) = mac ++ 0 :: r;
  dv_mask : exists r, cMask (ipmac d) = mask ++ 0 :: r;
  dv_system : strOsName (stSystemInfo d) = os_name /\ strArchitecture (stSystemInfo d) = arch;
  dv_texts : cstring ip /\ cstring mac /\ cstring mask /\ cstring os_name /\ cstring arch
}.

Lemma first_request_ok d ip mac mask os_name arch : device d ip mac mask os_name arch ->
  first_request d = Ret (plain (d_object (text_members (request_members ip mac mask os_name arch)))).
Proof.
  intros [[r1 E1] [r2 E2] [r3 E3] [E4 E5] (C1 & C2 & C3 & C4 & C5)]. unfold first_request.
  rewrite E1, E2, E3, E4, E5. rewrite !c_str_ok by by apply cstring_nonzero. rewrite !bind_ret_l. reflexivity.
Qed.

Lemma request_members_ok ip mac mask os_name arch : cstring ip -> cstring mac -> cstring mask -> cstring os_name -> cstring arch ->
  map_sorted (text_members (request_members ip mac mask os_name arch)) /\
  Forall (fun '(k, t) => cstring k /\ cstring t) (request_members ip mac mask os_name arch).
Proof.
  intros C1 C2 C3 C4 C5. split.
  - by apply sortedb_sorted.
  - repeat apply Forall_cons_2; try (split; [eval_decide|]; first [done|eval_decide]). constructor.
Qed.

(** ** The exchange *)

Section exchange.
Context {W : Type} `{!System W, !Machine W}.
Variable malloc : Z -> option (list Z).
Hypothesis malloc_roomy : roomy malloc.

(** The system opens the two sockets, binds the second and connects it. *)
Definition route (ip server : list Z) (port fd : Z) (w w' : W) : Prop :=
  exists fd0 w0 w1 w2 e, sys_socket w = (fd0, w0) /\ 0 <= fd0 /\ sys_socket w0 = (fd, w1) /\
    sys_bind w1 fd ip 0 = (0, w2) /\ sys_connect w2 fd server port = (0, e, w').

Lemma connect_bind_ok fuel c ip fd w (o : os W) : route ip (m_ip c) (m_port c) fd (world o) w ->
  exists o', connect_bind fuel true (InitClient c ip 0) o = Ret (0, set_fd fd (set_change false (InitClient c ip 0)), o')
    /\ world o' = w.
Proof.
  intros (fd0 & w0 & w1 & w2 & e & E0 & Hfd & E1 & E2 & E3). unfold connect_bind, connect_first, bindClientIP, build, build_stream.
  rewrite E0. cbn [set_fd set_change InitClient m_fd m_clientip m_clientport world set_world]. rewrite (proj2 (Z.ltb_ge fd0 0)) by done.
  rewrite E1. cbn [set_fd set_change InitClient m_fd m_clientip m_clientport world set_world].
  unfold Socket.bind. cbn [world set_world]. rewrite E2. cbn [Z.eqb negb].
  unfold connect_server, Socket.connect. cbn [set_errno world set_world m_fd m_ip m_port set_fd set_change InitClient]. rewrite E3. cbn [Z.eqb andb].
  rewrite bind_ret_l. cbn [Z.eqb negb]. rewrite bind_ret_l. cbn [Z.eqb negb andb]. by eexists.
Qed.

(** A live connection to a server whose reply [pk] is under way. *)
Lemma talk_ok fuel e1 e2 cbuf slen obuf pk rest s (o : os W) fd w `{!Connection W fd} :
  route (m_qsCurrentIp s) (m_ip (m_clsAstClient s)) (m_port (m_clsAstClient s)) fd (world o) w -> alive w ->
  1000 <= m_timeout (m_clsAstClient s) -> Z.of_nat (length cbuf) < 2 ^ 31 -> (slen <= length cbuf)%nat -> length obuf = 4096%nat ->
  framed pk -> incoming w = pk ++ rest -> (length pk <= 4096)%nat -> (slen + length pk + patience w < fuel)%nat ->
  exists s' o', talk malloc fuel e1 e2 cbuf (Z.of_nat slen) obuf None s o =
      Ret (0, {| pSign := splice obuf 0 pk; r_len := Z.of_nat (length pk); obuf_ := splice obuf 0 pk; pData_ := None |}, s', o')
    /\ m_clsAstPackage s' = m_clsAstPackage s /\ incoming (world o') = rest
    /\ outgoing (world o') = outgoing w ++ take slen cbuf.
Proof.
  intros Hr Ha Ht Hc Hs Ho Hf Hi Hl Hfu. unfold talk.
  destruct (connect_bind_ok fuel (m_clsAstClient s) (m_qsCurrentIp s) fd w o Hr) as (o1 & E & <-).
  rewrite E, bind_ret_l. cbv beta iota. cbn [Z.eqb negb]. change (m_bChangeIp (set_fd _ _)) with false. cbv iota. rewrite bind_ret_l.
  set (c := set_fd fd _). destruct (run_ok c Ht fuel cbuf slen obuf 4096 pk rest o1) as (o2 & E2 & I2 & O2 & A2); try done; try lia.
  rewrite E2, bind_ret_l. cbn [r_result r_obuf r_olen r_client r_os]. cbn [Z.ltb Z.compare]. eexists _, o2. split; [reflexivity|].
  by split.
Qed.

(** The arrays of [RegAst] have their sizes. *)
Record ast_locals_ok (l : ast_locals) (aid ka mka : list Z) : Prop := {
  al_cbuf : length (a_cbuf l) = 1024%nat;
  al_obuf : length (a_obuf l) = 4096%nat;
  al_put : junk_ok (a_put1 l);
  al_reg : locals_ok (a_reg l) aid ka mka
}.

Lemma copy_document_ok kvs : map_sorted (text_members kvs) -> Forall (fun '(k, t) => cstring k /\ cstring t) kvs ->
  (length (texts_document kvs) < 4096)%nat ->
  exists r, copy_document (plain (d_object (text_members kvs))) (zeros 4096) = Ret (texts_document kvs ++ 0 :: r).
Proof.
  intros Hs Hk Hl. unfold copy_document. rewrite texts_written, bind_ret_l by done.
  assert (Lz : length (zeros 4096) = 4096%nat) by apply length_replicate. rewrite buf_write_ok by lia.
  destruct (splice_room (texts_document kvs) (zeros 4096)) as (r & E & _); [by apply lookup_replicate_2|].
  exists r. by rewrite <- E.
Qed.

(** The first request is packed into the buffer. *)
Lemma request_packed j p d cbuf ip mac mask os_name arch :
  let text := texts_document (request_members ip mac mask os_name arch) in
  let pk := packet (root_key p 0) text 1 1 2 sid0 (zeros 16) in
  junk_ok j -> pkg_ok p -> device d ip mac mask os_name arch -> (length text <= 992)%nat -> length cbuf = 1024%nat ->
  exists root cCmdBuf, first_request d = Ret root /\ copy_document root (zeros 4096) = Ret cCmdBuf
    /\ PutData j p cCmdBuf 1 1 2 (zeros 4) (zeros 16) 0 cbuf 1024 = Ret (0, splice cbuf 0 pk, Z.of_nat (length pk))
    /\ (length pk <= 1024)%nat.
Proof.
  intros text pk Hj Hp Hd Hl Lc. pose proof (first_request_ok d _ _ _ _ _ Hd) as E1.
  destruct Hd as [_ _ _ _ (C1 & C2 & C3 & C4 & C5)]. destruct (request_members_ok ip mac mask os_name arch) as [Hs Hk]; [assumption..|].
  destruct (copy_document_ok _ Hs Hk) as (r & E2); [fold text; lia|]. fold text in E2.
  pose proof (length_packet (root_key p 0) text 1 1 2 sid0 (zeros 16) eq_refl eq_refl) as Lp. cbn [Z.eqb Pos.eqb] in Lp. fold pk in Lp.
  eexists _, _. split; [exact E1|]. split; [exact E2|]. split; [|lia].
  apply (PutData_ok j p text r 1 1 2 sid0 (zeros 16) 0 cbuf 1024 Hj Hp); fold pk; try reflexivity; try lia.
  - right. by left.
  - by apply texts_bytes.
  - eval_decide.
Qed.

(** C11: registration.  The agent sends the JSON document of its device, which a reader takes as the object of its
    members, in a packet under the root key; from the reply of a server that holds that key, however the transfers are cut, it takes the identifier and the key of the document and
    ends with the key in the codec, and if the MAC of the document is not that of the key, with the error 19
    and the codec as it was. *)
Theorem registration fuel l s (o : os W) fd w `{!Connection W fd} ip mac mask os_name arch
    aid key mc asc kvs v wl t wr ver type flag aid0 rest :
  let p := m_clsAstPackage s in
  let text := texts_document (request_members ip mac mask os_name arch) in
  let pk := packet (root_key p 0) (wl ++ t ++ wr) ver type flag sid0 aid0 in
  pkg_ok p -> ast_locals_ok l asc (ka_text p key) (mka_text mc) ->
  device (m_stDevInfo s) ip mac mask os_name arch -> (length text <= 992)%nat ->
  route (m_qsCurrentIp s) (m_ip (m_clsAstClient s)) (m_port (m_clsAstClient s)) fd (world o) w -> alive w ->
  1000 <= m_timeout (m_clsAstClient s) -> incoming w = pk ++ rest -> (length pk < 4096)%nat ->
  (1024 + 4096 + patience w < fuel)%nat ->
  server_reply aid key mc asc -> flag_ok flag -> length aid0 = 16%nat ->
  spaces wl -> spaces wr -> json_text v t -> value_ v = d_object kvs -> printable (wl ++ t ++ wr) ->
  registers kvs asc (ka_text p key) (mka_text mc) ->
  exists n cCmdBuf cbuf root r s' o', reg_first malloc fuel l s o = Ret (n, cCmdBuf, cbuf, root, r, s', o')
    /\ outgoing (world o') = outgoing w ++ packet (root_key p 0) text 1 1 2 sid0 (zeros 16)
    /\ incoming (world o') = rest
    /\ (forall features, exists rd, parse features text null false = Ret (true, rd)
          /\ root_ rd = plain (d_object (text_members (request_members ip mac mask os_name arch))))
    /\ if bool_decide (mc = take (length mc) (mac_of (session p) key))
       then n = 0 /\ m_clsAstPackage s' = registered p aid key
       else n = 19 /\ m_clsAstPackage s' = p.
Proof.
  intros p text pk Hp [Lc Lo Hj Hl] Hd Htl Hr Ha Hti Hi Hpk Hf Hsr Hfl Laid Hwl Hwr Ht Hv Hpr Hg.
  destruct (request_packed (a_put1 l) p (m_stDevInfo s) (a_cbuf l) ip mac mask os_name arch) as (root & cmd & E1 & E2 & E3 & L1);
    [assumption..|]. fold text in E3, L1. set (pk1 := packet (root_key p 0) text 1 1 2 sid0 (zeros 16)) in *.
  assert (Lm : (32 + length (wl ++ t ++ wr) <= length pk)%nat).
  { unfold pk. rewrite length_packet by (reflexivity || assumption). pose proof (length_pad1 (wl ++ t ++ wr)). destruct (flag =? 3); lia. }
  unfold reg_first. rewrite E1, bind_ret_l, E2, bind_ret_l. fold p. rewrite E3, bind_ret_l. cbv beta iota. cbn [Z.eqb negb].
  destruct (talk_ok fuel 2 3 (splice (a_cbuf l) 0 pk1) (length pk1) (a_obuf l) pk rest s o fd w) as (s1 & o1 & E & P1 & I1 & O1);
    rewrite ?length_splice by lia; try assumption; try lia.
  { apply packet_framed; [reflexivity|assumption|lia]. }
  rewrite E, bind_ret_l. cbv beta iota. cbn [Z.eqb negb pSign r_len]. rewrite P1. fold p.
  destruct (splice_start (a_obuf l) pk) as (b & q & Es); [lia|].
  rewrite Es. pose proof (RegFinish_ok malloc (a_reg l) p aid key mc asc kvs v wl t wr ver type flag aid0 b q) as Ef.
  cbv zeta in Ef. fold pk in Ef. rewrite Ef by (assumption || lia). rewrite bind_ret_l.
  assert (Et : take (length pk1) (splice (a_cbuf l) 0 pk1) = pk1) by (apply (take_splice _ 0); lia). rewrite Et in O1.
  destruct (request_members_ok ip mac mask os_name arch) as [Hs Hk]; [apply Hd..|].
  unfold after_reply, accepted. destruct (bool_decide _);
    (eexists _, _, _, _, _, _, o1; split; [reflexivity|]; split; [exact O1|]; split; [exact I1|];
     split; [intros features; apply texts_parsed; [exact Hs|exact Hk|fold text; lia]|]; split; reflexivity).
Qed.

(** ** What the rest of [RegAst] does *)

Lemma InitReg_status j t out m p aid ka mka id n r p' : InitReg j t out m p aid ka mka id n = Ret (r, p') -> 0 <= r <= 3.
Proof.
  unfold InitReg. intros H. cpp_open H. cpp_test H; [injection H as <- _; lia|]. cpp_open H.
  cpp_test H; [injection H as <- _; lia|]. cpp_open H. cpp_test H; [injection H as <- _; lia|]. cpp_open H.
  injection H as <- _. lia.
Qed.

Lemma RegFinish_status l p msg n r msg' p' : RegFinish malloc l p msg n = Ret (r, msg', p') -> 0 <= r <= 9.
Proof.
  unfold RegFinish. intros H. cpp_open H. cpp_test H; [injection H as <- _ _; lia|]. cpp_open H.
  match type of H with (match malloc ?x with _ => _ end) = _ => destruct (malloc x) end; [|injection H as <- _ _; lia]. cpp_open H. cpp_test H; [injection H as <- _ _; lia|]. cpp_open H.
  cpp_test H; [injection H as <- _ _; lia|]. cpp_inv H.
  match type of H with (match ?x with (_, _) => _ end) = _ => destruct x as [k p2] end. injection H as <- _ _.
  match goal with R : reg_fields _ _ _ _ _ = Ret (k, p2) |- _ => rename R into F end. unfold reg_fields in F.
  cpp_open F. cpp_test F; [injection F as <- _; lia|]. cpp_open F.
  match goal with R : InitReg _ _ _ _ _ _ _ _ _ _ = _ |- _ => apply InitReg_status in R end. injection F as <- _.
  case_match; lia.
Qed.

Lemma talk_status fuel e1 e2 cbuf n obuf pd s (o : os W) k r s' o' :
  talk malloc fuel e1 e2 cbuf n obuf pd s o = Ret (k, r, s', o') -> k = e1 \/ k = e2 \/ k = 0.
Proof.
  unfold talk. intros H. cpp_open H. cpp_test H; [injection H as <- _ _ _; auto|]. cpp_open H.
  cpp_test H; [injection H as <- _ _ _; auto|]. cpp_test H; [|injection H as <- _ _ _; auto].
  case_match; [|done]. cpp_open H. injection H as <- _ _ _. auto.
Qed.

Lemma reg_first_status fuel l s (o : os W) n cmd cbuf root r s' o' :
  reg_first malloc fuel l s o = Ret (n, cmd, cbuf, root, r, s', o') -> 0 <= n <= 19.
Proof.
  unfold reg_first. intros H. cpp_open H. cpp_test H; [injection H as <- _ _ _ _ _ _; lia|]. cpp_open H.
  match goal with T : talk _ _ _ _ _ _ _ _ _ _ = _ |- _ => apply talk_status in T end.
  cpp_test H; [injection H as <- _ _ _ _ _ _; lia|]. cpp_open H.
  match goal with T : RegFinish _ _ _ _ _ = _ |- _ => apply RegFinish_status in T end.
  injection H as <- _ _ _ _ _ _. case_match; lia.
Qed.

Lemma reg_second_status fuel l cmd cbuf root r s (o : os W) n s' o' :
  reg_second malloc fuel l cmd cbuf root r s o = Ret (n, s', o') -> 4 <= n <= 6.
Proof.
  unfold reg_second. intros H. match type of H with (match ?x with (_, _) => _ end) = _ => destruct x as [[? ?] ?] end.
  cpp_open H. cpp_test H; [injection H as <- _ _; lia|]. cpp_open H.
  match goal with T : talk _ _ _ _ _ _ _ _ _ _ = _ |- _ => apply talk_status in T end.
  cpp_test H; [injection H as <- _ _; lia|]. cpp_open H. done.
Qed.

(** [RegAck] has no [return], so that [RegAst] never reports a success. *)
Lemma registration_never_succeeds fuel l s (o : os W) n s' o' : RegAst malloc fuel l s o = Ret (n, s', o') -> 1 <= n <= 19.
Proof.
  unfold RegAst. intros H. cpp_open H.
  match goal with T : reg_first _ _ _ _ _ = _ |- _ => apply reg_first_status in T end.
  match type of H with (match ?x with (_, _) => _ end) = _ => destruct x as [[? ?] ?] end. injection H as <- _ _.
  match goal with T : (if _ then _ else _) = _ |- _ => rename T into F end. cpp_test F; [injection F as <- _ _; lia|].
  apply reg_second_status in F. lia.
Qed.
End exchange.

(** ** A registration *)

#[global] Instance peer_machine : Machine peer := {
  net_info w := Some [{| qsIp := codes "10.0.0.2"; qsMac := codes "C4:34"; qsMask := codes "255.0.0.0" |}];
  system_info w := None;
  getCpuFamily w := None;
  getCpuModel w := None;
  getCpuModelName w := None;
  getCpuVendor w := None;
  getCpuMHZ w := None;
  getCpuCache w := None;
  mem_info w := None;
  m_stDiskHardInfo w := None;
  disks w := None
}.

Definition sample_dev : ST_DEV_INFO :=
  {| ipmac := {| cIp := codes "10.0.0.2" ++ zeros 24; cMac := codes "C4:34" ++ zeros 27; cMask := codes "255.0.0.0" ++ zeros 23 |};
     strUserName := []; strPcName := []; strDomainName := [];
     stSystemInfo := {| strOsName := codes "UOS"; strOsVersion := []; strOsLanguage := []; strLastUpTime := [];
                        strArchitecture := codes "arm64"; strInstallTime := [] |};
     stCpuInfo := {| strProcessorId := []; strVendorId := []; strCpuFamily := []; strModel := []; strModelName := [];
                     nCpuMHZ := 0; nCacheSize := 0 |};
     stMemInfo := {| nMemSize := 0; nUsedSize := 0 |}; vecDiskInfo := []; vecLogicalDisk := [] |}.

Definition sample_ctrl : astServerCtrl :=
  {| m_clsAstPackage := sample_pkg; m_clsAstClient := demo_client; m_stServerInfo := ST_SERVER_INFO_init;
     m_stDevInfo := sample_dev; m_qsCurrentIp := codes "10.0.0.2" |}.

Definition sample_locals : ast_locals :=
  {| a_cbuf := replicate 1024 9; a_obuf := replicate 4096 9; a_put1 := sample_junk; a_put2 := sample_junk;
     a_reg := {| l_SID := replicate 4 9; l_AID := replicate 16 9; l_Aid := zeros 128; l_KA := zeros 128; l_MKA := zeros 128;
                 l_Tmp := replicate 128 9; l_out := replicate 128 9; l_mac := replicate 32 9; l_get := sample_junk;
                 l_init := sample_junk |} |}.

Definition sample_malloc (n : Z) : option (list Z) := Some (replicate (Z.to_nat n) 7).

Lemma sample_roomy : roomy sample_malloc.
Proof. intros n Hn. eexists. split; [reflexivity|]. rewrite length_replicate. lia. Qed.

Definition sample_key : list Z := replicate 32 8.
Definition sample_mac : list Z := take 16 (mac_of (session sample_pkg) sample_key).
Definition sample_texts : list (list Z * list Z) :=
  [ (codes "aid", codes "0aFf"); (codes "cid", codes "1"); (codes "ka", ka_text sample_pkg sample_key);
    (codes "mka", mka_text sample_mac) ].
Definition sample_answer : list Z := 123 :: member_texts false sample_texts ++ [125].

Lemma sample_texts_ok : map_sorted (text_members sample_texts) /\
  Forall (fun '(k, t) => cstring k /\ cstring t) sample_texts.
Proof.
  split; [by apply sortedb_sorted|].
  repeat apply Forall_cons_2; try (split; [eval_decide|]; eval_decide). constructor.
Qed.

Lemma registration_witness :
  let request := texts_document (request_members (codes "10.0.0.2") (codes "C4:34") (codes "255.0.0.0") (codes "UOS") (codes "arm64")) in
  let pk := packet (replicate 32 5) (sample_answer ++ [10]) 1 2 2 sid0 (zeros 16) in
  exists cCmdBuf cbuf root r s' o', reg_first sample_malloc (2000 + 2000 + 2000) sample_locals sample_ctrl (demo_os (pk ++ [77]))
      = Ret (0, cCmdBuf, cbuf, root, r, s', o')
    /\ m_clsAstPackage s' = mk_astPackage (replicate 32 5) (replicate 32 8) false ([10; 255] ++ zeros 62) 2 (zeros 64)
    /\ gone (world o') = packet (replicate 32 5) request 1 1 2 sid0 (zeros 16) /\ coming (world o') = [77].
Proof.
  intros request pk. destruct sample_texts_ok as [Hs Hk].
  assert (Lpk : (length pk < 4096)%nat).
  { unfold pk. rewrite length_packet by reflexivity. eval_decide. }
  destruct (registration sample_malloc sample_roomy (2000 + 2000 + 2000) sample_locals sample_ctrl (demo_os (pk ++ [77])) 3 (world (demo_os (pk ++ [77])))
    (codes "10.0.0.2") (codes "C4:34") (codes "255.0.0.0") (codes "UOS") (codes "arm64")
    [10; 255] sample_key sample_mac (codes "0aFf") (text_members sample_texts) (plain (d_object (text_members sample_texts)))
    [] sample_answer [10] 1 2 2 (zeros 16) [77]) as (n & cmd & cbuf & root & r & s' & o' & E & O & I & _ & B).
  - exact sample_pkg_ok.
  - split; [reflexivity|reflexivity|exact sample_junk_ok|]. split; try reflexivity.
    + split; [vm_compute; reflexivity|]. split; vm_compute; reflexivity.
    + split; [apply le_n|eval_decide].
    + split; exact sample_junk_ok.
  - split; [by eexists|by eexists|by eexists|by split|]. split; [eval_decide|]. split; [eval_decide|]. split; [eval_decide|]. split; eval_decide.
  - eval_decide.
  - exists 3, (world (demo_os (pk ++ [77]))), (world (demo_os (pk ++ [77]))), (world (demo_os (pk ++ [77]))), 0.
    split; [reflexivity|]. split; [lia|]. split; [reflexivity|]. split; reflexivity.
  - exact I.
  - vm_compute; discriminate.
  - reflexivity.
  - exact Lpk.
  - vm_compute. lia.
  - split; [split; [reflexivity|eval_decide]|split; eval_decide|eval_decide|]. split; [|reflexivity].
    unfold spells, is_hex, is_u8. vm_compute. intuition (discriminate || auto).
  - right. left. reflexivity.
  - reflexivity.
  - constructor.
  - repeat constructor.
  - exact (texts_spelled sample_texts Hs Hk).
  - reflexivity.
  - eval_decide.
  - split; eexists; (split; [vm_compute; reflexivity|vm_compute; reflexivity]).
  - destruct (bool_decide_reflect (sample_mac = take (length sample_mac) (mac_of (session (m_clsAstPackage sample_ctrl)) sample_key)))
      as [_|Hn]; [|exfalso; apply Hn; vm_compute; reflexivity].
    destruct B as [-> B]. exists cmd, cbuf, root, r, s', o'.
    split; [exact E|].
    split; [rewrite B; reflexivity|].
    split; [|exact I].
    assert (O' : gone (world o') = gone (world (demo_os (pk ++ [77]))) ++ packet (replicate 32 5) request 1 1 2 sid0 (zeros 16))
      by exact O.
    change (gone (world (demo_os (pk ++ [77])))) with (@nil Z) in O'. rewrite app_nil_l in O'. exact O'.
Defined.

(** ** What the copies leave *)

(** An address that is shorter than the one before keeps its end. *)
Lemma shorter_address_keeps_tail :
  (m ← copy_address (codes "10.0.0.2") [{| qsIp := codes "10.0.0.2"; qsMac := codes "C4:34"; qsMask := codes "255.0.0.0" |}]
         {| cIp := codes "10.0.0.17" ++ zeros 23; cMac := zeros 32; cMask := zeros 32 |};
   c_str (cIp m)) = Ret (codes "10.0.0.27").
Proof. reflexivity. Qed.

(** The command buffer is not cleared: a second document that is shorter than
    the first is sent with the end of the first. *)
Lemma second_document_keeps_tail root text first r : FastWriter.write false root = Ret text ->
  Forall (fun c => c <> 0) text -> Forall (fun c => c <> 0) first -> (length text <= length first)%nat ->
  exists b, copy_document root (first ++ 0 :: r) = Ret b /\ c_str b = Ret (text ++ drop (length text) first).
Proof.
  intros E Ht Hf Hl. unfold copy_document. rewrite E, bind_ret_l, buf_write_ok by (rewrite ?length_app; cbn [length]; lia).
  eexists. split; [done|]. change (Z.to_nat 0) with 0%nat. unfold splice. change (take 0 (first ++ 0 :: r)) with (@nil Z). cbn [app].
  rewrite Nat.add_0_l, drop_app_le, app_assoc by lia. apply c_str_ok. apply Forall_app_2; [done|by apply Forall_drop].
Qed.
