(* ===== verification/Log.v ===== *)
(** * The log (src/public/log/logOut.cpp)

    [CAstLogOut] appends lines to a file, hides the values of credentials in
    them, and starts a new file when the old one has grown.  The files and the
    clock are reached through the interface [LogHost]; [LogFiles] is what the
    theorems need to know of them. *)
From S2P Require Import Prelude Words Buffers CString Decimal.

Record tm := { tm_year : Z; tm_mon : Z; tm_mday : Z; tm_hour : Z; tm_min : Z; tm_sec : Z }.

Class LogHost (W : Type) := {
  log_cwd : W -> list Z;
  log_open : W -> list Z -> option Z * W;
  log_write : W -> Z -> list Z -> W;
  log_tell : W -> Z -> Z * W;
  log_close : W -> Z -> W;
  log_rename : W -> list Z -> list Z -> W;
  log_time : W -> tm * Z * W;
  log_sleep : W -> Z -> W
}.

Definition ASS_LOG_LEVEL : list (list Z) :=
  codes <$> ["DEBUG"; "INFO"; "NOTICE"; "WARNING"; "ERR"; "CRIT"; "ALERT"; "EMERG"]%string.

Definition LOG_MAX_PATH : Z := 255.

Record CAstLogOut := {
  m_cFileName : list Z;
  m_cFileBase : list Z;
  m_nLevel : Z;
  m_nMaxLevel : Z;
  m_fp : option Z;
  m_nSize : Z;
  m_bLock : bool
}.

(** The two arrays are not initialised. *)
Definition new_CAstLogOut (name base : list Z) : CAstLogOut :=
  {| m_cFileName := name; m_cFileBase := base; m_nLevel := 0; m_nMaxLevel := 7; m_fp := None; m_nSize := 10 * 1024 * 1024;
     m_bLock := false |}.

Definition set_file (name base : list Z) (l : CAstLogOut) : CAstLogOut :=
  {| m_cFileName := name; m_cFileBase := base; m_nLevel := m_nLevel l; m_nMaxLevel := m_nMaxLevel l; m_fp := m_fp l;
     m_nSize := m_nSize l; m_bLock := m_bLock l |}.
Definition set_level (n : Z) (l : CAstLogOut) : CAstLogOut :=
  {| m_cFileName := m_cFileName l; m_cFileBase := m_cFileBase l; m_nLevel := n; m_nMaxLevel := m_nMaxLevel l; m_fp := m_fp l;
     m_nSize := m_nSize l; m_bLock := m_bLock l |}.
Definition set_fp (fp : option Z) (l : CAstLogOut) : CAstLogOut :=
  {| m_cFileName := m_cFileName l; m_cFileBase := m_cFileBase l; m_nLevel := m_nLevel l; m_nMaxLevel := m_nMaxLevel l; m_fp := fp;
     m_nSize := m_nSize l; m_bLock := m_bLock l |}.
Definition set_lock (b : bool) (l : CAstLogOut) : CAstLogOut :=
  {| m_cFileName := m_cFileName l; m_cFileBase := m_cFileBase l; m_nLevel := m_nLevel l; m_nMaxLevel := m_nMaxLevel l;
     m_fp := m_fp l; m_nSize := m_nSize l; m_bLock := b |}.

(** ** Hiding credentials *)

(** [strstr]: the offset of the first occurrence of [w] in a string. *)
Fixpoint strstr (s w : list Z) : option nat :=
  if bool_decide (take (length w) s = w) then Some 0%nat else match s with [] => None | _ :: r => S <$> strstr r w end.

Definition find (b : list Z) (w : string) : option nat := strstr (upto_nul b) (codes w).

(** [while ( *(p+look) != stop) { *p = c; p++; }] *)
Fixpoint overwrite (fuel : nat) (look stop c : Z) (b : list Z) (p : Z) : cpp (list Z * Z) :=
  d ← buf_get b (p + look);
  if d =? stop then Ret (b, p)
  else match fuel with O => NoFuel | S f => b ← buf_write b p [c]; overwrite f look stop c b (p + 1) end.

(** The word up to the character before the colon, and the value after the
    third character from there, up to a quote. *)
Definition mask_word (w : string) (b : list Z) : cpp (list Z) :=
  match find b w with
  | None => Undef
  | Some p =>
      '(b, p) ← overwrite (length b) 1 58 85 b (Z.of_nat p);
      '(b, _) ← overwrite (length b) 0 34 88 b (p + 3);
      Ret b
  end.

Definition both_words (b : list Z) : bool := bool_decide (is_Some (find b "username")) && bool_decide (is_Some (find b "password")).

Definition mask (fuel : nat) : list Z -> cpp (list Z) :=
  cwhile fuel both_words (fun b => b ← mask_word "username" b; mask_word "password" b).

(** ** Lines *)

(** [%wd] and [%0wd]. *)
Definition pad (c : Z) (w : nat) (s : list Z) : list Z := replicate (w - length s) c ++ s.
Definition print_padded (w : nat) (n : Z) : list Z := if n <? 0 then 45 :: pad 48 (w - 1) (dec (- n)) else pad 48 w (dec n).

Definition line_head (t : tm) (usec : Z) (level : Z) : cpp (list Z) :=
  name ← buf_get ASS_LOG_LEVEL level;
  Ret (pad 32 4 (print_int (1900 + tm_year t)) ++ codes "-" ++ print_padded 2 (tm_mon t + 1) ++ codes "-" ++
       print_padded 2 (tm_mday t) ++ codes " " ++ print_padded 2 (tm_hour t) ++ codes ":" ++ print_padded 2 (tm_min t) ++
       codes ":" ++ print_padded 2 (tm_sec t) ++ codes "." ++ print_padded 3 usec ++ [9] ++ codes "[" ++ name ++ codes "]" ++ [9]).

(** The name of the file the old lines are moved to. *)
Definition old_name (base : list Z) (t : tm) (mon hour usec : Z) : list Z :=
  base ++ codes "_" ++ pad 32 4 (print_int (1900 + tm_year t)) ++ print_padded 2 mon ++ print_padded 2 (tm_mday t) ++
  print_padded 2 hour ++ print_padded 2 (tm_min t) ++ print_padded 2 (tm_sec t) ++ print_padded 3 usec ++ codes ".log".

(** The string of an array; undefined without a terminator. *)
Definition array_text (b : list Z) : cpp (list Z) := n ← strlen b; Ret (take (Z.to_nat n) b).

Definition hex_digit (n : Z) : Z := if n <? 10 then n + 48 else n + 55.
Definition hex2 (c : Z) : list Z := [hex_digit (c / 16); hex_digit (c mod 16)].

Section log.
Context {W : Type} `{!LogHost W}.
Implicit Types (l : CAstLogOut) (w : W).

(** [getcwd] leaves an empty string when the path does not fit; [strncpy]
    writes no terminator. *)
Definition CreateFile (l : CAstLogOut) (cFileName : list Z) (w : W) : cpp (Z * CAstLogOut * W) :=
  let cwd := if Z.of_nat (length (log_cwd w)) <? LOG_MAX_PATH then log_cwd w else [] in
  name ← sprintf_text (m_cFileName l) 0 (cwd ++ codes "/" ++ cFileName);
  base ← buf_write (m_cFileBase l) 0 cwd;
  text ← array_text name;
  let '(fp, w) := log_open w text in
  Ret (match fp with None => 1 | Some _ => 0 end, set_fp fp (set_file name base l), w).

Definition SetLogLevel (l : CAstLogOut) (nLevel : Z) : CAstLogOut :=
  set_level (if (0 <=? nLevel) && (nLevel <=? m_nMaxLevel l) then nLevel else 0) l.

(** [Lock] tests the flag fifty times. *)
Fixpoint lock_loop (n : nat) (l : CAstLogOut) (w : W) : Z * CAstLogOut * W :=
  match n with
  | O => (1, l, w)
  | S n => if negb (m_bLock l) then (0, set_lock true l, w) else lock_loop n l (log_sleep w 100)
  end.
Definition Lock (l : CAstLogOut) (w : W) : Z * CAstLogOut * W := lock_loop 50 l w.
Definition UnLock (l : CAstLogOut) : CAstLogOut := set_lock false l.

(** Opens the file again if it is closed. *)
Definition reopen (l : CAstLogOut) (w : W) : cpp (option Z * CAstLogOut * W) :=
  match m_fp l with
  | Some fp => Ret (Some fp, l, w)
  | None => name ← array_text (m_cFileName l); let '(fp, w) := log_open w name in Ret (fp, set_fp fp l, w)
  end.

(** The end of both functions: the size is compared, the old file is moved. *)
Definition rotate (l : CAstLogOut) (fp : Z) (t : tm) (mon hour usec : Z) (w : W) : cpp (CAstLogOut * W) :=
  let '(size, w) := log_tell w fp in
  if m_nSize l <=? s32 size then
    let w := log_close w fp in
    base ← array_text (m_cFileBase l);
    name ← array_text (m_cFileName l);
    newname ← sprintf_text (replicate 280 0) 0 (old_name base t mon hour usec);
    newname ← array_text newname;
    let '(fp, w) := log_open (log_rename w name newname) name in Ret (set_fp fp l, w)
  else Ret (l, w).

(** The two functions have a result type, and every path that logs reaches
    their closing brace without a return, which is undefined.  [log_steps] and
    [hex_steps] are their statements up to there; the result [None] says that the
    closing brace is reached.  [WriteLog] also gives an array to [delete] without
    brackets, which is undefined on the same paths. *)
Definition need_return (x : cpp (option Z * CAstLogOut * W)) : cpp (Z * CAstLogOut * W) :=
  '(r, l, w) ← x; match r with Some n => Ret (n, l, w) | None => Undef end.

Definition log_steps (l : CAstLogOut) (cLog : list Z) (nLevel : Z) (w : W) : cpp (option Z * CAstLogOut * W) :=
  if nLevel <? m_nLevel l then Ret (Some 0, l, w)
  else
    '(fp, l, w) ← reopen l w;
    match fp with
    | None => Ret (Some 1, l, w)
    | Some fp =>
        let nLevel := if (nLevel <? 0) || (8 <=? nLevel) then 7 else nLevel in
        let '(r, l, w) := Lock l w in
        if r =? 1 then Ret (Some 1, l, w)
        else
          let '(t, usec, w) := log_time w in
          cLogBuf ← mask (length cLog) (cLog ++ [0]);
          head ← line_head t usec nLevel;
          let w := log_write w fp (head ++ upto_nul cLogBuf ++ [10]) in
          '(l, w) ← rotate l fp t (tm_mon t + 1) (tm_hour t) usec w;
          Ret (None, UnLock l, w)
    end.

Definition WriteLog (l : CAstLogOut) (cLog : list Z) (nLevel : Z) (w : W) : cpp (Z * CAstLogOut * W) :=
  need_return (log_steps l cLog nLevel w).

Definition hex_steps (l : CAstLogOut) (cLog : list Z) (nLen nLevel : Z) (w : W) : cpp (option Z * CAstLogOut * W) :=
  if nLevel <? m_nLevel l then Ret (Some 0, l, w)
  else
    '(fp, l, w) ← reopen l w;
    match fp with
    | None => Ret (Some 1, l, w)
    | Some fp =>
        let nLevel := if (nLevel <? 0) || (8 <=? nLevel) then 7 else nLevel in
        let '(r, l, w) := Lock l w in
        if r =? 1 then Ret (Some 2, l, w)
        else
          let '(t, usec, w) := log_time w in
          head ← line_head t usec nLevel;
          bytes ← buf_read cLog 0 (Z.max 0 nLen);
          let w := log_write w fp (head ++ (bytes ≫= hex2) ++ [10]) in
          '(l, w) ← rotate l fp t (tm_mon t) (tm_hour t + 1) usec w;
          Ret (None, UnLock l, w)
    end.

Definition WriteHexLog (l : CAstLogOut) (cLog : list Z) (nLen nLevel : Z) (w : W) : cpp (Z * CAstLogOut * W) :=
  need_return (hex_steps l cLog nLen nLevel w).

(** The destructor. *)
Definition delete_CAstLogOut (l : CAstLogOut) (w : W) : cpp W :=
  match m_fp l with
  | None => Ret w
  | Some _ =>
      name ← array_text (m_cFileName l);
      cTemp ← sprintf_text (replicate 256 0) 0 (name ++ codes " log exit.");
      text ← array_text cTemp;
      '(_, l, w) ← WriteLog l text 0 w;
      match m_fp l with Some fp => Ret (log_close w fp) | None => Undef end
  end.
End log.

(** ** Searching *)

Lemma strstr_first (w s : list Z) n : take (length w) (drop n s) = w ->
  (forall i, (i < n)%nat -> take (length w) (drop i s) <> w) -> strstr s w = Some n.
Proof.
  revert n. induction s as [|c s IH]; intros n Hn Hb; destruct n as [|n].
  - cbn [strstr]. by rewrite bool_decide_true.
  - exfalso. apply (Hb 0%nat); [lia|]. by rewrite drop_nil in *.
  - cbn [strstr]. by rewrite bool_decide_true.
  - cbn [strstr]. rewrite bool_decide_false by (apply (Hb 0%nat); lia). rewrite (IH n); [done|done|].
    intros i Hi. apply (Hb (S i)). lia.
Qed.

Lemma strstr_Some (w s : list Z) n : strstr s w = Some n -> take (length w) (drop n s) = w.
Proof.
  revert n. induction s as [|c s IH]; intros n; cbn [strstr]; case_bool_decide as E; intros Hn.
  - by injection Hn as <-.
  - done.
  - by injection Hn as <-.
  - destruct (strstr s w) as [m|]; [|done]. injection Hn as <-. by apply (IH m).
Qed.

(** No occurrence of [w]. *)
Definition free (w s : list Z) : Prop := forall i, take (length w) (drop i s) <> w.

Lemma strstr_free w s : free w s -> strstr s w = None.
Proof. intros Hf. destruct (strstr s w) as [n|] eqn:E; [|done]. by apply strstr_Some, Hf in E. Qed.

Lemma free_nil w : w <> [] -> free w [].
Proof. intros Hw i. rewrite drop_nil, take_nil. by intros E. Qed.

(** A character that is not in the word separates. *)
Lemma free_sep w s1 c s2 : w <> [] -> c ∉ w -> free w s1 -> free w s2 -> free w (s1 ++ c :: s2).
Proof.
  intros Hw Hc H1 H2 i E. destruct (decide (i <= length s1)%nat) as [Hi|Hi].
  - rewrite drop_app_le in E by done. destruct (decide (length w <= length (drop i s1))%nat) as [Hl|Hl].
    + rewrite take_app_le in E by done. by apply (H1 i).
    + rewrite take_app_ge in E by lia. apply Hc. rewrite <- E.
      destruct (length w - length (drop i s1))%nat as [|m] eqn:Em; [lia|]. cbn [take]. set_solver.
  - rewrite drop_app_ge in E by lia. destruct (i - length s1)%nat as [|m] eqn:Em; [lia|]. cbn [drop] in E. by apply (H2 m).
Qed.

(** Characters that are not in the word hold no occurrence. *)
Lemma free_chars w s : w <> [] -> Forall (fun c => c ∉ w) s -> free w s.
Proof. intros Hw Hs. induction Hs as [|c s Hc Hs IH]; [by apply free_nil|]. by apply (free_sep w [] c s); [| |apply free_nil|]. Qed.

Lemma free_cons_run w s1 s2 x : w <> [] -> x <> [] -> Forall (fun c => c ∉ w) x -> free w s1 -> free w s2 ->
  free w (s1 ++ x ++ s2).
Proof.
  intros Hw Hx Hf. revert s1. induction Hf as [|c x Hc Hf IH]; intros s1 H1 H2; [done|]. cbn [app].
  apply free_sep; [done|done|done|]. destruct x as [|d x]; [done|]. apply (IH ltac:(done) []); [by apply free_nil|done].
Qed.

(** The first occurrence, when the first letter of the word is not in its rest. *)
Lemma strstr_app (h : Z) (w' a r : list Z) : h ∉ w' -> free (h :: w') a -> strstr (a ++ (h :: w') ++ r) (h :: w') = Some (length a).
Proof.
  intros Hh Ha. apply strstr_first.
  - rewrite drop_app_length, take_app_le by done. by rewrite take_ge by done.
  - intros i Hi E. rewrite drop_app_le in E by lia. set (x := drop i a) in *.
    assert (Hx : (0 < length x)%nat) by (unfold x; rewrite length_drop; lia).
    destruct (decide (length (h :: w') <= length x)%nat) as [Hl|Hl].
    + rewrite take_app_le in E by done. by apply (Ha i).
    + rewrite take_app_ge in E by lia. destruct x as [|y x']; [cbn in Hx; lia|]. cbn [app length take] in E.
      injection E as -> E. apply Hh. rewrite <- E. cbn [length] in Hl.
      replace (length w' - length x')%nat with (S (length w' - S (length x'))) by lia. cbn [app take]. set_solver.
Qed.

(** ** The loops of the mask *)

Definition no_nul (t : list Z) : Prop := Forall (fun c => c <> 0) t.

Lemma upto_nul_text t : no_nul t -> upto_nul (t ++ [0]) = t.
Proof. apply upto_nul_at. Qed.

Lemma text_get t i c : t !! i = Some c -> buf_get (t ++ [0]) (Z.of_nat i) = Ret c.
Proof. intros E. apply buf_get_ok; [lia|]. rewrite Nat2Z.id. by apply lookup_app_l_Some. Qed.

Lemma overwrite_ok fuel look stop c t p k : (k <= fuel)%nat -> t !! (p + look + k)%nat = Some stop -> (look <= 1)%nat ->
  (forall i, (i < k)%nat -> t !! (p + look + i)%nat <> Some stop) ->
  overwrite fuel (Z.of_nat look) stop c (t ++ [0]) (Z.of_nat p) =
    Ret (splice t p (replicate k c) ++ [0], Z.of_nat (p + k)).
Proof.
  revert t p k. induction fuel as [|f IH]; intros t p k Hk Hs Hlook Hb.
  - assert (k = 0)%nat as -> by lia. cbn [overwrite]. rewrite Nat.add_0_r in *. rewrite <- Nat2Z.inj_add.
    rewrite (text_get _ _ _ Hs), bind_ret_l, Z.eqb_refl. apply lookup_lt_Some in Hs. cbn [replicate].
      by rewrite splice_nil by lia.
  - destruct k as [|k].
    + cbn [overwrite]. rewrite Nat.add_0_r in *. rewrite <- Nat2Z.inj_add.
      rewrite (text_get _ _ _ Hs), bind_ret_l, Z.eqb_refl. apply lookup_lt_Some in Hs. cbn [replicate].
      by rewrite splice_nil by lia.
    + pose proof (lookup_lt_Some _ _ _ Hs) as Hlt. cbn [overwrite]. rewrite <- Nat2Z.inj_add.
      destruct (lookup_lt_is_Some_2 t (p + look)%nat) as [d Hd]; [lia|].
      rewrite (text_get _ _ _ Hd), bind_ret_l.
      rewrite (proj2 (Z.eqb_neq d stop)).
      2: { intros ->. apply (Hb 0%nat); [lia|]. by rewrite Nat.add_0_r. }
      rewrite buf_write_ok, bind_ret_l by (rewrite ?length_app; cbn [length]; lia). rewrite Nat2Z.id.
      assert (Esp : splice (t ++ [0]) p [c] = splice t p [c] ++ [0]).
      { unfold splice. cbn [length]. rewrite take_app_le, drop_app_le by lia. by rewrite <- !app_assoc. }
      rewrite Esp. replace (Z.of_nat p + 1) with (Z.of_nat (p + 1)) by lia.
      assert (Hlk : forall i, t !! (p + 1 + i)%nat = splice t p [c] !! (p + 1 + i)%nat).
      { intros i. rewrite lookup_splice by (cbn [length]; lia). cbn [length].
        by rewrite decide_False by lia. }
      rewrite IH with (k := k); [|lia| |done|].
      * f_equal. f_equal; [|lia]. f_equal. rewrite splice_append by (cbn [length]; rewrite ?length_replicate; lia). done.
      * rewrite <- Hs. replace (p + 1 + look + k)%nat with (p + 1 + (look + k))%nat by lia. rewrite <- Hlk. f_equal. lia.
      * intros i Hi. replace (p + 1 + look + i)%nat with (p + 1 + (look + i))%nat by lia. rewrite <- Hlk.
        replace (p + 1 + (look + i))%nat with (p + look + S i)%nat by lia. apply Hb. lia.
Qed.

Lemma overwrite_out fuel look stop c t p : (look <= 1)%nat -> stop <> 0 ->
  (forall i, t !! (p + look + i)%nat <> Some stop) -> (length t + 1 <= p + fuel)%nat ->
  overwrite fuel (Z.of_nat look) stop c (t ++ [0]) (Z.of_nat p) = Undef.
Proof.
  revert t p. induction fuel as [|f IH]; intros t p Hlook Hs Hb Hf.
  - cbn [overwrite]. unfold buf_get. rewrite decide_True by lia. rewrite lookup_ge_None_2; [done|].
    rewrite length_app. cbn [length]. lia.
  - cbn [overwrite]. unfold buf_get. rewrite decide_True by lia. destruct ((t ++ [0]) !! _) as [d|] eqn:Ed; [|done].
    rewrite bind_ret_l. rewrite <- Nat2Z.inj_add, Nat2Z.id in Ed. rewrite (proj2 (Z.eqb_neq d stop)).
    2: { intros ->. apply lookup_app_Some in Ed as [Ed|[Hl Ed]]; [apply (Hb 0%nat); by rewrite Nat.add_0_r|].
         apply list_lookup_singleton_Some in Ed as [_ Ed]. done. }
    pose proof (lookup_lt_Some _ _ _ Ed) as Hlt. rewrite length_app in Hlt. cbn [length] in Hlt.
    destruct (decide (p < length t)%nat) as [Hp|Hp].
    + rewrite buf_write_ok, bind_ret_l by (rewrite ?length_app; cbn [length]; lia). rewrite Nat2Z.id.
      assert (Esp : splice (t ++ [0]) p [c] = splice t p [c] ++ [0]).
      { unfold splice. cbn [length]. rewrite take_app_le, drop_app_le by lia. by rewrite <- !app_assoc. }
      rewrite Esp. replace (Z.of_nat p + 1) with (Z.of_nat (p + 1)) by lia. apply IH; [done|done| |].
      * intros i. rewrite lookup_splice by (cbn [length]; lia). cbn [length]. rewrite decide_False by lia.
        replace (p + 1 + look + i)%nat with (p + look + S i)%nat by lia. apply Hb.
      * rewrite length_splice by (cbn [length]; lia). lia.
    + (* the write of the terminator; the next read is outside *)
      assert (p = length t /\ look = 0)%nat as [-> ->] by lia. unfold buf_write. rewrite decide_True by (rewrite length_app; cbn [length]; lia).
      rewrite bind_ret_l. destruct f as [|f]; cbn [overwrite]; unfold buf_get; rewrite decide_True by lia;
        rewrite lookup_ge_None_2; try done; rewrite length_splice by (rewrite length_app; cbn [length]; lia);
        rewrite length_app; cbn [length]; lia.
Qed.

(** The number of characters up to the stop, if there is one. *)
Lemma first_stop (s : list Z) stop : (exists k, s !! k = Some stop /\ forall i, (i < k)%nat -> s !! i <> Some stop) \/
  (forall i, s !! i <> Some stop).
Proof.
  induction s as [|c s IH]; [right; by intros []|]. destruct (decide (c = stop)) as [->|Hc].
  - left. exists 0%nat. split; [done|]. lia.
  - destruct IH as [(k & Hk & Hb)|Hb]; [left; exists (S k); split; [done|]|right].
    + intros [|i] Hi; cbn; [congruence|]. apply Hb. lia.
    + intros [|i]; cbn; [congruence|]. apply Hb.
Qed.

(** Either loop stops at the stop character or runs out of the buffer. *)
Lemma overwrite_total fuel look stop c t p : (look <= 1)%nat -> stop <> 0 -> (length t + 1 <= fuel)%nat ->
  (exists k, overwrite fuel (Z.of_nat look) stop c (t ++ [0]) (Z.of_nat p) =
      Ret (splice t p (replicate k c) ++ [0], Z.of_nat (p + k)) /\
    t !! (p + look + k)%nat = Some stop /\ (forall i, (i < k)%nat -> t !! (p + look + i)%nat <> Some stop)) \/
  overwrite fuel (Z.of_nat look) stop c (t ++ [0]) (Z.of_nat p) = Undef.
Proof.
  intros Hlook Hs Hf. destruct (first_stop (drop (p + look) t) stop) as [(k & Hk & Hb)|Hb].
  - left. exists k. rewrite lookup_drop in Hk. pose proof (lookup_lt_Some _ _ _ Hk).
    assert (Hb' : forall i, (i < k)%nat -> t !! (p + look + i)%nat <> Some stop).
    { intros i Hi. specialize (Hb i Hi). by rewrite lookup_drop in Hb. }
    split; [|done]. apply overwrite_ok; [lia|done|done|done].
  - right. apply overwrite_out; [done|done| |lia]. intros i. specialize (Hb i). by rewrite lookup_drop in Hb.
Qed.

(** [t'] is [t] with some characters covered by the letters U and X. *)
Definition covered (t t' : list Z) : Prop := Forall2 (fun c c' => c' = c \/ c' = 85 \/ c' = 88) t t'.

Lemma covered_refl t : covered t t.
Proof. induction t; constructor; auto. Qed.

Lemma covered_trans t1 t2 t3 : covered t1 t2 -> covered t2 t3 -> covered t1 t3.
Proof.
  intros H. revert t3. induction H as [|c c' t t' Hc H IH]; intros t3 H3; inversion H3; subst; constructor; [|by apply IH].
  naive_solver.
Qed.

Lemma covered_splice t p k c : c = 85 \/ c = 88 -> (p + k <= length t)%nat -> covered t (splice t p (replicate k c)).
Proof.
  intros Hc Hp. apply Forall2_same_length_lookup. rewrite length_splice by (by rewrite length_replicate). split; [done|].
  intros i x y Hx Hy. rewrite lookup_splice, length_replicate in Hy by (by rewrite length_replicate).
  destruct (decide _) as [Hi|Hi]; [|left; congruence]. apply lookup_replicate in Hy as [-> _]. tauto.
Qed.

Lemma covered_no_nul t t' : covered t t' -> no_nul t -> no_nul t'.
Proof.
  intros H Ht. revert t' H. induction Ht as [|c t Hc Ht IH]; intros t' H; inversion H; subst; constructor; [|by apply IH]. lia.
Qed.

(** What is not yet covered. *)
Definition bare (t : list Z) : nat := length (filter (fun c => c <> 85 /\ c <> 88) t).

Lemma bare_covered t t' : covered t t' -> (bare t' <= bare t)%nat.
Proof.
  unfold bare. induction 1 as [|c c' t t' Hc H IH]; [done|]. rewrite !filter_cons.
  destruct Hc as [->|Hc]; [destruct (decide _); cbn [length]; lia|].
  rewrite (decide_False (P := c' <> 85 /\ c' <> 88)) by lia. destruct (decide _); cbn [length]; lia.
Qed.

Lemma bare_less t t' p c : covered t t' -> t !! p = Some c -> c <> 85 -> c <> 88 -> t' !! p = Some 85 \/ t' !! p = Some 88 ->
  (bare t' < bare t)%nat.
Proof.
  intros H Hp H1 H2 Hp'. revert t t' H Hp Hp'. induction p as [|p IH]; intros t t' H Hp Hp'; inversion H as [|x y t1 t2 Hxy Ht]; subst; try done.
  - cbn in Hp. injection Hp as ->. pose proof (bare_covered _ _ Ht). unfold bare in *. rewrite !filter_cons.
    rewrite (decide_True (P := c <> 85 /\ c <> 88)) by done. cbn in Hp'. rewrite (decide_False (P := y <> 85 /\ y <> 88)) by naive_solver.
    cbn [length]. lia.
  - cbn in Hp, Hp'. specialize (IH _ _ Ht Hp Hp'). unfold bare in *. rewrite !filter_cons.
    destruct Hxy as [->|Hc]; [destruct (decide _); cbn [length]; lia|].
    rewrite (decide_False (P := y <> 85 /\ y <> 88)) by lia. destruct (decide _); cbn [length]; lia.
Qed.

Lemma find_text t w : no_nul t -> find (t ++ [0]) w = strstr t (codes w).
Proof. intros Ht. unfold find. by rewrite upto_nul_text. Qed.

(** One word: the access outside the buffer, or a text with the first letter of
    the word covered. *)
Lemma mask_word_total w h n r t : codes w = h :: n :: r -> h <> 85 -> h <> 88 -> n <> 58 -> no_nul t ->
  mask_word w (t ++ [0]) = Undef \/
  exists t', mask_word w (t ++ [0]) = Ret (t' ++ [0]) /\ covered t t' /\ (bare t' < bare t)%nat.
Proof.
  intros Ew Hh1 Hh2 Hn Ht. unfold mask_word. rewrite find_text by done.
  destruct (strstr t (codes w)) as [p|] eqn:Ep; [|by left]. apply strstr_Some in Ep. rewrite Ew in Ep.
  assert (Hp : t !! p = Some h /\ t !! (p + 1)%nat = Some n).
  { rewrite <- (Nat.add_0_r p) at 1. rewrite <- !lookup_drop. destruct (drop p t) as [|a [|b q]]; try done.
    cbn [length take] in Ep. injection Ep as -> -> _. done. }
  destruct Hp as [Hp1 Hp2].
  destruct (overwrite_total (length (t ++ [0])) 1 58 85 t p) as [(k & E & Hk & Hb)|E]; [lia|done|rewrite length_app; cbn; lia| |];
    change (Z.of_nat 1) with 1 in E; [|left; by rewrite E].
  rewrite E, bind_ret_l. clear E. pose proof (lookup_lt_Some _ _ _ Hk) as Hlk. set (t1 := splice t p _).
  assert (L1 : length t1 = length t) by (unfold t1; rewrite length_splice by (rewrite length_replicate; lia); done).
  assert (C1 : covered t t1) by (apply covered_splice; [auto|lia]).
  assert (B1 : (bare t1 < bare t)%nat).
  { apply (bare_less t t1 p h); [done|done|done|done|]. left. unfold t1.
    rewrite lookup_splice, length_replicate by (rewrite length_replicate; lia).
    assert (k <> 0)%nat by (intros ->; rewrite Nat.add_0_r in Hk; congruence).
    rewrite decide_True by lia. rewrite Nat.sub_diag. destruct k; [done|]. done. }
  replace (Z.of_nat (p + k) + 3) with (Z.of_nat (p + k + 3)) by lia.
  destruct (overwrite_total (length (t1 ++ [0])) 0 34 88 t1 (p + k + 3)) as [(m & E & Hm & _)|E];
    [lia|done|rewrite length_app; cbn; lia| |]; change (Z.of_nat 0) with 0 in E; [|left; by rewrite E].
  rewrite E, bind_ret_l. right. eexists. split; [reflexivity|]. pose proof (lookup_lt_Some _ _ _ Hm) as Hlm.
  assert (C2 : covered t1 (splice t1 (p + k + 3) (replicate m 88))) by (apply covered_splice; [auto|lia]).
  split; [by eapply covered_trans|]. apply bare_covered in C2. lia.
Qed.

Lemma mask_text_total fuel t : no_nul t -> (bare t <= fuel)%nat ->
  mask fuel (t ++ [0]) = Undef \/
  exists t', mask fuel (t ++ [0]) = Ret (t' ++ [0]) /\ covered t t' /\
    (strstr t' (codes "username") = None \/ strstr t' (codes "password") = None).
Proof.
  revert t. induction fuel as [|f IH]; intros t Ht Hf; unfold mask; cbn [cwhile].
  - destruct (both_words (t ++ [0])) eqn:Eb; unfold both_words in Eb; rewrite !find_text in Eb by done.
    + exfalso. apply andb_true_iff in Eb as [[p Ep]%bool_decide_eq_true_1 _]. apply strstr_Some in Ep.
      assert (Hu : t !! p = Some 117).
      { rewrite <- (Nat.add_0_r p). rewrite <- lookup_drop. destruct (drop p t) as [|a q]; [done|]. cbn [take] in Ep. change (codes "username") with ([117] ++ codes "sername") in Ep. cbn [app length take] in Ep. injection Ep as -> _. done. }
      assert ((bare (<[p:=85%Z]> t) < bare t)%nat); [|lia].
      apply (bare_less _ _ p 117); [|done|done|done|left; apply list_lookup_insert_eq, (lookup_lt_Some _ _ _ Hu)].
      apply Forall2_same_length_lookup. rewrite length_insert. split; [done|]. intros i x y Hx Hy.
      apply list_lookup_insert_Some in Hy as [(-> & -> & _)|[_ Hy]]; [auto|left; congruence].
    + right. exists t. split; [done|]. split; [apply covered_refl|]. apply andb_false_iff in Eb as [Eb|Eb];
        apply bool_decide_eq_false_1, eq_None_not_Some in Eb; auto.
  - fold (mask f). destruct (both_words (t ++ [0])) eqn:Eb.
    + destruct (mask_word_total "username" 117 115 (codes "ername") t) as [->|(t1 & -> & C1 & B1)]; try done; [by left|].
      rewrite bind_ret_l. pose proof (covered_no_nul _ _ C1 Ht) as Ht1.
      destruct (mask_word_total "password" 112 97 (codes "ssword") t1) as [->|(t2 & -> & C2 & B2)]; try done; [by left|].
      rewrite bind_ret_l. pose proof (covered_no_nul _ _ C2 Ht1) as Ht2.
      destruct (IH t2 Ht2) as [->|(t' & E & C & Hn)]; [lia|by left|]. right. exists t'. split; [done|]. split; [|done].
      by eapply covered_trans; [|eapply covered_trans].
    + right. exists t. split; [done|]. split; [apply covered_refl|]. unfold both_words in Eb. rewrite !find_text in Eb by done.
      apply andb_false_iff in Eb as [Eb|Eb]; apply bool_decide_eq_false_1, eq_None_not_Some in Eb; auto.
Qed.

(** ** Credentials *)

(** A word, its value in quotes, as a compact JSON document writes them. *)
Definition entry (w u : list Z) : list Z := w ++ [34; 58; 34] ++ u ++ [34].
Definition covered_entry (w u : list Z) : list Z := replicate (length w) 85 ++ [34; 58; 34] ++ replicate (length u) 88 ++ [34].

Lemma splice_middle {A} (a x y r : list A) : length x = length y -> splice (a ++ x ++ r) (length a) y = a ++ y ++ r.
Proof.
  intros Hl. unfold splice. rewrite take_app_length, <- Hl, <- length_app. do 2 f_equal. rewrite app_assoc.
  by rewrite drop_app_length.
Qed.

Lemma mask_entry w h w' a u r : codes w = h :: w' -> h ∉ w' -> 58 ∉ codes w -> free (codes w) a -> 34 ∉ u ->
  no_nul (a ++ entry (codes w) u ++ r) ->
  mask_word w ((a ++ entry (codes w) u ++ r) ++ [0]) = Ret ((a ++ covered_entry (codes w) u ++ r) ++ [0]).
Proof.
  intros Ew Hh Hc Hf Hu Ht. unfold mask_word, entry, covered_entry in *. rewrite find_text by done.
  assert (Et : a ++ (codes w ++ [34; 58; 34] ++ u ++ [34]) ++ r = a ++ codes w ++ [34; 58; 34] ++ u ++ [34] ++ r)
    by (by rewrite <- !app_assoc).
  rewrite Et in *. clear Et.
  assert (Hs : strstr (a ++ codes w ++ [34; 58; 34] ++ u ++ [34] ++ r) (codes w) = Some (length a))
    by (rewrite Ew in *; by apply strstr_app).
  rewrite Hs. clear Hs Ew. set (v := codes w) in *.
  set (t := a ++ v ++ [34; 58; 34] ++ u ++ [34] ++ r). set (L := length (t ++ [0])).
  assert (HL : (length a + length v + 5 + length u <= L)%nat) by (unfold L, t; rewrite !length_app; cbn [length]; lia).
  assert (H1 : overwrite L 1 58 85 (t ++ [0]) (Z.of_nat (length a)) =
    Ret ((a ++ replicate (length v) 85 ++ [34; 58; 34] ++ u ++ [34] ++ r) ++ [0], Z.of_nat (length a + length v))).
  { change 1 with (Z.of_nat 1). rewrite (overwrite_ok L 1 58 85 t (length a) (length v)); [|lia| |lia|].
    - unfold t. rewrite splice_middle by (by rewrite length_replicate). done.
    - unfold t. rewrite app_assoc, lookup_app_r by (rewrite length_app; lia). rewrite length_app.
      replace (length a + 1 + length v - (length a + length v))%nat with 1%nat by lia. done.
    - intros i Hi. unfold t. rewrite lookup_app_r by lia. replace (length a + 1 + i - length a)%nat with (S i) by lia.
      destruct (decide (S i < length v)%nat) as [Hlt|Hge].
      + rewrite lookup_app_l by done. intros E. by apply list_elem_of_lookup_2, Hc in E.
      + rewrite lookup_app_r by lia. replace (S i - length v)%nat with 0%nat by lia. done. }
  fold L. rewrite H1, bind_ret_l. set (a' := a ++ replicate (length v) 85 ++ [34; 58; 34]).
  assert (E' : a ++ replicate (length v) 85 ++ [34; 58; 34] ++ u ++ [34] ++ r = a' ++ u ++ 34 :: r) by (unfold a'; by rewrite <- !app_assoc).
  rewrite E'. assert (La : (length a + length v + 3 = length a')%nat) by (unfold a'; rewrite !length_app, length_replicate; cbn [length]; lia).
  replace (Z.of_nat (length a + length v) + 3) with (Z.of_nat (length a')) by lia. change 0 with (Z.of_nat 0) at 4.
  rewrite (overwrite_ok _ 0 34 88 (a' ++ u ++ 34 :: r) (length a') (length u)); [|rewrite !length_app; cbn [length]; lia| |lia|].
  - rewrite bind_ret_l. rewrite splice_middle by (by rewrite length_replicate). unfold a'. by rewrite <- !app_assoc.
  - rewrite lookup_app_r by lia. replace (length a' + 0 + length u - length a')%nat with (length u) by lia.
    by rewrite list_lookup_middle.
  - intros i Hi. rewrite lookup_app_r by lia. replace (length a' + 0 + i - length a')%nat with i by lia.
    rewrite lookup_app_l by done. intros E. by apply list_elem_of_lookup_2, Hu in E.
Qed.

Lemma strstr_None w s : w <> [] -> strstr s w = None -> free w s.
Proof.
  intros Hw. induction s as [|c s IH]; [by intros _; apply free_nil|]. cbn [strstr]. case_bool_decide as E; [done|].
  intros Hn [|i]; [done|]. cbn [drop]. apply IH. by destruct (strstr s w).
Qed.

Lemma strstr_is_Some w a r : w <> [] -> is_Some (strstr (a ++ w ++ r) w).
Proof.
  intros Hw. destruct (strstr _ w) eqn:E; [eauto|]. exfalso. apply strstr_None in E; [|done]. apply (E (length a)).
  rewrite drop_app_length, take_app_le by done. by rewrite take_ge by done.
Qed.

(** The characters of a covered entry. *)
Definition cover_chars : list Z := [85; 34; 58; 88].

Lemma covered_entry_chars (w u v : list Z) : (forall c, c ∈ cover_chars -> c ∉ w) -> Forall (fun c => c ∉ w) (covered_entry v u).
Proof.
  intros Hw. unfold covered_entry. rewrite !Forall_app. repeat split; try apply Forall_replicate; repeat constructor; apply Hw; unfold cover_chars; set_solver.
Qed.

(** A covered entry holds no occurrence and lets none cross it. *)
Lemma free_covered (w v u s1 s2 : list Z) : w <> [] -> (forall c, c ∈ cover_chars -> c ∉ w) -> free w s1 -> free w s2 ->
  free w (s1 ++ covered_entry v u ++ s2).
Proof.
  intros Hw Hc H1 H2. apply free_cons_run; [done| |by apply covered_entry_chars|done|done].
  unfold covered_entry. intros E. apply (f_equal length) in E. rewrite !length_app in E. cbn [length] in E. lia.
Qed.

Ltac not_in := let H := fresh in intros H; apply list_elem_of_In in H; vm_compute in H; lia.

Lemma separators_not_in w : w = codes "username" \/ w = codes "password" -> forall c, c ∈ cover_chars -> c ∉ w.
Proof.
  intros Hw c Hc. assert (c = 85 \/ c = 34 \/ c = 58 \/ c = 88) as Hc' by (apply list_elem_of_In in Hc; cbn in Hc; lia).
  destruct Hw as [-> | ->]; not_in.
Qed.

(** C35: in the text of a compact JSON document that names one user and one password, the log covers both words and both
    values, whatever the values and the rest of the text. *)
Theorem log_hides_credentials (a u b p c : list Z) :
  let text := a ++ entry (codes "username") u ++ b ++ entry (codes "password") p ++ c in
  no_nul text -> 34 ∉ u -> 34 ∉ p ->
  free (codes "username") a -> free (codes "username") b -> free (codes "username") c ->
  free (codes "password") a -> free (codes "password") b ->
  mask (length text) (text ++ [0]) =
    Ret ((a ++ covered_entry (codes "username") u ++ b ++ covered_entry (codes "password") p ++ c) ++ [0]).
Proof.
  intros text Ht Hu Hp Fa Fb Fc Pa Pb. set (mid := a ++ covered_entry (codes "username") u ++ b).
  assert (H1 : mask_word "username" (text ++ [0]) = Ret ((mid ++ entry (codes "password") p ++ c) ++ [0])).
  { unfold text, mid. rewrite (mask_entry "username" 117 (codes "sername")); try done; [|not_in|not_in].
    by rewrite <- !app_assoc. }
  assert (Nm : no_nul (mid ++ entry (codes "password") p ++ c)).
  { unfold no_nul, text, mid, entry, covered_entry in *. rewrite !Forall_app in *. destruct_and!.
    repeat split; try done; apply Forall_replicate; lia. }
  assert (H2 : mask_word "password" ((mid ++ entry (codes "password") p ++ c) ++ [0]) =
    Ret ((mid ++ covered_entry (codes "password") p ++ c) ++ [0])).
  { rewrite (mask_entry "password" 112 (codes "assword")); try done; [not_in|not_in|].
    unfold mid. apply free_covered; [done|by apply separators_not_in; auto|done|done]. }
  assert (Nf : no_nul (mid ++ covered_entry (codes "password") p ++ c)).
  { unfold no_nul, covered_entry, entry in *. rewrite !Forall_app in *. destruct_and!. repeat split; try done; apply Forall_replicate; lia. }
  assert (B1 : both_words (text ++ [0]) = true).
  { unfold both_words. rewrite !find_text by done. apply andb_true_iff. split; apply bool_decide_eq_true_2; unfold text, entry.
    - rewrite <- !app_assoc. by apply strstr_is_Some.
    - rewrite <- (app_assoc (codes "password")), (app_assoc _ b), (app_assoc a). by apply strstr_is_Some. }
  assert (B2 : both_words ((mid ++ covered_entry (codes "password") p ++ c) ++ [0]) = false).
  { unfold both_words. rewrite find_text by done. rewrite strstr_free; [done|].
    apply free_covered; [done|by apply separators_not_in; auto| |done]. unfold mid.
    by apply free_covered; [done|apply separators_not_in; auto| |]. }
  assert (exists f, length text = S f) as [f ->].
  { exists (length text - 1)%nat. unfold text, entry. rewrite !length_app. cbn [length]. lia. }
  unfold mask. cbn [cwhile]. rewrite B1, H1, bind_ret_l, H2, bind_ret_l. rewrite cwhile_stop by done.
  unfold mid. by rewrite <- !app_assoc.
Qed.

Definition sample_credentials : list Z :=
  [123; 34] ++ entry (codes "username") (codes "al") ++ [44; 34] ++ entry (codes "password") (codes "s3cret") ++ [125].

Lemma log_hides_credentials_witness :
  mask (length sample_credentials) (sample_credentials ++ [0]) =
    Ret (([123; 34] ++ covered_entry (codes "username") (codes "al") ++ [44; 34] ++
          covered_entry (codes "password") (codes "s3cret") ++ [125]) ++ [0]).
Proof.
  apply (log_hides_credentials [123; 34] (codes "al") [44; 34] (codes "s3cret") [125]).
  1: repeat constructor; discriminate.
  1, 2: not_in.
  all: apply free_chars; [discriminate|repeat constructor; not_in].
Defined.

(** With a space around the colon, as the indenting writers print it, the
    values stay; a second password stays as well. *)
Definition spaced_credentials : list Z :=
  [34] ++ codes "username" ++ [34; 32; 58; 32; 34] ++ codes "al" ++ [34; 44; 34] ++ codes "password" ++ [34; 32; 58; 32; 34] ++
  codes "s3cret" ++ [34].

Lemma spaced_values_stay : exists t1 t2, mask (length spaced_credentials) (spaced_credentials ++ [0]) =
  Ret (t1 ++ codes "al" ++ t2 ++ codes "s3cret" ++ [34; 0]).
Proof.
  exists ([34] ++ replicate 9 85 ++ [32; 58; 32; 34]), ([34; 44; 34] ++ replicate 9 85 ++ [32; 58; 32; 34]).
  vm_compute. reflexivity.
Qed.

(** ** Files *)

Class LogFiles (W : Type) `{!LogHost W} := {
  file : W -> list Z -> option (list Z);
  opened : W -> Z -> option (list Z);
  same_files (w w' : W) : Prop := (forall n, file w' n = file w n) /\ (forall fp, opened w' fp = opened w fp);
  open_law w n :
    match log_open w n with
    | (Some fp, w') => opened w' fp = Some n /\ file w' n = Some (default [] (file w n)) /\ forall m, m <> n -> file w' m = file w m
    | (None, w') => forall m, file w' m = file w m
    end;
  write_law w fp n c x : opened w fp = Some n -> file w n = Some c ->
    let w' := log_write w fp x in
    opened w' fp = Some n /\ file w' n = Some (c ++ x) /\ forall m, m <> n -> file w' m = file w m;
  tell_law w fp n c : opened w fp = Some n -> file w n = Some c ->
    (log_tell w fp).1 = Z.of_nat (length c) /\ same_files w (log_tell w fp).2;
  time_law w : same_files w (log_time w).2;
  close_law w fp n : file (log_close w fp) n = file w n;
  rename_law w a b : a <> b ->
    let w' := log_rename w a b in
    file w' b = file w a /\ file w' a = None /\ forall m, m <> a -> m <> b -> file w' m = file w m
}.

Lemma array_text_ok s r : no_nul s -> array_text (s ++ 0 :: r) = Ret s.
Proof. intros Hs. unfold array_text. rewrite strlen_ok, bind_ret_l, Nat2Z.id by done. by rewrite take_app_length. Qed.

Lemma digits_no_nul s : digits s -> no_nul s.
Proof. intros H. eapply Forall_impl; [exact H|]. intros c. cbn. unfold isdigit. lia. Qed.

Lemma pad_no_nul c w s : c <> 0 -> no_nul s -> no_nul (pad c w s).
Proof. intros Hc Hs. apply Forall_app. split; [by apply Forall_replicate|done]. Qed.

Lemma print_padded_no_nul w n : no_nul (print_padded w n).
Proof.
  unfold print_padded. destruct (n <? 0); [constructor; [done|]|]; apply pad_no_nul; try done; apply digits_no_nul, dec_is_digits.
Qed.

Lemma print_int_no_nul n : no_nul (print_int n).
Proof. unfold print_int. destruct (n <? 0); [constructor; [done|]|]; apply digits_no_nul, dec_is_digits. Qed.

Lemma old_name_no_nul base t mon hour usec : no_nul base -> no_nul (old_name base t mon hour usec).
Proof.
  intros Hb. unfold old_name, no_nul. rewrite !Forall_app. repeat split; try done; try apply print_padded_no_nul;
    try (apply pad_no_nul; [done|apply print_int_no_nul]); by repeat constructor.
Qed.

Lemma level_name n : 0 <= n < 8 -> exists name, buf_get ASS_LOG_LEVEL n = Ret name.
Proof.
  intros Hn. unfold buf_get. rewrite decide_True by lia. destruct (lookup_lt_is_Some_2 ASS_LOG_LEVEL (Z.to_nat n)) as [x ->]; [|eauto].
  change (length ASS_LOG_LEVEL) with 8%nat. lia.
Qed.

Section files.
Context {W : Type} `{!LogHost W} `{!LogFiles W}.
Implicit Types (l : CAstLogOut) (w : W).

(** The two arrays hold terminated strings. *)
Definition named l (name base : list Z) : Prop :=
  no_nul name /\ no_nul base /\ (exists r, m_cFileName l = name ++ 0 :: r) /\ (exists r, m_cFileBase l = base ++ 0 :: r).

(** The log with the file [fp] open, after the content became [c]. *)
Lemma rotate_ok l fp t mon hour usec w name base c :
  let old := old_name base t mon hour usec in
  named l name base -> m_fp l = Some fp -> opened w fp = Some name -> file w name = Some c -> Z.of_nat (length c) < 2 ^ 31 ->
  (length old < 280)%nat -> old <> name ->
  exists l' w', rotate l fp t mon hour usec w = Ret (l', w') /\ named l' name base /\ m_bLock l' = m_bLock l /\
    if m_nSize l <=? Z.of_nat (length c)
    then
         file w' old = Some c /\ (forall m, m <> name -> m <> old -> file w' m = file w m) /\
         match m_fp l' with
         | Some fp' => opened w' fp' = Some name /\ file w' name = Some []
         | None => file w' name = None
         end
    else l' = l /\ same_files w w'.
Proof.
  intros old (Hn & Hb & [r1 E1] & [r2 E2]) Hfp Ho Hf Hc Hl Hne. unfold rotate.
  destruct (tell_law w fp name c Ho Hf) as [Ht [Hsf Hso]]. destruct (log_tell w fp) as [size w1]. cbn [fst snd] in *. subst size.
  rewrite s32_id by (unfold is_int; lia). destruct (m_nSize l <=? Z.of_nat (length c)).
  - rewrite E1, E2, !array_text_ok, !bind_ret_l by done. fold old. unfold sprintf_text.
    rewrite buf_write_ok by (rewrite ?length_app, ?length_replicate; cbn [length]; lia). rewrite bind_ret_l.
    change (Z.to_nat 0) with 0%nat. unfold splice. change (take 0 _) with (@nil Z). cbn [app]. rewrite <- app_assoc. cbn [app].
    rewrite array_text_ok, bind_ret_l by (by apply old_name_no_nul).
    destruct (rename_law (log_close w1 fp) name old) as (R1 & R2 & R3); [done|].
    pose proof (open_law (log_rename (log_close w1 fp) name old) name) as Hopen.
    destruct (log_open _ name) as [fp' w']. exists (set_fp fp' l), w'. split; [done|].
    split; [repeat split; try done; eauto|]. split; [done|]. cbn [m_fp set_fp]. destruct fp' as [fp'|].
    + destruct Hopen as (O1 & O2 & O3). rewrite R2 in O2. split; [by rewrite O3, R1, close_law, Hsf|].
      split; [intros m M1 M2; by rewrite O3, R3, close_law|done].
    + split; [by rewrite Hopen, R1, close_law, Hsf|]. split; [intros m M1 M2; by rewrite Hopen, R3, close_law|]. by rewrite Hopen.
  - exists l, w1. split; [done|]. split; [repeat split; eauto|]. split; [done|]. done.
Qed.

Lemma Lock_free l w : m_bLock l = false -> Lock l w = (0, set_lock true l, w).
Proof. intros E. unfold Lock. cbn [lock_loop]. by rewrite E. Qed.

Lemma mask_covered t t' : no_nul t -> mask (length t) (t ++ [0]) = Ret (t' ++ [0]) -> covered t t'.
Proof.
  intros Ht E. assert (bare t <= length t)%nat as Hb by apply length_filter.
  destruct (mask_text_total (length t) t Ht Hb) as [E'|(t2 & E' & C & _)]; rewrite E in E'; [done|].
  injection E' as E'. by apply app_inj_tail in E' as [-> _].
Qed.

(** The level a line is printed with. *)
Definition printed_level (nLevel : Z) : Z := if (nLevel <? 0) || (8 <=? nLevel) then 7 else nLevel.

(** C36: a message below the threshold is dropped.  The statements of [WriteLog] turn any other message into one line of
    the log file, with the date, the name of the level and the covered text, after everything the file held; when the
    file has reached the limit they move it to the dated name and open an empty one; they release the lock and change no
    other file.  The call itself is then undefined: [WriteLog] deletes an array without brackets and ends without a
    return, so that nothing is promised of a program that logs, and the theorem describes what the statements do where
    the implementation goes on. *)
Theorem log_line_written l fp text text' nLevel w name base c :
  let '(t, usec, _) := log_time w in
  let old := old_name base t (tm_mon t + 1) (tm_hour t) usec in
  named l name base -> m_fp l = Some fp -> m_bLock l = false -> opened w fp = Some name -> file w name = Some c ->
  no_nul text -> mask (length text) (text ++ [0]) = Ret (text' ++ [0]) ->
  (length old < 280)%nat -> old <> name ->
  (nLevel < m_nLevel l -> WriteLog l text nLevel w = Ret (0, l, w)) /\
  (m_nLevel l <= nLevel ->
   exists head, line_head t usec (printed_level nLevel) = Ret head /\
    let c' := c ++ head ++ text' ++ [10] in
    (Z.of_nat (length c') < 2 ^ 31 ->
    exists l' w', log_steps l text nLevel w = Ret (None, l', w') /\ m_bLock l' = false /\ named l' name base /\
      (forall m, m <> name -> m <> old -> file w' m = file w m) /\
      (if m_nSize l <=? Z.of_nat (length c')
       then file w' old = Some c' /\
            match m_fp l' with Some fp' => opened w' fp' = Some name /\ file w' name = Some [] | None => file w' name = None end
       else l' = l /\ opened w' fp = Some name /\ file w' name = Some c' /\ file w' old = file w old) /\
      WriteLog l text nLevel w = Undef)).
Proof.
  destruct (log_time w) as [[t usec] w0] eqn:Etime. intros old Hn Hfp Hlock Ho Hf Ht Hmask Hlen Hold.
  split; [intros Hlev; unfold WriteLog, log_steps; by rewrite (proj2 (Z.ltb_lt _ _))|]. intros Hlev.
  assert (0 <= printed_level nLevel < 8) as Hpl by (unfold printed_level; destruct (Z.ltb_spec nLevel 0), (Z.leb_spec 8 nLevel); cbn [orb]; lia).
  assert (exists head, line_head t usec (printed_level nLevel) = Ret head) as [head Ehead].
  { destruct (level_name _ Hpl) as [x Ex]. eexists. unfold line_head. by rewrite Ex. }
  exists head. split; [done|]. intros c' Hc'.
  pose proof (time_law w) as [Tf To]. rewrite Etime in Tf, To. cbn [snd] in Tf, To.
  destruct (write_law w0 fp name c (head ++ text' ++ [10])) as (W1 & W2 & W3); [by rewrite To|by rewrite Tf|]. fold c' in W2.
  set (w1 := log_write w0 fp (head ++ text' ++ [10])) in *.
  destruct (rotate_ok (set_lock true l) fp t (tm_mon t + 1) (tm_hour t) usec w1 name base c')
    as (l' & w' & E & Hn' & _ & Hrot); try done.
  pose proof (covered_no_nul _ _ (mask_covered _ _ Ht Hmask) Ht) as Ht'.
  assert (log_steps l text nLevel w = Ret (None, UnLock l', w')) as Esteps.
  { unfold log_steps. rewrite (proj2 (Z.ltb_ge _ _)) by done. unfold reopen. rewrite Hfp, bind_ret_l. cbv beta iota zeta.
    rewrite Lock_free by done. cbv beta iota zeta. rewrite Etime, Hmask, bind_ret_l. fold (printed_level nLevel).
    change (0 =? 1) with false. cbv iota. rewrite Ehead, bind_ret_l, upto_nul_text by done. fold w1. rewrite E. done. }
  assert (WriteLog l text nLevel w = Undef) as Eundef by (unfold WriteLog; by rewrite Esteps).
  exists (UnLock l'), w'. split; [done|]. split; [done|]. split; [done|].
  match goal with |- ?A /\ ?B /\ ?C => assert (A /\ B) as [? ?]; [|by split_and!] end.
  - cbn [m_nSize set_lock] in Hrot. destruct (m_nSize l <=? Z.of_nat (length c')).
    + destruct Hrot as (R1 & R2 & R3). split; [|by split]. intros m M1 M2. by rewrite R2, W3, Tf.
    + destruct Hrot as [-> [Rf Ro]]. split; [intros m M1 _; by rewrite Rf, W3, Tf|]. split; [destruct l; cbn in *; by subst|].
      split; [by rewrite Ro|]. split; [by rewrite Rf|]. by rewrite Rf, W3, Tf.
Qed.
End files.

(** Whatever a message holds, hiding its credentials ends: it either leaves the copy of the message (a word without
    a colon or a quote after it, or a password only inside the value of the user), or ends with a text of the same
    length that differs only by the covering letters and in which the two words do not both occur. *)
Theorem log_mask_ends (t : list Z) : no_nul t ->
  mask (length t) (t ++ [0]) = Undef \/
  exists t', mask (length t) (t ++ [0]) = Ret (t' ++ [0]) /\ length t' = length t /\ covered t t' /\
    (strstr t' (codes "username") = None \/ strstr t' (codes "password") = None).
Proof.
  intros Ht. assert (bare t <= length t)%nat as Hb by apply length_filter.
  destruct (mask_text_total (length t) t Ht Hb) as [->|(t' & E & C & Hn)]; [by left|]. right. exists t'.
  split; [done|]. split; [symmetry; by apply (Forall2_length _ _ _ C)|done].
Qed.

Lemma log_mask_ends_witness : exists t', mask (length (codes "a username:")) (codes "a username:" ++ [0]) = Ret (t' ++ [0]) /\
  length t' = 11%nat.
Proof.
  destruct (log_mask_ends (codes "a username:")) as [E|(t' & E & L & _)].
  - repeat constructor; discriminate.
  - exfalso. vm_compute in E. discriminate.
  - exists t'. split; [exact E|exact L].
Defined.

(** A password that occurs only in the value of the user is looked for after
    that value was covered. *)
Lemma covered_password_undefined :
  let text := codes "username" ++ [34; 58; 34] ++ codes "password" ++ [34] in mask (length text) (text ++ [0]) = Undef.
Proof. vm_compute. reflexivity. Qed.

(** ** A disk *)

Record disk := { contents : list Z -> option (list Z); handles : Z -> option (list Z) }.

Definition put (n : list Z) (c : option (list Z)) (w : disk) : disk :=
  {| contents := fun m => if decide (m = n) then c else contents w m; handles := handles w |}.

#[global] Instance disk_host : LogHost disk := {
  log_cwd w := codes "/var/log";
  log_open w n :=
    (Some 1, {| contents := contents (put n (Some (default [] (contents w n))) w);
                handles := fun fp => if decide (fp = 1) then Some n else handles w fp |});
  log_write w fp x :=
    match handles w fp with
    | Some n => put n (Some (default [] (contents w n) ++ x)) w
    | None => w
    end;
  log_tell w fp := (Z.of_nat (length (default [] (handles w fp ≫= contents w))), w);
  log_close w fp := w;
  log_rename w a b := put a None (put b (contents w a) w);
  log_time w := ({| tm_year := 124; tm_mon := 4; tm_mday := 7; tm_hour := 9; tm_min := 30; tm_sec := 5 |}, 42, w);
  log_sleep w _ := w
}.

#[global, refine] Instance disk_files : LogFiles disk := { file := contents; opened := handles }.
Proof.
  - intros w n. cbn. rewrite !decide_True by done. repeat split; try done. intros m Hm. by rewrite decide_False.
  - intros w fp n c x Ho Hf. cbn. rewrite Ho, Hf. cbn. rewrite decide_True by done. repeat split; try done.
    intros m Hm. by rewrite decide_False.
  - intros w fp n c Ho Hf. cbn. rewrite Ho. cbn. by rewrite Hf.
  - done.
  - done.
  - intros w a b Hab. cbn. rewrite decide_False, !decide_True by done. repeat split; try done.
    intros m Ha Hb. by rewrite !decide_False.
Defined.

Definition sample_log : CAstLogOut :=
  set_fp (Some 1) (set_file (codes "/var/log/a.log" ++ [0]) (codes "/var/log" ++ [0]) (new_CAstLogOut [] [])).

Definition sample_disk : disk :=
  {| contents := fun m => if decide (m = codes "/var/log/a.log") then Some (codes "old") else None;
     handles := fun fp => if decide (fp = 1) then Some (codes "/var/log/a.log") else None |}.

Lemma log_line_written_witness : exists l' w',
  log_steps sample_log (codes "hello") 3 sample_disk = Ret (None, l', w') /\ m_bLock l' = false /\
  file w' (codes "/var/log/a.log") = Some (codes "old2024-05-07 09:30:05.042" ++ [9] ++ codes "[WARNING]" ++ [9] ++ codes "hello" ++ [10]).
Proof.
  destruct (log_line_written sample_log 1 (codes "hello") (codes "hello") 3 sample_disk (codes "/var/log/a.log")
    (codes "/var/log") (codes "old")) as (_ & H).
  - repeat split; try (repeat constructor; discriminate); by exists [].
  - reflexivity.
  - reflexivity.
  - reflexivity.
  - reflexivity.
  - repeat constructor; discriminate.
  - vm_compute. reflexivity.
  - apply Nat.ltb_lt. vm_compute. reflexivity.
  - discriminate.
  - destruct H as (head & Eh & H); [discriminate|]. vm_compute in Eh. injection Eh as <-. destruct H as (l' & w' & E & L & _ & _ & R & _); [vm_compute; reflexivity|].
    vm_compute in R. destruct R as (_ & _ & R & _). do 2 eexists. split; [exact E|]. split; [exact L|]. exact R.
Defined.
