(* ===== verification/Ftp.v ===== *)
(** * The FTP client (src/public/ftp/ftpclient.cpp)

    [ftpClient] sends command lines over a control connection, reads the
    replies, and moves files over data connections.  [FtpHost] is the interface
    of the sockets, files and clock.  The functions run in a state monad over
    the fields of the class and the state of the host. *)
From S2P Require Import Prelude Words Buffers CString Decimal Socket.

(** An open file is a handle; times and the download state of the caller are
    read from the host. *)
Class FtpHost (W : Type) := {
  ftp_net :: System W;
  sys_nonblocking : W -> Z -> Z -> Z * W;
  file_open : W -> list Z -> list Z -> option Z * W;
  file_close : W -> Z -> W;
  file_size : W -> list Z -> Z * W;
  file_seek : W -> Z -> Z -> W;
  file_read : W -> Z -> Z -> list Z * W;
  file_eof : W -> Z -> bool * W;
  file_write : W -> Z -> list Z -> W;
  tick_count : W -> Z * W;
  host_sleep : W -> Z -> W;
  down_state : W -> Z * W
}.

Definition FTP_INVALID_SOCKET : Z := -1.
Definition MAX_PATH : Z := 260.
Definition FTP_DEFAULT_PORT : list Z := codes "21".
Definition FTP_DEFAULT_BUFFER : Z := 1024 * 4.
Definition FTP_DEFAULT_PATH : list Z := codes "d:\tmp\".
Definition FTP_COMMAND_BASE : Z := 1000.
Definition FTP_COMMAND_END : Z := FTP_COMMAND_BASE + 30.
Definition FTP_COMMAND_USERNAME : Z := FTP_COMMAND_BASE + 1.
Definition FTP_COMMAND_PASSWORD : Z := FTP_COMMAND_BASE + 2.
Definition FTP_COMMAND_QUIT : Z := FTP_COMMAND_BASE + 3.
Definition FTP_COMMAND_CURRENT_PATH : Z := FTP_COMMAND_BASE + 4.
Definition FTP_COMMAND_TYPE_MODE : Z := FTP_COMMAND_BASE + 5.
Definition FTP_COMMAND_PSAV_MODE : Z := FTP_COMMAND_BASE + 6.
Definition FTP_COMMAND_DIR : Z := FTP_COMMAND_BASE + 7.
Definition FTP_COMMAND_CHANGE_DIRECTORY : Z := FTP_COMMAND_BASE + 8.
Definition FTP_COMMAND_DELETE_FILE : Z := FTP_COMMAND_BASE + 9.
Definition FTP_COMMAND_DELETE_DIRECTORY : Z := FTP_COMMAND_BASE + 10.
Definition FTP_COMMAND_CREATE_DIRECTORY : Z := FTP_COMMAND_BASE + 11.
Definition FTP_COMMAND_RENAME_BEGIN : Z := FTP_COMMAND_BASE + 12.
Definition FTP_COMMAND_RENAME_END : Z := FTP_COMMAND_BASE + 13.
Definition FTP_COMMAND_FILE_SIZE : Z := FTP_COMMAND_BASE + 14.
Definition FTP_COMMAND_DOWNLOAD_POS : Z := FTP_COMMAND_BASE + 15.
Definition FTP_COMMAND_DOWNLOAD_FILE : Z := FTP_COMMAND_BASE + 16.
Definition FTP_COMMAND_UPLOAD_FILE : Z := FTP_COMMAND_BASE + 17.
Definition FTP_COMMAND_APPEND_FILE : Z := FTP_COMMAND_BASE + 18.

(** [m_pnDownState] is a pointer to a variable of the caller, or null. *)
Record ftpClient := {
  m_nDLMaxSize : Z;
  m_nDownLoaded : Z;
  m_strLocalDir : list Z;
  m_nDownLoadSpeed : Z;
  m_cmdSocket : Z;
  m_strUserName : list Z;
  m_strPassWord : list Z;
  m_strServerIP : list Z;
  m_nServerPort : Z;
  m_strResponse : list Z;
  m_commandStr : list Z;
  m_nCurrentCommand : Z;
  m_bLogin : bool;
  m_pnDownState : bool
}.

(** The port and the current command are not initialised. *)
Definition new_ftpClient (port command : Z) : ftpClient :=
  {| m_nDLMaxSize := 0; m_nDownLoaded := 0; m_strLocalDir := FTP_DEFAULT_PATH; m_nDownLoadSpeed := 0;
     m_cmdSocket := FTP_INVALID_SOCKET; m_strUserName := []; m_strPassWord := []; m_strServerIP := []; m_nServerPort := port;
     m_strResponse := []; m_commandStr := []; m_nCurrentCommand := command; m_bLogin := false; m_pnDownState := false |}.

Definition set_sizes (max done : Z) (c : ftpClient) : ftpClient :=
  {| m_nDLMaxSize := max; m_nDownLoaded := done; m_strLocalDir := m_strLocalDir c; m_nDownLoadSpeed := m_nDownLoadSpeed c;
     m_cmdSocket := m_cmdSocket c; m_strUserName := m_strUserName c; m_strPassWord := m_strPassWord c;
     m_strServerIP := m_strServerIP c; m_nServerPort := m_nServerPort c; m_strResponse := m_strResponse c;
     m_commandStr := m_commandStr c; m_nCurrentCommand := m_nCurrentCommand c; m_bLogin := m_bLogin c;
     m_pnDownState := m_pnDownState c |}.
Definition set_socket (fd : Z) (c : ftpClient) : ftpClient :=
  {| m_nDLMaxSize := m_nDLMaxSize c; m_nDownLoaded := m_nDownLoaded c; m_strLocalDir := m_strLocalDir c;
     m_nDownLoadSpeed := m_nDownLoadSpeed c; m_cmdSocket := fd; m_strUserName := m_strUserName c;
     m_strPassWord := m_strPassWord c; m_strServerIP := m_strServerIP c; m_nServerPort := m_nServerPort c;
     m_strResponse := m_strResponse c; m_commandStr := m_commandStr c; m_nCurrentCommand := m_nCurrentCommand c;
     m_bLogin := m_bLogin c; m_pnDownState := m_pnDownState c |}.
Definition set_user (user : list Z) (c : ftpClient) : ftpClient :=
  {| m_nDLMaxSize := m_nDLMaxSize c; m_nDownLoaded := m_nDownLoaded c; m_strLocalDir := m_strLocalDir c;
     m_nDownLoadSpeed := m_nDownLoadSpeed c; m_cmdSocket := m_cmdSocket c; m_strUserName := user;
     m_strPassWord := m_strPassWord c; m_strServerIP := m_strServerIP c; m_nServerPort := m_nServerPort c;
     m_strResponse := m_strResponse c; m_commandStr := m_commandStr c; m_nCurrentCommand := m_nCurrentCommand c;
     m_bLogin := m_bLogin c; m_pnDownState := m_pnDownState c |}.
Definition set_password (p : list Z) (c : ftpClient) : ftpClient :=
  {| m_nDLMaxSize := m_nDLMaxSize c; m_nDownLoaded := m_nDownLoaded c; m_strLocalDir := m_strLocalDir c;
     m_nDownLoadSpeed := m_nDownLoadSpeed c; m_cmdSocket := m_cmdSocket c; m_strUserName := m_strUserName c;
     m_strPassWord := p; m_strServerIP := m_strServerIP c; m_nServerPort := m_nServerPort c;
     m_strResponse := m_strResponse c; m_commandStr := m_commandStr c; m_nCurrentCommand := m_nCurrentCommand c;
     m_bLogin := m_bLogin c; m_pnDownState := m_pnDownState c |}.
Definition set_server (ip : list Z) (port : Z) (c : ftpClient) : ftpClient :=
  {| m_nDLMaxSize := m_nDLMaxSize c; m_nDownLoaded := m_nDownLoaded c; m_strLocalDir := m_strLocalDir c;
     m_nDownLoadSpeed := m_nDownLoadSpeed c; m_cmdSocket := m_cmdSocket c; m_strUserName := m_strUserName c;
     m_strPassWord := m_strPassWord c; m_strServerIP := ip; m_nServerPort := port; m_strResponse := m_strResponse c;
     m_commandStr := m_commandStr c; m_nCurrentCommand := m_nCurrentCommand c; m_bLogin := m_bLogin c;
     m_pnDownState := m_pnDownState c |}.
Definition set_response (r : list Z) (c : ftpClient) : ftpClient :=
  {| m_nDLMaxSize := m_nDLMaxSize c; m_nDownLoaded := m_nDownLoaded c; m_strLocalDir := m_strLocalDir c;
     m_nDownLoadSpeed := m_nDownLoadSpeed c; m_cmdSocket := m_cmdSocket c; m_strUserName := m_strUserName c;
     m_strPassWord := m_strPassWord c; m_strServerIP := m_strServerIP c; m_nServerPort := m_nServerPort c;
     m_strResponse := r; m_commandStr := m_commandStr c; m_nCurrentCommand := m_nCurrentCommand c; m_bLogin := m_bLogin c;
     m_pnDownState := m_pnDownState c |}.
Definition set_command (n : Z) (s : list Z) (c : ftpClient) : ftpClient :=
  {| m_nDLMaxSize := m_nDLMaxSize c; m_nDownLoaded := m_nDownLoaded c; m_strLocalDir := m_strLocalDir c;
     m_nDownLoadSpeed := m_nDownLoadSpeed c; m_cmdSocket := m_cmdSocket c; m_strUserName := m_strUserName c;
     m_strPassWord := m_strPassWord c; m_strServerIP := m_strServerIP c; m_nServerPort := m_nServerPort c;
     m_strResponse := m_strResponse c; m_commandStr := s; m_nCurrentCommand := n; m_bLogin := m_bLogin c;
     m_pnDownState := m_pnDownState c |}.
Definition set_login (b : bool) (c : ftpClient) : ftpClient :=
  {| m_nDLMaxSize := m_nDLMaxSize c; m_nDownLoaded := m_nDownLoaded c; m_strLocalDir := m_strLocalDir c;
     m_nDownLoadSpeed := m_nDownLoadSpeed c; m_cmdSocket := m_cmdSocket c; m_strUserName := m_strUserName c;
     m_strPassWord := m_strPassWord c; m_strServerIP := m_strServerIP c; m_nServerPort := m_nServerPort c;
     m_strResponse := m_strResponse c; m_commandStr := m_commandStr c; m_nCurrentCommand := m_nCurrentCommand c;
     m_bLogin := b; m_pnDownState := m_pnDownState c |}.
Definition set_down_state (b : bool) (c : ftpClient) : ftpClient :=
  {| m_nDLMaxSize := m_nDLMaxSize c; m_nDownLoaded := m_nDownLoaded c; m_strLocalDir := m_strLocalDir c;
     m_nDownLoadSpeed := m_nDownLoadSpeed c; m_cmdSocket := m_cmdSocket c; m_strUserName := m_strUserName c;
     m_strPassWord := m_strPassWord c; m_strServerIP := m_strServerIP c; m_nServerPort := m_nServerPort c;
     m_strResponse := m_strResponse c; m_commandStr := m_commandStr c; m_nCurrentCommand := m_nCurrentCommand c;
     m_bLogin := m_bLogin c; m_pnDownState := b |}.

(** ** Texts *)

(** The first position in [s] of a character of [set]; [npos] is the greatest
    [size_t]. *)
Fixpoint find_first_of (s set : list Z) : option nat :=
  match s with
  | [] => None
  | c :: r => if existsb (Z.eqb c) set then Some 0%nat else S <$> find_first_of r set
  end.
Definition npos : Z := 2 ^ 64 - 1.
Definition position (o : option nat) : Z := from_option Z.of_nat npos o.

(** [substr(pos, n)] of std::string. *)
Definition substr (s : list Z) (pos n : Z) : cpp (list Z) :=
  if Z.of_nat (length s) <? pos then Throw "basic_string::substr"
  else let r := drop (Z.to_nat pos) s in Ret (take (Z.to_nat (Z.min n (Z.of_nat (length r)))) r).

(** [SplitString]: the fields before a separator that is not the first
    character of what is left. *)
Fixpoint SplitString (fuel : nat) (strSrc strFlag : list Z) : cpp (list (list Z)) :=
  match find_first_of strSrc strFlag with
  | Some (S p) =>
      match fuel with
      | O => NoFuel
      | S f => r ← SplitString f (drop (S (S p)) strSrc) strFlag; Ret (take (S p) strSrc :: r)
      end
  | _ => Ret [strSrc]
  end.

(** The port and the address of the reply to PASV. *)
Definition ParseString (strArray : list (list Z)) : cpp (option (Z * list Z)) :=
  match strArray with
  | a :: b :: c :: d :: _ :: _ :: _ =>
      let ip := a ++ codes "." ++ b ++ codes "." ++ c ++ codes "." ++ d in
      let n := length strArray in
      low ← atol (nth (n - 1) strArray []);
      high ← atol (nth (n - 2) strArray []);
      high ← long_checked (high * 256);
      Ret (Some ((low mod 2 ^ 64 + high) mod 2 ^ 64, ip))
  | _ => Ret None
  end.

Definition parseResponse (str : list Z) : cpp Z :=
  if bool_decide (str = []) then Ret (-100) else d ← substr str 0 3; atoi d.

(** The verbs of the commands. *)
Definition verb (command : Z) : list Z :=
  if command =? FTP_COMMAND_USERNAME then codes "USER "
  else if command =? FTP_COMMAND_PASSWORD then codes "PASS "
  else if command =? FTP_COMMAND_QUIT then codes "QUIT "
  else if command =? FTP_COMMAND_CURRENT_PATH then codes "PWD "
  else if command =? FTP_COMMAND_TYPE_MODE then codes "TYPE "
  else if command =? FTP_COMMAND_PSAV_MODE then codes "PASV "
  else if command =? FTP_COMMAND_DIR then codes "LIST "
  else if command =? FTP_COMMAND_CHANGE_DIRECTORY then codes "CWD "
  else if command =? FTP_COMMAND_DELETE_FILE then codes "DELE "
  else if command =? FTP_COMMAND_DELETE_DIRECTORY then codes "RMD "
  else if command =? FTP_COMMAND_CREATE_DIRECTORY then codes "MKD "
  else if command =? FTP_COMMAND_RENAME_BEGIN then codes "RNFR "
  else if command =? FTP_COMMAND_RENAME_END then codes "RNTO "
  else if command =? FTP_COMMAND_FILE_SIZE then codes "SIZE "
  else if command =? FTP_COMMAND_DOWNLOAD_FILE then codes "RETR "
  else if command =? FTP_COMMAND_DOWNLOAD_POS then codes "REST "
  else if command =? FTP_COMMAND_UPLOAD_FILE then codes "STOR "
  else if command =? FTP_COMMAND_APPEND_FILE then codes "APPE "
  else [].

Definition CRLF : list Z := [13; 10].

(** The milliseconds from [b] to [a]. *)
Definition CostDiff (a b : Z) : Z := if b <=? a then u32 (a - b) else u32 (a + (4294967295 - b)).

(** The transfer modes. *)
Inductive mode := binary | ascii.

Section ftp.
Context {W : Type} `{!FtpHost W}.

(** The bound of every loop of a call. *)
Variable fuel : nat.

Record ftp := { obj : ftpClient; host : W }.

Definition F (A : Type) : Type := ftp -> cpp (A * ftp).
#[global] Instance f_ret : MRet F := fun A a s => Ret (a, s).
#[global] Instance f_bind : MBind F := fun A B f m s => '(a, s') ← m s; f a s'.

Definition field {A} (f : ftpClient -> A) : F A := fun s => Ret (f (obj s), s).
Definition update (f : ftpClient -> ftpClient) : F unit := fun s => Ret (tt, {| obj := f (obj s); host := host s |}).
Definition call {A} (f : W -> A * W) : F A := fun s => let '(a, w) := f (host s) in Ret (a, {| obj := obj s; host := w |}).
Definition act (f : W -> W) : F unit := fun s => Ret (tt, {| obj := obj s; host := f (host s) |}).
Definition lift {A} (m : cpp A) : F A := fun s => a ← m; Ret (a, s).

(** A loop goes on with [inl] or ends with [inr]. *)
Fixpoint floop {S A} (n : nat) (body : S -> F (S + A)) (x : S) : F A :=
  match n with
  | O => lift NoFuel
  | Datatypes.S n => o ← body x; match o with inl x => floop n body x | inr a => mret a end
  end.

(** ** The control connection *)

Definition parseCommand (command : Z) (strParam : list Z) : F (list Z) :=
  if (command <? FTP_COMMAND_BASE) || (FTP_COMMAND_END <? command) then mret []
  else
    let v := verb command in
    let line := if Z.of_nat (length v) <? 3 then [] else v ++ strParam ++ CRLF in
    update (set_command command line);; mret line.

Definition wait (fd : Z) (write : bool) (sec : Z) : F Z :=
  call (fun w => let '(ret, _, w) := sys_select w fd write (sec, 0) in (ret, w)).

(** [Send] of bytes; a negative result other than -1 or one beyond the length
    makes the length wrap. *)
Definition send_bytes (fd : Z) (cmd : list Z) : F Z :=
  current ← field m_nCurrentCommand;
  login ← field m_bLogin;
  if negb (current =? FTP_COMMAND_USERNAME) && negb (current =? FTP_COMMAND_PASSWORD) && negb login then mret (-1)
  else
    ready ← wait fd true 1;
    if 0 <? ready then
      floop fuel (fun cmd =>
        if bool_decide (cmd = []) then mret (inr 0)
        else
          nSendLen ← call (fun w => let '(ret, _, w) := sys_send w fd cmd in (s32 ret, w));
          if nSendLen =? -1 then mret (inr (-2))
          else if (0 <=? nSendLen) && (nSendLen <=? Z.of_nat (length cmd)) then mret (inl (drop (Z.to_nat nSendLen) cmd))
          else lift Undef) cmd
    else mret (-1).

Definition Send (fd : Z) (cmd : list Z) : F Z := if fd =? FTP_INVALID_SOCKET then mret (-1) else send_bytes fd cmd.

(** Passed as a C string, a line ends at its first zero. *)
Definition Send_text (fd : Z) (cmd : list Z) : F Z := Send fd (upto_nul cmd).

Definition getData (fd : Z) (strBuf : list Z) (length : Z) : F (Z * list Z) :=
  if fd =? FTP_INVALID_SOCKET then mret (-1, strBuf)
  else
    strBuf ← lift (memset strBuf 0 0 length);
    ready ← wait fd false 1;
    if 0 <? ready then
      '(bytes, nLen) ← call (fun w => let '(bytes, ret, _, w) := sys_recv w fd length in (bytes, s32 ret, w));
      strBuf ← lift (buf_write strBuf 0 bytes);
      mret (if 0 <? nLen then nLen else -2, strBuf)
    else mret (0, strBuf).

Definition serverResponse (sockfd : Z) : F (list Z) :=
  if sockfd =? FTP_INVALID_SOCKET then mret []
  else
    update (set_response []);;
    floop fuel (fun buf =>
      '(nRet, buf) ← getData sockfd buf MAX_PATH;
      if 0 <? nRet then
        buf ← lift (buf_write buf (MAX_PATH - 1) [0]);
        old ← field m_strResponse;
        update (set_response (old ++ upto_nul buf));; mret (inl buf)
      else mret (inr tt)) (replicate (Z.to_nat MAX_PATH) 0);;
    field m_strResponse.

(** The reply becomes [m_strResponse] and its code the result. *)
Definition answer : F Z :=
  sock ← field m_cmdSocket; r ← serverResponse sock; update (set_response r);; lift (parseResponse r).

Definition Connect (socketfd : Z) (serverIP : list Z) (nPort : Z) : F Z :=
  if socketfd =? FTP_INVALID_SOCKET then mret (-1)
  else
    call (fun w => sys_nonblocking w socketfd 1);;
    r ← call (fun w => let '(ret, _, w) := sys_connect w socketfd serverIP (nPort mod 65536) in (ret, w));
    ok ← (if r =? -1 then
            ready ← wait socketfd true 20;
            if 0 <? ready then error ← call (fun w => sys_so_error w socketfd); mret (error =? 0) else mret false
          else mret true);
    call (fun w => sys_nonblocking w socketfd 0);;
    if negb ok then call (fun w => sys_close w socketfd);; mret (-1) else mret 0.

(** ** Commands *)

Definition login2Server (serverIP : list Z) : F Z :=
  let pos := s32 (position (find_first_of serverIP (codes ":"))) in
  sock ← field m_cmdSocket;
  (if sock =? FTP_INVALID_SOCKET then fd ← call sys_socket; update (set_socket fd) else mret tt);;
  let len := Z.of_nat (length serverIP) in
  strPort ← lift (if 0 <? pos then substr serverIP (pos + 1) (len - pos) else Ret FTP_DEFAULT_PORT);
  ip ← lift (substr serverIP 0 (if 0 <? pos then pos else len));
  port ← lift (atol strPort);
  update (set_server ip (u32 port));;
  sock ← field m_cmdSocket;
  r ← Connect sock ip (u32 port);
  if r <? 0 then mret (-1) else answer.

Definition inputUserName (userName : list Z) : F Z :=
  line ← parseCommand FTP_COMMAND_USERNAME userName;
  update (set_user userName);;
  sock ← field m_cmdSocket;
  r ← Send sock line;
  if r <? 0 then mret (-1) else answer.

Definition inputPassWord (password : list Z) : F Z :=
  line ← parseCommand FTP_COMMAND_PASSWORD password;
  update (set_password password);;
  sock ← field m_cmdSocket;
  r ← Send sock line;
  if r <? 0 then mret (-1) else update (set_login true);; answer.

Definition IsLogin : F bool := field m_bLogin.
Definition GetResponMsg : F (list Z) := field m_strResponse.

Definition quitServer : F Z :=
  line ← parseCommand FTP_COMMAND_QUIT [];
  sock ← field m_cmdSocket;
  r ← Send sock line;
  if r <? 0 then mret (-1) else answer.

Definition delete_ftpClient : F unit :=
  line ← parseCommand FTP_COMMAND_QUIT [];
  sock ← field m_cmdSocket;
  Send_text sock line;;
  call (fun w => sys_close w sock);;
  update (set_login false).

Definition PWD : F (list Z) :=
  line ← parseCommand FTP_COMMAND_CURRENT_PATH [];
  sock ← field m_cmdSocket;
  r ← Send_text sock line;
  if r <? 0 then mret [] else serverResponse sock.

Definition setTransferMode (m : mode) : F Z :=
  line ← parseCommand FTP_COMMAND_TYPE_MODE (match m with binary => codes "I" | ascii => codes "A" end);
  sock ← field m_cmdSocket;
  r ← Send_text sock line;
  if r <? 0 then mret (-1) else answer.

Definition Pasv : F (list Z) :=
  line ← parseCommand FTP_COMMAND_PSAV_MODE [];
  sock ← field m_cmdSocket;
  r ← Send_text sock line;
  if r <? 0 then mret [] else r ← serverResponse sock; update (set_response r);; mret r.

(** The commands that take a path and return the code of the reply. *)
Definition path_command (command : Z) (path : list Z) : F Z :=
  sock ← field m_cmdSocket;
  if sock =? FTP_INVALID_SOCKET then mret (-2)
  else
    line ← parseCommand command path;
    r ← Send sock line;
    if r <? 0 then mret (-1) else answer.

Definition CD : list Z -> F Z := path_command FTP_COMMAND_CHANGE_DIRECTORY.
Definition DeleteFile : list Z -> F Z := path_command FTP_COMMAND_DELETE_FILE.
Definition DeleteDirectory : list Z -> F Z := path_command FTP_COMMAND_DELETE_DIRECTORY.
Definition CreateDirectory : list Z -> F Z := path_command FTP_COMMAND_CREATE_DIRECTORY.

Definition Rename (strRemoteFile strNewFile : list Z) : F Z :=
  sock ← field m_cmdSocket;
  if sock =? FTP_INVALID_SOCKET then mret (-2)
  else
    line ← parseCommand FTP_COMMAND_RENAME_BEGIN strRemoteFile;
    Send sock line;;
    serverResponse sock;;
    line ← parseCommand FTP_COMMAND_RENAME_END strNewFile;
    Send sock line;;
    answer.

Definition getFileLength (strRemoteFile : list Z) : F Z :=
  sock ← field m_cmdSocket;
  if sock =? FTP_INVALID_SOCKET then mret (-2)
  else
    line ← parseCommand FTP_COMMAND_FILE_SIZE strRemoteFile;
    r ← Send sock line;
    if r <? 0 then mret (-1)
    else
      reply ← serverResponse sock;
      update (set_response reply);;
      code ← lift (substr reply 0 3);
      val ← lift (atol code);
      if val =? 213 then data ← lift (substr reply 4 npos); mret (strtoll data) else mret (-1).

Definition CloseFtp : F unit :=
  sock ← field m_cmdSocket;
  call (fun w => sys_close w sock);;
  update (set_socket FTP_INVALID_SOCKET).

Definition Close (sock : Z) : F unit := call (fun w => sys_close w sock);; mret tt.

(** ** Data connections *)

(** The text between the parentheses of the reply, or what [substr] makes of a
    reply without them. *)
Definition passive_fields (parseStr : list Z) : cpp (list Z) :=
  let nBegin := position (find_first_of parseStr (codes "(")) in
  let nEnd := position (find_first_of parseStr (codes ")")) in
  substr parseStr ((nBegin + 1) mod 2 ^ 64) ((nEnd - nBegin - 1) mod 2 ^ 64).

Definition createDataLink (data_fd : Z) : F Z :=
  if data_fd =? FTP_INVALID_SOCKET then mret (-2)
  else
    parseStr ← Pasv;
    if bool_decide (parseStr = []) then mret (-1)
    else
      strData ← lift (passive_fields parseStr);
      strArray ← lift (SplitString (length strData) strData (codes ","));
      o ← lift (ParseString strArray);
      match o with
      | None => mret (-1)
      | Some (nPort, strServerIp) => r ← Connect data_fd strServerIp (u32 nPort); mret (if r <? 0 then -1 else 0)
      end.

Definition Dir (path : list Z) : F (list Z) :=
  dataSocket ← call sys_socket;
  r ← createDataLink dataSocket;
  if r <? 0 then mret []
  else
    line ← parseCommand FTP_COMMAND_DIR path;
    sock ← field m_cmdSocket;
    r ← Send sock line;
    serverResponse sock;;
    if r <? 0 then Close dataSocket;; mret []
    else
      reply ← serverResponse dataSocket;
      update (set_response reply);;
      Close dataSocket;;
      mret reply.

(** [GetLocalFileSize(name, size)]: -1 without the file. *)
Definition GetLocalFileSize (strLocalFile : list Z) : F Z :=
  fp ← call (fun w => file_open w strLocalFile (codes "rb"));
  match fp with
  | None => mret (-1)
  | Some fp => act (fun w => file_close w fp);; call (fun w => file_size w strLocalFile)
  end.

Definition createLocalFile (strLocalFile : list Z) : F (option Z) := call (fun w => file_open w strLocalFile (codes "w+b")).

(** ** Uploads *)

(** Both functions: the second one returns the number of bytes through its
    argument, of which [uplen] is the value so far. *)
Definition upload_loop (data_fd pFile : Z) (uplen : Z) : F (bool * Z) :=
  floop fuel (fun uplen =>
    eof ← call (fun w => file_eof w pFile);
    if (eof : bool) then mret (inr (true, uplen))
    else
      bytes ← call (fun w => file_read w pFile FTP_DEFAULT_BUFFER);
      r ← send_bytes data_fd bytes;
      if r <? 0 then mret (inr (false, uplen)) else mret (inl (uplen + Z.of_nat (length bytes)))) uplen.

Definition upload (strRemoteFile strLocalFile : list Z) (uplen : Z) : F (Z * Z) :=
  nSize ← getFileLength strRemoteFile;
  dir ← field m_strLocalDir;
  pFile ← call (fun w => file_open w (dir ++ strLocalFile) (codes "rb"));
  match pFile with
  | None => mret (-2, uplen)
  | Some pFile =>
      data_fd ← call sys_socket;
      if data_fd <? 0 then mret (data_fd, uplen)
      else
        r ← createDataLink data_fd;
        if r <? 0 then act (fun w => file_close w pFile);; mret (-1, uplen)
        else
          line ← parseCommand (if nSize =? -1 then FTP_COMMAND_UPLOAD_FILE else FTP_COMMAND_APPEND_FILE) strRemoteFile;
          sock ← field m_cmdSocket;
          r ← Send sock line;
          if r <? 0 then act (fun w => file_close w pFile);; Close data_fd;; mret (-1, uplen)
          else
            serverResponse sock;;
            act (fun w => file_seek w pFile nSize);;
            '(ok, uplen) ← upload_loop data_fd pFile 0;
            if negb ok then Close data_fd;; act (fun w => file_close w pFile);; mret (-1, uplen)
            else
              serverResponse data_fd;;
              Close data_fd;;
              serverResponse sock;;
              act (fun w => file_close w pFile);;
              mret (0, uplen)
  end.

Definition Put (strRemoteFile strLocalFile : list Z) : F Z := '(r, _) ← upload strRemoteFile strLocalFile 0; mret r.
Definition Put64 (strRemoteFile strLocalFile : list Z) (uplen : Z) : F (Z * Z) := upload strRemoteFile strLocalFile uplen.

(** ** Downloads *)

(** Waiting while the speed is limited; the clock is read only then. *)
Definition limit_speed (uBegin nReceiveLen : Z) : F unit :=
  speed ← field m_nDownLoadSpeed;
  if 0 <? speed then
    uNow ← call tick_count;
    let uCost := CostDiff uNow uBegin in
    let uPreCost := u32 (Z.quot nReceiveLen speed) in
    if uCost <? uPreCost then act (fun w => host_sleep w (uPreCost - uCost)) else mret tt
  else mret tt.

(** Whether the caller stops the transfer; it can make it wait. *)
Definition paused : F bool :=
  watched ← field m_pnDownState;
  if (watched : bool) then
    floop fuel (fun _ : unit =>
      state ← call down_state;
      if state =? 0 then mret (inr tt)
      else
        state ← call down_state;
        if state =? 1 then act (fun w => host_sleep w 1000);; mret (inl tt) else mret (inr tt)) tt;;
    state ← call down_state; mret (state =? 2)
  else mret false.

(** One round of the loop on the size of the buffer, the buffer and the bytes
    received: [memset] clears the size of a pointer, not of the buffer. *)
Definition download_step (watch : bool) (data_fd file length uBegin : Z) (x : Z * list Z * Z) : F ((Z * list Z * Z) + Z) :=
  let '(nDataLen, dataBuf, nReceiveLen) := x in
  '(len, dataBuf) ← getData data_fd dataBuf nDataLen;
  if len <=? 0 then mret (inr nReceiveLen)
  else
    let nReceiveLen := nReceiveLen + len in
    max ← field m_nDLMaxSize;
    done ← field m_nDownLoaded;
    update (set_sizes max (done + len));;
    bytes ← lift (buf_read dataBuf 0 len);
    act (fun w => file_write w file bytes);;
    dataBuf ← lift (memset dataBuf 0 0 8);
    if (nReceiveLen =? length) && negb (length =? 0) then mret (inr nReceiveLen)
    else
      let '(nDataLen, dataBuf) :=
        if (length <? nReceiveLen + nDataLen) && negb (length =? 0)
        then (length - nReceiveLen, replicate (Z.to_nat (length - nReceiveLen)) 0)
        else (nDataLen, dataBuf) in
      limit_speed uBegin nReceiveLen;;
      stop ← (if watch then paused else mret false);
      if (stop : bool) then mret (inr nReceiveLen) else mret (inl (nDataLen, dataBuf, nReceiveLen)).

(** The results of the two functions for a data link that fails, a REST and a
    RETR that cannot be sent, a file that does not exist, and a local file that
    cannot be opened to append or created. *)
Record down_codes := { e_link : Z; e_rest : Z; e_retr : Z; e_absent : Z; e_append : Z; e_create : Z }.

Definition code_of (reply : list Z) : F Z := lift (atoi (upto_nul reply)).

(** The data connection and the requests: the result when one of them fails. *)
Definition download_request (e : down_codes) (data_fd : Z) (strRemoteFile strPos : list Z) : F (option Z) :=
  r ← createDataLink data_fd;
  if r <? 0 then mret (Some (e_link e))
  else
    line ← parseCommand FTP_COMMAND_DOWNLOAD_POS strPos;
    sock ← field m_cmdSocket;
    r ← Send sock line;
    if r <? 0 then mret (Some (e_rest e))
    else
      respon ← serverResponse sock;
      code_of respon;;
      line ← parseCommand FTP_COMMAND_DOWNLOAD_FILE strRemoteFile;
      r ← Send sock line;
      if r <? 0 then mret (Some (e_retr e))
      else
        respon ← serverResponse sock;
        nRes ← code_of respon;
        mret (if nRes =? 550 then Some (e_absent e) else None).

(** The local file, to continue it or created, and the bytes it then has. *)
Definition open_local (strLocal : list Z) (nLocalNow pos : Z) : F (option Z * Z) :=
  if pos <=? nLocalNow then
    file ← call (fun w => file_open w strLocal (codes "a+b"));
    match file with
    | Some fp => act (fun w => file_seek w fp pos);; mret (file, nLocalNow)
    | None => mret (file, nLocalNow)
    end
  else file ← createLocalFile strLocal; mret (file, 0).

(** From the opening of the local file on. *)
Definition download_transfer (watch : bool) (e : down_codes) (data_fd : Z) (strLocal : list Z) (nLocalNow downlen pos length : Z)
    : F (Z * Z) :=
  let nDataLen := if negb (length =? 0) && (length <? FTP_DEFAULT_BUFFER) then length else FTP_DEFAULT_BUFFER in
  '(file, done) ← open_local strLocal nLocalNow pos;
  match file with
  | None => mret (if pos <=? nLocalNow then e_append e else e_create e, downlen)
  | Some file =>
      uBegin ← call tick_count;
      max ← field m_nDLMaxSize;
      update (set_sizes max done);;
      nReceiveLen ← floop fuel (download_step watch data_fd file length uBegin) (nDataLen, replicate (Z.to_nat nDataLen) 0, 0);
      call tick_count;;
      Close data_fd;;
      act (fun w => file_close w file);;
      mret (if 2147483648 <=? nReceiveLen then 2147483647 else nReceiveLen, nReceiveLen)
  end.

Definition download (watch : bool) (e : down_codes) (strRemoteFile strLocalFile : list Z) (downlen pos length : Z) : F (Z * Z) :=
  data_fd ← call sys_socket;
  if data_fd <? 0 then mret (-2, downlen)
  else
    dir ← field m_strLocalDir;
    let strLocal := dir ++ strLocalFile in
    max ← getFileLength strRemoteFile;
    done ← field m_nDownLoaded;
    update (set_sizes max done);;
    nLocalNow ← GetLocalFileSize strLocal;
    o ← download_request e data_fd strRemoteFile (print_int (if pos <=? nLocalNow then nLocalNow else pos));
    match o with
    | Some r => mret (r, downlen)
    | None => download_transfer watch e data_fd strLocal nLocalNow downlen pos length
    end.

Definition downLoad (strRemoteFile strLocalFile : list Z) (pos length : Z) : F Z :=
  '(r, _) ← download false {| e_link := -1; e_rest := -1; e_retr := -1; e_absent := -3; e_append := -4; e_create := -4 |}
              strRemoteFile strLocalFile 0 pos length; mret r.

Definition downLoad64 (strRemoteFile strLocalFile : list Z) (downlen pos length : Z) : F (Z * Z) :=
  download true {| e_link := -3; e_rest := -4; e_retr := -5; e_absent := -6; e_append := -7; e_create := -8 |}
    strRemoteFile strLocalFile downlen pos length.

Definition Get (strRemoteFile strLocalFile : list Z) : F Z := downLoad strRemoteFile strLocalFile 0 0.
Definition Get64 (strRemoteFile strLocalFile : list Z) (downlen : Z) : F (Z * Z) := downLoad64 strRemoteFile strLocalFile downlen 0 0.

Definition copyVariable : F unit := update (set_down_state true).
End ftp.
Arguments ftp : clear implicits.
Arguments F : clear implicits.
