(* ===== verification/FtpResume.v ===== *)
(** * Downloads that resume (src/public/ftp/ftpclient.cpp)

    A server as RFC 959 describes it and the local files, as a reference
    machine [site]; [FtpSite] says that the host behaves as one, while it may
    cut what is received into any pieces.  Against it the download functions
    complete a partial local file, and the address of the data connection is the
    one the server announced.

    The client takes a second of silence for the end of a reply and of the data.
    [FtpSite] therefore also states what RFC 959 does not promise and the
    client relies on: the first reply to a command is there within a second,
    and the data of a transfer come without a pause of a second.  The reply that
    ends the transfer may come at any time, or not before the function returns. *)
From S2P Require Import Prelude Words Buffers CString Decimal Socket Ftp.

(** ** The reply to PASV *)

Lemma find_first_of_app a c r set : Forall (fun x => existsb (Z.eqb x) set = false) a -> existsb (Z.eqb c) set = true ->
  find_first_of (a ++ c :: r) set = Some (length a).
Proof.
  intros Ha Hc. induction Ha as [|x a Hx Ha IH]; cbn [app find_first_of length]; [by rewrite Hc|]. by rewrite Hx, IH.
Qed.

Lemma find_first_of_none s set : Forall (fun x => existsb (Z.eqb x) set = false) s -> find_first_of s set = None.
Proof. induction 1 as [|x s Hx Hs IH]; cbn [find_first_of]; [done|]. by rewrite Hx, IH. Qed.

Lemma substr_ok s pos n : 0 <= n -> pos <= Z.of_nat (length s) -> substr s pos n = Ret (take (Z.to_nat n) (drop (Z.to_nat pos) s)).
Proof.
  intros Hn Hp. unfold substr. rewrite (proj2 (Z.ltb_ge _ _)) by done. cbv zeta. f_equal. set (r := drop _ s).
  destruct (Z.min_spec n (Z.of_nat (length r))) as [[_ ->]|[H ->]]; [done|]. by rewrite Nat2Z.id, !take_ge by lia.
Qed.

(** Texts without a character. *)
Lemma not_in_set (P : Z -> Prop) k s : Forall P s -> (forall c, P c -> c <> k) -> Forall (fun x => existsb (Z.eqb x) [k] = false) s.
Proof.
  intros Hs Hk. eapply Forall_impl; [exact Hs|]. intros c Hc. cbn. by rewrite (proj2 (Z.eqb_neq c k)) by (by apply Hk).
Qed.

Lemma dec_not_in_set k n : isdigit k = false -> Forall (fun x => existsb (Z.eqb x) [k] = false) (dec n).
Proof. intros Hk. eapply not_in_set; [apply dec_is_digits|]. intros c Hc ->. cbn in Hc. congruence. Qed.

(** A field between separators. *)
Definition field_text (x : list Z) : Prop := x <> [] /\ Forall (fun c => existsb (Z.eqb c) (codes ",") = false) x.

Lemma split_field fuel x r : field_text x ->
  SplitString (S fuel) (x ++ 44 :: r) (codes ",") = t ← SplitString fuel r (codes ","); Ret (x :: t).
Proof.
  intros [Hne Hx]. cbn [SplitString]. rewrite find_first_of_app by done. destruct x as [|c x]; [done|]. cbn [length].
  replace (drop (S (S (length x))) ((c :: x) ++ 44 :: r)) with r.
  2: { cbn [app drop]. by rewrite (drop_app_ge x), Nat.sub_succ_l, Nat.sub_diag by lia. }
  replace (take (S (length x)) ((c :: x) ++ 44 :: r)) with (c :: x); [done|].
  cbn [app take]. by rewrite take_app_length.
Qed.

Lemma split_last fuel x : field_text x -> SplitString fuel x (codes ",") = Ret [x].
Proof. intros [Hne Hx]. destruct fuel; cbn [SplitString]; by rewrite find_first_of_none. Qed.

Lemma dec_field n : field_text (dec n).
Proof.
  split; [apply dec_nonnil|]. by apply dec_not_in_set.
Qed.

(** Four bytes of the address and two of the port, and their text. *)
Record address := { h1 : Z; h2 : Z; h3 : Z; h4 : Z; p1 : Z; p2 : Z }.

Definition byte (z : Z) : Prop := 0 <= z < 256.
Definition address_ok (a : address) : Prop := byte (h1 a) /\ byte (h2 a) /\ byte (h3 a) /\ byte (h4 a) /\ byte (p1 a) /\ byte (p2 a).

Definition dotted (a : address) : list Z := dec (h1 a) ++ codes "." ++ dec (h2 a) ++ codes "." ++ dec (h3 a) ++ codes "." ++ dec (h4 a).
Definition port (a : address) : Z := p1 a * 256 + p2 a.
Definition address_text (a : address) : list Z :=
  dec (h1 a) ++ 44 :: dec (h2 a) ++ 44 :: dec (h3 a) ++ 44 :: dec (h4 a) ++ 44 :: dec (p1 a) ++ 44 :: dec (p2 a).

Lemma split_address a n : SplitString (S (S (S (S (S n))))) (address_text a) (codes ",") =
  Ret [dec (h1 a); dec (h2 a); dec (h3 a); dec (h4 a); dec (p1 a); dec (p2 a)].
Proof. unfold address_text. rewrite !split_field, split_last by apply dec_field. done. Qed.

Lemma atol_dec n : 0 <= n < 2 ^ 63 -> atol (dec n) = Ret n.
Proof.
  intros Hn. unfold atol, long_checked. rewrite <- (app_nil_r (dec n)), text_number_dec by (done || lia). by rewrite decide_True by lia.
Qed.

Lemma parse_address a : address_ok a ->
  ParseString [dec (h1 a); dec (h2 a); dec (h3 a); dec (h4 a); dec (p1 a); dec (p2 a)] = Ret (Some (port a, dotted a)).
Proof.
  intros (B1 & B2 & B3 & B4 & B5 & B6). unfold byte in *. cbn [ParseString length nth Nat.sub].
  rewrite !atol_dec, !bind_ret_l by lia. unfold long_checked. rewrite decide_True, bind_ret_l by lia.
  do 3 f_equal. unfold port. rewrite (Z.mod_small (p2 a)), Z.mod_small by lia. lia.
Qed.

Lemma length_address_text a : (5 <= length (address_text a))%nat.
Proof. unfold address_text. rewrite !length_app. cbn [length]. rewrite !length_app. cbn [length]. rewrite !length_app. cbn [length].
  rewrite !length_app. cbn [length]. rewrite !length_app. cbn [length]. lia. Qed.

Lemma passive_ok (a : address) (before after : list Z) :
  address_ok a -> Forall (fun c => c <> 40 /\ c <> 41) before -> Z.of_nat (length (before ++ address_text a ++ after)) < 2 ^ 62 ->
  passive_fields (before ++ [40] ++ address_text a ++ [41] ++ after) = Ret (address_text a) /\
  SplitString (length (address_text a)) (address_text a) (codes ",") =
    Ret [dec (h1 a); dec (h2 a); dec (h3 a); dec (h4 a); dec (p1 a); dec (p2 a)] /\
  ParseString [dec (h1 a); dec (h2 a); dec (h3 a); dec (h4 a); dec (p1 a); dec (p2 a)] = Ret (Some (port a, dotted a)).
Proof.
  intros Ha Hb Hl.
  rewrite !length_app in Hl. split; [|split; [|by apply parse_address]].
  - unfold passive_fields. cbn [app]. change (codes "(") with [40]. change (codes ")") with [41].
    rewrite find_first_of_app; [|eapply not_in_set; [exact Hb|]; by intros c [Hc _]|done].
    rewrite app_comm_cons, app_assoc. rewrite find_first_of_app; [| |done].
    2: { apply Forall_app. split; [eapply not_in_set; [exact Hb|]; by intros c [_ Hc]|]. constructor; [done|].
         unfold address_text. repeat (apply Forall_app; split; [by apply dec_not_in_set|]; constructor; [done|]). by apply dec_not_in_set. }
    unfold position, from_option. rewrite length_app. cbn [length]. rewrite (Z.mod_small (_ + 1)) by lia.
    rewrite Z.mod_small by lia. rewrite substr_ok by (rewrite ?length_app; cbn [length]; rewrite ?length_app; cbn [length]; lia).
    f_equal. rewrite <- app_assoc. cbn [app]. replace (Z.to_nat (Z.of_nat (length before) + 1)) with (length before + 1)%nat by lia.
    rewrite <- drop_drop, drop_app_length. cbn [drop].
    replace (Z.to_nat _) with (length (address_text a)) by lia. by rewrite drop_0, take_app_length.
  - pose proof (length_address_text a). destruct (length (address_text a)) as [|[|[|[|[|n]]]]]; try lia. apply split_address.
Qed.

(** Whatever text a server puts around the address in its reply to PASV, as long as it has no parentheses, the client
    recovers the address and the port. *)
Theorem pasv_address (a : address) (before after : list Z) :
  address_ok a -> Forall (fun c => c <> 40 /\ c <> 41) before -> Z.of_nat (length (before ++ address_text a ++ after)) < 2 ^ 62 ->
  exists fields strArray,
    passive_fields (before ++ [40] ++ address_text a ++ [41] ++ after) = Ret fields /\
    SplitString (length fields) fields (codes ",") = Ret strArray /\
    ParseString strArray = Ret (Some (port a, dotted a)).
Proof.
  intros Ha Hb Hl. destruct (passive_ok a before after Ha Hb Hl) as (E1 & E2 & E3). eauto.
Qed.

Lemma pasv_address_witness : exists fields strArray,
    passive_fields (codes "227 Entering Passive Mode (192,168,1,9,200,17).") = Ret fields /\
    SplitString (length fields) fields (codes ",") = Ret strArray /\
    ParseString strArray = Ret (Some (51217, codes "192.168.1.9")).
Proof.
  apply (pasv_address {| h1 := 192; h2 := 168; h3 := 1; h4 := 9; p1 := 200; p2 := 17 |} (codes "227 Entering Passive Mode ") (codes ".")).
  - unfold address_ok, byte. cbn. lia.
  - vm_compute. repeat constructor; discriminate.
  - reflexivity.
Defined.

(** ** The reference machine *)

(** The files of the server and of the client, what waits on the control
    connection, the reply that ends a transfer and has not come yet, what is
    still to be received on the data connection, whether it has arrived or the
    server has yet to send it, the restart marker, and the local file that is
    open. *)
Record site := {
  remote : list Z -> option (list Z);
  local : list Z -> option (list Z);
  ctl_in : list Z;
  closing : list Z;
  data_in : list Z;
  restart : Z;
  opened : option (list Z)
}.

Definition set_ctl (x : list Z) (s : site) : site :=
  {| remote := remote s; local := local s; ctl_in := x; closing := closing s; data_in := data_in s; restart := restart s; opened := opened s |}.
Definition set_data (x : list Z) (s : site) : site :=
  {| remote := remote s; local := local s; ctl_in := ctl_in s; closing := closing s; data_in := x; restart := restart s; opened := opened s |}.
Definition set_restart (n : Z) (s : site) : site :=
  {| remote := remote s; local := local s; ctl_in := ctl_in s; closing := closing s; data_in := data_in s; restart := n; opened := opened s |}.
Definition set_local (n c : list Z) (s : site) : site :=
  {| remote := remote s; local := fun m => if decide (m = n) then Some c else local s m; ctl_in := ctl_in s;
     closing := closing s; data_in := data_in s; restart := restart s; opened := opened s |}.
Definition set_opened (n : list Z) (s : site) : site :=
  {| remote := remote s; local := local s; ctl_in := ctl_in s; closing := closing s; data_in := data_in s; restart := restart s;
     opened := Some n |}.
Definition set_closing (x : list Z) (s : site) : site :=
  {| remote := remote s; local := local s; ctl_in := ctl_in s; closing := x; data_in := data_in s; restart := restart s;
     opened := opened s |}.

(** The reply that ends a transfer comes. *)
Definition arrived (s : site) : site := set_ctl (ctl_in s ++ closing s) (set_closing [] s).

Inductive request := SIZE (f : list Z) | PASV | REST (n : Z) | RETR (f : list Z).

Definition line_of (q : request) : list Z :=
  match q with
  | SIZE f => codes "SIZE " ++ f ++ CRLF
  | PASV => codes "PASV " ++ CRLF
  | REST n => codes "REST " ++ print_int n ++ CRLF
  | RETR f => codes "RETR " ++ f ++ CRLF
  end.

(** A reply: its code and the rest of its line. *)
Definition reply (code : Z) (text : list Z) : list Z := dec code ++ 32 :: text ++ CRLF.

Section server.
Variable say : Z -> list Z.
Variable here : address.

Definition reply_of (q : request) (s : site) : list Z :=
  match q with
  | SIZE f => match remote s f with Some c => reply 213 (dec (Z.of_nat (length c))) | None => reply 550 (say 550) end
  | PASV => reply 227 (say 227 ++ [40] ++ address_text here ++ [41])
  | REST n => reply 350 (say 350)
  | RETR f => match remote s f with Some _ => reply 150 (say 150) | None => reply 550 (say 550) end
  end.

Definition serve (q : request) (s : site) : site :=
  let s' := set_ctl (ctl_in s ++ reply_of q s) s in
  match q with
  | REST n => set_restart n s'
  | RETR f =>
      match remote s f with
      | Some c => set_closing (reply 226 (say 226)) (set_restart 0 (set_data (data_in s ++ drop (Z.to_nat (restart s)) c) s'))
      | None => s'
      end
  | _ => s'
  end.
End server.

(** The texts of a server are short, without zeros and parentheses. *)
Definition text_ok (t : list Z) : Prop := Forall (fun c => c <> 0 /\ c <> 40 /\ c <> 41) t /\ (length t <= 80)%nat.

(** What waits when a wait for a connection returns: the reply that ends a
    transfer may have come on the control connection. *)
Definition later (control : bool) (s s' : site) : Prop := s' = s \/ (control = true /\ s' = arrived s).

Class FtpSite (W : Type) `{!FtpHost W} (ctl data : Z) := {
  view : W -> site;
  say : Z -> list Z;
  here : address;
  say_ok k : text_ok (say k);
  here_ok : address_ok here;
  sockets_ok : 0 <= data /\ ctl <> -1 /\ ctl <> data;
  waiting (fd : Z) (s : site) : list Z := if decide (fd = ctl) then ctl_in s else data_in s;
  received (fd : Z) (x : list Z) (s : site) : site := if decide (fd = ctl) then set_ctl x s else set_data x s;
  socket_law w : (sys_socket w).1 = data /\ view (sys_socket w).2 = view w;
  nonblocking_law w b : view (sys_nonblocking w data b).2 = view w;
  connect_law w :
    let '(ret, e, w') := sys_connect w data (dotted here) (port here) in (ret = 0 \/ ret = -1) /\ view w' = view w;
  so_error_law w : (sys_so_error w data).1 = 0 /\ view (sys_so_error w data).2 = view w;
  close_law w : view (sys_close w data).2 = view w;
  (* A connection is ready to be written, and to be read when something waits;
     for the data connection, whatever is still to be received arrives within the
     second that the client waits. *)
  select_law w fd b tv : fd = ctl \/ fd = data -> 1 <= tv.1 ->
    let '(ret, e, w') := sys_select w fd b tv in
    later (bool_decide (fd = ctl)) (view w) (view w') /\ (b = true \/ waiting fd (view w') <> [] -> 0 < ret);
  (* A command line is taken as a whole, and the first reply to it is there
     before the wait for it ends. *)
  send_law w q : let '(ret, e, w') := sys_send w ctl (line_of q) in
    ret = Z.of_nat (length (line_of q)) /\ view w' = serve say here q (view w);
  recv_law w fd n : fd = ctl \/ fd = data -> 0 < n ->
    let '(bytes, ret, e, w') := sys_recv w fd n in
    if decide (waiting fd (view w) = []) then bytes = [] /\ (ret = 0 \/ ret = -1) /\ view w' = view w
    else bytes <> [] /\ ret = Z.of_nat (length bytes) /\ ret <= n /\
         exists rest, waiting fd (view w) = bytes ++ rest /\ view w' = received fd rest (view w);
  open_read_law w n : view (file_open w n (codes "rb")).2 = view w /\
    (is_Some (file_open w n (codes "rb")).1 <-> is_Some (local (view w) n));
  size_law w n c : local (view w) n = Some c -> (file_size w n).1 = Z.of_nat (length c) /\ view (file_size w n).2 = view w;
  open_append_law w n c : local (view w) n = Some c ->
    is_Some (file_open w n (codes "a+b")).1 /\ view (file_open w n (codes "a+b")).2 = set_opened n (view w);
  open_create_law w n :
    is_Some (file_open w n (codes "w+b")).1 /\ view (file_open w n (codes "w+b")).2 = set_opened n (set_local n [] (view w));
  seek_law w fp n : view (file_seek w fp n) = view w;
  write_law w fp n c x : opened (view w) = Some n -> local (view w) n = Some c ->
    view (file_write w fp x) = set_local n (c ++ x) (view w);
  file_close_law w fp : view (file_close w fp) = view w;
  tick_law w : view (tick_count w).2 = view w;
  sleep_law w n : view (host_sleep w n) = view w
}.

Section session.
Context {W : Type} `{!FtpHost W} (ctl data : Z) `{!FtpSite W ctl data}.
Implicit Types (o : ftpClient) (w : W).

Definition st o w : ftp W := {| obj := o; host := w |}.

Lemma run_bind {A B} (m : F W A) (f : A -> F W B) s a s' : m s = Ret (a, s') -> (m ≫= f) s = f a s'.
Proof. intros E. unfold mbind, f_bind. by rewrite E. Qed.

(** The fields a command does not change. *)
Definition kept o o' : Prop :=
  m_bLogin o' = m_bLogin o /\ m_cmdSocket o' = m_cmdSocket o /\ m_strLocalDir o' = m_strLocalDir o /\
  m_nDownLoadSpeed o' = m_nDownLoadSpeed o /\ m_pnDownState o' = m_pnDownState o /\ m_nDLMaxSize o' = m_nDLMaxSize o /\
  m_nDownLoaded o' = m_nDownLoaded o.

Lemma kept_refl o : kept o o.
Proof. by repeat split. Qed.
Lemma kept_trans o1 o2 o3 : kept o1 o2 -> kept o2 o3 -> kept o1 o3.
Proof. unfold kept. intros (?&?&?&?&?&?&?) (?&?&?&?&?&?&?). repeat split; congruence. Qed.
Lemma kept_command o n l : kept o (set_command n l o).
Proof. by repeat split. Qed.
Lemma kept_response o r : kept o (set_response r o).
Proof. by repeat split. Qed.

Lemma ctl_valid : (ctl =? FTP_INVALID_SOCKET) = false.
Proof. apply Z.eqb_neq. unfold FTP_INVALID_SOCKET. pose proof sockets_ok. lia. Qed.

Lemma wait_ok fd b sec o w : fd = ctl \/ fd = data -> 1 <= sec ->
  exists r w', wait fd b sec (st o w) = Ret (r, st o w') /\ later (bool_decide (fd = ctl)) (view w) (view w') /\
    (b = true \/ waiting fd (view w') <> [] -> 0 < r).
Proof.
  intros Hfd Hs. pose proof (select_law w fd b (sec, 0) Hfd Hs) as H. unfold wait, call. cbn [host st].
  destruct (sys_select w fd b (sec, 0)) as [[r e] w']. destruct H as [H1 H2]. by exists r, w'.
Qed.

(** Nothing can come when no transfer is to be ended. *)
Lemma arrived_none s : closing s = [] -> arrived s = s.
Proof. destruct s. cbn. intros ->. unfold arrived, set_ctl, set_closing. cbn. by rewrite app_nil_r. Qed.
Lemma later_none b s s' : closing s = [] -> later b s s' -> s' = s.
Proof. intros Hc [->|[_ ->]]; [done|by apply arrived_none]. Qed.
Lemma later_data s s' : later (bool_decide (data = ctl)) s s' -> s' = s.
Proof.
  rewrite bool_decide_false; [by intros [->|[? _]]|]. pose proof sockets_ok. intros ->. tauto.
Qed.

(** ** Sending a line *)

Definition short (q : request) : Prop := Z.of_nat (length (line_of q)) < 2 ^ 31.

Lemma line_nonnil q : line_of q <> [].
Proof. by destruct q. Qed.

Lemma send_ok fuel q o w : m_bLogin o = true -> short q -> closing (view w) = [] -> (1 < fuel)%nat ->
  exists w', Send fuel ctl (line_of q) (st o w) = Ret (0, st o w') /\ view w' = serve say here q (view w).
Proof.
  intros Hlogin Hq Hcl Hf. unfold Send. rewrite ctl_valid. unfold send_bytes.
  erewrite run_bind by reflexivity. erewrite run_bind by reflexivity. cbn [obj st]. rewrite Hlogin, andb_false_r.
  destruct (wait_ok ctl true 1 o w) as (r & w1 & E & V & Hr); [auto|done|]. rewrite (run_bind _ _ _ _ _ E).
  apply later_none in V; [|done]. rewrite (proj2 (Z.ltb_lt 0 r)) by auto. destruct fuel as [|[|f]]; [lia|lia|]. cbn [floop].
  pose proof (send_law w1 q) as Hs. destruct (sys_send w1 ctl (line_of q)) as [[ret e] w2] eqn:Es. destruct Hs as [-> V2].
  pose proof (line_nonnil q) as Hne. exists w2. split; [|by rewrite V2, V]. unfold short in Hq.
  rewrite (run_bind _ _ _ (inl []) (st o w2)); [by rewrite bool_decide_true|].
  rewrite bool_decide_false by done. rewrite (run_bind _ _ _ (Z.of_nat (length (line_of q))) (st o w2)).
  - rewrite (proj2 (Z.eqb_neq _ _)), (proj2 (Z.leb_le 0 _)), Z.leb_refl by lia. cbn [andb]. by rewrite Nat2Z.id, drop_ge.
  - unfold call. cbn [host st]. rewrite Es. f_equal. f_equal. apply s32_id. unfold is_int. lia.
Qed.

(** ** Reading a reply *)

Definition no_zero (r : list Z) : Prop := Forall (fun c => c <> 0) r.

(** One call of [getData]: nothing, or a piece of what waits when it has waited. *)
Lemma getData_ok fd buf o w : fd = ctl \/ fd = data -> (0 < length buf)%nat -> Z.of_nat (length buf) < 2 ^ 31 ->
  exists n buf' w' s, getData fd buf (Z.of_nat (length buf)) (st o w) = Ret ((n, buf'), st o w') /\
    later (bool_decide (fd = ctl)) (view w) s /\
    if decide (waiting fd s = []) then n <= 0 /\ view w' = s
    else exists bytes rest, n = Z.of_nat (length bytes) /\ buf' = bytes ++ replicate (length buf - length bytes) 0 /\
      bytes <> [] /\ (length bytes <= length buf)%nat /\ waiting fd s = bytes ++ rest /\ view w' = received fd rest s.
Proof.
  intros Hfd Hl Hl2. unfold getData. rewrite (proj2 (Z.eqb_neq fd _)).
  2: { unfold FTP_INVALID_SOCKET. pose proof sockets_ok. destruct Hfd; lia. }
  erewrite run_bind. 2: { unfold lift, memset. rewrite decide_True by lia. rewrite buf_write_ok by (rewrite ?length_replicate; lia).
                          rewrite bind_ret_l. reflexivity. }
  rewrite Nat2Z.id. change (Z.to_nat 0) with 0%nat. rewrite splice_all by (by rewrite length_replicate).
  destruct (wait_ok fd false 1 o w) as (r & w1 & E & V & Hr); [done|done|]. rewrite (run_bind _ _ _ _ _ E).
  destruct (Z.ltb_spec 0 r) as [Hr0|Hr0].
  2: { exists 0. do 3 eexists. split; [reflexivity|]. split; [exact V|]. rewrite decide_True; [by split|].
       destruct (decide (waiting fd (view w1) = [])) as [|Hne]; [done|]. pose proof (Hr (or_intror Hne)). lia. }
  pose proof (recv_law w1 fd (Z.of_nat (length buf)) Hfd) as Hrecv.
  destruct (sys_recv w1 fd (Z.of_nat (length buf))) as [[[bytes n] e] w2] eqn:Er.
  erewrite run_bind. 2: { unfold call. cbn [host st]. rewrite Er. reflexivity. }
  cbv beta iota. specialize (Hrecv ltac:(lia)). destruct (decide (waiting fd (view w1) = [])) as [Hw|Hw].
  - destruct Hrecv as (-> & Hn & V2). erewrite run_bind.
    2: { unfold lift. rewrite buf_write_ok by (cbn [length]; lia). rewrite bind_ret_l. reflexivity. }
    rewrite s32_id by (unfold is_int; lia). rewrite (proj2 (Z.ltb_ge 0 n)) by lia.
    do 4 eexists. split; [reflexivity|]. split; [exact V|]. rewrite decide_True by done. by split.
  - destruct Hrecv as (Hne & -> & Hle & rest & Hsplit & V2). erewrite run_bind.
    2: { unfold lift. rewrite buf_write_ok by (rewrite ?length_replicate; lia). rewrite bind_ret_l. reflexivity. }
    assert (0 < length bytes)%nat by (destruct bytes; [done|cbn; lia]).
    rewrite s32_id by (unfold is_int; lia). rewrite (proj2 (Z.ltb_lt 0 _)) by lia. change (Z.to_nat 0) with 0%nat.
    do 4 eexists. split; [reflexivity|]. split; [exact V|]. rewrite decide_False by done. exists bytes, rest.
    split; [done|]. split; [|split; [done|split; [lia|done]]].
    unfold splice. change (take 0 _) with (@nil Z). cbn [app Nat.add]. by rewrite drop_replicate.
Qed.

Lemma reply_buffer (bytes : list Z) : no_zero bytes -> (length bytes < 260)%nat ->
  exists buf, buf_write (bytes ++ replicate (260 - length bytes) 0) 259 [0] = Ret buf /\ upto_nul buf = bytes /\ length buf = 260%nat.
Proof.
  intros Hz Hl. set (n := (260 - length bytes)%nat). assert (Hn : n = S (pred n)) by lia.
  rewrite buf_write_ok by (rewrite ?length_app, ?length_replicate; cbn [length]; lia).
  change (Z.to_nat 259) with 259%nat. eexists. split; [reflexivity|]. split.
  - unfold splice. cbn [length]. rewrite take_app_ge, take_replicate by lia. rewrite <- !app_assoc.
    destruct ((259 - length bytes) `min` n)%nat as [|m] eqn:Em; cbn [replicate app]; by apply upto_nul_at.
  - rewrite length_splice; rewrite ?length_app, ?length_replicate; cbn [length]; lia.
Qed.

Definition response_body (buf : list Z) : F W (list Z + unit) :=
  '(nRet, buf) ← getData ctl buf MAX_PATH;
  if 0 <? nRet then
    buf ← lift (buf_write buf (MAX_PATH - 1) [0]);
    old ← field m_strResponse;
    update (set_response (old ++ upto_nul buf));; mret (inl buf)
  else mret (inr tt).

Lemma waiting_ctl s : waiting ctl s = ctl_in s.
Proof. unfold waiting. by rewrite decide_True. Qed.
Lemma waiting_data s : waiting data s = data_in s.
Proof. unfold waiting. rewrite decide_False; [done|]. pose proof sockets_ok. intros ->. tauto. Qed.
Lemma received_ctl x s : received ctl x s = set_ctl x s.
Proof. unfold received. by rewrite decide_True. Qed.
Lemma received_data x s : received data x s = set_data x s.
Proof. unfold received. rewrite decide_False; [done|]. pose proof sockets_ok. intros ->. tauto. Qed.

Lemma set_ctl_id s : set_ctl (ctl_in s) s = s.
Proof. by destruct s. Qed.
Lemma set_data_id s : set_data (data_in s) s = s.
Proof. by destruct s. Qed.

(** What a loop over replies took from the control connection: what waited, and
    the reply that ends a transfer if it came in time. *)
Definition taken (s : site) (x : list Z) (s' : site) : Prop :=
  (x = ctl_in s /\ s' = set_ctl [] s) \/ (x = ctl_in s ++ closing s /\ s' = set_ctl [] (set_closing [] s)).

Lemma taken_nil s s' : later true s s' -> ctl_in s' = [] -> taken s [] s'.
Proof.
  intros [->|[_ ->]] Hc; [left|right].
  - by rewrite <- Hc, set_ctl_id.
  - cbn in Hc. unfold arrived. by rewrite Hc.
Qed.

Lemma taken_cons s s1 bytes rest x s' : later true s s1 -> ctl_in s1 = bytes ++ rest -> taken (set_ctl rest s1) x s' ->
  taken s (bytes ++ x) s'.
Proof.
  intros [->|[_ ->]] Hc [[-> ->]|[-> ->]]; cbn in Hc |- *.
  - left. by rewrite Hc.
  - right. by rewrite Hc, app_assoc.
  - right. by rewrite Hc.
  - right. by rewrite Hc, app_nil_r.
Qed.

Lemma response_loop fuel : forall acc buf o w, length buf = 260%nat ->
  let t := ctl_in (view w) ++ closing (view w) in no_zero t -> (length t < 260)%nat -> (length t < fuel)%nat ->
  exists x w', floop fuel response_body buf (st (set_response acc o) w) = Ret (tt, st (set_response (acc ++ x) o) w') /\
    taken (view w) x (view w').
Proof.
  induction fuel as [|f IH]; intros acc buf o w Hb t Hz Hl Hf; [lia|]. cbn [floop].
  assert (Eb : MAX_PATH = Z.of_nat (length buf)) by (by rewrite Hb).
  destruct (getData_ok ctl buf (set_response acc o) w) as (n & buf' & w1 & s & E & Hs & H); [auto|lia|rewrite Hb; lia|].
  rewrite bool_decide_true in Hs by done. rewrite waiting_ctl in H. destruct (decide (ctl_in s = [])) as [Hne|Hne].
  - destruct H as [Hn V]. rewrite (run_bind _ _ _ (inr tt) (st (set_response acc o) w1)).
    + exists [], w1. rewrite app_nil_r, V. split; [done|by apply taken_nil].
    + unfold response_body. rewrite Eb, (run_bind _ _ _ _ _ E). cbv beta iota. by rewrite (proj2 (Z.ltb_ge 0 n)).
  - destruct H as (bytes & rest & -> & -> & Hbne & Hbl & Hsplit & V). rewrite received_ctl in V.
    assert (Ht : t = ctl_in s ++ closing s).
    { destruct Hs as [->|[_ ->]]; [done|]. cbn. by rewrite app_nil_r. }
    rewrite Hsplit, <- app_assoc in Ht. rewrite Ht in *. unfold no_zero in Hz.
    rewrite length_app in *. apply Forall_app in Hz as [Hz1 Hz2]. rewrite Hb in E.
    destruct (reply_buffer bytes Hz1) as (buf2 & E2 & E3 & L2); [lia|].
    assert (0 < length bytes)%nat by (destruct bytes; [done|cbn; lia]).
    rewrite (run_bind _ _ _ (inl buf2) (st (set_response (acc ++ bytes) o) w1)).
    + destruct (IH (acc ++ bytes) buf2 o w1) as (x & w' & E' & V'); [done|rewrite V; done|rewrite V; cbn; lia..|].
      exists (bytes ++ x), w'. split; [by rewrite E', app_assoc|]. rewrite V in V'. by eapply taken_cons.
    + unfold response_body. change MAX_PATH with (Z.of_nat 260). rewrite (run_bind _ _ _ _ _ E). cbv beta iota.
      rewrite (proj2 (Z.ltb_lt 0 _)) by lia. change (Z.of_nat 260 - 1) with 259. unfold lift.
      erewrite run_bind by (rewrite E2; reflexivity). by rewrite E3.
Qed.

(** A reply that waits is read as a whole and becomes the response. *)
Lemma response_ok fuel o w : let t := ctl_in (view w) ++ closing (view w) in
  no_zero t -> (length t < 260)%nat -> (length t < fuel)%nat ->
  exists x w', serverResponse fuel ctl (st o w) = Ret (x, st (set_response x o) w') /\ taken (view w) x (view w').
Proof.
  intros t Hz Hl Hf. unfold serverResponse. rewrite ctl_valid.
  destruct (response_loop fuel [] (replicate (Z.to_nat MAX_PATH) 0) o w) as (x & w' & E & V); try done.
  exists x, w'. split; [|done]. erewrite run_bind by reflexivity. change (obj (st o w)) with o. change (host (st o w)) with w.
  fold (st (set_response [] o) w). fold response_body. rewrite (run_bind _ _ _ _ _ E). done.
Qed.

(** ** One request *)

Lemma dec_no_zero n : no_zero (dec n).
Proof. eapply Forall_impl; [apply dec_is_digits|]. cbn. intros c Hc. unfold isdigit in Hc. lia. Qed.

Lemma reply_no_zero k t : no_zero t -> no_zero (reply k t).
Proof.
  intros Ht. unfold reply, no_zero. apply Forall_app. split; [apply dec_no_zero|]. constructor; [done|]. apply Forall_app.
  split; [done|]. by repeat constructor.
Qed.

Lemma length_reply k t : length (reply k t) = (length (dec k) + 3 + length t)%nat.
Proof. unfold reply, CRLF. rewrite length_app. cbn [length]. rewrite length_app. cbn [length]. lia. Qed.

Lemma say_no_zero k : no_zero (say k).
Proof. eapply Forall_impl; [apply (say_ok k)|]. cbn. tauto. Qed.

Lemma length_dec_byte n : byte n -> (length (dec n) <= 3)%nat.
Proof. intros [H0 H1]. apply (dec_length n 2). change (10 ^ (Z.of_nat 2 + 1)) with 1000. lia. Qed.

Lemma length_dec_long n : 0 <= n < 2 ^ 63 -> (length (dec n) <= 19)%nat.
Proof. intros [H0 H1]. apply (dec_length n 18). change (10 ^ (Z.of_nat 18 + 1)) with 10000000000000000000. lia. Qed.

Lemma address_text_short : (length (address_text here) <= 23)%nat /\ no_zero (address_text here).
Proof.
  destruct here_ok as (B1 & B2 & B3 & B4 & B5 & B6). split.
  - unfold address_text. repeat (rewrite length_app; cbn [length]).
    pose proof (length_dec_byte _ B1). pose proof (length_dec_byte _ B2). pose proof (length_dec_byte _ B3).
    pose proof (length_dec_byte _ B4). pose proof (length_dec_byte _ B5). pose proof (length_dec_byte _ B6). lia.
  - unfold address_text, no_zero. repeat (apply Forall_app; split; [apply dec_no_zero|]; constructor; [done|]). apply dec_no_zero.
Qed.

(** The size the server states fits a [long long]. *)
Definition sized (s : site) : Prop := forall f c, remote s f = Some c -> Z.of_nat (length c) < 2 ^ 63.

Lemma reply_ok q s : sized s -> no_zero (reply_of say here q s) /\ (length (reply_of say here q s) < 260)%nat.
Proof.
  intros Hs.
  assert (R : forall k, no_zero (reply k (say k)) /\ (length (reply k (say k)) <= length (dec k) + 83)%nat).
  { intros k. split; [apply reply_no_zero, say_no_zero|]. rewrite length_reply. pose proof (proj2 (say_ok k)). lia. }
  destruct q as [f| |n|f]; cbn [reply_of].
  - destruct (remote s f) as [c|] eqn:E; [|destruct (R 550) as [R1 R2]; split; [done|]; change (length (dec 550)) with 3%nat in R2; lia].
    split; [apply reply_no_zero, dec_no_zero|]. rewrite length_reply. change (length (dec 213)) with 3%nat.
    apply Hs in E. pose proof (length_dec_long (Z.of_nat (length c))). lia.
  - destruct address_text_short as [A1 A2]. split.
    + apply reply_no_zero. unfold no_zero. rewrite !Forall_app. repeat split; [apply say_no_zero|by repeat constructor|done|by repeat constructor].
    + rewrite length_reply. change (length (dec 227)) with 3%nat. rewrite !length_app. cbn [length].
      pose proof (proj2 (say_ok 227)). lia.
  - destruct (R 350) as [R1 R2]. change (length (dec 350)) with 3%nat in R2. split; [done|lia].
  - destruct (R 150) as [R1 R2], (R 226) as [R3 R4], (R 550) as [R5 R6].
    change (length (dec 150)) with 3%nat in R2. change (length (dec 226)) with 3%nat in R4. change (length (dec 550)) with 3%nat in R6.
    destruct (remote s f); split; (done || lia).
Qed.

(** The reply that ends a transfer. *)
Lemma ending_ok : no_zero (reply 226 (say 226)) /\ (length (reply 226 (say 226)) <= 86)%nat /\
  (length (reply 150 (say 150)) <= 86)%nat.
Proof.
  split; [apply reply_no_zero, say_no_zero|]. rewrite !length_reply. change (length (dec 226)) with 3%nat.
  change (length (dec 150)) with 3%nat. pose proof (proj2 (say_ok 226)). pose proof (proj2 (say_ok 150)). lia.
Qed.

Lemma ctl_in_serve q s : ctl_in (serve say here q s) = ctl_in s ++ reply_of say here q s.
Proof. destruct q; cbn; try done. by destruct (remote s f). Qed.

(** A request without a transfer. *)
Definition quick (q : request) : Prop := match q with RETR _ => False | _ => True end.

Lemma request_ok fuel q o w : m_bLogin o = true -> short q -> sized (view w) -> ctl_in (view w) = [] -> closing (view w) = [] ->
  quick q -> (260 <= fuel)%nat ->
  let r := reply_of say here q (view w) in
  exists w1 w2, Send fuel ctl (line_of q) (st o w) = Ret (0, st o w1) /\
    serverResponse fuel ctl (st o w1) = Ret (r, st (set_response r o) w2) /\
    view w2 = set_ctl [] (serve say here q (view w)).
Proof.
  intros Hlogin Hq Hs Hc Hcl Hk Hf r. destruct (send_ok fuel q o w) as (w1 & E1 & V1); [done|done|done|lia|].
  destruct (reply_ok q (view w) Hs) as [R1 R2].
  assert (Ec : closing (view w1) = []) by (rewrite V1; by destruct q).
  assert (Er : ctl_in (view w1) = r) by (rewrite V1, ctl_in_serve; by rewrite Hc).
  destruct (response_ok fuel o w1) as (x & w2 & E2 & V2); rewrite ?Er, ?Ec, ?app_nil_r; [done|done|fold r in R2; lia|].
  exists w1, w2. split; [done|]. unfold taken in V2. rewrite Er, Ec, app_nil_r, V1 in V2.
  assert (set_closing [] (serve say here q (view w)) = serve say here q (view w)) as E.
  { rewrite <- V1. revert Ec. destruct (view w1). cbn. by intros ->. }
  rewrite E in V2. by destruct V2 as [[-> ->]|[-> ->]].
Qed.

(** RETR: the reply that ends the transfer may be read with the first one, or
    be still to come. *)
Lemma retr_ok fuel f c o w : m_bLogin o = true -> short (RETR f) -> ctl_in (view w) = [] -> closing (view w) = [] ->
  remote (view w) f = Some c -> (260 <= fuel)%nat ->
  exists w1 w2 read left, Send fuel ctl (line_of (RETR f)) (st o w) = Ret (0, st o w1) /\
    serverResponse fuel ctl (st o w1) =
      Ret (reply 150 (say 150) ++ read, st (set_response (reply 150 (say 150) ++ read) o) w2) /\
    read ++ left = reply 226 (say 226) /\ (left = [] \/ left = reply 226 (say 226)) /\
    view w2 = set_closing left (set_restart 0 (set_data (data_in (view w) ++ drop (Z.to_nat (restart (view w))) c) (view w))).
Proof.
  intros Hlogin Hq Hc Hcl Hf Hfuel. destruct (send_ok fuel (RETR f) o w) as (w1 & E1 & V1); [done|done|done|lia|].
  cbn [serve reply_of] in V1. rewrite Hf, Hc in V1. destruct ending_ok as (R1 & R2 & R3).
  destruct (response_ok fuel o w1) as (x & w2 & E2 & V2); rewrite V1 in *; cbn.
  { apply Forall_app. split; [apply reply_no_zero, say_no_zero|done]. }
  { rewrite length_app. lia. }
  { rewrite length_app. lia. }
  destruct (view w) as [re lo ci cl di rs op]. cbn in Hc, Hcl. subst ci cl. unfold taken in V2. cbn in V2.
  destruct V2 as [[-> V2]|[-> V2]].
  - exists w1, w2, [], (reply 226 (say 226)). rewrite app_nil_r. by auto 6.
  - exists w1, w2, (reply 226 (say 226)), []. rewrite app_nil_r. by auto 6.
Qed.

(** A connection that is logged in. *)
Definition online o : Prop := m_bLogin o = true /\ m_cmdSocket o = ctl.

Lemma kept_online o o' : kept o o' -> online o -> online o'.
Proof. intros (H1 & H2 & _) [H3 H4]. split; congruence. Qed.

Lemma reply_code k t r : 0 <= k < 1000 -> atoi (upto_nul (reply k t ++ r)) = Ret k.
Proof.
  intros Hk. unfold reply, atoi. rewrite <- app_assoc. cbn [app].
  assert (exists x, upto_nul (dec k ++ 32 :: (t ++ CRLF) ++ r) = dec k ++ 32 :: x) as [x ->].
  { generalize ((t ++ CRLF) ++ r). intros y. exists (upto_nul y). pose proof (dec_no_zero k) as Hz. unfold no_zero in Hz.
    induction Hz as [|c l Hc Hl IH]; cbn [app upto_nul]; [done|]. rewrite (proj2 (Z.eqb_neq c 0)) by done. by rewrite IH. }
  rewrite text_number_dec by (done || lia). apply int_checked_id. unfold is_int. lia.
Qed.

Lemma getFileLength_ok fuel f c o w : online o -> short (SIZE f) -> sized (view w) -> ctl_in (view w) = [] ->
  closing (view w) = [] -> remote (view w) f = Some c -> (260 <= fuel)%nat ->
  exists o' w', getFileLength fuel f (st o w) = Ret (Z.of_nat (length c), st o' w') /\ kept o o' /\ view w' = view w.
Proof.
  intros [Hlogin Hsock] Hq Hs Hc Hcl Hf Hfuel. unfold getFileLength. erewrite run_bind by reflexivity. cbn [obj st]. rewrite Hsock, ctl_valid.
  set (o1 := set_command FTP_COMMAND_FILE_SIZE (line_of (SIZE f)) o).
  rewrite (run_bind _ _ _ (line_of (SIZE f)) (st o1 w)) by reflexivity.
  destruct (request_ok fuel (SIZE f) o1 w) as (w1 & w2 & E1 & E2 & V); try done.
  rewrite (run_bind _ _ _ _ _ E1). change (0 <? 0) with false. cbv iota. rewrite (run_bind _ _ _ _ _ E2).
  erewrite run_bind by reflexivity. cbn [reply_of]. rewrite Hf. set (n := Z.of_nat (length c)).
  change (reply 213 (dec n)) with ([50; 49; 51; 32] ++ dec n ++ CRLF).
  unfold lift. erewrite run_bind by (rewrite substr_ok by (rewrite ?length_app; lia); reflexivity). erewrite run_bind by reflexivity.
  change (text_number _ =? 213) with true. cbv iota.
  erewrite run_bind by (rewrite substr_ok by (unfold npos; rewrite ?length_app; cbn [length]; lia); reflexivity).
  exists (set_response ([50; 49; 51; 32] ++ dec n ++ CRLF) (set_response (reply 213 (dec n)) o1)), w2.
  split; [|split; [by repeat split|]].
  - change (drop (Z.to_nat 4) ([50; 49; 51; 32] ++ dec n ++ CRLF)) with (dec n ++ CRLF).
    apply Hs in Hf. unfold npos. set (r := dec n ++ CRLF). assert (Hlen : (length r < 30)%nat).
    { pose proof (length_dec_long n) as Hl. unfold r, CRLF, n in *. rewrite length_app. cbn [length]. lia. }
    rewrite take_ge by lia. unfold r, strtoll. rewrite text_number_dec by (done || unfold n; lia).
    unfold mret, f_ret. rewrite Z.min_r, Z.max_r by (unfold n; lia). reflexivity.
  - rewrite V. cbn. rewrite Hf. destruct (view w) as [r l ci cl di re op]. cbn in Hc. subst ci. reflexivity.
Qed.

(** ** The data connection *)

Lemma data_valid : (data =? FTP_INVALID_SOCKET) = false.
Proof. apply Z.eqb_neq. unfold FTP_INVALID_SOCKET. pose proof sockets_ok. lia. Qed.

Lemma port_range : 0 <= port here < 65536.
Proof. destruct here_ok as (_ & _ & _ & _ & B5 & B6). unfold port, byte in *. lia. Qed.

Lemma Connect_ok o w : exists w', Connect data (dotted here) (port here) (st o w) = Ret (0, st o w') /\ view w' = view w.
Proof.
  unfold Connect. rewrite data_valid. erewrite run_bind.
  2: { unfold call. cbn [host st]. destruct (sys_nonblocking w data 1) as [x w1] eqn:E.
       instantiate (1 := st o (sys_nonblocking w data 1).2). instantiate (1 := (sys_nonblocking w data 1).1). by rewrite E. }
  set (w1 := (sys_nonblocking w data 1).2). assert (V1 : view w1 = view w) by apply nonblocking_law.
  rewrite Z.mod_small by apply port_range.
  pose proof (connect_law w1) as Hc. destruct (sys_connect w1 data (dotted here) (port here)) as [[r e] w2] eqn:Ec. destruct Hc as [Hr V2].
  erewrite run_bind. 2: { unfold call. cbn [host st]. rewrite Ec. reflexivity. }
  assert (Hok : exists w3, (if r =? -1 then
            ready ← wait data true 20;
            if 0 <? ready then error ← call (fun w => sys_so_error w data); mret (error =? 0) else mret false
          else mret true) (st o w2) = Ret (true, st o w3) /\ view w3 = view w2).
  { destruct (r =? -1); [|by exists w2]. destruct (wait_ok data true 20 o w2) as (x & w3 & E & V & Hx); [auto|done|].
    apply later_data in V. rewrite (run_bind _ _ _ _ _ E). rewrite (proj2 (Z.ltb_lt 0 x)) by auto. destruct (so_error_law w3) as [S1 S2].
    exists (sys_so_error w3 data).2. split; [|congruence]. unfold mbind, f_bind, call. cbn [host st obj].
    destruct (sys_so_error w3 data) as [err w4]. cbn [fst] in S1. by subst err. }
  destruct Hok as (w3 & E3 & V3). change (obj {| obj := obj (st o w1); host := w2 |}) with o.
  change ({| obj := obj (st o w1); host := w2 |}) with (st o w2). rewrite (run_bind _ _ _ _ _ E3).
  exists (sys_nonblocking w3 data 0).2. split; [|by rewrite nonblocking_law, V3, V2].
  unfold mbind, f_bind, call. cbn [host st obj negb]. by destruct (sys_nonblocking w3 data 0).
Qed.

Lemma pasv_line : upto_nul (line_of PASV) = line_of PASV.
Proof. reflexivity. Qed.

Lemma createDataLink_ok fuel o w : online o -> sized (view w) -> ctl_in (view w) = [] -> closing (view w) = [] ->
  (260 <= fuel)%nat ->
  exists o' w', createDataLink fuel data (st o w) = Ret (0, st o' w') /\ kept o o' /\ view w' = view w.
Proof.
  intros [Hlogin Hsock] Hs Hc Hcl Hfuel. unfold createDataLink. rewrite data_valid.
  set (o1 := set_command FTP_COMMAND_PSAV_MODE (line_of PASV) o).
  destruct (request_ok fuel PASV o1 w) as (w1 & w2 & E1 & E2 & V); try done. cbn [reply_of] in E2.
  set (text := reply 227 (say 227 ++ [40] ++ address_text here ++ [41])) in *.
  rewrite (run_bind _ _ _ text (st (set_response text (set_response text o1)) w2)).
  2: { unfold Pasv. rewrite (run_bind _ _ _ (line_of PASV) (st o1 w)) by reflexivity.
       rewrite (run_bind _ _ _ ctl (st o1 w)) by (unfold field; cbn; by rewrite Hsock).
       unfold Send_text. rewrite pasv_line. rewrite (run_bind _ _ _ _ _ E1). change (0 <? 0) with false. cbv iota.
       by rewrite (run_bind _ _ _ _ _ E2). }
  set (o2 := set_response text (set_response text o1)). rewrite bool_decide_false by done.
  assert (Et : text = ([50; 50; 55; 32] ++ say 227) ++ [40] ++ address_text here ++ [41] ++ CRLF).
  { unfold text, reply. change (dec 227) with [50; 50; 55]. by rewrite <- !app_assoc. }
  destruct (passive_ok here ([50; 50; 55; 32] ++ say 227) CRLF here_ok) as (P1 & P2 & P3).
  { apply Forall_app. split; [repeat constructor; done|]. eapply Forall_impl; [apply (say_ok 227)|]. cbn. tauto. }
  { pose proof (proj1 address_text_short). pose proof (proj2 (say_ok 227)). rewrite !length_app. unfold CRLF. cbn [length]. lia. }
  unfold lift. erewrite run_bind by (rewrite Et, P1; reflexivity).
  erewrite run_bind by (rewrite P2; reflexivity). erewrite run_bind by (rewrite P3; reflexivity).
  pose proof port_range. unfold u32. rewrite Z.mod_small by lia.
  destruct (Connect_ok o2 w2) as (w3 & E3 & V3). rewrite (run_bind _ _ _ _ _ E3). change (0 <? 0) with false. cbv iota.
  exists o2, w3. split; [done|]. split; [by repeat split|]. rewrite V3, V. cbn.
  destruct (view w) as [r l ci cl di re op]. cbn in Hc. by subst ci.
Qed.

(** ** The transfer *)

Definition append_local (x : list Z) (s : site) : site :=
  match opened s with Some n => set_local n (default [] (local s n) ++ x) s | None => s end.

Lemma limit_speed_ok o w b n : exists w', limit_speed b n (st o w) = Ret (tt, st o w') /\ view w' = view w.
Proof.
  unfold limit_speed. erewrite run_bind by reflexivity. cbn [obj st]. destruct (0 <? m_nDownLoadSpeed o); [|by exists w].
  set (w1 := (tick_count w).2). rewrite (run_bind _ _ _ (tick_count w).1 (st o w1)).
  2: { unfold call, w1. cbn [host st]. by destruct (tick_count w). }
  cbv zeta. destruct (_ <? _); [|exists w1; split; [done|apply tick_law]].
  eexists. split; [reflexivity|]. cbn [host st]. rewrite sleep_law. apply tick_law.
Qed.

(** The local file [n] has become [c], and nothing else was touched. *)
Definition stored (n c : list Z) (s s' : site) : Prop :=
  local s' n = Some c /\ (forall m, m <> n -> local s' m = local s m) /\ remote s' = remote s /\
  ctl_in s' = ctl_in s /\ closing s' = closing s.

Lemma stop_ok fuel watch o w : m_pnDownState o = false -> (if (watch : bool) then paused fuel else mret false) (st o w) = Ret (false, st o w).
Proof.
  intros Hd. destruct watch; [|done]. unfold paused. erewrite run_bind by reflexivity. cbn [obj st]. by rewrite Hd.
Qed.

Definition sizes o (k : nat) : ftpClient := set_sizes (m_nDLMaxSize o) (m_nDownLoaded o + Z.of_nat k) o.

Lemma sizes_0 o : sizes o 0 = o.
Proof. unfold sizes, set_sizes. rewrite Z.add_0_r. by destruct o. Qed.

Lemma sizes_sizes o a b : sizes (sizes o a) b = sizes o (a + b).
Proof. unfold sizes, set_sizes. cbn. f_equal. lia. Qed.

(** A piece that arrives is written, and the loop goes on. *)
Lemma download_step_ok fuel watch file b name c buf n o w : m_pnDownState o = false -> length buf = 4096%nat ->
  opened (view w) = Some name -> local (view w) name = Some c -> data_in (view w) <> [] ->
  exists bytes rest buf' w', data_in (view w) = bytes ++ rest /\ bytes <> [] /\ length buf' = 4096%nat /\
    download_step fuel watch data file 0 b (FTP_DEFAULT_BUFFER, buf, n) (st o w) =
      Ret (inl (FTP_DEFAULT_BUFFER, buf', n + Z.of_nat (length bytes)), st (sizes o (length bytes)) w') /\
    data_in (view w') = rest /\ opened (view w') = Some name /\ stored name (c ++ bytes) (view w) (view w').
Proof.
  intros Hd Hb Ho Hl Hne. unfold download_step. cbv beta iota zeta. change FTP_DEFAULT_BUFFER with (Z.of_nat 4096). rewrite <- Hb.
  destruct (getData_ok data buf o w) as (k & buf0 & w1 & s & E & Hs & H); [auto|lia|rewrite Hb; lia|].
  apply later_data in Hs. subst s. rewrite waiting_data, decide_False in H by done.
  destruct H as (bytes & rest & -> & -> & Hbne & Hbl & Hsplit & V). rewrite received_data in V. rewrite (run_bind _ _ _ _ _ E). cbv beta iota zeta.
  assert (0 < length bytes)%nat by (destruct bytes; [done|cbn; lia]). rewrite (proj2 (Z.leb_gt _ 0)) by lia.
  do 2 (erewrite run_bind by reflexivity).
  rewrite (run_bind _ _ _ tt (st (sizes o (length bytes)) w1)) by reflexivity.
  set (buf1 := bytes ++ replicate (length buf - length bytes) 0).
  assert (Lb : length buf1 = 4096%nat) by (unfold buf1; rewrite length_app, length_replicate; lia).
  assert (Er : buf_read buf1 0 (Z.of_nat (length bytes)) = Ret bytes).
  { rewrite buf_read_ok by (rewrite ?Lb; lia). change (Z.to_nat 0) with 0%nat. rewrite Nat2Z.id. unfold slice. rewrite drop_0.
    unfold buf1. by rewrite take_app_length. }
  unfold lift at 1. erewrite run_bind by (rewrite Er; reflexivity).
  rewrite (run_bind _ _ _ tt (st (sizes o (length bytes)) (file_write w1 file bytes))) by reflexivity.
  erewrite run_bind.
  2: { unfold memset. rewrite decide_True by lia. rewrite buf_write_ok by (rewrite ?length_replicate, ?Lb; lia). rewrite bind_ret_l. reflexivity. }
  change (0 =? 0) with true. cbn [negb]. rewrite !andb_false_r. cbv iota beta.
  destruct (limit_speed_ok (sizes o (length bytes)) (file_write w1 file bytes) b (n + Z.of_nat (length bytes))) as (w2 & E2 & V2).
  rewrite (run_bind _ _ _ _ _ E2). rewrite (run_bind _ _ _ _ _ (stop_ok fuel watch (sizes o (length bytes)) w2 Hd)). cbv iota.
  exists bytes, rest. eexists _, w2. split; [done|]. split; [done|]. split; [|split; [reflexivity|]].
  { rewrite length_splice; rewrite ?length_replicate, ?Lb; lia. }
  assert (Vw : view w2 = set_local name (c ++ bytes) (set_data rest (view w))).
  { rewrite V2, (write_law w1 file name c bytes); rewrite V; done. }
  rewrite Vw. cbn. split; [done|]. split; [done|]. repeat split; cbn; [by rewrite decide_True|]. intros m Hm. by rewrite decide_False.
Qed.

Lemma download_end fuel watch file b buf n o w : length buf = 4096%nat -> data_in (view w) = [] ->
  exists w', download_step fuel watch data file 0 b (FTP_DEFAULT_BUFFER, buf, n) (st o w) = Ret (inr n, st o w') /\ view w' = view w.
Proof.
  intros Hb Hd. unfold download_step. cbv beta iota zeta. change FTP_DEFAULT_BUFFER with (Z.of_nat 4096). rewrite <- Hb.
  destruct (getData_ok data buf o w) as (k & buf' & w' & s & E & Hs & H); [auto|lia|rewrite Hb; lia|].
  apply later_data in Hs. subst s. rewrite waiting_data, decide_True in H by done. destruct H as [Hk V].
  rewrite (run_bind _ _ _ _ _ E). cbv beta iota zeta. rewrite (proj2 (Z.leb_le k 0)) by done. by exists w'.
Qed.

Lemma download_loop fuel watch file b name f : forall d c buf n o w, m_pnDownState o = false -> length buf = 4096%nat ->
  opened (view w) = Some name -> local (view w) name = Some c -> data_in (view w) = d -> (length d < f)%nat ->
  exists w', floop f (download_step fuel watch data file 0 b) (FTP_DEFAULT_BUFFER, buf, n) (st o w) =
      Ret (n + Z.of_nat (length d), st (sizes o (length d)) w') /\
    data_in (view w') = [] /\ stored name (c ++ d) (view w) (view w').
Proof.
  induction f as [|f IH]; intros d c buf n o w Hp Hb Ho Hl Hd Hf; [lia|]. cbn [floop]. destruct (decide (d = [])) as [->|Hne].
  - destruct (download_end fuel watch file b buf n o w) as (w' & E & V); [done|done|]. rewrite (run_bind _ _ _ _ _ E).
    exists w'. cbn [length]. rewrite Z.add_0_r, sizes_0, app_nil_r, V. split; [done|]. split; [done|]. by repeat split.
  - destruct (download_step_ok fuel watch file b name c buf n o w) as (bytes & rest & buf' & w1 & Hs & Hbne & Lb & E & D1 & O1 & S1 & S2 & S3 & S4 & S5);
      [done..|by rewrite Hd|]. rewrite (run_bind _ _ _ _ _ E). rewrite Hd in Hs. subst d. rewrite Hs in *.
    assert (0 < length bytes)%nat by (destruct bytes; [done|cbn; lia]). rewrite length_app in *.
    destruct (IH rest (c ++ bytes) buf' (n + Z.of_nat (length bytes)) (sizes o (length bytes)) w1) as (w' & E' & D' & S1' & S2' & S3' & S4' & S5');
      [done..|lia|]. exists w'. rewrite E', sizes_sizes. split; [do 2 f_equal; lia|]. split; [done|].
    rewrite app_assoc. split; [done|]. split; [intros m Hm; by rewrite S2', S2|]. split_and!; congruence.
Qed.

(** ** The local file *)

Lemma local_size_ok name o w : exists w', GetLocalFileSize name (st o w) =
    Ret (match local (view w) name with Some p => Z.of_nat (length p) | None => -1 end, st o w') /\ view w' = view w.
Proof.
  unfold GetLocalFileSize. destruct (open_read_law w name) as [V Hsome]. destruct (file_open w name (codes "rb")) as [fp w1] eqn:E.
  cbn [fst snd] in *. erewrite run_bind by (unfold call; cbn [host st]; rewrite E; reflexivity).
  destruct fp as [fp|], (local (view w) name) as [p|] eqn:El.
  - erewrite run_bind by reflexivity. unfold call. cbn [host st obj]. set (w2 := file_close w1 fp).
    assert (V2 : view w2 = view w) by (unfold w2; by rewrite file_close_law).
    destruct (size_law w2 name p) as [S1 S2]; [by rewrite V2|]. destruct (file_size w2 name) as [k w3]. cbn [fst snd] in *. subst k.
    exists w3. split; [done|congruence].
  - exfalso. destruct (proj1 Hsome) as [x Hx]; [by eexists|done].
  - exfalso. destruct (proj2 Hsome) as [x Hx]; [by eexists|done].
  - by exists w1.
Qed.

(** Opening it to append, or creating it. *)
Lemma open_local_ok name o w : let nLocal := match local (view w) name with Some p => Z.of_nat (length p) | None => -1 end in
  exists fp w', open_local name nLocal 0 (st o w) =
    Ret ((Some fp, Z.of_nat (length (default [] (local (view w) name)))), st o w') /\
    opened (view w') = Some name /\ data_in (view w') = data_in (view w) /\
    stored name (default [] (local (view w) name)) (view w) (view w').
Proof.
  intros nLocal. unfold open_local, nLocal. destruct (local (view w) name) as [p|] eqn:El; cbn [default from_option].
  - rewrite (proj2 (Z.leb_le 0 _)) by lia. destruct (open_append_law w name p El) as [[fp Hfp] V].
    destruct (file_open w name (codes "a+b")) as [o1 w1] eqn:E. cbn [fst snd] in *. subst o1.
    erewrite run_bind by (unfold call; cbn [host st]; rewrite E; reflexivity). exists fp, (file_seek w1 fp 0).
    split; [done|]. rewrite seek_law, V. cbn. done.
  - rewrite (proj2 (Z.leb_gt 0 _)) by lia. destruct (open_create_law w name) as [[fp Hfp] V]. unfold createLocalFile.
    destruct (file_open w name (codes "w+b")) as [o1 w1] eqn:E. cbn [fst snd] in *. subst o1.
    erewrite run_bind by (unfold call; cbn [host st]; rewrite E; reflexivity). exists fp, w1. split; [done|]. rewrite V. cbn.
    do 2 (split; [done|]). repeat split; cbn; [by rewrite decide_True|]. intros m Hm. by rewrite decide_False.
Qed.

Lemma short_rest n : 0 <= n < 2 ^ 63 -> short (REST n).
Proof.
  intros Hn. unfold short. cbn [line_of]. unfold print_int. rewrite (proj2 (Z.ltb_ge n 0)) by lia. pose proof (length_dec_long n Hn).
  rewrite !length_app. unfold CRLF. cbn [length]. change (length (codes "REST ")) with 5%nat. lia.
Qed.

Lemma rest_view n s : ctl_in s = [] -> set_ctl [] (serve say here (REST n) s) = set_restart n s.
Proof. destruct s. cbn. by intros ->. Qed.

Lemma call_run {A} (f : W -> A * W) o w : call f (st o w) = Ret ((f w).1, st o (f w).2).
Proof. unfold call. cbn [host st obj]. by destruct (f w). Qed.

(** The codes the client looks at. *)
Lemma code_ok k t r : 0 <= k < 1000 -> (code_of (reply k t ++ r) : F W Z) = lift (Ret k).
Proof. intros Hk. unfold code_of. by rewrite reply_code. Qed.

(** The data are on their way, and the reply that ends the transfer is read or
    still to come. *)
Lemma download_request_ok fuel e f k c o w : online o -> sized (view w) -> ctl_in (view w) = [] -> closing (view w) = [] ->
  remote (view w) f = Some c -> 0 <= k < 2 ^ 63 -> short (RETR f) -> (260 <= fuel)%nat ->
  exists o' w' left, download_request fuel e data f (print_int k) (st o w) = Ret (None, st o' w') /\ kept o o' /\
    (left = [] \/ left = reply 226 (say 226)) /\
    view w' = set_closing left (set_restart 0 (set_data (data_in (view w) ++ drop (Z.to_nat k) c) (set_restart k (view w)))).
Proof.
  intros On Hs Hci Hcl Hf Hk HR Hfuel. unfold download_request.
  destruct (createDataLink_ok fuel o w) as (o1 & w1 & E1 & K1 & V1); [done..|].
  rewrite (run_bind _ _ _ _ _ E1). change (0 <? 0) with false. cbv iota. pose proof (kept_online _ _ K1 On) as [L1 S1].
  set (o2 := set_command FTP_COMMAND_DOWNLOAD_POS (line_of (REST k)) o1).
  rewrite (run_bind _ _ _ (line_of (REST k)) (st o2 w1)) by reflexivity.
  rewrite (run_bind _ _ _ ctl (st o2 w1)) by (unfold field; cbn; by rewrite S1).
  destruct (request_ok fuel (REST k) o2 w1) as (w2 & w3 & E2 & E3 & V3); [done|by apply short_rest|by rewrite V1..|done|done|].
  rewrite (run_bind _ _ _ _ _ E2). change (0 <? 0) with false. cbv iota. rewrite (run_bind _ _ _ _ _ E3).
  rewrite rest_view, V1 in V3 by (by rewrite V1). cbn [reply_of]. rewrite <- (app_nil_r (reply 350 _)), code_ok by done.
  erewrite run_bind by reflexivity. set (o3 := set_response (reply 350 (say 350) ++ []) o2).
  set (o4 := set_command FTP_COMMAND_DOWNLOAD_FILE (line_of (RETR f)) o3).
  rewrite (run_bind _ _ _ (line_of (RETR f)) (st o4 w3)) by reflexivity.
  destruct (retr_ok fuel f c o4 w3) as (w4 & w5 & read & left & E4 & E5 & _ & Hleft & V5); [done|done|by rewrite V3..|done|].
  rewrite (run_bind _ _ _ _ _ E4). change (0 <? 0) with false. cbv iota. rewrite (run_bind _ _ _ _ _ E5), code_ok by done.
  erewrite run_bind by reflexivity. rewrite V3 in V5. do 2 eexists. exists left. split; [reflexivity|].
  split; [|split; [done|exact V5]]. eapply kept_trans; [exact K1|]. by repeat split.
Qed.

Lemma download_transfer_ok fuel watch e name downlen p missing o w : m_pnDownState o = false ->
  local (view w) name = p -> data_in (view w) = missing -> Z.of_nat (length missing) < 2 ^ 31 -> (length missing < fuel)%nat ->
  exists o' w', download_transfer fuel watch e data name (match p with Some p => Z.of_nat (length p) | None => -1 end) downlen 0 0 (st o w) =
      Ret ((Z.of_nat (length missing), Z.of_nat (length missing)), st o' w') /\
    stored name (default [] p ++ missing) (view w) (view w') /\ m_bLogin o' = m_bLogin o /\ m_cmdSocket o' = m_cmdSocket o /\
    m_nDLMaxSize o' = m_nDLMaxSize o /\ m_nDownLoaded o' = Z.of_nat (length (default [] p ++ missing)).
Proof.
  intros Hd Hl Hdi Hm Hfuel. unfold download_transfer. cbv zeta.
  destruct (open_local_ok name o w) as (fp & w1 & E1 & O1 & D1 & S1). rewrite Hl in *.
  rewrite (run_bind _ _ _ _ _ E1). cbv beta iota. rewrite (run_bind _ _ _ _ _ (call_run _ o w1)).
  set (w2 := (tick_count w1).2). assert (V2 : view w2 = view w1) by apply tick_law.
  erewrite run_bind by reflexivity. set (o1 := set_sizes (m_nDLMaxSize o) (Z.of_nat (length (default [] p))) o).
  rewrite (run_bind _ _ _ tt (st o1 w2)) by reflexivity. change (negb (0 =? 0) && _) with false. cbv iota.
  destruct S1 as (S1 & S2 & S3 & S4 & S5).
  destruct (download_loop fuel watch fp (tick_count w1).1 name fuel missing (default [] p)
    (replicate (Z.to_nat FTP_DEFAULT_BUFFER) 0) 0 o1 w2) as (w3 & E3 & D3 & T1 & T2 & T3 & T4 & T5); try done; try (by rewrite V2).
  { by rewrite V2, D1. }
  rewrite (run_bind _ _ _ _ _ E3). rewrite (run_bind _ _ _ _ _ (call_run _ _ w3)).
  rewrite (run_bind _ _ _ tt (st (sizes o1 (length missing)) (sys_close (tick_count w3).2 data).2)).
  2: { unfold Close. by rewrite (run_bind _ _ _ _ _ (call_run _ _ _)). }
  erewrite run_bind by reflexivity. rewrite Z.add_0_l, (proj2 (Z.leb_gt _ _)) by lia.
  do 2 eexists. split; [reflexivity|]. cbn [host st]. rewrite file_close_law, close_law, tick_law. split.
  - split; [done|]. split; [intros m Hne; by rewrite T2, V2, S2|]. split_and!; congruence.
  - do 3 (split; [done|]). cbn. rewrite length_app. lia.
Qed.

(** What a completed download leaves: the whole file [c] under [name] and no
    other file changed, the sizes, and nothing unread on the control connection;
    the reply that ends the transfer has been read or is still to come. *)
Record completed (name c : list Z) (s : site) o' (s' : site) : Prop := {
  done_local : local s' name = Some c;
  done_others : forall m, m <> name -> local s' m = local s m;
  done_remote : remote s' = remote s;
  done_sizes : m_nDLMaxSize o' = Z.of_nat (length c) /\ m_nDownLoaded o' = Z.of_nat (length c);
  done_online : online o';
  done_control : ctl_in s' = [] /\ (closing s' = [] \/ closing s' = reply 226 (say 226))
}.

Lemma download_ok (fuel : nat) (watch : bool) (e : down_codes) (f g : list Z) (downlen : Z) o w (c missing : list Z) :
  let name := m_strLocalDir o ++ g in
  let had := default [] (local (view w) name) in
  online o -> m_pnDownState o = false -> sized (view w) -> ctl_in (view w) = [] -> closing (view w) = [] ->
  data_in (view w) = [] -> remote (view w) f = Some c -> c = had ++ missing -> Z.of_nat (length missing) < 2 ^ 31 ->
  short (SIZE f) -> short (RETR f) -> (260 <= fuel)%nat -> (length missing < fuel)%nat ->
  exists o' w', download fuel watch e f g downlen 0 0 (st o w) =
      Ret ((Z.of_nat (length missing), Z.of_nat (length missing)), st o' w') /\ completed name c (view w) o' (view w').
Proof.
  intros name had Hon Hd Hs Hci Hcl Hdi Hf Hc Hm HS HR Hfuel Hfuel2. unfold download.
  destruct (socket_law w) as [Sk Vk]. rewrite (run_bind _ _ _ _ _ (call_run _ o w)), Sk.
  set (w0 := (sys_socket w).2) in *. rewrite (proj2 (Z.ltb_ge data 0)) by apply sockets_ok. erewrite run_bind by reflexivity.
  cbn [obj st]. fold name. cbv zeta.
  destruct (getFileLength_ok fuel f c o w0) as (o1 & w1 & E1 & K1 & V1); try (rewrite Vk; done); try done.
  rewrite (run_bind _ _ _ _ _ E1). erewrite run_bind by reflexivity.
  set (o2 := set_sizes (Z.of_nat (length c)) (m_nDownLoaded (obj (st o1 w1))) o1). rewrite (run_bind _ _ _ tt (st o2 w1)) by reflexivity.
  destruct (local_size_ok name o2 w1) as (w2 & E2 & V2). rewrite (run_bind _ _ _ _ _ E2).
  assert (Vw : view w2 = view w) by congruence. rewrite V1, Vk. set (p := local (view w) name) in *.
  set (nLocal := match p with Some _ => _ | None => _ end).
  assert (Hpos : (if 0 <=? nLocal then nLocal else 0) = Z.of_nat (length had)).
  { unfold nLocal, had. destruct p; [|done]. by rewrite (proj2 (Z.leb_le 0 _)) by lia. }
  rewrite Hpos. assert (Hlc : Z.of_nat (length had) + Z.of_nat (length missing) = Z.of_nat (length c)) by (rewrite Hc, length_app; lia).
  pose proof (Hs f c Hf) as Hc63.
  destruct (download_request_ok fuel e f (Z.of_nat (length had)) c o2 w2) as (o3 & w3 & left & E3 & K3 & Hleft & V3);
    try (rewrite Vw; done); try done; [exact (kept_online _ _ K1 Hon)|lia|].
  rewrite (run_bind _ _ _ _ _ E3). rewrite Vw in V3. rewrite Hdi, Nat2Z.id in V3.
  replace (drop (length had) c) with missing in V3 by (rewrite Hc; by rewrite drop_app_length).
  destruct (download_transfer_ok fuel watch e name downlen p missing o3 w3) as (o4 & w4 & E4 & (S1 & S2 & S3 & S4 & S5) & L4 & C4 & M4 & N4);
    try done; try (rewrite V3; done).
  { destruct K3 as (_ & _ & _ & _ & K3 & _). rewrite K3. destruct K1 as (_ & _ & _ & _ & K1 & _). exact (eq_trans K1 Hd). }
  exists o4, w4. split; [exact E4|]. fold had in S1, N4. rewrite <- Hc in S1, N4. rewrite V3 in S2, S3, S4, S5.
  pose proof (kept_online o2 _ K3 (kept_online _ _ K1 Hon)) as [On1 On2]. split; [done|done|done| |split; congruence|].
  - split; [|done]. rewrite M4. by destruct K3 as (_ & _ & _ & _ & _ & K3 & _).
  - rewrite S4, S5. split; [exact Hci|]. by destruct Hleft as [-> | ->]; [left|right].
Qed.

(** C37: resuming a download with [Get] or [Get64], the calls for a whole file.
    Over a connection that is logged in, to a server that has the file, with a
    local file that holds a beginning of it (or none) and no variable of the
    caller that pauses the transfer, both append exactly the bytes that were
    missing and return their number, however the connection cuts them and
    whenever the reply that ends the transfer comes.  The server is [FtpSite]:
    its first reply to a command is there, and more data is there, before a wait
    of one second ends; without this a download stops early and is reported as
    complete. *)
Theorem download_resumes (fuel : nat) (f g : list Z) (downlen : Z) o w (c missing : list Z) :
  let name := m_strLocalDir o ++ g in
  let had := default [] (local (view w) name) in
  online o -> m_pnDownState o = false -> sized (view w) -> ctl_in (view w) = [] -> closing (view w) = [] ->
  data_in (view w) = [] -> remote (view w) f = Some c -> c = had ++ missing -> Z.of_nat (length missing) < 2 ^ 31 ->
  short (SIZE f) -> short (RETR f) -> (260 <= fuel)%nat -> (length missing < fuel)%nat ->
  (exists o' w', Get fuel f g (st o w) = Ret (Z.of_nat (length missing), st o' w') /\
     completed name c (view w) o' (view w')) /\
  (exists o' w', Get64 fuel f g downlen (st o w) =
       Ret ((Z.of_nat (length missing), Z.of_nat (length missing)), st o' w') /\
     completed name c (view w) o' (view w')).
Proof.
  intros name had Hon Hd Hs Hci Hcl Hdi Hf Hc Hm HS HR Hfuel Hfuel2. unfold Get, Get64, downLoad, downLoad64. split.
  - edestruct (download_ok fuel false) as (o' & w' & E & H); [done..|]. exists o', w'. split; [|exact H].
    exact (run_bind _ _ _ _ _ E).
  - by eapply download_ok.
Qed.
End session.

(** ** A host

    The reference machine with a script of the sizes of the next pieces; the
    reply that ends a transfer comes with the first wait for the control
    connection after the data have been received. *)
Record net := { place : site; pieces : list nat }.

Definition net_say (k : Z) : list Z := codes "done".
Definition net_here : address := {| h1 := 10; h2 := 0; h3 := 0; h4 := 7; p1 := 4; p2 := 1 |}.

Definition request_of (line : list Z) : request :=
  let arg := take (length line - 7) (drop 5 line) in
  if bool_decide (take 5 line = codes "SIZE ") then SIZE arg
  else if bool_decide (take 5 line = codes "PASV ") then PASV
  else if bool_decide (take 5 line = codes "REST ") then REST (text_number arg)
  else RETR arg.

Lemma take_line (f : list Z) : take (length (f ++ CRLF) + 5 - 7) (f ++ CRLF) = f.
Proof. rewrite length_app. change (length CRLF) with 2%nat. replace (length f + 2 + 5 - 7)%nat with (length f) by lia. apply take_app_length. Qed.

Lemma request_of_line q : request_of (line_of q) = q.
Proof.
  assert (H : forall v f : list Z, length v = 5%nat -> take (length (v ++ f ++ CRLF) - 7) (drop 5 (v ++ f ++ CRLF)) = f).
  { intros v f Hv. replace (drop 5 (v ++ f ++ CRLF)) with (f ++ CRLF) by (rewrite <- Hv; by rewrite drop_app_length).
    rewrite length_app, Hv, (Nat.add_comm 5). apply take_line. }
  unfold request_of. destruct q as [f| |n|f]; cbn [line_of]; [by rewrite H|done| |by rewrite H].
  rewrite H by done. cbn. rewrite <- (app_nil_r (print_int n)), text_number_print_int by done. done.
Qed.

Definition net_recv (w : net) (fd n : Z) : list Z * Z * Z * net :=
  let x := if decide (fd = 5) then ctl_in (place w) else data_in (place w) in
  let k := Z.to_nat (match pieces w with m :: _ => Z.min n (Z.of_nat (S m)) | [] => n end) in
  let s := if decide (fd = 5) then set_ctl (drop k x) (place w) else set_data (drop k x) (place w) in
  (take k x, Z.of_nat (length (take k x)), 0, {| place := s; pieces := tail (pieces w) |}).

Definition net_select (w : net) (fd : Z) (b : bool) : Z * Z * net :=
  let s := if decide (fd = 5) then if bool_decide (data_in (place w) = []) then arrived (place w) else place w else place w in
  let x := if decide (fd = 5) then ctl_in s else data_in s in
  (if b then 1 else if bool_decide (x = []) then 0 else 1, 0, {| place := s; pieces := pieces w |}).

#[global] Instance net_system : System net := {
  sys_socket w := (6, w);
  sys_dgram w := (6, w);
  sys_close w _ := (0, w);
  sys_bind w _ _ _ := (0, w);
  sys_connect w _ _ _ := (-1, EINPROGRESS, w);
  sys_listen w _ _ := (0, w);
  sys_accept w _ := (-1, EWOULDBLOCK, w);
  sys_setsockopt w _ _ _ _ := (0, w);
  sys_getsockname w _ := (0, [], w);
  sys_send w _ d := (Z.of_nat (length d), 0, {| place := serve net_say net_here (request_of d) (place w); pieces := pieces w |});
  sys_recv w fd n := net_recv w fd n;
  sys_select w fd b _ := net_select w fd b;
  sys_so_error w _ := (0, w);
  sys_getfl w _ := (0, w);
  sys_setfl w _ _ := (0, w)
}.

Definition with_place (s : site) (w : net) : net := {| place := s; pieces := pieces w |}.

#[global] Instance net_host : FtpHost net := {
  ftp_net := net_system;
  sys_nonblocking w _ _ := (0, w);
  file_open w n m :=
    if decide (m = codes "w+b") then (Some 1, with_place (set_opened n (set_local n [] (place w))) w)
    else match local (place w) n with
         | None => (None, w)
         | Some _ => (Some 1, if decide (m = codes "a+b") then with_place (set_opened n (place w)) w else w)
         end;
  file_close w _ := w;
  file_size w n := (Z.of_nat (length (default [] (local (place w) n))), w);
  file_seek w _ _ := w;
  file_read w _ _ := ([], w);
  file_eof w _ := (true, w);
  file_write w _ x :=
    match opened (place w) with
    | Some n => with_place (set_local n (default [] (local (place w) n) ++ x) (place w)) w
    | None => w
    end;
  tick_count w := (0, w);
  host_sleep w _ := w;
  down_state w := (0, w)
}.

#[global, refine] Instance net_site : FtpSite net 5 6 := { view := place; say := net_say; here := net_here }.
Proof.
  - intros k. split; [by repeat constructor|]. apply Nat.leb_le. reflexivity.
  - unfold address_ok, byte. cbn. lia.
  - lia.
  - done.
  - done.
  - intros w. cbn. auto.
  - done.
  - done.
  - intros w fd b tv _ _. cbn. unfold net_select, later. cbn. split.
    + destruct (decide (fd = 5)) as [->|]; [|by left]. case_bool_decide; [by right|by left].
    + intros [->|H]; [done|]. destruct b; [done|]. rewrite bool_decide_false; [done|]. exact H.
  - intros w q. cbn. by rewrite request_of_line.
  - intros w fd n _ Hn. cbn. unfold net_recv. set (x := if decide (fd = 5) then _ else _).
    set (k := Z.to_nat _). assert (Hk : (0 < k)%nat) by (unfold k; destruct (pieces w); lia).
    assert (Hkn : Z.of_nat k <= n) by (unfold k; destruct (pieces w); lia).
    destruct (decide (x = [])) as [Hx|Hx].
    + rewrite Hx, take_nil, drop_nil. split; [done|]. split; [by left|]. cbn. unfold x in Hx.
      destruct (decide (fd = 5)), (place w); cbn in *; by subst.
    + split; [intros E; apply (f_equal length) in E; rewrite length_take in E; destruct x; [done|cbn in E; lia]|].
      split; [done|]. split; [rewrite length_take; lia|]. exists (drop k x). by rewrite take_drop.
  - intros w n. cbn. destruct (local (place w) n) eqn:E; cbn; rewrite ?E; split; try done; split; by intros [? ?].
  - intros w n c Hc. cbn. by rewrite Hc.
  - intros w n c Hc. cbn. rewrite Hc. cbn. split; [by eexists|done].
  - intros w n. cbn. split; [by eexists|done].
  - done.
  - intros w fp n c x Ho Hc. cbn. by rewrite Ho, Hc.
  - done.
  - done.
  - done.
Defined.

Definition sample_client : ftpClient := set_login true (set_socket 5 (new_ftpClient 21 0)).
Definition sample_name : list Z := FTP_DEFAULT_PATH ++ codes "a.txt".
Definition sample_net : net :=
  {| place := {| remote := fun n => if decide (n = codes "b.txt") then Some (codes "hello world") else None;
                 local := fun n => if decide (n = sample_name) then Some (codes "hello") else None;
                 ctl_in := []; closing := []; data_in := []; restart := 0; opened := None |};
     pieces := [3; 0; 40; 2; 1]%nat |}.

Lemma download_resumes_witness : exists o' w',
  Get 300 (codes "b.txt") (codes "a.txt") {| obj := sample_client; host := sample_net |} = Ret (6, {| obj := o'; host := w' |}) /\
  local (place w') sample_name = Some (codes "hello world") /\ m_nDownLoaded o' = 11.
Proof.
  destruct (download_resumes 5 6 300 (codes "b.txt") (codes "a.txt") 0 sample_client sample_net (codes "hello world") (codes " world"))
    as ((o' & w' & E & S) & _).
  - split; reflexivity.
  - reflexivity.
  - intros f c. cbn. destruct (decide _); [|discriminate]. intros [= <-]. reflexivity.
  - reflexivity.
  - reflexivity.
  - reflexivity.
  - reflexivity.
  - reflexivity.
  - reflexivity.
  - reflexivity.
  - reflexivity.
  - apply Nat.leb_le. reflexivity.
  - apply Nat.ltb_lt. reflexivity.
  - exists o', w'. destruct S as [S1 _ _ [_ S2] _ _]. split; [exact E|split; [exact S1|exact S2]].
Defined.

(** What is asked for in pieces of fewer than eight bytes overflows the buffer:
    [memset] clears the size of a pointer. *)
Lemma short_length_overflows : downLoad 300 (codes "b.txt") (codes "a.txt") 0 6 {| obj := sample_client; host := sample_net |} = Undef.
Proof. vm_compute. reflexivity. Qed.

(** The reply that ends a transfer comes when the data have been received; it is
    then taken for the answer to the next command. *)
Lemma late_reply_taken_for_next :
  fst <$> (Get 300 (codes "b.txt") (codes "a.txt");; getFileLength 300 (codes "b.txt")) {| obj := sample_client; host := sample_net |}
    = Ret (-1).
Proof. vm_compute. reflexivity. Qed.

(** A wait that ends without data ends the download, whatever is still to be
    received, with a number of bytes as for a complete file. *)
Lemma silence_ends_download {W : Type} `{!FtpHost W} fuel watch data file b buf n (s : ftp W) w' :
  length buf = 4096%nat -> data <> FTP_INVALID_SOCKET ->
  (exists r e, sys_select (host s) data false (1, 0) = (r, e, w') /\ r <= 0) ->
  download_step fuel watch data file 0 b (FTP_DEFAULT_BUFFER, buf, n) s = Ret (inr n, {| obj := obj s; host := w' |}).
Proof.
  intros Hb Hd (r & e & Es & Hr). unfold download_step, getData. cbv beta iota zeta.
  rewrite (proj2 (Z.eqb_neq data _) Hd). unfold lift at 1, memset. rewrite decide_True by done.
  unfold mbind, f_bind. rewrite buf_write_ok by (rewrite ?length_replicate, ?Hb; done). cbn [mbind cpp_bind].
  unfold wait, call, lift. cbn [mbind cpp_bind host obj]. rewrite Es. cbn [mbind cpp_bind].
  by rewrite (proj2 (Z.ltb_ge 0 r)) by lia.
Qed.
