(* ===== verification/CharEncode.v ===== *)
(** * Conversions of character sets (src/public/characterEncode/charEncodeTransfer.cpp)

    The calls of iconv are the operations of [Iconv]: a descriptor for two
    names, and what a conversion answers and writes within a capacity. *)
From S2P Require Import Prelude Words Buffers CString.

Class Iconv := {
  iconv_open : list Z -> list Z -> Z;
  iconv : Z -> list Z -> nat -> Z * list Z
}.

Section encode.
Context `{!Iconv}.

(** The result, the output buffer and the descriptors that are still open. *)
Definition code_convert (from_charset to_charset inbuf : list Z) (inlen : Z) (outbuf : list Z) (outlen : Z) (open : list Z)
    : cpp (Z * list Z * list Z) :=
  let cd := iconv_open to_charset from_charset in
  if cd =? 0 then Ret (-1, outbuf, open)
  else
    x ← buf_read inbuf 0 inlen;
    let '(r, y) := iconv cd x (Z.to_nat outlen) in
    outbuf ← buf_write outbuf 0 y;
    if r =? -1 then Ret (-1, outbuf, cd :: open) else Ret (0, outbuf, open).

(** The two conversions: a [string] of twice the length and two. *)
Definition convert_text (from_charset to_charset inbuf : list Z) (open : list Z) : cpp (list Z * list Z) :=
  nLen ← strlen inbuf;
  size ← int_checked (nLen * 2 + 2);
  let strRet := replicate (Z.to_nat size) 0 in
  '(r, strRet, open) ← code_convert from_charset to_charset inbuf nLen strRet size open;
  if negb (r =? 0) then text ← buf_read inbuf 0 nLen; Ret (text, open) else Ret (strRet, open).

Definition UTF8toGBK (inbuf open : list Z) : cpp (list Z * list Z) := convert_text (codes "uft-8") (codes "gbk") inbuf open.
Definition GBKtoUTF8 (inbuf open : list Z) : cpp (list Z * list Z) := convert_text (codes "gbk") (codes "utf-8") inbuf open.

Lemma convert_ok from to s r cd z y open : Forall (fun c => c <> 0) s -> Z.of_nat (length s) * 2 + 2 < 2 ^ 31 ->
  iconv_open to from = cd -> cd <> 0 -> iconv cd s (2 * length s + 2) = (z, y) -> (length y <= 2 * length s + 2)%nat ->
  convert_text from to (s ++ 0 :: r) open =
    Ret (if z =? -1 then (s, cd :: open) else (y ++ replicate (2 * length s + 2 - length y) 0, open)).
Proof.
  intros Hs Hl Eo Hcd Ec Hy. unfold convert_text, code_convert.
  rewrite strlen_ok, bind_ret_l, int_checked_id, bind_ret_l by (done || unfold is_int; lia).
  assert (Er : buf_read (s ++ 0 :: r) 0 (Z.of_nat (length s)) = Ret s).
  { rewrite buf_read_ok by (rewrite ?length_app; cbn [length]; lia). rewrite Nat2Z.id. change (Z.to_nat 0) with 0%nat.
    by rewrite slice_app_l, slice_all by lia. }
  rewrite Eo, (proj2 (Z.eqb_neq cd 0)), Er, bind_ret_l by done.
  replace (Z.to_nat (Z.of_nat (length s) * 2 + 2)) with (2 * length s + 2)%nat by lia. rewrite Ec.
  rewrite buf_write_ok, bind_ret_l by (rewrite ?length_replicate; lia). destruct (z =? -1); rewrite bind_ret_l; cbn [Z.eqb negb].
  - done.
  - do 2 f_equal. change (Z.to_nat 0) with 0%nat. unfold splice. change (take 0 _) with (@nil Z). cbn [app].
    by rewrite Nat.add_0_l, drop_replicate.
Qed.

(** The result of a conversion ends in as many zeros as the buffer was too long. *)
Lemma converted_text_padded s r cd y open : Forall (fun c => c <> 0) s -> Z.of_nat (length s) * 2 + 2 < 2 ^ 31 ->
  iconv_open (codes "utf-8") (codes "gbk") = cd -> cd <> 0 -> iconv cd s (2 * length s + 2) = (0, y) ->
  (length y <= 2 * length s + 2)%nat ->
  GBKtoUTF8 (s ++ 0 :: r) open = Ret (y ++ replicate (2 * length s + 2 - length y) 0, open).
Proof. intros. unfold GBKtoUTF8. by rewrite (convert_ok _ _ s r cd 0 y open). Qed.

(** With an iconv that does not know the misspelt name the text comes back as it was, and a descriptor -1 is taken for open. *)
Lemma misspelt_name_does_not_convert s r open : Forall (fun c => c <> 0) s -> Z.of_nat (length s) * 2 + 2 < 2 ^ 31 ->
  iconv_open (codes "gbk") (codes "uft-8") = -1 -> (forall x n, iconv (-1) x n = (-1, [])) ->
  UTF8toGBK (s ++ 0 :: r) open = Ret (s, -1 :: open).
Proof. intros Hs Hl Eo Ec. unfold UTF8toGBK. rewrite (convert_ok _ _ s r (-1) (-1) [] open); try done. cbn. lia. Qed.
End encode.
